(* ===== verification/_CoqProject ===== *)
-Q . S2P
Prelude.v
Stream.v
Text.v
Net.v
Protocol.v
Auth.v
Config.v
KeySync.v
Ipc.v
Mux.v
Resolver.v
Manager.v
Daemon.v
Delivery.v
Server.v
Owner.v
Node.v
Tunnel.v
Bootstrap.v
GoClient.v
ConnState.v
Evidence.v
Threads.v
Hub.v
HubControl.v
HubRelay.v
HubSession.v
HubDemo.v
Signal.v
SignalSafe.v
SignalMeet.v
SignalDemo.v
Ros.v
Heartbeat.v
Ice.v
IceNet.v
WebRtc.v
Turn.v
Store.v
Service.v
IceAgent.v
IceAgentSafe.v
IceAgentDemo.v
PyClient.v
