(* ===== verification/Prelude.v ===== *)
(** * roboat: a verification development

    roboat connects robots and agents.  An agent process talks to the local daemon
    [roboatd] over a Unix socket (JSON messages, ipc.rs and server.rs); the daemon
    opens and accepts TCP connections to other daemons (manager.rs), authenticates
    them with Ed25519 (auth.rs), and carries streams over them, one per connection or
    multiplexed with priorities (mux.rs), all as length-prefixed frames
    (protocol.rs).  Agent names are looked up at a registry (the resolver crate).  On
    the robot, a tunnel server (tunnel.rs) serves command-line clients over the same
    frames and handshake, with its allowlist from the configuration (config.rs) and
    the platform (authorized_keys.rs), reports to the platform (heartbeat.rs) and runs
    ROS commands (ros.rs).  The webrtc crate sets up a peer-to-peer connection with
    the help of signalling and of a vendored ICE implementation.  The platform, in Go,
    calls the tunnel server (relay/bootstrap.go), keeps track of robots
    (connstate/state.go) and of connection attempts (connstate/evidence.go), and limits
    its triggers (relay/fallback_gate.go).  Its hub (relay/relay.go, relay/server.go)
    holds the WebSocket connections of agents, sends commands and triggers over them, and
    relays sessions of users to ports of robots.  Its signalling server (webrtc/) brings
    the WebRTC ends of robots and clients together and gives out TURN credentials.  The
    service around them (cmd/tunnel-svc, internal/) knows robots by a store of its own and
    clients by the operations service, which in turn sends commands through an internal
    API.  Applications in Go and Python talk to [roboatd] through client libraries
    (client.go, daemon.py).

    ** Files

    Source paths are under src/rust/crates unless they start with vendor or bin
    (then src/rust), go or clients (then src).

    - [Prelude.v]: the [result] monad, the I/O monad with [Done], [Fail] and
      [Pending] outcomes, machine-width wrap-around, bytes and big-endian integers,
      and lemmas on maps.
    - [Stream.v]: tokio's byte streams.  A [source] has the bytes that have arrived
      and what comes after them (still open, closed, broken); a [sink] has what was
      written, the room left and the error it may run into.  The class [Parser]
      states what a reader promises: it consumes a prefix and depends on nothing
      else, so that partial input makes it wait or report the end.
    - [Text.v], [Net.v]: what the code uses of Rust's [str], of number formatting and
      parsing, of UTF-8, and of [std::net::IpAddr].
    - [Protocol.v]: roboat-core/src/protocol.rs.
    - [Auth.v]: roboat-core/src/auth.rs.
    - [Config.v]: roboat-core/src/config.rs.
    - [KeySync.v]: roboat-core/src/authorized_keys.rs.
    - [Ipc.v]: roboat-daemon/src/ipc.rs.
    - [Mux.v]: roboat-daemon/src/mux.rs.  The state [mux] has the two write queues,
      the stream table with its channels, and where the read task and unfinished API
      calls stand; [step] is one atomic event (up to an await) of any party, [run] an
      interleaving.
    - [Resolver.v]: roboat-resolver/src/lib.rs.
    - [Manager.v]: roboat-daemon/src/manager.rs.  The state [daemon] has the stream
      table, the connections, the pool and one [bridge] per stream task; [dstep] and
      [drun] are its events, among them the two halves of a [send] that waits while it
      holds the table's lock.
    - [Daemon.v], [Delivery.v]: the daemon's invariant [daemon_wf]; what is sent on a
      stream of one daemon and received on another; failed dials.
    - [Server.v]: roboat-daemon/src/server.rs, request by request and task by task.
    - [Owner.v], [Node.v]: the whole process: [IpcServer::run] with its agents on one
      manager.  [nstep] is a step of any of its tasks, [ntrace] the daemon's events in a
      run; [Owner.v] shows that each receiver has one owner.
    - [Tunnel.v]: roboat-core/src/tunnel.rs, with [tstep] and [trun] for one client and
      [vstep] and [vrun] for the server with all its clients and its application.
    - [Bootstrap.v]: go/relay/bootstrap.go, against [Tunnel.v].
    - [GoClient.v]: clients/go/roboat/client.go, against [Node.v], with the JSON objects
      of ipc.rs; [cstep] and [crun] interleave its receive loop and its callers.
    - [PyClient.v]: clients/python/roboat/daemon.py, tasks of an event loop that share
      asyncio's reader; [py_step] is a run of one of them until it waits.
    - [ConnState.v]: go/connstate/state.go ([Module Connstate]) and
      go/relay/fallback_gate.go ([Module Gate]).
    - [Evidence.v]: go/connstate/evidence.go.
    - [Threads.v]: goroutines over shared state: programs of atomic steps, a scheduler
      that interleaves any number of them, and a rely-guarantee rule ([run_safe]): what
      each thread keeps true under the steps of the others holds in every run.
    - [Hub.v]: go/relay/relay.go.  [world] is the hub with all connections, calls, queues
      and relay sessions; each handler, reader, writer and call is a thread ([entry] and
      [code] say which there are and when one can start).
    - [HubControl.v], [HubRelay.v], [HubSession.v]: theorems on commands and control
      connections, on relayed data, and on sessions; the last also models
      [TriggerBootstrap] of go/relay/server.go.  [HubDemo.v]: their witnesses.
    - [Signal.v]: go/webrtc/session.go and signaling.go, as threads over an [exchange]:
      the registry, all sessions and all connections.
    - [SignalSafe.v], [SignalMeet.v]: theorems on signalling for all interleavings, and on
      what a request leads to.  [SignalDemo.v]: their witnesses, and runs that go wrong.
    - [Ros.v]: roboat-core/src/ros.rs, with a reader of shell words as specification.
    - [Heartbeat.v]: roboat-core/src/heartbeat.rs and bin/roboatd/src/main.rs.
    - [Ice.v]: vendor/webrtc-ice/src: candidate, network_type, tcp_type, state.
    - [IceNet.v]: vendor/webrtc-ice/src: url, external_ip_mapper, control, priority,
      use_candidate, util.
    - [WebRtc.v]: roboat-webrtc/src: client.rs, lib.rs, types.rs.
    - [IceAgent.v]: vendor/webrtc-ice/src/agent: the agent with its checklist, requests,
      selectors and connection state, its tasks and the calls of the application as
      threads over one state.  [IceAgentSafe.v]: what makes it select a pair.
      [IceAgentDemo.v]: two agents that meet, and runs that go wrong.
    - [Turn.v]: go/webrtc/turn.go, against [WebRtc.v].
    - [Store.v]: go/internal/store/store.go: the statements on the table of robots, any of
      which may not be run or lose its answer, and the migrations.
    - [Service.v]: go/cmd/tunnel-svc, go/internal/config and go/internal/opsauth, against
      [Hub.v], [Signal.v], [Turn.v] and [Store.v].

    ** Code of others

    Third-party code is a type class or a section variable with the laws its
    documentation states, and an instance that shows they can hold: signatures
    ([Ed25519]), serde_json ([JsonCodec]), base64 ([Base64]), SHA-256 and hex
    ([RegistrarLibs]), Unicode's lower case ([CaseMapping]), stun messages
    ([StunMessage]), the url and crc crates, Go's JSON and formatting ([GoJson],
    [GoObjects], with what they promise about serde_json in [JsonInterop] and
    [ObjectInterop]), its strings, base64, uuid, time and floating point ([GoStrings],
    [GoBase64], [GoUuid], [Rfc3339], [Float64]), SHA-256 and HMAC, and how the database
    reads a UUID ([Sha256], [PgUuid]).  The webrtc and WebSocket crates appear as a trace
    of the calls made to them ([rtc_call]) and their answers.  Clock readings, random numbers,
    environment variables, files, and answers to HTTP requests are arguments.

    ** What the theorems show

    - Frames, IPC messages, topic packets and ICE candidates survive encoding and
      decoding, in any segmentation of the byte stream; what is accepted is an
      encoding; a stream cut anywhere yields no wrong message ([Protocol.v], [Ipc.v],
      [Ice.v]).
    - The handshake accepts exactly the holders of admitted keys, and its two halves
      always agree ([Auth.v]); a loaded configuration is secure and enforced
      ([Config.v]); synchronisation computes the union it should ([KeySync.v]).
    - Multiplexing delivers per stream, in order, without loss or mixing, for every
      interleaving of both ends; high priority goes first; stream numbers do not
      clash; the write task drains its queues ([Mux.v]).
    - Dialling and accepting agree, closing flushes, requests of agents reach the
      wire and received data reaches agents ([Manager.v], [Server.v]).
    - A daemon is well formed at all times and a failed dial leaves no trace
      ([Delivery.v]); what one agent sends is what the peer's agent, and the application
      behind the Go client, receives, over all tasks of both processes ([Node.v],
      [GoClient.v]); each failure is reported to the agent that asked ([Server.v]); each
      dial of the client gets its own answer ([GoClient.v]); streams of the Python client
      get their data in order ([PyClient.v]).
    - The Go and Rust ends of the tunnel are the same protocol; commands and triggers
      of the platform arrive and are answered ([Bootstrap.v]); liveness is what the
      history of a robot says, and triggers back off ([ConnState.v]); reports of
      connection attempts are kept for half an hour ([Evidence.v]).
    - In every interleaving at the hub: a call gets the answer to its own request, once;
      a robot has one control connection; relayed data arrives in order, at the session
      it belongs to, and what a full queue drops is counted; a session is granted to the
      owner of the robot only, and a newer one pushes the older out; a trigger takes the
      way there is ([HubControl.v], [HubRelay.v], [HubSession.v]).
    - In every interleaving of signalling connections: messages reach only the other end
      of the session, in order; each end has one connection at a time; a client that
      was replaced does not tear down its successor ([SignalSafe.v]); a request is
      admitted, refused or turned away exactly when it should be ([SignalMeet.v]).
    - A robot gets one verdict at every door of the service, by the key it was last
      provisioned with or else by the operations service; a service that starts has its
      secret and its migrations ([Service.v]); migrations are applied once and in order
      across failed starts ([Store.v]); TURN credentials are given to those who may have
      them, and agent and TURN server can use them ([Turn.v]).
    - Tunnel clients receive whole frames only, answers in order; the server counts its
      clients and routes answers to who asked ([Tunnel.v]); cached
      lookups are fresh and heartbeats verifiable ([Resolver.v]); shell arguments cannot
      escape ([Ros.v]); network tags say what the host shows ([Heartbeat.v]).
    - Both ends of an ICE session order candidate pairs alike, by the weaker
      candidate, without overflow; the NAT mapping and the port search meet their
      specification ([Ice.v], [IceNet.v]); in every interleaving of its tasks an agent
      selects only a pair that was answered with the other side's password and that the
      controlling side has chosen ([IceAgentSafe.v]); relay-only connections use the relay only and
      attempts are bounded in time ([WebRtc.v]).
    - Where the code falls short, a lemma says how: an allowlist emptied by
      synchronisation admits everyone, inbound daemon connections are not restricted,
      stream numbers of different connections collide, dead connections stay in the
      pool, a send can wait for ever or destroy what is being received, data that
      overtakes a stream's announcement is dropped by the clients, the Python client hears
      nothing once it listens, truncated lengths,
      silent ends of tasks, a port counter that wraps, two spellings of one robot, an
      activity recorded after the end of its connection, a session removed from the
      registry under a client that has just joined it, a fallback that has no address to
      call, a timeout that wraps around.

    ** Bounds and fuel

    Readers of many messages recurse on fuel of the length of the input, since each
    message takes at least its header off it ([read_frames], [read_msgs], [recvLoop]).  The write
    task gets one turn per queued item and one more ([mux_write_task]);
    [write_task_drains] shows that is enough.  The number formatter has 20 digits, as
    many as a 64-bit number needs ([decimal_spec]).  The port search has 2^16 turns,
    one per port; [listen_range_exhaustive] shows it always ends by itself.
    Interleavings are lists of events, without a bound.

    ** Not modelled

    Sockets, files, logging, HTTP and WebSocket transport are outside.  Of the Rust
    crates everything else is modelled.  Of the vendored ICE code gathering, the UDP mux,
    mDNS and statistics are left out: they open sockets, talk to servers or copy fields;
    of the agent the routine that calls the application's handlers, and the waiting of
    [dial] and [accept].  Of the Go service the registration of routes and the reverse
    proxy of the standard library are left out; of the client libraries the Go client's
    [Listen], whose read competes with the receive loop's, and the Python client's
    synchronous wrapper. *)

From Stdlib Require Export ZArith Lia ZifyBool.
From Stdlib.Strings Require Import Byte.
From Stdlib.Init Require Export Byte.
From stdpp Require Export prelude gmap strings list.
From stdpp Require Export sorting.

#[global] Open Scope Z_scope.
#[global] Set Warnings "-clear-no-such-hyp".

(** ** Rust's [Result] and its monad *)

Inductive result (E A : Type) : Type :=
| Ok (a : A)
| Err (e : E).
Arguments Ok {E A} a.
Arguments Err {E A} e.

#[export] Instance result_ret {E} : MRet (result E) := λ _ a, Ok a.
#[export] Instance result_bind {E} : MBind (result E) := λ _ _ k r,
  match r with Ok a => k a | Err e => Err e end.
#[export] Instance result_fmap {E} : FMap (result E) := λ _ _ f r,
  match r with Ok a => Ok (f a) | Err e => Err e end.
#[export] Instance result_eq_dec {E A} `{EqDecision E, EqDecision A} :
  EqDecision (result E A).
Proof. solve_decision. Defined.

Definition result_ok {E A} (r : result E A) : option A :=
  match r with Ok a => Some a | Err _ => None end.

Definition result_map_err {E F A} (f : E → F) (r : result E A) : result F A :=
  match r with Ok a => Ok a | Err e => Err (f e) end.

(** ** Durations *)

(** [Duration::from_secs], in nanoseconds *)
Definition from_secs (s : Z) : Z := s * 1000000000.

(** ** Fallible, stateful, possibly blocking operations

    An [async fn] that works on a stream is a function of the stream's state.
    Its outcome is a value, an error, or [Pending]: nothing arrived (or no room
    was left) and the peer has neither closed nor failed, so the future has not
    resolved. *)

Inductive outcome (E A : Type) : Type :=
| Done (a : A)
| Fail (e : E)
| Pending.
Arguments Done {E A} a.
Arguments Fail {E A} e.
Arguments Pending {E A}.

#[export] Instance outcome_eq_dec {E A} `{EqDecision E, EqDecision A} :
  EqDecision (outcome E A).
Proof. solve_decision. Defined.

Definition io (S E A : Type) : Type := S → outcome E A * S.

#[export] Instance io_ret {S E} : MRet (io S E) := λ _ a s, (Done a, s).
#[export] Instance io_bind {S E} : MBind (io S E) := λ _ _ k m s,
  match m s with
  | (Done a, s') => k a s'
  | (Fail e, s') => (Fail e, s')
  | (Pending, s') => (Pending, s')
  end.

(** The early return of an [Err]. *)
Definition io_fail {S E A} (e : E) : io S E A := λ s, (Fail e, s).

(** The [?] operator through [From]. *)
Definition io_map_err {S E F A} (f : E → F) (m : io S E A) : io S F A := λ s,
  match m s with
  | (Done a, s') => (Done a, s')
  | (Fail e, s') => (Fail (f e), s')
  | (Pending, s') => (Pending, s')
  end.

(** An already computed [Result]. *)
Definition io_lift {S E A} (r : result E A) : io S E A := λ s,
  match r with Ok a => (Done a, s) | Err e => (Fail e, s) end.

Lemma io_bind_Done {S E A B} (m : io S E A) (k : A → io S E B) s a s' :
  m s = (Done a, s') → (m ≫= k) s = k a s'.
Proof. intros H. unfold mbind, io_bind. by rewrite H. Qed.

Lemma io_bind_Fail {S E A B} (m : io S E A) (k : A → io S E B) s e s' :
  m s = (Fail e, s') → (m ≫= k) s = (Fail e, s').
Proof. intros H. unfold mbind, io_bind. by rewrite H. Qed.

Lemma io_bind_Pending {S E A B} (m : io S E A) (k : A → io S E B) s s' :
  m s = (Pending, s') → (m ≫= k) s = (Pending, s').
Proof. intros H. unfold mbind, io_bind. by rewrite H. Qed.

Lemma io_bind_assoc {S E A B C} (m : io S E A) (k : A → io S E B)
    (j : B → io S E C) s :
  ((m ≫= k) ≫= j) s = (m ≫= λ a, k a ≫= j) s.
Proof. unfold mbind, io_bind. by destruct (m s) as [[]]. Qed.

Lemma io_bind_ext {S E A B} (m : io S E A) (k k' : A → io S E B) s :
  (∀ a s, k a s = k' a s) → (m ≫= k) s = (m ≫= k') s.
Proof. intros H. unfold mbind, io_bind. destruct (m s) as [[]]; auto. Qed.

Lemma io_map_err_Done {S E F A} (f : E → F) (m : io S E A) s a s' :
  m s = (Done a, s') → io_map_err f m s = (Done a, s').
Proof. intros H. unfold io_map_err. by rewrite H. Qed.

Lemma io_map_err_Fail {S E F A} (f : E → F) (m : io S E A) s e s' :
  m s = (Fail e, s') → io_map_err f m s = (Fail (f e), s').
Proof. intros H. unfold io_map_err. by rewrite H. Qed.

Lemma io_map_err_Pending {S E F A} (f : E → F) (m : io S E A) s s' :
  m s = (Pending, s') → io_map_err f m s = (Pending, s').
Proof. intros H. unfold io_map_err. by rewrite H. Qed.

(** An inversion principle: a sequence that returned went through its parts. *)
Lemma io_bind_Done_inv {S E A B} (m : io S E A) (k : A → io S E B) s b s'' :
  (m ≫= k) s = (Done b, s'') →
  ∃ a s', m s = (Done a, s') ∧ k a s' = (Done b, s'').
Proof.
  unfold mbind, io_bind. destruct (m s) as [[a|e|] s']; naive_solver.
Qed.

Lemma io_map_err_Done_inv {S E F A} (f : E → F) (m : io S E A) s a s' :
  io_map_err f m s = (Done a, s') → m s = (Done a, s').
Proof. unfold io_map_err. destruct (m s) as [[]]; naive_solver. Qed.

(** ** Machine integers: [Z] at a stated width, wrap-around written out *)

Definition u8_wrap (z : Z) : Z := z mod 2 ^ 8.
Definition u16_wrap (z : Z) : Z := z mod 2 ^ 16.
Definition u32_wrap (z : Z) : Z := z mod 2 ^ 32.
Definition u64_wrap (z : Z) : Z := z mod 2 ^ 64.

(** The [as usize] length of a slice. *)
Abbreviation zlen l := (Z.of_nat (length l)).

(** ** Bytes *)

#[export] Instance byte_eq_decision : EqDecision byte := Byte.byte_eq_dec.

Definition byte_Z (b : byte) : Z := Z.of_N (Byte.to_N b).
Definition Z_byte (z : Z) : byte :=
  match Byte.of_N (Z.to_N (z mod 256)) with Some b => b | None => x00 end.

Lemma byte_Z_range b : 0 ≤ byte_Z b < 256.
Proof.
  unfold byte_Z. pose proof (Byte.to_N_bounded b).
  split; [apply N2Z.is_nonneg|]. lia.
Qed.

Lemma byte_Z_of z : byte_Z (Z_byte z) = z mod 256.
Proof.
  unfold Z_byte, byte_Z. pose proof (Z.mod_pos_bound z 256 ltac:(lia)).
  destruct (Byte.of_N _) as [b|] eqn:E.
  - apply Byte.to_of_N in E. rewrite E. lia.
  - apply Byte.of_N_None_iff in E. lia.
Qed.

Lemma byte_Z_inj b1 b2 : byte_Z b1 = byte_Z b2 → b1 = b2.
Proof.
  unfold byte_Z. intros H%N2Z.inj.
  pose proof (Byte.of_to_N b1) as E1. rewrite H, Byte.of_to_N in E1. congruence.
Qed.

Lemma Z_byte_of b : Z_byte (byte_Z b) = b.
Proof.
  apply byte_Z_inj. rewrite byte_Z_of. apply Z.mod_small, byte_Z_range.
Qed.

Lemma Z_byte_mod z : Z_byte (z mod 256) = Z_byte z.
Proof. apply byte_Z_inj. by rewrite !byte_Z_of, Zmod_mod. Qed.

(** ** Big-endian integers ([to_be_bytes] / [from_be_bytes]) *)

Fixpoint be_bytes (n : nat) (z : Z) : list byte :=
  match n with
  | O => []
  | S n => Z_byte (z / 256 ^ Z.of_nat n) :: be_bytes n z
  end.

Fixpoint be_value (bs : list byte) : Z :=
  match bs with
  | [] => 0
  | b :: bs => byte_Z b * 256 ^ zlen bs + be_value bs
  end.

Lemma length_be_bytes n z : length (be_bytes n z) = n.
Proof. induction n; simpl; congruence. Qed.

Lemma be_value_bytes n z : be_value (be_bytes n z) = z mod 256 ^ Z.of_nat n.
Proof.
  induction n as [|n IH]; [by rewrite Z.mod_1_r|].
  cbn [be_bytes be_value]. rewrite IH, length_be_bytes, byte_Z_of.
  rewrite Nat2Z.inj_succ, Z.pow_succ_r, (Z.mul_comm 256), Z.rem_mul_r by lia.
  lia.
Qed.

Lemma be_value_range bs : 0 ≤ be_value bs < 256 ^ zlen bs.
Proof.
  induction bs as [|b bs IH]; [simpl; lia|]. cbn [be_value length].
  rewrite Nat2Z.inj_succ, Z.pow_succ_r by lia.
  pose proof (byte_Z_range b). nia.
Qed.

Lemma be_bytes_add n z k : be_bytes n (z + k * 256 ^ Z.of_nat n) = be_bytes n z.
Proof.
  revert k. induction n as [|n IH]; intros k; [done|]. cbn [be_bytes].
  rewrite Nat2Z.inj_succ, Z.pow_succ_r by lia. f_equal.
  - replace (z + k * (256 * 256 ^ Z.of_nat n))
      with (z + k * 256 * 256 ^ Z.of_nat n) by lia.
    rewrite Z.div_add by lia. rewrite <- Z_byte_mod.
    by rewrite Z.mod_add, Z_byte_mod by lia.
  - rewrite <- (IH (k * 256)). f_equal. lia.
Qed.

Lemma be_bytes_value bs : be_bytes (length bs) (be_value bs) = bs.
Proof.
  induction bs as [|b bs IH]; [done|]. cbn [length be_bytes be_value].
  pose proof (be_value_range bs) as Hr. f_equal.
  - rewrite Z.div_add_l, Z.div_small, Z.add_0_r by lia. apply Z_byte_of.
  - rewrite Z.add_comm, be_bytes_add. apply IH.
Qed.

Lemma be_value_inj bs1 bs2 :
  length bs1 = length bs2 → be_value bs1 = be_value bs2 → bs1 = bs2.
Proof.
  intros Hl Hv. by rewrite <- (be_bytes_value bs1), Hl, Hv, be_bytes_value.
Qed.

Lemma be_value_bytes_small n z :
  0 ≤ z < 256 ^ Z.of_nat n → be_value (be_bytes n z) = z.
Proof. intros. rewrite be_value_bytes. by apply Z.mod_small. Qed.

#[global] Arguments be_bytes : simpl never.

Lemma be_bytes_1 z : be_bytes 1 z = [Z_byte z].
Proof. unfold be_bytes. simpl. by rewrite Z.div_1_r. Qed.

(** ** Finite maps *)

Lemma filter_one {A} (P : A → Prop) `{!∀ x, Decision (P x)} x : filter P [x] = if bool_decide (P x) then [x] else [].
Proof. unfold filter; cbn. rewrite <-decide_bool_decide. by destruct (decide _). Qed.

Lemma alter_Some_insert `{Countable K} {A} (f : A → A) (k : K) (m : gmap K A) x :
  m !! k = Some x → alter f k m = <[k := f x]> m.
Proof.
  intros Hx. apply map_eq; intros i. destruct (decide (i = k)) as [->|].
  - by rewrite lookup_insert_eq, lookup_alter_eq, Hx.
  - by rewrite lookup_insert_ne, lookup_alter_ne.
Qed.

Lemma alter_None_same `{Countable K} {A} (f : A → A) (k : K) (m : gmap K A) :
  m !! k = None → alter f k m = m.
Proof.
  intros Hx. apply map_eq; intros i. destruct (decide (i = k)) as [->|].
  - by rewrite lookup_alter_eq, Hx.
  - by rewrite lookup_alter_ne.
Qed.
