(* ===== verification/Stream.v ===== *)
(** * Byte streams: the reading and writing half of a socket

    The sources read and write through tokio's [AsyncReadExt] and
    [AsyncWriteExt].  A reading half is the bytes that arrive in time together
    with what follows them: nothing yet ([Open]), an orderly end ([Closed]) or
    an error ([Broken]).  A writing half is what was accepted so far together
    with the room the peer still has ([None] for enough) and what happens past
    it: back-pressure, or an error.  The operations below are the ones the
    sources call: [read_exact], [read_u8] .. [read_u64], [write_all],
    [write_u8] .. [write_u64], [flush].  Writing half and reading half of one
    connection are a [duplex].

    [Parser] is the interface a decoder over a reading half offers to its
    clients: it looks only at the bytes it consumes. *)

From S2P Require Import Prelude.

(** ** I/O errors *)

Inductive error_kind : Type :=
| UnexpectedEof
| TimedOut
| OtherKind (name : string).

#[export] Instance error_kind_eq_dec : EqDecision error_kind.
Proof. solve_decision. Defined.

Record io_error : Type := IoError {
  kind : error_kind;
  text : string;
}.

#[export] Instance io_error_eq_dec : EqDecision io_error.
Proof. solve_decision. Defined.

Definition early_eof : io_error := IoError UnexpectedEof "early eof".

(** ** Reading half *)

Inductive ending : Type :=
| Open
| Closed
| Broken (e : io_error).

Record source : Type := Source {
  avail : list byte;
  fin : ending;
}.

Definition read_exact (n : Z) : io source io_error (list byte) := λ s,
  if n <=? zlen (avail s)
  then (Done (take (Z.to_nat n) (avail s)),
        Source (drop (Z.to_nat n) (avail s)) (fin s))
  else match fin s with
       | Open => (Pending, Source [] Open)
       | Closed => (Fail early_eof, Source [] Closed)
       | Broken e => (Fail e, Source [] (Broken e))
       end.

Definition read_uint (w : Z) : io source io_error Z :=
  bs ← read_exact w; mret (be_value bs).

Definition read_u8 : io source io_error Z := read_uint 1.
Definition read_u16 : io source io_error Z := read_uint 2.
Definition read_u32 : io source io_error Z := read_uint 4.
Definition read_u64 : io source io_error Z := read_uint 8.

(** ** Writing half *)

Record sink : Type := Sink {
  written : list byte;
  room : option Z;
  fault : option io_error;
}.

Definition write_all (bs : list byte) : io sink io_error unit := λ s,
  match room s with
  | None => (Done tt, Sink (written s ++ bs) None (fault s))
  | Some r =>
      if zlen bs <=? r
      then (Done tt, Sink (written s ++ bs) (Some (r - zlen bs)) (fault s))
      else (match fault s with Some e => Fail e | None => Pending end,
            Sink (written s ++ take (Z.to_nat r) bs) (Some 0) (fault s))
  end.

Definition write_u8 (z : Z) : io sink io_error unit := write_all (be_bytes 1 z).
Definition write_u16 (z : Z) : io sink io_error unit := write_all (be_bytes 2 z).
Definition write_u32 (z : Z) : io sink io_error unit := write_all (be_bytes 4 z).
Definition write_u64 (z : Z) : io sink io_error unit := write_all (be_bytes 8 z).

(** A TCP or Unix stream does not buffer in the process: [flush] is [Ok]. *)
Definition flush : io sink io_error unit := mret tt.

(** ** Both halves of a connection *)

Record duplex : Type := Duplex {
  rd : source;
  wr : sink;
}.

Definition on_rd {E A} (m : io source E A) : io duplex E A := λ d,
  let '(r, s) := m (rd d) in (r, Duplex s (wr d)).

Definition on_wr {E A} (m : io sink E A) : io duplex E A := λ d,
  let '(r, s) := m (wr d) in (r, Duplex (rd d) s).

(** A peer that accepts everything. *)
Definition open_sink (bs : list byte) : sink := Sink bs None None.

(** ** Laws of the writing half *)

Lemma write_all_open bs w f :
  write_all bs (Sink w None f) = (Done tt, Sink (w ++ bs) None f).
Proof. done. Qed.

(** Whatever the outcome, a write appends a prefix of its argument. *)
Lemma write_all_prefix bs s r s' :
  write_all bs s = (r, s') →
  ∃ pre, pre `prefix_of` bs ∧ written s' = written s ++ pre ∧
    (r = Done tt → pre = bs).
Proof.
  unfold write_all. destruct (room s) as [n|]; [destruct (_ <=? n)|];
    intros [= <- <-]; simpl; eexists; (split; [|split; [done|]]); try done.
  - exists (drop (Z.to_nat n) bs). by rewrite take_drop.
  - by destruct (fault s).
Qed.

(** Consecutive writes accept what one write of everything accepts. *)
Lemma write_all_app {E} (f : io_error → E) a b s :
  (io_map_err f (write_all a);; io_map_err f (write_all b)) s = io_map_err f (write_all (a ++ b)) s.
Proof.
  destruct s as [w [r|] fl]; unfold mbind, io_bind, io_map_err, write_all; simpl;
    [|by rewrite app_assoc].
  rewrite length_app. destruct (zlen a <=? r) eqn:E1.
  - simpl. assert ((zlen b <=? r - zlen a) = (Z.of_nat (length a + length b) <=? r)) as -> by lia.
    replace (r - zlen a - zlen b) with (r - Z.of_nat (length a + length b)) by lia.
    destruct (Z.of_nat (length a + length b) <=? r); [by rewrite <- app_assoc|].
    rewrite <- app_assoc, take_app_ge by lia.
    replace (Z.to_nat (r - zlen a)) with (Z.to_nat r - length a)%nat by lia.
    by destruct fl.
  - assert ((Z.of_nat (length a + length b) <=? r) = false) as -> by lia.
    rewrite take_app_le by lia. by destruct fl.
Qed.

Lemma write_all_flush {E} (f : io_error → E) a s :
  (io_map_err f (write_all a);; io_map_err f flush) s = io_map_err f (write_all a) s.
Proof.
  unfold mbind, io_bind. destruct (io_map_err f (write_all a) s) as [[[]| |] s'] eqn:H; done.
Qed.

(** ** Laws of the reading half *)

Lemma read_exact_app bs rest e :
  read_exact (zlen bs) (Source (bs ++ rest) e) = (Done bs, Source rest e).
Proof.
  unfold read_exact; simpl. rewrite length_app.
  case_match eqn:E; [|lia]. by rewrite Nat2Z.id, take_app_length, drop_app_length.
Qed.

Lemma read_exact_app' n bs rest e :
  n = zlen bs → read_exact n (Source (bs ++ rest) e) = (Done bs, Source rest e).
Proof. intros ->. apply read_exact_app. Qed.

Lemma read_exact_short n bs e :
  zlen bs < n →
  read_exact n (Source bs e) =
    (match e with Open => Pending | Closed => Fail early_eof | Broken x => Fail x end,
     Source [] e).
Proof. intros H. unfold read_exact; simpl. case_match; [lia|]. by destruct e. Qed.

Lemma read_exact_inv n bs e a s' :
  0 ≤ n → read_exact n (Source bs e) = (Done a, s') →
  zlen a = n ∧ ∃ rest, bs = a ++ rest ∧ s' = Source rest e.
Proof.
  intros Hn. unfold read_exact; simpl. case_match eqn:E; [|by destruct e].
  intros [= <- <-]. split; [rewrite length_take; lia|].
  exists (drop (Z.to_nat n) bs). by rewrite take_drop.
Qed.

Lemma read_uint_app (w : nat) z rest e :
  read_uint (Z.of_nat w) (Source (be_bytes w z ++ rest) e) =
    (Done (z mod 256 ^ Z.of_nat w), Source rest e).
Proof.
  unfold read_uint, mbind, io_bind.
  rewrite (read_exact_app' _ (be_bytes w z)) by (by rewrite length_be_bytes).
  by rewrite be_value_bytes.
Qed.

Lemma read_u8_app z rest e :
  read_u8 (Source (be_bytes 1 z ++ rest) e) = (Done (u8_wrap z), Source rest e).
Proof. apply (read_uint_app 1). Qed.
Lemma read_u16_app z rest e :
  read_u16 (Source (be_bytes 2 z ++ rest) e) = (Done (u16_wrap z), Source rest e).
Proof. apply (read_uint_app 2). Qed.
Lemma read_u32_app z rest e :
  read_u32 (Source (be_bytes 4 z ++ rest) e) = (Done (u32_wrap z), Source rest e).
Proof. apply (read_uint_app 4). Qed.
Lemma read_u64_app z rest e :
  read_u64 (Source (be_bytes 8 z ++ rest) e) = (Done (u64_wrap z), Source rest e).
Proof. apply (read_uint_app 8). Qed.

(** ** Decoders that look only at what they consume *)

Class Parser {E A} (conv : io_error → E) (m : io source E A) : Prop := {
  (** A value depends on the consumed bytes alone: not on what follows them,
      and not on how the stream ends. *)
  parser_done bs e a s' :
    m (Source bs e) = (Done a, s') →
    ∃ used rest, bs = used ++ rest ∧ s' = Source rest e ∧
      ∀ more e', m (Source (used ++ more) e') = (Done a, Source more e');
  (** An error seen while the stream is still open is a verdict on the bytes
      received: more bytes do not change it. *)
  parser_fail bs x s' :
    m (Source bs Open) = (Fail x, s') →
    ∀ more e', ∃ s'', m (Source (bs ++ more) e') = (Fail x, s'');
  (** Where an open stream would wait, an ended one reports its end. *)
  parser_end bs s' e :
    m (Source bs Open) = (Pending, s') →
    m (Source bs e) = (match e with
                       | Open => Pending
                       | Closed => Fail (conv early_eof)
                       | Broken x => Fail (conv x)
                       end, Source [] e);
}.

#[export] Instance parser_ret {E A} (conv : io_error → E) (a : A) : Parser conv (mret a).
Proof.
  split; [|done..]. intros bs e a' s' [= <- <-].
  by exists [], bs.
Qed.

#[export] Instance parser_io_fail {E A} (conv : io_error → E) (x : E) :
  Parser (A := A) conv (io_fail x).
Proof. split; [done| |done]. intros bs y s' [= <- <-] more e'. by eexists. Qed.

#[export] Instance parser_io_lift {E A} (conv : io_error → E) (r : result E A) :
  Parser conv (io_lift r).
Proof. destruct r; [apply (parser_ret conv a)|apply (parser_io_fail conv e)]. Qed.

#[export] Instance parser_map_err {E F A} (f : E → F) conv (m : io source E A) :
  Parser conv m → Parser (f ∘ conv) (io_map_err f m).
Proof.
  intros P. split.
  - intros bs e a s' H%io_map_err_Done_inv.
    destruct (parser_done _ _ _ _ H) as (used & rest & -> & -> & K).
    exists used, rest. split_and!; try done. intros. by apply io_map_err_Done.
  - intros bs x s'. unfold io_map_err at 1.
    destruct (m _) as [[]] eqn:Hm; intros [= <- <-] more e'.
    destruct (parser_fail _ _ _ Hm more e') as [s'' K].
    exists s''. by apply io_map_err_Fail.
  - intros bs s' e. unfold io_map_err.
    destruct (m (Source bs Open)) as [[]] eqn:Hm; intros [=].
    rewrite (parser_end _ _ e Hm). by destruct e.
Qed.

#[export] Instance parser_bind {E A B} conv (m : io source E A) (k : A → io source E B) :
  Parser conv m → (∀ a, Parser conv (k a)) → Parser conv (m ≫= k).
Proof.
  intros Pm Pk. split.
  - intros bs e b s' (a & s1 & Hm & Hk)%io_bind_Done_inv.
    destruct (parser_done _ _ _ _ Hm) as (u1 & r1 & -> & -> & K1).
    destruct (parser_done _ _ _ _ Hk) as (u2 & r2 & -> & -> & K2).
    exists (u1 ++ u2), r2. rewrite <- app_assoc. split_and!; try done.
    intros more e'. rewrite <- app_assoc. by rewrite (io_bind_Done _ _ _ _ _ (K1 _ _)).
  - intros bs x s' Hk more e'. unfold mbind, io_bind in Hk.
    destruct (m _) as [[a|y|] s1] eqn:Hm.
    + destruct (parser_done _ _ _ _ Hm) as (u & r & -> & -> & K).
      destruct (parser_fail _ _ _ Hk more e') as [s'' K'].
      exists s''. rewrite <- app_assoc. by rewrite (io_bind_Done _ _ _ _ _ (K _ _)).
    + injection Hk as <- <-. destruct (parser_fail _ _ _ Hm more e') as [s'' K].
      exists s''. by apply io_bind_Fail.
    + done.
  - intros bs s' e Hk. unfold mbind, io_bind in Hk.
    destruct (m _) as [[a|y|] s1] eqn:Hm; [|done|].
    + destruct (parser_done _ _ _ _ Hm) as (u & r & -> & -> & K).
      rewrite (io_bind_Done _ _ _ _ _ (K _ _)). by apply (parser_end _ _ e Hk).
    + pose proof (parser_end _ _ e Hm) as He. destruct e;
        [by apply io_bind_Pending|by apply io_bind_Fail..].
Qed.

Lemma parser_read_exact n : 0 ≤ n → Parser id (read_exact n).
Proof.
  intros Hn. split.
  - intros bs e a s' H. destruct (read_exact_inv _ _ _ _ _ Hn H) as (Hl & rest & -> & ->).
    exists a, rest. split_and!; try done. intros. by apply read_exact_app'.
  - intros bs x s'. unfold read_exact at 1. by case_match.
  - intros bs s' e. unfold read_exact; simpl. case_match; [done|]. by destruct e.
Qed.

#[export] Instance parser_read_uint w : Parser id (read_uint (Zpos w)).
Proof.
  apply parser_bind; [by apply parser_read_exact|]. intros. apply parser_ret.
Qed.
#[export] Instance parser_read_u8 : Parser id read_u8 := parser_read_uint 1.
#[export] Instance parser_read_u16 : Parser id read_u16 := parser_read_uint 2.
#[export] Instance parser_read_u32 : Parser id read_u32 := parser_read_uint 4.
#[export] Instance parser_read_u64 : Parser id read_u64 := parser_read_uint 8.

#[export] Instance parser_if {E A} conv (b : bool) (m1 m2 : io source E A) :
  Parser conv m1 → Parser conv m2 → Parser conv (if b then m1 else m2).
Proof. by destruct b. Qed.

(** A length prefix that was just decoded is not negative. *)
Lemma read_uint_nonneg w s z s' : read_uint w s = (Done z, s') → 0 ≤ z.
Proof. intros (? & ? & ? & [= <- <-])%io_bind_Done_inv. apply be_value_range. Qed.

Lemma parser_read_uint_bind {E A} (f : io_error → E) w (k : Z → io source E A) :
  (∀ z, 0 ≤ z → Parser f (k z)) → Parser f (io_map_err f (read_uint (Zpos w)) ≫= k).
Proof.
  intros Hk.
  assert (∀ s, (io_map_err f (read_uint (Zpos w)) ≫= k) s =
    (io_map_err f (read_uint (Zpos w)) ≫= λ z, if 0 <=? z then k z else io_fail (f early_eof)) s) as Heq.
  { intros s. unfold mbind, io_bind.
    destruct (io_map_err f _ s) as [[z|y|] s1] eqn:Hm; try done.
    apply io_map_err_Done_inv, read_uint_nonneg in Hm. by case_match; [|lia]. }
  assert (Parser f (io_map_err f (read_uint (Zpos w)) ≫= λ z,
    if 0 <=? z then k z else io_fail (f early_eof))) as [Pd Pf Pe].
  { apply parser_bind; [apply (parser_map_err f id), _|]. intros z.
    destruct (0 <=? z) eqn:Hz; [apply Hk; lia|apply _]. }
  split; intros *; rewrite ?Heq; intros H.
  - destruct (Pd _ _ _ _ H) as (u & r & ? & ? & K). exists u, r.
    split_and!; try done. intros. by rewrite Heq.
  - intros more e'. rewrite Heq. by eapply Pf.
  - by eapply Pe.
Qed.

(** Two encodings a parser reads in full cannot be confused. *)
Lemma parser_unambiguous {E A} conv (m : io source E A) `{!Parser conv m} u1 u2 r1 r2 a1 a2 :
  m (Source u1 Closed) = (Done a1, Source [] Closed) →
  m (Source u2 Closed) = (Done a2, Source [] Closed) →
  u1 ++ r1 = u2 ++ r2 → a1 = a2 ∧ u1 = u2 ∧ r1 = r2.
Proof.
  intros H1 H2 Heq.
  destruct (parser_done _ _ _ _ H1) as (v1 & w1 & Hv1 & [= <-] & K1).
  destruct (parser_done _ _ _ _ H2) as (v2 & w2 & Hv2 & [= <-] & K2).
  rewrite app_nil_r in Hv1, Hv2; subst v1 v2.
  pose proof (K1 r1 Open) as E1. rewrite Heq, K2 in E1.
  injection E1 as -> ->. apply app_inv_tail in Heq. done.
Qed.

(** A proper prefix of a complete encoding is waited out while the stream is
    open, and reported as cut short when it ends there. *)
Lemma parser_prefix {E A} conv (m : io source E A) `{!Parser conv m} p q a e :
  m (Source (p ++ q) Closed) = (Done a, Source [] Closed) → q ≠ [] →
  m (Source p e) = (match e with
                    | Open => Pending
                    | Closed => Fail (conv early_eof)
                    | Broken x => Fail (conv x)
                    end, Source [] e).
Proof.
  intros Hfull Hq. destruct (m (Source p Open)) as [[b|x|] s'] eqn:Hp.
  - destruct (parser_done _ _ _ _ Hp) as (u & r & -> & -> & K).
    pose proof (K (r ++ q) Closed) as E1. rewrite <- app_assoc in Hfull.
    rewrite Hfull in E1. injection E1 as _ E1. symmetry in E1.
    apply app_eq_nil in E1 as [_ ?]. done.
  - destruct (parser_fail _ _ _ Hp q Closed) as [s'' K]. congruence.
  - by apply (parser_end _ _ e Hp).
Qed.
