(* ===== verification/Text.v ===== *)
(** * Rust strings

    A [str] is a sequence of UTF-8 bytes, here a [string] whose characters are
    those bytes.  This file defines the standard-library operations on strings
    that the sources use: [trim], [to_ascii_lowercase],
    [eq_ignore_ascii_case], [starts_with], [strip_prefix],
    [trim_start_matches], [trim_end_matches], [split_once], [split],
    [contains], [parse] to an unsigned integer, [join],
    [String::from_utf8_lossy], and [Vec]'s [sort] and [dedup] on strings.

    [trim] follows the Unicode [White_Space] property on the UTF-8 encoding.
    [to_lowercase] follows Unicode's case tables, which are data of the
    standard library: they are the parameter [CaseMapping], with the laws the
    sources rely on and an instance for ASCII text. *)

From Stdlib Require Import Ascii String.
From Stdlib.Strings Require Import Byte.
From S2P Require Import Prelude.

(** ** Characters *)

Definition chr (z : Z) : ascii := ascii_of_N (Z.to_N z).
Definition ord (a : ascii) : Z := Z.of_N (N_of_ascii a).
Definition in_range (lo hi : Z) (a : ascii) : bool := (lo <=? ord a) && (ord a <=? hi).

Definition is_ascii_digit : ascii → bool := in_range 48 57.
Definition is_ascii_hexdigit (a : ascii) : bool :=
  is_ascii_digit a || in_range 65 70 a || in_range 97 102 a.
Definition is_ascii_char (a : ascii) : bool := ord a <? 128.

Definition to_ascii_lowercase_char (a : ascii) : ascii :=
  if in_range 65 90 a then chr (ord a + 32) else a.

Fixpoint string_map (f : ascii → ascii) (s : string) : string :=
  match s with "" => "" | String a s => String (f a) (string_map f s) end.

Fixpoint string_forallb (p : ascii → bool) (s : string) : bool :=
  match s with "" => true | String a s => p a && string_forallb p s end.

Definition str_len (s : string) : Z := Z.of_nat (String.length s).
Definition is_empty (s : string) : bool := bool_decide (s = "").

Definition to_ascii_lowercase : string → string := string_map to_ascii_lowercase_char.
Definition eq_ignore_ascii_case (s t : string) : bool :=
  bool_decide (to_ascii_lowercase s = to_ascii_lowercase t).
Definition is_ascii : string → bool := string_forallb is_ascii_char.

Definition as_bytes (s : string) : list byte := String.list_byte_of_string s.
Definition of_bytes (bs : list byte) : string := String.string_of_list_byte bs.

(** ** [trim]: Unicode [White_Space] in UTF-8

    One byte: U+0009..U+000D and U+0020.  Two bytes: U+0085 and U+00A0.  Three
    bytes: U+1680, U+2000..U+200A, U+2028, U+2029, U+202F, U+205F, U+3000. *)

Definition ws1 (a : ascii) : bool := in_range 9 13 a || (ord a =? 32).
Definition ws2 (a b : ascii) : bool := (ord a =? 0xc2) && ((ord b =? 0x85) || (ord b =? 0xa0)).
Definition ws3 (a b c : ascii) : bool :=
  ((ord a =? 0xe1) && (ord b =? 0x9a) && (ord c =? 0x80)) ||
  ((ord a =? 0xe2) && (ord b =? 0x80) &&
     (in_range 0x80 0x8a c || in_range 0xa8 0xa9 c || (ord c =? 0xaf))) ||
  ((ord a =? 0xe2) && (ord b =? 0x81) && (ord c =? 0x9f)) ||
  ((ord a =? 0xe3) && (ord b =? 0x80) && (ord c =? 0x80)).

(** Strips characters that [w1], [w2], [w3] recognise from the front. *)
Fixpoint strip_front (w1 : ascii → bool) (w2 : ascii → ascii → bool)
    (w3 : ascii → ascii → ascii → bool) (s : string) : string :=
  match s with
  | String a s1 =>
      if w1 a then strip_front w1 w2 w3 s1 else
      match s1 with
      | String b s2 =>
          if w2 a b then strip_front w1 w2 w3 s2 else
          match s2 with
          | String c s3 => if w3 a b c then strip_front w1 w2 w3 s3 else s
          | "" => s
          end
      | "" => s
      end
  | "" => s
  end.

Definition trim_start : string → string := strip_front ws1 ws2 ws3.
Definition trim_end (s : string) : string :=
  String.rev (strip_front ws1 (λ b a, ws2 a b) (λ c b a, ws3 a b c) (String.rev s)).
Definition trim (s : string) : string := trim_end (trim_start s).

(** ** Prefixes, splitting, searching *)

Definition starts_with (pre s : string) : bool := String.prefix pre s.

Definition ends_with (suf s : string) : bool := String.prefix (String.rev suf) (String.rev s).

Fixpoint strip_prefix (pre s : string) : option string :=
  match pre, s with
  | "", _ => Some s
  | String a pre, String b s => if decide (a = b) then strip_prefix pre s else None
  | String _ _, "" => None
  end.

(** [trim_start_matches] removes the prefix as often as it is there.  Each
    round removes at least one byte, so the length of [s] is enough fuel. *)
Fixpoint trim_start_matches_fuel (fuel : nat) (pre s : string) : string :=
  match fuel with
  | O => s
  | S fuel =>
      match strip_prefix pre s with
      | Some rest => trim_start_matches_fuel fuel pre rest
      | None => s
      end
  end.
Definition trim_start_matches (pre s : string) : string :=
  trim_start_matches_fuel (String.length s) pre s.

(** [trim_end_matches] with a character pattern. *)
Fixpoint trim_end_matches (c : ascii) (s : string) : string :=
  match s with
  | "" => ""
  | String a s =>
      match trim_end_matches c s with
      | "" => if decide (a = c) then "" else String a ""
      | rest => String a rest
      end
  end.

Fixpoint split_once (c : ascii) (s : string) : option (string * string) :=
  match s with
  | "" => None
  | String a s =>
      if decide (a = c) then Some ("", s)
      else '(l, r) ← split_once c s; Some (String a l, r)
  end.

Fixpoint split (c : ascii) (s : string) : list string :=
  match s with
  | "" => [""]
  | String a s =>
      if decide (a = c) then "" :: split c s
      else match split c s with
           | part :: parts => String a part :: parts
           | [] => [String a ""]
           end
  end.

(** [str::split_whitespace]: the words between whitespace; [cur] holds the
    current word, reversed. *)
Definition flush_word (cur : string) (words : list string) : list string :=
  if is_empty cur then words else String.rev cur :: words.

Fixpoint split_words (cur s : string) : list string :=
  match s with
  | "" => flush_word cur []
  | String a r =>
      if ws1 a then flush_word cur (split_words "" r)
      else
        match r with
        | String b r2 =>
            if ws2 a b then flush_word cur (split_words "" r2)
            else
              match r2 with
              | String c r3 =>
                  if ws3 a b c then flush_word cur (split_words "" r3) else split_words (String a cur) r
              | "" => split_words (String a cur) r
              end
        | "" => split_words (String a cur) r
        end
  end.

Definition split_whitespace (s : string) : list string := split_words "" s.

Fixpoint contains (pat s : string) : bool :=
  starts_with pat s || match s with "" => false | String _ s => contains pat s end.

Fixpoint join (sep : string) (parts : list string) : string :=
  match parts with
  | [] => ""
  | [p] => p
  | p :: ps => p +:+ sep +:+ join sep ps
  end.

(** [str::replace] with a character pattern. *)
Fixpoint replace_char (c : ascii) (by_ : string) (s : string) : string :=
  match s with
  | "" => ""
  | String a s => (if decide (a = c) then by_ else String a "") +:+ replace_char c by_ s
  end.

(** ** Unsigned decimal numbers

    [str::parse] for an unsigned type: digits after an optional [+], rejected
    when empty, when another character occurs, or on overflow. *)

Fixpoint digits_value (acc : Z) (s : string) : option Z :=
  match s with
  | "" => Some acc
  | String a s =>
      if is_ascii_digit a then digits_value (acc * 10 + (ord a - 48)) s else None
  end.

Definition parse_uint (bits : Z) (s : string) : option Z :=
  let body := match s with String a rest => if decide (a = "+"%char) then rest else s | "" => s end in
  if is_empty body then None
  else v ← digits_value 0 body; if v <? 2 ^ bits then Some v else None.

Definition parse_u16 : string → option Z := parse_uint 16.
Definition parse_u32 : string → option Z := parse_uint 32.
Definition parse_u64 : string → option Z := parse_uint 64.

(** The [Display] of an unsigned number; [n] digits of fuel are enough for
    numbers below [10 ^ n], and a [u64] has at most 20. *)
Fixpoint decimal_fuel (fuel : nat) (z : Z) (acc : string) : string :=
  match fuel with
  | O => acc
  | S fuel =>
      let acc := String (chr (48 + z mod 10)) acc in
      if z <? 10 then acc else decimal_fuel fuel (z / 10) acc
  end.
Definition decimal (z : Z) : string := decimal_fuel 20 z "".

(** A lowercase hexadecimal digit, and the [{:02x}] of a byte. *)
Definition hex_digit (z : Z) : ascii := if z <? 10 then chr (48 + z) else chr (87 + z).
Definition hex2 (z : Z) : string := String (hex_digit (z / 16)) (String (hex_digit (z mod 16)) "").

(** ** [String::from_utf8_lossy] *)

Definition byte_in (lo hi : Z) (b : byte) : bool := (lo <=? byte_Z b) && (byte_Z b <=? hi).
Definition is_cont : byte → bool := byte_in 0x80 0xbf.

(** The length of the sequence a byte can start; 0 when it can start none. *)
Definition utf8_width (a : byte) : nat :=
  if byte_in 0 0x7f a then 1%nat
  else if byte_in 0xc2 0xdf a then 2%nat
  else if byte_in 0xe0 0xef a then 3%nat
  else if byte_in 0xf0 0xf4 a then 4%nat
  else 0%nat.

(** The second byte of a three or four byte sequence. *)
Definition utf8_second (a b : byte) : bool :=
  let z := byte_Z a in
  if z =? 0xe0 then byte_in 0xa0 0xbf b
  else if z =? 0xed then byte_in 0x80 0x9f b
  else if z =? 0xf0 then byte_in 0x90 0xbf b
  else if z =? 0xf4 then byte_in 0x80 0x8f b
  else is_cont b.

Definition replacement : list byte := [xef; xbf; xbd].

(** Each maximal prefix of a sequence that cannot be completed becomes one
    U+FFFD. *)
Fixpoint utf8_lossy (bs : list byte) : list byte :=
  match bs with
  | [] => []
  | a :: r1 =>
      match utf8_width a with
      | 1 => a :: utf8_lossy r1
      | 2 =>
          match r1 with
          | b :: r2 => if is_cont b then a :: b :: utf8_lossy r2
                       else replacement ++ utf8_lossy r1
          | [] => replacement
          end
      | 3 =>
          match r1 with
          | b :: r2 =>
              if utf8_second a b then
                match r2 with
                | c :: r3 => if is_cont c then a :: b :: c :: utf8_lossy r3
                             else replacement ++ utf8_lossy r2
                | [] => replacement
                end
              else replacement ++ utf8_lossy r1
          | [] => replacement
          end
      | 4 =>
          match r1 with
          | b :: r2 =>
              if utf8_second a b then
                match r2 with
                | c :: r3 =>
                    if is_cont c then
                      match r3 with
                      | d :: r4 => if is_cont d then a :: b :: c :: d :: utf8_lossy r4
                                   else replacement ++ utf8_lossy r3
                      | [] => replacement
                      end
                    else replacement ++ utf8_lossy r2
                | [] => replacement
                end
              else replacement ++ utf8_lossy r1
          | [] => replacement
          end
      | _ => replacement ++ utf8_lossy r1
      end%nat
  end.

Definition from_utf8_lossy (bs : list byte) : string := of_bytes (utf8_lossy bs).

(** Well-formed UTF-8. *)
Fixpoint utf8_valid (bs : list byte) : bool :=
  match bs with
  | [] => true
  | a :: r1 =>
      match utf8_width a, r1 with
      | 1, _ => utf8_valid r1
      | 2, b :: r2 => is_cont b && utf8_valid r2
      | 3, b :: c :: r3 => utf8_second a b && is_cont c && utf8_valid r3
      | 4, b :: c :: d :: r4 => utf8_second a b && is_cont c && is_cont d && utf8_valid r4
      | _, _ => false
      end%nat
  end.

(** What every Rust [String] satisfies. *)
Definition str_wf (s : string) : Prop := utf8_valid (as_bytes s) = true.

(** ** [Vec<String>]: [sort] and [dedup] *)

Definition sort_strings : list string → list string := merge_sort String.le.

Fixpoint dedup (l : list string) : list string :=
  match l with
  | [] => []
  | x :: l =>
      match dedup l with
      | y :: r => if decide (x = y) then y :: r else x :: y :: r
      | [] => [x]
      end
  end.

(** ** Case mapping *)

(** [str::to_lowercase], by Unicode's tables. *)
Class CaseMapping : Type := {
  to_lowercase : string → string;
  to_lowercase_ascii s : is_ascii s = true → to_lowercase s = to_ascii_lowercase s;
  to_lowercase_idemp s : to_lowercase (to_lowercase s) = to_lowercase s;
  to_lowercase_trim s : trim (to_lowercase s) = to_lowercase (trim s);
  to_lowercase_empty s : to_lowercase s = "" → s = "";
}.

(** ** Lemmas on characters and maps *)

(** Decides a statement about every character by evaluation. *)
Ltac by_chars :=
  intros; repeat match goal with H : _ = _ |- _ => revert H end;
  repeat match goal with a : ascii |- _ => destruct a as [[] [] [] [] [] [] [] []] end;
  vm_compute; intros; first [reflexivity | congruence].

Lemma lower_char_idemp a :
  to_ascii_lowercase_char (to_ascii_lowercase_char a) = to_ascii_lowercase_char a.
Proof. by_chars. Qed.

Lemma lower_char_high a : is_ascii_char a = false → to_ascii_lowercase_char a = a.
Proof. by_chars. Qed.

Lemma ord_lower_high a z : 128 ≤ z → (ord (to_ascii_lowercase_char a) =? z) = (ord a =? z).
Proof.
  intros Hz. destruct (is_ascii_char a) eqn:E; [|by rewrite lower_char_high].
  assert (is_ascii_char (to_ascii_lowercase_char a) = true) as E' by (revert E; clear; by_chars).
  unfold is_ascii_char in *. lia.
Qed.

Lemma in_range_lower_high a lo hi :
  128 ≤ lo → in_range lo hi (to_ascii_lowercase_char a) = in_range lo hi a.
Proof.
  intros Hz. destruct (is_ascii_char a) eqn:E; [|by rewrite lower_char_high].
  assert (is_ascii_char (to_ascii_lowercase_char a) = true) as E' by (revert E; clear; by_chars).
  unfold in_range, is_ascii_char in *. lia.
Qed.

Lemma ws1_lower a : ws1 (to_ascii_lowercase_char a) = ws1 a.
Proof. by_chars. Qed.
Lemma ws2_lower a b : ws2 (to_ascii_lowercase_char a) (to_ascii_lowercase_char b) = ws2 a b.
Proof. unfold ws2. by rewrite !ord_lower_high by lia. Qed.
Lemma ws3_lower a b c :
  ws3 (to_ascii_lowercase_char a) (to_ascii_lowercase_char b) (to_ascii_lowercase_char c) = ws3 a b c.
Proof. unfold ws3. by rewrite !ord_lower_high, !in_range_lower_high by lia. Qed.

Lemma string_map_map f g s : string_map f (string_map g s) = string_map (f ∘ g) s.
Proof. induction s; simpl; congruence. Qed.

Lemma string_map_ext f g s : (∀ a, f a = g a) → string_map f s = string_map g s.
Proof. intros H. induction s; simpl; congruence. Qed.

Lemma length_string_map f s : String.length (string_map f s) = String.length s.
Proof. induction s; simpl; congruence. Qed.

Lemma string_forallb_map p f s :
  string_forallb p (string_map f s) = string_forallb (p ∘ f) s.
Proof. induction s as [|a s IH]; simpl; [done|]. by rewrite IH. Qed.

Lemma string_map_id f p s :
  (∀ a, p a = true → f a = a) → string_forallb p s = true → string_map f s = s.
Proof.
  intros Hf. induction s as [|a s IH]; simpl; [done|].
  intros [? ?]%andb_prop. rewrite Hf, IH; done.
Qed.

Lemma string_forallb_impl p q s :
  (∀ a, p a = true → q a = true) → string_forallb p s = true → string_forallb q s = true.
Proof.
  intros H. induction s; simpl; [done|]. intros [? ?]%andb_prop.
  rewrite H by done. auto.
Qed.

Lemma lower_idemp s : to_ascii_lowercase (to_ascii_lowercase s) = to_ascii_lowercase s.
Proof.
  unfold to_ascii_lowercase. rewrite string_map_map.
  apply string_map_ext, lower_char_idemp.
Qed.

(** ** Reversal *)

Lemma rev_app_spec s t : String.rev_app s t = String.rev s +:+ t.
Proof.
  unfold String.rev. revert t. induction s as [|a s IH]; intros t; [done|]. simpl.
  rewrite IH, (IH (String a "")). clear IH.
  generalize (String.rev_app s ""). intros r. induction r; unfold String.app in *; simpl; congruence.
Qed.

Lemma rev_cons a s : String.rev (String a s) = String.rev s +:+ String a "".
Proof. unfold String.rev at 1. simpl. apply rev_app_spec. Qed.

Lemma sapp_assoc (s t u : string) : (s +:+ t) +:+ u = s +:+ t +:+ u.
Proof. induction s; unfold String.app in *; simpl; congruence. Qed.

Lemma sapp_nil_r (s : string) : s +:+ "" = s.
Proof. induction s; unfold String.app in *; simpl; congruence. Qed.

Lemma sapp_cons a (s t : string) : String a s +:+ t = String a (s +:+ t).
Proof. done. Qed.

Lemma rev_app s t : String.rev (s +:+ t) = String.rev t +:+ String.rev s.
Proof.
  induction s as [|a s IH]; [by rewrite sapp_nil_r|].
  by rewrite sapp_cons, !rev_cons, IH, sapp_assoc.
Qed.

Lemma rev_rev s : String.rev (String.rev s) = s.
Proof. induction s as [|a s IH]; [done|]. by rewrite rev_cons, rev_app, IH. Qed.

Lemma string_map_app f s t : string_map f (s +:+ t) = string_map f s +:+ string_map f t.
Proof. induction s; unfold String.app in *; simpl; congruence. Qed.

Lemma string_map_rev f s : string_map f (String.rev s) = String.rev (string_map f s).
Proof.
  induction s as [|a s IH]; [done|]. simpl. by rewrite !rev_cons, string_map_app, IH.
Qed.

Lemma slength_app (s t : string) :
  String.length (s +:+ t) = (String.length s + String.length t)%nat.
Proof. induction s; unfold String.app in *; simpl; congruence. Qed.

(** ** [trim] *)

Section StripFront.
Context (w1 : ascii → bool) (w2 : ascii → ascii → bool) (w3 : ascii → ascii → ascii → bool).

(** The string starts with no character to strip. *)
Definition front_clean (s : string) : bool :=
  match s with
  | String a s1 => negb (w1 a) &&
      match s1 with
      | String b s2 => negb (w2 a b) &&
          match s2 with String c _ => negb (w3 a b c) | "" => true end
      | "" => true
      end
  | "" => true
  end.

Lemma strip_front_unfold s :
  (front_clean s = true ∧ strip_front w1 w2 w3 s = s) ∨
  (front_clean s = false ∧ ∃ p s', s = p +:+ s' ∧ (String.length s' < String.length s)%nat ∧
     strip_front w1 w2 w3 s = strip_front w1 w2 w3 s').
Proof.
  destruct s as [|a s1]; [by left|]. simpl.
  destruct (w1 a); simpl.
  { right. split; [done|]. exists (String a ""), s1. split_and!; [done|lia|done]. }
  destruct s1 as [|b s2]; [by left|]. destruct (w2 a b); simpl.
  { right. split; [done|]. exists (String a (String b "")), s2. split_and!; [done|lia|done]. }
  destruct s2 as [|c s3]; [by left|]. destruct (w3 a b c); simpl; [|by left].
  right. split; [done|]. exists (String a (String b (String c ""))), s3.
  split_and!; [done|lia|done].
Qed.

Lemma strip_front_clean s : front_clean (strip_front w1 w2 w3 s) = true.
Proof.
  induction s as [s IH] using (induction_ltof1 _ String.length). unfold ltof in IH.
  destruct (strip_front_unfold s) as [[? ->]|(_ & p & s' & _ & Hlt & ->)]; auto.
Qed.

Lemma strip_front_fix s : front_clean s = true → strip_front w1 w2 w3 s = s.
Proof. destruct (strip_front_unfold s) as [[? ->]|[-> _]]; done. Qed.

Lemma strip_front_suffix s : ∃ p, s = p +:+ strip_front w1 w2 w3 s.
Proof.
  induction s as [s IH] using (induction_ltof1 _ String.length). unfold ltof in IH.
  destruct (strip_front_unfold s) as [[? ->]|(_ & p & s' & Hs & Hlt & ->)]; [by exists ""|].
  destruct (IH s' Hlt) as [q Hq]. exists (p +:+ q). by rewrite sapp_assoc, <- Hq.
Qed.

(** A prefix of a clean string is clean. *)
Lemma front_clean_prefix s t : front_clean (s +:+ t) = true → front_clean s = true.
Proof.
  destruct s as [|a [|b [|c s]]]; try done; rewrite ?sapp_cons; simpl;
    rewrite ?andb_true_iff; naive_solver.
Qed.

Lemma strip_front_map f s :
  (∀ a, w1 (f a) = w1 a) → (∀ a b, w2 (f a) (f b) = w2 a b) →
  (∀ a b c, w3 (f a) (f b) (f c) = w3 a b c) →
  strip_front w1 w2 w3 (string_map f s) = string_map f (strip_front w1 w2 w3 s).
Proof.
  intros F1 F2 F3.
  induction s as [s IH] using (induction_ltof1 _ String.length). unfold ltof in IH.
  destruct s as [|a s1]; [done|]. simpl. rewrite F1. destruct (w1 a); [apply IH; simpl; lia|].
  destruct s1 as [|b s2]; [done|]. simpl. rewrite F2.
  destruct (w2 a b); [apply IH; simpl; lia|].
  destruct s2 as [|c s3]; [done|]. simpl. rewrite F3.
  destruct (w3 a b c); [apply IH; simpl; lia|done].
Qed.

End StripFront.

Lemma trim_start_fix_prefix s t :
  trim_start (s +:+ t) = s +:+ t → trim_start s = s.
Proof.
  intros H. apply strip_front_fix, (front_clean_prefix _ _ _ s t).
  rewrite <- H. apply strip_front_clean.
Qed.

Lemma trim_end_prefix s : ∃ t, s = trim_end s +:+ t.
Proof.
  unfold trim_end. destruct (strip_front_suffix ws1 (λ b a, ws2 a b) (λ c b a, ws3 a b c)
    (String.rev s)) as [p Hp].
  exists (String.rev p). rewrite <- rev_app, <- Hp. by rewrite rev_rev.
Qed.

Lemma trim_end_idemp s : trim_end (trim_end s) = trim_end s.
Proof.
  unfold trim_end. rewrite rev_rev. f_equal. apply strip_front_fix, strip_front_clean.
Qed.

Lemma trim_start_trim s : trim_start (trim s) = trim s.
Proof.
  unfold trim. destruct (trim_end_prefix (trim_start s)) as [t Ht].
  apply (trim_start_fix_prefix _ t). rewrite <- Ht.
  apply strip_front_fix, strip_front_clean.
Qed.

Lemma trim_idemp s : trim (trim s) = trim s.
Proof. unfold trim at 1. rewrite trim_start_trim. unfold trim. apply trim_end_idemp. Qed.

Lemma trim_map f s :
  (∀ a, ws1 (f a) = ws1 a) → (∀ a b, ws2 (f a) (f b) = ws2 a b) →
  (∀ a b c, ws3 (f a) (f b) (f c) = ws3 a b c) →
  trim (string_map f s) = string_map f (trim s).
Proof.
  intros F1 F2 F3. unfold trim, trim_end, trim_start.
  rewrite strip_front_map by done. rewrite <- string_map_rev, strip_front_map by auto.
  by rewrite string_map_rev.
Qed.

Lemma lower_trim s : trim (to_ascii_lowercase s) = to_ascii_lowercase (trim s).
Proof. apply trim_map; [apply ws1_lower|apply ws2_lower|apply ws3_lower]. Qed.

(** Text of visible ASCII characters has nothing to trim. *)
Definition is_visible (a : ascii) : bool := in_range 33 126 a.

Lemma visible_clean s w2 w3 :
  (∀ a b, is_visible a = true → w2 a b = false) →
  (∀ a b c, is_visible a = true → w3 a b c = false) →
  string_forallb is_visible s = true → front_clean ws1 w2 w3 s = true.
Proof.
  intros H2 H3. destruct s as [|a [|b [|c s]]]; simpl; try done;
    rewrite ?andb_true_iff; intros; destruct_and?;
    assert (ws1 a = false) as -> by (revert select (is_visible a = true); clear; by_chars);
    rewrite ?H2, ?H3 by done; done.
Qed.

Lemma string_forallb_app p (s t : string) :
  string_forallb p (s +:+ t) = string_forallb p s && string_forallb p t.
Proof.
  induction s as [|a s IH]; [done|]. rewrite sapp_cons. simpl. by rewrite IH, andb_assoc.
Qed.

Lemma string_forallb_rev p s : string_forallb p (String.rev s) = string_forallb p s.
Proof.
  induction s as [|a s IH]; [done|]. rewrite rev_cons, string_forallb_app, IH. simpl.
  by rewrite andb_true_r, andb_comm.
Qed.

Lemma trim_visible s : string_forallb is_visible s = true → trim s = s.
Proof.
  intros H. unfold trim, trim_start. rewrite strip_front_fix.
  - unfold trim_end. rewrite strip_front_fix; [by rewrite rev_rev|].
    apply visible_clean; [| |by rewrite string_forallb_rev].
    + intros b a Hb. unfold ws2. unfold is_visible, in_range in Hb. lia.
    + intros c b a Hc. unfold ws3. unfold is_visible, in_range in *. lia.
  - apply visible_clean; [| |done].
    + intros a b Ha. unfold ws2. unfold is_visible, in_range in Ha. lia.
    + intros a b c Ha. unfold ws3. unfold is_visible, in_range in *. lia.
Qed.

(** The case mapping restricted to ASCII letters. *)
Definition ascii_case_mapping : CaseMapping.
Proof.
  refine {| to_lowercase := to_ascii_lowercase |}.
  - done.
  - apply lower_idemp.
  - apply lower_trim.
  - intros [|a s]; done.
Defined.

(** ** Bytes of a string *)

Lemma of_as_bytes s : of_bytes (as_bytes s) = s.
Proof. apply String.string_of_list_byte_of_string. Qed.

Lemma as_of_bytes bs : as_bytes (of_bytes bs) = bs.
Proof. apply String.list_byte_of_string_of_list_byte. Qed.

Lemma length_as_bytes s : length (as_bytes s) = String.length s.
Proof. unfold as_bytes, String.list_byte_of_string. rewrite length_map. induction s; simpl; congruence. Qed.

(** ** UTF-8 *)

Lemma utf8_lossy_valid bs : utf8_valid bs = true → utf8_lossy bs = bs.
Proof.
  induction bs as [bs IH] using (induction_ltof1 _ (@length byte)). unfold ltof in IH.
  destruct bs as [|a r1]; [done|]. simpl.
  destruct (utf8_width a) as [|[|[|[|[|]]]]]; try done.
  - intros. by rewrite IH by (simpl; lia || done).
  - destruct r1 as [|b r2]; [done|]. intros [-> ?]%andb_prop.
    by rewrite IH by (simpl; lia || done).
  - destruct r1 as [|b [|c r3]]; try done. rewrite !andb_true_iff. intros [[-> ->] ?].
    by rewrite IH by (simpl; lia || done).
  - destruct r1 as [|b [|c [|d r4]]]; try done. rewrite !andb_true_iff. intros [[[-> ->] ->] ?].
    by rewrite IH by (simpl; lia || done).
Qed.

Lemma ascii_width a : is_ascii_char a = true → utf8_width (byte_of_ascii a) = 1%nat.
Proof. destruct a as [[] [] [] [] [] [] [] []]; vm_compute; done. Qed.

Lemma ascii_str_wf s : is_ascii s = true → str_wf s.
Proof.
  unfold str_wf, as_bytes, String.list_byte_of_string, is_ascii. induction s as [|a s IH]; [done|]. simpl.
  intros [Ha Hs]%andb_prop. rewrite (ascii_width a Ha). by apply IH.
Qed.

Lemma from_utf8_lossy_wf s : str_wf s → from_utf8_lossy (as_bytes s) = s.
Proof. intros H. unfold from_utf8_lossy. by rewrite utf8_lossy_valid, of_as_bytes. Qed.

(** ** Sorting and deduplication *)

Lemma sort_strings_Permutation l : sort_strings l ≡ₚ l.
Proof. apply merge_sort_Permutation. Qed.

Lemma dedup_elem_of x l : x ∈ dedup l ↔ x ∈ l.
Proof.
  induction l as [|y l IH]; [done|]. simpl. rewrite elem_of_cons, <- IH.
  destruct (dedup l) as [|z r]; [set_solver|]. case_decide; [subst|]; set_solver.
Qed.

Lemma dedup_hd l : head (dedup l) = head l.
Proof. destruct l as [|x l]; [done|]. simpl. destruct (dedup l); [done|]. by case_decide; subst. Qed.

Lemma dedup_sorted l : StronglySorted String.le l → StronglySorted String.le (dedup l).
Proof.
  induction 1 as [|x l Hs IH Hx]; [constructor|]. simpl.
  assert (Forall (String.le x) (dedup l)) as Hd.
  { apply Forall_forall. intros y. rewrite dedup_elem_of. rewrite Forall_forall in Hx. auto. }
  destruct (dedup l) as [|y r]; [by repeat constructor|].
  case_decide; [done|by constructor].
Qed.

Lemma dedup_NoDup l : StronglySorted String.le l → NoDup (dedup l).
Proof.
  induction 1 as [|x l Hs IH Hx]; [constructor|]. simpl.
  pose proof (dedup_sorted l Hs) as Hd.
  destruct (dedup l) as [|y r] eqn:E; [apply NoDup_singleton|].
  case_decide as Hxy; [done|]. apply NoDup_cons. split; [|done].
  rewrite elem_of_cons. intros [->|Hr]; [done|].
  inversion Hd as [|?? _ Hy]; subst. apply Hxy.
  apply (anti_symm String.le).
  - rewrite Forall_forall in Hx. apply Hx, dedup_elem_of. rewrite E. set_solver.
  - rewrite Forall_forall in Hy. auto.
Qed.

(** Sorted lists without repetition are determined by their elements. *)
Lemma sorted_set_unique l1 l2 :
  StronglySorted String.le l1 → StronglySorted String.le l2 → NoDup l1 → NoDup l2 →
  (∀ x, x ∈ l1 ↔ x ∈ l2) → l1 = l2.
Proof.
  intros ???? H. apply (StronglySorted_unique String.le); try done.
  by apply NoDup_Permutation.
Qed.

Definition sort_dedup (l : list string) : list string := dedup (sort_strings l).

Lemma sort_strings_sorted l : StronglySorted String.le (sort_strings l).
Proof. apply StronglySorted_merge_sort; apply _. Qed.

Lemma sort_dedup_elem_of x l : x ∈ sort_dedup l ↔ x ∈ l.
Proof. unfold sort_dedup. by rewrite dedup_elem_of, sort_strings_Permutation. Qed.

Lemma sort_dedup_sorted l : StronglySorted String.le (sort_dedup l).
Proof. apply dedup_sorted, sort_strings_sorted. Qed.

Lemma sort_dedup_NoDup l : NoDup (sort_dedup l).
Proof. apply dedup_NoDup, sort_strings_sorted. Qed.

Lemma sort_dedup_ext l1 l2 : (∀ x, x ∈ l1 ↔ x ∈ l2) → sort_dedup l1 = sort_dedup l2.
Proof.
  intros H. apply sorted_set_unique; auto using sort_dedup_sorted, sort_dedup_NoDup.
  intros x. by rewrite !sort_dedup_elem_of.
Qed.

(** ** Words and numbers *)

(** A word of visible ASCII characters: what [split_whitespace] never splits. *)
Definition is_word (s : string) : Prop := s ≠ "" ∧ string_forallb is_visible s = true.

Lemma visible_not_space a : is_visible a = true → ws1 a = false.
Proof. unfold is_visible, ws1, in_range. lia. Qed.

Lemma visible_not_lead a b : is_visible a = true → ws2 a b = false.
Proof. unfold is_visible, ws2, in_range. lia. Qed.

Lemma visible_not_lead3 a b c : is_visible a = true → ws3 a b c = false.
Proof. unfold is_visible, ws3, in_range. lia. Qed.

Lemma split_words_visible w cur s :
  string_forallb is_visible w = true → split_words cur (w +:+ s) = split_words (String.rev w +:+ cur) s.
Proof.
  revert cur; induction w as [|a w IH]; intros cur Hw; [done|]. cbn in Hw.
  apply andb_true_iff in Hw as [Ha Hw]. rewrite rev_cons, sapp_assoc. cbn [String.app]. rewrite sapp_cons.
  rewrite <- (IH _ Hw). cbn [split_words]. rewrite visible_not_space by done.
  destruct (w +:+ s) as [|b r]; [done|]. rewrite visible_not_lead by done.
  destruct r; [done|]. by rewrite visible_not_lead3.
Qed.

Lemma flush_word_rev w l : w ≠ "" → flush_word (String.rev w) l = w :: l.
Proof.
  intros Hw. unfold flush_word, is_empty. rewrite bool_decide_false.
  - by rewrite rev_rev.
  - intros H. apply Hw. by rewrite <- (rev_rev w), H.
Qed.

Lemma split_whitespace_join ws : Forall is_word ws → split_whitespace (join " " ws) = ws.
Proof.
  unfold split_whitespace. induction 1 as [|w ws [Hn Hw] Hws IH]; [done|].
  destruct ws as [|w' ws]; cbn [join].
  - rewrite <- (sapp_nil_r w) at 1. rewrite split_words_visible, sapp_nil_r by done. by apply flush_word_rev.
  - rewrite split_words_visible, sapp_nil_r by done. change (" " +:+ ?s) with (String " " s). cbn [split_words].
    change (ws1 " ") with true. cbv iota. rewrite flush_word_rev by done. f_equal. exact IH.
Qed.

Lemma ord_chr z : 0 ≤ z < 256 → ord (chr z) = z.
Proof. intros Hz. unfold ord, chr. rewrite N_ascii_embedding by lia. lia. Qed.

Lemma digits_value_app s t acc :
  string_forallb is_ascii_digit s = true →
  digits_value acc (s +:+ t) = v ← digits_value acc s; digits_value v t.
Proof.
  revert acc; induction s as [|a s IH]; intros acc Hs; [done|]. rewrite sapp_cons.
  cbn [digits_value string_forallb] in *. apply andb_true_iff in Hs as [-> Hs]. by apply IH.
Qed.

Lemma decimal_fuel_spec fuel z acc :
  0 ≤ z < 10 ^ Z.of_nat fuel → fuel ≠ O →
  ∃ ds, decimal_fuel fuel z acc = ds +:+ acc ∧ ds ≠ "" ∧ string_forallb is_ascii_digit ds = true
        ∧ digits_value 0 ds = Some z.
Proof.
  revert z acc; induction fuel as [|fuel IH]; intros z acc Hz Hf; [done|]. cbn [decimal_fuel].
  pose proof (Z.mod_pos_bound z 10). pose proof (Z.div_mod z 10).
  assert (Hd : is_ascii_digit (chr (48 + z mod 10)) = true) by (unfold is_ascii_digit, in_range; rewrite ord_chr; lia).
  destruct (Z.ltb_spec z 10) as [Hs|Hs].
  - exists (String (chr (48 + z mod 10)) ""). cbn. rewrite Hd, ord_chr by lia.
    split_and!; [done..|]. f_equal. rewrite Z.mod_small by lia. lia.
  - destruct fuel as [|fuel]; [change (10 ^ Z.of_nat 1) with 10 in Hz; lia|].
    destruct (IH (z / 10) (String (chr (48 + z mod 10)) acc)) as (ds & -> & Hn & Hds & Hv); [|done|].
    { rewrite Nat2Z.inj_succ, Z.pow_succ_r in Hz by lia. split; [apply Z.div_pos; lia|apply Z.div_lt_upper_bound; lia]. }
    exists (ds +:+ String (chr (48 + z mod 10)) ""). rewrite sapp_assoc, string_forallb_app, digits_value_app, Hds, Hv by done.
    cbn. rewrite Hd, ord_chr by lia. split_and!; [done|by destruct ds|done|f_equal; lia].
Qed.

Lemma decimal_spec z :
  0 ≤ z < 2 ^ 64 → decimal z ≠ "" ∧ string_forallb is_ascii_digit (decimal z) = true ∧ digits_value 0 (decimal z) = Some z.
Proof.
  intros Hz. destruct (decimal_fuel_spec 20 z "") as (ds & Hd & ?); [|done|].
  - change (10 ^ Z.of_nat 20) with 100000000000000000000. lia.
  - unfold decimal. by rewrite Hd, sapp_nil_r.
Qed.

Lemma digits_ascii s : string_forallb is_ascii_digit s = true → is_ascii s = true.
Proof. apply string_forallb_impl. intros a. unfold is_ascii_digit, in_range, is_ascii_char. lia. Qed.

Lemma decimal_inj x y : 0 ≤ x < 2 ^ 64 → 0 ≤ y < 2 ^ 64 → decimal x = decimal y → x = y.
Proof. intros (_ & _ & Hx)%decimal_spec (_ & _ & Hy)%decimal_spec Heq. rewrite Heq in Hx. congruence. Qed.

Lemma decimal_word z : 0 ≤ z < 2 ^ 64 → is_word (decimal z).
Proof.
  intros (Hn & Hd & _)%decimal_spec. split; [done|]. eapply string_forallb_impl; [|done].
  intros a. unfold is_ascii_digit, is_visible, in_range. lia.
Qed.

(** Numbers survive printing and parsing. *)
Lemma parse_decimal bits z : 0 ≤ z < 2 ^ bits → bits ≤ 64 → parse_uint bits (decimal z) = Some z.
Proof.
  intros Hz Hb. assert (2 ^ bits ≤ 2 ^ 64) by (apply Z.pow_le_mono_r; lia).
  destruct (decimal_spec z) as (Hn & Hd & Hv); [lia|]. unfold parse_uint.
  destruct (decimal z) as [|a s]; [done|]. destruct (decide (a = "+"%char)) as [->|]; [done|].
  cbn [is_empty]. unfold is_empty. rewrite bool_decide_false, Hv by done. cbn.
  by rewrite (proj2 (Z.ltb_lt _ _)) by lia.
Qed.
