(* ===== verification/Net.v ===== *)
(** * IP addresses as text

    [std::net::IpAddr], its parser and its [Display], which the heartbeat and the
    ICE agent use.  The parser follows the standard library's: a reader over the
    rest of the input that either consumes what it read or nothing. *)

From Stdlib Require Import Ascii String.
From S2P Require Import Prelude Text.

(** An IPv4 address is four octets, an IPv6 address eight 16-bit groups. *)
Inductive IpAddr : Type :=
  | V4 (a b c d : Z)
  | V6 (groups : list Z).

#[export] Instance IpAddr_eq_dec : EqDecision IpAddr.
Proof. solve_decision. Defined.

Definition is_ipv4 (ip : IpAddr) : bool := match ip with V4 _ _ _ _ => true | V6 _ => false end.
Definition is_ipv6 (ip : IpAddr) : bool := negb (is_ipv4 ip).

(** The unspecified IPv4 address. *)
Definition UNSPECIFIED : IpAddr := V4 0 0 0 0.

(** [::1] and [127.0.0.0/8]. *)
Definition is_loopback (ip : IpAddr) : bool :=
  match ip with
  | V4 a _ _ _ => a =? 127
  | V6 groups => bool_decide (groups = [0; 0; 0; 0; 0; 0; 0; 1])
  end.

(** ** [Ipv4Addr]'s parser

    Four decimal numbers of one to three digits, without leading zeros, at most
    255 each, separated by dots. *)

Definition parse_octet (s : string) : option Z :=
  if (1 <=? str_len s) && (str_len s <=? 3) && string_forallb is_ascii_digit s
     && negb (starts_with "0" s && (1 <? str_len s))
  then v ← digits_value 0 s; if v <=? 255 then Some v else None
  else None.

Definition parse_ipv4 (s : string) : option (Z * Z * Z * Z) :=
  match split "."%char s with
  | [a; b; c; d] =>
      a ← parse_octet a; b ← parse_octet b; c ← parse_octet c; d ← parse_octet d; Some (a, b, c, d)
  | _ => None
  end.

(** ** [Ipv6Addr]'s parser *)

(** [char::to_digit] in base 16. *)
Definition hex_value_of (a : ascii) : option Z :=
  if in_range 48 57 a then Some (ord a - 48)
  else if in_range 65 70 a then Some (ord a - 55)
  else if in_range 97 102 a then Some (ord a - 87)
  else None.

(** The longest prefix of characters with [p], and the rest. *)
Fixpoint span (p : ascii → bool) (s : string) : string * string :=
  match s with
  | "" => ("", "")
  | String a rest => if p a then let r := span p rest in (String a r.1, r.2) else ("", s)
  end.

Fixpoint hex_digits_value (acc : Z) (s : string) : option Z :=
  match s with
  | "" => Some acc
  | String a s => d ← hex_value_of a; hex_digits_value (acc * 16 + d) s
  end.

(** [read_number(16, Some(4), true)]: all the hexadecimal digits there are, one
    to four of them. *)
Definition read_group (s : string) : option (Z * string) :=
  let r := span is_ascii_hexdigit s in
  if (1 <=? str_len r.1) && (str_len r.1 <=? 4) then v ← hex_digits_value 0 r.1; Some (v, r.2) else None.

(** [read_number(10, Some(3), false)] into a [u8]. *)
Definition read_octet (s : string) : option (Z * string) :=
  let r := span is_ascii_digit s in v ← parse_octet r.1; Some (v, r.2).

Definition read_given_char (c : ascii) (s : string) : option string :=
  match s with String a rest => if decide (a = c) then Some rest else None | "" => None end.

(** [read_separator]: nothing before the first element. *)
Definition read_sep (c : ascii) (first : bool) (s : string) : option string :=
  if first then Some s else read_given_char c s.

Definition read_ipv4_addr (s : string) : option ((Z * Z * Z * Z) * string) :=
  '(a, s) ← read_octet s;
  '(b, s) ← (read_given_char "."%char s ≫= read_octet);
  '(c, s) ← (read_given_char "."%char s ≫= read_octet);
  '(d, s) ← (read_given_char "."%char s ≫= read_octet);
  Some ((a, b, c, d), s).

(** [read_groups] with [limit] groups left: the groups read, whether they end
    in an embedded IPv4 address, and the rest of the input. *)
Fixpoint read_groups (limit : nat) (first : bool) (s : string) : list Z * bool * string :=
  match limit with
  | O => ([], false, s)
  | S limit =>
      let embedded :=
        if bool_decide (limit = O) then None else read_sep ":"%char first s ≫= read_ipv4_addr in
      match embedded with
      | Some ((one, two, three, four), s) => ([one * 256 + two; three * 256 + four], true, s)
      | None =>
          match read_sep ":"%char first s ≫= read_group with
          | Some (g, s) => let r := read_groups limit false s in (g :: r.1.1, r.1.2, r.2)
          | None => ([], false, s)
          end
      end
  end.

Definition zero_groups (n : nat) : list Z := replicate n 0.

Definition read_ipv6_addr (s : string) : option (list Z * string) :=
  let '(head, head_ipv4, s) := read_groups 8 true s in
  if bool_decide (length head = 8%nat) then Some (head, s)
  else if (head_ipv4 : bool) then None
  else
    s ← read_given_char ":"%char s; s ← read_given_char ":"%char s;
    let '(tail, _, s) := read_groups (8 - (length head + 1)) true s in
    Some (head ++ zero_groups (8 - length head - length tail) ++ tail, s).

(** [IpAddr::from_str]: the reader must consume everything. *)
Definition parse_ip (s : string) : option IpAddr :=
  match parse_ipv4 s with
  | Some (a, b, c, d) => Some (V4 a b c d)
  | None => '(groups, rest) ← read_ipv6_addr s; if is_empty rest then Some (V6 groups) else None
  end.

(** ** [Display] *)

(** The [{:x}] of a 16-bit number. *)
Fixpoint lower_hex_fuel (fuel : nat) (z : Z) (acc : string) : string :=
  match fuel with
  | O => acc
  | S fuel =>
      let acc := String (hex_digit (z mod 16)) acc in
      if z <? 16 then acc else lower_hex_fuel fuel (z / 16) acc
  end.
Definition lower_hex (z : Z) : string := lower_hex_fuel 4 z "".

(** The longest run of zero groups, the first of that length: its start and
    its length.  [i] is the position, [cs]/[cl] the current run, [ls]/[ll] the
    longest so far. *)
Fixpoint longest_zeros (i cs cl ls ll : nat) (groups : list Z) : nat * nat :=
  match groups with
  | [] => (ls, ll)
  | g :: groups =>
      if g =? 0 then
        let cs := if bool_decide (cl = O) then i else cs in
        let cl := S cl in
        if bool_decide (ll < cl)%nat then longest_zeros (S i) cs cl cs cl groups
        else longest_zeros (S i) cs cl ls ll groups
      else longest_zeros (S i) O O ls ll groups
  end.

Definition fmt_groups (groups : list Z) : string := join ":" (lower_hex <$> groups).

Definition fmt_ipv4 (a b c d : Z) : string :=
  decimal a +:+ "." +:+ decimal b +:+ "." +:+ decimal c +:+ "." +:+ decimal d.

Definition fmt_ip (ip : IpAddr) : string :=
  match ip with
  | V4 a b c d => fmt_ipv4 a b c d
  | V6 [0; 0; 0; 0; 0; 65535; g; h] =>
      "::ffff:" +:+ fmt_ipv4 (g / 256) (g mod 256) (h / 256) (h mod 256)
  | V6 groups =>
      let '(start, len) := longest_zeros O O O O O groups in
      if bool_decide (1 < len)%nat then
        fmt_groups (take start groups) +:+ "::" +:+ fmt_groups (drop (start + len) groups)
      else fmt_groups groups
  end.

(** [detect_local_ip] of heartbeat.rs and of the resolver: binding, connecting
    and asking a UDP socket for its address, each of which may fail. *)
Definition detect_local_ip (bind connect : option unit) (local_addr : option IpAddr) : option string :=
  _ ← bind; _ ← connect; addr ← local_addr; Some (fmt_ip addr).
