(* ===== verification/Protocol.v ===== *)
(** * The wire protocol (rust/crates/roboat-core/src/protocol.rs)

    Frames [type: u8][length: u32][data], the frame types, the legacy topic
    packet, and the payload records.  Writers append to a writing half, readers
    are decoders over a reading half ([Stream]).  JSON is serde's: a [JsonCodec]
    is the interface the clients of a payload type are given. *)

From S2P Require Import Prelude Text Stream.

(** ** Errors *)

Inductive ProtocolError : Type :=
| Io (msg : string)
| InvalidPacket (msg : string)
| ConnectionClosed.

#[export] Instance ProtocolError_eq_dec : EqDecision ProtocolError.
Proof. solve_decision. Defined.

(** [impl From<std::io::Error> for ProtocolError] *)
Definition from_io_error (e : io_error) : ProtocolError :=
  if decide (kind e = UnexpectedEof) then ConnectionClosed else Io (text e).

(** The [?] operator on an I/O operation. *)
Definition try_io {S A} (m : io S io_error A) : io S ProtocolError A :=
  io_map_err from_io_error m.

(** ** The legacy topic packet *)

Record TunnelPacket : Type := {
  topic : string;
  msg_type : string;
  timestamp_ns : Z;
  payload : list byte;
}.

Definition write_to (p : TunnelPacket) : io sink ProtocolError unit :=
  let topic_bytes := as_bytes (topic p) in
  let type_bytes := as_bytes (msg_type p) in
  try_io (write_u16 (u16_wrap (zlen topic_bytes)));;
  try_io (write_all topic_bytes);;
  try_io (write_u16 (u16_wrap (zlen type_bytes)));;
  try_io (write_all type_bytes);;
  try_io (write_u64 (timestamp_ns p));;
  try_io (write_u32 (u32_wrap (zlen (payload p))));;
  try_io (write_all (payload p));;
  try_io flush.

Definition read_from : io source ProtocolError TunnelPacket :=
  topic_len ← try_io read_u16;
  if topic_len >? 4096 then io_fail (InvalidPacket "topic too long") else
  topic_buf ← try_io (read_exact topic_len);
  type_len ← try_io read_u16;
  if type_len >? 4096 then io_fail (InvalidPacket "type too long") else
  type_buf ← try_io (read_exact type_len);
  timestamp_ns ← try_io read_u64;
  payload_len ← try_io read_u32;
  if payload_len >? 64 * 1024 * 1024 then io_fail (InvalidPacket "payload too large") else
  payload ← try_io (read_exact payload_len);
  mret {| topic := from_utf8_lossy topic_buf;
          msg_type := from_utf8_lossy type_buf;
          timestamp_ns := timestamp_ns;
          payload := payload |}.

(** ** JSON payloads *)

Record CommandRequest (Value : Type) : Type := {
  req_id : string;
  skill : string;
  action : string;
  params : Value;
}.
Arguments req_id {Value}.

Inductive CommandStatus : Type :=
| StatusOk
| StatusError
| StatusTimeout.

Record CommandResponse (Value : Type) : Type := {
  resp_id : string;
  status : CommandStatus;
  data : option Value;
  error : option string;
}.
Arguments resp_id {Value}.

Record WebRtcBootstrapPayload : Type := {
  bootstrap_id : string;
  cli_public_ip : option string;
  cli_lan_cidr : option string;
  route_type : option string;
}.

Record WebRtcTeardownPayload : Type := {
  teardown_bootstrap_id : option string;
}.

(** What serde_json promises for a type with derived [Serialize] and
    [Deserialize]: [to_vec] and [from_slice]. *)
Class JsonCodec (A : Type) : Type := {
  to_vec : A → list byte;
  from_slice : list byte → option A;
  from_slice_to_vec a : from_slice (to_vec a) = Some a;
}.

(** A codec for any countable type, to show that the laws can hold: the bits of
    the type's code, one per byte. *)
Fixpoint bits_bytes (p : positive) : list byte :=
  match p with xH => [] | xO p => x00 :: bits_bytes p | xI p => x01 :: bits_bytes p end%positive.
Fixpoint bytes_bits (bs : list byte) : positive :=
  match bs with
  | [] => xH
  | b :: bs => if bool_decide (b = x00) then xO (bytes_bits bs) else xI (bytes_bits bs)
  end.

Lemma bytes_bits_bytes p : bytes_bits (bits_bytes p) = p.
Proof. induction p; simpl; congruence. Qed.

Definition countable_codec A `{Countable A} : JsonCodec A.
Proof.
  refine {| to_vec a := bits_bytes (encode a); from_slice bs := decode (bytes_bits bs) |}.
  intros a. by rewrite bytes_bits_bytes, decode_encode.
Defined.

(** ** Frame types *)

Inductive FrameType : Type :=
| FTunnelPacket
| FCommandRequest
| FCommandResponse
| FPing
| FPong
| FWebRtcBootstrap
| FWebRtcTeardown
| FRelayOpen
| FRelayOpenAck
| FRelayData
| FRelayClose
| FStreamOpen
| FStreamData
| FStreamClose
| FFlowControl.

#[export] Instance FrameType_eq_dec : EqDecision FrameType.
Proof. solve_decision. Defined.

(** The discriminant, [frame_type as u8]. *)
Definition frame_byte (ft : FrameType) : Z :=
  match ft with
  | FTunnelPacket => 0x01
  | FCommandRequest => 0x02
  | FCommandResponse => 0x03
  | FPing => 0x10
  | FPong => 0x11
  | FWebRtcBootstrap => 0x20
  | FWebRtcTeardown => 0x21
  | FRelayOpen => 0x30
  | FRelayOpenAck => 0x31
  | FRelayData => 0x32
  | FRelayClose => 0x33
  | FStreamOpen => 0x40
  | FStreamData => 0x41
  | FStreamClose => 0x42
  | FFlowControl => 0x43
  end.

(** [impl TryFrom<u8> for FrameType] *)
Definition try_from (value : Z) : result ProtocolError FrameType :=
  if value =? 0x01 then Ok FTunnelPacket
  else if value =? 0x02 then Ok FCommandRequest
  else if value =? 0x03 then Ok FCommandResponse
  else if value =? 0x10 then Ok FPing
  else if value =? 0x11 then Ok FPong
  else if value =? 0x20 then Ok FWebRtcBootstrap
  else if value =? 0x21 then Ok FWebRtcTeardown
  else if value =? 0x30 then Ok FRelayOpen
  else if value =? 0x31 then Ok FRelayOpenAck
  else if value =? 0x32 then Ok FRelayData
  else if value =? 0x33 then Ok FRelayClose
  else if value =? 0x40 then Ok FStreamOpen
  else if value =? 0x41 then Ok FStreamData
  else if value =? 0x42 then Ok FStreamClose
  else if value =? 0x43 then Ok FFlowControl
  else Err (InvalidPacket ("unknown frame type: 0x" +:+ hex2 value)).

(** ** Frames *)

Definition write_frame (frame_type : FrameType) (data : list byte) :
    io sink ProtocolError unit :=
  try_io (write_u8 (frame_byte frame_type));;
  try_io (write_u32 (u32_wrap (zlen data)));;
  try_io (write_all data);;
  try_io flush.

Definition read_frame : io source ProtocolError (FrameType * list byte) :=
  type_byte ← try_io read_u8;
  frame_type ← io_lift (try_from type_byte);
  length ← try_io read_u32;
  if length >? 64 * 1024 * 1024 then io_fail (InvalidPacket "frame too large") else
  data ← try_io (read_exact length);
  mret (frame_type, data).

(** A task that reads frames until the stream ends, fails, or has no complete
    frame: the frames it got and what [read_frame] said then.  Every frame
    takes a byte, so the length of the stream is enough fuel. *)
Fixpoint read_frames_fuel (fuel : nat) (s : source) :
    list (FrameType * list byte) * outcome ProtocolError unit :=
  match fuel with
  | O => ([], Pending)
  | S fuel =>
      match read_frame s with
      | (Done f, s') => let '(fs, r) := read_frames_fuel fuel s' in (f :: fs, r)
      | (Fail e, _) => ([], Fail e)
      | (Pending, _) => ([], Pending)
      end
  end.
Definition read_frames (s : source) := read_frames_fuel (S (length (avail s))) s.

(** ** Frame types: lemmas *)

Lemma frame_byte_range ft : 0 ≤ frame_byte ft < 256.
Proof. destruct ft; simpl; lia. Qed.

Lemma try_from_frame_byte ft : try_from (frame_byte ft) = Ok ft.
Proof. by destruct ft. Qed.

Lemma try_from_Ok z ft : try_from z = Ok ft → z = frame_byte ft.
Proof.
  unfold try_from. repeat (case_match; [intros [= <-]; simpl; lia|]). done.
Qed.

Lemma try_from_Err z e :
  try_from z = Err e → e = InvalidPacket ("unknown frame type: 0x" +:+ hex2 z).
Proof. unfold try_from. repeat (case_match; [done|]). by intros [= <-]. Qed.

(** ** Frames: lemmas *)

Definition max_frame : Z := 64 * 1024 * 1024.

(** The bytes [write_frame] puts on the wire. *)
Definition frame_bytes (f : FrameType * list byte) : list byte :=
  be_bytes 1 (frame_byte f.1) ++ be_bytes 4 (zlen f.2) ++ f.2.

(** Runs the next operation of a sequence, given a lemma on it. *)
Ltac io_next lem := erewrite io_bind_Done by (apply io_map_err_Done, lem).

Lemma u32_wrap_bytes z : be_bytes 4 (u32_wrap z) = be_bytes 4 z.
Proof.
  apply be_value_inj; [by rewrite !length_be_bytes|].
  rewrite !be_value_bytes. apply Zmod_mod.
Qed.

Lemma u16_wrap_bytes z : be_bytes 2 (u16_wrap z) = be_bytes 2 z.
Proof.
  apply be_value_inj; [by rewrite !length_be_bytes|].
  rewrite !be_value_bytes. apply Zmod_mod.
Qed.

Lemma write_frame_open ft d w f :
  write_frame ft d (Sink w None f) = (Done tt, Sink (w ++ frame_bytes (ft, d)) None f).
Proof.
  unfold write_frame, frame_bytes; simpl fst; simpl snd.
  io_next write_all_open. unfold write_u32. rewrite u32_wrap_bytes.
  io_next write_all_open. io_next write_all_open.
  by rewrite <- !app_assoc.
Qed.

Lemma read_frame_app ft d rest e :
  zlen d ≤ max_frame →
  read_frame (Source (frame_bytes (ft, d) ++ rest) e) = (Done (ft, d), Source rest e).
Proof.
  unfold max_frame, frame_bytes. intros Hd. rewrite <- !app_assoc; simpl fst; simpl snd.
  unfold read_frame. io_next read_u8_app.
  unfold u8_wrap. rewrite Z.mod_small by apply frame_byte_range.
  rewrite try_from_frame_byte. erewrite io_bind_Done by reflexivity.
  io_next read_u32_app.
  unfold u32_wrap. rewrite Z.mod_small by lia.
  case_match eqn:E; [lia|]. io_next read_exact_app. done.
Qed.

#[export] Instance parser_try_io {A} (m : io source io_error A) :
  Parser id m → Parser from_io_error (try_io m).
Proof. apply (parser_map_err from_io_error id). Qed.

Create HintDb parser.
#[export] Hint Resolve parser_bind parser_if parser_try_io parser_ret parser_io_fail
  parser_io_lift parser_read_u8 parser_read_u16 parser_read_u32 parser_read_u64
  parser_read_exact : parser.

#[export] Instance parser_read_frame : Parser from_io_error read_frame.
Proof.
  apply parser_bind; [apply _|]. intros tb. apply parser_bind; [apply _|]. intros ft.
  apply (parser_read_uint_bind _ 4). intros n Hn. eauto 6 with parser.
Qed.

#[export] Instance parser_read_from : Parser from_io_error read_from.
Proof.
  apply (parser_read_uint_bind _ 2). intros n Hn. apply parser_if; [apply _|].
  apply parser_bind; [by auto with parser|]. intros t.
  apply (parser_read_uint_bind _ 2). intros m Hm. apply parser_if; [apply _|].
  apply parser_bind; [by auto with parser|]. intros ty.
  apply parser_bind; [apply _|]. intros ts.
  apply (parser_read_uint_bind _ 4). intros k Hk. eauto 6 with parser.
Qed.

(** What [read_frame] accepts is an encoding it wrote, within the bound. *)
Lemma read_frame_inv s ft d s' :
  read_frame s = (Done (ft, d), s') →
  avail s = frame_bytes (ft, d) ++ avail s' ∧ fin s' = fin s ∧ zlen d ≤ max_frame.
Proof.
  destruct s as [bs e]. unfold read_frame.
  intros (tb & s1 & H1%io_map_err_Done_inv & H)%io_bind_Done_inv.
  apply io_bind_Done_inv in H as (ft' & s2 & H2 & H).
  apply io_bind_Done_inv in H as (n & s3 & H3%io_map_err_Done_inv & H).
  case_match eqn:En; [done|].
  apply io_bind_Done_inv in H as (d' & s4 & H4%io_map_err_Done_inv & [= <- <- <-]).
  apply io_bind_Done_inv in H1 as (b1 & ? & H1 & [= <- <-]).
  apply (read_exact_inv 1) in H1 as (L1 & r1 & -> & ->); [|lia].
  unfold io_lift in H2. destruct (try_from _) as [ft''|] eqn:Et; [|done].
  injection H2 as -> <-. apply try_from_Ok in Et.
  apply io_bind_Done_inv in H3 as (b3 & ? & H3 & [= <- <-]).
  apply (read_exact_inv 4) in H3 as (L3 & r3 & -> & ->); [|lia].
  apply read_exact_inv in H4 as (L4 & r4 & -> & ->); [|apply be_value_range].
  unfold frame_bytes, max_frame; cbn [fst snd avail fin]. split_and!; [|done|lia].
  rewrite <- Et, L4. rewrite <- !app_assoc.
  rewrite <- (be_bytes_value b1) at 1. rewrite <- (be_bytes_value b3) at 1.
  by replace (length b1) with 1%nat by lia; replace (length b3) with 4%nat by lia.
Qed.

(** ** Frames on a connection *)

(** [write_frame] is one write of the whole frame: header and data are
    accepted, cut short or refused together. *)
Lemma write_frame_all ft d s :
  write_frame ft d s = try_io (write_all (frame_bytes (ft, d))) s.
Proof.
  unfold write_frame, frame_bytes, try_io; simpl fst; simpl snd.
  unfold write_u8, write_u32. rewrite u32_wrap_bytes, <- write_all_app.
  apply io_bind_ext; intros _ s1. rewrite <- write_all_app.
  apply io_bind_ext; intros _ s2. apply write_all_flush.
Qed.

(** A sequence of frames, written one after the other. *)
Fixpoint write_frames (fs : list (FrameType * list byte)) : io sink ProtocolError unit :=
  match fs with
  | [] => mret tt
  | (ft, d) :: fs => write_frame ft d;; write_frames fs
  end.

Definition frames_bytes (fs : list (FrameType * list byte)) : list byte :=
  concat (frame_bytes <$> fs).

Lemma frames_bytes_cons f fs : frames_bytes (f :: fs) = frame_bytes f ++ frames_bytes fs.
Proof. done. Qed.

Lemma frames_bytes_app fs1 fs2 : frames_bytes (fs1 ++ fs2) = frames_bytes fs1 ++ frames_bytes fs2.
Proof. unfold frames_bytes. by rewrite fmap_app, concat_app. Qed.

(** What a reader is told when the stream ends between two frames. *)
Definition stream_end (e : ending) : outcome ProtocolError unit :=
  match e with
  | Open => Pending
  | Closed => Fail ConnectionClosed
  | Broken x => Fail (from_io_error x)
  end.

Lemma write_frames_open fs w f :
  write_frames fs (Sink w None f) = (Done tt, Sink (w ++ frames_bytes fs) None f).
Proof.
  revert w. induction fs as [|[ft d] fs IH]; intros w; simpl; [by rewrite app_nil_r|].
  rewrite (io_bind_Done _ _ _ _ _ (write_frame_open _ _ _ _)), IH.
  by rewrite frames_bytes_cons, <- app_assoc.
Qed.

Lemma read_frame_empty e :
  read_frame (Source [] e) =
    (match e with Open => Pending | Closed => Fail ConnectionClosed
     | Broken x => Fail (from_io_error x) end, Source [] e).
Proof. by destruct e. Qed.

Lemma length_frame_bytes f : (5 ≤ length (frame_bytes f))%nat.
Proof. unfold frame_bytes. rewrite !length_app, !length_be_bytes. lia. Qed.

Lemma read_frames_fuel_concat fuel fs e :
  (length fs < fuel)%nat → Forall (λ f, zlen f.2 ≤ max_frame) fs →
  read_frames_fuel fuel (Source (frames_bytes fs) e) = (fs, stream_end e).
Proof.
  revert fuel. induction fs as [|[ft d] fs IH]; intros [|fuel] Hf Hfs; try (simpl in Hf; lia).
  - by destruct e.
  - inversion Hfs; subst. cbn [read_frames_fuel].
    rewrite frames_bytes_cons, read_frame_app by done.
    rewrite IH; [done|simpl in *; lia|done].
Qed.

Lemma length_frames_bytes fs : (length fs ≤ length (frames_bytes fs))%nat.
Proof.
  induction fs as [|f fs IH]; [simpl; lia|].
  rewrite frames_bytes_cons, length_app. simpl length. pose proof (length_frame_bytes f). lia.
Qed.

Lemma read_frames_concat fs e :
  Forall (λ f, zlen f.2 ≤ max_frame) fs →
  read_frames (Source (frames_bytes fs) e) = (fs, stream_end e).
Proof.
  intros. apply read_frames_fuel_concat; [|done]. simpl.
  pose proof (length_frames_bytes fs). lia.
Qed.

(** Ending at a frame boundary or inside a frame: the frames before it are
    delivered, then the end is reported. *)
Lemma read_frames_cut fs f p q e :
  Forall (λ f, zlen f.2 ≤ max_frame) fs → zlen f.2 ≤ max_frame →
  frame_bytes f = p ++ q → q ≠ [] →
  read_frames (Source (frames_bytes fs ++ p) e) = (fs, stream_end e).
Proof.
  intros Hfs Hf Hpq Hq. unfold read_frames. simpl avail.
  assert (length fs < S (length (frames_bytes fs ++ p)))%nat as Hfuel.
  { rewrite length_app. pose proof (length_frames_bytes fs). lia. }
  revert Hfuel. generalize (S (length (frames_bytes fs ++ p))). intros fuel.
  revert fuel. induction Hfs as [|[ft d] fs Hd Hfs IH]; intros [|fuel] Hfuel; try (simpl in *; lia).
  - cbn [read_frames_fuel]. change (frames_bytes [] ++ p) with p. destruct f as [ft d].
    rewrite (parser_prefix from_io_error read_frame p q (ft, d) e); [by destruct e| |done].
    rewrite <- Hpq. rewrite <- (app_nil_r (frame_bytes _)). by apply read_frame_app.
  - cbn [read_frames_fuel].
    rewrite frames_bytes_cons, <- app_assoc, read_frame_app by done. rewrite IH; [done|simpl in *; lia].
Qed.

(** ** Properties of frames *)

(** C1: a sequence of frames of at most 64 MiB each, written with
    [write_frame] to a peer that accepts everything, is read back by repeated
    [read_frame] as the same sequence; after it the reader waits, sees
    [ConnectionClosed] or the I/O error, as the stream goes on. *)
Theorem frame_stream_roundtrip fs e (Hfs : Forall (λ f, zlen f.2 ≤ max_frame) fs) :
  ∃ w, write_frames fs (open_sink []) = (Done tt, open_sink w) ∧
       read_frames (Source w e) = (fs, stream_end e).
Proof.
  exists (frames_bytes fs). split; [apply write_frames_open|by apply read_frames_concat].
Qed.

Lemma frame_stream_roundtrip_witness :
  ∃ w, write_frames [(FStreamOpen, [x00; x00; x00; x01; x02]); (FPing, [])] (open_sink [])
         = (Done tt, open_sink w) ∧
       read_frames (Source w Closed)
         = ([(FStreamOpen, [x00; x00; x00; x01; x02]); (FPing, [])], Fail ConnectionClosed).
Proof.
  apply (frame_stream_roundtrip [(FStreamOpen, [x00; x00; x00; x01; x02]); (FPing, [])] Closed).
  repeat constructor; vm_compute; discriminate.
Defined.



(** TCP segmentation does not matter.  When a stream stops inside a frame,
    all frames before it have been delivered, and the reader waits for the
    rest if the stream is open, and reports [ConnectionClosed] (or the error)
    if it ended there: never a frame, never a decoding error. *)
Theorem read_frames_segmented fs f p q e
    (Hfs : Forall (λ f, zlen f.2 ≤ max_frame) (f :: fs))
    (Hpq : frame_bytes f = p ++ q) (Hq : q ≠ []) :
  read_frames (Source (frames_bytes fs ++ p) e) = (fs, stream_end e) ∧
  ∀ e', read_frames (Source (frames_bytes fs ++ p ++ q) e') = (fs ++ [f], stream_end e').
Proof.
  inversion Hfs as [|?? Hf Hfs']; subst. split; [by eapply read_frames_cut|].
  intros e'. rewrite <- Hpq.
  assert (frames_bytes fs ++ frame_bytes f = frames_bytes (fs ++ [f])) as ->.
  { unfold frames_bytes. rewrite fmap_app, concat_app. simpl. by rewrite app_nil_r. }
  apply read_frames_concat, Forall_app. split; [done|by apply Forall_singleton].
Qed.

Lemma read_frames_segmented_witness :
  read_frames (Source (frames_bytes [(FPing, [])] ++ [x11; x00]) Open) = ([(FPing, [])], Pending) ∧
  ∀ e', read_frames (Source (frames_bytes [(FPing, [])] ++ [x11; x00] ++ [x00; x00; x00]) e')
        = ([(FPing, []); (FPong, [])], stream_end e').
Proof.
  apply (read_frames_segmented [(FPing, [])] (FPong, []) [x11; x00] [x00; x00; x00] Open).
  - repeat constructor; vm_compute; discriminate.
  - reflexivity.
  - discriminate.
Defined.

(** The header of a frame, and what the reader does with a length it rejects. *)
Lemma read_frame_header ft n bs e :
  0 ≤ n < 2 ^ 32 →
  read_frame (Source (be_bytes 1 (frame_byte ft) ++ be_bytes 4 n ++ bs) e) =
    (if n >? max_frame then io_fail (InvalidPacket "frame too large")
     else data ← try_io (read_exact n); mret (ft, data)) (Source bs e).
Proof.
  intros Hn. unfold read_frame. io_next read_u8_app.
  unfold u8_wrap. rewrite Z.mod_small by apply frame_byte_range.
  rewrite try_from_frame_byte. erewrite io_bind_Done by reflexivity.
  io_next read_u32_app. unfold u32_wrap. by rewrite Z.mod_small by lia.
Qed.

Lemma frame_bytes_wrap ft d :
  frame_bytes (ft, d) = be_bytes 1 (frame_byte ft) ++ be_bytes 4 (zlen d mod 2 ^ 32) ++ d.
Proof. unfold frame_bytes; cbn [fst snd]. by rewrite <- (u32_wrap_bytes (zlen d)). Qed.

(** [write_frame] does not check the length it writes.  Data of more than
    64 MiB and less than 4 GiB is written in full, and the peer's [read_frame]
    then refuses it after the five header bytes; from 4 GiB on the length field
    wraps, and the peer takes the first [length mod 2^32] bytes for the frame
    and reads the remaining data as further frames. *)
Theorem write_frame_oversized ft d rest e (Hd : max_frame < zlen d) :
  write_frame ft d (open_sink []) = (Done tt, open_sink (frame_bytes (ft, d))) ∧
  let n := zlen d mod 2 ^ 32 in
  read_frame (Source (frame_bytes (ft, d) ++ rest) e) =
    if n >? max_frame
    then (Fail (InvalidPacket "frame too large"), Source (d ++ rest) e)
    else (Done (ft, take (Z.to_nat n) d), Source (drop (Z.to_nat n) d ++ rest) e).
Proof.
  split; [apply write_frame_open|]. intros n.
  assert (0 ≤ n < 2 ^ 32) as Hn by (apply Z.mod_pos_bound; lia).
  rewrite frame_bytes_wrap, <- !app_assoc. fold n. rewrite read_frame_header by done.
  destruct (n >? max_frame) eqn:E; [done|].
  assert (n ≤ zlen d) by (apply Z.mod_le; lia).
  rewrite <- (take_drop (Z.to_nat n) d) at 1. rewrite <- app_assoc.
  erewrite io_bind_Done; [done|].
  apply io_map_err_Done, read_exact_app'. rewrite length_take. lia.
Qed.

(** One byte more than the limit. *)
Definition oversized_data : list byte := replicate (Z.to_nat (max_frame + 1)) x00.

Lemma length_oversized_data : zlen oversized_data = max_frame + 1.
Proof. unfold oversized_data. rewrite length_replicate, Z2Nat.id; unfold max_frame; lia. Qed.

Lemma write_frame_oversized_witness :
  write_frame FStreamData oversized_data (open_sink [])
    = (Done tt, open_sink (frame_bytes (FStreamData, oversized_data))) ∧
  read_frame (Source (frame_bytes (FStreamData, oversized_data) ++ []) Open) =
    (Fail (InvalidPacket "frame too large"), Source (oversized_data ++ []) Open).
Proof.
  destruct (write_frame_oversized FStreamData oversized_data [] Open) as [H1 H2];
    [rewrite length_oversized_data; reflexivity|].
  split; [exact H1|]. rewrite length_oversized_data in H2. exact H2.
Defined.

(** On a connection that fails, [write_frame] reports the error and leaves
    a proper prefix of the frame on the wire; the frames written before stay
    intact, and a reader of that wire sees exactly them. *)
Theorem write_frame_fault fs ft d r x e
    (Hfs : Forall (λ f, zlen f.2 ≤ max_frame) ((ft, d) :: fs))
    (Hr : 0 ≤ r < zlen (frame_bytes (ft, d))) :
  ∃ p, write_frame ft d (Sink (frames_bytes fs) (Some r) (Some x)) =
         (Fail (from_io_error x), Sink (frames_bytes fs ++ p) (Some 0) (Some x)) ∧
       read_frames (Source (frames_bytes fs ++ p) e) = (fs, stream_end e).
Proof.
  inversion Hfs as [|?? Hf Hfs']; subst.
  exists (take (Z.to_nat r) (frame_bytes (ft, d))). split.
  - rewrite write_frame_all. unfold try_io, io_map_err, write_all; cbn [room written fault].
    by destruct (zlen (frame_bytes (ft, d)) <=? r) eqn:E; [lia|].
  - apply (read_frames_cut fs (ft, d) _ (drop (Z.to_nat r) (frame_bytes (ft, d)))); try done.
    + by rewrite take_drop.
    + intros Hn%(f_equal length). rewrite length_drop, length_nil in Hn. lia.
Qed.

Lemma write_frame_fault_witness :
  ∃ p, write_frame FStreamData [x01] (Sink (frames_bytes [(FPing, [])]) (Some 3)
           (Some (IoError (OtherKind "BrokenPipe") "broken pipe"))) =
         (Fail (Io "broken pipe"), Sink (frames_bytes [(FPing, [])] ++ p) (Some 0)
           (Some (IoError (OtherKind "BrokenPipe") "broken pipe"))) ∧
       read_frames (Source (frames_bytes [(FPing, [])] ++ p) Closed)
         = ([(FPing, [])], Fail ConnectionClosed).
Proof.
  apply (write_frame_fault [(FPing, [])] FStreamData [x01] 3
           (IoError (OtherKind "BrokenPipe") "broken pipe") Closed).
  - repeat constructor; vm_compute; discriminate.
  - split; [discriminate|reflexivity].
Defined.

(** The first byte of a frame decides: the fifteen assigned bytes are read
    as their frame type and written back as the same byte, and every other byte
    is refused at once with the message that names it. *)
Theorem frame_type_bytes z bs e (Hz : 0 ≤ z < 256) :
  match try_from z with
  | Ok ft => frame_byte ft = z
  | Err x =>
      x = InvalidPacket ("unknown frame type: 0x" +:+ hex2 z) ∧
      (∀ ft, frame_byte ft ≠ z) ∧
      read_frame (Source (Z_byte z :: bs) e) = (Fail x, Source bs e)
  end.
Proof.
  destruct (try_from z) as [ft|x] eqn:H; [by apply try_from_Ok in H|].
  split_and!; [by apply try_from_Err| |].
  - intros ft <-. by rewrite try_from_frame_byte in H.
  - unfold read_frame. change (Z_byte z :: bs) with ([Z_byte z] ++ bs).
    rewrite <- be_bytes_1. io_next read_u8_app.
    unfold u8_wrap. rewrite Z.mod_small by done. rewrite H. done.
Qed.

Lemma frame_type_bytes_witness :
  InvalidPacket "unknown frame type: 0x44" = InvalidPacket ("unknown frame type: 0x" +:+ hex2 0x44) ∧
  (∀ ft, frame_byte ft ≠ 0x44) ∧
  read_frame (Source [x44; x00] Open) = (Fail (InvalidPacket "unknown frame type: 0x44"), Source [x00] Open).
Proof. apply (frame_type_bytes 0x44 [x00] Open). split; [discriminate|reflexivity]. Defined.

(** ** The topic packet *)

Definition packet_bytes (p : TunnelPacket) : list byte :=
  be_bytes 2 (zlen (as_bytes (topic p))) ++ as_bytes (topic p) ++
  be_bytes 2 (zlen (as_bytes (msg_type p))) ++ as_bytes (msg_type p) ++
  be_bytes 8 (timestamp_ns p) ++ be_bytes 4 (zlen (payload p)) ++ payload p.

(** A packet the reader's limits admit; the first three lines hold of every
    value of the Rust type. *)
Record packet_wf (p : TunnelPacket) : Prop := {
  packet_topic_utf8 : str_wf (topic p);
  packet_type_utf8 : str_wf (msg_type p);
  packet_timestamp : 0 ≤ timestamp_ns p < 2 ^ 64;
  packet_topic : zlen (as_bytes (topic p)) ≤ 4096;
  packet_type : zlen (as_bytes (msg_type p)) ≤ 4096;
  packet_payload : zlen (payload p) ≤ max_frame;
}.

Lemma write_to_open p w f :
  write_to p (Sink w None f) = (Done tt, Sink (w ++ packet_bytes p) None f).
Proof.
  unfold write_to, packet_bytes. unfold write_u16, write_u32, write_u64.
  rewrite !u16_wrap_bytes, !u32_wrap_bytes.
  do 7 io_next write_all_open. by rewrite <- !app_assoc.
Qed.

Lemma read_from_app p rest e :
  packet_wf p → read_from (Source (packet_bytes p ++ rest) e) = (Done p, Source rest e).
Proof.
  intros [Hu1 Hu2 Ht Hl1 Hl2 Hl3]. unfold read_from, packet_bytes. rewrite <- !app_assoc.
  unfold max_frame in *. io_next read_u16_app. unfold u16_wrap. rewrite Z.mod_small by lia.
  case_match eqn:E1; [lia|]. io_next read_exact_app.
  io_next read_u16_app. unfold u16_wrap. rewrite Z.mod_small by lia.
  case_match eqn:E2; [lia|]. io_next read_exact_app.
  io_next read_u64_app. unfold u64_wrap. rewrite Z.mod_small by lia.
  io_next read_u32_app. unfold u32_wrap. rewrite Z.mod_small by lia.
  case_match eqn:E3; [lia|]. io_next read_exact_app.
  rewrite !from_utf8_lossy_wf by done. by destruct p.
Qed.

(** A topic packet within the reader's limits is read back as it was
    written, whatever follows it on the stream. *)
Theorem tunnel_packet_roundtrip p rest e (Hp : packet_wf p) :
  ∃ w, write_to p (open_sink []) = (Done tt, open_sink w) ∧
       read_from (Source (w ++ rest) e) = (Done p, Source rest e).
Proof. exists (packet_bytes p). split; [apply write_to_open|by apply read_from_app]. Qed.

Lemma tunnel_packet_roundtrip_witness :
  ∃ w, write_to {| topic := "/scan"; msg_type := "std_msgs/msg/String";
                   timestamp_ns := 1234567890; payload := [x01; x02] |} (open_sink [])
         = (Done tt, open_sink w) ∧
       read_from (Source (w ++ [x00]) Closed) =
         (Done {| topic := "/scan"; msg_type := "std_msgs/msg/String";
                  timestamp_ns := 1234567890; payload := [x01; x02] |}, Source [x00] Closed).
Proof.
  apply (tunnel_packet_roundtrip {| topic := "/scan"; msg_type := "std_msgs/msg/String";
    timestamp_ns := 1234567890; payload := [x01; x02] |} [x00] Closed).
  split; try reflexivity; try (vm_compute; discriminate). split; [discriminate|reflexivity].
Defined.

(** The writer of topic packets has no limits: a topic whose length, cut to
    the 16 bits of its length field, exceeds 4096 is written without an error,
    and the reader refuses it. *)
Theorem tunnel_packet_long_topic p rest e
    (Hp : zlen (as_bytes (topic p)) mod 2 ^ 16 > 4096) :
  ∃ w s', write_to p (open_sink []) = (Done tt, open_sink w) ∧
          read_from (Source (w ++ rest) e) = (Fail (InvalidPacket "topic too long"), s').
Proof.
  exists (packet_bytes p). eexists. split; [apply write_to_open|].
  unfold packet_bytes, read_from. rewrite <- !app_assoc. io_next read_u16_app.
  unfold u16_wrap. destruct (_ >? 4096) eqn:E; [done|lia].
Qed.

Lemma tunnel_packet_long_topic_witness :
  ∃ w s', write_to {| topic := of_bytes (replicate 5000 x61); msg_type := ""; timestamp_ns := 0;
                      payload := [] |} (open_sink []) = (Done tt, open_sink w) ∧
          read_from (Source (w ++ []) Open) = (Fail (InvalidPacket "topic too long"), s').
Proof.
  apply (tunnel_packet_long_topic {| topic := of_bytes (replicate 5000 x61); msg_type := "";
    timestamp_ns := 0; payload := [] |} [] Open); vm_compute; reflexivity.
Defined.
