(* ===== verification/Auth.v ===== *)
(** * Ed25519 nonce-challenge authentication (rust/crates/roboat-core/src/auth.rs)

    The server half, the client half, the hexadecimal encoding of keys and the
    normalisation of the allowlist.  Ed25519 itself is the ed25519-dalek crate:
    the interface [Ed25519] with the laws of the signature scheme.  The random
    nonce is an argument.  A read or write that does not complete within ten
    seconds fails; in the model the reading half holds what arrives in time, so
    an operation that would wait is one that times out. *)

From Stdlib Require Import Ascii String.
From S2P Require Import Prelude Text Stream.

Definition NONCE_LEN : Z := 32.
Definition PUBLIC_KEY_LEN : Z := 32.
Definition SIGNATURE_LEN : Z := 64.

(** ** The signature scheme (ed25519-dalek) *)

Class Ed25519 : Type := {
  (** [VerifyingKey::from_bytes] succeeds. *)
  verifying_key_ok : list byte → bool;
  (** [VerifyingKey::verify]: key, message, signature. *)
  ed_verify : list byte → list byte → list byte → bool;
  (** [SigningKey::from_bytes(seed).verifying_key().to_bytes()] *)
  ed_public : list byte → list byte;
  (** [SigningKey::from_bytes(seed).sign(message).to_bytes()] *)
  ed_sign : list byte → list byte → list byte;
  ed_public_length seed : zlen (ed_public seed) = PUBLIC_KEY_LEN;
  ed_sign_length seed msg : zlen (ed_sign seed msg) = SIGNATURE_LEN;
  ed_public_ok seed : verifying_key_ok (ed_public seed) = true;
  ed_sign_verify seed msg : ed_verify (ed_public seed) msg (ed_sign seed msg) = true;
}.

(** ** Errors *)

Inductive AuthError : Type :=
| AuthIo (e : io_error)
| InvalidSignature
| InvalidPublicKey
| Unauthorized.

#[export] Instance AuthError_eq_dec : EqDecision AuthError.
Proof. solve_decision. Defined.

Definition auth_error_string (e : AuthError) : string :=
  match e with
  | AuthIo e => "IO error: " +:+ text e
  | InvalidSignature => "Invalid signature"
  | InvalidPublicKey => "Invalid public key"
  | Unauthorized => "Key not authorized"
  end.

(** ** Hexadecimal *)

Definition HEX_CHARS : string := "0123456789abcdef".
Definition hex_char (i : Z) : ascii := default zero (String.get (Z.to_nat i) HEX_CHARS).

Definition hex_encode_byte (b : byte) : ascii * ascii :=
  (hex_char (Z.shiftr (byte_Z b) 4), hex_char (Z.land (byte_Z b) 0x0f)).

(** [hex::encode] *)
Fixpoint hex_encode (bytes : list byte) : string :=
  match bytes with
  | [] => ""
  | b :: bytes =>
      let h := hex_encode_byte b in
      String h.1 (String h.2 (hex_encode bytes))
  end.

(** ** The allowlist *)

Section Auth.
Context `{!CaseMapping}.

Definition normalize_key (key : string) : string := to_lowercase (trim key).

Definition normalize_authorized_keys (keys : list string) : list string :=
  sort_dedup (filter (λ k, is_empty k = false) (normalize_key <$> keys)).

(** The [RwLock] around the list: a panic while it was written poisons it. *)
Record ServerAuthenticator : Type := {
  locked_keys : list string;
  poisoned : bool;
}.

(** [ServerAuthenticator::new] *)
Definition new_authenticator (authorized_keys : list string) : ServerAuthenticator :=
  {| locked_keys := normalize_authorized_keys authorized_keys; poisoned := false |}.

Definition replace_authorized_keys (a : ServerAuthenticator) (keys : list string) :
    ServerAuthenticator :=
  if poisoned a then a
  else {| locked_keys := normalize_authorized_keys keys; poisoned := false |}.

Definition authorized_keys (a : ServerAuthenticator) : list string :=
  if poisoned a then [] else locked_keys a.

(** ** The exchange *)

Definition with_io_timeout {S A} (op : string) (m : io S io_error A) : io S AuthError A := λ s,
  match m s with
  | (Done v, s') => (Done v, s')
  | (Fail err, s') => (Fail (AuthIo err), s')
  | (Pending, s') =>
      (Fail (AuthIo (IoError TimedOut ("auth " +:+ op +:+ " timeout"))), s')
  end.

Context `{!Ed25519}.

(** [ServerAuthenticator::authenticate], for the nonce that was drawn. *)
Definition server_authenticate (a : ServerAuthenticator) (nonce : list byte) :
    io duplex AuthError string :=
  with_io_timeout "write nonce" (on_wr (write_all nonce));;
  with_io_timeout "flush nonce" (on_wr flush);;
  pub_key_bytes ← with_io_timeout "read public key" (on_rd (read_exact PUBLIC_KEY_LEN));
  sig_bytes ← with_io_timeout "read signature" (on_rd (read_exact SIGNATURE_LEN));
  if negb (verifying_key_ok pub_key_bytes) then io_fail InvalidPublicKey else
  if negb (ed_verify pub_key_bytes nonce sig_bytes) then io_fail InvalidSignature else
  let pub_key_hex := hex_encode pub_key_bytes in
  let keys := authorized_keys a in
  if negb (bool_decide (keys = [])) && negb (bool_decide (pub_key_hex ∈ keys)) then
    with_io_timeout "write auth reject" (on_wr (write_u8 0x00));;
    io_fail Unauthorized
  else
    with_io_timeout "write auth accept" (on_wr (write_u8 0x01));;
    with_io_timeout "flush auth accept" (on_wr flush);;
    mret pub_key_hex.

(** [ClientAuthenticator::authenticate], for the key of [seed]. *)
Definition client_authenticate (seed : list byte) : io duplex AuthError unit :=
  nonce ← with_io_timeout "read nonce" (on_rd (read_exact NONCE_LEN));
  let signature := ed_sign seed nonce in
  let pub_key_bytes := ed_public seed in
  with_io_timeout "write public key" (on_wr (write_all pub_key_bytes));;
  with_io_timeout "write signature" (on_wr (write_all signature));;
  with_io_timeout "flush auth payload" (on_wr flush);;
  result ← with_io_timeout "read auth result" (on_rd read_u8);
  if negb (result =? 0x01) then io_fail Unauthorized else mret tt.

Definition public_key_hex (seed : list byte) : string := hex_encode (ed_public seed).

End Auth.

(** ** Hexadecimal: lemmas *)

Definition is_lower_hex (a : ascii) : bool := is_ascii_digit a || in_range 97 102 a.

(** The byte two hexadecimal digits denote. *)
Definition hex_value (a : ascii) : Z := if is_ascii_digit a then ord a - 48 else ord a - 87.
Definition unhex (h : ascii * ascii) : byte := Z_byte (hex_value h.1 * 16 + hex_value h.2).

Lemma unhex_hex b : unhex (hex_encode_byte b) = b.
Proof. by destruct b; vm_compute. Qed.

Lemma hex_encode_byte_lower b :
  is_lower_hex (hex_encode_byte b).1 = true ∧ is_lower_hex (hex_encode_byte b).2 = true.
Proof. by destruct b; vm_compute. Qed.

Lemma hex_encode_inj bs1 bs2 : hex_encode bs1 = hex_encode bs2 → bs1 = bs2.
Proof.
  revert bs2. induction bs1 as [|b1 bs1 IH]; intros [|b2 bs2]; try done.
  cbn [hex_encode]. intros [= H1 H2 H3]. f_equal; [|auto].
  rewrite <- (unhex_hex b1), <- (unhex_hex b2). f_equal.
  unfold hex_encode_byte. by rewrite H1, H2.
Qed.

Lemma length_hex_encode bs : String.length (hex_encode bs) = (2 * length bs)%nat.
Proof. induction bs; simpl; lia. Qed.

Lemma hex_encode_lower bs : string_forallb is_lower_hex (hex_encode bs) = true.
Proof.
  induction bs as [|b bs IH]; [done|]. cbn [hex_encode string_forallb].
  destruct (hex_encode_byte_lower b) as [-> ->]. done.
Qed.

Lemma hex_encode_nonempty bs : bs ≠ [] → hex_encode bs ≠ "".
Proof. by destruct bs. Qed.

Lemma lower_hex_lower a : is_lower_hex a = true → to_ascii_lowercase_char a = a.
Proof. by_chars. Qed.
Lemma lower_hex_ascii a : is_lower_hex a = true → is_ascii_char a = true.
Proof. by_chars. Qed.
Lemma lower_hex_visible a : is_lower_hex a = true → is_visible a = true.
Proof. by_chars. Qed.

(** ** The allowlist: lemmas *)

Section AllowlistLemmas.
Context `{CM : !CaseMapping}.

Lemma normalize_key_idemp k : normalize_key (normalize_key k) = normalize_key k.
Proof.
  unfold normalize_key. by rewrite to_lowercase_trim, trim_idemp, to_lowercase_idemp.
Qed.

(** The hexadecimal form of a key is its own normal form. *)
Lemma normalize_key_lower_hex s : string_forallb is_lower_hex s = true → normalize_key s = s.
Proof.
  intros H. unfold normalize_key. rewrite trim_visible.
  - rewrite to_lowercase_ascii.
    + by apply (string_map_id _ is_lower_hex); [apply lower_hex_lower|].
    + revert H. apply string_forallb_impl, lower_hex_ascii.
  - revert H. apply string_forallb_impl, lower_hex_visible.
Qed.

Lemma elem_of_normalize x keys :
  x ∈ normalize_authorized_keys keys ↔ x ≠ "" ∧ ∃ k, k ∈ keys ∧ x = normalize_key k.
Proof.
  unfold normalize_authorized_keys. rewrite sort_dedup_elem_of, list_elem_of_filter, list_elem_of_fmap.
  unfold is_empty. rewrite bool_decide_eq_false. naive_solver.
Qed.

Lemma normalize_sorted keys : StronglySorted String.le (normalize_authorized_keys keys).
Proof. apply sort_dedup_sorted. Qed.

Lemma normalize_NoDup keys : NoDup (normalize_authorized_keys keys).
Proof. apply sort_dedup_NoDup. Qed.

(** Only the set of normal forms matters. *)
Lemma normalize_ext keys1 keys2 :
  (∀ x, x ≠ "" → (∃ k, k ∈ keys1 ∧ x = normalize_key k) ↔ (∃ k, k ∈ keys2 ∧ x = normalize_key k)) →
  normalize_authorized_keys keys1 = normalize_authorized_keys keys2.
Proof.
  intros H. apply sorted_set_unique; auto using normalize_sorted, normalize_NoDup.
  intros x. rewrite !elem_of_normalize. naive_solver.
Qed.

Lemma normalize_idemp keys :
  normalize_authorized_keys (normalize_authorized_keys keys) = normalize_authorized_keys keys.
Proof.
  apply normalize_ext. intros x Hx. split.
  - intros (k & (Hk & k' & Hk' & ->)%elem_of_normalize & ->).
    exists k'. by rewrite normalize_key_idemp.
  - intros (k & Hk & ->). exists (normalize_key k). rewrite normalize_key_idemp.
    split; [|done]. apply elem_of_normalize. eauto.
Qed.

#[export] Instance normalize_proper : Proper ((≡ₚ) ==> (=)) normalize_authorized_keys.
Proof. intros l1 l2 H. apply normalize_ext. intros x _. by setoid_rewrite H. Qed.

Lemma normalize_nil keys :
  normalize_authorized_keys keys = [] ↔ ∀ k, k ∈ keys → trim k = "".
Proof.
  split.
  - intros H k Hk. destruct (decide (normalize_key k = "")) as [He|Hne].
    + by apply to_lowercase_empty in He.
    + exfalso. eapply (not_elem_of_nil (normalize_key k)). rewrite <- H.
      apply elem_of_normalize. eauto.
  - intros H. apply elem_of_nil_inv. intros x (Hx & k & Hk & ->)%elem_of_normalize.
    apply Hx. unfold normalize_key. rewrite (H k Hk). by rewrite to_lowercase_ascii.
Qed.

(** A key is on a list exactly when an entry spells it in hexadecimal, in any
    case and with any surrounding space. *)
Lemma elem_of_normalize_hex bs keys :
  bs ≠ [] →
  hex_encode bs ∈ normalize_authorized_keys keys ↔ ∃ k, k ∈ keys ∧ normalize_key k = hex_encode bs.
Proof.
  intros Hbs. rewrite elem_of_normalize. pose proof (hex_encode_nonempty bs Hbs). naive_solver.
Qed.

End AllowlistLemmas.

(** ** The exchange: lemmas *)

Section Handshake.
Context `{CM : !CaseMapping} `{ED : !Ed25519}.

Lemma auth_write op bs s w f :
  with_io_timeout op (on_wr (write_all bs)) (Duplex s (Sink w None f)) =
    (Done tt, Duplex s (Sink (w ++ bs) None f)).
Proof. done. Qed.

Lemma auth_flush op s k :
  with_io_timeout op (on_wr flush) (Duplex s k) = (Done tt, Duplex s k).
Proof. by destruct k. Qed.

Lemma auth_read op n bs rest e k :
  n = zlen bs →
  with_io_timeout op (on_rd (read_exact n)) (Duplex (Source (bs ++ rest) e) k) =
    (Done bs, Duplex (Source rest e) k).
Proof. intros ->. unfold with_io_timeout, on_rd; simpl. by rewrite read_exact_app. Qed.

(** The error of a read that the peer does not complete. *)
Definition short_read (op : string) (e : ending) : AuthError :=
  AuthIo match e with
         | Open => IoError TimedOut ("auth " +:+ op +:+ " timeout")
         | Closed => early_eof
         | Broken x => x
         end.

Lemma auth_read_short op n bs e k :
  zlen bs < n →
  with_io_timeout op (on_rd (read_exact n)) (Duplex (Source bs e) k) =
    (Fail (short_read op e), Duplex (Source [] e) k).
Proof.
  intros H. unfold with_io_timeout, on_rd; simpl. rewrite read_exact_short by done.
  by destruct e.
Qed.

Ltac auth_next lem := erewrite io_bind_Done by (apply lem; done).

(** The server's answer to a key and a signature: the result and the byte it
    sends, if it sends one. *)
Definition server_verdict (a : ServerAuthenticator) (nonce pk sg : list byte) :
    outcome AuthError string * list byte :=
  if negb (verifying_key_ok pk) then (Fail InvalidPublicKey, [])
  else if negb (ed_verify pk nonce sg) then (Fail InvalidSignature, [])
  else if bool_decide (authorized_keys a = []) || bool_decide (hex_encode pk ∈ authorized_keys a)
       then (Done (hex_encode pk), [x01])
       else (Fail Unauthorized, [x00]).

Lemma server_authenticate_spec a nonce pk sg rest e w f :
  zlen pk = PUBLIC_KEY_LEN → zlen sg = SIGNATURE_LEN →
  server_authenticate a nonce (Duplex (Source (pk ++ sg ++ rest) e) (Sink w None f)) =
    ((server_verdict a nonce pk sg).1,
     Duplex (Source rest e) (Sink (w ++ nonce ++ (server_verdict a nonce pk sg).2) None f)).
Proof.
  intros Hpk Hsg. unfold server_authenticate, server_verdict.
  auth_next auth_write. auth_next auth_flush. auth_next auth_read. auth_next auth_read.
  destruct (verifying_key_ok pk); simpl negb; [|by rewrite app_nil_r].
  destruct (ed_verify pk nonce sg); simpl negb; [|by rewrite app_nil_r].
  cbv zeta. rewrite <- negb_orb.
  destruct (bool_decide (authorized_keys a = []) || _); cbn [negb]; cbv iota.
  - auth_next auth_write. auth_next auth_flush. by rewrite <- app_assoc.
  - auth_next auth_write. by rewrite <- app_assoc.
Qed.

Lemma server_authenticate_short a nonce bs e w f :
  zlen bs < PUBLIC_KEY_LEN + SIGNATURE_LEN →
  server_authenticate a nonce (Duplex (Source bs e) (Sink w None f)) =
    (Fail (short_read (if zlen bs <? PUBLIC_KEY_LEN then "read public key" else "read signature") e),
     Duplex (Source [] e) (Sink (w ++ nonce) None f)).
Proof.
  unfold PUBLIC_KEY_LEN, SIGNATURE_LEN. intros Hbs. unfold server_authenticate.
  auth_next auth_write. auth_next auth_flush.
  destruct (zlen bs <? 32) eqn:E.
  - apply io_bind_Fail, auth_read_short. unfold PUBLIC_KEY_LEN. lia.
  - rewrite <- (take_drop 32 bs). erewrite io_bind_Done.
    2:{ apply auth_read. rewrite length_take. unfold PUBLIC_KEY_LEN. lia. }
    apply io_bind_Fail, auth_read_short. rewrite length_drop. unfold SIGNATURE_LEN. lia.
Qed.

Lemma client_authenticate_spec seed nonce b rest e w f :
  zlen nonce = NONCE_LEN →
  client_authenticate seed (Duplex (Source (nonce ++ b :: rest) e) (Sink w None f)) =
    (if byte_Z b =? 1 then Done tt else Fail Unauthorized,
     Duplex (Source rest e) (Sink (w ++ ed_public seed ++ ed_sign seed nonce) None f)).
Proof.
  intros Hn. unfold client_authenticate. auth_next auth_read.
  auth_next auth_write. auth_next auth_write. auth_next auth_flush.
  rewrite <- app_assoc.
  replace (b :: rest) with (be_bytes 1 (byte_Z b) ++ rest).
  2:{ by rewrite be_bytes_1, Z_byte_of. }
  erewrite io_bind_Done.
  2:{ unfold with_io_timeout, on_rd; cbn [rd wr]. by rewrite read_u8_app. }
  unfold u8_wrap. rewrite Z.mod_small by apply byte_Z_range.
  by destruct (_ =? 1).
Qed.

(** Without the answer the client fails after it has sent key and signature. *)
Lemma client_authenticate_noreply seed nonce e w f :
  zlen nonce = NONCE_LEN →
  client_authenticate seed (Duplex (Source nonce e) (Sink w None f)) =
    (Fail (short_read "read auth result" e),
     Duplex (Source [] e) (Sink (w ++ ed_public seed ++ ed_sign seed nonce) None f)).
Proof.
  intros Hn. unfold client_authenticate. rewrite <- (app_nil_r nonce) at 1.
  auth_next auth_read. auth_next auth_write. auth_next auth_write. auth_next auth_flush.
  rewrite <- app_assoc. apply io_bind_Fail. unfold with_io_timeout, on_rd; simpl.
  by destruct e.
Qed.

(** Two parties joined by a connection that delivers in time: what each wrote
    is what the other reads, and the results they get. *)
Record handshake (a : ServerAuthenticator) (nonce seed : list byte)
    (rs : outcome AuthError string) (rc : outcome AuthError unit) (cs sc : list byte) : Prop := {
  server_side :
    server_authenticate a nonce (Duplex (Source cs Open) (open_sink [])) =
      (rs, Duplex (Source [] Open) (open_sink sc));
  client_side :
    client_authenticate seed (Duplex (Source sc Open) (open_sink [])) =
      (rc, Duplex (Source [] Open) (open_sink cs));
}.

(** What the server accepts a key for. *)
Definition admits (a : ServerAuthenticator) (pk : list byte) : Prop :=
  authorized_keys a = [] ∨ hex_encode pk ∈ authorized_keys a.

#[export] Instance admits_dec a pk : Decision (admits a pk).
Proof. unfold admits. apply _. Defined.

Lemma server_verdict_signed a nonce seed :
  server_verdict a nonce (ed_public seed) (ed_sign seed nonce) =
    if decide (admits a (ed_public seed))
    then (Done (public_key_hex seed), [x01]) else (Fail Unauthorized, [x00]).
Proof.
  unfold server_verdict. rewrite ed_public_ok, ed_sign_verify; simpl negb; cbv iota.
  unfold public_key_hex, admits. rewrite <- bool_decide_or.
  destruct (decide _) as [H|H]; [by rewrite bool_decide_true|by rewrite bool_decide_false].
Qed.

Lemma handshake_run a nonce seed :
  zlen nonce = NONCE_LEN →
  handshake a nonce seed
    (if decide (admits a (ed_public seed)) then Done (public_key_hex seed) else Fail Unauthorized)
    (if decide (admits a (ed_public seed)) then Done tt else Fail Unauthorized)
    (ed_public seed ++ ed_sign seed nonce)
    (nonce ++ if decide (admits a (ed_public seed)) then [x01] else [x00]).
Proof.
  intros Hn. split; unfold open_sink.
  - rewrite <- (app_nil_r (ed_sign seed nonce)).
    rewrite server_authenticate_spec by apply ed_public_length || apply ed_sign_length.
    rewrite server_verdict_signed. by destruct (decide _).
  - destruct (decide _); by rewrite client_authenticate_spec.
Qed.

(** What the server sends first is the nonce, so the client's part of an
    exchange is determined, and with it the server's. *)
Lemma handshake_det a nonce seed rs rc cs sc :
  zlen nonce = NONCE_LEN → handshake a nonce seed rs rc cs sc →
  cs = ed_public seed ++ ed_sign seed nonce ∧
  rs = (server_verdict a nonce (ed_public seed) (ed_sign seed nonce)).1 ∧
  sc = nonce ++ (server_verdict a nonce (ed_public seed) (ed_sign seed nonce)).2.
Proof.
  intros Hn [Hs Hc]. unfold open_sink in *.
  assert (∃ reply, sc = nonce ++ reply) as [reply ->].
  { destruct (decide (zlen cs < PUBLIC_KEY_LEN + SIGNATURE_LEN)) as [Hlt|Hge].
    - rewrite server_authenticate_short in Hs by done. injection Hs as _ <-.
      exists []. by rewrite app_nil_r.
    - unfold PUBLIC_KEY_LEN, SIGNATURE_LEN in *.
      rewrite <- (take_drop 32 cs) in Hs. rewrite <- (take_drop 64 (drop 32 cs)) in Hs.
      rewrite server_authenticate_spec in Hs; [by injection Hs as _ _ <-; eexists| |];
        rewrite length_take, ?length_drop; unfold PUBLIC_KEY_LEN, SIGNATURE_LEN; lia. }
  assert (cs = ed_public seed ++ ed_sign seed nonce) as ->.
  { destruct reply as [|b reply].
    - rewrite app_nil_r, client_authenticate_noreply in Hc by done. by injection Hc as _ <-.
    - rewrite client_authenticate_spec in Hc by done. by injection Hc as _ _ <-. }
  rewrite <- (app_nil_r (ed_sign seed nonce)) in Hs at 1.
  rewrite server_authenticate_spec in Hs by apply ed_public_length || apply ed_sign_length.
  by injection Hs as <- <-%app_inv_head.
Qed.

(** ** Properties of the exchange *)

(** C2: the two halves of the handshake agree.  Joined by a connection that
    delivers, there is exactly one exchange between a client with the key of
    [seed] and a server that drew [nonce]: the server returns the client's
    hexadecimal key and the client returns [Ok] when the server's list is empty
    or holds the key, and both return [Unauthorized] otherwise. *)
Theorem handshake_agreement a nonce seed rs rc cs sc (Hn : zlen nonce = NONCE_LEN) :
  handshake a nonce seed rs rc cs sc ↔
    cs = ed_public seed ++ ed_sign seed nonce ∧
    if decide (admits a (ed_public seed))
    then rs = Done (public_key_hex seed) ∧ rc = Done tt ∧ sc = nonce ++ [x01]
    else rs = Fail Unauthorized ∧ rc = Fail Unauthorized ∧ sc = nonce ++ [x00].
Proof.
  pose proof (handshake_run a nonce seed Hn) as Hrun. split.
  - intros H. destruct (handshake_det _ _ _ _ _ _ _ Hn H) as (-> & -> & ->).
    rewrite server_verdict_signed in *. split; [done|].
    destruct H as [_ Hc], Hrun as [_ Hc'].
    destruct (decide _); simpl in *; rewrite Hc in Hc'; by injection Hc' as ->.
  - intros [-> H]. destruct (decide _); by destruct H as (-> & -> & ->).
Qed.

(** C3: the server accepts nobody else.  If [authenticate] returns a key,
    then the peer sent 32 bytes that are a valid public key, followed by 64
    bytes that verify as its signature of this very nonce; the returned string
    is that key in hexadecimal, the list was empty or holds it, and the server
    has sent the nonce and the acceptance byte. *)
Theorem server_authenticate_sound a nonce bs e w f k d
    (H : server_authenticate a nonce (Duplex (Source bs e) (Sink w None f)) = (Done k, d)) :
  ∃ pk sg rest, bs = pk ++ sg ++ rest ∧ zlen pk = PUBLIC_KEY_LEN ∧ zlen sg = SIGNATURE_LEN ∧
    verifying_key_ok pk = true ∧ ed_verify pk nonce sg = true ∧
    k = hex_encode pk ∧ admits a pk ∧ written (wr d) = w ++ nonce ++ [x01].
Proof.
  destruct (decide (zlen bs < PUBLIC_KEY_LEN + SIGNATURE_LEN)) as [Hlt|Hge].
  { by rewrite server_authenticate_short in H. }
  unfold PUBLIC_KEY_LEN, SIGNATURE_LEN in Hge.
  set (pk := take 32 bs). set (sg := take 64 (drop 32 bs)). set (rest := drop 64 (drop 32 bs)).
  assert (bs = pk ++ sg ++ rest) as Hbs by (unfold pk, sg, rest; by rewrite !take_drop).
  assert (zlen pk = PUBLIC_KEY_LEN) as Hpk by (unfold pk, PUBLIC_KEY_LEN; rewrite length_take; lia).
  assert (zlen sg = SIGNATURE_LEN) as Hsg
    by (unfold sg, SIGNATURE_LEN; rewrite length_take, length_drop; lia).
  rewrite Hbs, server_authenticate_spec in H by done. injection H as Hv <-.
  exists pk, sg, rest. unfold server_verdict in *.
  destruct (verifying_key_ok pk); [|done]. destruct (ed_verify pk nonce sg); [|done].
  simpl negb in *. cbv iota in *. rewrite <- bool_decide_or in *.
  case_bool_decide; [|done]. by injection Hv as <-.
Qed.

(** A silent, slow or broken client never gets in: with fewer than the 96
    bytes of key and signature the server fails with the read's error, a
    timeout if the peer just stays silent, and no answer byte is sent. *)
Theorem server_authenticate_incomplete a nonce bs e w f
    (Hbs : zlen bs < PUBLIC_KEY_LEN + SIGNATURE_LEN) :
  server_authenticate a nonce (Duplex (Source bs e) (Sink w None f)) =
    (Fail (short_read (if zlen bs <? PUBLIC_KEY_LEN then "read public key" else "read signature") e),
     Duplex (Source [] e) (Sink (w ++ nonce) None f)).
Proof. by apply server_authenticate_short. Qed.

(** The allowlist works on keys, not on spellings: an authenticator built
    from [keys] admits a key exactly when some entry is the key's hexadecimal
    form up to letter case and surrounding white space -- or when no entry is
    left after blank ones are dropped, and then it admits every key. *)
Theorem allowlist_membership keys pk (Hpk : pk ≠ []) :
  admits (new_authenticator keys) pk ↔
    (∀ k, k ∈ keys → trim k = "") ∨ ∃ k, k ∈ keys ∧ normalize_key k = hex_encode pk.
Proof.
  unfold admits, new_authenticator, authorized_keys; simpl.
  by rewrite normalize_nil, elem_of_normalize_hex.
Qed.

End Handshake.

(** ** Witnesses

    A signature scheme that satisfies the laws (and is no signature scheme):
    a signature repeats the key and the message. *)

Definition toy_sign (pk msg : list byte) : list byte := take 64 (pk ++ msg ++ replicate 64 x00).

Definition toy_ed25519 : Ed25519.
Proof.
  refine {| verifying_key_ok pk := zlen pk =? 32;
            ed_verify pk msg sg := bool_decide (sg = toy_sign pk msg);
            ed_public seed := take 32 (seed ++ replicate 32 x00);
            ed_sign seed msg := toy_sign (take 32 (seed ++ replicate 32 x00)) msg |}.
  - intros seed. rewrite length_take, length_app, length_replicate. unfold PUBLIC_KEY_LEN. lia.
  - intros seed msg. unfold toy_sign. rewrite length_take, !length_app, length_replicate.
    unfold SIGNATURE_LEN. lia.
  - intros seed. rewrite length_take, length_app, length_replicate. lia.
  - intros seed msg. by apply bool_decide_eq_true.
Defined.

#[local] Existing Instance ascii_case_mapping.
#[local] Existing Instance toy_ed25519.

Definition toy_nonce : list byte := replicate 32 x07.

Lemma handshake_agreement_witness :
  handshake (new_authenticator [" 2A" +:+ hex_encode (replicate 31 x00) +:+ " "]) toy_nonce [x2a]
    (Done (public_key_hex [x2a])) (Done tt)
    (ed_public [x2a] ++ ed_sign [x2a] toy_nonce) (toy_nonce ++ [x01]).
Proof.
  apply (handshake_agreement (new_authenticator [" 2A" +:+ hex_encode (replicate 31 x00) +:+ " "])
           toy_nonce [x2a]); [reflexivity|].
  split; [reflexivity|]. rewrite decide_True; [auto|].
  apply (bool_decide_unpack _). vm_compute. exact I.
Defined.

Lemma server_authenticate_sound_witness :
  ∃ pk sg rest, ed_public [x2a] ++ ed_sign [x2a] toy_nonce = pk ++ sg ++ rest ∧
    zlen pk = PUBLIC_KEY_LEN ∧ zlen sg = SIGNATURE_LEN ∧
    verifying_key_ok pk = true ∧ ed_verify pk toy_nonce sg = true ∧
    public_key_hex [x2a] = hex_encode pk ∧ admits (new_authenticator []) pk ∧
    toy_nonce ++ [x01] = [] ++ toy_nonce ++ [x01].
Proof.
  apply (server_authenticate_sound (new_authenticator []) toy_nonce
    (ed_public [x2a] ++ ed_sign [x2a] toy_nonce) Open [] None (public_key_hex [x2a])
    (Duplex (Source [] Open) (open_sink (toy_nonce ++ [x01])))).
  vm_compute. reflexivity.
Defined.

Lemma server_authenticate_incomplete_witness :
  server_authenticate (new_authenticator []) toy_nonce (Duplex (Source (ed_public [x2a]) Open) (open_sink []))
    = (Fail (AuthIo (IoError TimedOut "auth read signature timeout")),
       Duplex (Source [] Open) (open_sink toy_nonce)).
Proof.
  etransitivity.
  - apply (server_authenticate_incomplete (new_authenticator []) toy_nonce (ed_public [x2a]) Open [] None).
    vm_compute. reflexivity.
  - vm_compute. reflexivity.
Defined.

Lemma allowlist_membership_witness :
  admits (new_authenticator ["  "]) [x2a].
Proof.
  apply (allowlist_membership ["  "] [x2a]); [discriminate|].
  left. intros k Hk%list_elem_of_singleton. subst k. reflexivity.
Defined.
