(* ===== verification/Config.v ===== *)
(** * Configuration (rust/crates/roboat-core/src/config.rs)

    The configuration records with their defaults, the overrides from the
    environment and the security validation.  Reading the file and the TOML
    syntax are the [toml] crate's: [load] is given as what it returned. The
    environment is a function from variable names. *)

From Stdlib Require Import Ascii String.
From S2P Require Import Prelude Text Stream Auth.

Inductive ConfigError : Type :=
| ConfigIo (e : io_error)
| ConfigParse (msg : string)
| ConfigInvalid (msg : string).

(** ** Records *)

Record ServerConfig : Type := {
  listen_port : Z;
  config_keys : list string;
  insecure_allow_any_client : bool;
}.

Record PlatformConfig : Type := {
  api_url : string;
  api_key : option string;
}.

Record WebRtcConfig : Type := {
  webrtc_enabled : bool;
  robot_id : option string;
  stun_timeout_secs : Z;
}.

Record HeartbeatConfig : Type := {
  interval_secs : Z;
}.

Record LoggingConfig : Type := {
  level : string;
}.

Record AgentConfig : Type := {
  server : ServerConfig;
  platform : PlatformConfig;
  webrtc : WebRtcConfig;
  heartbeat : HeartbeatConfig;
  logging : LoggingConfig;
}.

(** ** Defaults *)

Definition default_listen_port : Z := 11411.
Definition default_api_url : string := "https://api.robotunnel.io".
Definition default_heartbeat_interval : Z := 30.
Definition default_webrtc_enabled : bool := true.
Definition default_stun_timeout_secs : Z := 8.
Definition default_log_level : string := "info".

Definition default_server : ServerConfig :=
  {| listen_port := default_listen_port; config_keys := []; insecure_allow_any_client := false |}.
Definition default_platform : PlatformConfig := {| api_url := default_api_url; api_key := None |}.
Definition default_heartbeat : HeartbeatConfig := {| interval_secs := default_heartbeat_interval |}.
Definition default_webrtc : WebRtcConfig :=
  {| webrtc_enabled := default_webrtc_enabled; robot_id := None;
     stun_timeout_secs := default_stun_timeout_secs |}.
Definition default_logging : LoggingConfig := {| level := default_log_level |}.
Definition default_config : AgentConfig :=
  {| server := default_server; platform := default_platform; webrtc := default_webrtc;
     heartbeat := default_heartbeat; logging := default_logging |}.

(** ** Updates of one field, as the source assigns them *)

Definition set_server (f : ServerConfig → ServerConfig) (c : AgentConfig) : AgentConfig :=
  {| server := f (server c); platform := platform c; webrtc := webrtc c;
     heartbeat := heartbeat c; logging := logging c |}.
Definition set_platform (f : PlatformConfig → PlatformConfig) (c : AgentConfig) : AgentConfig :=
  {| server := server c; platform := f (platform c); webrtc := webrtc c;
     heartbeat := heartbeat c; logging := logging c |}.
Definition set_webrtc (f : WebRtcConfig → WebRtcConfig) (c : AgentConfig) : AgentConfig :=
  {| server := server c; platform := platform c; webrtc := f (webrtc c);
     heartbeat := heartbeat c; logging := logging c |}.
Definition set_logging (f : LoggingConfig → LoggingConfig) (c : AgentConfig) : AgentConfig :=
  {| server := server c; platform := platform c; webrtc := webrtc c;
     heartbeat := heartbeat c; logging := f (logging c) |}.

Definition set_listen_port p (s : ServerConfig) :=
  {| listen_port := p; config_keys := config_keys s;
     insecure_allow_any_client := insecure_allow_any_client s |}.
Definition set_config_keys ks (s : ServerConfig) :=
  {| listen_port := listen_port s; config_keys := ks;
     insecure_allow_any_client := insecure_allow_any_client s |}.
Definition set_insecure b (s : ServerConfig) :=
  {| listen_port := listen_port s; config_keys := config_keys s; insecure_allow_any_client := b |}.
Definition set_api_key k (p : PlatformConfig) := {| api_url := api_url p; api_key := k |}.
Definition set_api_url u (p : PlatformConfig) := {| api_url := u; api_key := api_key p |}.
Definition set_enabled b (w : WebRtcConfig) :=
  {| webrtc_enabled := b; robot_id := robot_id w; stun_timeout_secs := stun_timeout_secs w |}.
Definition set_robot_id r (w : WebRtcConfig) :=
  {| webrtc_enabled := webrtc_enabled w; robot_id := r; stun_timeout_secs := stun_timeout_secs w |}.
Definition set_stun_timeout t (w : WebRtcConfig) :=
  {| webrtc_enabled := webrtc_enabled w; robot_id := robot_id w; stun_timeout_secs := t |}.

Section Config.
Context `{CM : !CaseMapping}.

(** [if let Ok(v) = std::env::var(name) { ... }] *)
Definition if_env (env : string → option string) (name : string)
    (f : string → AgentConfig → AgentConfig) (c : AgentConfig) : AgentConfig :=
  match env name with Some v => f v c | None => c end.

Definition parse_bool (v : string) : bool :=
  let v := to_lowercase v in
  bool_decide (v ∈ ["1"; "true"; "yes"; "on"]).

Definition apply_env_overrides (env : string → option string) (c : AgentConfig) : AgentConfig :=
  let c := if_env env "ROBOAT_API_KEY" (λ key, set_platform (set_api_key (Some key))) c in
  let c := if_env env "ROBOAT_API_URL" (λ url, set_platform (set_api_url url)) c in
  let c := if_env env "ROBOAT_LISTEN_PORT" (λ port c,
    match parse_u16 port with Some p => set_server (set_listen_port p) c | None => c end) c in
  let c := if_env env "ROBOAT_AUTHORIZED_KEYS" (λ keys,
    set_server (set_config_keys (filter (λ v, is_empty v = false) (trim <$> split ","%char keys)))) c in
  let c := if_env env "ROBOAT_INSECURE_ALLOW_ANY_CLIENT" (λ v,
    set_server (set_insecure (parse_bool v))) c in
  let c := if_env env "ROBOAT_LOG_LEVEL" (λ l, set_logging (λ _, {| level := l |})) c in
  let c := if_env env "ROBOAT_WEBRTC_ENABLED" (λ enabled,
    let v := to_lowercase enabled in
    set_webrtc (set_enabled (bool_decide (v ∈ ["1"; "true"; "yes"; "on"])))) c in
  let c := if_env env "ROBOAT_ROBOT_ID" (λ id c,
    if is_empty (trim id) then c else set_webrtc (set_robot_id (Some id)) c) c in
  let c := if_env env "ROBOAT_WEBRTC_STUN_TIMEOUT_SECS" (λ t c,
    match parse_u64 t with Some v => set_webrtc (set_stun_timeout v) c | None => c end) c in
  c.

Definition is_valid_ed25519_public_key_hex (value : string) : bool :=
  (str_len value =? 64) && string_forallb is_ascii_hexdigit value.

Definition invalid_key_msg (key : string) : string :=
  "server.authorized_keys contains invalid Ed25519 public key: " +:+ key.
Definition empty_keys_msg : string :=
  "server.authorized_keys is empty. Configure an allowlist or set server.insecure_allow_any_client=true only for local development.".

(** [validate_security]: the configuration it leaves behind and its result. *)
Definition validate_security (c : AgentConfig) : AgentConfig * result ConfigError unit :=
  let keys := filter (λ k, is_empty k = false) (normalize_key <$> config_keys (server c)) in
  let c := set_server (set_config_keys keys) c in
  (c, match list_find (λ k, is_valid_ed25519_public_key_hex k = false) keys with
      | Some (_, key) => Err (ConfigInvalid (invalid_key_msg key))
      | None =>
          if bool_decide (keys = []) && negb (insecure_allow_any_client (server c))
          then Err (ConfigInvalid empty_keys_msg)
          else Ok tt
      end).

(** [load]: reading the file gave [content], and [toml] is [toml::from_str]. *)
Definition load (content : result io_error string) (toml : string → result string AgentConfig) :
    result ConfigError AgentConfig :=
  match content with
  | Err e => Err (ConfigIo e)
  | Ok text => match toml text with Err e => Err (ConfigParse e) | Ok config => Ok config end
  end.

(** [load_with_env], for what [load] returned. *)
Definition load_with_env (env : string → option string) (load : result ConfigError AgentConfig) :
    result ConfigError AgentConfig :=
  config ← load;
  let '(config, checked) := validate_security (apply_env_overrides env config) in
  _ ← checked;
  mret config.

End Config.

(** ** Lemmas *)

Lemma lower_hexdigit a :
  is_ascii_hexdigit a = true → to_ascii_lowercase_char a = a → is_lower_hex a = true.
Proof. by_chars. Qed.

Lemma hexdigit_ascii a : is_ascii_hexdigit a = true → is_ascii_char a = true.
Proof. by_chars. Qed.

Lemma lower_hex_hexdigit a : is_lower_hex a = true → is_ascii_hexdigit a = true.
Proof. by_chars. Qed.

Lemma lower_hex_string s :
  string_forallb is_ascii_hexdigit s = true → to_ascii_lowercase s = s →
  string_forallb is_lower_hex s = true.
Proof.
  induction s as [|a s IH]; [done|]. simpl. intros [Ha Hs]%andb_prop [= La Ls].
  apply andb_true_intro. auto using lower_hexdigit.
Qed.

Section ConfigLemmas.
Context `{CM : !CaseMapping}.

(** A key of a validated list: 64 lowercase hexadecimal digits. *)
Definition canonical_key (k : string) : Prop :=
  str_len k = 64 ∧ string_forallb is_lower_hex k = true.

(** A configuration a daemon may run with. *)
Record secure_config (c : AgentConfig) : Prop := {
  secure_keys : Forall canonical_key (config_keys (server c));
  secure_list : config_keys (server c) ≠ [] ∨ insecure_allow_any_client (server c) = true;
}.

Lemma canonical_key_normal k : canonical_key k → normalize_key k = k.
Proof. intros [_ H]. by apply normalize_key_lower_hex. Qed.

Lemma canonical_key_valid k : canonical_key k → is_valid_ed25519_public_key_hex k = true.
Proof.
  intros [Hl Hh]. unfold is_valid_ed25519_public_key_hex. rewrite Hl.
  apply andb_true_intro. split; [done|]. revert Hh. apply string_forallb_impl, lower_hex_hexdigit.
Qed.

Lemma valid_normal_canonical k :
  is_valid_ed25519_public_key_hex (normalize_key k) = true → canonical_key (normalize_key k).
Proof.
  intros [Hl Hh]%andb_prop. split; [lia|]. apply lower_hex_string; [done|].
  rewrite <- to_lowercase_ascii; [apply to_lowercase_idemp|].
  revert Hh. apply string_forallb_impl, hexdigit_ascii.
Qed.

Lemma canonical_keys_fixed keys :
  Forall canonical_key keys → filter (λ k, is_empty k = false) (normalize_key <$> keys) = keys.
Proof.
  induction 1 as [|k keys Hk _ IH]; [done|]. rewrite fmap_cons, filter_cons_True, IH.
  - by rewrite canonical_key_normal.
  - rewrite canonical_key_normal by done. apply bool_decide_eq_false.
    destruct Hk as [Hl _]. intros ->. done.
Qed.

Lemma secure_config_validates c : secure_config c → validate_security c = (c, Ok tt).
Proof.
  intros [Hk Hl]. unfold validate_security. rewrite canonical_keys_fixed by done.
  assert (set_server (set_config_keys (config_keys (server c))) c = c) as -> by by destruct c as [[]].
  f_equal. destruct (list_find _ _) as [[i k]|] eqn:E.
  - apply list_find_Some in E as (Hi & Hv & _).
    simpl in Hv. rewrite canonical_key_valid in Hv by (eapply Forall_lookup_1; eauto). congruence.
  - destruct Hl as [Hl | ->]; [by rewrite bool_decide_false|by rewrite andb_false_r].
Qed.

Lemma validate_security_Ok c c' : validate_security c = (c', Ok tt) → secure_config c'.
Proof.
  unfold validate_security. intros [= <- H].
  destruct (list_find _ _) as [[]|] eqn:E; [done|]. apply list_find_None in E.
  split; simpl.
  - apply Forall_forall. intros k Hk. rewrite Forall_forall in E.
    specialize (E k Hk). apply not_false_is_true in E.
    apply list_elem_of_filter in Hk as [_ (k' & -> & _)%list_elem_of_fmap].
    by apply valid_normal_canonical.
  - case_bool_decide as Hn; [|by left]. right. simpl in H.
    by destruct (insecure_allow_any_client _).
Qed.

Lemma load_with_env_Ok env load c :
  load_with_env env load = Ok c →
  ∃ c0, load = Ok c0 ∧ validate_security (apply_env_overrides env c0) = (c, Ok tt).
Proof.
  unfold load_with_env. destruct load as [c0|]; [|done].
  cbn -[validate_security apply_env_overrides].
  destruct (validate_security _) as [c1 [[]|]] eqn:E; [|done].
  intros [= ->]. by exists c0.
Qed.

(** C17: the loader hands out only secure configurations.  If
    [load_with_env] succeeds, every allowlist entry is 64 lowercase
    hexadecimal digits, the list is not empty unless insecure mode was asked
    for, and validating again changes nothing. *)
Theorem load_with_env_secure env load c (H : load_with_env env load = Ok c) :
  secure_config c ∧ validate_security c = (c, Ok tt).
Proof.
  apply load_with_env_Ok in H as (c0 & _ & Hs%validate_security_Ok).
  split; [done|by apply secure_config_validates].
Qed.

(** A configuration that passed and does not ask for insecure mode is
    enforced: the authenticator built from its list admits a 32-byte key exactly
    when the list holds its hexadecimal form, so it does not admit every key. *)
Theorem validated_config_enforced `{ED : !Ed25519} env load c pk
    (H : load_with_env env load = Ok c)
    (Hs : insecure_allow_any_client (server c) = false) (Hpk : zlen pk = PUBLIC_KEY_LEN) :
  admits (new_authenticator (config_keys (server c))) pk ↔ hex_encode pk ∈ config_keys (server c).
Proof.
  apply load_with_env_Ok in H as (c0 & _ & [Hk [Hl|Hl]]%validate_security_Ok); [|congruence].
  unfold admits, new_authenticator, authorized_keys; simpl.
  assert (∀ x, x ∈ normalize_authorized_keys (config_keys (server c)) ↔ x ∈ config_keys (server c)) as Hx.
  { intros x. unfold normalize_authorized_keys.
    by rewrite sort_dedup_elem_of, canonical_keys_fixed. }
  rewrite Hx. split; [|by right]. intros [Hn|?]; [|done].
  destruct (config_keys (server c)) as [|k ks]; [done|].
  exfalso. eapply (not_elem_of_nil k). rewrite <- Hn. apply Hx. set_solver.
Qed.

(** The shipped default is closed: with no environment set and no file
    contents the loader refuses to start. *)
Theorem default_config_refused env (Henv : ∀ name, env name = None) :
  load_with_env env (Ok default_config) = Err (ConfigInvalid empty_keys_msg).
Proof.
  unfold load_with_env, apply_env_overrides, if_env; simpl. rewrite !Henv. done.
Qed.

End ConfigLemmas.

(** ** Witnesses *)

#[local] Existing Instance ascii_case_mapping.
#[local] Existing Instance toy_ed25519.

Definition sample_key : string :=
  "0123456789abcdef0123456789abcdef0123456789abcdef0123456789abcdef".

Definition sample_env (name : string) : option string :=
  if decide (name = "ROBOAT_AUTHORIZED_KEYS")
  then Some (" 0123456789ABCDEF0123456789ABCDEF0123456789ABCDEF0123456789ABCDEF ,, ") else None.

Definition sample_config : AgentConfig := set_server (set_config_keys [sample_key]) default_config.

Lemma load_with_env_secure_witness :
  secure_config sample_config ∧ validate_security sample_config = (sample_config, Ok tt).
Proof.
  apply (load_with_env_secure sample_env (Ok default_config)). vm_compute. reflexivity.
Defined.

Lemma validated_config_enforced_witness :
  admits (new_authenticator (config_keys (server sample_config))) (replicate 32 x00) ↔
  hex_encode (replicate 32 x00) ∈ config_keys (server sample_config).
Proof.
  apply (validated_config_enforced sample_env (Ok default_config)); vm_compute; reflexivity.
Defined.

Lemma default_config_refused_witness :
  load_with_env (λ _, None) (Ok default_config) = Err (ConfigInvalid empty_keys_msg).
Proof. apply (default_config_refused (λ _, None)). reflexivity. Defined.
