(* ===== verification/KeySync.v ===== *)
(** * Allowlist synchronisation (rust/crates/roboat-core/src/authorized_keys.rs)

    The service that refreshes the tunnel server's allowlist from the platform.
    The HTTP request is reqwest's: [Fetch] is a function from the URL and the
    API key to the decoded response or an error. *)

From Stdlib Require Import Ascii String.
From S2P Require Import Prelude Text Stream Auth.

Record AgentBootstrap : Type := {
  bootstrap_robot_id : option string;
  bootstrap_keys : list string;
}.

Record AuthorizedKeysResponse : Type := {
  response_robot_id : option string;
  response_keys : list string;
}.

(** [GET url] with the header [X-Robot-API-Key], its status check and its JSON
    body. *)
Definition Fetch : Type := string → string → result string AuthorizedKeysResponse.

Record AuthorizedKeysSyncService : Type := {
  sync_api_url : string;
  sync_api_key : string;
  sync_interval : Z;
  static_authorized_keys : list string;
}.

Section KeySync.
Context `{CM : !CaseMapping}.

(** The function [normalize_keys] of this file, the same as auth.rs's
    [normalize_authorized_keys]. *)
Definition normalize_keys (keys : list string) : list string :=
  sort_dedup (filter (λ k, is_empty k = false) ((λ key, to_lowercase (trim key)) <$> keys)).

(** [AuthorizedKeysSyncService::new] *)
Definition new_sync_service (api_url api_key : string) (interval_secs : Z) (keys : list string) :
    AuthorizedKeysSyncService :=
  {| sync_api_url := api_url;
     sync_api_key := api_key;
     sync_interval := Z.max interval_secs 5;
     static_authorized_keys := normalize_keys keys |}.

Definition fetch_agent_bootstrap_with_client (fetch : Fetch) (api_url api_key : string) :
    result string AgentBootstrap :=
  let url := trim_end_matches "/"%char api_url +:+ "/api/agent/authorized-keys" in
  payload ← fetch url api_key;
  mret {| bootstrap_robot_id :=
            value ← trim <$> response_robot_id payload;
            if is_empty value then None else Some value;
          bootstrap_keys := response_keys payload |}.

(** [fetch_agent_bootstrap]: the client it builds waits ten seconds for an
    answer. *)
Definition FETCH_TIMEOUT : Z := from_secs 10.
Definition fetch_agent_bootstrap (build : Z → result string Fetch) (api_url api_key : string) :
    result string AgentBootstrap :=
  client ← build FETCH_TIMEOUT;
  fetch_agent_bootstrap_with_client client api_url api_key.

Definition sync_once (svc : AuthorizedKeysSyncService) (fetch : Fetch) (a : ServerAuthenticator) :
    ServerAuthenticator :=
  match fetch_agent_bootstrap_with_client fetch (sync_api_url svc) (sync_api_key svc) with
  | Ok payload =>
      let merged_keys := normalize_keys (static_authorized_keys svc ++ bootstrap_keys payload) in
      let current := authorized_keys a in
      if bool_decide (current ≠ merged_keys) then replace_authorized_keys a merged_keys else a
  | Err _ => a
  end.

(** What wakes the loop of [run]: the interval, or a change of the shutdown
    flag to the given value. *)
Inductive sync_event : Type :=
| SyncTick (fetch : Fetch)
| SyncShutdown (flag : bool).

(** The loop of [run]: the allowlist after the events, and whether it is still
    running. *)
Fixpoint run_loop (svc : AuthorizedKeysSyncService) (evs : list sync_event) (a : ServerAuthenticator) :
    ServerAuthenticator * bool :=
  match evs with
  | [] => (a, true)
  | SyncTick fetch :: evs => run_loop svc evs (sync_once svc fetch a)
  | SyncShutdown true :: _ => (a, false)
  | SyncShutdown false :: evs => run_loop svc evs a
  end.

Definition run_sync (svc : AuthorizedKeysSyncService) (first : Fetch) (evs : list sync_event)
    (a : ServerAuthenticator) : ServerAuthenticator * bool :=
  run_loop svc evs (sync_once svc first a).

(** ** Lemmas *)

Lemma normalize_keys_eq keys : normalize_keys keys = normalize_authorized_keys keys.
Proof. done. Qed.

Lemma elem_of_normalize_app_static x static remote :
  x ∈ normalize_authorized_keys (normalize_authorized_keys static ++ remote) ↔
  x ∈ normalize_authorized_keys (static ++ remote).
Proof.
  rewrite !elem_of_normalize. split; intros (Hx & k & Hk & ->); (split; [done|]).
  - apply elem_of_app in Hk as [(_ & k' & Hk & ->)%elem_of_normalize|Hk].
    + exists k'. rewrite normalize_key_idemp, elem_of_app. auto.
    + exists k. rewrite elem_of_app. auto.
  - apply elem_of_app in Hk as [Hk|Hk].
    + exists (normalize_key k). rewrite normalize_key_idemp, elem_of_app, elem_of_normalize. eauto 6.
    + exists k. rewrite elem_of_app. auto.
Qed.

Lemma normalize_app_static static remote :
  normalize_authorized_keys (normalize_authorized_keys static ++ remote) =
  normalize_authorized_keys (static ++ remote).
Proof.
  apply sorted_set_unique; auto using normalize_sorted, normalize_NoDup.
  intros x. apply elem_of_normalize_app_static.
Qed.

(** The response a synchronisation works with. *)
Definition fetched (svc : AuthorizedKeysSyncService) (fetch : Fetch) : option (list string) :=
  bootstrap_keys <$>
    result_ok (fetch_agent_bootstrap_with_client fetch (sync_api_url svc) (sync_api_key svc)).

Lemma sync_once_spec url key secs static fetch a :
  let svc := new_sync_service url key secs static in
  poisoned a = false →
  authorized_keys (sync_once svc fetch a) =
    match fetched svc fetch with
    | Some remote => normalize_authorized_keys (static ++ remote)
    | None => authorized_keys a
    end ∧ poisoned (sync_once svc fetch a) = false.
Proof.
  intros svc Ha. unfold sync_once, fetched.
  destruct (fetch_agent_bootstrap_with_client _ _ _) as [p|]; [|done]. cbn [result_ok fmap option_fmap option_map].
  unfold svc, new_sync_service; cbn [static_authorized_keys]. rewrite !normalize_keys_eq, normalize_app_static.
  case_bool_decide as Hne.
  - unfold replace_authorized_keys, authorized_keys. rewrite Ha; simpl. by rewrite normalize_idemp.
  - split; [|done]. by destruct (decide (authorized_keys a = normalize_authorized_keys (static ++ bootstrap_keys p))).
Qed.

(** ** Properties *)

(** C30: after a synchronisation the allowlist is the normal form of the static
    keys together with the keys the platform sent -- the test for a changed
    list only saves the write -- and a failed request leaves it as it was; in
    both cases doing it again with the same answer changes nothing. *)
Theorem sync_once_merges url key secs static fetch a (Ha : poisoned a = false) :
  let svc := new_sync_service url key secs static in
  authorized_keys (sync_once svc fetch a) =
    match fetched svc fetch with
    | Some remote => normalize_authorized_keys (static ++ remote)
    | None => authorized_keys a
    end ∧
  authorized_keys (sync_once svc fetch (sync_once svc fetch a)) = authorized_keys (sync_once svc fetch a).
Proof.
  intros svc. destruct (sync_once_spec url key secs static fetch a Ha) as [H1 H2].
  split; [done|]. destruct (sync_once_spec url key secs static fetch _ H2) as [H3 _].
  fold svc in H1, H2, H3. rewrite H3, H1. by destruct (fetched svc fetch).
Qed.

(** Revoking the last key opens the server.  When no static key is
    configured and the platform answers with no usable key, the synchronised
    list is empty, and the server then admits every key, whatever it admitted
    before. *)
Theorem sync_revocation_opens `{ED : !Ed25519} url key secs fetch a remote pk
    (Ha : poisoned a = false)
    (Hf : fetched (new_sync_service url key secs []) fetch = Some remote)
    (Hr : ∀ k, k ∈ remote → trim k = "") :
  admits (sync_once (new_sync_service url key secs []) fetch a) pk.
Proof.
  left. destruct (sync_once_spec url key secs [] fetch a Ha) as [-> _].
  rewrite Hf. by apply normalize_nil.
Qed.

(** While the service runs with the platform reachable or not, a static
    key stays on the list: after any sequence of ticks and shutdown messages
    that includes a successful synchronisation at the start, the server's list
    is not empty and holds every static key. *)
Theorem static_keys_survive url key secs static first evs a k
    (Ha : poisoned a = false) (Hk : k ∈ static) (Hne : trim k ≠ "")
    (Hfirst : is_Some (fetched (new_sync_service url key secs static) first)) :
  normalize_key k ∈ authorized_keys (run_sync (new_sync_service url key secs static) first evs a).1.
Proof.
  set (svc := new_sync_service url key secs static) in *.
  assert (∀ remote, normalize_key k ∈ normalize_authorized_keys (static ++ remote)) as Hin.
  { intros remote. apply elem_of_normalize. split.
    - intros H%to_lowercase_empty. done.
    - exists k. by rewrite elem_of_app; auto. }
  assert (∀ fetch a, poisoned a = false → normalize_key k ∈ authorized_keys a →
            poisoned (sync_once svc fetch a) = false ∧
            normalize_key k ∈ authorized_keys (sync_once svc fetch a)) as Hstep.
  { intros fetch b Hb Hkb. destruct (sync_once_spec url key secs static fetch b Hb) as [H1 H2].
    fold svc in H1, H2. split; [done|]. rewrite H1. by destruct (fetched svc fetch). }
  unfold run_sync. destruct (sync_once_spec url key secs static first a Ha) as [H1 H2].
  fold svc in H1, H2. destruct Hfirst as [remote Hfirst]. rewrite Hfirst in H1.
  assert (normalize_key k ∈ authorized_keys (sync_once svc first a)) as H3 by (rewrite H1; auto).
  revert H2 H3. generalize (sync_once svc first a).
  induction evs as [|[fetch|[]] evs IH]; intros b Hb Hkb; simpl; auto.
  destruct (Hstep fetch b Hb Hkb). auto.
Qed.

End KeySync.

(** ** Witnesses *)

#[local] Existing Instance ascii_case_mapping.
#[local] Existing Instance toy_ed25519.

Definition answer (keys : list string) : Fetch := λ _ _,
  Ok {| response_robot_id := None; response_keys := keys |}.

Lemma sync_once_merges_witness :
  let svc := new_sync_service "http://p/" "rob_1" 30 [" AA"] in
  authorized_keys (sync_once svc (answer ["bb"; "aa"]) (new_authenticator ["cc"])) = ["aa"; "bb"] ∧
  authorized_keys (sync_once svc (answer ["bb"; "aa"]) (sync_once svc (answer ["bb"; "aa"]) (new_authenticator ["cc"])))
    = authorized_keys (sync_once svc (answer ["bb"; "aa"]) (new_authenticator ["cc"])).
Proof.
  destruct (sync_once_merges "http://p/" "rob_1" 30 [" AA"] (answer ["bb"; "aa"]) (new_authenticator ["cc"]) eq_refl) as [H1 H2].
  split; [|exact H2]. rewrite H1. vm_compute. reflexivity.
Defined.

Lemma sync_revocation_opens_witness :
  admits (sync_once (new_sync_service "http://p" "rob_1" 30 []) (answer []) (new_authenticator ["aa"])) [x00].
Proof.
  apply (sync_revocation_opens "http://p" "rob_1" 30 (answer []) (new_authenticator ["aa"]) []);
    [reflexivity..|]. intros k Hk. by apply elem_of_nil in Hk.
Defined.

Lemma static_keys_survive_witness :
  normalize_key "AA" ∈ authorized_keys
    (run_sync (new_sync_service "http://p" "rob_1" 30 ["AA"]) (answer [])
       [SyncTick (answer ["bb"]); SyncTick (λ _ _, Err "timeout"); SyncShutdown true] (new_authenticator [])).1.
Proof.
  apply (static_keys_survive "http://p" "rob_1" 30 ["AA"]).
  - reflexivity.
  - apply list_elem_of_here.
  - vm_compute. discriminate.
  - vm_compute. eexists. reflexivity.
Defined.
