(* ===== verification/Ipc.v ===== *)
(** * The local IPC protocol (rust/crates/roboat-daemon/src/ipc.rs)

    The messages between an agent and the daemon, and their framing
    [length: u32][JSON], with its limit of 4 MiB.  The JSON itself is serde's
    ([JsonCodec]). *)

From S2P Require Import Prelude Text Stream Protocol.

Definition MAX_MSG_SIZE : Z := 4 * 1024 * 1024.

Inductive IpcError : Type :=
| IpcIo (e : io_error)
| IpcJson
| IpcTooLarge (n : Z)
| IpcClosed.

#[export] Instance IpcError_eq_dec : EqDecision IpcError.
Proof. solve_decision. Defined.

(** ** Stream classes *)

Inductive StreamClass : Type :=
| Control
| Meta
| Bulk.

#[export] Instance StreamClass_eq_dec : EqDecision StreamClass.
Proof. solve_decision. Defined.

Definition default_class : StreamClass := Control.

Definition as_byte (c : StreamClass) : Z :=
  match c with Control => 0x01 | Meta => 0x02 | Bulk => 0x03 end.

Definition from_byte (b : Z) : StreamClass :=
  if b =? 0x02 then Meta else if b =? 0x03 then Bulk else Control.

(** ** Messages *)

Inductive AgentMsg : Type :=
| Listen (agent_id : string) (registry_token : option string) (tunnel_endpoint : option string)
| Unlisten
| Dial (target_agent_id : string) (stream_class : StreamClass) (request_id : option string)
| Send (stream_id : Z) (data : string)
| Close (stream_id : Z)
| Ping.

Inductive DaemonMsg : Type :=
| Listening (agent_id : string)
| Connected (stream_id : Z) (target_agent_id : string) (request_id : option string)
| Incoming (stream_id : Z) (from_agent_id : string) (class : StreamClass)
| Recv (stream_id : Z) (data : string)
| MsgClosed (stream_id : Z) (reason : option string)
| Pong
| MsgError (code : string) (message : string) (request_id : option string).

#[export] Instance AgentMsg_eq_dec : EqDecision AgentMsg.
Proof. solve_decision. Defined.
#[export] Instance DaemonMsg_eq_dec : EqDecision DaemonMsg.
Proof. solve_decision. Defined.

(** ** Framing *)

(** [write_daemon_msg] and [write_agent_msg] have this body. *)
Definition write_msg {A} `{!JsonCodec A} (msg : A) : io sink IpcError unit :=
  let json := to_vec msg in
  if zlen json >? MAX_MSG_SIZE then io_fail (IpcTooLarge (zlen json)) else
  io_map_err IpcIo (write_u32 (u32_wrap (zlen json)));;
  io_map_err IpcIo (write_all json);;
  io_map_err IpcIo flush.

Definition ipc_read_error (e : io_error) : IpcError :=
  if decide (kind e = UnexpectedEof) then IpcClosed else IpcIo e.

(** [read_agent_msg] and [read_daemon_msg] have this body. *)
Definition read_msg {A} `{!JsonCodec A} : io source IpcError A :=
  len ← io_map_err ipc_read_error read_u32;
  if len >? MAX_MSG_SIZE then io_fail (IpcTooLarge len) else
  buf ← io_map_err ipc_read_error (read_exact len);
  match from_slice buf with Some m => mret m | None => io_fail IpcJson end.

Definition write_daemon_msg `{!JsonCodec DaemonMsg} : DaemonMsg → io sink IpcError unit := write_msg.
Definition read_agent_msg `{!JsonCodec AgentMsg} : io source IpcError AgentMsg := read_msg.
Definition read_daemon_msg `{!JsonCodec DaemonMsg} : io source IpcError DaemonMsg := read_msg.
Definition write_agent_msg `{!JsonCodec AgentMsg} : AgentMsg → io sink IpcError unit := write_msg.

(** ** Lemmas *)

Lemma as_byte_range c : 0 ≤ as_byte c < 256.
Proof. destruct c; simpl; lia. Qed.

Lemma from_as_byte c : from_byte (as_byte c) = c.
Proof. by destruct c. Qed.

Section Framing.
Context {A : Type} `{JC : !JsonCodec A}.

Definition msg_bytes (m : A) : list byte := be_bytes 4 (zlen (to_vec m)) ++ to_vec m.

Lemma length_msg_bytes m : (4 ≤ length (msg_bytes m))%nat.
Proof. unfold msg_bytes. rewrite length_app, length_be_bytes. lia. Qed.

Lemma write_msg_open m w f :
  zlen (to_vec m) ≤ MAX_MSG_SIZE →
  write_msg m (Sink w None f) = (Done tt, Sink (w ++ msg_bytes m) None f).
Proof.
  intros Hm. unfold write_msg, msg_bytes. case_match; [lia|].
  unfold write_u32. rewrite u32_wrap_bytes.
  io_next write_all_open. io_next write_all_open. by rewrite <- app_assoc.
Qed.

(** A text that the codec reads as [m], framed. *)
Lemma read_msg_text bs m rest e :
  from_slice bs = Some m → zlen bs ≤ MAX_MSG_SIZE →
  read_msg (Source (be_bytes 4 (zlen bs) ++ bs ++ rest) e) = (Done m, Source rest e).
Proof.
  unfold MAX_MSG_SIZE. intros Hm Hn. unfold read_msg.
  io_next read_u32_app. unfold u32_wrap. rewrite Z.mod_small by lia.
  case_match eqn:E; [unfold MAX_MSG_SIZE in E; lia|].
  io_next read_exact_app. by rewrite Hm.
Qed.

Lemma read_msg_app m rest e :
  zlen (to_vec m) ≤ MAX_MSG_SIZE →
  read_msg (Source (msg_bytes m ++ rest) e) = (Done m, Source rest e).
Proof. intros Hm. unfold msg_bytes. rewrite <-app_assoc. apply read_msg_text; [apply from_slice_to_vec|done]. Qed.

#[export] Instance parser_read_msg : Parser ipc_read_error read_msg.
Proof.
  apply (parser_read_uint_bind _ 4). intros n Hn. apply parser_if; [apply _|].
  apply parser_bind; [by apply (parser_map_err ipc_read_error id), parser_read_exact|].
  intros buf. destruct (from_slice buf); apply _.
Qed.

(** A peer that sends a sequence of messages, and one that reads until the
    stream ends; a message takes four bytes at least, so the length of the
    stream is enough fuel. *)
Fixpoint write_msgs (ms : list A) : io sink IpcError unit :=
  match ms with [] => mret tt | m :: ms => write_msg m;; write_msgs ms end.

Fixpoint read_msgs_fuel (fuel : nat) (s : source) : list A * outcome IpcError unit :=
  match fuel with
  | O => ([], Pending)
  | S fuel =>
      match read_msg s with
      | (Done m, s') => let '(ms, r) := read_msgs_fuel fuel s' in (m :: ms, r)
      | (Fail e, _) => ([], Fail e)
      | (Pending, _) => ([], Pending)
      end
  end.
Definition read_msgs (s : source) := read_msgs_fuel (S (length (avail s))) s.

Definition ipc_end (e : ending) : outcome IpcError unit :=
  match e with Open => Pending | Closed => Fail IpcClosed | Broken x => Fail (ipc_read_error x) end.

Lemma write_msgs_open ms w f :
  Forall (λ m, zlen (to_vec m) ≤ MAX_MSG_SIZE) ms →
  write_msgs ms (Sink w None f) = (Done tt, Sink (w ++ concat (msg_bytes <$> ms)) None f).
Proof.
  intros Hms. revert w. induction Hms as [|m ms Hm _ IH]; intros w; simpl; [by rewrite app_nil_r|].
  rewrite (io_bind_Done _ _ _ _ _ (write_msg_open _ _ _ Hm)), IH. by rewrite <- app_assoc.
Qed.

Lemma read_msgs_concat ms p m q e :
  Forall (λ m, zlen (to_vec m) ≤ MAX_MSG_SIZE) (m :: ms) → msg_bytes m = p ++ q → q ≠ [] →
  read_msgs (Source (concat (msg_bytes <$> ms) ++ p) e) = (ms, ipc_end e).
Proof.
  intros [Hm Hms]%Forall_cons Hpq Hq. unfold read_msgs; cbn [avail].
  assert (length ms < S (length (concat (msg_bytes <$> ms) ++ p)))%nat as Hfuel.
  { clear. rewrite length_app. induction ms as [|m' ms IH]; [simpl; lia|].
    rewrite fmap_cons. cbn [concat length]. rewrite length_app.
    pose proof (length_msg_bytes m'). lia. }
  revert Hfuel. generalize (S (length (concat (msg_bytes <$> ms) ++ p))). intros fuel. revert fuel.
  induction Hms as [|m' ms Hm' _ IH]; intros [|fuel] Hf; try (simpl in Hf; lia).
  - cbn [read_msgs_fuel fmap list_fmap concat app].
    rewrite (parser_prefix ipc_read_error read_msg p q m e); [by destruct e| |done].
    rewrite <- Hpq, <- (app_nil_r (msg_bytes m)). by apply read_msg_app.
  - cbn [read_msgs_fuel fmap list_fmap concat]. rewrite <- app_assoc, read_msg_app by done.
    rewrite IH; [done|simpl in Hf; lia].
Qed.

(** Messages written with [write_msg] (their JSON within 4 MiB) are read
    back in order.  A stream that stops anywhere inside the next message has
    delivered all messages before it, and the reader waits, or reports
    [Closed] when the peer hung up: a message is never cut or merged. *)
Theorem ipc_stream_roundtrip ms m p q e
    (Hms : Forall (λ m, zlen (to_vec m) ≤ MAX_MSG_SIZE) (m :: ms))
    (Hpq : msg_bytes m = p ++ q) (Hq : q ≠ []) :
  ∃ w, write_msgs ms (open_sink []) = (Done tt, open_sink w) ∧
       read_msgs (Source (w ++ p) e) = (ms, ipc_end e).
Proof.
  exists (concat (msg_bytes <$> ms)). split.
  - apply write_msgs_open. by inversion Hms.
  - by eapply read_msgs_concat.
Qed.

(** The 4 MiB limit holds on both sides.  A message whose JSON is larger
    is refused by the writer before any byte is sent, and a length field above
    the limit is refused by the reader before it takes (or waits for) the
    body. *)
Theorem ipc_size_limit (m : A) s n bs e
    (Hm : zlen (to_vec m) > MAX_MSG_SIZE) (Hn : MAX_MSG_SIZE < n < 2 ^ 32) :
  write_msg m s = (Fail (IpcTooLarge (zlen (to_vec m))), s) ∧
  read_msg (A := A) (Source (be_bytes 4 n ++ bs) e) = (Fail (IpcTooLarge n), Source bs e).
Proof.
  unfold MAX_MSG_SIZE in *. split.
  - unfold write_msg. case_match eqn:E; [done|unfold MAX_MSG_SIZE in E; lia].
  - unfold read_msg. io_next read_u32_app. unfold u32_wrap. rewrite Z.mod_small by lia.
    case_match eqn:E; [done|unfold MAX_MSG_SIZE in E; lia].
Qed.

End Framing.

(** ** Witnesses *)

#[export] Instance StreamClass_countable : Countable StreamClass.
Proof.
  refine (inj_countable' as_byte from_byte _). apply from_as_byte.
Defined.

Abbreviation agent_msg_code :=
  ((string * option string * option string) + unit + (string * StreamClass * option string) +
   (Z * string) + Z + unit)%type.

Definition agent_msg_encode (m : AgentMsg) : agent_msg_code :=
  match m with
  | Listen a t e => inl (inl (inl (inl (inl (a, t, e)))))
  | Unlisten => inl (inl (inl (inl (inr tt))))
  | Dial t c r => inl (inl (inl (inr (t, c, r))))
  | Send i d => inl (inl (inr (i, d)))
  | Close i => inl (inr i)
  | Ping => inr tt
  end.

Definition agent_msg_decode (c : agent_msg_code) : AgentMsg :=
  match c with
  | inl (inl (inl (inl (inl (a, t, e))))) => Listen a t e
  | inl (inl (inl (inl (inr tt)))) => Unlisten
  | inl (inl (inl (inr (t, c, r)))) => Dial t c r
  | inl (inl (inr (i, d))) => Send i d
  | inl (inr i) => Close i
  | inr tt => Ping
  end.

#[export] Instance AgentMsg_countable : Countable AgentMsg.
Proof. refine (inj_countable' agent_msg_encode agent_msg_decode _). by intros []. Defined.

#[local] Instance agent_msg_codec : JsonCodec AgentMsg := countable_codec AgentMsg.

Lemma ipc_stream_roundtrip_witness :
  ∃ w, write_msgs [Ping; Dial "agt_B" Bulk (Some "r1")] (open_sink []) = (Done tt, open_sink w) ∧
       read_msgs (Source (w ++ [x00; x00]) Closed) = ([Ping; Dial "agt_B" Bulk (Some "r1")], Fail IpcClosed).
Proof.
  apply (ipc_stream_roundtrip [Ping; Dial "agt_B" Bulk (Some "r1")] (Close 7) [x00; x00]
           (drop 2 (msg_bytes (Close 7))) Closed).
  - repeat constructor; vm_compute; discriminate.
  - vm_compute. reflexivity.
  - vm_compute. discriminate.
Defined.

(** A codec for byte strings, for a message above the limit. *)
#[local] Instance raw_codec : JsonCodec (list byte).
Proof. refine {| to_vec bs := bs; from_slice bs := Some bs |}. done. Defined.

Lemma ipc_size_limit_witness :
  write_msg oversized_data (open_sink []) = (Fail (IpcTooLarge (zlen (to_vec oversized_data))), open_sink []) ∧
  read_msg (A := list byte) (Source (be_bytes 4 (MAX_MSG_SIZE + 1) ++ [x01]) Open)
    = (Fail (IpcTooLarge (MAX_MSG_SIZE + 1)), Source [x01] Open).
Proof.
  apply (ipc_size_limit oversized_data (open_sink []) (MAX_MSG_SIZE + 1) [x01] Open).
  - unfold to_vec, raw_codec. rewrite length_oversized_data. reflexivity.
  - split; reflexivity.
Defined.
