(* ===== verification/Mux.v ===== *)
(** * Multiplexed connections (rust/crates/roboat-daemon/src/mux.rs)

    A [MuxConn] carries many logical streams over one TCP connection.  Its
    parts run concurrently: callers of [open_stream], [send] and
    [close_stream]; the write task, which serves two unbounded queues with
    strict priority; the read task, which distributes incoming frames to the
    streams' bounded channels; and, on the responder, a task that registers the
    first stream.  They share the table of streams (behind a mutex) and the
    queues.

    The state is split the way the code splits it: [outq] is the writing side,
    [table] the streams with their channels, [mux] the connection.  Every
    function of the source is a function on this state, cut at the points where
    it can be interleaved with other tasks: at each [await].  A run of the
    connection is a list of [event]s, each one such piece, taken by [step]. *)

From S2P Require Import Prelude Text Stream Protocol Ipc.

Inductive MuxError : Type :=
| Disconnected
| MuxStreamNotFound (id : Z).

#[export] Instance MuxError_eq_dec : EqDecision MuxError.
Proof. solve_decision. Defined.

(** ** The writing side *)

Record WriteItem : Type := {
  item_type : FrameType;
  item_payload : list byte;
}.

#[export] Instance WriteItem_eq_dec : EqDecision WriteItem.
Proof. solve_decision. Defined.

(** The two queues, whether their senders (the [MuxConn]) and their receivers
    (the write task) are still there, and what was put on the wire, each frame
    with the queue it came from ([true] for the high-priority one). *)
Record outq : Type := Outq {
  ctrl_q : list WriteItem;
  bulk_q : list WriteItem;
  wire : list (bool * WriteItem);
  tx_alive : bool;
  rx_alive : bool;
}.

Definition new_outq : outq := Outq [] [] [] true true.

(** The queue a class is routed to. *)
Definition high_priority (class : StreamClass) : bool :=
  match class with Control | Meta => true | Bulk => false end.

Definition enqueue (class : StreamClass) (item : WriteItem) (o : outq) : result MuxError unit * outq :=
  if rx_alive o then
    (Ok tt,
     if high_priority class
     then Outq (ctrl_q o ++ [item]) (bulk_q o) (wire o) (tx_alive o) (rx_alive o)
     else Outq (ctrl_q o) (bulk_q o ++ [item]) (wire o) (tx_alive o) (rx_alive o))
  else (Err Disconnected, o).

(** What the write task does next. *)
Inductive write_action : Type :=
| WWrite (hi : bool) (item : WriteItem)
| WExit
| WWait.

(** The next item of [mux_write_task]: both its inner loop and its biased
    [select!] take from the high-priority queue while it has items; the task
    returns when that queue is empty and closed. *)
Definition write_pick (o : outq) : write_action * outq :=
  match ctrl_q o with
  | i :: q => (WWrite true i, Outq q (bulk_q o) (wire o) (tx_alive o) (rx_alive o))
  | [] =>
      if tx_alive o then
        match bulk_q o with
        | i :: q => (WWrite false i, Outq [] q (wire o) (tx_alive o) (rx_alive o))
        | [] => (WWait, o)
        end
      else (WExit, Outq [] (bulk_q o) (wire o) (tx_alive o) false)
  end.

Definition log_write (hi : bool) (i : WriteItem) (o : outq) : outq :=
  Outq (ctrl_q o) (bulk_q o) (wire o ++ [(hi, i)]) (tx_alive o) (rx_alive o).

Definition stop_writer (o : outq) : outq :=
  Outq (ctrl_q o) (bulk_q o) (wire o) (tx_alive o) false.

Definition drop_handles (o : outq) : outq :=
  Outq (ctrl_q o) (bulk_q o) (wire o) false (rx_alive o).

(** One item of [mux_write_task] on the socket: the frame is written, or the
    task ends on the error, which drops both queues' receivers.  [Pending]: the
    socket has no room, or there is nothing to write. *)
Definition mux_write_turn (o : outq) (s : sink) : outcome unit bool * outq * sink :=
  match write_pick o with
  | (WWrite hi i, o') =>
      match write_frame (item_type i) (item_payload i) s with
      | (Done _, s') => (Done true, log_write hi i o', s')
      | (Fail _, s') => (Done false, stop_writer o', s')
      | (Pending, s') => (Pending, o', s')
      end
  | (WExit, o') => (Done false, o', s)
  | (WWait, o') => (Pending, o', s)
  end.

(** [mux_write_task] on what is queued: it stops when it ends or has to wait.
    Every turn takes an item off a queue, so their length is enough fuel. *)
Fixpoint mux_write_task_fuel (fuel : nat) (o : outq) (s : sink) : outq * sink :=
  match fuel with
  | O => (o, s)
  | S fuel =>
      match mux_write_turn o s with
      | (Done true, o', s') => mux_write_task_fuel fuel o' s'
      | (_, o', s') => (o', s')
      end
  end.
Definition mux_write_task (o : outq) (s : sink) : outq * sink :=
  mux_write_task_fuel (S (length (ctrl_q o) + length (bulk_q o))) o s.

(** ** The streams' channels *)

Definition CHAN_CAP : nat := 64.

(** A bounded channel for a stream's inbound data: what is queued, what its
    consumer has received so far, and which ends are still held. *)
Record chan : Type := Chan {
  buf : list (list byte);
  got : list (list byte);
  tx_open : bool;
  rx_open : bool;
}.

Definition new_chan : chan := Chan [] [] true true.

(** [Sender::send]: [None] while the channel is full. *)
Definition chan_send (data : list byte) (c : chan) : option (bool * chan) :=
  if rx_open c then
    if (length (buf c) <? CHAN_CAP)%nat
    then Some (true, Chan (buf c ++ [data]) (got c) (tx_open c) (rx_open c))
    else None
  else Some (false, c).

(** [Receiver::recv]: [Pending] while nothing is queued and a sender is left,
    [None] once the channel is closed and empty. *)
Definition chan_recv (c : chan) : outcome unit (option (list byte)) * chan :=
  match buf c with
  | d :: bs => (Done (Some d), Chan bs (got c ++ [d]) (tx_open c) (rx_open c))
  | [] => (if tx_open c then Pending else Done None, c)
  end.

Definition drop_tx (c : chan) : chan := Chan (buf c) (got c) false (rx_open c).
Definition drop_rx (c : chan) : chan := Chan (buf c) (got c) (tx_open c) false.

(** The table of streams, [streams: HashMap<u32, MuxStreamEntry>]: an entry
    holds the sending end of a channel; channels are named by creation. *)
Record table : Type := Table {
  streams : gmap Z nat;
  chans : gmap nat chan;
  fresh : nat;
}.

Definition new_table : table := Table ∅ ∅ 0.

(** Dropping a table entry drops the sending end it held. *)
Definition drop_entry (sid : Z) (t : table) : gmap nat chan :=
  match streams t !! sid with
  | Some c => alter drop_tx c (chans t)
  | None => chans t
  end.

(** [mpsc::channel(64)] and [insert(stream_id, MuxStreamEntry { recv_tx })] *)
Definition register (sid : Z) (t : table) : nat * table :=
  let c := fresh t in
  (c, Table (<[sid := c]> (streams t)) (<[c := new_chan]> (drop_entry sid t)) (S c)).

(** [remove(&stream_id)] *)
Definition deregister (sid : Z) (t : table) : table :=
  Table (delete sid (streams t)) (drop_entry sid t) (fresh t).

(** ** The connection *)

Record IncomingMuxStream : Type := {
  in_stream_id : Z;
  in_class : StreamClass;
  in_from_agent_id : string;
  in_recv_rx : nat;
}.

(** The read task between two frames, inside [recv_tx.send(data).await] (which
    it awaits holding the table's lock), inside [incoming_tx.send(..).await],
    or returned. *)
Inductive reader_state : Type :=
| RIdle
| RSending (c : nat) (data : list byte)
| RNotifying (s : IncomingMuxStream)
| RDone.

(** The task [new_responder] spawns for the first stream: not yet run, inside
    [incoming_tx.send(..).await], or ended. *)
Inductive first_state : Type :=
| FirstTodo (payload : list byte)
| FirstNotifying (s : IncomingMuxStream)
| FirstEnded.

Record mux : Type := Mux {
  next_stream_id : Z;
  out : outq;
  tbl : table;
  incoming : list IncomingMuxStream;
  incoming_open : bool;
  reader : reader_state;
  (** Calls of [open_stream] and [close_stream] that have enqueued their frame
      and not yet taken the table's lock. *)
  opening : list Z;
  closing : list Z;
  first : first_state;
  peer : string;
}.

(** [new_inner] *)
Definition new_inner (from_agent_id : string) (start_id : Z) (first : first_state) : mux :=
  {| next_stream_id := start_id; out := new_outq; tbl := new_table; incoming := [];
     incoming_open := true; reader := RIdle; opening := []; closing := [];
     first := first; peer := from_agent_id |}.
Definition new_initiator (from_agent_id : string) : mux := new_inner from_agent_id 1 FirstEnded.
Definition new_responder (from_agent_id : string) (first_payload : list byte) : mux :=
  new_inner from_agent_id 2 (FirstTodo first_payload).

Definition set_out (o : outq) (m : mux) : mux :=
  Mux (next_stream_id m) o (tbl m) (incoming m) (incoming_open m) (reader m) (opening m) (closing m) (first m) (peer m).
Definition set_tbl (t : table) (m : mux) : mux :=
  Mux (next_stream_id m) (out m) t (incoming m) (incoming_open m) (reader m) (opening m) (closing m) (first m) (peer m).
Definition set_reader (r : reader_state) (m : mux) : mux :=
  Mux (next_stream_id m) (out m) (tbl m) (incoming m) (incoming_open m) r (opening m) (closing m) (first m) (peer m).
Definition set_incoming (q : list IncomingMuxStream) (alive : bool) (m : mux) : mux :=
  Mux (next_stream_id m) (out m) (tbl m) q alive (reader m) (opening m) (closing m) (first m) (peer m).
Definition set_opening (l : list Z) (m : mux) : mux :=
  Mux (next_stream_id m) (out m) (tbl m) (incoming m) (incoming_open m) (reader m) l (closing m) (first m) (peer m).
Definition set_closing (l : list Z) (m : mux) : mux :=
  Mux (next_stream_id m) (out m) (tbl m) (incoming m) (incoming_open m) (reader m) (opening m) l (first m) (peer m).
Definition set_first (f : first_state) (m : mux) : mux :=
  Mux (next_stream_id m) (out m) (tbl m) (incoming m) (incoming_open m) (reader m) (opening m) (closing m) f (peer m).
Definition bump_stream_id (m : mux) : mux :=
  Mux (u32_wrap (next_stream_id m + 2)) (out m) (tbl m) (incoming m) (incoming_open m) (reader m)
    (opening m) (closing m) (first m) (peer m).
(** One channel's contents replaced. *)
Definition set_chan (c : nat) (ch : chan) (m : mux) : mux :=
  set_tbl (Table (streams (tbl m)) (<[c := ch]> (chans (tbl m))) (fresh (tbl m))) m.

(** The mutex around the table: the read task keeps it while it waits for room
    in a stream's channel. *)
Definition locked (m : mux) : bool := match reader m with RSending _ _ => true | _ => false end.

Definition open_payload (sid : Z) (class : StreamClass) : list byte :=
  be_bytes 4 sid ++ be_bytes 1 (as_byte class).
Definition data_payload (sid : Z) (data : list byte) : list byte := be_bytes 4 sid ++ data.
Definition close_payload (sid : Z) : list byte := be_bytes 4 sid.

(** [open_stream] up to the lock: the number is drawn and the frame queued. *)
Definition open_begin (class : StreamClass) (m : mux) : result MuxError Z * mux :=
  let stream_id := next_stream_id m in
  let m := bump_stream_id m in
  let '(r, o) := enqueue class {| item_type := FStreamOpen;
                                  item_payload := open_payload stream_id class |} (out m) in
  match r with
  | Ok _ => (Ok stream_id, set_out o m)
  | Err e => (Err e, set_out o m)
  end.

(** [open_stream] from the lock on. *)
Definition open_finish (sid : Z) (m : mux) : nat * mux :=
  let '(c, t) := register sid (tbl m) in (c, set_tbl t m).

(** [open_stream] from the lock on, for a call that has queued its frame; [None]
    while the table is locked. *)
Definition open_resume (sid : Z) (m : mux) : option (nat * mux) :=
  if locked m then None
  else i ← fst <$> list_find (sid =.) (opening m);
       let '(c, m') := open_finish sid m in
       Some (c, set_opening (delete i (opening m)) m').

(** [open_stream] up to where it returns or has to wait for the table. *)
Definition open_stream (class : StreamClass) (m : mux) : outcome MuxError (Z * nat) * mux :=
  match open_begin class m with
  | (Ok sid, m) =>
      let m := set_opening (opening m ++ [sid]) m in
      match open_resume sid m with
      | Some (c, m) => (Done (sid, c), m)
      | None => (Pending, m)
      end
  | (Err e, m) => (Fail e, m)
  end.

Definition mux_send (sid : Z) (data : list byte) (class : StreamClass) (m : mux) :
    result MuxError unit * mux :=
  let '(r, o) := enqueue class {| item_type := FStreamData; item_payload := data_payload sid data |} (out m) in
  (r, set_out o m).

(** [close_stream] up to the lock, and from the lock on. *)
Definition close_begin (sid : Z) (class : StreamClass) (m : mux) : mux :=
  set_out (enqueue class {| item_type := FStreamClose; item_payload := close_payload sid |} (out m)).2 m.
Definition close_finish (sid : Z) (m : mux) : mux := set_tbl (deregister sid (tbl m)) m.

(** [close_stream] as a call that waits for the lock, and when it gets it. *)
Definition close_call (sid : Z) (class : StreamClass) (m : mux) : mux :=
  set_closing (closing m ++ [sid]) (close_begin sid class m).
Definition close_resume (sid : Z) (m : mux) : option mux :=
  if locked m then None
  else i ← fst <$> list_find (sid =.) (closing m);
       Some (set_closing (delete i (closing m)) (close_finish sid m)).

(** A consumer's end of channel [c] is dropped. *)
Definition hang_up (c : nat) (m : mux) : mux :=
  set_tbl (Table (streams (tbl m)) (alter drop_rx c (chans (tbl m))) (fresh (tbl m))) m.

(** [incoming_tx.send(..)]: [None] while that channel is full; when its receiver
    is gone the announcement is dropped with the receiver it carries. *)
Definition notify (s : IncomingMuxStream) (m : mux) : option mux :=
  if incoming_open m then
    if (length (incoming m) <? CHAN_CAP)%nat
    then Some (set_incoming (incoming m ++ [s]) true m)
    else None
  else Some (hang_up (in_recv_rx s) m).

(** [process_stream_open] up to its last [await]: what it goes on to announce. *)
Definition process_stream_open (payload : list byte) (m : mux) : mux * option IncomingMuxStream :=
  if zlen payload <? 5 then (m, None) else
  let stream_id := be_value (take 4 payload) in
  let class := from_byte (be_value (take 1 (drop 4 payload))) in
  let '(c, t) := register stream_id (tbl m) in
  (set_tbl t m,
   Some {| in_stream_id := stream_id; in_class := class; in_from_agent_id := peer m; in_recv_rx := c |}).

(** One round of the loop of [mux_read_task] on a frame it has read, up to the
    channel operation it ends with, if any. *)
Definition handle_frame (f : FrameType * list byte) (m : mux) : mux :=
  match f with
  | (FStreamOpen, payload) =>
      match process_stream_open payload m with
      | (m, None) => m
      | (m, Some s) => set_reader (RNotifying s) m
      end
  | (FStreamData, payload) =>
      if zlen payload <? 4 then m else
      let stream_id := be_value (take 4 payload) in
      let data := drop 4 payload in
      match streams (tbl m) !! stream_id with
      | Some c => set_reader (RSending c data) m
      | None => m
      end
  | (FStreamClose, payload) =>
      if zlen payload <? 4 then m else
      let stream_id := be_value (take 4 payload) in
      set_tbl (deregister stream_id (tbl m)) m
  | _ => m
  end.

(** The channel operation the round ends with; [None] while it has to wait.
    An error of [send] is ignored in both places. *)
Definition resume (m : mux) : option mux :=
  match reader m with
  | RSending c data =>
      ch ← chans (tbl m) !! c;
      '(_, ch') ← chan_send data ch;
      Some (set_reader RIdle (set_chan c ch' m))
  | RNotifying s => set_reader RIdle <$> notify s m
  | _ => None
  end.

(** [mux_read_task] at the top of its loop: read a frame and handle it, stop on
    an error, or wait for bytes. *)
Definition mux_read_turn (s : source) (m : mux) : outcome unit (source * mux) :=
  match read_frame s with
  | (Done f, s') => let m' := handle_frame f m in Done (s', default m' (resume m'))
  | (Fail _, s') => Done (s', set_reader RDone m)
  | (Pending, _) => Pending
  end.

(** ** Interleavings *)

Inductive event : Type :=
(** API calls, each up to its first [await] and from there on *)
| EOpen (class : StreamClass)
| EInsert (sid : Z)
| ESend (sid : Z) (data : list byte) (class : StreamClass)
| EClose (sid : Z) (class : StreamClass)
| ERemove (sid : Z)
(** the last handle on the connection is dropped *)
| EDropConn
(** the write task puts its next item on the wire *)
| EWrite
(** the write task ends on an error of the socket *)
| EWriteFail
(** the read task: a frame arrived, the stream failed or ended, or what it
    awaits has become possible *)
| ERead (f : FrameType * list byte)
| EReadFail
| EResume
(** the responder's task for the first stream takes its next step *)
| EFirst
(** the other ends: a stream's consumer receives or hangs up, the manager takes
    a notification or goes away *)
| ERecv (c : nat)
| EDropRx (c : nat)
| ETake
| EDropIncoming.

(** [None]: the event cannot happen in this state. *)
Definition step (e : event) (m : mux) : option mux :=
  match e with
  | EOpen class =>
      if tx_alive (out m) then
        match open_begin class m with
        | (Ok sid, m) => Some (set_opening (opening m ++ [sid]) m)
        | (Err _, m) => Some m
        end
      else None
  | EInsert sid => snd <$> open_resume sid m
  | ESend sid data class =>
      if tx_alive (out m) then Some (mux_send sid data class m).2 else None
  | EClose sid class =>
      if tx_alive (out m) then Some (close_call sid class m) else None
  | ERemove sid => close_resume sid m
  | EDropConn =>
      if bool_decide (opening m = [] ∧ closing m = []) then Some (set_out (drop_handles (out m)) m) else None
  | EWrite =>
      if rx_alive (out m) then
        match write_pick (out m) with
        | (WWrite hi i, o) => Some (set_out (log_write hi i o) m)
        | (WExit, o) => Some (set_out o m)
        | (WWait, _) => None
        end
      else None
  | EWriteFail => if rx_alive (out m) then Some (set_out (stop_writer (out m)) m) else None
  | ERead f => match reader m with RIdle => Some (handle_frame f m) | _ => None end
  | EReadFail => match reader m with RIdle => Some (set_reader RDone m) | _ => None end
  | EResume => resume m
  | EFirst =>
      match first m with
      | FirstTodo payload =>
          if locked m then None
          else match process_stream_open payload m with
               | (m, None) => Some (set_first FirstEnded m)
               | (m, Some s) => Some (set_first (FirstNotifying s) m)
               end
      | FirstNotifying s => set_first FirstEnded <$> notify s m
      | FirstEnded => None
      end
  | ERecv c =>
      ch ← chans (tbl m) !! c;
      if rx_open ch then
        match chan_recv ch with
        | (Pending, _) => None
        | (_, ch') => Some (set_chan c ch' m)
        end
      else None
  | EDropRx c => Some (hang_up c m)
  | ETake => match incoming m with [] => None | _ :: q => Some (set_incoming q (incoming_open m) m) end
  | EDropIncoming =>
      Some (foldr (λ s, hang_up (in_recv_rx s)) (set_incoming [] false m) (incoming m))
  end.

Fixpoint run (es : list event) (m : mux) : option mux :=
  match es with [] => Some m | e :: es => m' ← step e m; run es m' end.

(** ** Lemmas: the writing side *)

(** The items of one queue in a log of items tagged with their queue. *)
Definition lane (hi : bool) (l : list (bool * WriteItem)) : list WriteItem :=
  omap (λ '(b, i), if Bool.eqb b hi then Some i else None) l.
Definition queue (hi : bool) (o : outq) : list WriteItem := if hi then ctrl_q o else bulk_q o.

Lemma lane_app hi l1 l2 : lane hi (l1 ++ l2) = lane hi l1 ++ lane hi l2.
Proof. apply omap_app. Qed.

Lemma lane_one hi b i : lane hi [(b, i)] = if Bool.eqb b hi then [i] else [].
Proof. by destruct b, hi. Qed.

Lemma lane_tagged hi l : lane hi (pair hi <$> l) = l.
Proof. induction l; [done|]. unfold lane in *; simpl. rewrite Bool.eqb_reflx. by f_equal. Qed.

(** What an event hands to the writing side. *)
Definition submitted (e : event) (m : mux) : list (bool * WriteItem) :=
  match e with
  | EOpen class =>
      [(high_priority class, {| item_type := FStreamOpen; item_payload := open_payload (next_stream_id m) class |})]
  | ESend sid data class =>
      [(high_priority class, {| item_type := FStreamData; item_payload := data_payload sid data |})]
  | EClose sid class =>
      [(high_priority class, {| item_type := FStreamClose; item_payload := close_payload sid |})]
  | _ => []
  end.

(** The items the calls of a run enqueued successfully, in order. *)
Fixpoint accepted (es : list event) (m : mux) : list (bool * WriteItem) :=
  match es with
  | [] => []
  | e :: es =>
      (if rx_alive (out m) then submitted e m else []) ++
      match step e m with Some m' => accepted es m' | None => [] end
  end.

Lemma run_app es1 es2 m : run (es1 ++ es2) m = m' ← run es1 m; run es2 m'.
Proof.
  revert m; induction es1 as [|e es1 IH]; intros m; simpl; [done|].
  destruct (step e m); simpl; [apply IH|done].
Qed.

(** Invariants of runs, by induction on the events. *)
Lemma run_invariant (P : mux → Prop) es m m' :
  (∀ e m1 m2, P m1 → step e m1 = Some m2 → P m2) → P m → run es m = Some m' → P m'.
Proof.
  intros Hstep; revert m; induction es as [|e es IH]; intros m HP Hrun; simpl in Hrun; [by simplify_eq|].
  apply bind_Some in Hrun as (m1 & Hs & Hrun). eauto.
Qed.

Definition push (l : list (bool * WriteItem)) (o : outq) : outq :=
  if rx_alive o
  then Outq (ctrl_q o ++ lane true l) (bulk_q o ++ lane false l) (wire o) (tx_alive o) true
  else o.

Lemma enqueue_push class i o : (enqueue class i o).2 = push [(high_priority class, i)] o.
Proof.
  unfold enqueue, push. destruct o as [? ? ? ? []]; [|done].
  destruct (high_priority class); cbn; by rewrite app_nil_r.
Qed.

Lemma push_nil o : push [] o = o.
Proof. unfold push. destruct o as [? ? ? ? []]; [|done]; cbn. by rewrite !app_nil_r. Qed.

Lemma hang_up_all_out l m : out (foldr (λ s, hang_up (in_recv_rx s)) m l) = out m.
Proof. by induction l. Qed.

Ltac step_cases H :=
  unfold step, open_resume, open_begin, open_finish, mux_send, close_call, close_resume, close_begin,
    close_finish, resume, notify, handle_frame, process_stream_open in H;
  repeat (simplify_option_eq; try case_match; simplify_eq/=).

(** An event's effect on the writing side. *)
Lemma step_out e m m' :
  step e m = Some m' →
  out m' = match e with
           | EWrite =>
               match write_pick (out m) with
               | (WWrite hi i, o) => log_write hi i o
               | (_, o) => o
               end
           | EWriteFail => stop_writer (out m)
           | EDropConn => drop_handles (out m)
           | _ => push (submitted e m) (out m)
           end.
Proof.
  intros H. destruct e; cbn [submitted]; rewrite ?push_nil; rewrite <-?enqueue_push;
    step_cases H; try done; unfold enqueue, close_begin in *; repeat case_match; simplify_eq/=; try done.
  by rewrite hang_up_all_out.
Qed.

Lemma queue_push hi l o : rx_alive o = true → queue hi (push l o) = queue hi o ++ lane hi l.
Proof. intros Ho. unfold push. rewrite Ho. by destruct hi. Qed.

Lemma queue_log hi b i o : queue hi (log_write b i o) = queue hi o.
Proof. by destruct hi. Qed.

(** Picking an item moves it from the head of its queue to the wire. *)
Lemma write_pick_queue o b i o' hi :
  write_pick o = (WWrite b i, o') →
  queue hi o = (if Bool.eqb b hi then [i] else []) ++ queue hi o' ∧ wire o' = wire o ∧ rx_alive o' = rx_alive o.
Proof. unfold write_pick. intros. by repeat case_match; simplify_eq; destruct hi. Qed.

Lemma write_pick_exit o a o' hi :
  write_pick o = (a, o') → (∀ b i, a ≠ WWrite b i) → queue hi o' = queue hi o ∧ wire o' = wire o.
Proof.
  unfold write_pick. intros H Ha. repeat case_match; simplify_eq; destruct hi; try done; by destruct (Ha _ _ eq_refl).
Qed.

(** In each queue, what was on the wire and in the queue before, followed by
    what the run submitted, is what is on the wire and in the queue after. *)
Lemma step_lane hi e m m' :
  step e m = Some m' →
  lane hi (wire (out m')) ++ queue hi (out m')
  = (lane hi (wire (out m)) ++ queue hi (out m)) ++ lane hi (if rx_alive (out m) then submitted e m else []).
Proof.
  intros Hs. pose proof (step_out _ _ _ Hs) as Ho.
  assert (Hpush : out m' = push (submitted e m) (out m) →
    lane hi (wire (out m')) ++ queue hi (out m')
    = (lane hi (wire (out m)) ++ queue hi (out m)) ++ lane hi (if rx_alive (out m) then submitted e m else [])).
  { intros ->. unfold push. destruct (rx_alive (out m)); [|by rewrite app_nil_r].
    cbn. rewrite <-app_assoc. by destruct hi. }
  destruct e; try (by apply Hpush); clear Hpush; cbn [submitted];
    replace (if rx_alive (out m) then [] else []) with (@nil (bool * WriteItem)) by (by destruct (rx_alive _));
    cbn [lane omap list_omap]; rewrite ?app_nil_r, Ho; try (by destruct hi).
  destruct (write_pick (out m)) as [a o] eqn:Hp. destruct a as [b i| |].
  - destruct (write_pick_queue _ _ _ _ hi Hp) as (-> & Hw & _).
    rewrite queue_log. cbn [wire log_write]. rewrite Hw, lane_app, lane_one, <-app_assoc. by destruct b, hi.
  - by destruct (write_pick_exit _ _ _ hi Hp ltac:(done)) as [-> ->].
  - by destruct (write_pick_exit _ _ _ hi Hp ltac:(done)) as [-> ->].
Qed.

Lemma run_lane hi es m m' :
  run es m = Some m' →
  lane hi (wire (out m')) ++ queue hi (out m')
  = (lane hi (wire (out m)) ++ queue hi (out m)) ++ lane hi (accepted es m).
Proof.
  revert m; induction es as [|e es IH]; intros m Hr; simpl in Hr |- *.
  { simplify_eq. by rewrite app_nil_r. }
  apply bind_Some in Hr as (m1 & Hs & Hr). rewrite Hs, lane_app, app_assoc, <-(step_lane _ _ _ _ Hs). by apply IH.
Qed.

Definition item_stream (i : WriteItem) : Z := be_value (take 4 (item_payload i)).

(** The items that belong to a stream. *)
Definition stream_items (sid : Z) (l : list (bool * WriteItem)) : list WriteItem :=
  filter (λ i, item_stream i = sid) l.*2.

(** A stream all of whose items use one queue is ordered by that queue. *)
Definition one_lane (sid : Z) (hi : bool) (l : list (bool * WriteItem)) : Prop :=
  Forall (λ p, item_stream p.2 = sid → p.1 = hi) l.

#[export] Instance one_lane_dec sid hi l : Decision (one_lane sid hi l).
Proof. unfold one_lane. apply _. Defined.

Lemma stream_items_lane sid hi l :
  one_lane sid hi l → stream_items sid l = filter (λ i, item_stream i = sid) (lane hi l).
Proof.
  unfold stream_items, lane. induction 1 as [|[b i] l Hb Hl IH]; [done|]. simpl in *.
  rewrite filter_cons. case_decide as Hi.
  - rewrite (Hb Hi), Bool.eqb_reflx, filter_cons, decide_True by done. by f_equal.
  - destruct (Bool.eqb b hi); [rewrite filter_cons, decide_False by done|]; apply IH.
Qed.

Lemma elem_of_lane b i l : (b, i) ∈ l ↔ i ∈ lane b l.
Proof.
  unfold lane. rewrite list_elem_of_omap. split.
  - intros Hin. exists (b, i). by rewrite Bool.eqb_reflx.
  - intros ([b' i'] & Hin & Hb). destruct (Bool.eqb b' b) eqn:E; [|done].
    apply Bool.eqb_prop in E. by simplify_eq.
Qed.

Lemma one_lane_lanes sid hi l l' :
  (∀ b, lane b l' ⊆ lane b l) → one_lane sid hi l → one_lane sid hi l'.
Proof.
  unfold one_lane. rewrite !Forall_forall. intros Hsub Hl [b i] Hin. apply (Hl (b, i)).
  apply elem_of_lane, Hsub. by apply elem_of_lane.
Qed.

(** From a new connection, each queue's items are on the wire in the order they
    were accepted, and the rest waits in the queue. *)
Lemma new_run_lane hi p start f es m :
  run es (new_inner p start f) = Some m →
  lane hi (accepted es (new_inner p start f)) = lane hi (wire (out m)) ++ queue hi (out m).
Proof. intros Hr. rewrite (run_lane hi _ _ _ Hr). by destruct hi. Qed.

Lemma new_run_one_lane sid hi p start f es m :
  run es (new_inner p start f) = Some m →
  one_lane sid hi (accepted es (new_inner p start f)) → one_lane sid hi (wire (out m)).
Proof.
  intros Hr. apply one_lane_lanes. intros b i Hi. rewrite (new_run_lane b _ _ _ _ _ Hr). set_solver.
Qed.

Lemma prefix_comparable {A} (l1 l2 l : list A) :
  l1 `prefix_of` l → l2 `prefix_of` l → l1 `prefix_of` l2 ∨ l2 `prefix_of` l1.
Proof.
  intros [k1 ->] [k2 H]. revert l2 H; induction l1 as [|x l1 IH]; intros l2 H; [left; apply prefix_nil|].
  destruct l2 as [|y l2]; [right; apply prefix_nil|]. simplify_eq/=.
  destruct (IH l2) as [?|?]; [done|left|right]; by apply prefix_cons.
Qed.

(** A step either leaves the wire alone and only appends to the high-priority
    queue, or writes the head of that queue, or finds it empty. *)
Lemma step_priority e m m' :
  step e m = Some m' →
  (wire (out m') = wire (out m) ∧ ctrl_q (out m) `prefix_of` ctrl_q (out m'))
  ∨ (∃ i, ctrl_q (out m) = i :: ctrl_q (out m') ∧ wire (out m') = wire (out m) ++ [(true, i)])
  ∨ (ctrl_q (out m) = [] ∧ ∃ i, wire (out m') = wire (out m) ++ [(false, i)]).
Proof.
  intros Hs. pose proof (step_out _ _ _ Hs) as Ho.
  assert (Hpush : out m' = push (submitted e m) (out m) →
    wire (out m') = wire (out m) ∧ ctrl_q (out m) `prefix_of` ctrl_q (out m')).
  { intros ->. unfold push. destruct (rx_alive (out m)); [|done]. cbn. split; [done|by eexists]. }
  destruct e; try (by left; apply Hpush); clear Hpush; rewrite Ho; try (by left).
  unfold write_pick. destruct (ctrl_q (out m)) as [|i q] eqn:Hq; [|right; left; eauto].
  destruct (tx_alive (out m)); [|left; cbn; by split].
  destruct (bulk_q (out m)); [left; by rewrite Hq|right; right; cbn; eauto].
Qed.

(** ** Lemmas: the table of streams *)

(** Entries name distinct channels, whose sending end they hold; channel names
    are never reused. *)
Record table_wf (t : table) : Prop := {
  twf_entry : ∀ sid c, streams t !! sid = Some c → ∃ ch, chans t !! c = Some ch ∧ tx_open ch = true;
  twf_inj : ∀ s1 s2 c, streams t !! s1 = Some c → streams t !! s2 = Some c → s1 = s2;
  twf_fresh : ∀ c, is_Some (chans t !! c) → (c < fresh t)%nat;
}.

Lemma new_table_wf : table_wf new_table.
Proof.
  split; cbn; intros *; rewrite ?lookup_empty; [done|done|]. by intros [? ?].
Qed.

Lemma entry_fresh t sid c : table_wf t → streams t !! sid = Some c → (c < fresh t)%nat.
Proof. intros Ht Hs. destruct (twf_entry _ Ht _ _ Hs) as (ch & Hch & _). apply (twf_fresh _ Ht). by eexists. Qed.

Lemma drop_entry_lookup t sid c :
  drop_entry sid t !! c
  = if bool_decide (streams t !! sid = Some c) then drop_tx <$> chans t !! c else chans t !! c.
Proof.
  unfold drop_entry. case_bool_decide as H.
  - rewrite H. apply lookup_alter_eq.
  - case_match; [|done]. apply lookup_alter_ne. congruence.
Qed.

Lemma drop_entry_other t sid sid' c ch :
  table_wf t → sid' ≠ sid → streams t !! sid' = Some c → chans t !! c = Some ch →
  drop_entry sid t !! c = Some ch.
Proof.
  intros Ht Hne Hs Hch. rewrite drop_entry_lookup, bool_decide_eq_false_2; [done|].
  intros Hs'. apply Hne. by eapply twf_inj.
Qed.

Lemma drop_entry_is_Some t sid c : is_Some (drop_entry sid t !! c) → is_Some (chans t !! c).
Proof. rewrite drop_entry_lookup. case_bool_decide; [apply fmap_is_Some|done]. Qed.

Lemma register_wf sid t : table_wf t → table_wf (register sid t).2.
Proof.
  intros Ht. split; cbn.
  - intros sid' c Hs. destruct (decide (sid' = sid)) as [->|Hne].
    + rewrite lookup_insert_eq in Hs. simplify_eq. exists new_chan. by rewrite lookup_insert_eq.
    + rewrite lookup_insert_ne in Hs by done. pose proof (entry_fresh _ _ _ Ht Hs).
      destruct (twf_entry _ Ht _ _ Hs) as (ch & Hch & Htx). exists ch.
      rewrite lookup_insert_ne by lia. split; [|done]. by eapply drop_entry_other.
  - intros s1 s2 c. destruct (decide (s1 = sid)) as [->|H1], (decide (s2 = sid)) as [->|H2];
      rewrite ?lookup_insert_eq, ?lookup_insert_ne by done; intros Hs1 Hs2; simplify_eq; try done.
    + pose proof (entry_fresh _ _ _ Ht Hs2). lia.
    + pose proof (entry_fresh _ _ _ Ht Hs1). lia.
    + by eapply twf_inj.
  - intros c. rewrite lookup_insert_is_Some. intros [<-|[_ Hc]]; [lia|].
    pose proof (twf_fresh _ Ht _ (drop_entry_is_Some _ _ _ Hc)). lia.
Qed.

Lemma deregister_wf sid t : table_wf t → table_wf (deregister sid t).
Proof.
  intros Ht. split; cbn.
  - intros sid' c. rewrite lookup_delete_Some. intros [Hne Hs].
    destruct (twf_entry _ Ht _ _ Hs) as (ch & Hch & Htx). exists ch. split; [|done].
    by eapply drop_entry_other; [| |done..].
  - intros s1 s2 c. rewrite !lookup_delete_Some. intros [_ ?] [_ ?]. by eapply twf_inj.
  - intros c Hc. apply (twf_fresh _ Ht). by eapply drop_entry_is_Some.
Qed.

(** Replacing a channel's contents without dropping its sending end. *)
Lemma set_chan_wf c ch ch' t :
  table_wf t → chans t !! c = Some ch → tx_open ch' = tx_open ch →
  table_wf (Table (streams t) (<[c := ch']> (chans t)) (fresh t)).
Proof.
  intros Ht Hc Htx. split; cbn; [|apply (twf_inj _ Ht)|].
  - intros sid c' Hs. destruct (twf_entry _ Ht _ _ Hs) as (ch0 & Hch0 & Htx0).
    destruct (decide (c' = c)) as [->|Hne].
    + rewrite lookup_insert_eq. eexists; split; [done|]. by simplify_eq; rewrite Htx.
    + rewrite lookup_insert_ne by done. by eauto.
  - intros c'. rewrite lookup_insert_is_Some. intros [<-|[_ ?]]; apply (twf_fresh _ Ht); [by eexists|done].
Qed.

Lemma hang_up_wf c m : table_wf (tbl m) → table_wf (tbl (hang_up c m)).
Proof.
  intros Ht. unfold hang_up; cbn. destruct (chans (tbl m) !! c) as [ch|] eqn:Hc.
  - rewrite (alter_Some_insert _ _ _ ch) by done. by eapply set_chan_wf.
  - rewrite alter_None_same by done. by destruct (tbl m).
Qed.

(** The data the read task is about to hand to channel [c]. *)
Definition in_flight (c : nat) (r : reader_state) : list (list byte) :=
  match r with RSending c' d => if bool_decide (c' = c) then [d] else [] | _ => [] end.

(** The table is well formed, and while the read task holds its lock the entry
    it found is still there. *)
Record mux_wf (m : mux) : Prop := {
  mwf_table : table_wf (tbl m);
  mwf_reader : ∀ c d, reader m = RSending c d → ∃ sid, streams (tbl m) !! sid = Some c;
}.

Lemma new_inner_wf p start f : mux_wf (new_inner p start f).
Proof. split; [apply new_table_wf|done]. Qed.

Lemma locked_false m c d : locked m = false → reader m ≠ RSending c d.
Proof. unfold locked. by destruct (reader m). Qed.

Lemma chan_send_Some d ch b ch' :
  chan_send d ch = Some (b, ch') →
  tx_open ch' = tx_open ch ∧ rx_open ch' = rx_open ch ∧ got ch' = got ch
  ∧ b = rx_open ch ∧ (rx_open ch = true → buf ch' = buf ch ++ [d]) ∧ (rx_open ch = false → ch' = ch).
Proof. unfold chan_send. intros. repeat case_match; simplify_eq/=; naive_solver. Qed.

Lemma chan_recv_Done ch o ch' :
  chan_recv ch = (o, ch') → tx_open ch' = tx_open ch ∧ rx_open ch' = rx_open ch ∧ got ch' ++ buf ch' = got ch ++ buf ch.
Proof. destruct ch as [[|d bs] g tx rx]; cbn; intros; simplify_eq/=; [done|]. by rewrite <-app_assoc. Qed.

Lemma hang_up_all_wf l m : table_wf (tbl m) → table_wf (tbl (foldr (λ s, hang_up (in_recv_rx s)) m l)).
Proof. intros. induction l; [done|]. by apply hang_up_wf. Qed.

Lemma hang_up_all_frame l m :
  streams (tbl (foldr (λ s, hang_up (in_recv_rx s)) m l)) = streams (tbl m)
  ∧ reader (foldr (λ s, hang_up (in_recv_rx s)) m l) = reader m.
Proof. by induction l. Qed.

Lemma hang_up_all_first l m : first (foldr (λ s, hang_up (in_recv_rx s)) m l) = first m.
Proof. by induction l. Qed.

Lemma hang_up_all_tbl l m1 m2 :
  tbl m1 = tbl m2 →
  tbl (foldr (λ s, hang_up (in_recv_rx s)) m1 l) = tbl (foldr hang_up m2 (in_recv_rx <$> l)).
Proof. intros Ht. induction l as [|s l IH]; [done|]. unfold hang_up in *. cbn in *. by rewrite IH. Qed.

(** What an event does to the table and the reader: nothing, or one of these. *)
Inductive tbl_step (e : event) (m : mux) : mux → Prop :=
| TSame m' : tbl m' = tbl m → reader m' = reader m → tbl_step e m m'
| TRegister sid m' :
    reader m' = reader m → locked m = false → tbl m' = (register sid (tbl m)).2 →
    (e = EInsert sid ∨ ∃ p, e = EFirst ∧ first m = FirstTodo p ∧ 5 ≤ zlen p ∧ be_value (take 4 p) = sid) →
    tbl_step e m m'
| TRemove sid m' :
    reader m' = reader m → locked m = false → tbl m' = deregister sid (tbl m) → e = ERemove sid →
    tbl_step e m m'
| TFrame f m' : e = ERead f → reader m = RIdle → m' = handle_frame f m → tbl_step e m m'
| TSent c d ch b ch' m' :
    reader m = RSending c d → chans (tbl m) !! c = Some ch → chan_send d ch = Some (b, ch') → e = EResume →
    m' = set_reader RIdle (set_chan c ch' m) → tbl_step e m m'
| TQuiet m' : (∀ c d, reader m' ≠ RSending c d) → (∀ c d, reader m ≠ RSending c d) →
    tbl m' = tbl m → tbl_step e m m'
| TRecv c ch o ch' m' :
    reader m' = reader m → chans (tbl m) !! c = Some ch → chan_recv ch = (o, ch') →
    tbl m' = tbl (set_chan c ch' m) → tbl_step e m m'
| THangUp l m' : (∀ c, in_flight c (reader m') = in_flight c (reader m)) →
    (∀ c d, reader m' = RSending c d → reader m = RSending c d) →
    tbl m' = tbl (foldr hang_up m l) → tbl_step e m m'.

Lemma step_tbl e m m' : step e m = Some m' → tbl_step e m m'.
Proof.
  intros H. destruct e; cbn [step] in H.
  - destruct (tx_alive _); [|done]. apply TSame; step_cases H; done.
  - unfold open_resume in H. destruct (locked m) eqn:Hl; [done|].
    destruct (list_find _ _) as [[i ?]|]; [|done]. cbn in H. simplify_eq.
    eapply TRegister; try done. by left.
  - apply TSame; step_cases H; done.
  - apply TSame; step_cases H; done.
  - unfold close_resume in H. destruct (locked m) eqn:Hl; [done|].
    apply bind_Some in H as (i & _ & H). simplify_eq. by eapply TRemove.
  - apply TSame; by step_cases H.
  - apply TSame; by step_cases H.
  - apply TSame; by step_cases H.
  - destruct (reader m) eqn:Hr; try done. simplify_eq. by eapply TFrame.
  - destruct (reader m) eqn:Hr; try done. simplify_eq. apply TQuiet; cbn; congruence.
  - unfold resume in H. destruct (reader m) eqn:Hr; try done.
    + apply bind_Some in H as (ch & Hch & H). apply bind_Some in H as ([b ch'] & Hs & H). simplify_eq.
      by eapply TSent.
    + unfold notify in H. destruct (incoming_open m).
      * destruct (_ <? _)%nat; [|done]. cbn in H. simplify_eq. apply TQuiet; cbn; congruence.
      * cbn in H. simplify_eq. apply (THangUp _ _ [in_recv_rx s]); cbn; [by rewrite Hr|congruence|done].
  - destruct (first m) as [p|s|] eqn:Hf; [|unfold notify in H|done].
    + destruct (locked m) eqn:Hl; [done|]. unfold process_stream_open in H.
      destruct (zlen p <? 5) eqn:Hz; cbn in H; simplify_eq; [by apply TSame|].
      eapply TRegister; [done|done|done|]. right. exists p. split_and!; [done|done|lia|done].
    + destruct (incoming_open m).
      * destruct (_ <? _)%nat; [|done]. cbn in H. simplify_eq. by apply TSame.
      * cbn in H. simplify_eq. by apply (THangUp _ _ [in_recv_rx s]).
  - apply bind_Some in H as (ch & Hch & H). destruct (rx_open ch); [|done].
    destruct (chan_recv ch) as [o ch'] eqn:Hc. eapply TRecv; [|done..|]; by destruct o; simplify_eq.
  - simplify_eq. by apply (THangUp _ _ [c]).
  - destruct (incoming m); simplify_eq. by apply TSame.
  - simplify_eq. apply (THangUp _ _ (in_recv_rx <$> incoming m)).
    + intros c. by rewrite (proj2 (hang_up_all_frame _ _)).
    + intros c d. by rewrite (proj2 (hang_up_all_frame _ _)).
    + by apply hang_up_all_tbl.
Qed.

Lemma hang_up_list_streams l m : streams (tbl (foldr hang_up m l)) = streams (tbl m).
Proof. by induction l. Qed.

Lemma hang_up_list_wf l m : table_wf (tbl m) → table_wf (tbl (foldr hang_up m l)).
Proof. intros. induction l; [done|]. by apply hang_up_wf. Qed.

Lemma handle_frame_wf f m : mux_wf m → reader m = RIdle → mux_wf (handle_frame f m).
Proof.
  intros [Ht Hr] Hi. destruct f as [ty p]; destruct ty; cbn; try (by split);
    [unfold process_stream_open| |].
  - destruct (zlen p <? 5); [by split|]. split; cbn; [by apply register_wf|done].
  - destruct (zlen p <? 4); [by split|]. destruct (streams (tbl m) !! _) eqn:Hs; split; cbn; try done.
    intros c d [= -> _]. eauto.
  - destruct (zlen p <? 4); [by split|]. split; cbn; [by apply deregister_wf|]. congruence.
Qed.

Lemma step_wf e m m' : mux_wf m → step e m = Some m' → mux_wf m'.
Proof.
  intros Hm Hs. pose proof Hm as [Ht Hr].
  destruct (step_tbl _ _ _ Hs) as [m' Et Er|sid m' Er Hl Et _|sid m' Er Hl Et _|f m' _ Hi ->|
    c d ch b ch' m' _ Hch Hsend _ ->|m' Hq _ Et|c ch o ch' m' Er Hch Hrecv Et|l m' _ Er Et].
  - split; [by rewrite Et|]. rewrite Et, Er. done.
  - split; [rewrite Et; by apply register_wf|]. rewrite Er. intros c d Hc. by destruct (locked_false m c d).
  - split; [rewrite Et; by apply deregister_wf|]. rewrite Er. intros c d Hc. by destruct (locked_false m c d).
  - by apply handle_frame_wf.
  - apply chan_send_Some in Hsend as (Htx & _). split; cbn; [|done]. by eapply set_chan_wf.
  - split; [by rewrite Et|]. intros c d Hc. by destruct (Hq c d).
  - apply chan_recv_Done in Hrecv as (Htx & _). split; [rewrite Et; by eapply set_chan_wf|].
    rewrite Et, Er. done.
  - split; [rewrite Et; by apply hang_up_list_wf|]. rewrite Et, hang_up_list_streams. eauto.
Qed.

Lemma run_wf p start f es m : run es (new_inner p start f) = Some m → mux_wf m.
Proof. apply run_invariant; [|apply new_inner_wf]. intros e m1 m2. apply step_wf. Qed.

(** ** The specification of demultiplexing *)

(** What a stream has received, as its peer's frames alone determine it:
    [None] while it is not open. *)
Definition spec_frame (sid : Z) (st : option (list (list byte))) (f : FrameType * list byte) :
    option (list (list byte)) :=
  match f with
  | (FStreamOpen, p) => if (5 <=? zlen p) && (be_value (take 4 p) =? sid) then Some [] else st
  | (FStreamData, p) =>
      if (4 <=? zlen p) && (be_value (take 4 p) =? sid) then (λ l, l ++ [drop 4 p]) <$> st else st
  | (FStreamClose, p) => if (4 <=? zlen p) && (be_value (take 4 p) =? sid) then None else st
  | _ => st
  end.

Definition stream_after (sid : Z) (fs : list (FrameType * list byte)) : option (list (list byte)) :=
  foldl (spec_frame sid) None fs.

(** The frames a run takes from the peer: those the read task handles, and the
    responder's first one when its task runs. *)
Definition observed (e : event) (m : mux) : list (FrameType * list byte) :=
  match e with
  | ERead f => [f]
  | EFirst => match first m with FirstTodo p => [(FStreamOpen, p)] | _ => [] end
  | _ => []
  end.
Fixpoint frames_seen (es : list event) (m : mux) : list (FrameType * list byte) :=
  match es with
  | [] => []
  | e :: es => observed e m ++ match step e m with Some m' => frames_seen es m' | None => [] end
  end.

(** The stream's channel holds what the specification says: what its consumer
    has received, what is queued, and what the read task is handing over. *)
Definition agrees (sid : Z) (t : table) (r : reader_state) (st : option (list (list byte))) : Prop :=
  match streams t !! sid, st with
  | Some c, Some l =>
      ∀ ch, chans t !! c = Some ch → rx_open ch = true → got ch ++ buf ch ++ in_flight c r = l
  | None, None => True
  | _, _ => False
  end.

(** Events by which this side itself opens or closes the stream. *)
Definition local_event (sid : Z) (e : event) : bool :=
  match e with EInsert s | ERemove s => s =? sid | _ => false end.

Lemma agrees_register sid t r : (∀ c d, r ≠ RSending c d) → agrees sid (register sid t).2 r (Some []).
Proof.
  intros Hr. unfold agrees; cbn. rewrite lookup_insert_eq. intros ch. rewrite lookup_insert_eq.
  intros [= <-] _. destruct r; cbn; try done. by destruct (Hr c data).
Qed.

Lemma agrees_register_other sid sid' t r st :
  table_wf t → sid' ≠ sid → agrees sid t r st → agrees sid (register sid' t).2 r st.
Proof.
  intros Ht Hne Ha. unfold agrees in *; cbn. rewrite lookup_insert_ne by done.
  destruct (streams t !! sid) as [c|] eqn:Hs; [|done]. destruct st; [|done]. intros ch.
  pose proof (entry_fresh _ _ _ Ht Hs). rewrite lookup_insert_ne by lia.
  destruct (twf_entry _ Ht _ _ Hs) as (ch0 & Hch & _).
  rewrite (drop_entry_other _ _ _ _ _ Ht (not_eq_sym Hne) Hs Hch). intros [= <-]. by apply Ha.
Qed.

Lemma agrees_deregister sid t r : agrees sid (deregister sid t) r None.
Proof. unfold agrees; cbn. by rewrite lookup_delete_eq. Qed.

Lemma agrees_deregister_other sid sid' t r st :
  table_wf t → sid' ≠ sid → agrees sid t r st → agrees sid (deregister sid' t) r st.
Proof.
  intros Ht Hne Ha. unfold agrees in *; cbn. rewrite lookup_delete_ne by done.
  destruct (streams t !! sid) as [c|] eqn:Hs; [|done]. destruct st; [|done]. intros ch.
  destruct (twf_entry _ Ht _ _ Hs) as (ch0 & Hch & _).
  rewrite (drop_entry_other _ _ _ _ _ Ht (not_eq_sym Hne) Hs Hch). intros [= <-]. by apply Ha.
Qed.

(** The reader's state matters only for what it holds. *)
Lemma agrees_reader sid t r r' st :
  (∀ c, in_flight c r' = in_flight c r) → agrees sid t r st → agrees sid t r' st.
Proof.
  intros Hr Ha. unfold agrees in *. destruct (streams t !! sid), st; try done. intros ch. rewrite Hr. apply Ha.
Qed.

(** A channel may trade data between what it holds and what the reader holds. *)
Lemma agrees_set_chan sid t r r' c ch ch' st :
  chans t !! c = Some ch →
  (rx_open ch' = true → rx_open ch = true) →
  (rx_open ch' = true → got ch' ++ buf ch' ++ in_flight c r' = got ch ++ buf ch ++ in_flight c r) →
  (∀ c', c' ≠ c → in_flight c' r' = in_flight c' r) →
  agrees sid t r st → agrees sid (Table (streams t) (<[c := ch']> (chans t)) (fresh t)) r' st.
Proof.
  intros Hch Hrx Hdata Hr Ha. unfold agrees in *; cbn. destruct (streams t !! sid) as [c'|], st; try done.
  intros ch0. destruct (decide (c' = c)) as [->|Hne].
  - rewrite lookup_insert_eq. intros [= <-] Ho. rewrite Hdata by done. apply Ha; auto.
  - rewrite lookup_insert_ne by done. rewrite Hr by done. apply Ha.
Qed.

Lemma agrees_hang_up sid l m r st : agrees sid (tbl m) r st → agrees sid (tbl (foldr hang_up m l)) r st.
Proof.
  intros Ha. induction l as [|c l IH]; [done|]. cbn [foldr]. revert IH. generalize (foldr hang_up m l).
  clear Ha; intros m' Ha. unfold agrees in *; cbn.
  destruct (streams (tbl m') !! sid) as [c'|], st; try done. intros ch.
  destruct (decide (c' = c)) as [->|Hne]; [|by rewrite lookup_alter_ne; [apply Ha|]].
  rewrite lookup_alter_eq. intros (ch0 & _ & ->)%fmap_Some Ho. done.
Qed.

Lemma handle_frame_agrees sid f m st :
  table_wf (tbl m) → reader m = RIdle → agrees sid (tbl m) (reader m) st →
  agrees sid (tbl (handle_frame f m)) (reader (handle_frame f m)) (spec_frame sid st f).
Proof.
  intros Ht Hi Ha. destruct f as [ty p]; destruct ty; try done; cbn.
  - unfold process_stream_open. destruct (Z.ltb_spec (zlen p) 5), (Z.leb_spec 5 (zlen p)); try lia; [done|].
    cbn. destruct (Z.eqb_spec (be_value (take 4 p)) sid) as [->|Hne]; [by apply agrees_register|].
    apply agrees_register_other; [done..|]. by apply (agrees_reader _ _ (reader m)); [rewrite Hi|].
  - destruct (Z.ltb_spec (zlen p) 4), (Z.leb_spec 4 (zlen p)); try lia; [done|]. cbn.
    destruct (Z.eqb_spec (be_value (take 4 p)) sid) as [->|Hne].
    + unfold agrees in *. destruct (streams (tbl m) !! sid) as [c|] eqn:Hs, st as [l|]; try done; cbn; rewrite ?Hs; try done.
      intros ch Hch Ho. rewrite bool_decide_eq_true_2 by done.
      specialize (Ha _ Hch Ho). rewrite Hi in Ha; cbn in Ha. rewrite app_nil_r in Ha. by rewrite app_assoc, Ha.
    + destruct (streams (tbl m) !! be_value (take 4 p)) as [c'|] eqn:Hs'; [|done]. cbn.
      unfold agrees in *. destruct (streams (tbl m) !! sid) as [c|] eqn:Hs, st as [l|]; try done.
      intros ch Hch Ho. cbn. rewrite bool_decide_eq_false_2; [rewrite Hi in Ha; by apply Ha|].
      intros ->. apply Hne. by eapply twf_inj.
  - destruct (Z.ltb_spec (zlen p) 4), (Z.leb_spec 4 (zlen p)); try lia; [done|]. cbn.
    destruct (Z.eqb_spec (be_value (take 4 p)) sid) as [->|Hne]; [by apply agrees_deregister|].
    by apply agrees_deregister_other.
Qed.

Lemma in_flight_other c c' d : c' ≠ c → in_flight c' (RSending c d) = [].
Proof. intros. cbn. by rewrite bool_decide_eq_false_2. Qed.

(** Events that take no frame from the peer. *)
Lemma quiet_step_agrees sid e m m' st :
  mux_wf m → step e m = Some m' → local_event sid e = false → observed e m = [] →
  agrees sid (tbl m) (reader m) st → agrees sid (tbl m') (reader m') st.
Proof.
  intros [Ht Hr] Hs Hloc Hobs Ha.
  destruct (step_tbl _ _ _ Hs) as [m' Et Er|sid' m' Er Hl Et Hwhy|sid' m' Er Hl Et ->|f m' -> _ _|
    c d ch b ch' m' Hrd Hch Hsend _ ->|m' Hq Hq' Et|c ch o ch' m' Er Hch Hrecv Et|l m' Er _ Et].
  - by rewrite Et, Er.
  - rewrite Et, Er. destruct Hwhy as [->|(p & -> & Hp & _)]; [|cbn in Hobs; by rewrite Hp in Hobs].
    apply agrees_register_other; [done| |done]. cbn in Hloc. lia.
  - rewrite Et, Er. apply agrees_deregister_other; [done| |done]. cbn in Hloc. lia.
  - done.
  - apply chan_send_Some in Hsend as (_ & Hrx & Hgot & _ & Hbuf & _).
    eapply agrees_set_chan; [done|by rewrite Hrx| | |done]; rewrite Hrd.
    + rewrite Hrx. intros Ho. rewrite Hgot, Hbuf by done. cbn.
      by rewrite bool_decide_eq_true_2, app_nil_r.
    + intros c' Hne. by rewrite in_flight_other.
  - rewrite Et. eapply agrees_reader; [|done]. intros c. unfold in_flight.
    destruct (reader m'), (reader m); try done; first [by destruct (Hq _ _ eq_refl)|by destruct (Hq' _ _ eq_refl)].
  - apply chan_recv_Done in Hrecv as (_ & Hrx & Hdata). rewrite Et, Er.
    eapply agrees_set_chan; [done|by rewrite Hrx| |done|done].
    intros _. by rewrite !app_assoc, Hdata.
  - rewrite Et. apply agrees_hang_up. by eapply agrees_reader.
Qed.

Lemma step_agrees sid e m m' st :
  mux_wf m → step e m = Some m' → local_event sid e = false →
  agrees sid (tbl m) (reader m) st →
  agrees sid (tbl m') (reader m') (foldl (spec_frame sid) st (observed e m)).
Proof.
  intros Hm Hs Hloc Ha. destruct (observed e m) as [|f fs] eqn:Hobs; [by eapply quiet_step_agrees|].
  destruct e; try done; cbn in Hs, Hobs; simplify_eq.
  - destruct (reader m) eqn:Hr; try done. simplify_eq. cbn. apply handle_frame_agrees; [apply Hm|done|by rewrite Hr].
  - destruct (first m) as [p| |]; try done. simplify_eq. destruct (locked m) eqn:Hl; [done|].
    unfold process_stream_open in Hs. cbn.
    destruct (Z.ltb_spec (zlen p) 5), (Z.leb_spec 5 (zlen p)); try lia; cbn in Hs; simplify_eq; cbn; [done|].
    destruct (Z.eqb_spec (be_value (take 4 p)) sid) as [->|Hne].
    + apply agrees_register. intros c d. by apply locked_false.
    + apply agrees_register_other; [apply Hm|done|done].
Qed.

Lemma run_agrees sid es m m' st :
  mux_wf m → run es m = Some m' → forallb (λ e, negb (local_event sid e)) es = true →
  agrees sid (tbl m) (reader m) st →
  agrees sid (tbl m') (reader m') (foldl (spec_frame sid) st (frames_seen es m)).
Proof.
  revert m st; induction es as [|e es IH]; intros m st Hm Hr Hloc Ha; simpl in *; [by simplify_eq|].
  apply bind_Some in Hr as (m1 & Hs & Hr). apply andb_true_iff in Hloc as [He Hes].
  rewrite Hs, foldl_app. apply (IH m1); [by eapply step_wf|done..|].
  apply step_agrees; [done..| |done]. by apply negb_true_iff.
Qed.

(** ** Lemmas: stream numbers *)

(** The numbers the calls of [open_stream] in a run draw, in order. *)
Fixpoint drawn (es : list event) (m : mux) : list Z :=
  match es with
  | [] => []
  | e :: es =>
      (match e with EOpen _ => [next_stream_id m] | _ => [] end) ++
      match step e m with Some m' => drawn es m' | None => [] end
  end.

Definition is_open_call (e : event) : bool := match e with EOpen _ => true | _ => false end.
Definition open_calls (es : list event) : nat := length (filter (λ e, is_open_call e = true) es).

Lemma hang_up_all_next l m : next_stream_id (foldr (λ s, hang_up (in_recv_rx s)) m l) = next_stream_id m.
Proof. by induction l. Qed.

Lemma step_next e m m' :
  step e m = Some m' →
  next_stream_id m' = if is_open_call e then u32_wrap (next_stream_id m + 2) else next_stream_id m.
Proof.
  intros H. destruct e; cbn [is_open_call]; step_cases H; try done; unfold enqueue, close_begin in *;
    repeat case_match; simplify_eq/=; try done. by rewrite hang_up_all_next.
Qed.

Lemma drawn_spec es m m' a :
  run es m = Some m' → next_stream_id m = u32_wrap a →
  drawn es m = (λ k, u32_wrap (a + 2 * k)) <$> seqZ 0 (Z.of_nat (open_calls es))
  ∧ next_stream_id m' = u32_wrap (a + 2 * Z.of_nat (open_calls es)).
Proof.
  revert m a; induction es as [|e es IH]; intros m a Hr Ha; simpl in *.
  { simplify_eq. cbn. by rewrite Z.add_0_r. }
  apply bind_Some in Hr as (m1 & Hs & Hr). rewrite Hs. pose proof (step_next _ _ _ Hs) as Hn.
  unfold open_calls in *. rewrite filter_cons. destruct (is_open_call e) eqn:He.
  - rewrite decide_True by done. destruct e; try done. cbn [length].
    assert (Hn1 : next_stream_id m1 = u32_wrap (a + 2)).
    { rewrite Hn, Ha. unfold u32_wrap. by rewrite Zplus_mod_idemp_l. }
    destruct (IH m1 (a + 2) Hr Hn1) as [-> ->].
    rewrite (seqZ_cons 0 (Z.of_nat (S _))), fmap_cons by lia. split; [|f_equal; lia].
    cbn [app]. f_equal; [rewrite Ha; f_equal; lia|].
    rewrite Nat2Z.inj_succ, Z.pred_succ. change (Z.succ 0) with (1 + 0).
    rewrite <-(fmap_add_seqZ 1 0), <-list_fmap_compose. apply list_fmap_ext. intros i k _. cbn. f_equal. lia.
  - rewrite decide_False by congruence. destruct e; try done; apply IH; congruence.
Qed.

Lemma u32_parity a k : u32_wrap (a + 2 * k) mod 2 = a mod 2.
Proof.
  unfold u32_wrap. rewrite Z.mod_mod_divide by (by exists (2 ^ 31)).
  by rewrite (Z.mul_comm 2 k), Z_mod_plus_full.
Qed.

Lemma drawn_numbers_NoDup a n :
  (n ≤ 2 ^ 31) → NoDup ((λ k, u32_wrap (a + 2 * k)) <$> seqZ 0 n).
Proof.
  intros Hn. apply NoDup_fmap_2_strong; [|apply NoDup_seqZ].
  intros i j Hi Hj Heq. apply elem_of_seqZ in Hi, Hj.
  unfold u32_wrap in Heq.
  pose proof (Z.div_mod (a + 2 * i) (2 ^ 32) ltac:(lia)). pose proof (Z.div_mod (a + 2 * j) (2 ^ 32) ltac:(lia)).
  assert (2 * (i - j) = 2 ^ 32 * ((a + 2 * i) / 2 ^ 32 - (a + 2 * j) / 2 ^ 32)) by lia.
  lia.
Qed.

(** ** Lemmas: from one side's calls to the other side's channels *)

Definition item_frame (i : WriteItem) : FrameType * list byte := (item_type i, item_payload i).
(** The frames on the wire. *)
Definition wire_frames (o : outq) : list (FrameType * list byte) := item_frame <$> (wire o).*2.

Definition open_item (sid : Z) (class : StreamClass) : WriteItem :=
  {| item_type := FStreamOpen; item_payload := open_payload sid class |}.
Definition data_item (sid : Z) (data : list byte) : WriteItem :=
  {| item_type := FStreamData; item_payload := data_payload sid data |}.

Lemma payload_stream sid rest : 0 ≤ sid < 2 ^ 32 → be_value (take 4 (be_bytes 4 sid ++ rest)) = sid.
Proof.
  intros Hs. rewrite take_app_length' by (by rewrite length_be_bytes). by apply be_value_bytes_small.
Qed.

Lemma spec_frame_other sid st i : item_stream i ≠ sid → spec_frame sid st (item_frame i) = st.
Proof.
  intros Hne. unfold spec_frame, item_frame, item_stream in *. destruct (item_type i); try done;
    apply Z.eqb_neq in Hne; rewrite Hne; by rewrite andb_false_r.
Qed.

(** A stream depends only on its own frames. *)
Lemma spec_stream_items sid st l :
  foldl (spec_frame sid) st (item_frame <$> l)
  = foldl (spec_frame sid) st (item_frame <$> filter (λ i, item_stream i = sid) l).
Proof.
  revert st; induction l as [|i l IH]; intros st; [done|]. cbn [fmap list_fmap foldl]. rewrite filter_cons. case_decide.
  - cbn [fmap list_fmap foldl]. apply IH.
  - rewrite spec_frame_other by done. apply IH.
Qed.

Lemma spec_frame_open sid class st :
  0 ≤ sid < 2 ^ 32 → spec_frame sid st (item_frame (open_item sid class)) = Some [].
Proof.
  intros Hs. cbn. unfold open_payload. rewrite payload_stream, Z.eqb_refl by done.
  by rewrite length_app, !length_be_bytes.
Qed.

Lemma spec_frame_data sid d l :
  0 ≤ sid < 2 ^ 32 → spec_frame sid (Some l) (item_frame (data_item sid d)) = Some (l ++ [d]).
Proof.
  intros Hs. cbn. unfold data_payload. rewrite payload_stream, Z.eqb_refl by done.
  rewrite drop_app_length' by (by rewrite length_be_bytes). rewrite length_app, length_be_bytes.
  destruct (Z.leb_spec 4 (Z.of_nat (4 + length d))); [done|lia].
Qed.

Lemma spec_datas sid ds l :
  0 ≤ sid < 2 ^ 32 →
  foldl (spec_frame sid) (Some l) (item_frame <$> (data_item sid <$> ds)) = Some (l ++ ds).
Proof.
  intros Hs. revert l; induction ds as [|d ds IH]; intros l; [by rewrite app_nil_r|].
  cbn [fmap list_fmap foldl]. rewrite spec_frame_data by done.
  rewrite IH. by rewrite <-app_assoc.
Qed.

(** ** Lemmas: the write task *)

#[local] Arguments frames_bytes : simpl never.

Lemma mux_write_task_fuel_drains fuel o w f :
  tx_alive o = true → rx_alive o = true →
  (length (ctrl_q o) + length (bulk_q o) < fuel)%nat →
  mux_write_task_fuel fuel o (Sink w None f)
  = (Outq [] [] (wire o ++ (pair true <$> ctrl_q o) ++ (pair false <$> bulk_q o)) true true,
     Sink (w ++ frames_bytes (item_frame <$> ctrl_q o ++ bulk_q o)) None f).
Proof.
  destruct o as [cq bq wr tx rx]; cbn; intros -> ->. revert cq bq wr w.
  induction fuel as [|fuel IH]; intros cq bq wr w Hf; [lia|]. cbn [mux_write_task_fuel].
  unfold mux_write_turn, write_pick; cbn. destruct cq as [|i cq]; [destruct bq as [|i bq]|]; cbn in *.
  - by rewrite !app_nil_r.
  - rewrite write_frame_open. unfold log_write; cbn. rewrite IH by (cbn; lia). cbn.
    by rewrite frames_bytes_cons, <-!app_assoc.
  - rewrite write_frame_open. unfold log_write; cbn. rewrite IH by lia. cbn.
    by rewrite frames_bytes_cons, <-!app_assoc.
Qed.

(** ** Lemmas: calls that waited for the table *)

Lemma list_find_elem (sid : Z) l : sid ∈ l → ∃ i, list_find (sid =.) l = Some (i, sid).
Proof.
  intros Hin. destruct (list_find_elem_of (sid =.) l sid Hin eq_refl) as [[i x] Hf].
  exists i. rewrite Hf. by apply list_find_Some in Hf as (_ & <- & _).
Qed.

Lemma close_resume_ready sid m :
  locked m = false → sid ∈ closing m →
  ∃ m', close_resume sid m = Some m' ∧ out m' = out m ∧ tbl m' = deregister sid (tbl m).
Proof.
  intros Hl Hin. unfold close_resume. rewrite Hl. destruct (list_find_elem sid (closing m) Hin) as [i ->].
  cbn. eauto.
Qed.

Lemma open_resume_ready sid m :
  locked m = false → sid ∈ opening m →
  ∃ c m', open_resume sid m = Some (c, m') ∧ out m' = out m ∧ (c, tbl m') = register sid (tbl m).
Proof.
  intros Hl Hin. unfold open_resume. rewrite Hl. destruct (list_find_elem sid (opening m) Hin) as [i ->].
  cbn. eauto.
Qed.

(** ** Lemmas: endings *)

Lemma step_ended e m m' :
  reader m = RDone → first m = FirstEnded → step e m = Some m' → reader m' = RDone ∧ first m' = FirstEnded.
Proof.
  intros Hr Hf H. destruct e; step_cases H; try done; unfold enqueue, close_begin in *;
    repeat case_match; simplify_eq/=; try done.
  by rewrite (proj2 (hang_up_all_frame _ _)), hang_up_all_first.
Qed.

(** Once the read task has ended, an entry this side does not remove stays. *)
Lemma ended_step_entry e m m' sid c :
  mux_wf m → reader m = RDone → local_event sid e = false → first m = FirstEnded →
  step e m = Some m' → streams (tbl m) !! sid = Some c →
  reader m' = RDone ∧ first m' = FirstEnded ∧ streams (tbl m') !! sid = Some c.
Proof.
  intros Hm Hr Hloc Hf Hs Hsid.
  assert (Hrf : reader m' = RDone ∧ first m' = FirstEnded).
  { by eapply step_ended. }
  destruct Hrf as [Hr' Hf']. split_and!; [done..|].
  destruct (step_tbl _ _ _ Hs) as [m' Et Er|sid' m' Er Hl Et Hwhy|sid' m' Er Hl Et ->|f m' _ Hi _|
    c' d ch b ch' m' Hrd _ _ _ _|m' Hq Hq' Et|c' ch o ch' m' Er Hch Hrecv Et|l m' Er _ Et];
    try congruence; rewrite Et.
  - destruct Hwhy as [->|(p & _ & Hp & _)]; [|congruence]. cbn in Hloc |- *. rewrite lookup_insert_ne by lia. done.
  - cbn in Hloc |- *. rewrite lookup_delete_ne by lia. done.
  - done.
  - by rewrite hang_up_list_streams.
Qed.

Lemma ended_run_entry es m m' sid c :
  mux_wf m → reader m = RDone → forallb (λ e, negb (local_event sid e)) es = true → first m = FirstEnded →
  run es m = Some m' → streams (tbl m) !! sid = Some c → mux_wf m' ∧ streams (tbl m') !! sid = Some c.
Proof.
  revert m; induction es as [|e es IH]; intros m Hm Hr Hloc Hf Hrun Hs; simpl in *; [by simplify_eq|].
  apply bind_Some in Hrun as (m1 & H1 & Hrun). apply andb_true_iff in Hloc as [He Hes].
  apply negb_true_iff in He. destruct (ended_step_entry _ _ _ _ _ Hm Hr He Hf H1 Hs) as (? & ? & ?).
  apply (IH m1); try done. by eapply step_wf.
Qed.

(** ** Claims *)


(** The events of the witnesses: two streams of different classes, the bulk one
    sent before and overtaken by the control one. *)
Definition demo_calls : list event :=
  [EOpen Control; EInsert 1; EOpen Bulk; ESend 3 [x01] Bulk; EWrite; ESend 1 [x0a] Control; EInsert 3;
   ESend 3 [x02] Bulk; ESend 1 [x0b] Control; EWrite; EWrite; EWrite; EWrite; EWrite].
Definition demo_peer : list event :=
  [EFirst; ERead (FStreamData, data_payload 1 [x0a]); EFirst; EResume; ERead (FStreamData, data_payload 1 [x0b]);
   ERecv 0; EResume; ERead (FStreamOpen, open_payload 3 Bulk); ETake; EResume;
   ERead (FStreamData, data_payload 3 [x01]); EResume; ERead (FStreamData, data_payload 3 [x02])].
Definition demo_sender : mux := default (new_initiator "a") (run demo_calls (new_initiator "a")).
Definition demo_receiver : mux :=
  default (new_initiator "a") (run demo_peer (new_responder "b" (open_payload 1 Control))).



Definition demo_queued : mux :=
  default (new_initiator "a")
    (run [EOpen Bulk; ESend 1 [x01] Bulk; EOpen Meta; ESend 3 [x02] Meta] (new_initiator "a")).


(** C6: demultiplexing implements its specification.  In every run of a new
    connection, for every stream this side does not itself open or close, the
    table has the stream exactly when the peer's frames leave it open, and its
    channel (unless the consumer hung up) carries exactly the data frames sent
    on it since it was last opened, whatever other frames came in between. *)
Theorem demux_refines p start f es m sid :
  run es (new_inner p start f) = Some m →
  forallb (λ e, negb (local_event sid e)) es = true →
  agrees sid (tbl m) (reader m) (stream_after sid (frames_seen es (new_inner p start f))).
Proof. intros Hr Hl. apply run_agrees; [apply new_inner_wf|done..]. Qed.

Definition demo_reopened : list event :=
  [ERead (FStreamOpen, open_payload 2 Meta); EResume; ERead (FStreamData, data_payload 2 [x01]); EResume;
   ERead (FStreamClose, close_payload 2); ERead (FStreamData, data_payload 2 [x02]);
   ERead (FStreamOpen, open_payload 2 Bulk); EResume; ERead (FPing, []);
   ERead (FStreamData, data_payload 2 [x03]); EResume; ERead (FStreamData, [x00])].

Lemma demux_refines_witness :
  let m := default (new_initiator "a") (run demo_reopened (new_initiator "a")) in
  stream_after 2 (frames_seen demo_reopened (new_initiator "a")) = Some [[x03]]
  ∧ agrees 2 (tbl m) (reader m) (stream_after 2 (frames_seen demo_reopened (new_initiator "a"))).
Proof.
  split; [vm_compute; reflexivity|].
  apply (demux_refines "a" 1 FirstEnded demo_reopened); vm_compute; reflexivity.
Defined.

(** C32: stream numbers.  The numbers the two ends of a connection draw are
    pairwise distinct as long as neither opens more than 2^31 streams: the
    initiator's are odd, the responder's even.  The counter is the 32-bit
    [start + 2 * calls], so the 2^31-st call after one draws its number again. *)
Theorem stream_ids_distinct p q payload es1 m1 es2 m2 :
  run es1 (new_initiator p) = Some m1 → run es2 (new_responder q payload) = Some m2 →
  Z.of_nat (open_calls es1) ≤ 2 ^ 31 → Z.of_nat (open_calls es2) ≤ 2 ^ 31 →
  NoDup (drawn es1 (new_initiator p) ++ drawn es2 (new_responder q payload))
  ∧ next_stream_id m1 = (1 + 2 * Z.of_nat (open_calls es1)) mod 2 ^ 32
  ∧ next_stream_id m2 = (2 + 2 * Z.of_nat (open_calls es2)) mod 2 ^ 32.
Proof.
  intros H1 H2 Hn1 Hn2.
  destruct (drawn_spec _ _ _ 1 H1 eq_refl) as [-> ->], (drawn_spec _ _ _ 2 H2 eq_refl) as [-> ->].
  split; [|done]. apply NoDup_app. split_and!; [by apply drawn_numbers_NoDup| |by apply drawn_numbers_NoDup].
  intros x (k1 & -> & _)%list_elem_of_fmap (k2 & Heq & _)%list_elem_of_fmap.
  pose proof (u32_parity 1 k1) as P1. rewrite Heq, u32_parity in P1. done.
Qed.

Lemma stream_ids_distinct_witness :
  let m1 := default (new_initiator "a") (run [EOpen Bulk; EOpen Meta] (new_initiator "a")) in
  let m2 := default (new_initiator "a") (run [EFirst; EOpen Control] (new_responder "b" [])) in
  NoDup (drawn [EOpen Bulk; EOpen Meta] (new_initiator "a")
         ++ drawn [EFirst; EOpen Control] (new_responder "b" []))
  ∧ next_stream_id m1 = (1 + 2 * Z.of_nat (open_calls [EOpen Bulk; EOpen Meta])) mod 2 ^ 32
  ∧ next_stream_id m2 = (2 + 2 * Z.of_nat (open_calls [EFirst; EOpen Control])) mod 2 ^ 32.
Proof. apply stream_ids_distinct; vm_compute; congruence. Defined.

(** C33: on a socket that takes what it is given, the write task, with the fuel
    of its queues' lengths, empties both: it writes the high-priority items in
    order, then the bulk ones in order, as the frames' bytes, and waits. *)
Theorem write_task_drains o w f :
  tx_alive o = true → rx_alive o = true →
  mux_write_task o (Sink w None f)
  = (Outq [] [] (wire o ++ (pair true <$> ctrl_q o) ++ (pair false <$> bulk_q o)) true true,
     Sink (w ++ frames_bytes (item_frame <$> ctrl_q o ++ bulk_q o)) None f).
Proof. intros Htx Hrx. apply mux_write_task_fuel_drains; [done..|lia]. Qed.

Lemma write_task_drains_witness :
  let o := out demo_queued in
  mux_write_task o (Sink [] None None)
  = (Outq [] [] (wire o ++ (pair true <$> ctrl_q o) ++ (pair false <$> bulk_q o)) true true,
     Sink ([] ++ frames_bytes (item_frame <$> ctrl_q o ++ bulk_q o)) None None).
Proof. apply write_task_drains; reflexivity. Defined.

(** The responder's first stream can lose data.  Its registration runs in
    a task of its own, so the read task may handle the stream's first data frame
    before it: the frame is dropped, and the channel the stream then gets is
    empty, although the peer sent the data after opening the stream. *)
Theorem first_stream_race p class sid data :
  0 ≤ sid < 2 ^ 32 →
  ∃ m, run [ERead (FStreamData, data_payload sid data); EFirst; EFirst]
           (new_responder p (open_payload sid class)) = Some m
  ∧ streams (tbl m) !! sid = Some 0%nat ∧ chans (tbl m) !! 0%nat = Some new_chan ∧ reader m = RIdle.
Proof.
  intros Hs. cbn. unfold data_payload. rewrite payload_stream by done.
  rewrite length_app, length_be_bytes. destruct (Z.ltb_spec (Z.of_nat (4 + length data)) 4); [lia|].
  rewrite lookup_empty. unfold process_stream_open. cbn -[be_bytes take be_value].
  unfold open_payload. rewrite length_app, !length_be_bytes, payload_stream by done. cbn -[be_bytes].
  eexists; split; [done|]. cbn. rewrite !lookup_insert_eq. done.
Qed.

Lemma first_stream_race_witness :
  ∃ m, run [ERead (FStreamData, data_payload 1 [x2a]); EFirst; EFirst]
           (new_responder "b" (open_payload 1 Control)) = Some m
  ∧ streams (tbl m) !! 1 = Some 0%nat ∧ chans (tbl m) !! 0%nat = Some new_chan ∧ reader m = RIdle.
Proof. apply (first_stream_race "b" Control 1 [x2a]). lia. Defined.

(** A stream whose consumer is slow stops the whole connection.  When a
    data frame arrives for a stream with 64 messages queued, the read task waits
    with the table locked: until that consumer receives something, no frame of
    any stream is handled, and no stream can be opened or closed on this side
    either. *)
Theorem full_channel_blocks m sid c ch data m' :
  0 ≤ sid < 2 ^ 32 →
  reader m = RIdle → streams (tbl m) !! sid = Some c → chans (tbl m) !! c = Some ch →
  rx_open ch = true → length (buf ch) = CHAN_CAP →
  step (ERead (FStreamData, data_payload sid data)) m = Some m' →
  (∀ f, step (ERead f) m' = None) ∧ step EResume m' = None
  ∧ (∀ sid', step (EInsert sid') m' = None ∧ step (ERemove sid') m' = None)
  ∧ ∃ m1 m2, step (ERecv c) m' = Some m1 ∧ step EResume m1 = Some m2 ∧ reader m2 = RIdle.
Proof.
  intros Hsid Hi Hs Hch Ho Hfull Hstep. cbn in Hstep. rewrite Hi in Hstep.
  unfold data_payload in Hstep. rewrite payload_stream, length_app, length_be_bytes in Hstep by done.
  destruct (Z.ltb_spec (Z.of_nat (4 + length data)) 4); [lia|]. rewrite Hs in Hstep. simplify_eq.
  assert (Hsend : chan_send (drop 4 (be_bytes 4 sid ++ data)) ch = None).
  { unfold chan_send. by rewrite Ho, Hfull, Nat.ltb_irrefl. }
  split_and!; [done| |done|].
  - cbn [step resume reader set_reader tbl]. by rewrite Hch; cbn [mbind option_bind]; rewrite Hsend.
  - destruct (buf ch) as [|d bs] eqn:Hb; [done|]. cbn [step tbl set_reader].
    rewrite Hch; cbn [mbind option_bind]. rewrite Ho. unfold chan_recv. rewrite Hb. do 2 eexists; split; [done|].
    cbn [step resume reader set_reader set_chan set_tbl tbl chans]. rewrite lookup_insert_eq.
    cbn [mbind option_bind]. unfold chan_send; cbn [rx_open buf]. rewrite Ho.
    assert ((length bs <? CHAN_CAP)%nat = true) as -> by (apply Nat.ltb_lt; cbn [length] in Hfull; lia). done.
Qed.

Definition demo_full : mux :=
  default (new_initiator "a")
    (run (ERead (FStreamOpen, open_payload 2 Bulk) :: EResume ::
          concat (replicate 64 [ERead (FStreamData, data_payload 2 [x01]); EResume])) (new_initiator "a")).

Lemma full_channel_blocks_witness :
  let m' := default demo_full (step (ERead (FStreamData, data_payload 2 [x02])) demo_full) in
  (∀ f, step (ERead f) m' = None) ∧ step EResume m' = None
  ∧ (∀ sid', step (EInsert sid') m' = None ∧ step (ERemove sid') m' = None)
  ∧ ∃ m1 m2, step (ERecv 0) m' = Some m1 ∧ step EResume m1 = Some m2 ∧ reader m2 = RIdle.
Proof.
  apply (full_channel_blocks demo_full 2 0 (Chan (replicate 64 [x01]) [] true true) [x02]);
    [lia|vm_compute; reflexivity..].
Defined.

(** A lost connection is not reported.  After the read task has ended,
    whatever happens later, a stream this side does not close itself keeps its
    table entry and the entry its sender: the consumer's [recv] never returns
    [None], it waits for ever. *)
Theorem lost_connection_unnoticed p start f es0 es m0 m sid c :
  run es0 (new_inner p start f) = Some m0 → first m0 = FirstEnded →
  streams (tbl m0) !! sid = Some c →
  run (EReadFail :: es) m0 = Some m →
  forallb (λ e, negb (local_event sid e)) es = true →
  ∃ ch, chans (tbl m) !! c = Some ch ∧ (chan_recv ch).1 ≠ Done None.
Proof.
  intros H0 Hf Hs Hrun Hloc. cbn [run] in Hrun. apply bind_Some in Hrun as (m1 & H1 & Hrun).
  assert (Hm1 : mux_wf m1) by (eapply step_wf; [by eapply run_wf|done]).
  cbn in H1. destruct (reader m0); try done. simplify_eq.
  destruct (ended_run_entry es (set_reader RDone m0) m sid c) as [Hm Hsid]; try done.
  destruct (twf_entry _ (mwf_table _ Hm) _ _ Hsid) as (ch & Hch & Htx). exists ch. split; [done|].
  unfold chan_recv. rewrite Htx. by destruct (buf ch).
Qed.

Lemma lost_connection_unnoticed_witness :
  let m := default (new_initiator "a")
    (run ([EOpen Control; EInsert 1; EWrite] ++ [EReadFail; ESend 1 [x01] Control; EWriteFail]) (new_initiator "a")) in
  ∃ ch, chans (tbl m) !! 0%nat = Some ch ∧ (chan_recv ch).1 ≠ Done None.
Proof.
  apply (lost_connection_unnoticed "a" 1 FirstEnded [EOpen Control; EInsert 1; EWrite]
    [ESend 1 [x01] Control; EWriteFail]
    (default (new_initiator "a") (run [EOpen Control; EInsert 1; EWrite] (new_initiator "a"))) _ 1);
    vm_compute; reflexivity.
Defined.
