(* ===== verification/Resolver.v ===== *)
(** * Registry resolver and registrar (rust/crates/roboat-resolver/src/lib.rs)

    [Resolver] turns an agent id into a [host:port] through the registry's HTTP
    interface and caches the answers; [Registrar] signs and sends heartbeats.
    reqwest, serde_json, sha2, hex and ed25519-dalek are not part of the
    repository: a request's outcome is an argument, the others are type classes
    or arguments with what their documentation states.

    [Instant]s and [Duration]s are numbers of nanoseconds. *)

From Stdlib Require Import Ascii String.
From S2P Require Import Prelude Text Stream Auth.

(** ** The resolver *)

Inductive ResolveError : Type :=
| ResolveHttp (e : string)
| NotFound (agent_id : string)
| NoEndpoint (agent_id : string)
| NegativeCached.

#[export] Instance ResolveError_eq_dec : EqDecision ResolveError.
Proof. solve_decision. Defined.

Definition resolve_error_string (e : ResolveError) : string :=
  match e with
  | ResolveHttp e => "HTTP error: " +:+ e
  | NotFound a => "Agent not found: " +:+ a
  | NoEndpoint a => "Agent has no tunnel_endpoint: " +:+ a
  | NegativeCached => "Cached as unavailable (try again shortly)"
  end.

Record CacheEntry : Type := {
  value : option string;
  expires : Z;
}.

Record Resolver : Type := {
  registry_url : string;
  cache : gmap string CacheEntry;
}.

(** [Resolver::new] *)
Definition new_resolver (url : string) : Resolver :=
  {| registry_url := trim_end_matches "/"%char url; cache := ∅ |}.

(** What the HTTP client returns: the status, the text of the error reqwest makes
    of a failed one, and the [tunnel_endpoint] of the JSON body or the error of
    decoding it. *)
Record discover_reply : Type := {
  status : Z;
  status_error : string;
  endpoint : result string string;
}.

Definition is_success (status : Z) : bool := (200 <=? status) && (status <? 300).

Definition discover_url (r : Resolver) (agent_id : string) : string :=
  registry_url r +:+ "/v1/discover/agents/" +:+ agent_id.

(** The first critical section of [resolve], at time [now]: [None] is a miss. *)
Definition resolve_cached (agent_id : string) (now : Z) (r : Resolver) : option (result ResolveError string) :=
  entry ← cache r !! agent_id;
  if expires entry >? now then
    Some match value entry with Some ep => Ok ep | None => Err NegativeCached end
  else None.

Definition cache_insert (agent_id : string) (v : option string) (expiry : Z) (r : Resolver) : Resolver :=
  {| registry_url := registry_url r;
     cache := <[agent_id := {| value := v; expires := expiry |}]> (cache r) |}.

(** The rest of [resolve] after a miss, with the answer that arrived, at time
    [now]. *)
Definition resolve_fetched (agent_id : string) (reply : result string discover_reply) (now : Z) (r : Resolver) :
    result ResolveError string * Resolver :=
  match reply with
  | Err e => (Err (ResolveHttp e), r)
  | Ok resp =>
      if status resp =? 404 then
        (Err (NotFound agent_id), cache_insert agent_id None (now + from_secs 5) r)
      else if negb (is_success (status resp)) then (Err (ResolveHttp (status_error resp)), r)
      else
        match endpoint resp with
        | Err e => (Err (ResolveHttp e), r)
        | Ok ep =>
            if is_empty ep then
              (Err (NoEndpoint agent_id), cache_insert agent_id None (now + from_secs 5) r)
            else (Ok ep, cache_insert agent_id (Some ep) (now + from_secs 60) r)
        end
  end.

(** [resolve]: the result, the requests it made, and the resolver. *)
Definition resolve (agent_id : string) (now now' : Z) (get : string → result string discover_reply) (r : Resolver) :
    result ResolveError string * list string * Resolver :=
  match resolve_cached agent_id now r with
  | Some res => (res, [], r)
  | None =>
      let url := discover_url r agent_id in
      let '(res, r) := resolve_fetched agent_id (get url) now' r in (res, [url], r)
  end.

Definition invalidate (agent_id : string) (r : Resolver) : Resolver :=
  {| registry_url := registry_url r; cache := delete agent_id (cache r) |}.

(** ** The registrar *)

Inductive RegisterError : Type :=
| RegisterHttp (e : string)
| InvalidKey (e : string)
| Rejected (status : Z).

#[export] Instance RegisterError_eq_dec : EqDecision RegisterError.
Proof. solve_decision. Defined.

(** The crates the registrar uses: hex, sha2, and serde_json on the heartbeat's
    body. *)
Class RegistrarLibs : Type := {
  hex_crate_decode : string → result string (list byte);
  hex_crate_encode : list byte → string;
  hex_crate_roundtrip bs : hex_crate_decode (hex_crate_encode bs) = Ok bs;
  hex_crate_length bs : String.length (hex_crate_encode bs) = (2 * length bs)%nat;
  sha256 : list byte → list byte;
  sha256_length bs : length (sha256 bs) = 32%nat;
  (** [to_vec(&json!({"tunnel_endpoint": ep, "status": "online"}))] *)
  heartbeat_body : string → list byte;
}.

Record Registrar : Type := {
  reg_url : string;
  reg_agent_id : string;
  signing_key : list byte;
}.

Record heartbeat_request : Type := {
  hb_url : string;
  hb_nonce : string;
  hb_timestamp : string;
  hb_signature : string;
  hb_content : list byte;
}.

Section Registrar.
Context `{ED : !Ed25519, RL : !RegistrarLibs}.

Definition from_seed_hex (url agent_id seed_hex : string) : result RegisterError Registrar :=
  bytes ← result_map_err InvalidKey (hex_crate_decode seed_hex);
  if negb (zlen bytes =? 32) then Err (InvalidKey "need exactly 32 bytes")
  else Ok {| reg_url := trim_end_matches "/"%char url; reg_agent_id := agent_id; signing_key := bytes |}.

(** What a heartbeat signs. *)
Definition heartbeat_message (agent_id nonce : string) (body : list byte) : string :=
  agent_id +:+ nonce +:+ hex_crate_encode (sha256 body).

(** [heartbeat] up to the request, with the nonce drawn and the clock's seconds. *)
Definition heartbeat_send (r : Registrar) (tunnel_endpoint : string) (nonce_bytes : list byte) (ts : Z) :
    heartbeat_request :=
  let body_bytes := heartbeat_body tunnel_endpoint in
  let nonce := hex_crate_encode nonce_bytes in
  let msg := heartbeat_message (reg_agent_id r) nonce body_bytes in
  let sig := ed_sign (signing_key r) (as_bytes msg) in
  {| hb_url := reg_url r +:+ "/v1/agents/" +:+ reg_agent_id r +:+ "/heartbeat";
     hb_nonce := nonce;
     hb_timestamp := decimal ts;
     hb_signature := hex_crate_encode sig;
     hb_content := body_bytes |}.

(** [heartbeat] from the answer on: the status, or reqwest's error. *)
Definition heartbeat_answered (reply : result string Z) : result RegisterError unit :=
  match reply with
  | Err e => Err (RegisterHttp e)
  | Ok status => if negb (is_success status) then Err (Rejected status) else Ok tt
  end.
End Registrar.

(** [start_heartbeat_loop]: the times of the heartbeats up to the [ticks]-th tick
    after the discarded one, counted from the start, and whether the task is still
    running; each heartbeat takes no time.  tokio's [interval] panics on a zero
    period, which ends the task. *)
Definition heartbeat_loop (interval : Z) (ticks : nat) : list Z * bool :=
  if interval =? 0 then ([0], false)
  else (0 :: ((λ k, Z.of_nat k * interval) <$> seq 1 ticks), true).

(** ** Lemmas *)

(** What may happen to a resolver between two lookups: answers being stored, by
    any number of calls, and invalidations. *)
Inductive resolver_op : Type :=
| OpFetched (agent_id : string) (reply : result string discover_reply) (now : Z)
| OpInvalidate (agent_id : string).

Definition resolver_step (r : Resolver) (op : resolver_op) : Resolver :=
  match op with
  | OpFetched a reply now => (resolve_fetched a reply now r).2
  | OpInvalidate a => invalidate a r
  end.

(** What the registry answered, as the cache may remember it: an endpoint, or
    that there is none. *)
Definition answer_of (reply : result string discover_reply) : option (option string) :=
  match reply with
  | Ok resp =>
      if status resp =? 404 then Some None
      else if is_success (status resp) then
        match endpoint resp with
        | Ok ep => Some (if is_empty ep then None else Some ep)
        | Err _ => None
        end
      else None
  | Err _ => None
  end.

Definition ttl (v : option string) : Z :=
  match v with Some _ => from_secs 60 | None => from_secs 5 end.

(** An answer is stored with its time to live, and nothing else is. *)
Lemma fetched_cache a reply now r :
  cache (resolve_fetched a reply now r).2
  = match answer_of reply with
    | Some v => <[a := {| value := v; expires := now + ttl v |}]> (cache r)
    | None => cache r
    end.
Proof.
  unfold resolve_fetched, answer_of. destruct reply as [resp|e]; [|done].
  destruct (status resp =? 404); [done|]. destruct (is_success (status resp)); [|done]. cbn [negb].
  destruct (endpoint resp) as [ep|e]; [|done]. by destruct (is_empty ep).
Qed.

(** Every entry comes from an answer in the history. *)
Definition cache_justified (ops : list resolver_op) (r : Resolver) : Prop :=
  ∀ a e, cache r !! a = Some e →
  ∃ reply now, OpFetched a reply now ∈ ops ∧ answer_of reply = Some (value e) ∧ expires e = now + ttl (value e).

Lemma cache_justified_step ops op r :
  cache_justified ops r → cache_justified (ops ++ [op]) (resolver_step r op).
Proof.
  intros Hj a e. destruct op as [a' reply now|a']; cbn [resolver_step].
  - rewrite fetched_cache. destruct (answer_of reply) as [v|] eqn:Ha.
    + destruct (decide (a = a')) as [->|Hne].
      * rewrite lookup_insert_eq. intros [= <-]. exists reply, now. cbn. set_solver.
      * rewrite lookup_insert_ne by done. intros (rp & n & ? & ?)%Hj. exists rp, n. set_solver.
    + intros (rp & n & ? & ?)%Hj. exists rp, n. set_solver.
  - cbn. rewrite lookup_delete_Some. intros [_ (rp & n & ? & ?)%Hj]. exists rp, n. set_solver.
Qed.

Lemma cache_justified_run ops url : cache_justified ops (foldl resolver_step (new_resolver url) ops).
Proof.
  induction ops as [|op ops IH] using rev_ind; [intros a e; cbn; by rewrite lookup_empty|].
  rewrite foldl_app. by apply cache_justified_step.
Qed.

Lemma fetched_result a reply now r :
  (resolve_fetched a reply now r).1
  = match answer_of reply with
    | Some (Some ep) => Ok ep
    | Some None => Err (match reply with
                        | Ok resp => if status resp =? 404 then NotFound a else NoEndpoint a
                        | Err _ => NotFound a
                        end)
    | None => Err (ResolveHttp (match reply with
                                | Ok resp => if is_success (status resp)
                                             then match endpoint resp with Err e => e | Ok _ => "" end
                                             else status_error resp
                                | Err e => e
                                end))
    end.
Proof.
  unfold resolve_fetched, answer_of. destruct reply as [resp|e]; [|done].
  destruct (status resp =? 404); [done|]. destruct (is_success (status resp)); [|done].
  cbn [negb]. destruct (endpoint resp) as [ep|e]; [|done]. by destruct (is_empty ep).
Qed.

Lemma fetched_url a reply now r : registry_url (resolve_fetched a reply now r).2 = registry_url r.
Proof. unfold resolve_fetched. by repeat case_match. Qed.

Lemma resolver_eq (r1 r2 : Resolver) : registry_url r1 = registry_url r2 → cache r1 = cache r2 → r1 = r2.
Proof. destruct r1, r2; cbn. by intros -> ->. Qed.

(** An entry that has not expired answers without a request. *)
Lemma resolve_hit a v expiry r now now' get :
  cache r !! a = Some {| value := v; expires := expiry |} → now < expiry →
  resolve a now now' get r = (match v with Some ep => Ok ep | None => Err NegativeCached end, [], r).
Proof.
  intros Hc Ht. unfold resolve, resolve_cached. rewrite Hc. cbn.
  destruct (Z.gtb_spec expiry now); [done|lia].
Qed.

(** Strings split at a distance from their end. *)
Lemma sapp_inj_r (s1 s2 t1 t2 : string) :
  String.length t1 = String.length t2 → s1 +:+ t1 = s2 +:+ t2 → s1 = s2 ∧ t1 = t2.
Proof.
  intros Hl. revert s2; induction s1 as [|c s1 IH]; intros [|c' s2] Heq; rewrite ?sapp_cons in *.
  - done.
  - apply (f_equal String.length) in Heq. rewrite slength_app in Heq. cbn in Heq. rewrite ?slength_app in Heq. lia.
  - apply (f_equal String.length) in Heq. rewrite slength_app in Heq. cbn in Heq. rewrite ?slength_app in Heq. lia.
  - injection Heq as -> Heq. by destruct (IH _ Heq) as [-> ->].
Qed.

(** Example crates: they satisfy the laws. *)
Fixpoint toy_hex_decode (s : string) : result string (list byte) :=
  match s with
  | EmptyString => Ok []
  | String a (String b s) => bs ← toy_hex_decode s; Ok (unhex (a, b) :: bs)
  | _ => Err "Odd number of digits"
  end.

Lemma toy_hex_roundtrip bs : toy_hex_decode (hex_encode bs) = Ok bs.
Proof.
  induction bs as [|b bs IH]; [done|]. cbn [hex_encode toy_hex_decode]. rewrite IH.
  cbn [mbind result_bind]. by rewrite <-surjective_pairing, unhex_hex.
Qed.

Definition toy_sha256 (bs : list byte) : list byte := take 32 (bs ++ replicate 32 x00).

Lemma length_toy_sha256 bs : length (toy_sha256 bs) = 32%nat.
Proof. unfold toy_sha256. rewrite length_take, length_app, length_replicate. lia. Qed.

Definition toy_registrar_libs : RegistrarLibs :=
  {| hex_crate_decode := toy_hex_decode; hex_crate_encode := hex_encode;
     hex_crate_roundtrip := toy_hex_roundtrip; hex_crate_length := length_hex_encode;
     sha256 := toy_sha256; sha256_length := length_toy_sha256; heartbeat_body := as_bytes |}.

(** ** Claims *)

(** C34: cached answers are fresh.  After any sequence of stored answers and
    invalidations, by any number of concurrent calls, a lookup that is answered
    from the cache repeats an answer the registry gave for that agent less than 60
    seconds earlier when it is an endpoint, less than 5 seconds earlier when it is
    that there is none; errors of the request are never repeated. *)
Theorem resolve_cached_fresh url ops a now res :
  resolve_cached a now (foldl resolver_step (new_resolver url) ops) = Some res →
  ∃ reply t v, OpFetched a reply t ∈ ops ∧ answer_of reply = Some v ∧ now < t + ttl v
    ∧ res = match v with Some ep => Ok ep | None => Err NegativeCached end.
Proof.
  unfold resolve_cached. intros (e & He & Hres)%bind_Some.
  destruct (Z.gtb_spec (expires e) now) as [Hlt|]; [|done]. injection Hres as <-.
  destruct (cache_justified_run ops url a e He) as (reply & t & Hin & Ha & Hx).
  exists reply, t, (value e). rewrite <-Hx. done.
Qed.

Definition found (ep : string) : result string discover_reply :=
  Ok {| status := 200; status_error := ""; endpoint := Ok ep |}.

Lemma resolve_cached_fresh_witness :
  let ops := [OpFetched "agt_1" (found "10.0.0.1:11411") 0;
              OpFetched "agt_2" (Ok {| status := 404; status_error := ""; endpoint := Err "" |}) 7;
              OpInvalidate "agt_2"] in
  ∃ reply t v, OpFetched "agt_1" reply t ∈ ops ∧ answer_of reply = Some v ∧ from_secs 59 < t + ttl v
    ∧ Ok "10.0.0.1:11411" = match v with Some ep => Ok ep | None => Err NegativeCached end.
Proof.
  intros ops. apply (resolve_cached_fresh "http://reg/" ops "agt_1" (from_secs 59)). vm_compute. reflexivity.
Defined.

(** A miss asks the registry once, at the configured URL, and remembers the
    answer: an endpoint is returned and then served for 60 seconds without a
    request; its absence is an error and then served for 5 seconds; any other
    outcome is an HTTP error and leaves the cache as it was.  Other agents'
    entries are not touched. *)
Theorem resolve_miss a now now' get r res urls r' :
  resolve_cached a now r = None →
  resolve a now now' get r = (res, urls, r') →
  urls = [discover_url r a] ∧ (∀ b, b ≠ a → cache r' !! b = cache r !! b) ∧
  match answer_of (get (discover_url r a)) with
  | Some (Some ep) =>
      res = Ok ep ∧ ∀ t t' get', t < now' + from_secs 60 → resolve a t t' get' r' = (Ok ep, [], r')
  | Some None =>
      (res = Err (NotFound a) ∨ res = Err (NoEndpoint a))
      ∧ ∀ t t' get', t < now' + from_secs 5 → resolve a t t' get' r' = (Err NegativeCached, [], r')
  | None => (∃ e, res = Err (ResolveHttp e)) ∧ r' = r
  end.
Proof.
  unfold resolve at 1. intros -> Hr. pose proof (fetched_cache a (get (discover_url r a)) now' r) as Hc.
  pose proof (fetched_result a (get (discover_url r a)) now' r) as Hv.
  pose proof (fetched_url a (get (discover_url r a)) now' r) as Hu.
  destruct (resolve_fetched _ _ _ _) as [res0 r0]. cbn [fst snd] in *. simplify_eq Hr. intros <- <- <-.
  split; [done|]. split.
  { intros b Hb. rewrite Hc. case_match; [by rewrite lookup_insert_ne|done]. }
  destruct (answer_of _) as [[ep|]|].
  - split; [done|]. intros. eapply (resolve_hit _ (Some ep)); [by rewrite Hc, lookup_insert_eq|done].
  - split; [rewrite Hv; repeat case_match; auto|]. intros.
    eapply (resolve_hit _ None); [by rewrite Hc, lookup_insert_eq|done].
  - split; [by eexists|]. by apply resolver_eq.
Qed.

Lemma resolve_miss_witness :
  let r := new_resolver "https://reg.example//" in
  let get := λ _, found "10.0.0.1:11411" in
  discover_url r "agt_1" = "https://reg.example/v1/discover/agents/agt_1" ∧
  ([discover_url r "agt_1"] = [discover_url r "agt_1"]
   ∧ (∀ b, b ≠ "agt_1" → cache (resolve "agt_1" 0 5 get r).2 !! b = cache r !! b) ∧
   Ok (E := ResolveError) "10.0.0.1:11411" = Ok "10.0.0.1:11411" ∧
   ∀ t t' get', t < 5 + from_secs 60 →
     resolve "agt_1" t t' get' (resolve "agt_1" 0 5 get r).2
     = (Ok "10.0.0.1:11411", [], (resolve "agt_1" 0 5 get r).2)).
Proof.
  intros r get. split; [reflexivity|].
  apply (resolve_miss "agt_1" 0 5 get r (Ok "10.0.0.1:11411") [discover_url r "agt_1"]); reflexivity.
Defined.

(** A heartbeat's signature covers what it should.  The registry, given the
    agent's public key and the request's nonce and body, accepts the signature of
    every heartbeat; and the signed text determines agent, nonce and the body's
    hash, so that a signature cannot be moved to another agent, nonce or body
    (up to the hash) although the text has no separators.  The timestamp header is
    not covered. *)
Theorem heartbeat_signature `{ED : !Ed25519, RL : !RegistrarLibs} r ep nonce_bytes ts agent nonce' body :
  length nonce_bytes = 16%nat → length nonce' = 16%nat →
  let q := heartbeat_send r ep nonce_bytes ts in
  let msg := heartbeat_message (reg_agent_id r) (hb_nonce q) (hb_content q) in
  (∃ sig, hex_crate_decode (hb_signature q) = Ok sig
     ∧ ed_verify (ed_public (signing_key r)) (as_bytes msg) sig = true)
  ∧ (heartbeat_message agent (hex_crate_encode nonce') body = msg →
     agent = reg_agent_id r ∧ hex_crate_encode nonce' = hb_nonce q ∧ sha256 body = sha256 (hb_content q)).
Proof.
  intros Hn Hn' q msg. split.
  { eexists. split; [apply hex_crate_roundtrip|apply ed_sign_verify]. }
  unfold msg, heartbeat_message. intros Heq.
  apply sapp_inj_r in Heq as [Ha Heq];
    [|cbn; by rewrite !slength_app, !hex_crate_length, !sha256_length, Hn, Hn'].
  apply sapp_inj_r in Heq as [Hnonce Hsha]; [|by rewrite !hex_crate_length, !sha256_length].
  split_and!; [done..|]. apply (f_equal hex_crate_decode) in Hsha. rewrite !hex_crate_roundtrip in Hsha.
  by injection Hsha.
Qed.

Lemma heartbeat_signature_witness :
  let RL := toy_registrar_libs in let ED := toy_ed25519 in
  let r := {| reg_url := "http://reg"; reg_agent_id := "agt_1"; signing_key := replicate 32 x07 |} in
  let q := heartbeat_send r "10.0.0.1:11411" (replicate 16 x01) 1700000000 in
  let msg := heartbeat_message (reg_agent_id r) (hb_nonce q) (hb_content q) in
  (∃ sig, hex_crate_decode (hb_signature q) = Ok sig
     ∧ ed_verify (ed_public (signing_key r)) (as_bytes msg) sig = true)
  ∧ (heartbeat_message "agt_" (hex_crate_encode (replicate 16 x11)) [] = msg →
     "agt_" = reg_agent_id r ∧ hex_crate_encode (replicate 16 x11) = hb_nonce q
     ∧ sha256 [] = sha256 (hb_content q)).
Proof.
  intros RL ED r. apply (heartbeat_signature r "10.0.0.1:11411" (replicate 16 x01) 1700000000); reflexivity.
Defined.

(** The registry URL that [DaemonConfig]'s comment gives as an example doubles the
    version in the path. *)
Example documented_registry_url agent_id :
  discover_url (new_resolver "https://reg.robotunnel.io/v1") agent_id
  = "https://reg.robotunnel.io/v1/v1/discover/agents/" +:+ agent_id.
Proof. reflexivity. Qed.
