(* ===== verification/Manager.v ===== *)
(** * The daemon's connection manager (rust/crates/roboat-daemon/src/manager.rs)

    The manager owns the streams of all local agents: the table of streams, the
    pool of multiplexed connections and the tasks that carry a stream's outgoing
    data to its connection.  TCP is the environment: connecting gives an error or
    a connection whose incoming bytes are known ([duplex]); what later arrives is
    an event.

    Every function of the source is a function on [daemon].  The table of streams
    is behind a mutex; [send] holds it while it waits for room in a stream's
    channel ([sending]), and the events of [dstep] that need it cannot happen
    meanwhile. *)

From Stdlib Require Import Ascii String.
From S2P Require Import Prelude Text Stream Protocol Auth Ipc Mux Resolver.

(** ** Errors and configuration *)

Inductive DaemonError : Type :=
| DaemonIo (e : io_error)
| DaemonAuth (e : AuthError)
| DaemonProtocol (e : ProtocolError)
| StreamNotFound (id : Z)
| SendFailed
| Resolve (e : string)
| NoResolver.

#[export] Instance DaemonError_eq_dec : EqDecision DaemonError.
Proof. solve_decision. Defined.

Definition protocol_error_string (e : ProtocolError) : string :=
  match e with
  | Io s => "IO error: " +:+ s
  | InvalidPacket s => "Invalid packet: " +:+ s
  | ConnectionClosed => "Connection closed"
  end.

Definition daemon_error_string (e : DaemonError) : string :=
  match e with
  | DaemonIo (IoError _ s) => "IO error: " +:+ s
  | DaemonAuth e => "Auth error: " +:+ auth_error_string e
  | DaemonProtocol e => "Protocol error: " +:+ protocol_error_string e
  | StreamNotFound id => "Stream " +:+ decimal id +:+ " not found"
  | SendFailed => "Send failed: channel closed"
  | Resolve s => "Resolve error: " +:+ s
  | NoResolver => "No registry URL configured; cannot resolve agent_id"
  end.

Record DaemonConfig : Type := {
  listen_port : Z;
  socket_path : string;
  insecure_allow_any_client : bool;
  auth_seed : list byte;
  config_registry_url : option string;
  use_mux : bool;
  heartbeat_interval_secs : Z;
}.

Definition default_daemon_config : DaemonConfig :=
  {| listen_port := 11411; socket_path := "/var/run/roboat/roboatd.sock";
     insecure_allow_any_client := true; auth_seed := replicate 32 x00;
     config_registry_url := None; use_mux := true; heartbeat_interval_secs := 30 |}.

(** ** State *)

Record IncomingStreamInfo : Type := {
  info_stream_id : Z;
  info_from_agent_id : string;
  info_class : StreamClass;
}.

(** The receiving end of a stream's inbound channel: of a multiplexed
    connection's channel, or of a direct stream's. *)
Inductive rx_ref : Type :=
| RxMux (conn c : nat)
| RxDirect (b : nat).

#[export] Instance rx_ref_eq_dec : EqDecision rx_ref.
Proof. solve_decision. Defined.

(** [data_tx] is the sending end of the channel of task [b]. *)
Record StreamEntry : Type := {
  data_tx : nat;
  recv_rx : option rx_ref;
  entry_class : StreamClass;
  mux_conn : option nat;
}.

(** Where a stream's task sends: to a multiplexed connection, or to the socket
    [run_stream_bridge] owns, with the bytes its pending [read_frame] has taken
    from the socket so far and the channel for inbound data. *)
Inductive bridge_kind : Type :=
| ToMux (conn : nat) (class : StreamClass)
| ToSocket (rd : source) (held : list byte) (wr : sink) (recv : chan).

(** At the top of the loop, waiting for room in the inbound channel, after the
    loop and waiting for a lock, or ended. *)
Inductive bridge_phase : Type :=
| BRunning
| BDelivering (data : list byte)
| BClosing
| BEnded.

#[export] Instance bridge_phase_eq_dec : EqDecision bridge_phase.
Proof. solve_decision. Defined.

Record bridge : Type := Bridge {
  bridge_sid : Z;
  bridge_data : chan;
  bridge_to : bridge_kind;
  phase : bridge_phase;
}.

Record daemon : Type := Daemon {
  config : DaemonConfig;
  d_streams : gmap Z StreamEntry;
  d_next_stream_id : Z;
  announced : list IncomingStreamInfo;
  listener_started : bool;
  listener_up : bool;
  resolver : option Resolver;
  mux_pool : gmap string nat;
  (** The connections and tasks there are, by creation. *)
  conns : gmap nat mux;
  bridges : gmap nat bridge;
  next_name : nat;
  (** A [send] that waits for room, with the table locked. *)
  sending : option (nat * list byte);
  (** Calls of [dial_mux] that have queued a stream's opening frame and wait for
      the table of its connection. *)
  dialing : list (nat * Z * StreamClass);
}.

(** [DaemonManager::new] *)
Definition new_manager (cfg : DaemonConfig) : daemon :=
  {| config := cfg; d_streams := ∅; d_next_stream_id := 1; announced := [];
     listener_started := false; listener_up := false;
     resolver := new_resolver <$> config_registry_url cfg; mux_pool := ∅;
     conns := ∅; bridges := ∅; next_name := 0; sending := None;
     dialing := [] |}.

Definition set_streams (s : gmap Z StreamEntry) (d : daemon) : daemon :=
  Daemon (config d) s (d_next_stream_id d) (announced d) (listener_started d) (listener_up d) (resolver d)
    (mux_pool d) (conns d) (bridges d) (next_name d) (sending d) (dialing d).
Definition bump_next_stream_id (d : daemon) : daemon :=
  Daemon (config d) (d_streams d) (u32_wrap (d_next_stream_id d + 1)) (announced d) (listener_started d)
    (listener_up d) (resolver d) (mux_pool d) (conns d) (bridges d) (next_name d) (sending d) (dialing d).
Definition announce (i : IncomingStreamInfo) (d : daemon) : daemon :=
  Daemon (config d) (d_streams d) (d_next_stream_id d) (announced d ++ [i]) (listener_started d)
    (listener_up d) (resolver d) (mux_pool d) (conns d) (bridges d) (next_name d) (sending d) (dialing d).
Definition set_listener (started up : bool) (d : daemon) : daemon :=
  Daemon (config d) (d_streams d) (d_next_stream_id d) (announced d) started up (resolver d)
    (mux_pool d) (conns d) (bridges d) (next_name d) (sending d) (dialing d).
Definition set_resolver (r : option Resolver) (d : daemon) : daemon :=
  Daemon (config d) (d_streams d) (d_next_stream_id d) (announced d) (listener_started d) (listener_up d) r
    (mux_pool d) (conns d) (bridges d) (next_name d) (sending d) (dialing d).
Definition set_pool (p : gmap string nat) (d : daemon) : daemon :=
  Daemon (config d) (d_streams d) (d_next_stream_id d) (announced d) (listener_started d) (listener_up d)
    (resolver d) p (conns d) (bridges d) (next_name d) (sending d) (dialing d).
Definition set_conns (c : gmap nat mux) (d : daemon) : daemon :=
  Daemon (config d) (d_streams d) (d_next_stream_id d) (announced d) (listener_started d) (listener_up d)
    (resolver d) (mux_pool d) c (bridges d) (next_name d) (sending d) (dialing d).
Definition set_bridges (b : gmap nat bridge) (d : daemon) : daemon :=
  Daemon (config d) (d_streams d) (d_next_stream_id d) (announced d) (listener_started d) (listener_up d)
    (resolver d) (mux_pool d) (conns d) b (next_name d) (sending d) (dialing d).
Definition set_sending (s : option (nat * list byte)) (d : daemon) : daemon :=
  Daemon (config d) (d_streams d) (d_next_stream_id d) (announced d) (listener_started d) (listener_up d)
    (resolver d) (mux_pool d) (conns d) (bridges d) (next_name d) s (dialing d).
Definition set_dialing (l : list (nat * Z * StreamClass)) (d : daemon) : daemon :=
  Daemon (config d) (d_streams d) (d_next_stream_id d) (announced d) (listener_started d) (listener_up d)
    (resolver d) (mux_pool d) (conns d) (bridges d) (next_name d) (sending d) l.
Definition fresh_name (d : daemon) : nat * daemon :=
  (next_name d,
   Daemon (config d) (d_streams d) (d_next_stream_id d) (announced d) (listener_started d) (listener_up d)
     (resolver d) (mux_pool d) (conns d) (bridges d) (S (next_name d)) (sending d) (dialing d)).

(** A new connection or task. *)
Definition spawn_conn (m : mux) (d : daemon) : nat * daemon :=
  let '(n, d) := fresh_name d in (n, set_conns (<[n := m]> (conns d)) d).
Definition spawn_bridge (b : bridge) (d : daemon) : nat * daemon :=
  let '(n, d) := fresh_name d in (n, set_bridges (<[n := b]> (bridges d)) d).

(** ** Dropping what an entry owns *)

Definition on_data (f : chan → chan) (b : bridge) : bridge :=
  Bridge (bridge_sid b) (f (bridge_data b)) (bridge_to b) (phase b).
Definition on_recv (f : chan → chan) (b : bridge) : bridge :=
  match bridge_to b with
  | ToSocket rd held wr recv => Bridge (bridge_sid b) (bridge_data b) (ToSocket rd held wr (f recv)) (phase b)
  | ToMux _ _ => b
  end.

(** A receiving end is dropped. *)
Definition drop_rx_ref (r : rx_ref) (d : daemon) : daemon :=
  match r with
  | RxMux n c => set_conns (alter (hang_up c) n (conns d)) d
  | RxDirect b => set_bridges (alter (on_recv drop_rx) b (bridges d)) d
  end.

(** An entry is dropped: its [data_tx], and its [recv_rx] if nobody took it. *)
Definition drop_stream_entry (e : StreamEntry) (d : daemon) : daemon :=
  let d := set_bridges (alter (on_data drop_tx) (data_tx e) (bridges d)) d in
  match recv_rx e with Some r => drop_rx_ref r d | None => d end.

(** [streams.insert]: the entry that was there is dropped. *)
Definition insert_stream (sid : Z) (e : StreamEntry) (d : daemon) : daemon :=
  let d' := match d_streams d !! sid with Some old => drop_stream_entry old d | None => d end in
  set_streams (<[sid := e]> (d_streams d')) d'.

(** [streams.remove] *)
Definition remove_stream (sid : Z) (d : daemon) : daemon :=
  match d_streams d !! sid with
  | Some old => let d' := drop_stream_entry old d in set_streams (delete sid (d_streams d')) d'
  | None => d
  end.

Definition take_recv_rx (sid : Z) (d : daemon) : option rx_ref * daemon :=
  match d_streams d !! sid with
  | Some e =>
      (recv_rx e,
       set_streams (<[sid := {| data_tx := data_tx e; recv_rx := None; entry_class := entry_class e;
                                mux_conn := mux_conn e |}]> (d_streams d)) d)
  | None => (None, d)
  end.

(** ** Listening *)

(** [start_listener], with what [TcpListener::bind] returns if it is called. *)
Definition start_listener (bind : result io_error unit) (d : daemon) : result DaemonError unit * daemon :=
  if listener_started d then (Ok tt, d)
  else
    let d := set_listener true (listener_up d) d in
    match bind with
    | Ok _ => (Ok tt, set_listener true true d)
    | Err e => (Err (DaemonIo e), d)
    end.

(** Its accept loop ends with the first error of [accept]. *)
Definition accept_failed (d : daemon) : daemon := set_listener (listener_started d) false d.

Section Manager.
Context `{ED : !Ed25519, CM : !CaseMapping}.

(** [start_registry_heartbeat]: the registrar and the endpoint of the loop it
    starts, if it does; [local_ip] is what [detect_local_ip] finds. *)
Definition start_registry_heartbeat `{RL : !RegistrarLibs} (agent_id key_seed_hex : string)
    (explicit_endpoint local_ip : option string) (d : daemon) : option (Registrar * string * Z) :=
  url ← config_registry_url (config d);
  let tunnel_endpoint :=
    default (default "127.0.0.1" local_ip +:+ ":" +:+ decimal (listen_port (config d))) explicit_endpoint in
  r ← result_ok (from_seed_hex url agent_id key_seed_hex);
  Some (r, tunnel_endpoint, from_secs (heartbeat_interval_secs (config d))).

(** ** Inbound connections *)

(** [handle_inbound_relay], from the split connection on. *)
Definition handle_inbound_relay (payload : list byte) (from_agent_id : string) (s : duplex) (d : daemon) :
    outcome DaemonError unit * daemon :=
  if zlen payload <? 5 then (Fail (DaemonProtocol (InvalidPacket "RelayOpen payload too short")), d) else
  let stream_id := be_value (take 4 payload) in
  let class := from_byte (be_value (take 1 (drop 4 payload))) in
  match write_frame FRelayOpenAck payload (wr s) with
  | (Done _, w) =>
      let '(b, d) := spawn_bridge (Bridge stream_id new_chan (ToSocket (rd s) [] w new_chan) BRunning) d in
      let d := insert_stream stream_id
        {| data_tx := b; recv_rx := Some (RxDirect b); entry_class := class; mux_conn := None |} d in
      (Done tt,
       announce {| info_stream_id := stream_id; info_from_agent_id := from_agent_id; info_class := class |} d)
  | (Fail e, _) => (Fail (DaemonProtocol e), d)
  | (Pending, _) => (Pending, d)
  end.

(** [handle_inbound_mux]: what the peer has sent so far is read by the
    connection's read task. *)
Definition handle_inbound_mux (first_open_payload : list byte) (from_agent_id : string) (d : daemon) : daemon :=
  (spawn_conn (new_responder from_agent_id first_open_payload) d).2.

Definition unexpected_first_frame (ft : FrameType) : string :=
  "unexpected first frame: 0x" +:+ hex2 (frame_byte ft).

Definition handle_inbound (nonce : list byte) (s : duplex) (d : daemon) : outcome DaemonError unit * daemon :=
  match server_authenticate (new_authenticator []) nonce s with
  | (Done pub_key_hex, s) =>
      let from_agent_id := String.substring 0 16 pub_key_hex in
      match read_frame (rd s) with
      | (Done (FRelayOpen, payload), r) => handle_inbound_relay payload from_agent_id (Duplex r (wr s)) d
      | (Done (FStreamOpen, payload), _) => (Done tt, handle_inbound_mux payload from_agent_id d)
      | (Done (ft, _), _) => (Fail (DaemonProtocol (InvalidPacket (unexpected_first_frame ft))), d)
      | (Fail e, _) => (Fail (DaemonProtocol e), d)
      | (Pending, _) => (Pending, d)
      end
  | (Fail e, _) => (Fail (DaemonAuth e), d)
  | (Pending, _) => (Pending, d)
  end.

(** [register_mux_incoming] *)
Definition register_mux_incoming (s : IncomingMuxStream) (conn : nat) (d : daemon) : daemon :=
  let stream_id := in_stream_id s in
  let class := in_class s in
  let '(b, d) := spawn_bridge (Bridge stream_id new_chan (ToMux conn class) BRunning) d in
  let d := insert_stream stream_id
    {| data_tx := b; recv_rx := Some (RxMux conn (in_recv_rx s)); entry_class := class; mux_conn := Some conn |} d in
  announce {| info_stream_id := stream_id; info_from_agent_id := in_from_agent_id s; info_class := class |} d.

(** ** Dialing *)

(** [create_mux_conn], with what [TcpStream::connect] gives for an address. *)
Definition create_mux_conn (connect : string → result io_error duplex) (addr : string) (d : daemon) :
    outcome DaemonError nat * daemon :=
  match connect addr with
  | Err e => (Fail (DaemonIo e), d)
  | Ok tcp =>
      match client_authenticate (auth_seed (config d)) tcp with
      | (Done _, _) => let '(n, d) := spawn_conn (new_initiator addr) d in (Done n, d)
      | (Fail e, _) => (Fail (DaemonAuth e), d)
      | (Pending, _) => (Pending, d)
      end
  end.

(** The connection to use for an address: the pool's, or a new one. *)
Definition pooled_conn (connect : string → result io_error duplex) (addr : string) (d : daemon) :
    outcome DaemonError nat * daemon :=
  match mux_pool d !! addr with
  | Some n => (Done n, d)
  | None =>
      match create_mux_conn connect addr d with
      | (Done n, d) => (Done n, set_pool (<[addr := n]> (mux_pool d)) d)
      | (r, d) => (r, d)
      end
  end.

(** [dial_mux] once [open_stream] has returned. *)
Definition dial_finish (n : nat) (stream_id : Z) (class : StreamClass) (d : daemon) : daemon :=
  let '(b, d) := spawn_bridge (Bridge stream_id new_chan (ToMux n class) BRunning) d in
  insert_stream stream_id {| data_tx := b; recv_rx := None; entry_class := class; mux_conn := Some n |} d.

Definition dial_mux (connect : string → result io_error duplex) (addr : string) (class : StreamClass) (d : daemon) :
    outcome DaemonError (Z * rx_ref) * daemon :=
  match pooled_conn connect addr d with
  | (Done n, d) =>
      match conns d !! n with
      | Some m =>
          let '(r, m') := open_stream class m in
          let d := set_conns (<[n := m']> (conns d)) d in
          match r with
          | Done (stream_id, c) => (Done (stream_id, RxMux n c), dial_finish n stream_id class d)
          | Fail _ => (Fail SendFailed, d)
          | Pending => (Pending, set_dialing (dialing d ++ [(n, next_stream_id m, class)]) d)
          end
      | None => (Fail SendFailed, d)
      end
  | (Fail e, d) => (Fail e, d)
  | (Pending, d) => (Pending, d)
  end.

(** A [dial_mux] that waited for its connection's table goes on. *)
Definition dial_resume (i : nat) (d : daemon) : option ((Z * rx_ref) * daemon) :=
  '(n, stream_id, class) ← dialing d !! i;
  m ← conns d !! n;
  '(c, m') ← open_resume stream_id m;
  Some ((stream_id, RxMux n c),
        dial_finish n stream_id class (set_dialing (delete i (dialing d)) (set_conns (<[n := m']> (conns d)) d))).

(** [dial_direct] on the connected socket: the handshake and the opening
    exchange. *)
Definition direct_open (seed : list byte) (stream_id : Z) (class : StreamClass) : io duplex DaemonError unit :=
  io_map_err DaemonAuth (client_authenticate seed);;
  io_map_err DaemonProtocol (on_wr (write_frame FRelayOpen (open_payload stream_id class)));;
  frame ← io_map_err DaemonProtocol (on_rd read_frame);
  if bool_decide (frame.1 = FRelayOpenAck) then mret tt
  else io_fail (DaemonProtocol (InvalidPacket "expected RelayOpenAck")).

Definition dial_direct (connect : string → result io_error duplex) (addr : string) (class : StreamClass) (d : daemon) :
    outcome DaemonError (Z * rx_ref) * daemon :=
  let stream_id := d_next_stream_id d in
  let d := bump_next_stream_id d in
  match connect addr with
  | Err e => (Fail (DaemonIo e), d)
  | Ok tcp =>
      match direct_open (auth_seed (config d)) stream_id class tcp with
      | (Done _, s) =>
          let '(b, d) := spawn_bridge (Bridge stream_id new_chan (ToSocket (rd s) [] (wr s) new_chan) BRunning) d in
          (Done (stream_id, RxDirect b),
           insert_stream stream_id {| data_tx := b; recv_rx := None; entry_class := class; mux_conn := None |} d)
      | (Fail e, _) => (Fail e, d)
      | (Pending, _) => (Pending, d)
      end
  end.

(** [dial], with the clock and the registry's answers for the resolver. *)
Definition dial (connect : string → result io_error duplex) (get : string → result string discover_reply)
    (now now' : Z) (target : string) (class : StreamClass) (d : daemon) :
    outcome DaemonError (Z * rx_ref) * daemon :=
  let dial_resolved addr d :=
    if use_mux (config d) then dial_mux connect addr class d else dial_direct connect addr class d in
  if starts_with "agt_" target then
    match resolver d with
    | Some r =>
        let '(res, _, r) := resolve target now now' get r in
        let d := set_resolver (Some r) d in
        match res with
        | Ok addr => dial_resolved addr d
        | Err e => (Fail (Resolve (resolve_error_string e)), d)
        end
    | None => (Fail NoResolver, d)
    end
  else dial_resolved target d.

(** ** The data path *)

(** [send].  [Pending]: the stream's channel is full; the call waits, holding
    the table's lock. *)
Definition send (sid : Z) (data : list byte) (d : daemon) : outcome DaemonError unit * daemon :=
  match d_streams d !! sid with
  | None => (Fail (StreamNotFound sid), d)
  | Some e =>
      match bridges d !! data_tx e with
      | None => (Fail SendFailed, d)
      | Some b =>
          match chan_send data (bridge_data b) with
          | Some (true, ch) => (Done tt, set_bridges (<[data_tx e := on_data (λ _, ch) b]> (bridges d)) d)
          | Some (false, _) => (Fail SendFailed, d)
          | None => (Pending, set_sending (Some (data_tx e, data)) d)
          end
      end
  end.

(** [close_stream] *)
Definition manager_close_stream (sid : Z) (d : daemon) : daemon := remove_stream sid d.

Definition set_phase (p : bridge_phase) (b : bridge) : bridge :=
  Bridge (bridge_sid b) (bridge_data b) (bridge_to b) p.

(** The loop ends and the task with it: its end of the channel is dropped. *)
Definition end_bridge (b : bridge) : bridge := set_phase BEnded (on_data drop_rx b).

(** One step of the task [dial_mux] and [register_mux_incoming] spawn: a round of
    its loop, or the rest of [close_stream] after it.  [None]: it waits. *)
Definition mux_bridge_turn (b : bridge) (class : StreamClass) (m : mux) : option (bridge * mux) :=
  match phase b with
  | BRunning =>
      match chan_recv (bridge_data b) with
      | (Done (Some data), ch) =>
          let b := on_data (λ _, ch) b in
          match mux_send (bridge_sid b) data class m with
          | (Ok _, m) => Some (b, m)
          | (Err _, m) => Some (set_phase BClosing b, close_call (bridge_sid b) class m)
          end
      | (Done None, _) => Some (set_phase BClosing b, close_call (bridge_sid b) class m)
      | _ => None
      end
  | BClosing => m' ← close_resume (bridge_sid b) m; Some (end_bridge b, m')
  | _ => None
  end.

(** The bytes [run_stream_bridge]'s pending [read_frame] works on. *)
Definition unread (rd : source) (held : list byte) : source := Source (held ++ avail rd) (fin rd).

Definition set_socket (rd : source) (held : list byte) (wr : sink) (recv : chan) (b : bridge) : bridge :=
  Bridge (bridge_sid b) (bridge_data b) (ToSocket rd held wr recv) (phase b).

(** The first branch of the [select!] of [run_stream_bridge]: taking it drops
    the pending [read_frame], with the bytes it holds.  [None]: not ready, or the
    socket has no room for the frame. *)
Definition bridge_outgoing (rd : source) (wr : sink) (recv : chan) (b : bridge) : option bridge :=
  match chan_recv (bridge_data b) with
  | (Done (Some data), ch) =>
      match write_frame FRelayData data wr with
      | (Done _, w) => Some (set_socket rd [] w recv (on_data (λ _, ch) b))
      | (Fail _, w) => Some (set_phase BClosing (set_socket rd [] w recv (on_data (λ _, ch) b)))
      | (Pending, _) => None
      end
  | (Done None, _) => Some (set_phase BClosing (set_socket rd [] (write_frame FRelayClose [] wr).2 recv b))
  | _ => None
  end.

(** The second branch. *)
Definition bridge_incoming (rd : source) (held : list byte) (wr : sink) (recv : chan) (b : bridge) : option bridge :=
  match read_frame (unread rd held) with
  | (Done (FRelayData, data), r) => Some (set_phase (BDelivering data) (set_socket r [] wr recv b))
  | (Done (FRelayClose, _), r) => Some (set_phase BClosing (set_socket r [] wr recv b))
  | (Done _, r) => Some (set_socket r [] wr recv b)
  | (Fail _, r) => Some (set_phase BClosing (set_socket r [] wr recv b))
  | (Pending, _) => None
  end.

(** [recv_tx.send(data).await] *)
Definition bridge_deliver (data : list byte) (rd : source) (held : list byte) (wr : sink) (recv : chan) (b : bridge) :
    option bridge :=
  match chan_send data recv with
  | Some (true, recv) => Some (set_phase BRunning (set_socket rd held wr recv b))
  | Some (false, _) => Some (set_phase BClosing b)
  | None => None
  end.

(** The [select!] is polled and nothing is ready: [read_frame] takes the bytes
    that are there. *)
Definition bridge_poll (rd : source) (held : list byte) (wr : sink) (recv : chan) (b : bridge) : bridge :=
  set_socket (Source [] (fin rd)) (held ++ avail rd) wr recv b.
End Manager.

(** ** Interleavings *)

Inductive devent : Type :=
(** the API, as the IPC server calls it *)
| DListen (bind : result io_error unit)
| DAcceptFail
| DDial (connect : string → result io_error duplex) (get : string → result string discover_reply)
        (now now' : Z) (target : string) (class : StreamClass)
| DDialResume (i : nat)
| DSend (sid : Z) (data : list byte)
| DSendResume
| DClose (sid : Z)
| DTake (sid : Z)
(** an inbound connection, and an announcement of one's connection *)
| DInbound (nonce : list byte) (s : duplex)
| DIncoming (conn : nat)
(** steps of a connection's own tasks *)
| DConn (conn : nat) (e : event)
(** a stream's task takes a step; for a direct stream, by which branch *)
| DBridge (n : nat)
| DOutgoing (n : nat)
| DIncomingFrame (n : nat)
| DPoll (n : nat)
(** the network: bytes arrive for a direct stream's task, its socket breaks *)
| DArrive (n : nat) (bs : list byte)
| DBreak (n : nat) (err : io_error)
(** the holder of a direct stream's receiver receives, or drops it *)
| DRecv (n : nat)
| DDropRx (n : nat).

Section Steps.
Context `{ED : !Ed25519, CM : !CaseMapping}.

Definition set_bridge (n : nat) (b : bridge) (d : daemon) : daemon := set_bridges (<[n := b]> (bridges d)) d.

(** A step of a task that is not the table's: [f] on its state. *)
Definition bridge_step (n : nat) (f : bridge → option bridge) (d : daemon) : option daemon :=
  b ← bridges d !! n; b' ← f b; Some (set_bridge n b' d).

(** Whether the table's lock is free. *)
Definition unlocked (d : daemon) : bool := match sending d with None => true | Some _ => false end.

(** A step at the top of a direct stream's loop. *)
Definition at_loop (f : source → list byte → sink → chan → bridge → option bridge) (b : bridge) : option bridge :=
  match phase b, bridge_to b with
  | BRunning, ToSocket rd held wr recv => f rd held wr recv b
  | _, _ => None
  end.

(** Whether the loop that registers a connection's incoming streams has ended:
    every sender of its channel is gone, and the channel is empty. *)
Definition loop_ended (m : mux) : bool :=
  match reader m, first m, incoming m with RDone, FirstEnded, [] => true | _, _, _ => false end.

(** Whether a task forwards to connection [n]. *)
Definition bridge_on (n : nat) (b : bridge) : bool :=
  match bridge_to b with
  | ToMux n' _ => bool_decide (n' = n) && negb (bool_decide (phase b = BEnded))
  | ToSocket _ _ _ _ => false
  end.

(** Whether a handle on connection [n] is left. *)
Definition conn_held (n : nat) (m : mux) (d : daemon) : bool :=
  negb (loop_ended m)
  || bool_decide (map_Exists (λ _ k, k = n) (mux_pool d))
  || bool_decide (map_Exists (λ _ e, mux_conn e = Some n) (d_streams d))
  || bool_decide (map_Exists (λ _ b, bridge_on n b = true) (bridges d))
  || existsb (λ x, bool_decide (x.1.1 = n)) (dialing d).

(** The steps of a connection's tasks and of its streams' consumers; the calls on
    the connection are the daemon's. *)
Definition own_step (n : nat) (m : mux) (e : event) (d : daemon) : bool :=
  match e with
  | EWrite | EWriteFail | ERead _ | EReadFail | EResume | EFirst | ERecv _ | EDropRx _ => true
  | EDropIncoming => loop_ended m
  | EDropConn => negb (conn_held n m d)
  | EOpen _ | EInsert _ | ESend _ _ _ | EClose _ _ | ERemove _ | ETake => false
  end.

Definition dstep (e : devent) (d : daemon) : option daemon :=
  match e with
  | DListen bind => Some (start_listener bind d).2
  | DAcceptFail => if listener_up d then Some (accept_failed d) else None
  | DDial connect get now now' target class =>
      if unlocked d then Some (dial connect get now now' target class d).2 else None
  | DDialResume i => if unlocked d then snd <$> dial_resume i d else None
  | DSend sid data => if unlocked d then Some (send sid data d).2 else None
  | DSendResume =>
      '(n, data) ← sending d;
      b ← bridges d !! n;
      '(_, ch) ← chan_send data (bridge_data b);
      Some (set_sending None (set_bridge n (on_data (λ _, ch) b) d))
  | DClose sid => if unlocked d then Some (manager_close_stream sid d) else None
  | DTake sid => if unlocked d then Some (take_recv_rx sid d).2 else None
  | DInbound nonce s => if listener_up d && unlocked d then Some (handle_inbound nonce s d).2 else None
  | DIncoming conn =>
      if unlocked d then
        m ← conns d !! conn;
        s ← head (incoming m);
        m' ← step ETake m;
        Some (register_mux_incoming s conn (set_conns (<[conn := m']> (conns d)) d))
      else None
  | DConn conn e =>
      m ← conns d !! conn;
      if own_step conn m e d then m' ← step e m; Some (set_conns (<[conn := m']> (conns d)) d) else None
  | DBridge n =>
      b ← bridges d !! n;
      match bridge_to b with
      | ToMux conn class =>
          m ← conns d !! conn;
          '(b', m') ← mux_bridge_turn b class m;
          Some (set_bridge n b' (set_conns (<[conn := m']> (conns d)) d))
      | ToSocket rd held wr recv =>
          match phase b with
          | BDelivering data => b' ← bridge_deliver data rd held wr recv b; Some (set_bridge n b' d)
          | BClosing =>
              if unlocked d then
                Some (set_bridges (alter (on_recv drop_tx ∘ end_bridge) n (bridges (remove_stream (bridge_sid b) d)))
                        (remove_stream (bridge_sid b) d))
              else None
          | _ => None
          end
      end
  | DOutgoing n => bridge_step n (at_loop (λ rd _ wr recv b, bridge_outgoing rd wr recv b)) d
  | DIncomingFrame n => bridge_step n (at_loop bridge_incoming) d
  | DPoll n =>
      bridge_step n (at_loop (λ rd held wr recv b,
        match (chan_recv (bridge_data b)).1, (read_frame (unread rd held)).1 with
        | Pending, Pending => Some (bridge_poll rd held wr recv b)
        | _, _ => None
        end)) d
  | DArrive n bs =>
      bridge_step n (λ b, match bridge_to b with
                          | ToSocket rd held wr recv =>
                              match fin rd with
                              | Open => Some (set_socket (Source (avail rd ++ bs) Open) held wr recv b)
                              | _ => None
                              end
                          | _ => None
                          end) d
  | DBreak n err =>
      bridge_step n (λ b, match bridge_to b with
                          | ToSocket rd held wr recv =>
                              Some (set_socket (Source (avail rd) (Broken err)) held
                                      (Sink (written wr) (Some 0) (Some err)) recv b)
                          | _ => None
                          end) d
  | DRecv n =>
      bridge_step n (λ b, match bridge_to b with
                          | ToSocket rd held wr recv =>
                              if rx_open recv then
                                match chan_recv recv with
                                | (Pending, _) => None
                                | (_, recv) => Some (set_socket rd held wr recv b)
                                end
                              else None
                          | _ => None
                          end) d
  | DDropRx n =>
      bridge_step n (λ b, match bridge_to b with
                          | ToSocket rd held wr recv => Some (set_socket rd held wr (drop_rx recv) b)
                          | _ => None
                          end) d
  end.

Fixpoint drun (es : list devent) (d : daemon) : option daemon :=
  match es with [] => Some d | e :: es => d' ← dstep e d; drun es d' end.
End Steps.

(** ** Lemmas *)

Section Lemmas.
Context `{ED : !Ed25519, CM : !CaseMapping}.

Lemma drun_invariant (P : daemon → Prop) es d d' :
  (∀ e d1 d2, P d1 → dstep e d1 = Some d2 → P d2) → P d → drun es d = Some d' → P d'.
Proof.
  intros Hstep; revert d; induction es as [|e es IH]; intros d HP Hrun; simpl in Hrun; [by simplify_eq|].
  apply bind_Some in Hrun as (d1 & Hs & Hrun). eauto.
Qed.

(** The client's side of a dial to a server that accepts it. *)
Lemma client_accepted seed nonce rest e w f :
  zlen nonce = NONCE_LEN →
  client_authenticate seed (Duplex (Source (nonce ++ x01 :: rest) e) (Sink w None f))
  = (Done tt, Duplex (Source rest e) (Sink (w ++ ed_public seed ++ ed_sign seed nonce) None f)).
Proof. intros Hn. by rewrite client_authenticate_spec. Qed.

(** *** Forwarding to a multiplexed connection *)

(** The task runs until it waits or ends; [k] bounds its steps. *)
Fixpoint bridge_run (k : nat) (b : bridge) (class : StreamClass) (m : mux) : bridge * mux :=
  match k with
  | O => (b, m)
  | S k => match mux_bridge_turn b class m with
           | Some (b, m) => bridge_run k b class m
           | None => (b, m)
           end
  end.

Definition close_item (sid : Z) : WriteItem := {| item_type := FStreamClose; item_payload := close_payload sid |}.

Lemma mux_send_push sid data class m :
  rx_alive (out m) = true →
  mux_send sid data class m = (Ok tt, set_out (push [(high_priority class, data_item sid data)] (out m)) m).
Proof.
  intros Ha. unfold mux_send. rewrite <-enqueue_push. unfold enqueue. by rewrite Ha.
Qed.

Lemma set_out_twice o o' m : set_out o (set_out o' m) = set_out o m.
Proof. done. Qed.

Lemma push_push l l' o : push l' (push l o) = push (l ++ l') o.
Proof.
  unfold push. destruct (rx_alive o) eqn:Ha; cbn; [|by rewrite Ha]. by rewrite !lane_app, !app_assoc.
Qed.

(** What is queued in a stream's channel goes to the connection's queue, in
    order. *)
Lemma bridge_run_data ds k b class m :
  phase b = BRunning → buf (bridge_data b) = ds → rx_alive (out m) = true →
  bridge_run (length ds + k) b class m
  = bridge_run k (on_data (λ ch, Chan [] (got ch ++ ds) (tx_open ch) (rx_open ch)) b) class
      (set_out (push (pair (high_priority class) <$> (data_item (bridge_sid b) <$> ds)) (out m)) m).
Proof.
  revert b m; induction ds as [|x ds IH]; intros [sid [bf g tx rx] to ph] m Hp Hb Ha; cbn in Hp, Hb; subst.
  - unfold on_data. cbn -[bridge_run push]. rewrite push_nil, app_nil_r. by destruct m.
  - cbn [length Nat.add bridge_run]. unfold mux_bridge_turn; cbn [phase bridge_data chan_recv buf].
    cbn -[bridge_run push mux_send]. rewrite mux_send_push by done. cbn -[bridge_run push].
    rewrite IH; [|done|done|].
    + unfold on_data. cbn -[bridge_run push]. by rewrite push_push, <-app_assoc.
    + cbn. unfold push. by rewrite Ha.
Qed.

(** *** What never comes back *)

Definition dead (m : mux) : Prop := rx_alive (out m) = false.

(** From one state of the daemon to a later one: pooled connections stay pooled,
    a connection whose write task has ended stays so, and once the listener counts
    as started it is as it is. *)
Record evolves (d d' : daemon) : Prop := {
  ev_pool : ∀ a n, mux_pool d !! a = Some n → mux_pool d' !! a = Some n;
  ev_names : (next_name d ≤ next_name d')%nat;
  ev_dead : ∀ n m, (n < next_name d)%nat → conns d !! n = Some m → dead m →
            ∃ m', conns d' !! n = Some m' ∧ dead m';
  ev_listener : listener_started d = true →
                listener_started d' = true ∧ (listener_up d = false → listener_up d' = false);
}.

#[local] Instance evolves_preorder : PreOrder evolves.
Proof.
  split; [split; eauto|]. intros d1 d2 d3 [P1 N1 D1 L1] [P2 N2 D2 L2]. split; [eauto|lia| |].
  - intros n m Hn Hm Hd. destruct (D1 _ _ Hn Hm Hd) as (m2 & Hm2 & Hd2). apply (D2 n m2); [lia|done..].
  - intros Hs. destruct (L1 Hs) as [Hs2 Hu]. destruct (L2 Hs2) as [Hs3 Hu']. eauto.
Qed.

Lemma evolves_same d d' :
  mux_pool d' = mux_pool d → next_name d' = next_name d → conns d' = conns d →
  (listener_started d', listener_up d') = (listener_started d, listener_up d) → evolves d d'.
Proof. intros Hp Hn Hc [= Hs Hu]. split; rewrite ?Hp, ?Hn, ?Hc, ?Hs, ?Hu; eauto. Qed.

Lemma evolves_announce i d : evolves d (announce i d).
Proof. by apply evolves_same. Qed.

Lemma evolves_conn n m m' d :
  conns d !! n = Some m → (dead m → dead m') → evolves d (set_conns (<[n := m']> (conns d)) d).
Proof.
  intros Hm Hd. split; [done|done| |done]. intros k mk Hk Hmk Hdk. cbn.
  destruct (decide (k = n)) as [->|Hne]; [rewrite lookup_insert_eq|rewrite lookup_insert_ne by done]; [|eauto].
  simplify_eq. eauto.
Qed.

Lemma evolves_spawn_conn m d : evolves d (spawn_conn m d).2.
Proof.
  split; cbn; [done|lia| |done]. intros n mn Hn Hm Hd. rewrite lookup_insert_ne by lia. eauto.
Qed.

Lemma evolves_grow d d' :
  mux_pool d' = mux_pool d → next_name d' = S (next_name d) → conns d' = conns d →
  (listener_started d', listener_up d') = (listener_started d, listener_up d) → evolves d d'.
Proof. intros Hp Hn Hc [= Hs Hu]. split; rewrite ?Hp, ?Hn, ?Hc, ?Hs, ?Hu; eauto. Qed.

Lemma evolves_drop_rx r d : evolves d (drop_rx_ref r d).
Proof.
  destruct r as [n c|b]; [|by apply evolves_same]. cbn.
  destruct (conns d !! n) as [m|] eqn:Hm.
  - rewrite (alter_Some_insert _ _ _ m) by done. by eapply evolves_conn.
  - rewrite alter_None_same by done. by apply evolves_same.
Qed.

Lemma evolves_drop_entry e d : evolves d (drop_stream_entry e d).
Proof.
  unfold drop_stream_entry. destruct (recv_rx e); [|by apply evolves_same].
  etrans; [|apply evolves_drop_rx]. by apply evolves_same.
Qed.

Lemma evolves_insert sid e d : evolves d (insert_stream sid e d).
Proof.
  unfold insert_stream. destruct (d_streams d !! sid); [|by apply evolves_same].
  etrans; [apply evolves_drop_entry|by apply evolves_same].
Qed.

Lemma evolves_remove sid d : evolves d (remove_stream sid d).
Proof.
  unfold remove_stream. destruct (d_streams d !! sid); [|done].
  etrans; [apply evolves_drop_entry|by apply evolves_same].
Qed.

Lemma enqueue_dead class i o : rx_alive o = false → rx_alive (enqueue class i o).2 = false.
Proof. intros Ho. unfold enqueue. by rewrite Ho. Qed.

Lemma open_stream_dead class m :
  dead m → ∃ m', open_stream class m = (Fail Disconnected, m') ∧ dead m'.
Proof.
  unfold dead, open_stream, open_begin, enqueue. intros Hd. cbn. rewrite Hd. eexists; split; [done|]. done.
Qed.

Lemma mux_send_dead sid data class m : dead m → dead (mux_send sid data class m).2.
Proof.
  unfold dead, mux_send, enqueue. intros Hd. by rewrite Hd.
Qed.

Lemma close_call_dead sid class m : dead m → dead (close_call sid class m).
Proof. unfold dead, close_call, close_begin. cbn. apply enqueue_dead. Qed.

Lemma step_dead e m m' : step e m = Some m' → dead m → dead m'.
Proof.
  unfold dead. intros Hs Hd. rewrite (step_out _ _ _ Hs).
  assert (Hpush : ∀ l, rx_alive (push l (out m)) = false) by (intros; unfold push; by rewrite Hd).
  destruct e; try apply Hpush; try done.
  unfold write_pick. repeat case_match; simplify_eq/=; done.
Qed.

Lemma evolves_set_pool addr n d :
  mux_pool d !! addr = None → evolves d (set_pool (<[addr := n]> (mux_pool d)) d).
Proof. intros Ha. split; cbn; [|done|eauto|done]. intros a k Hk. rewrite lookup_insert_ne; [done|congruence]. Qed.

Lemma evolves_pooled connect addr d : evolves d (pooled_conn connect addr d).2.
Proof.
  unfold pooled_conn. destruct (mux_pool d !! addr) eqn:Hp; [done|].
  unfold create_mux_conn. destruct (connect addr) as [tcp|e]; [|done].
  destruct (client_authenticate _ _) as [[u|e|] s]; [|done|done].
  etrans; [apply (evolves_spawn_conn (new_initiator addr))|].
  apply (evolves_set_pool addr (next_name d) (spawn_conn (new_initiator addr) d).2 Hp).
Qed.

Lemma evolves_open n m d r m' class :
  conns d !! n = Some m → open_stream class m = (r, m') → evolves d (set_conns (<[n := m']> (conns d)) d).
Proof.
  intros Hm Ho. eapply evolves_conn; [done|]. intros Hd.
  destruct (open_stream_dead class m Hd) as (m2 & Ho' & Hd'). congruence.
Qed.

Lemma evolves_dial_finish n sid class d : evolves d (dial_finish n sid class d).
Proof. unfold dial_finish; cbn. etrans; [|apply evolves_insert]. by apply evolves_grow. Qed.

Lemma open_resume_dead sid m c m' : open_resume sid m = Some (c, m') → dead m → dead m'.
Proof. intros Ho. apply (step_dead (EInsert sid)). cbn. by rewrite Ho. Qed.

Lemma evolves_dial_resume i d x d' : dial_resume i d = Some (x, d') → evolves d d'.
Proof.
  intros ([[n sid] class] & _ & (m & Hm & ([c m'] & Ho & H)%bind_Some)%bind_Some)%bind_Some.
  injection H as _ <-.
  etrans; [eapply evolves_conn; [done|by eapply open_resume_dead]|].
  etrans; [|apply evolves_dial_finish]. by apply evolves_same.
Qed.

Lemma evolves_dial_mux connect addr class d : evolves d (dial_mux connect addr class d).2.
Proof.
  unfold dial_mux. pose proof (evolves_pooled connect addr d) as Hp.
  destruct (pooled_conn connect addr d) as [[n|e|] d1]; [|done|done]. cbn in Hp. etrans; [exact Hp|].
  destruct (conns d1 !! n) as [m|] eqn:Hm; [|done].
  destruct (open_stream class m) as [[[sid c]|e|] m'] eqn:Ho; cbn [snd]; [|by eapply evolves_open|].
  - etrans; [by eapply evolves_open|]. apply evolves_dial_finish.
  - etrans; [by eapply evolves_open|]. by apply evolves_same.
Qed.

Lemma evolves_dial_direct connect addr class d : evolves d (dial_direct connect addr class d).2.
Proof.
  unfold dial_direct. destruct (connect addr) as [tcp|e]; [|by apply evolves_same].
  destruct (direct_open _ _ _ _) as [[u|e|] s]; [|by apply evolves_same..]. cbn.
  etrans; [|apply evolves_insert]. by apply evolves_grow.
Qed.

Lemma evolves_dial connect get now now' target class d :
  evolves d (dial connect get now now' target class d).2.
Proof.
  unfold dial.
  assert (H : ∀ addr d, evolves d (if use_mux (config d) then dial_mux connect addr class d
                                   else dial_direct connect addr class d).2).
  { intros addr d0. destruct (use_mux _); [apply evolves_dial_mux|apply evolves_dial_direct]. }
  destruct (starts_with _ _); [|apply H]. destruct (resolver d) as [r|]; [|done].
  destruct (resolve _ _ _ _ _) as [[[addr|e] u] r']; [|by apply evolves_same].
  etrans; [|apply H]. by apply evolves_same.
Qed.

Lemma evolves_inbound nonce s d : evolves d (handle_inbound nonce s d).2.
Proof.
  unfold handle_inbound. destruct (server_authenticate _ _ _) as [[k|e|] s1]; [|done|done].
  destruct (read_frame _) as [[[ft p]|e|] r]; [|done|done].
  destruct ft; try done; [unfold handle_inbound_relay|apply evolves_spawn_conn].
  destruct (zlen p <? 5); [done|]. destruct (write_frame _ _ _) as [[u|e|] w]; [|done|done]. cbn.
  etrans; [|apply evolves_announce]. etrans; [|apply evolves_insert].
  by apply evolves_grow.
Qed.

Lemma evolves_register s conn d : evolves d (register_mux_incoming s conn d).
Proof.
  unfold register_mux_incoming; cbn. etrans; [|apply evolves_announce]. etrans; [|apply evolves_insert].
  by apply evolves_grow.
Qed.

Lemma evolves_mux_turn b class m b' m' :
  mux_bridge_turn b class m = Some (b', m') → dead m → dead m'.
Proof.
  unfold mux_bridge_turn. intros H Hd. destruct (phase b); try done.
  - destruct (chan_recv _) as [[[x|]| |] ch]; try done.
    + pose proof (mux_send_dead (bridge_sid (on_data (λ _, ch) b)) x class m Hd) as Hd'.
      destruct (mux_send _ _ _ _) as [[|] m1]; simplify_eq; [done|by apply close_call_dead].
    + simplify_eq. by apply close_call_dead.
  - apply bind_Some in H as (m1 & Hc & H). simplify_eq. by apply (step_dead (ERemove (bridge_sid b)) m).
Qed.

Lemma dstep_evolves e d d' : dstep e d = Some d' → evolves d d'.
Proof.
  intros H. destruct e; cbn [dstep] in H; unfold bridge_step in H; try (destruct (unlocked d); [|done]).
  - simplify_eq. unfold start_listener. destruct (listener_started d) eqn:Hl; [done|].
    destruct bind; split; cbn; first [done|congruence|eauto].
  - destruct (listener_up d); simplify_eq. split; cbn; eauto.
  - simplify_eq. apply evolves_dial.
  - destruct (dial_resume i d) as [[x d1]|] eqn:Hd; cbn in H; simplify_eq. by eapply evolves_dial_resume.
  - simplify_eq. unfold send. repeat case_match; first [done|by apply evolves_same].
  - apply bind_Some in H as ([n x] & _ & (b & _ & ([ok ch] & _ & H)%bind_Some)%bind_Some). simplify_eq.
    by apply evolves_same.
  - simplify_eq. apply evolves_remove.
  - simplify_eq. unfold take_recv_rx. case_match; [by apply evolves_same|done].
  - destruct (listener_up d && unlocked d); simplify_eq. apply evolves_inbound.
  - apply bind_Some in H as (m & Hm & (s & _ & (m' & Hs & H)%bind_Some)%bind_Some). simplify_eq.
    etrans; [|apply evolves_register]. eapply evolves_conn; [done|by eapply step_dead].
  - apply bind_Some in H as (m & Hm & H). destruct (own_step _ _ _ _); [|done].
    apply bind_Some in H as (m' & Hs & H). simplify_eq. eapply evolves_conn; [done|by eapply step_dead].
  - apply bind_Some in H as (b & Hb & H). destruct (bridge_to b) as [conn class|].
    + apply bind_Some in H as (m & Hm & ([b' m'] & Ht & H)%bind_Some). simplify_eq.
      etrans; [eapply evolves_conn; [done|by eapply evolves_mux_turn]|by apply evolves_same].
    + destruct (phase b); try done.
      * apply bind_Some in H as (b' & _ & H). simplify_eq. by apply evolves_same.
      * destruct (unlocked d); [|done]. simplify_eq. etrans; [apply evolves_remove|by apply evolves_same].
  - apply bind_Some in H as (b & Hb & (b' & _ & H)%bind_Some). simplify_eq. by apply evolves_same.
  - apply bind_Some in H as (b & Hb & (b' & _ & H)%bind_Some). simplify_eq. by apply evolves_same.
  - apply bind_Some in H as (b & Hb & (b' & _ & H)%bind_Some). simplify_eq. by apply evolves_same.
  - apply bind_Some in H as (b & Hb & (b' & _ & H)%bind_Some). simplify_eq. by apply evolves_same.
  - apply bind_Some in H as (b & Hb & (b' & _ & H)%bind_Some). simplify_eq. by apply evolves_same.
  - apply bind_Some in H as (b & Hb & (b' & _ & H)%bind_Some). simplify_eq. by apply evolves_same.
  - apply bind_Some in H as (b & Hb & (b' & _ & H)%bind_Some). simplify_eq. by apply evolves_same.
Qed.

Lemma drun_evolves es d d' : drun es d = Some d' → evolves d d'.
Proof.
  apply (drun_invariant (evolves d)); [|done]. intros e d1 d2 H1 H2. etrans; [done|by eapply dstep_evolves].
Qed.

(** *** A [send] and a stream's end waiting for each other *)

(** [send] waits with the table locked for room in the channel of a task that has
    left its loop and waits for the lock. *)
Definition wedged (n : nat) (data : list byte) (d : daemon) : Prop :=
  sending d = Some (n, data) ∧
  ∃ b rd held wr recv, bridges d !! n = Some b ∧ phase b = BClosing ∧ bridge_to b = ToSocket rd held wr recv
    ∧ rx_open (bridge_data b) = true ∧ length (buf (bridge_data b)) = CHAN_CAP.

Lemma chan_send_full data ch :
  rx_open ch = true → length (buf ch) = CHAN_CAP → chan_send data ch = None.
Proof. unfold chan_send. intros -> ->. by rewrite Nat.ltb_irrefl. Qed.

Lemma wedged_other n data d k b :
  wedged n data d → k ≠ n → wedged n data (set_bridge k b d).
Proof.
  intros (Hs & b0 & rd & held & wr & recv & Hb & H) Hne. split; [done|].
  exists b0, rd, held, wr, recv. cbn. by rewrite lookup_insert_ne.
Qed.

Lemma wedged_socket n data d b rd held wr recv :
  wedged n data d → bridges d !! n = Some b → wedged n data (set_bridge n (set_socket rd held wr recv b) d).
Proof.
  intros (Hs & b0 & ? & ? & ? & ? & Hb & Hp & _ & Hrx & Hl) Hb'. rewrite Hb in Hb'. injection Hb' as ->. split; [done|].
  exists (set_socket rd held wr recv b), rd, held, wr, recv. cbn. by rewrite lookup_insert_eq.
Qed.

(** A step of task [k] whose outcome on a closing task is at most another
    socket. *)
Lemma wedged_bridge_step n data d d' k f :
  (∀ b rd held wr recv, phase b = BClosing → bridge_to b = ToSocket rd held wr recv →
     ∀ b', f b = Some b' → ∃ rd' held' wr' recv', b' = set_socket rd' held' wr' recv' b) →
  wedged n data d → bridge_step k f d = Some d' → wedged n data d'.
Proof.
  intros Hf Hw H. apply bind_Some in H as (b & Hb & (b' & Hb' & H)%bind_Some). simplify_eq.
  destruct (decide (k = n)) as [->|Hne]; [|by apply wedged_other].
  pose proof Hw as (_ & b0 & rd & held & wr & recv & Hb0 & Hp & Ht & _). rewrite Hb in Hb0. injection Hb0 as <-.
  destruct (Hf _ _ _ _ _ Hp Ht _ Hb') as (? & ? & ? & ? & ->). by apply wedged_socket.
Qed.

Lemma at_loop_closing f b b' : phase b = BClosing → at_loop f b ≠ Some b'.
Proof. unfold at_loop. by intros ->. Qed.

Lemma wedged_step n data e d d' : wedged n data d → dstep e d = Some d' → wedged n data d'.
Proof.
  intros Hw H. pose proof Hw as (Hs & b0 & rd0 & held0 & wr0 & recv0 & Hb0 & Hp & Ht & Hrx & Hl).
  assert (Hu : unlocked d = false) by (unfold unlocked; by rewrite Hs).
  assert (Hloop : ∀ f k, bridge_step k (at_loop f) d = Some d' → wedged n data d').
  { intros f k. apply wedged_bridge_step; [|done]. intros b ???? Hpb _ b' Hb'. by destruct (at_loop_closing _ _ _ Hpb Hb'). }
  destruct e; cbn [dstep] in H; rewrite ?Hu, ?andb_false_r in H; try done; try (by eapply Hloop).
  - simplify_eq. unfold start_listener. destruct (listener_started d); [done|]. by destruct bind.
  - by destruct (listener_up d); simplify_eq.
  - rewrite Hs in H; cbn in H. rewrite Hb0 in H; cbn in H. by rewrite chan_send_full in H.
  - apply bind_Some in H as (m & Hm & H). destruct (own_step _ _ _ _); [|done].
    by apply bind_Some in H as (m' & _ & H); simplify_eq.
  - apply bind_Some in H as (b & Hb & H). destruct (decide (n0 = n)) as [->|Hne].
    + rewrite Hb in Hb0. injection Hb0 as <-. by rewrite Ht, Hp in H.
    + destruct (bridge_to b).
      * apply bind_Some in H as (m & Hm & ([b' m'] & _ & H)%bind_Some). simplify_eq.
        by apply wedged_other.
      * destruct (phase b); try done. apply bind_Some in H as (b' & _ & H). simplify_eq. by apply wedged_other.
  - revert H. apply wedged_bridge_step; [|done]. intros b rd held wr recv _ -> b'.
    destruct (fin rd); [|done..]. intros [= <-]. eauto.
  - revert H. apply wedged_bridge_step; [|done]. intros b rd held wr recv _ -> b' [= <-]. eauto.
  - revert H. apply wedged_bridge_step; [|done]. intros b rd held wr recv _ -> b'. destruct (rx_open recv); [|done].
    destruct (chan_recv recv) as [[] ?]; intros [= <-]; eauto.
  - revert H. apply wedged_bridge_step; [|done]. intros b rd held wr recv _ -> b' [= <-]. eauto.
Qed.

Lemma wedged_run n data es d d' : wedged n data d → drun es d = Some d' → wedged n data d'.
Proof. apply drun_invariant. intros e d1 d2. apply wedged_step. Qed.
End Lemmas.

Lemma open_payload_class sid class :
  0 ≤ sid < 2 ^ 32 →
  be_value (take 4 (open_payload sid class)) = sid
  ∧ from_byte (be_value (take 1 (drop 4 (open_payload sid class)))) = class
  ∧ zlen (open_payload sid class) = 5.
Proof.
  intros Hs. unfold open_payload. rewrite payload_stream by done.
  rewrite drop_app_length' by (by rewrite length_be_bytes).
  rewrite take_ge by (rewrite length_be_bytes; lia).
  rewrite be_value_bytes_small by (destruct class; cbn; lia).
  rewrite from_as_byte, length_app, !length_be_bytes. done.
Qed.

(** Inserting under a free number. *)
Lemma insert_stream_fresh sid e d :
  d_streams d !! sid = None → insert_stream sid e d = set_streams (<[sid := e]> (d_streams d)) d.
Proof. unfold insert_stream. by intros ->. Qed.

Lemma read_open_frame ft sid class rest e :
  0 ≤ sid < 2 ^ 32 →
  read_frame (Source (frame_bytes (ft, open_payload sid class) ++ rest) e)
  = (Done (ft, open_payload sid class), Source rest e).
Proof.
  intros Hs. apply read_frame_app. rewrite (proj2 (proj2 (open_payload_class sid class Hs))). unfold max_frame. lia.
Qed.

Section Claims.
Context `{ED : !Ed25519, CM : !CaseMapping}.

(** What a peer that holds [seed]'s key sends to open a stream directly. *)
Definition dialer_bytes (seed nonce : list byte) (sid : Z) (class : StreamClass) : list byte :=
  ed_public seed ++ ed_sign seed nonce ++ frame_bytes (FRelayOpen, open_payload sid class).
(** What the daemon it dials answers. *)
Definition acceptor_bytes (nonce : list byte) (sid : Z) (class : StreamClass) : list byte :=
  nonce ++ x01 :: frame_bytes (FRelayOpenAck, open_payload sid class).

Lemma direct_open_accepted seed nonce sid class :
  zlen nonce = NONCE_LEN → 0 ≤ sid < 2 ^ 32 →
  direct_open seed sid class (Duplex (Source (acceptor_bytes nonce sid class) Open) (open_sink []))
  = (Done tt, Duplex (Source [] Open) (open_sink (dialer_bytes seed nonce sid class))).
Proof.
  intros Hn Hs. unfold direct_open, acceptor_bytes, open_sink.
  erewrite io_bind_Done by (apply io_map_err_Done, client_accepted, Hn).
  erewrite io_bind_Done by (apply io_map_err_Done; unfold on_wr; cbn [wr rd]; by rewrite write_frame_open).
  erewrite io_bind_Done by (apply io_map_err_Done; unfold on_rd; cbn [wr rd];
    rewrite <-(app_nil_r (frame_bytes _)); by rewrite read_open_frame).
  cbn [fst]. rewrite bool_decide_eq_true_2 by done. unfold dialer_bytes. cbn [app]. by rewrite <-app_assoc.
Qed.

Lemma handle_inbound_signed seed nonce f rest e s d :
  zlen nonce = NONCE_LEN →
  handle_inbound nonce (Duplex (Source (ed_public seed ++ ed_sign seed nonce ++ f ++ rest) e) (open_sink s)) d
  = match read_frame (Source (f ++ rest) e) with
    | (Done (FRelayOpen, payload), r) =>
        handle_inbound_relay payload (String.substring 0 16 (public_key_hex seed))
          (Duplex r (open_sink (s ++ nonce ++ [x01]))) d
    | (Done (FStreamOpen, payload), _) =>
        (Done tt, handle_inbound_mux payload (String.substring 0 16 (public_key_hex seed)) d)
    | (Done (ft, _), _) => (Fail (DaemonProtocol (InvalidPacket (unexpected_first_frame ft))), d)
    | (Fail e, _) => (Fail (DaemonProtocol e), d)
    | (Pending, _) => (Pending, d)
    end.
Proof.
  intros Hn. unfold handle_inbound, open_sink.
  rewrite server_authenticate_spec by apply ed_public_length || apply ed_sign_length.
  rewrite server_verdict_signed, decide_True by (by left). done.
Qed.

(** C18: a direct dial and its acceptance agree.  What the dialing daemon writes
    is what the accepting one has to read, and the reverse; both end up with the
    same stream number and class, a running task on the connection with nothing
    left unread, and the acceptor announces the stream under the first 16
    hexadecimal digits of the dialer's key. *)
Theorem direct_dial_agreement connect addr class nonce d s :
  zlen nonce = NONCE_LEN → 0 ≤ d_next_stream_id d < 2 ^ 32 →
  d_streams d !! d_next_stream_id d = None → d_streams s !! d_next_stream_id d = None →
  connect addr = Ok (Duplex (Source (acceptor_bytes nonce (d_next_stream_id d) class) Open) (open_sink [])) →
  let sid := d_next_stream_id d in
  let seed := auth_seed (config d) in
  (∃ b d', dial_direct connect addr class d = (Done (sid, RxDirect b), d')
     ∧ d_streams d' !! sid = Some {| data_tx := b; recv_rx := None; entry_class := class; mux_conn := None |}
     ∧ bridges d' !! b = Some (Bridge sid new_chan
         (ToSocket (Source [] Open) [] (open_sink (dialer_bytes seed nonce sid class)) new_chan) BRunning)) ∧
  (∃ b s', handle_inbound nonce (Duplex (Source (dialer_bytes seed nonce sid class) Open) (open_sink [])) s
           = (Done tt, s')
     ∧ d_streams s' !! sid
       = Some {| data_tx := b; recv_rx := Some (RxDirect b); entry_class := class; mux_conn := None |}
     ∧ bridges s' !! b = Some (Bridge sid new_chan
         (ToSocket (Source [] Open) [] (open_sink (acceptor_bytes nonce sid class)) new_chan) BRunning)
     ∧ announced s' = announced s ++
         [{| info_stream_id := sid; info_from_agent_id := String.substring 0 16 (public_key_hex seed);
             info_class := class |}]).
Proof.
  intros Hn Hsid Hd Hs Hc sid seed. subst sid seed. split.
  - unfold dial_direct. rewrite Hc. cbn [config bump_next_stream_id]. rewrite direct_open_accepted by done.
    cbn [spawn_bridge fresh_name]. rewrite insert_stream_fresh by done. do 2 eexists. split; [done|].
    cbn. by rewrite !lookup_insert_eq.
  - unfold dialer_bytes. rewrite <-(app_nil_r (frame_bytes _)), handle_inbound_signed by done.
    rewrite read_open_frame by done. unfold handle_inbound_relay.
    destruct (open_payload_class (d_next_stream_id d) class Hsid) as (-> & -> & ->).
    cbn [Z.ltb Z.compare Pos.compare Pos.compare_cont wr rd]. unfold open_sink. rewrite write_frame_open.
    cbn [spawn_bridge fresh_name]. rewrite insert_stream_fresh by done. do 2 eexists. split; [done|].
    cbn. rewrite !lookup_insert_eq. split; [done|]. split; [|done].
    unfold acceptor_bytes. by rewrite <-app_assoc.
Qed.

(** Closing a multiplexed stream loses nothing that was sent before.  The
    stream's task, with [ds] still queued when its sender is dropped, takes
    [length ds + 2] steps to hand [ds] in order and then the close frame to the
    connection's queue of the stream's class, removes the stream from the
    connection's table, and ends. *)
Theorem mux_bridge_flushes b class m ds :
  phase b = BRunning → buf (bridge_data b) = ds → tx_open (bridge_data b) = false →
  rx_alive (out m) = true → locked m = false →
  let sid := bridge_sid b in
  let '(b', m') := bridge_run (length ds + 2) b class m in
  phase b' = BEnded ∧ got (bridge_data b') = got (bridge_data b) ++ ds
  ∧ out m' = push (pair (high_priority class) <$> (data_item sid <$> ds) ++ [close_item sid]) (out m)
  ∧ streams (tbl m') !! sid = None.
Proof.
  intros Hp Hb Htx Ha Hl sid. rewrite bridge_run_data by done.
  destruct b as [sid' [bf g tx rx] to ph]; cbn in Hp, Hb, Htx; subst. cbn [bridge_run].
  unfold mux_bridge_turn at 1, on_data at 1. cbn -[mux_bridge_turn push bridge_run close_call].
  unfold mux_bridge_turn. cbn -[push close_call close_resume].
  destruct (close_resume_ready sid (close_call sid class (set_out
    (push (pair (high_priority class) <$> (data_item sid <$> ds)) (out m)) m))) as (m' & Hc & Ho & Ht);
    [done|cbn; set_solver|].
  subst sid. cbn in Hc. unfold mbind, option_bind. cbn -[push close_call close_resume]. rewrite Hc.
  cbn. rewrite Ho, Ht. split_and!; [done|done| |cbn; by rewrite lookup_delete_eq].
  unfold close_call, close_begin. cbn -[push enqueue]. by rewrite enqueue_push, push_push, fmap_app.
Qed.

(** An address that can be dialed: connecting and the handshake succeed. *)
Definition reaches (connect : string → result io_error duplex) (seed : list byte) (addr : string) : Prop :=
  ∃ tcp s, connect addr = Ok tcp ∧ client_authenticate seed tcp = (Done tt, s).

Lemma dial_mux_new connect addr class d :
  reaches connect (auth_seed (config d)) addr → mux_pool d !! addr = None →
  dial_mux connect addr class d
  = let n := next_name d in
    let '(r, m) := open_stream class (new_initiator addr) in
    let d1 := set_pool (<[addr := n]> (mux_pool d)) (spawn_conn m d).2 in
    let d2 := (spawn_bridge (Bridge 1 new_chan (ToMux n class) BRunning) d1).2 in
    (Done (1, RxMux n 0),
     insert_stream 1 {| data_tx := S n; recv_rx := None; entry_class := class; mux_conn := Some n |} d2).
Proof.
  intros (tcp & s & Hc & Ha) Hp. unfold dial_mux, pooled_conn. rewrite Hp. unfold create_mux_conn.
  rewrite Hc, Ha. cbn [spawn_conn fresh_name]. cbn [conns set_pool set_conns]. rewrite lookup_insert_eq.
  destruct (open_stream class (new_initiator addr)) as [r m] eqn:Ho.
  assert (r = Done (1, 0%nat)) as ->. { by destruct class; vm_compute in Ho; simplify_eq. }
  unfold dial_finish, set_conns, set_pool, spawn_bridge, fresh_name. cbn. by rewrite insert_insert_eq.
Qed.

(** Stream numbers of different connections collide.  Every multiplexed
    connection numbers the streams it opens 1, 3, ...; the table of streams has one
    entry per number.  While an agent has stream 1 to a peer, a dial to a peer not
    yet connected returns number 1 again and takes the entry's place: the first
    stream's task finds its sender gone and next queues a close frame to the first
    peer, and what the agent sends on 1 goes to the second peer. *)
Theorem mux_dial_collision connect addr class d e b n c m data :
  d_streams d !! 1 = Some e → recv_rx e = None →
  bridges d !! data_tx e = Some b → b = Bridge 1 new_chan (ToMux n c) BRunning →
  conns d !! n = Some m → rx_alive (out m) = true →
  (n < next_name d)%nat → (data_tx e < next_name d)%nat →
  mux_pool d !! addr = None → reaches connect (auth_seed (config d)) addr →
  ∃ rx d1, dial_mux connect addr class d = (Done (1, rx), d1)
  ∧ (∃ d2 m2, dstep (DBridge (data_tx e)) d1 = Some d2 ∧ conns d2 !! n = Some m2
       ∧ out m2 = push [(high_priority c, close_item 1)] (out m))
  ∧ (∃ d3 b3, send 1 data d1 = (Done tt, d3) ∧ bridges d3 !! S (next_name d) = Some b3
       ∧ buf (bridge_data b3) = [data] ∧ bridge_to b3 = ToMux (next_name d) class
       ∧ mux_pool d3 !! addr = Some (next_name d)).
Proof.
  intros He Hr Hb -> Hm Ha Hn Hbn Hp Hreach. rewrite dial_mux_new by done.
  destruct (open_stream class (new_initiator addr)) as [r m1]. cbv zeta.
  set (new := Bridge 1 new_chan (ToMux (next_name d) class) BRunning).
  do 2 eexists. split; [done|].
  match goal with |- context [dstep _ ?x] => set (d1 := x) end.
  assert (Hd1 : bridges d1 = alter (on_data drop_tx) (data_tx e) (<[S (next_name d) := new]> (bridges d))
    ∧ d_streams d1 !! 1 = Some {| data_tx := S (next_name d); recv_rx := None; entry_class := class;
                                  mux_conn := Some (next_name d) |}
    ∧ conns d1 !! n = Some m ∧ mux_pool d1 !! addr = Some (next_name d)).
  { subst d1. unfold insert_stream, drop_stream_entry. cbn -[lookup insert alter]. rewrite He, Hr.
    cbn -[lookup insert alter]. rewrite !lookup_insert_eq, lookup_insert_ne by lia. done. }
  clearbody d1. destruct Hd1 as (Hbr & Hst & Hc1 & Hpool). split.
  - cbn [dstep]. rewrite Hbr, lookup_alter_eq, lookup_insert_ne, Hb by lia. cbn [fmap option_fmap option_map mbind option_bind].
    cbn [bridge_to on_data]. rewrite Hc1. cbn [mbind option_bind]. unfold mux_bridge_turn. cbn -[enqueue].
    do 2 eexists. split; [done|]. cbn -[enqueue]. rewrite lookup_insert_eq. split; [done|]. cbn -[enqueue].
    by rewrite enqueue_push.
  - unfold send. rewrite Hst. cbn [data_tx]. rewrite Hbr, lookup_alter_ne, lookup_insert_eq by lia. cbn.
    do 2 eexists. split; [done|]. cbn. by rewrite lookup_insert_eq.
Qed.

(** A connection that has died is used for ever.  Once the write task of a
    pooled connection has ended, every later dial to its address fails with
    [SendFailed], whatever happens in between and however reachable the peer is
    again: nothing removes a connection from the pool. *)
Theorem dead_connection_kept d n m addr es d' connect class :
  mux_pool d !! addr = Some n → conns d !! n = Some m → rx_alive (out m) = false → (n < next_name d)%nat →
  drun es d = Some d' → (dial_mux connect addr class d').1 = Fail SendFailed.
Proof.
  intros Hp Hm Hd Hn Hrun. pose proof (drun_evolves _ _ _ Hrun) as [Ep _ Ed _].
  unfold dial_mux, pooled_conn. rewrite (Ep _ _ Hp).
  destruct (Ed _ _ Hn Hm Hd) as (m' & -> & Hd').
  by destruct (open_stream_dead class m' Hd') as (m2 & -> & _).
Qed.

(** Inbound connections are not restricted.  Whatever the configuration says,
    [insecure_allow_any_client = false] included, a peer with any key pair that
    signs the nonce and opens a stream is accepted. *)
Theorem inbound_accepts_any_key d seed nonce payload rest e :
  zlen nonce = NONCE_LEN → zlen payload ≤ max_frame →
  handle_inbound nonce
    (Duplex (Source (ed_public seed ++ ed_sign seed nonce ++ frame_bytes (FStreamOpen, payload) ++ rest) e)
            (open_sink [])) d
  = (Done tt, (spawn_conn (new_responder (String.substring 0 16 (public_key_hex seed)) payload) d).2).
Proof. intros Hn Hp. rewrite handle_inbound_signed by done. by rewrite read_frame_app. Qed.

(** A stream's end can stop the daemon.  If [send] waits for room in the
    channel of a direct stream (it holds the table's lock) while that stream's
    task has left its loop, on a socket error or the peer's close, and waits for
    the lock to remove the stream, neither ever continues: after any further
    events they still wait, and no dial, send, close, inbound stream or claim of a
    stream can happen again. *)
Theorem send_close_deadlock d n b rd held wr recv data es d' :
  sending d = Some (n, data) → bridges d !! n = Some b → phase b = BClosing →
  bridge_to b = ToSocket rd held wr recv → rx_open (bridge_data b) = true →
  length (buf (bridge_data b)) = CHAN_CAP →
  drun es d = Some d' →
  dstep DSendResume d' = None ∧ dstep (DBridge n) d' = None
  ∧ (∀ sid x, dstep (DSend sid x) d' = None ∧ dstep (DClose sid) d' = None ∧ dstep (DTake sid) d' = None)
  ∧ (∀ connect get t t' target class, dstep (DDial connect get t t' target class) d' = None) ∧ (∀ i, dstep (DDialResume i) d' = None)
  ∧ (∀ nonce s, dstep (DInbound nonce s) d' = None) ∧ (∀ c, dstep (DIncoming c) d' = None).
Proof.
  intros Hs Hb Hp Ht Hrx Hl Hrun.
  assert (Hw : wedged n data d').
  { eapply wedged_run; [|done]. split; [done|]. by exists b, rd, held, wr, recv. }
  destruct Hw as (Hs' & b' & rd' & held' & wr' & recv' & Hb' & Hp' & Ht' & Hrx' & Hl').
  assert (Hu : unlocked d' = false) by (unfold unlocked; by rewrite Hs').
  split_and!; intros; cbn [dstep]; rewrite ?Hu, ?andb_false_r; try done.
  - rewrite Hs'; cbn. rewrite Hb'; cbn. by rewrite chan_send_full.
  - rewrite Hb'; cbn. by rewrite Ht', Hp'.
Qed.

Lemma bridge_step_at n f d b b' :
  bridges d !! n = Some b → f b = Some b' → bridge_step n f d = Some (set_bridge n b' d).
Proof. unfold bridge_step. intros -> Hf. cbn. by rewrite Hf. Qed.

Lemma set_bridge_lookup n b d : bridges (set_bridge n b d) !! n = Some b.
Proof. apply lookup_insert_eq. Qed.

Lemma drun_cons e es d d1 : dstep e d = Some d1 → drun (e :: es) d = drun es d1.
Proof. cbn [drun]. by intros ->. Qed.

(** Sending on a direct stream can destroy what is being received on it.
    The task waits for outgoing data and for a frame at once, and drops the
    pending [read_frame] when data comes first.  If the first part [p] of a frame
    has arrived and been taken by then, it is gone: without a send, the rest [q]
    completes the frame and its data is delivered; with one, the task goes on
    reading at [q], in the middle of the frame. *)
Theorem partial_frame_lost d n e sid recv w f p q x y :
  frame_bytes (FRelayData, x) = p ++ q → q ≠ [] → zlen x ≤ max_frame →
  bridges d !! n = Some (Bridge sid new_chan (ToSocket (Source p Open) [] (Sink w None f) recv) BRunning) →
  d_streams d !! sid = Some e → data_tx e = n → sending d = None →
  (∃ d1 b1, drun [DPoll n; DArrive n q; DIncomingFrame n] d = Some d1
     ∧ bridges d1 !! n = Some b1 ∧ phase b1 = BDelivering x
     ∧ bridge_to b1 = ToSocket (Source [] Open) [] (Sink w None f) recv) ∧
  (∃ d2 b2, drun [DPoll n; DSend sid y; DOutgoing n; DArrive n q] d = Some d2
     ∧ bridges d2 !! n = Some b2 ∧ phase b2 = BRunning
     ∧ bridge_to b2 = ToSocket (Source q Open) [] (Sink (w ++ frame_bytes (FRelayData, y)) None f) recv).
Proof.
  intros Hf Hq Hx Hb He Hdt Hs.
  assert (Hfull : read_frame (Source (p ++ q) Open) = (Done (FRelayData, x), Source [] Open)).
  { rewrite <-Hf, <-(app_nil_r (frame_bytes _)). by apply read_frame_app. }
  assert (Hpart : read_frame (Source p Open) = (Pending, Source [] Open)).
  { rewrite (parser_prefix from_io_error read_frame p q (FRelayData, x) Open); [done| |done].
    rewrite <-Hf, <-(app_nil_r (frame_bytes _)). by apply read_frame_app. }
  set (polled := Bridge sid new_chan (ToSocket (Source [] Open) p (Sink w None f) recv) BRunning).
  assert (Hpoll : dstep (DPoll n) d = Some (set_bridge n polled d)).
  { apply (bridge_step_at _ _ _ _ _ Hb). cbn [at_loop phase bridge_to]. unfold unread; cbn [avail fin app].
    by rewrite Hpart. }
  split; rewrite (drun_cons _ _ _ _ Hpoll).
  - erewrite drun_cons by (cbn [dstep]; eapply bridge_step_at; [apply set_bridge_lookup|reflexivity]).
    erewrite drun_cons.
    2:{ cbn [dstep]. eapply bridge_step_at; [apply set_bridge_lookup|].
        unfold set_socket; cbn -[read_frame]. unfold bridge_incoming, unread; cbn -[read_frame]. by rewrite Hfull. }
    do 2 eexists. split; [done|]. by rewrite set_bridge_lookup.
  - set (busy := Bridge sid (Chan [y] [] true true) (ToSocket (Source [] Open) p (Sink w None f) recv) BRunning).
    assert (Hsend : dstep (DSend sid y) (set_bridge n polled d) = Some (set_bridge n busy (set_bridge n polled d))).
    { cbn [dstep]. unfold unlocked, send. cbn [sending set_bridge set_bridges d_streams]. rewrite Hs, He, Hdt.
      cbn [bridges set_bridge set_bridges]. by rewrite lookup_insert_eq. }
    rewrite (drun_cons _ _ _ _ Hsend). erewrite drun_cons.
    2:{ cbn [dstep]. eapply bridge_step_at; [apply set_bridge_lookup|].
        cbn -[write_frame]. unfold bridge_outgoing. cbn -[write_frame]. by rewrite write_frame_open. }
    erewrite drun_cons by (cbn [dstep]; eapply bridge_step_at; [apply set_bridge_lookup|reflexivity]).
    do 2 eexists. split; [done|]. by rewrite set_bridge_lookup.
Qed.

(** A failed [listen] makes every later one succeed without listening.  The
    listener counts as started before the port is bound; when binding fails, the
    error is returned once, and from then on [start_listener] returns [Ok] and no
    listener runs. *)
Theorem failed_listen_sticks d err bind es d' :
  listener_started d = false → listener_up d = false →
  drun es (start_listener (Err err) d).2 = Some d' →
  (start_listener (Err err) d).1 = Err (DaemonIo err)
  ∧ start_listener bind d' = (Ok tt, d') ∧ listener_up d' = false.
Proof.
  intros Hst Hup Hrun. pose proof (ev_listener _ _ (drun_evolves _ _ _ Hrun)) as Hl.
  unfold start_listener in *. rewrite Hst in *. cbn in Hl. destruct (Hl eq_refl) as [-> Hup']. auto.
Qed.
End Claims.

(** ** Witnesses *)

Section Witnesses.
#[local] Existing Instance toy_ed25519.
#[local] Existing Instance ascii_case_mapping.

Definition direct_config : DaemonConfig :=
  {| listen_port := 11411; socket_path := "/tmp/roboatd.sock"; insecure_allow_any_client := false;
     auth_seed := replicate 32 x00; config_registry_url := None; use_mux := false; heartbeat_interval_secs := 30 |}.

Definition accepting (addr : string) : result io_error duplex :=
  Ok (Duplex (Source (acceptor_bytes toy_nonce 1 Meta) Open) (open_sink [])).

Lemma direct_dial_agreement_witness :
  let d := new_manager direct_config in
  let s := new_manager default_daemon_config in
  let seed := auth_seed (config d) in
  (∃ b d', dial_direct accepting "10.0.0.1:11411" Meta d = (Done (1, RxDirect b), d')
     ∧ d_streams d' !! 1 = Some {| data_tx := b; recv_rx := None; entry_class := Meta; mux_conn := None |}
     ∧ bridges d' !! b = Some (Bridge 1 new_chan
         (ToSocket (Source [] Open) [] (open_sink (dialer_bytes seed toy_nonce 1 Meta)) new_chan) BRunning)) ∧
  (∃ b s', handle_inbound toy_nonce (Duplex (Source (dialer_bytes seed toy_nonce 1 Meta) Open) (open_sink [])) s
           = (Done tt, s')
     ∧ d_streams s' !! 1
       = Some {| data_tx := b; recv_rx := Some (RxDirect b); entry_class := Meta; mux_conn := None |}
     ∧ bridges s' !! b = Some (Bridge 1 new_chan
         (ToSocket (Source [] Open) [] (open_sink (acceptor_bytes toy_nonce 1 Meta)) new_chan) BRunning)
     ∧ announced s' = announced s ++
         [{| info_stream_id := 1; info_from_agent_id := String.substring 0 16 (public_key_hex seed);
             info_class := Meta |}]).
Proof.
  intros d s. apply (direct_dial_agreement accepting "10.0.0.1:11411" Meta toy_nonce d s); try reflexivity.
  cbn. lia.
Defined.

Lemma mux_bridge_flushes_witness :
  let b := Bridge 1 (Chan [[x01]; [x02]] [[x00]] false true) (ToMux 0 Bulk) BRunning in
  let m := (open_stream Bulk (new_initiator "a")).2 in
  let '(b', m') := bridge_run (2 + 2) b Bulk m in
  phase b' = BEnded ∧ got (bridge_data b') = got (bridge_data b) ++ [[x01]; [x02]]
  ∧ out m' = push (pair (high_priority Bulk) <$> (data_item 1 <$> [[x01]; [x02]]) ++ [close_item 1]) (out m)
  ∧ streams (tbl m') !! 1 = None.
Proof. intros b m. apply (mux_bridge_flushes b Bulk m [[x01]; [x02]]); reflexivity. Defined.

Definition mux_accepting (addr : string) : result io_error duplex :=
  Ok (Duplex (Source (toy_nonce ++ [x01]) Open) (open_sink [])).

Definition once_dialed : daemon :=
  (dial mux_accepting (λ _, Err "") 0 0 "10.0.0.1:11411" Bulk (new_manager default_daemon_config)).2.

Lemma mux_dial_collision_witness :
  ∃ rx d1, dial_mux mux_accepting "10.0.0.2:11411" Control once_dialed = (Done (1, rx), d1)
  ∧ (∃ d2 m2, dstep (DBridge 1) d1 = Some d2 ∧ conns d2 !! 0%nat = Some m2
       ∧ out m2 = push [(false, close_item 1)] (out (open_stream Bulk (new_initiator "10.0.0.1:11411")).2))
  ∧ (∃ d3 b3, send 1 [x2a] d1 = (Done tt, d3) ∧ bridges d3 !! 3%nat = Some b3
       ∧ buf (bridge_data b3) = [[x2a]] ∧ bridge_to b3 = ToMux 2 Control
       ∧ mux_pool d3 !! "10.0.0.2:11411" = Some 2%nat).
Proof.
  apply (mux_dial_collision mux_accepting "10.0.0.2:11411" Control once_dialed
    {| data_tx := 1; recv_rx := None; entry_class := Bulk; mux_conn := Some 0%nat |}
    (Bridge 1 new_chan (ToMux 0 Bulk) BRunning) 0 Bulk
    (open_stream Bulk (new_initiator "10.0.0.1:11411")).2 [x2a]);
    try (vm_compute; reflexivity); try (vm_compute; lia).
  exists (Duplex (Source (toy_nonce ++ [x01]) Open) (open_sink [])). eexists.
  split; [reflexivity|vm_compute; reflexivity].
Defined.

Definition dead_pool : daemon := default once_dialed (dstep (DConn 0 EWriteFail) once_dialed).

Lemma dead_connection_kept_witness :
  (dial_mux mux_accepting "10.0.0.1:11411" Control
     (default dead_pool (drun [DClose 1; DBridge 1; DListen (Ok tt)] dead_pool))).1 = Fail SendFailed.
Proof.
  eapply (dead_connection_kept dead_pool 0 _ "10.0.0.1:11411" [DClose 1; DBridge 1; DListen (Ok tt)]);
    [vm_compute; reflexivity..|vm_compute; lia|vm_compute; reflexivity].
Defined.

Lemma inbound_accepts_any_key_witness :
  handle_inbound toy_nonce
    (Duplex (Source (ed_public [x2a] ++ ed_sign [x2a] toy_nonce
                     ++ frame_bytes (FStreamOpen, open_payload 1 Control) ++ []) Open) (open_sink []))
    (new_manager direct_config)
  = (Done tt, (spawn_conn (new_responder (String.substring 0 16 (public_key_hex [x2a])) (open_payload 1 Control))
                 (new_manager direct_config)).2).
Proof. apply inbound_accepts_any_key; vm_compute; congruence. Defined.

(** A direct stream whose agent has sent 64 messages the task has not taken yet;
    the socket breaks, the task leaves its loop, and the agent sends once more. *)
Definition jam : list devent :=
  DDial accepting (λ _, Err "") 0 0 "10.0.0.1:11411" Meta :: replicate 64 (DSend 1 [x01])
  ++ [DBreak 0 (IoError (OtherKind "ConnectionReset") "connection reset by peer"); DIncomingFrame 0; DSend 1 [x02]].
Definition jammed : daemon := default (new_manager direct_config) (drun jam (new_manager direct_config)).

Lemma send_close_deadlock_witness :
  drun jam (new_manager direct_config) = Some jammed ∧
  let d' := default jammed (drun [DListen (Ok tt)] jammed) in
  dstep DSendResume d' = None ∧ dstep (DBridge 0) d' = None
  ∧ (∀ sid x, dstep (DSend sid x) d' = None ∧ dstep (DClose sid) d' = None ∧ dstep (DTake sid) d' = None)
  ∧ (∀ connect get t t' target class, dstep (DDial connect get t t' target class) d' = None) ∧ (∀ i, dstep (DDialResume i) d' = None)
  ∧ (∀ nonce s, dstep (DInbound nonce s) d' = None) ∧ (∀ c, dstep (DIncoming c) d' = None).
Proof.
  split; [vm_compute; reflexivity|].
  eapply (send_close_deadlock jammed 0 _ _ _ _ _ [x02] [DListen (Ok tt)]); vm_compute; reflexivity.
Defined.

Definition half_frame : daemon :=
  default (new_manager direct_config)
    (drun [DDial accepting (λ _, Err "") 0 0 "10.0.0.1:11411" Meta;
           DArrive 0 (take 7 (frame_bytes (FRelayData, [x0a; x0b; x0c])))] (new_manager direct_config)).

Lemma partial_frame_lost_witness :
  let w := dialer_bytes (replicate 32 x00) toy_nonce 1 Meta in
  (∃ d1 b1, drun [DPoll 0; DArrive 0 [x0c]; DIncomingFrame 0] half_frame = Some d1
     ∧ bridges d1 !! 0%nat = Some b1 ∧ phase b1 = BDelivering [x0a; x0b; x0c]
     ∧ bridge_to b1 = ToSocket (Source [] Open) [] (Sink w None None) new_chan) ∧
  (∃ d2 b2, drun [DPoll 0; DSend 1 [x2a]; DOutgoing 0; DArrive 0 [x0c]] half_frame = Some d2
     ∧ bridges d2 !! 0%nat = Some b2 ∧ phase b2 = BRunning
     ∧ bridge_to b2 = ToSocket (Source [x0c] Open) [] (Sink (w ++ frame_bytes (FRelayData, [x2a])) None None) new_chan).
Proof.
  intros w.
  apply (partial_frame_lost half_frame 0
    {| data_tx := 0; recv_rx := None; entry_class := Meta; mux_conn := None |} 1 new_chan w None
    (take 7 (frame_bytes (FRelayData, [x0a; x0b; x0c]))) [x0c] [x0a; x0b; x0c] [x2a]);
    vm_compute; congruence.
Defined.

Lemma failed_listen_sticks_witness :
  let err := IoError (OtherKind "AddrInUse") "Address already in use (os error 98)" in
  let d := new_manager default_daemon_config in
  let d' := default d (drun [DListen (Ok tt)] (start_listener (Err err) d).2) in
  (start_listener (Err err) d).1 = Err (DaemonIo err)
  ∧ start_listener (Ok tt) d' = (Ok tt, d') ∧ listener_up d' = false.
Proof.
  intros err d. apply (failed_listen_sticks d err (Ok tt) [DListen (Ok tt)]); reflexivity.
Defined.
End Witnesses.
