(* ===== verification/Daemon.v ===== *)
(** * What holds of a running daemon

    [Manager.v] says what each event does to a daemon; this file says what is true
    of every daemon that runs.  The part of a daemon's state that concerns its
    multiplexed connections ([links]) has a transition system of its own, [lstep],
    in which a connection changes only by the steps of [Mux.v]: every event of
    [dstep] is a sequence of its transitions.  From it follow
    the invariant that ties the items of a stream on a connection to what the
    stream's task took from its channel, what a connection's table
    holds in terms of the frames read, and, for two daemons, that what agents
    send on one arrives at the other. *)

From Stdlib Require Import Ascii String.
From S2P Require Import Prelude Text Stream Protocol Auth Ipc Mux Resolver Manager.

(** ** One connection: announcements *)

(** The announcements of incoming streams a connection holds: queued, or in the
    hands of the read task or of the first stream's. *)
Definition announcements (m : mux) : list IncomingMuxStream :=
  incoming m ++ match reader m with RNotifying s => [s] | _ => [] end
             ++ match first m with FirstNotifying s => [s] | _ => [] end.

(** Announcements carry a 32-bit number and an existing channel. *)
Definition announcement_ok (m : mux) (s : IncomingMuxStream) : Prop :=
  0 ≤ in_stream_id s < 2 ^ 32 ∧ is_Some (chans (tbl m) !! in_recv_rx s).

Lemma hang_up_list_chans l m c : is_Some (chans (tbl (foldr hang_up m l)) !! c) ↔ is_Some (chans (tbl m) !! c).
Proof.
  induction l as [|x l IH]; [done|]. cbn. by rewrite lookup_alter_is_Some.
Qed.

Lemma register_chans sid t c : is_Some (chans t !! c) → is_Some (chans (register sid t).2 !! c).
Proof.
  intros Hc. cbn. rewrite lookup_insert_is_Some. destruct (decide (fresh t = c)); [by left|right; split; [done|]].
  rewrite drop_entry_lookup. case_bool_decide; [by apply fmap_is_Some|done].
Qed.

Lemma deregister_chans sid t c : is_Some (chans t !! c) → is_Some (chans (deregister sid t) !! c).
Proof. intros Hc. cbn. rewrite drop_entry_lookup. case_bool_decide; [by apply fmap_is_Some|done]. Qed.

Lemma handle_frame_chans f m c :
  is_Some (chans (tbl m) !! c) → is_Some (chans (tbl (handle_frame f m)) !! c).
Proof.
  destruct f as [ty p]; destruct ty; try done; cbn.
  - unfold process_stream_open. destruct (zlen p <? 5); [done|]. apply register_chans.
  - destruct (zlen p <? 4); [done|]. by destruct (streams (tbl m) !! _).
  - destruct (zlen p <? 4); [done|]. apply deregister_chans.
Qed.

(** Channels stay. *)
Lemma step_chans e m m' c : step e m = Some m' → is_Some (chans (tbl m) !! c) → is_Some (chans (tbl m') !! c).
Proof.
  intros Hs Hc. destruct (step_tbl _ _ _ Hs) as [m' Et _|sid m' _ _ Et _|sid m' _ _ Et _|f m' _ _ ->|
    c' d ch b ch' m' _ Hch _ _ ->|m' _ _ Et|c' ch o ch' m' _ Hch _ Et|l m' _ _ Et]; rewrite ?Et; try done.
  - by apply register_chans.
  - by apply deregister_chans.
  - by apply handle_frame_chans.
  - cbn. rewrite lookup_insert_is_Some. destruct (decide (c' = c)); auto.
  - cbn. rewrite lookup_insert_is_Some. destruct (decide (c' = c)); auto.
  - by apply hang_up_list_chans.
Qed.

Lemma opened_ok payload m s m' :
  process_stream_open payload m = (m', Some s) → announcement_ok m' s.
Proof.
  unfold process_stream_open. destruct (zlen payload <? 5) eqn:Hz; [done|]. cbn. intros [= <- <-]. split; cbn.
  - pose proof (be_value_range (take 4 payload)) as Hr. rewrite length_take in Hr.
    replace (4 `min` length payload)%nat with 4%nat in Hr by lia. lia.
  - by rewrite lookup_insert_eq.
Qed.

Lemma hang_up_all_incoming l m : incoming (foldr (λ s, hang_up (in_recv_rx s)) m l) = incoming m.
Proof. by induction l. Qed.

(** An announcement is an old one or that of the stream just opened. *)
Lemma step_announcements e m m' s :
  step e m = Some m' → s ∈ announcements m' → s ∈ announcements m ∨ announcement_ok m' s.
Proof.
  intros H Hin. unfold announcements in *. destruct e; cbn [step] in H.
  all: try (by left; step_cases H; unfold enqueue, close_begin in *; repeat case_match; simplify_eq/=).
  - destruct (reader m) eqn:Hr; try done. simplify_eq. destruct f as [ty p]. destruct ty; cbn in Hin |- *;
      rewrite ?Hr in Hin; try (by left).
    + destruct (process_stream_open p m) as [m1 [s1|]] eqn:Ho.
      * pose proof (opened_ok _ _ _ _ Ho) as Hok. unfold process_stream_open in Ho.
        destruct (zlen p <? 5); [done|]. simplify_eq. cbn in Hin.
        apply elem_of_app in Hin as [?|[->|?]%elem_of_cons]; [set_solver|by right|set_solver].
      * unfold process_stream_open in Ho. destruct (zlen p <? 5); simplify_eq. by rewrite Hr in Hin; left.
    + destruct (zlen p <? 4); [rewrite Hr in Hin; by left|].
      destruct (streams (tbl m) !! _); cbn in Hin; rewrite ?Hr in Hin; by left.
    + destruct (zlen p <? 4); cbn in Hin; rewrite Hr in Hin; by left.
  - left. unfold resume in H. destruct (reader m) as [|c x|s1|] eqn:Hr; try done.
    + apply bind_Some in H as (ch & _ & ([? ch'] & _ & H)%bind_Some). by simplify_eq/=.
    + unfold notify in H. destruct (incoming_open m); [destruct (_ <? _)%nat; [|done]|];
        cbn in H; simplify_eq; cbn in Hin; set_solver.
  - destruct (first m) as [p|s1|] eqn:Hf; [|unfold notify in H|done].
    + destruct (locked m); [done|]. destruct (process_stream_open p m) as [m1 [s1|]] eqn:Ho.
      * pose proof (opened_ok _ _ _ _ Ho) as Hok. unfold process_stream_open in Ho.
        destruct (zlen p <? 5); [done|]. simplify_eq. cbn in Hin. set_solver.
      * unfold process_stream_open in Ho. destruct (zlen p <? 5); simplify_eq. cbn in Hin. left. set_solver.
    + left. destruct (incoming_open m); [destruct (_ <? _)%nat; [|done]|]; cbn in H; simplify_eq; cbn in Hin; set_solver.
  - left. destruct (incoming m); simplify_eq. cbn in Hin. set_solver.
  - left. simplify_eq. rewrite (proj2 (hang_up_all_frame _ _)), hang_up_all_first in Hin. cbn in Hin.
    rewrite hang_up_all_incoming in Hin. cbn in Hin. set_solver.
Qed.

(** All announcements are in order. *)
Definition announced_wf (m : mux) : Prop := ∀ s, s ∈ announcements m → announcement_ok m s.

Lemma step_announced_wf e m m' : announced_wf m → step e m = Some m' → announced_wf m'.
Proof.
  intros Hm Hs s Hin. destruct (step_announcements _ _ _ _ Hs Hin) as [Hold|?]; [|done].
  destruct (Hm s Hold) as [Hr Hc]. split; [done|]. by eapply step_chans.
Qed.

(** A connection in order: its table, its announcements, its next number. *)
Record mux_ok (m : mux) : Prop := {
  ok_wf : mux_wf m;
  ok_announced : announced_wf m;
  ok_next : 0 ≤ next_stream_id m < 2 ^ 32;
}.

Lemma u32_wrap_range z : 0 ≤ u32_wrap z < 2 ^ 32.
Proof. apply Z.mod_pos_bound. lia. Qed.

Lemma step_ok e m m' : mux_ok m → step e m = Some m' → mux_ok m'.
Proof.
  intros [Hw Ha Hn] Hs. split; [by eapply step_wf|by eapply step_announced_wf|].
  rewrite (step_next _ _ _ Hs). destruct (is_open_call e); [apply u32_wrap_range|done].
Qed.

(** What concerns neither the table nor announcements. *)
Lemma ok_same m m' :
  mux_ok m → tbl m' = tbl m → reader m' = reader m → announcements m' = announcements m →
  0 ≤ next_stream_id m' < 2 ^ 32 → mux_ok m'.
Proof.
  intros [[Ht Hr] Ha _] Et Er Ea Hn. split; [split|..]; rewrite ?Et, ?Er; try done.
  intros s. rewrite Ea. intros Hs. destruct (Ha s Hs). split; [done|]. by rewrite Et.
Qed.

Lemma new_ok m : (∃ a, m = new_initiator a ∨ ∃ p, m = new_responder a p) → mux_ok m.
Proof.
  intros (a & [->|[p ->]]); (split; [apply new_inner_wf| |cbn; lia]); intros s; cbn; set_solver.
Qed.

Lemma mux_send_ok sid x class m : mux_ok m → mux_ok (mux_send sid x class m).2.
Proof.
  intros Hm. unfold mux_send. destruct (enqueue _ _ _) as [r o]. by apply (ok_same m); [..|apply Hm].
Qed.

Lemma close_call_ok sid class m : mux_ok m → mux_ok (close_call sid class m).
Proof. intros Hm. by apply (ok_same m); [..|apply Hm]. Qed.

(** What a call of [open_stream] does to the connection. *)
Lemma open_begin_ok class m :
  mux_ok m →
  let m' := (open_begin class m).2 in
  mux_ok m' ∧ tbl m' = tbl m ∧ ∀ sid, (open_begin class m).1 = Ok sid → sid = next_stream_id m.
Proof.
  intros Hm. unfold open_begin. destruct (enqueue _ _ _) as [[?|?] o]; cbn; (split; [|split]; [|done|congruence]).
  all: apply (ok_same m); try done; apply u32_wrap_range.
Qed.

Lemma open_stream_ok class m :
  mux_ok m →
  let m' := (open_stream class m).2 in
  mux_ok m' ∧ (∀ c, is_Some (chans (tbl m) !! c) → is_Some (chans (tbl m') !! c))
  ∧ ∀ sid c, (open_stream class m).1 = Done (sid, c) → sid = next_stream_id m ∧ is_Some (chans (tbl m') !! c).
Proof.
  intros Hm. unfold open_stream. destruct (open_begin_ok class m Hm) as (H1 & Ht & Hsid).
  destruct (open_begin class m) as [[sid|e] m1]; cbn in *; [|split_and!; [done|by rewrite Ht|done]].
  destruct (open_resume sid _) as [[c m2]|] eqn:Ho; cbn.
  - assert (Hs : step (EInsert sid) (set_opening (opening m1 ++ [sid]) m1) = Some m2) by (cbn; by rewrite Ho).
    split_and!.
    + eapply step_ok; [|exact Hs]. by apply (ok_same m1); [..|apply H1].
    + intros c0 Hc0. eapply step_chans; [exact Hs|]. cbn. by rewrite Ht.
    + intros sid' c' [= <- <-]. split; [by apply Hsid|]. unfold open_resume in Ho. case_match; [done|].
      apply bind_Some in Ho as (i & _ & Ho). cbn in Ho. simplify_eq. cbn. by rewrite lookup_insert_eq.
  - split_and!; [by apply (ok_same m1); [..|apply H1]|by rewrite Ht|done].
Qed.

(** ** The links of a daemon *)

(** The task of a multiplexed stream: its connection, class and number, where it
    stands, and what it has taken from its channel. *)
Record task : Type := Task {
  task_conn : nat;
  task_class : StreamClass;
  task_sid : Z;
  task_phase : bridge_phase;
  taken : list (list byte);
}.

Definition task_of (b : bridge) : option task :=
  match bridge_to b with
  | ToMux n class => Some (Task n class (bridge_sid b) (phase b) (got (bridge_data b)))
  | ToSocket _ _ _ _ => None
  end.

Record links : Type := Links {
  l_conns : gmap nat mux;
  l_pool : gmap string nat;
  l_dialing : list (nat * Z * StreamClass);
  l_tasks : gmap nat task;
  l_next : nat;
}.

Definition links_of (d : daemon) : links :=
  Links (conns d) (mux_pool d) (dialing d) (omap task_of (bridges d)) (next_name d).

(** A task's own step, with its connection's. *)
Inductive task_step (t : task) (m : mux) : task → mux → Prop :=
| TaskSend x m' :
    task_phase t = BRunning → mux_send (task_sid t) x (task_class t) m = (Ok tt, m') →
    task_step t m (Task (task_conn t) (task_class t) (task_sid t) BRunning (taken t ++ [x])) m'
| TaskLose x e m' :
    task_phase t = BRunning → mux_send (task_sid t) x (task_class t) m = (Err e, m') →
    task_step t m (Task (task_conn t) (task_class t) (task_sid t) BClosing (taken t ++ [x]))
      (close_call (task_sid t) (task_class t) m')
| TaskClose :
    task_phase t = BRunning →
    task_step t m (Task (task_conn t) (task_class t) (task_sid t) BClosing (taken t))
      (close_call (task_sid t) (task_class t) m)
| TaskEnd m' :
    task_phase t = BClosing → close_resume (task_sid t) m = Some m' →
    task_step t m (Task (task_conn t) (task_class t) (task_sid t) BEnded (taken t)) m'.

Inductive lstep (l : links) : links → Prop :=
| LGrow k : (l_next l ≤ k)%nat → lstep l (Links (l_conns l) (l_pool l) (l_dialing l) (l_tasks l) k)
| LHangUp n m c :
    l_conns l !! n = Some m →
    lstep l (Links (<[n := hang_up c m]> (l_conns l)) (l_pool l) (l_dialing l) (l_tasks l) (l_next l))
| LSpawn m :
    (∃ a, m = new_initiator a ∨ ∃ p, m = new_responder a p) →
    lstep l (Links (<[l_next l := m]> (l_conns l)) (l_pool l) (l_dialing l) (l_tasks l) (S (l_next l)))
| LPool a n m :
    l_conns l !! n = Some m → tx_alive (out m) = true →
    lstep l (Links (l_conns l) (<[a := n]> (l_pool l)) (l_dialing l) (l_tasks l) (l_next l))
| LOpen a n m class sid m' :
    l_pool l !! a = Some n → l_conns l !! n = Some m → open_begin class m = (Ok sid, m') →
    lstep l (Links (<[n := set_opening (opening m' ++ [sid]) m']> (l_conns l)) (l_pool l)
               (l_dialing l ++ [(n, sid, class)]) (l_tasks l) (l_next l))
| LOpenFail a n m class e m' :
    l_pool l !! a = Some n → l_conns l !! n = Some m → open_begin class m = (Err e, m') →
    lstep l (Links (<[n := m']> (l_conns l)) (l_pool l) (l_dialing l) (l_tasks l) (l_next l))
| LDialed i n sid class m c m' :
    l_dialing l !! i = Some (n, sid, class) → l_conns l !! n = Some m → open_resume sid m = Some (c, m') →
    lstep l (Links (<[n := m']> (l_conns l)) (l_pool l) (delete i (l_dialing l))
               (<[l_next l := Task n class sid BRunning []]> (l_tasks l)) (S (l_next l)))
| LIncoming n m s m' :
    l_conns l !! n = Some m → head (incoming m) = Some s → step ETake m = Some m' →
    lstep l (Links (<[n := m']> (l_conns l)) (l_pool l) (l_dialing l)
               (<[l_next l := Task n (in_class s) (in_stream_id s) BRunning []]> (l_tasks l)) (S (l_next l)))
| LTask b t t' m m' :
    l_tasks l !! b = Some t → l_conns l !! task_conn t = Some m → task_step t m t' m' →
    lstep l (Links (<[task_conn t := m']> (l_conns l)) (l_pool l) (l_dialing l) (<[b := t']> (l_tasks l)) (l_next l)).

(** Reflexive, transitive closure. *)
Abbreviation lsteps := (rtc lstep).

(** ** Well-formed daemons *)

(** What the table of streams relies on in a task: its number, where it sends,
    whether its sender is still held. *)
Definition role_of (b : bridge) : Z * option (nat * StreamClass) * bool :=
  (bridge_sid b, match bridge_to b with ToMux n class => Some (n, class) | _ => None end, tx_open (bridge_data b)).

(** A receiver an entry holds is that of a channel of its connection, or its own
    task's. *)
Definition rx_ok (d : daemon) (e : StreamEntry) (r : rx_ref) : Prop :=
  match r with
  | RxMux n c => mux_conn e = Some n ∧ ∃ m, conns d !! n = Some m ∧ is_Some (chans (tbl m) !! c)
  | RxDirect b => mux_conn e = None ∧ b = data_tx e
  end.

(** Entry [e] and task [b] under number [sid] belong together. *)
Definition entry_task (sid : Z) (e : StreamEntry) (b : bridge) : Prop :=
  role_of b = (sid, (λ n, (n, entry_class e)) <$> mux_conn e, true).

Record daemon_wf (d : daemon) : Prop := {
  (** connections are well formed; names are of the past *)
  wf_conn : ∀ n m, conns d !! n = Some m → (n < next_name d)%nat ∧ mux_ok m;
  wf_name : ∀ k b, bridges d !! k = Some b → (k < next_name d)%nat;
  (** an entry's number has 32 bits, and its task is there, for the same stream *)
  wf_entry : ∀ sid e, d_streams d !! sid = Some e →
    0 ≤ sid < 2 ^ 32 ∧ ∃ b, bridges d !! data_tx e = Some b ∧ entry_task sid e b;
  wf_recv : ∀ sid e r, d_streams d !! sid = Some e → recv_rx e = Some r → rx_ok d e r;
  (** a task whose sender is held has its entry: no sender leaks *)
  wf_task : ∀ k b, bridges d !! k = Some b → tx_open (bridge_data b) = true →
    ∃ e, d_streams d !! bridge_sid b = Some e ∧ data_tx e = k;
  (** a [send] waits for the channel of a stream that is in the table *)
  wf_sending : ∀ k x, sending d = Some (k, x) → ∃ sid e, d_streams d !! sid = Some e ∧ data_tx e = k;
  wf_next : 0 ≤ d_next_stream_id d < 2 ^ 32;
  (** a waiting dial has a connection and a 32-bit number *)
  wf_dialing : ∀ n sid class, (n, sid, class) ∈ dialing d → is_Some (conns d !! n) ∧ 0 ≤ sid < 2 ^ 32;
  wf_pool : ∀ a n, mux_pool d !! a = Some n → is_Some (conns d !! n);
}.

(** The connections of a later state. *)
Record conns_later (d d' : daemon) : Prop := {
  cl_kept : ∀ n m c, conns d !! n = Some m → is_Some (chans (tbl m) !! c) →
    ∃ m', conns d' !! n = Some m' ∧ is_Some (chans (tbl m') !! c);
  cl_names : ∀ n, is_Some (conns d !! n) → is_Some (conns d' !! n);
  cl_wf : ∀ n m, conns d' !! n = Some m → (n < next_name d')%nat ∧ mux_ok m;
}.

Lemma conns_later_same d d' :
  daemon_wf d → conns d' = conns d → (next_name d ≤ next_name d')%nat → conns_later d d'.
Proof.
  intros Hd Hc Hn. split; rewrite Hc; [eauto..|]. intros n m Hm. destruct (wf_conn _ Hd _ _ Hm) as (? & ?).
  split; [lia|done].
Qed.

Lemma conns_later_insert n m m' d d' :
  daemon_wf d → conns d !! n = Some m → (∀ c, is_Some (chans (tbl m) !! c) → is_Some (chans (tbl m') !! c)) →
  mux_ok m' → conns d' = <[n := m']> (conns d) → (next_name d ≤ next_name d')%nat → conns_later d d'.
Proof.
  intros Hd Hm Hch Hw Hc Hn. split; rewrite Hc.
  - intros k mk c Hk Hck. destruct (decide (n = k)) as [->|Hne].
    + rewrite lookup_insert_eq. simplify_eq. eauto.
    + rewrite lookup_insert_ne by done. eauto.
  - intros k Hk. rewrite lookup_insert_is_Some. destruct (decide (n = k)); auto.
  - intros k mk. destruct (decide (n = k)) as [->|Hne].
    + rewrite lookup_insert_eq. intros [= <-]. destruct (wf_conn _ Hd _ _ Hm) as (? & _). split; [lia|done].
    + rewrite lookup_insert_ne by done. intros Hk. destruct (wf_conn _ Hd _ _ Hk) as (? & ?). split; [lia|done].
Qed.

Lemma conns_later_step n m e m' d d' :
  daemon_wf d → conns d !! n = Some m → step e m = Some m' →
  conns d' = <[n := m']> (conns d) → (next_name d ≤ next_name d')%nat → conns_later d d'.
Proof.
  intros Hd Hm Hs Hc Hn. destruct (wf_conn _ Hd _ _ Hm) as (_ & Hw).
  eapply (conns_later_insert n m m'); [done|done| | |done|done].
  - intros c. by eapply step_chans.
  - by eapply step_ok.
Qed.

Lemma rx_ok_later d d' e r : conns_later d d' → rx_ok d e r → rx_ok d' e r.
Proof.
  intros [Hk _ _]. destruct r as [n c|b]; [|done]. intros (He & m & Hm & Hc).
  destruct (Hk _ _ _ Hm Hc) as (m' & ? & ?). split; eauto.
Qed.

(** A state in which streams and tasks play the roles they did. *)
Lemma wf_roles d d' :
  daemon_wf d → d_streams d' = d_streams d → role_of <$> bridges d' = role_of <$> bridges d →
  conns_later d d' → (next_name d ≤ next_name d')%nat →
  (∀ k x, sending d' = Some (k, x) → ∃ sid e, d_streams d !! sid = Some e ∧ data_tx e = k) →
  0 ≤ d_next_stream_id d' < 2 ^ 32 →
  (∀ n sid class, (n, sid, class) ∈ dialing d' → is_Some (conns d' !! n) ∧ 0 ≤ sid < 2 ^ 32) →
  (∀ a n, mux_pool d' !! a = Some n → is_Some (conns d' !! n)) → daemon_wf d'.
Proof.
  intros Hd Hs Hb Hc Hn Hsend Hid Hdial Hpool.
  assert (Hfwd : ∀ k b, bridges d !! k = Some b → ∃ b', bridges d' !! k = Some b' ∧ role_of b' = role_of b).
  { intros k b Hk. apply (f_equal (.!! k)) in Hb. rewrite !lookup_fmap, Hk in Hb. cbn in Hb.
    destruct (bridges d' !! k) as [b0|]; [|done]. exists b0. split; [done|]. by apply (inj Some) in Hb. }
  assert (Hbwd : ∀ k b', bridges d' !! k = Some b' → ∃ b, bridges d !! k = Some b ∧ role_of b' = role_of b).
  { intros k b Hk. apply (f_equal (.!! k)) in Hb. rewrite !lookup_fmap, Hk in Hb. cbn in Hb.
    destruct (bridges d !! k) as [b0|]; [|done]. exists b0. split; [done|]. by apply (inj Some) in Hb. }
  split; rewrite ?Hs; try done.
  - apply (cl_wf _ _ Hc).
  - intros k b' (b & Hk & _)%Hbwd. pose proof (wf_name _ Hd _ _ Hk). lia.
  - intros sid e He. destruct (wf_entry _ Hd _ _ He) as (Hr & b & Hk & Ht). split; [done|].
    destruct (Hfwd _ _ Hk) as (b' & Hk' & Hrole). exists b'. unfold entry_task. by rewrite Hrole.
  - intros sid e r He Hr. eapply rx_ok_later; [done|]. by eapply wf_recv.
  - intros k b' (b & Hk & Hrole)%Hbwd Htx. unfold role_of in Hrole. injection Hrole as Hsid _ Htx'.
    rewrite Hsid. apply (wf_task _ Hd); [done|congruence].
Qed.

Lemma roles_alter f k (bs : gmap nat bridge) :
  (∀ b, role_of (f b) = role_of b) → role_of <$> alter f k bs = role_of <$> bs.
Proof.
  intros Hf. apply map_eq; intros i. rewrite !lookup_fmap. destruct (decide (k = i)) as [->|Hne].
  - rewrite lookup_alter_eq. destruct (bs !! i); cbn; by rewrite ?Hf.
  - by rewrite lookup_alter_ne.
Qed.

Lemma roles_insert k b b' (bs : gmap nat bridge) :
  bs !! k = Some b → role_of b' = role_of b → role_of <$> <[k := b']> bs = role_of <$> bs.
Proof.
  intros Hk Hr. rewrite fmap_insert, Hr. apply insert_id. by rewrite lookup_fmap, Hk.
Qed.

(** The same, when no [send] began or ended and no direct stream was numbered. *)
Lemma wf_quiet d d' :
  daemon_wf d → d_streams d' = d_streams d → role_of <$> bridges d' = role_of <$> bridges d →
  conns_later d d' → (next_name d ≤ next_name d')%nat → sending d' = sending d →
  d_next_stream_id d' = d_next_stream_id d → dialing d' = dialing d → mux_pool d' = mux_pool d → daemon_wf d'.
Proof.
  intros Hd Hs Hb Hc Hn Hsend Hid Hdial Hpool. apply (wf_roles d); try done.
  - rewrite Hsend. apply (wf_sending _ Hd).
  - rewrite Hid. apply (wf_next _ Hd).
  - rewrite Hdial. intros n sid class Hin. destruct (wf_dialing _ Hd _ _ _ Hin). split; [by apply (cl_names _ _ Hc)|done].
  - rewrite Hpool. intros a n Ha. apply (cl_names _ _ Hc). by eapply wf_pool.
Qed.

(** Dropping a receiver. *)
Lemma wf_drop_rx r d : daemon_wf d → daemon_wf (drop_rx_ref r d).
Proof.
  intros Hd. destruct r as [n c|b]; cbn.
  - destruct (conns d !! n) as [m|] eqn:Hm.
    + rewrite (alter_Some_insert _ _ _ m) by done. apply (wf_quiet d); try done.
      by eapply (conns_later_step n m (EDropRx c)).
    + rewrite alter_None_same by done. apply (wf_quiet d); try done. by apply conns_later_same.
  - apply (wf_quiet d); try done; [|by apply conns_later_same]. cbn.
    apply roles_alter. intros [sid ch [] ph]; done.
Qed.

(** An entry leaves the table. *)
Lemma wf_remove sid d : daemon_wf d → sending d = None → daemon_wf (remove_stream sid d).
Proof.
  intros Hd Hs. unfold remove_stream. destruct (d_streams d !! sid) as [old|] eqn:Ho; [|done].
  destruct (wf_entry _ Hd _ _ Ho) as (_ & b0 & Hb0 & Ht0).
  set (d1 := set_streams (delete sid (d_streams d))
               (set_bridges (alter (on_data drop_tx) (data_tx old) (bridges d)) d)).
  assert (H1 : daemon_wf d1).
  { assert (Hkeep : ∀ sid' e, sid' ≠ sid → d_streams d !! sid' = Some e → data_tx e ≠ data_tx old).
    { intros sid' e Hne He Heq. destruct (wf_entry _ Hd _ _ He) as (_ & b & Hb & Ht).
      rewrite Heq, Hb0 in Hb. injection Hb as <-. unfold entry_task in *. congruence. }
    split; cbn; try apply Hd.
    - intros k b. destruct (decide (k = data_tx old)) as [->|Hne]; [intros _; by eapply wf_name|].
      rewrite lookup_alter_ne by done. apply (wf_name _ Hd).
    - intros sid' e. rewrite lookup_delete_Some. intros [Hne He].
      destruct (wf_entry _ Hd _ _ He) as (Hr & b & Hb & Ht). split; [done|]. exists b.
      rewrite lookup_alter_ne; [done|]. by apply not_eq_sym, (Hkeep sid').
    - intros sid' e r. rewrite lookup_delete_Some. intros [_ He]. by apply (wf_recv _ Hd sid').
    - intros k b Hk Htx. destruct (decide (k = data_tx old)) as [->|Hne].
      { rewrite lookup_alter_eq, Hb0 in Hk. cbn in Hk. by simplify_eq. }
      rewrite lookup_alter_ne in Hk by done. destruct (wf_task _ Hd _ _ Hk Htx) as (e & He & Hdt).
      exists e. split; [|done]. apply lookup_delete_Some. split; [|done]. intros Heq. rewrite <-Heq in He. congruence.
    - congruence. }
  unfold drop_stream_entry. destruct (recv_rx old) as [r|]; [|exact H1].
  apply (wf_drop_rx r) in H1. by destruct r.
Qed.

(** A stream gets its task and its entry, under a number that is free. *)
Lemma wf_add sid e b d :
  daemon_wf d → 0 ≤ sid < 2 ^ 32 → d_streams d !! sid = None → data_tx e = next_name d → entry_task sid e b →
  (∀ r, recv_rx e = Some r → rx_ok d e r) →
  daemon_wf (set_streams (<[sid := e]> (d_streams d)) (spawn_bridge b d).2).
Proof.
  intros Hd Hsid Hfree Hdt Het Hrx.
  assert (Hold : ∀ k b', bridges d !! k = Some b' → k ≠ next_name d).
  { intros k b' Hk ->. pose proof (wf_name _ Hd _ _ Hk). lia. }
  split; cbn; try apply Hd.
  - intros n m Hm. destruct (wf_conn _ Hd _ _ Hm) as (? & ?). split; [lia|done].
  - intros k b'. destruct (decide (k = next_name d)) as [->|Hne]; [lia|].
    rewrite lookup_insert_ne by done. intros Hk. pose proof (wf_name _ Hd _ _ Hk). lia.
  - intros sid' e'. rewrite lookup_insert_Some. intros [[<- <-]|[Hne He]].
    + split; [done|]. exists b. by rewrite Hdt, lookup_insert_eq.
    + destruct (wf_entry _ Hd _ _ He) as (Hr & b' & Hb & Ht). split; [done|]. exists b'.
      rewrite lookup_insert_ne; [done|]. apply not_eq_sym. by eapply Hold.
  - intros sid' e' r. rewrite lookup_insert_Some. intros [[<- <-]|[Hne He]] Hr; [by apply Hrx|].
    by apply (wf_recv _ Hd sid').
  - intros k b' Hk Htx. rewrite lookup_insert_Some in Hk. destruct Hk as [[<- <-]|[Hne Hk]].
    + exists e. unfold entry_task, role_of in Het. injection Het as -> _ _. by rewrite lookup_insert_eq.
    + destruct (wf_task _ Hd _ _ Hk Htx) as (e' & He & Hdt'). exists e'. split; [|done].
      rewrite lookup_insert_ne; [done|]. intros Heq. congruence.
  - intros k x Hs. destruct (wf_sending _ Hd _ _ Hs) as (sid' & e' & He & Hk). exists sid', e'.
    split; [|done]. rewrite lookup_insert_ne; [done|]. congruence.
Qed.

(** [insert_stream] with the task just spawned: the old entry goes first. *)
Lemma insert_spawned sid e b d :
  daemon_wf d →
  insert_stream sid e (spawn_bridge b d).2
  = set_streams (<[sid := e]> (d_streams (remove_stream sid d))) (spawn_bridge b (remove_stream sid d)).2.
Proof.
  intros Hd. unfold insert_stream, remove_stream. cbn. destruct (d_streams d !! sid) as [old|] eqn:Ho; [|done].
  destruct (wf_entry _ Hd _ _ Ho) as (_ & b0 & Hb0 & _). pose proof (wf_name _ Hd _ _ Hb0).
  assert (Hcomm : ∀ f k (bs : gmap nat bridge), k ≠ next_name d →
    alter f k (<[next_name d := b]> bs) = <[next_name d := b]> (alter f k bs)).
  { intros f k bs Hne. by rewrite alter_insert_ne. }
  unfold drop_stream_entry. destruct (recv_rx old) as [[n c|k]|] eqn:Hr; cbn -[alter insert].
  all: unfold set_streams, set_bridges, set_conns, spawn_bridge, fresh_name; cbn -[alter insert].
  all: rewrite !Hcomm, ?insert_delete_eq; try done; try lia.
  destruct (wf_recv _ Hd _ _ _ Ho Hr) as [_ ->]. lia.
Qed.

Lemma remove_stream_frame sid d :
  let d' := remove_stream sid d in
  d_streams d' !! sid = None ∧ next_name d' = next_name d ∧ sending d' = sending d
  ∧ d_next_stream_id d' = d_next_stream_id d.
Proof.
  unfold remove_stream. destruct (d_streams d !! sid) as [old|] eqn:Ho; [|done].
  unfold drop_stream_entry. destruct (recv_rx old) as [[n c|k]|]; cbn; by rewrite lookup_delete_eq.
Qed.

Lemma remove_stream_conns sid d : daemon_wf d → conns_later d (remove_stream sid d).
Proof.
  intros Hd. unfold remove_stream. destruct (d_streams d !! sid) as [old|]; [|by apply conns_later_same].
  unfold drop_stream_entry. destruct (recv_rx old) as [[n c|k]|]; cbn; [|by apply conns_later_same..].
  destruct (conns d !! n) as [m|] eqn:Hm.
  - eapply (conns_later_step n m (EDropRx c)); [done..| |done]. cbn. by rewrite (alter_Some_insert _ _ _ m).
  - apply conns_later_same; [done| |done]. cbn. by rewrite alter_None_same.
Qed.

Lemma wf_insert_spawned sid e b d :
  daemon_wf d → sending d = None → 0 ≤ sid < 2 ^ 32 → data_tx e = next_name d → entry_task sid e b →
  (∀ r, recv_rx e = Some r → rx_ok d e r) → daemon_wf (insert_stream sid e (spawn_bridge b d).2).
Proof.
  intros Hd Hs Hsid Hdt Het Hrx. rewrite insert_spawned by done.
  destruct (remove_stream_frame sid d) as (Hf & Hn & _). apply wf_add; try done.
  - by apply wf_remove.
  - by rewrite Hn.
  - intros r Hr. eapply rx_ok_later; [by apply remove_stream_conns|auto].
Qed.

(** *** Every event keeps a daemon well formed *)

Section Preservation.
Context `{ED : !Ed25519, CM : !CaseMapping}.

Lemma conns_later_spawn m d : daemon_wf d → mux_ok m → conns_later d (spawn_conn m d).2.
Proof.
  intros Hd Hm.
  assert (Hold : ∀ n mn, conns d !! n = Some mn → next_name d ≠ n).
  { intros n mn Hn <-. destruct (wf_conn _ Hd _ _ Hn). lia. }
  split; cbn.
  - intros n mn c Hn Hc. rewrite lookup_insert_ne by (by eapply Hold). eauto.
  - intros n Hn. rewrite lookup_insert_is_Some. destruct (decide (next_name d = n)); auto.
  - intros n mn. rewrite lookup_insert_Some. intros [[<- <-]|[_ Hn]]; [split; [lia|done]|].
    destruct (wf_conn _ Hd _ _ Hn). split; [lia|done].
Qed.

Lemma wf_spawn_conn m d : daemon_wf d → mux_ok m → daemon_wf (spawn_conn m d).2.
Proof. intros Hd Hm. apply (wf_quiet d); try done; [by apply conns_later_spawn|cbn; lia]. Qed.

(** A connection's state replaced by one in order that keeps its channels. *)
Lemma wf_set_conn n m m' d :
  daemon_wf d → conns d !! n = Some m → mux_ok m' →
  (∀ c, is_Some (chans (tbl m) !! c) → is_Some (chans (tbl m') !! c)) →
  daemon_wf (set_conns (<[n := m']> (conns d)) d).
Proof. intros Hd Hm Hok Hc. apply (wf_quiet d); try done. by eapply conns_later_insert. Qed.

Lemma wf_step_conn n m e m' d :
  daemon_wf d → conns d !! n = Some m → step e m = Some m' → daemon_wf (set_conns (<[n := m']> (conns d)) d).
Proof.
  intros Hd Hm Hs. destruct (wf_conn _ Hd _ _ Hm). eapply wf_set_conn; [done..|by eapply step_ok|].
  intros c. by eapply step_chans.
Qed.

Lemma wf_pooled connect addr d r d' :
  daemon_wf d → pooled_conn connect addr d = (r, d') →
  daemon_wf d' ∧ sending d' = sending d ∧ ∀ n, r = Done n → is_Some (conns d' !! n).
Proof.
  intros Hd. unfold pooled_conn, create_mux_conn. destruct (mux_pool d !! addr) eqn:Hp.
  { intros [= <- <-]. split_and!; [done..|]. intros k [= <-]. by eapply wf_pool. }
  destruct (connect addr) as [tcp|e]; [|by intros [= <- <-]].
  destruct (client_authenticate _ _) as [[u|e|] s]; [|by intros [= <- <-]..].
  intros [= <- <-]. pose proof (wf_spawn_conn (new_initiator addr) d Hd (new_ok (new_initiator addr) ltac:(eauto))) as H1.
  split_and!; [|done|].
  - apply (wf_roles (spawn_conn (new_initiator addr) d).2); try done; try apply H1; [by apply conns_later_same|].
    intros a n. cbn. rewrite lookup_insert_Some. intros [[_ <-]|[_ Ha]].
    + by rewrite lookup_insert_eq.
    + apply (wf_pool _ H1 a). done.
  - intros n [= <-]. cbn. by rewrite lookup_insert_eq.
Qed.

Lemma wf_dial_finish n sid class d :
  daemon_wf d → sending d = None → 0 ≤ sid < 2 ^ 32 → daemon_wf (dial_finish n sid class d).
Proof.
  intros Hd Hs Hsid. apply (wf_insert_spawned sid _ (Bridge sid new_chan (ToMux n class) BRunning) d); done.
Qed.

Lemma wf_set_dialing l d :
  daemon_wf d → (∀ n sid class, (n, sid, class) ∈ l → is_Some (conns d !! n) ∧ 0 ≤ sid < 2 ^ 32) →
  daemon_wf (set_dialing l d).
Proof. intros Hd Hl. apply (wf_roles d); try done; try apply Hd. by apply conns_later_same. Qed.

Lemma wf_dial_mux connect addr class d :
  daemon_wf d → sending d = None → daemon_wf (dial_mux connect addr class d).2.
Proof.
  intros Hd Hs. unfold dial_mux. destruct (pooled_conn connect addr d) as [r d1] eqn:Hp.
  destruct (wf_pooled _ _ _ _ _ Hd Hp) as (H1 & Hs1 & Hn). rewrite Hs in Hs1. destruct r as [n|e|]; [|done..].
  destruct (Hn n eq_refl) as [m Hm]. rewrite Hm. destruct (wf_conn _ H1 _ _ Hm) as [_ Hok].
  destruct (open_stream_ok class m Hok) as (Hok' & Hch & Hsid).
  pose proof (wf_set_conn n m _ d1 H1 Hm Hok' Hch) as H2.
  destruct (open_stream class m) as [[[sid c]|e|] m'] eqn:Ho; cbn [fst snd] in *; [|done|].
  - destruct (Hsid sid c eq_refl) as [-> _]. by apply wf_dial_finish; [|..|apply Hok].
  - apply wf_set_dialing; [done|]. intros k sid cl. cbn. rewrite elem_of_app, list_elem_of_singleton.
    intros [Hin|[= -> -> _]].
    + destruct (wf_dialing _ H2 _ _ _ Hin) as [? ?]. done.
    + rewrite lookup_insert_eq. split; [done|apply Hok].
Qed.

Lemma wf_dial_direct connect addr class d :
  daemon_wf d → sending d = None → daemon_wf (dial_direct connect addr class d).2.
Proof.
  intros Hd Hs. unfold dial_direct.
  assert (H1 : daemon_wf (bump_next_stream_id d)).
  { apply (wf_roles d); try done; try apply Hd; [by apply conns_later_same|apply u32_wrap_range]. }
  destruct (connect addr) as [tcp|e]; [|done]. destruct (direct_open _ _ _ _) as [[u|e|] s]; [|done..].
  apply (wf_insert_spawned (d_next_stream_id d) _
           (Bridge (d_next_stream_id d) new_chan (ToSocket (rd s) [] (wr s) new_chan) BRunning)
           (bump_next_stream_id d)); try done. apply Hd.
Qed.

Lemma wf_dial connect get now now' target class d :
  daemon_wf d → sending d = None → daemon_wf (dial connect get now now' target class d).2.
Proof.
  intros Hd Hs. unfold dial.
  assert (H : ∀ addr d, daemon_wf d → sending d = None →
    daemon_wf (if use_mux (config d) then dial_mux connect addr class d else dial_direct connect addr class d).2).
  { intros addr d0 ? ?. destruct (use_mux _); [by apply wf_dial_mux|by apply wf_dial_direct]. }
  destruct (starts_with _ _); [|by apply H]. destruct (resolver d) as [r|]; [|done].
  destruct (resolve _ _ _ _ _) as [[[addr|e] u] r'].
  all: assert (H1 : daemon_wf (set_resolver (Some r') d)) by (apply (wf_quiet d); try done; by apply conns_later_same).
  - by apply H.
  - done.
Qed.

Lemma wf_announce i d : daemon_wf d → daemon_wf (announce i d).
Proof. intros Hd. apply (wf_quiet d); try done. by apply conns_later_same. Qed.

Lemma wf_inbound nonce s d : daemon_wf d → sending d = None → daemon_wf (handle_inbound nonce s d).2.
Proof.
  intros Hd Hs. unfold handle_inbound. destruct (server_authenticate _ _ _) as [[k|e|] s1]; [|done..].
  destruct (read_frame _) as [[[ft p]|e|] r]; [|done..].
  destruct ft; try done; [unfold handle_inbound_relay|by apply wf_spawn_conn, new_ok; eauto].
  destruct (zlen p <? 5) eqn:Hz; [done|]. destruct (write_frame _ _ _) as [[u|e|] w]; [|done..]. apply wf_announce.
  apply (wf_insert_spawned _ _ (Bridge (be_value (take 4 p)) new_chan (ToSocket r [] w new_chan) BRunning) d);
    try done.
  - pose proof (be_value_range (take 4 p)) as Hr. rewrite length_take in Hr.
    replace (4 `min` length p)%nat with 4%nat in Hr by lia. lia.
  - by intros r0 [= <-].
Qed.

Lemma wf_register s n m d :
  daemon_wf d → sending d = None → conns d !! n = Some m → announcement_ok m s →
  daemon_wf (register_mux_incoming s n d).
Proof.
  intros Hd Hs Hm [Hr Hc]. unfold register_mux_incoming. apply wf_announce.
  apply (wf_insert_spawned _ _ (Bridge (in_stream_id s) new_chan (ToMux n (in_class s)) BRunning) d); try done.
  intros r [= <-]. split; [done|]. by exists m.
Qed.

Lemma turn_task b n class m b' m' :
  bridge_to b = ToMux n class → mux_bridge_turn b class m = Some (b', m') →
  role_of b' = role_of b ∧
  ∃ t t', task_of b = Some t ∧ task_of b' = Some t' ∧ task_conn t = n ∧ task_step t m t' m'.
Proof.
  intros Hto. destruct b as [sid [bf g tx rx] to ph]; cbn in Hto; subst to. unfold mux_bridge_turn, task_of; cbn.
  destruct ph; try done.
  - destruct bf as [|x bf]; cbn.
    + destruct tx; [done|]. intros [= <- <-]. split; [done|]. do 2 eexists. split_and!; [done..|].
      by apply (TaskClose (Task n class sid BRunning g)).
    + destruct (mux_send sid x class m) as [[[]|e] m1] eqn:Hs; intros [= <- <-]; (split; [done|]);
        do 2 eexists; (split_and!; [done..|]).
      * by apply (TaskSend (Task n class sid BRunning g)).
      * by eapply (TaskLose (Task n class sid BRunning g)).
  - intros (m1 & Hc & [= <- <-])%bind_Some. split; [done|]. do 2 eexists. split_and!; [done..|].
    by apply (TaskEnd (Task n class sid BClosing g)).
Qed.

Lemma task_step_ok t m t' m' :
  task_step t m t' m' → mux_ok m →
  mux_ok m' ∧ ∀ c, is_Some (chans (tbl m) !! c) → is_Some (chans (tbl m') !! c).
Proof.
  assert (Hsend : ∀ sid x class m, tbl (mux_send sid x class m).2 = tbl m).
  { intros. unfold mux_send. by destruct (enqueue _ _ _). }
  intros Ht Hm. destruct Ht as [x m' _ Hs|x e m' _ Hs| |m' _ Hs].
  - pose proof (mux_send_ok (task_sid t) x (task_class t) m Hm) as Hok.
    specialize (Hsend (task_sid t) x (task_class t) m). rewrite Hs in Hok, Hsend. cbn in *. by rewrite Hsend.
  - pose proof (mux_send_ok (task_sid t) x (task_class t) m Hm) as Hok.
    specialize (Hsend (task_sid t) x (task_class t) m). rewrite Hs in Hok, Hsend. cbn in *. rewrite Hsend.
    split; [by apply close_call_ok|done].
  - split; [by apply close_call_ok|done].
  - split; [by eapply (step_ok (ERemove (task_sid t)))|]. intros c. by eapply (step_chans (ERemove (task_sid t))).
Qed.

(** A step of a socket task that changes neither its number nor its sender. *)
Lemma wf_bridge_step k f d d' :
  daemon_wf d → (∀ b b', f b = Some b' → role_of b' = role_of b) → bridge_step k f d = Some d' → daemon_wf d'.
Proof.
  intros Hd Hf (b & Hb & (b' & Hb' & [= <-])%bind_Some)%bind_Some.
  apply (wf_quiet d); try done; [|by apply conns_later_same]. cbn. eapply roles_insert; [done|by apply Hf].
Qed.

Lemma at_loop_role f b b' :
  (∀ rd held wr recv b b', bridge_to b = ToSocket rd held wr recv → f rd held wr recv b = Some b' → role_of b' = role_of b) →
  at_loop f b = Some b' → role_of b' = role_of b.
Proof.
  intros Hf. unfold at_loop. destruct (phase b); try done. destruct (bridge_to b) eqn:Hto; [done|]. by eapply Hf.
Qed.

Lemma socket_role sid ch to to' ph ph' ch' rd held wr recv :
  to = ToSocket rd held wr recv → (∃ rd' held' wr' recv', to' = ToSocket rd' held' wr' recv') → tx_open ch' = tx_open ch →
  role_of (Bridge sid ch' to' ph') = role_of (Bridge sid ch to ph).
Proof. intros -> (? & ? & ? & ? & ->) Htx. unfold role_of; cbn. by rewrite Htx. Qed.

Lemma outgoing_role rd held wr recv b b' :
  bridge_to b = ToSocket rd held wr recv → bridge_outgoing rd wr recv b = Some b' → role_of b' = role_of b.
Proof.
  destruct b as [sid ch to ph]; cbn; intros Hto. unfold bridge_outgoing; cbn.
  destruct (chan_recv ch) as [[[x|]| |] ch'] eqn:Hr; try done.
  - apply chan_recv_Done in Hr as (Htx & _).
    destruct (write_frame _ _ _) as [[u|e|] w]; intros [= <-]; eapply socket_role; eauto.
  - intros [= <-]. eapply socket_role; eauto.
Qed.

Lemma incoming_role rd held wr recv b b' :
  bridge_to b = ToSocket rd held wr recv → bridge_incoming rd held wr recv b = Some b' → role_of b' = role_of b.
Proof.
  destruct b as [sid ch to ph]; cbn; intros Hto. unfold bridge_incoming; cbn.
  destruct (read_frame _) as [[[ft x]|e|] r]; try done; [destruct ft|]; intros [= <-]; eapply socket_role; eauto.
Qed.

Lemma deliver_role x rd held wr recv b b' :
  bridge_to b = ToSocket rd held wr recv → bridge_deliver x rd held wr recv b = Some b' → role_of b' = role_of b.
Proof.
  destruct b as [sid ch to ph]; cbn; intros Hto. unfold bridge_deliver.
  destruct (chan_send x recv) as [[[] ch']|]; intros [= <-]; eapply socket_role; eauto.
Qed.

Lemma unlocked_sending d : unlocked d = true → sending d = None.
Proof. unfold unlocked. by destruct (sending d). Qed.

Lemma poll_role rd held wr recv b b' :
  bridge_to b = ToSocket rd held wr recv → Some (bridge_poll rd held wr recv b) = Some b' → role_of b' = role_of b.
Proof. destruct b as [sid ch to ph]; cbn. intros Hto [= <-]. eapply socket_role; eauto. Qed.

Lemma wf_send sid x d : daemon_wf d → daemon_wf (send sid x d).2.
Proof.
  intros Hd. unfold send. destruct (d_streams d !! sid) as [e|] eqn:He; [|done].
  destruct (bridges d !! data_tx e) as [b|] eqn:Hb; [|done].
  destruct (chan_send x (bridge_data b)) as [[[] ch]|] eqn:Hc; cbn; [|done|].
  - apply chan_send_Some in Hc as (Htx & _). apply (wf_quiet d); try done; [|by apply conns_later_same]. cbn.
    eapply roles_insert; [done|]. unfold role_of. by cbn; rewrite Htx.
  - apply (wf_roles d); try done; try apply Hd; [by apply conns_later_same|]. cbn. intros k y [= <- <-]. eauto.
Qed.

Lemma wf_take sid d : daemon_wf d → daemon_wf (take_recv_rx sid d).2.
Proof.
  intros Hd. unfold take_recv_rx. destruct (d_streams d !! sid) as [e|] eqn:He; [|done]. cbn.
  split; cbn; try apply Hd.
  - intros sid' e'. rewrite lookup_insert_Some. intros [[<- <-]|[_ He']]; [|by apply (wf_entry _ Hd)].
    apply (wf_entry _ Hd _ _ He).
  - intros sid' e' r. rewrite lookup_insert_Some. intros [[<- <-]|[_ He']]; [done|]. by apply (wf_recv _ Hd sid').
  - intros k b Hk Htx. destruct (wf_task _ Hd _ _ Hk Htx) as (e' & He' & Hdt).
    destruct (decide (sid = bridge_sid b)) as [Heq|Hne].
    + eexists. rewrite <-Heq, lookup_insert_eq. split; [done|]. cbn. congruence.
    + exists e'. by rewrite lookup_insert_ne.
  - intros k x Hs. destruct (wf_sending _ Hd _ _ Hs) as (sid' & e' & He' & Hdt).
    destruct (decide (sid = sid')) as [<-|Hne].
    + exists sid. eexists. rewrite lookup_insert_eq. split; [done|]. cbn. congruence.
    + exists sid', e'. by rewrite lookup_insert_ne.
Qed.

Lemma wf_dial_resume i d x d' : daemon_wf d → sending d = None → dial_resume i d = Some (x, d') → daemon_wf d'.
Proof.
  intros Hd Hs ([[n sid] class] & Hi & (m & Hm & ([c m'] & Ho & [= _ <-])%bind_Some)%bind_Some)%bind_Some.
  assert (Hstep : step (EInsert sid) m = Some m') by (cbn; by rewrite Ho).
  pose proof (wf_step_conn n m _ m' d Hd Hm Hstep) as H1.
  apply wf_dial_finish; [|done|].
  - apply wf_set_dialing; [done|]. intros k s c0 Hin. apply (wf_dialing _ H1 k s c0).
    by eapply list_elem_of_delete_inv.
  - apply (wf_dialing _ Hd n sid class). by eapply list_elem_of_lookup_2.
Qed.

Lemma wf_task_turn k b n class m b' m' d :
  daemon_wf d → bridges d !! k = Some b → bridge_to b = ToMux n class → conns d !! n = Some m →
  mux_bridge_turn b class m = Some (b', m') →
  daemon_wf (set_bridge k b' (set_conns (<[n := m']> (conns d)) d)).
Proof.
  intros Hd Hb Hto Hm Ht. destruct (turn_task _ _ _ _ _ _ Hto Ht) as (Hr & t & t' & _ & _ & _ & Hstep).
  destruct (wf_conn _ Hd _ _ Hm) as [_ Hok]. destruct (task_step_ok _ _ _ _ Hstep Hok) as [Hok' Hch].
  apply (wf_quiet d); try done; [|by eapply conns_later_insert]. by apply (roles_insert k b).
Qed.

Lemma wf_end_direct k b d :
  daemon_wf d → sending d = None →
  daemon_wf (set_bridges (alter (on_recv drop_tx ∘ end_bridge) k (bridges (remove_stream (bridge_sid b) d)))
               (remove_stream (bridge_sid b) d)).
Proof.
  intros Hd Hs. pose proof (wf_remove (bridge_sid b) d Hd Hs) as H1.
  apply (wf_quiet (remove_stream (bridge_sid b) d)); try done; [|by apply conns_later_same].
  apply roles_alter. intros [sid ch [] ph]; done.
Qed.

Lemma dstep_wf e d d' : daemon_wf d → dstep e d = Some d' → daemon_wf d'.
Proof.
  intros Hd H. destruct e; cbn [dstep] in H; try (destruct (unlocked d) eqn:Hu; [apply unlocked_sending in Hu|done]).
  - simplify_eq. unfold start_listener. destruct (listener_started d); [done|].
    destruct bind; apply (wf_quiet d); try done; by apply conns_later_same.
  - destruct (listener_up d); simplify_eq. apply (wf_quiet d); try done. by apply conns_later_same.
  - simplify_eq. by apply wf_dial.
  - destruct (dial_resume i d) as [[x d1]|] eqn:Hr; cbn in H; simplify_eq. by eapply wf_dial_resume.
  - simplify_eq. by apply wf_send.
  - apply bind_Some in H as ([n x] & Hs & (b & Hb & ([ok ch] & Hc & [= <-])%bind_Some)%bind_Some).
    apply chan_send_Some in Hc as (Htx & _).
    apply (wf_roles d); try done; try apply Hd; [|by apply conns_later_same]. cbn.
    eapply roles_insert; [done|]. unfold role_of. by cbn; rewrite Htx.
  - simplify_eq. by apply wf_remove.
  - simplify_eq. by apply wf_take.
  - destruct (unlocked d) eqn:Hu; rewrite ?andb_false_r in H; [apply unlocked_sending in Hu|done].
    destruct (listener_up d); [|done]. injection H as <-. by apply wf_inbound.
  - apply bind_Some in H as (m & Hm & (s & Hs & (m' & Ht & [= <-])%bind_Some)%bind_Some).
    destruct (wf_conn _ Hd _ _ Hm) as [_ Hok]. eapply wf_register; [by eapply wf_step_conn|done|cbn; apply lookup_insert_eq|].
    destruct (ok_announced _ Hok s) as [Hr Hc]; [|split; [done|by eapply step_chans]].
    unfold announcements. destruct (incoming m); simplify_eq/=. set_solver.
  - apply bind_Some in H as (m & Hm & H). destruct (own_step _ _ _ _); [|done].
    apply bind_Some in H as (m' & Hs & [= <-]). by eapply wf_step_conn.
  - apply bind_Some in H as (b & Hb & H). destruct (bridge_to b) as [conn class|rd held wr recv] eqn:Hto.
    + apply bind_Some in H as (m & Hm & ([b' m'] & Ht & [= <-])%bind_Some). by eapply wf_task_turn.
    + destruct (phase b) as [|x| |]; try done.
      * apply bind_Some in H as (b' & Hb' & [= <-]). apply (wf_quiet d); try done; [|by apply conns_later_same].
        eapply roles_insert; [done|by eapply deliver_role].
      * destruct (unlocked d) eqn:Hu; [apply unlocked_sending in Hu|done]. simplify_eq. by apply wf_end_direct.
  - revert H. apply wf_bridge_step; [done|]. intros b b'. apply at_loop_role. intros ??????. by apply outgoing_role.
  - revert H. apply wf_bridge_step; [done|]. intros b b'. apply at_loop_role. intros ??????. by apply incoming_role.
  - revert H. apply wf_bridge_step; [done|]. intros b b'. apply at_loop_role. intros rd held wr recv b0 b1 Hto.
    repeat case_match; try done. by apply poll_role.
  - revert H. apply wf_bridge_step; [done|]. intros [sid ch [|rd held wr recv] ph] b'; cbn; [done|].
    by destruct (fin rd); intros [= <-].
  - revert H. apply wf_bridge_step; [done|]. intros [sid ch [|rd held wr recv] ph] b'; cbn; [done|]. by intros [= <-].
  - revert H. apply wf_bridge_step; [done|]. intros [sid ch [|rd held wr recv] ph] b'; cbn; [done|].
    destruct (rx_open recv); [|done]. by destruct (chan_recv recv) as [[] ?]; intros [= <-].
  - revert H. apply wf_bridge_step; [done|]. intros [sid ch [|rd held wr recv] ph] b'; cbn; [done|]. by intros [= <-].
Qed.

Lemma new_manager_wf cfg : daemon_wf (new_manager cfg).
Proof. split; cbn; try (intros *; rewrite lookup_empty; done); [done|lia|set_solver]. Qed.
End Preservation.

(** ** Every event is a sequence of these transitions *)

Lemma tasks_alter (f : bridge → bridge) n (bs : gmap nat bridge) :
  (∀ b, task_of (f b) = task_of b) → omap task_of (alter f n bs) = omap task_of bs.
Proof.
  intros Hf. apply map_eq; intros k. rewrite !lookup_omap. destruct (decide (n = k)) as [->|Hne].
  - rewrite lookup_alter_eq. destruct (bs !! k); cbn; auto.
  - by rewrite lookup_alter_ne.
Qed.

Lemma tasks_insert_same n (b b' : bridge) (bs : gmap nat bridge) :
  bs !! n = Some b → task_of b' = task_of b → omap task_of (<[n := b']> bs) = omap task_of bs.
Proof.
  intros Hb Ht. apply map_eq; intros k. rewrite !lookup_omap. destruct (decide (n = k)) as [->|Hne].
  - rewrite lookup_insert_eq, Hb. cbn. by rewrite Ht.
  - by rewrite lookup_insert_ne.
Qed.

Lemma tasks_insert n b (bs : gmap nat bridge) t :
  task_of b = Some t → omap task_of (<[n := b]> bs) = <[n := t]> (omap task_of bs).
Proof. apply omap_insert_Some. Qed.

(** Another socket task under a free name. *)
Lemma tasks_insert_socket n b (bs : gmap nat bridge) :
  bs !! n = None → task_of b = None → omap task_of (<[n := b]> bs) = omap task_of bs.
Proof.
  intros Hn Hb. rewrite omap_insert_None by done. apply delete_id. rewrite lookup_omap. by rewrite Hn.
Qed.

(** Parts of a state that are not links. *)
Lemma links_same d d' :
  conns d' = conns d → mux_pool d' = mux_pool d → dialing d' = dialing d →
  omap task_of (bridges d') = omap task_of (bridges d) → next_name d' = next_name d → links_of d' = links_of d.
Proof. unfold links_of. congruence. Qed.

Lemma links_same_steps d d' :
  conns d' = conns d → mux_pool d' = mux_pool d → dialing d' = dialing d →
  omap task_of (bridges d') = omap task_of (bridges d) → next_name d' = next_name d →
  lsteps (links_of d) (links_of d').
Proof. intros. by rewrite (links_same d d'). Qed.

Lemma links_drop_rx r d : lsteps (links_of d) (links_of (drop_rx_ref r d)).
Proof.
  destruct r as [n c|b]; cbn.
  - destruct (conns d !! n) as [m|] eqn:Hm.
    + apply rtc_once. unfold links_of; cbn. rewrite (alter_Some_insert _ _ _ m) by done. by apply (LHangUp (links_of d) n m c).
    + rewrite alter_None_same by done. by apply links_same_steps.
  - apply links_same_steps; try done. cbn. apply tasks_alter. intros [sid ch [] ph]; done.
Qed.

Lemma links_drop_entry e d : lsteps (links_of d) (links_of (drop_stream_entry e d)).
Proof.
  unfold drop_stream_entry.
  assert (He : links_of (set_bridges (alter (on_data drop_tx) (data_tx e) (bridges d)) d) = links_of d).
  { apply links_same; try done. cbn. apply tasks_alter. by intros [sid ch [] ph]. }
  destruct (recv_rx e); rewrite <-He at 1; [apply links_drop_rx|done].
Qed.

Lemma links_set_streams s d : links_of (set_streams s d) = links_of d.
Proof. by apply links_same. Qed.

Lemma links_insert sid e d : lsteps (links_of d) (links_of (insert_stream sid e d)).
Proof.
  unfold insert_stream. rewrite links_set_streams. destruct (d_streams d !! sid); [apply links_drop_entry|done].
Qed.

Lemma links_remove sid d : lsteps (links_of d) (links_of (remove_stream sid d)).
Proof.
  unfold remove_stream. destruct (d_streams d !! sid); [|done]. cbv zeta. rewrite links_set_streams.
  apply links_drop_entry.
Qed.

Section Simulation.
Context `{ED : !Ed25519, CM : !CaseMapping}.

(** A stream with a task of its own on a socket. *)
Lemma links_add_socket sid e b d :
  daemon_wf d → task_of b = None → lsteps (links_of d) (links_of (insert_stream sid e (spawn_bridge b d).2)).
Proof.
  intros Hd Hb. etrans; [|apply links_insert]. apply rtc_once.
  assert (links_of (spawn_bridge b d).2
          = Links (conns d) (mux_pool d) (dialing d) (omap task_of (bridges d)) (S (next_name d))) as ->.
  { unfold links_of; cbn. rewrite tasks_insert_socket; [done| |done].
    apply eq_None_not_Some. intros [b' Hk]. pose proof (wf_name _ Hd _ _ Hk). lia. }
  apply (LGrow (links_of d)). cbn. lia.
Qed.

Lemma links_spawn_conn m d :
  (∃ a, m = new_initiator a ∨ ∃ p, m = new_responder a p) → lsteps (links_of d) (links_of (spawn_conn m d).2).
Proof. intros Hm. apply rtc_once. by apply (LSpawn (links_of d) m). Qed.

Lemma links_pooled connect addr d r d' :
  pooled_conn connect addr d = (r, d') →
  lsteps (links_of d) (links_of d') ∧ ∀ n, r = Done n → mux_pool d' !! addr = Some n.
Proof.
  unfold pooled_conn, create_mux_conn. destruct (mux_pool d !! addr) eqn:Hp; [by intros [= <- <-]; split; [|intros ? [= <-]]|].
  destruct (connect addr) as [tcp|e]; [|by intros [= <- <-]].
  destruct (client_authenticate _ _) as [[u|e|] s]; [|by intros [= <- <-]..].
  intros [= <- <-]. split; [|intros n [= <-]; cbn; apply lookup_insert_eq].
  etrans; [apply (links_spawn_conn (new_initiator addr)); eauto|]. apply rtc_once.
  apply (LPool (links_of (spawn_conn (new_initiator addr) d).2) addr (next_name d) (new_initiator addr)); [|done].
  apply lookup_insert_eq.
Qed.

(** A waiting dial goes on. *)
Lemma links_dialed i n sid class m c m' d :
  dialing d !! i = Some (n, sid, class) → conns d !! n = Some m → open_resume sid m = Some (c, m') →
  lsteps (links_of d)
    (links_of (dial_finish n sid class (set_dialing (delete i (dialing d)) (set_conns (<[n := m']> (conns d)) d)))).
Proof.
  intros Hi Hm Ho. etrans; [|apply links_insert]. apply rtc_once.
  unfold links_of; cbn -[delete]. rewrite (tasks_insert _ _ _ (Task n class sid BRunning [])) by done.
  by apply (LDialed (links_of d) i n sid class m c m').
Qed.

Lemma links_dial_mux connect addr class d : lsteps (links_of d) (links_of (dial_mux connect addr class d).2).
Proof.
  unfold dial_mux. destruct (pooled_conn connect addr d) as [r d1] eqn:Hp.
  destruct (links_pooled _ _ _ _ _ Hp) as [H1 Hn]. destruct r as [n|e|]; [|done..]. etrans; [exact H1|].
  specialize (Hn n eq_refl). destruct (conns d1 !! n) as [m|] eqn:Hm; [|done]. unfold open_stream.
  destruct (open_begin class m) as [[sid|e] m1] eqn:Hb.
  - set (m2 := set_opening (opening m1 ++ [sid]) m1).
    set (d2 := set_dialing (dialing d1 ++ [(n, sid, class)]) (set_conns (<[n := m2]> (conns d1)) d1)).
    assert (Hopen : lsteps (links_of d1) (links_of d2)).
    { apply rtc_once. by apply (LOpen (links_of d1) addr n m class sid m1). }
    assert (Hsid : sid = next_stream_id m).
    { revert Hb. unfold open_begin. destruct (enqueue _ _ _) as [[]?]; congruence. }
    destruct (open_resume sid m2) as [[c m3]|] eqn:Ho; cbn [snd]; [|rewrite <-Hsid; exact Hopen].
    etrans; [exact Hopen|].
    assert (Hi : dialing d2 !! length (dialing d1) = Some (n, sid, class)) by (apply list_lookup_middle; done).
    pose proof (links_dialed (length (dialing d1)) n sid class m2 c m3 d2 Hi (lookup_insert_eq _ _ _) Ho) as Hfin.
    cbn [dialing d2 set_dialing conns set_conns] in Hfin. rewrite insert_insert_eq in Hfin.
    rewrite delete_middle, app_nil_r in Hfin. exact Hfin.
  - apply rtc_once. by apply (LOpenFail (links_of d1) addr n m class e m1).
Qed.

Lemma links_dial connect get now now' target class d :
  daemon_wf d → lsteps (links_of d) (links_of (dial connect get now now' target class d).2).
Proof.
  intros Hd. unfold dial.
  assert (H : ∀ addr d0, daemon_wf d0 → lsteps (links_of d0)
    (links_of (if use_mux (config d0) then dial_mux connect addr class d0 else dial_direct connect addr class d0).2)).
  { intros addr d0 Hd0. destruct (use_mux _); [apply links_dial_mux|]. unfold dial_direct.
    destruct (connect addr) as [tcp|e]; [|done]. destruct (direct_open _ _ _ _) as [[u|e|] s]; [|done..].
    apply (links_add_socket (d_next_stream_id d0) _
      (Bridge (d_next_stream_id d0) new_chan (ToSocket (rd s) [] (wr s) new_chan) BRunning) (bump_next_stream_id d0)); [|done].
    apply (wf_roles d0); try done; try apply Hd0; [by apply conns_later_same|apply u32_wrap_range]. }
  destruct (starts_with _ _); [|by apply H]. destruct (resolver d) as [r|]; [|done].
  destruct (resolve _ _ _ _ _) as [[[addr|e] u] r']; [|done].
  apply (H addr (set_resolver (Some r') d)). apply (wf_quiet d); try done. by apply conns_later_same.
Qed.

Lemma links_inbound nonce s d : daemon_wf d → lsteps (links_of d) (links_of (handle_inbound nonce s d).2).
Proof.
  intros Hd. unfold handle_inbound. destruct (server_authenticate _ _ _) as [[k|e|] s1]; [|done..].
  destruct (read_frame _) as [[[ft p]|e|] r]; [|done..].
  destruct ft; try done; [unfold handle_inbound_relay|apply links_spawn_conn; eauto].
  destruct (zlen p <? 5); [done|]. destruct (write_frame _ _ _) as [[u|e|] w]; [|done..].
  by apply (links_add_socket _ _ (Bridge (be_value (take 4 p)) new_chan (ToSocket r [] w new_chan) BRunning) d).
Qed.

Lemma links_register s n m m' d :
  conns d !! n = Some m → head (incoming m) = Some s → step ETake m = Some m' →
  lsteps (links_of d) (links_of (register_mux_incoming s n (set_conns (<[n := m']> (conns d)) d))).
Proof.
  intros Hm Hs Ht. unfold register_mux_incoming. etrans; [|apply links_insert]. apply rtc_once.
  unfold links_of; cbn -[step]. rewrite (tasks_insert _ _ _ (Task n (in_class s) (in_stream_id s) BRunning [])) by done.
  by apply (LIncoming (links_of d) n m s m').
Qed.

(** A task without a place among the links. *)
Lemma links_bridge_step k f d d' :
  (∀ b b', f b = Some b' → task_of b' = task_of b) → bridge_step k f d = Some d' → links_of d' = links_of d.
Proof.
  intros Hf (b & Hb & (b' & Hb' & [= <-])%bind_Some)%bind_Some. apply links_same; try done. cbn.
  eapply tasks_insert_same; [done|by apply Hf].
Qed.

Lemma role_no_task rd held wr recv b b' :
  bridge_to b = ToSocket rd held wr recv → role_of b' = role_of b → task_of b' = task_of b.
Proof. unfold role_of, task_of. intros ->. destruct (bridge_to b'); [|done]. intros [= _ _]. Qed.

Lemma links_at_loop k f d d' :
  (∀ rd held wr recv b b', bridge_to b = ToSocket rd held wr recv → f rd held wr recv b = Some b' → role_of b' = role_of b) →
  bridge_step k (at_loop f) d = Some d' → links_of d' = links_of d.
Proof.
  intros Hf. apply links_bridge_step. intros b b'. unfold at_loop. destruct (phase b); try done.
  destruct (bridge_to b) eqn:Hto; [done|]. intros Hb. eapply role_no_task; [done|by eapply Hf].
Qed.

(** A task on a socket stays one when an entry is removed. *)
Lemma remove_stream_socket sid d k b rd held wr recv :
  bridges d !! k = Some b → bridge_to b = ToSocket rd held wr recv →
  ∃ b', bridges (remove_stream sid d) !! k = Some b'
    ∧ ∃ rd' held' wr' recv', bridge_to b' = ToSocket rd' held' wr' recv'.
Proof.
  intros Hb Hto.
  assert (Halter : ∀ f j (bs : gmap nat bridge) b0, bs !! k = Some b0 →
    (∃ rd' held' wr' recv', bridge_to b0 = ToSocket rd' held' wr' recv') →
    (∀ b1, (∃ rd' held' wr' recv', bridge_to b1 = ToSocket rd' held' wr' recv') →
           ∃ rd' held' wr' recv', bridge_to (f b1) = ToSocket rd' held' wr' recv') →
    ∃ b', alter f j bs !! k = Some b' ∧ ∃ rd' held' wr' recv', bridge_to b' = ToSocket rd' held' wr' recv').
  { intros f j bs b0 Hk Hs Hf. destruct (decide (j = k)) as [->|Hne].
    - rewrite lookup_alter_eq, Hk. cbn. eauto.
    - rewrite lookup_alter_ne, Hk by done. eauto. }
  unfold remove_stream. destruct (d_streams d !! sid) as [old|]; [|eauto 7].
  destruct (Halter (on_data drop_tx) (data_tx old) _ _ Hb) as (b1 & Hb1 & Hs1); [eauto|done|].
  unfold drop_stream_entry. destruct (recv_rx old) as [[n c|j]|]; cbn; [eauto| |eauto].
  apply (Halter _ _ _ b1); [done..|]. intros b2 (? & ? & ? & ? & Hto2). unfold on_recv. rewrite Hto2. cbn. eauto.
Qed.

(** Every event of the daemon is a step of one connection's own tasks, or a
    sequence of transitions of the links. *)
Lemma dstep_links e d d' :
  daemon_wf d → dstep e d = Some d' →
  lsteps (links_of d) (links_of d') ∨
  ∃ n e' m m', e = DConn n e' ∧ conns d !! n = Some m ∧ own_step n m e' d = true ∧ step e' m = Some m'
    ∧ d' = set_conns (<[n := m']> (conns d)) d.
Proof.
  intros Hd H. destruct e; cbn [dstep] in H; try (destruct (unlocked d); [|done]).
  - left. simplify_eq. unfold start_listener. destruct (listener_started d); [done|]. by destruct bind.
  - left. by destruct (listener_up d); simplify_eq.
  - left. simplify_eq. by apply links_dial.
  - left. destruct (dial_resume i d) as [[x d1]|] eqn:Hr; cbn in H; simplify_eq.
    apply bind_Some in Hr as ([[n sid] class] & Hi & (m & Hm & ([c m'] & Ho & [= _ <-])%bind_Some)%bind_Some).
    by eapply links_dialed.
  - left. simplify_eq. unfold send. destruct (d_streams d !! sid); [|done].
    destruct (bridges d !! _) as [b|] eqn:Hb; [|done].
    destruct (chan_send _ _) as [[[] ch]|] eqn:Hc; cbn; [|done|done]. apply chan_send_Some in Hc as (_ & _ & Hg & _).
    apply links_same_steps; try done. cbn. eapply tasks_insert_same; [done|]. unfold task_of; cbn. by rewrite Hg.
  - left. apply bind_Some in H as ([n x] & Hs & (b & Hb & ([ok ch] & Hc & [= <-])%bind_Some)%bind_Some).
    apply chan_send_Some in Hc as (_ & _ & Hg & _). apply links_same_steps; try done. cbn.
    eapply tasks_insert_same; [done|]. unfold task_of; cbn. by rewrite Hg.
  - left. simplify_eq. apply links_remove.
  - left. simplify_eq. unfold take_recv_rx. by destruct (d_streams d !! sid).
  - left. destruct (listener_up d && unlocked d); simplify_eq. by apply links_inbound.
  - left. apply bind_Some in H as (m & Hm & (s & Hs & (m' & Ht & [= <-])%bind_Some)%bind_Some). by eapply links_register.
  - right. apply bind_Some in H as (m & Hm & H). destruct (own_step _ _ _ _) eqn:Ho; [|done].
    apply bind_Some in H as (m' & Hs & [= <-]). by exists conn, e, m, m'.
  - left. apply bind_Some in H as (b & Hb & H). destruct (bridge_to b) as [conn class|rd held wr recv] eqn:Hto.
    + apply bind_Some in H as (m & Hm & ([b' m'] & Ht & [= <-])%bind_Some).
      destruct (turn_task _ _ _ _ _ _ Hto Ht) as (_ & t & t' & Htb & Htb' & <- & Hstep). apply rtc_once.
      unfold links_of; cbn. rewrite (tasks_insert _ _ _ t') by done.
      apply (LTask (links_of d) n t t' m m'); [|done..]. cbn. by rewrite lookup_omap, Hb.
    + destruct (phase b) as [|x| |]; try done.
      * apply bind_Some in H as (b' & Hb' & [= <-]). apply links_same_steps; try done. cbn.
        eapply tasks_insert_same; [done|]. eapply role_no_task; [done|by eapply deliver_role].
      * destruct (unlocked d); [|done]. simplify_eq. etrans; [apply (links_remove (bridge_sid b))|].
        apply links_same_steps; try done. cbn.
        apply map_eq; intros k. rewrite !lookup_omap. destruct (decide (n = k)) as [<-|Hne]; [|by rewrite lookup_alter_ne].
        rewrite lookup_alter_eq. destruct (remove_stream_socket (bridge_sid b) d n b rd held wr recv Hb Hto)
          as (b' & -> & ? & ? & ? & ? & Hto'). cbn. unfold end_bridge, on_recv, task_of, set_phase, on_data; cbn.
        by rewrite Hto'.
  - left. apply links_at_loop in H as ->; [done|]. intros ??????. by apply outgoing_role.
  - left. apply links_at_loop in H as ->; [done|]. intros ??????. by apply incoming_role.
  - left. apply links_at_loop in H as ->; [done|]. intros rd held wr recv b0 b1 Hto. repeat case_match; try done.
    by apply poll_role.
  - left. apply links_bridge_step in H as ->; [done|]. intros [sid ch [|rd held wr recv] ph] b'; cbn; [done|].
    by destruct (fin rd); intros [= <-].
  - left. apply links_bridge_step in H as ->; [done|]. intros [sid ch [|rd held wr recv] ph] b'; cbn; [done|].
    by intros [= <-].
  - left. apply links_bridge_step in H as ->; [done|]. intros [sid ch [|rd held wr recv] ph] b'; cbn; [done|].
    destruct (rx_open recv); [|done]. by destruct (chan_recv recv) as [[] ?]; intros [= <-].
  - left. apply links_bridge_step in H as ->; [done|]. intros [sid ch [|rd held wr recv] ph] b'; cbn; [done|].
    by intros [= <-].
Qed.
End Simulation.
