(* ===== verification/Delivery.v ===== *)
(** * From one daemon's agents to another's

    For the multiplexed streams of a running daemon: what is on a connection for a
    stream is what the stream's task took from its channel ([links_inv]); what a
    connection's table holds is what the frames it read say ([reads_inv]); and for
    two daemons whose connection carries the frames of one to the other,
    what was sent on a stream is what arrives, what is on its way, and nothing
    else. *)

From Stdlib Require Import Ascii String.
From S2P Require Import Prelude Text Stream Protocol Auth Ipc Mux Resolver Manager Daemon.

(** ** Items of a stream on a connection *)

(** The items of stream [sid] in one queue of a connection, written or waiting. *)
Definition lane_items (hi : bool) (sid : Z) (o : outq) : list WriteItem :=
  filter (λ i, item_stream i = sid) (lane hi (wire o) ++ queue hi o).

Lemma lane_items_push hi sid l o :
  rx_alive o = true →
  lane_items hi sid (push l o) = lane_items hi sid o ++ filter (λ i, item_stream i = sid) (lane hi l).
Proof.
  intros Ho. unfold lane_items. rewrite queue_push by done. unfold push. rewrite Ho. cbn.
  by rewrite app_assoc, filter_app.
Qed.

Lemma lane_items_push_one hi sid h i o :
  lane_items hi sid (push [(h, i)] o)
  = lane_items hi sid o ++ (if rx_alive o && Bool.eqb h hi && bool_decide (item_stream i = sid) then [i] else []).
Proof.
  destruct (rx_alive o) eqn:Ho.
  - rewrite lane_items_push, lane_one by done. cbn [andb]. f_equal. destruct (Bool.eqb h hi); [|done]. cbn.
    unfold filter; cbn. rewrite <-decide_bool_decide. by destruct (decide _).
  - unfold push. rewrite Ho. cbn. by rewrite app_nil_r.
Qed.

(** What a change of a connection submits; its handles and its ended loop stay. *)
Record conn_change (l : list (bool * WriteItem)) (m m' : mux) : Prop := {
  cc_ok : mux_ok m → mux_ok m';
  cc_out : out m' = push l (out m);
  cc_loop : loop_ended m = true → loop_ended m' = true;
  cc_next : Z.odd (next_stream_id m') = Z.odd (next_stream_id m);
}.

(** Numbers are drawn two apart. *)
Lemma u32_odd z : Z.odd (u32_wrap (z + 2)) = Z.odd z.
Proof.
  pose proof (u32_parity z 1) as Hp. rewrite !Zmod_odd in Hp. change (2 * 1) with 2 in Hp.
  by destruct (Z.odd (u32_wrap _)), (Z.odd z).
Qed.

Lemma step_parity e m m' : step e m = Some m' → Z.odd (next_stream_id m') = Z.odd (next_stream_id m).
Proof.
  intros Hs. rewrite (step_next _ _ _ Hs). destruct (is_open_call e); [apply u32_odd|done].
Qed.

Lemma push_alive l o : tx_alive (push l o) = tx_alive o.
Proof. unfold push. by destruct (rx_alive o). Qed.

Lemma hang_up_change c m : conn_change [] m (hang_up c m).
Proof. split; [|by rewrite push_nil|done|done]. intros Hm. by apply (step_ok (EDropRx c) m). Qed.

Lemma take_change m m' : step ETake m = Some m' → conn_change [] m m'.
Proof.
  intros Hs. split; [intros; by eapply step_ok|by rewrite (step_out _ _ _ Hs)| |by eapply step_parity].
  cbn in Hs. destruct (incoming m) eqn:Hi; simplify_eq. unfold loop_ended. rewrite Hi. by repeat case_match.
Qed.

Lemma open_resume_change sid m c m' : open_resume sid m = Some (c, m') → conn_change [] m m'.
Proof.
  intros Ho. assert (Hs : step (EInsert sid) m = Some m') by (cbn; by rewrite Ho).
  split; [intros; by eapply step_ok|by rewrite (step_out _ _ _ Hs)| |by eapply step_parity].
  unfold open_resume in Ho. destruct (locked m); [done|]. apply bind_Some in Ho as (i & _ & Ho). cbn in Ho. by simplify_eq.
Qed.

Lemma close_resume_change sid m m' : close_resume sid m = Some m' → conn_change [] m m'.
Proof.
  intros Ho. assert (Hs : step (ERemove sid) m = Some m') by done.
  split; [intros; by eapply step_ok|by rewrite (step_out _ _ _ Hs)| |by eapply step_parity].
  unfold close_resume in Ho. destruct (locked m); [done|]. apply bind_Some in Ho as (i & _ & Ho). by simplify_eq.
Qed.

Lemma open_begin_change class m r m' :
  open_begin class m = (r, m') →
  conn_change [(high_priority class, open_item (next_stream_id m) class)] m m'
  ∧ match r with
    | Ok sid => sid = next_stream_id m ∧ rx_alive (out m) = true
    | Err _ => rx_alive (out m) = false
    end.
Proof.
  intros Ho. split.
  - split.
    + intros Hm. pose proof (proj1 (open_begin_ok class m Hm)) as Hok. by rewrite Ho in Hok.
    + rewrite <-enqueue_push. revert Ho. unfold open_begin, open_item. cbn. destruct (enqueue _ _ _) as [[] o]; by intros [= _ <-].
    + revert Ho. unfold open_begin. cbn. destruct (enqueue _ _ _) as [[] o]; by intros [= _ <-].
    + assert (next_stream_id m' = u32_wrap (next_stream_id m + 2)) as ->.
      { revert Ho. unfold open_begin. cbn. destruct (enqueue _ _ _) as [[] o]; by intros [= _ <-]. }
      apply u32_odd.
  - revert Ho. unfold open_begin, enqueue. cbn. destruct (rx_alive (out m)); [|by intros [= <- _]].
    destruct (high_priority class); by intros [= <- _].
Qed.

Lemma mux_send_change sid x class m r m' :
  mux_send sid x class m = (r, m') →
  conn_change [(high_priority class, data_item sid x)] m m'
  ∧ match r with Ok _ => rx_alive (out m) = true | Err _ => rx_alive (out m) = false end.
Proof.
  intros Ho. split.
  - split.
    + intros Hm. pose proof (mux_send_ok sid x class m Hm) as Hok. by rewrite Ho in Hok.
    + rewrite <-enqueue_push. revert Ho. unfold mux_send, data_item. destruct (enqueue _ _ _) as [? o]; by intros [= _ <-].
    + revert Ho. unfold mux_send. destruct (enqueue _ _ _) as [? o]; by intros [= _ <-].
    + revert Ho. unfold mux_send. destruct (enqueue _ _ _) as [? o]; by intros [= _ <-].
  - revert Ho. unfold mux_send, enqueue. destruct (rx_alive (out m)); [|by intros [= <- _]].
    destruct (high_priority class); by intros [= <- _].
Qed.

Lemma close_call_change sid class m : conn_change [(high_priority class, close_item sid)] m (close_call sid class m).
Proof.
  split; [apply close_call_ok| |done|done]. unfold close_call, close_begin. cbn -[enqueue]. by rewrite enqueue_push.
Qed.

(** Items carry their stream's number. *)
Lemma item_streams sid class x :
  0 ≤ sid < 2 ^ 32 →
  item_stream (open_item sid class) = sid ∧ item_stream (data_item sid x) = sid ∧ item_stream (close_item sid) = sid.
Proof.
  intros Hs. unfold item_stream; cbn. unfold open_payload, data_payload, close_payload.
  rewrite !payload_stream by done. split_and!; try done.
  rewrite <-(app_nil_r (be_bytes 4 sid)). by apply payload_stream.
Qed.

(** ** The invariant of the links *)

(** The dials of stream [sid] of connection [n] that wait. *)
Definition waiting (l : links) (n : nat) (sid : Z) : list (nat * Z * StreamClass) :=
  filter (λ x, x.1 = (n, sid)) (l_dialing l).

Definition is_task (n : nat) (sid : Z) (t : task) : Prop := task_conn t = n ∧ task_sid t = sid.

(** No task, or one, serves the stream. *)
Definition no_task (l : links) (n : nat) (sid : Z) : Prop := ∀ b t, l_tasks l !! b = Some t → ¬ is_task n sid t.
Definition sole_task (l : links) (n : nat) (sid : Z) (b : nat) (t : task) : Prop :=
  l_tasks l !! b = Some t ∧ is_task n sid t ∧ ∀ b' t', l_tasks l !! b' = Some t' → is_task n sid t' → b' = b.

(** The stream's items are [items], all in the queue of [class]. *)
Definition only_items (class : StreamClass) (sid : Z) (o : outq) (items : list WriteItem) : Prop :=
  lane_items (high_priority class) sid o = items ∧ lane_items (negb (high_priority class)) sid o = [].

Record stream_inv (l : links) (n : nat) (sid : Z) (o : outq) : Prop := {
  si_none : no_task l n sid → waiting l n sid = [] → ∀ hi, lane_items hi sid o = [];
  si_dialing class : no_task l n sid → waiting l n sid = [(n, sid, class)] → only_items class sid o [open_item sid class];
  si_task b t : sole_task l n sid b t → task_phase t = BRunning → waiting l n sid = [] →
    ∃ opens, (opens = [] ∨ opens = [open_item sid (task_class t)])
    ∧ only_items (task_class t) sid o (opens ++ (data_item sid <$> taken t));
}.

(** A connection that is used has handles. *)
Definition alive_conn (l : links) (n : nat) : Prop := ∃ m, l_conns l !! n = Some m ∧ tx_alive (out m) = true.

Record links_inv (l : links) : Prop := {
  li_conn : ∀ n m, l_conns l !! n = Some m →
    (n < l_next l)%nat ∧ mux_ok m ∧ (tx_alive (out m) = false → loop_ended m = true);
  li_name : ∀ b t, l_tasks l !! b = Some t → (b < l_next l)%nat;
  li_pool : ∀ a n, l_pool l !! a = Some n → alive_conn l n;
  li_dialing : ∀ n sid class, (n, sid, class) ∈ l_dialing l → 0 ≤ sid < 2 ^ 32 ∧ alive_conn l n;
  li_task : ∀ b t, l_tasks l !! b = Some t →
    0 ≤ task_sid t < 2 ^ 32 ∧ is_Some (l_conns l !! task_conn t) ∧ (task_phase t ≠ BEnded → alive_conn l (task_conn t));
  li_parity : ∀ n sid class m, (n, sid, class) ∈ l_dialing l → l_conns l !! n = Some m →
    Z.odd sid = Z.odd (next_stream_id m);
  li_stream : ∀ n m sid, l_conns l !! n = Some m → stream_inv l n sid (out m);
}.

(** States that agree about a stream. *)
Lemma stream_inv_same l l' n sid o o' :
  stream_inv l n sid o → waiting l' n sid = waiting l n sid →
  (∀ b t, is_task n sid t → l_tasks l' !! b = Some t ↔ l_tasks l !! b = Some t) →
  (∀ hi, lane_items hi sid o' = lane_items hi sid o) → stream_inv l' n sid o'.
Proof.
  intros [H1 H2 H3] Hw Ht Hl. unfold only_items in *.
  assert (Hno : no_task l' n sid → no_task l n sid).
  { intros Hn b t Hb Hi. apply (Hn b t); [|done]. by apply Ht. }
  split.
  - intros Hn Hd hi. rewrite Hl. apply H1; [by apply Hno|congruence].
  - intros class Hn Hd. unfold only_items. rewrite !Hl. apply H2; [by apply Hno|congruence].
  - intros b t (Hb & Hi & Hs) Hp Hd.
    destruct (H3 b t) as (opens & Ho & Hop); [|done|congruence|].
    { split_and!; [by apply Ht|done|]. intros b' t' Hb' Hi'. apply (Hs b' t'); [by apply Ht|done]. }
    exists opens. unfold only_items. rewrite !Hl. auto.
Qed.

(** Replacing a connection's state by one in order, with as many handles. *)
Lemma alive_conn_insert l n m m' k pool dial tasks nx :
  l_conns l !! n = Some m → tx_alive (out m') = tx_alive (out m) →
  alive_conn l k → alive_conn (Links (<[n := m']> (l_conns l)) pool dial tasks nx) k.
Proof.
  intros Hm Ht (mk & Hk & Hal). unfold alive_conn; cbn. destruct (decide (n = k)) as [->|Hne].
  - exists m'. rewrite lookup_insert_eq. split; [done|]. congruence.
  - exists mk. by rewrite lookup_insert_ne.
Qed.

Lemma is_Some_insert {A} n (m' : A) (M : gmap nat A) k : is_Some (M !! k) → is_Some (<[n := m']> M !! k).
Proof. intros Hk. rewrite lookup_insert_is_Some. destruct (decide (n = k)); auto. Qed.

Lemma conn_change_inv l n m m' items :
  links_inv l → l_conns l !! n = Some m → conn_change items m m' →
  ∀ k mk, <[n := m']> (l_conns l) !! k = Some mk →
    (k < l_next l)%nat ∧ mux_ok mk ∧ (tx_alive (out mk) = false → loop_ended mk = true).
Proof.
  intros Hl Hm [Hok Hout Hloop _] k mk. rewrite lookup_insert_Some. intros [[<- <-]|[_ Hk]]; [|by apply (li_conn _ Hl)].
  destruct (li_conn _ Hl _ _ Hm) as (? & ? & ?). split_and!; [done|auto|].
  rewrite Hout, push_alive. auto.
Qed.

(** A connection changes by submitting [items]; tasks and dials stay, except that
    the streams these concern are accounted for. *)
Lemma inv_conn_change l n m m' items dial tasks nx :
  links_inv l → l_conns l !! n = Some m → conn_change items m m' → (l_next l ≤ nx)%nat →
  (∀ k sid class, (k, sid, class) ∈ dial → 0 ≤ sid < 2 ^ 32 ∧ alive_conn l k) →
  (∀ k sid class mk, (k, sid, class) ∈ dial → l_conns l !! k = Some mk → Z.odd sid = Z.odd (next_stream_id mk)) →
  (∀ b t, tasks !! b = Some t → (b < nx)%nat ∧ 0 ≤ task_sid t < 2 ^ 32 ∧ is_Some (l_conns l !! task_conn t)
     ∧ (task_phase t ≠ BEnded → alive_conn l (task_conn t))) →
  let l' := Links (<[n := m']> (l_conns l)) (l_pool l) dial tasks nx in
  (∀ sid, stream_inv l' n sid (out m')) →
  (∀ k mk sid, k ≠ n → l_conns l !! k = Some mk → stream_inv l' k sid (out mk)) → links_inv l'.
Proof.
  intros Hl Hm Hc Hnx Hdial Hpar Htasks l' Hn Hk.
  assert (Hal : ∀ k, alive_conn l k → alive_conn l' k).
  { intros k. eapply alive_conn_insert; [done|]. rewrite (cc_out _ _ _ Hc). apply push_alive. }
  split; cbn.
  - intros k mk Hmk. destruct (conn_change_inv _ _ _ _ _ Hl Hm Hc _ _ Hmk) as (? & ?). split; [lia|done].
  - intros b t Hb. by destruct (Htasks b t Hb).
  - intros a k Ha. by apply Hal, (li_pool _ Hl a).
  - intros k sid class Hin. destruct (Hdial _ _ _ Hin). auto.
  - intros b t Hb. destruct (Htasks b t Hb) as (_ & ? & ? & ?). split; [done|]. split; [by apply is_Some_insert|auto].
  - intros k sid class mk Hin. rewrite lookup_insert_Some. intros [[<- <-]|[_ Hk']]; [|by eapply Hpar].
    rewrite (cc_next _ _ _ Hc). by eapply Hpar.
  - intros k mk sid. rewrite lookup_insert_Some. intros [[<- <-]|[Hne Hk']]; [apply Hn|by apply Hk].
Qed.

Lemma li_task_full l b t :
  links_inv l → l_tasks l !! b = Some t →
  (b < l_next l)%nat ∧ 0 ≤ task_sid t < 2 ^ 32 ∧ is_Some (l_conns l !! task_conn t)
  ∧ (task_phase t ≠ BEnded → alive_conn l (task_conn t)).
Proof. intros Hl Hb. split; [by apply (li_name _ Hl b t)|by apply (li_task _ Hl b)]. Qed.

Lemma lane_items_other hi sid h i o : item_stream i ≠ sid → lane_items hi sid (push [(h, i)] o) = lane_items hi sid o.
Proof. intros Hi. rewrite lane_items_push_one, bool_decide_eq_false_2, andb_false_r by done. apply app_nil_r. Qed.

Lemma lane_items_own hi sid h i o :
  item_stream i = sid → rx_alive o = true →
  lane_items hi sid (push [(h, i)] o) = lane_items hi sid o ++ (if Bool.eqb h hi then [i] else []).
Proof. intros Hi Ho. rewrite lane_items_push_one, Ho, bool_decide_eq_true_2, andb_true_r by done. done. Qed.

(** One more item of its class. *)
Lemma only_items_push class sid i o l :
  item_stream i = sid → rx_alive o = true → only_items class sid o l →
  only_items class sid (push [(high_priority class, i)] o) (l ++ [i]).
Proof.
  intros Hi Ho [H1 H2]. unfold only_items. rewrite !lane_items_own by done. rewrite H1, H2, Bool.eqb_reflx.
  by destruct (high_priority class).
Qed.

Lemma none_only class sid o : (∀ hi, lane_items hi sid o = []) → only_items class sid o [].
Proof. intros H. by split. Qed.

(** A connection changes without submitting anything. *)
Lemma inv_silent l n m m' :
  links_inv l → l_conns l !! n = Some m → conn_change [] m m' →
  links_inv (Links (<[n := m']> (l_conns l)) (l_pool l) (l_dialing l) (l_tasks l) (l_next l)).
Proof.
  intros Hl Hm Hc. eapply inv_conn_change; try done.
  - apply (li_dialing _ Hl).
  - apply (li_parity _ Hl).
  - intros b t. by apply li_task_full.
  - intros sid. eapply stream_inv_same; [by eapply (li_stream _ Hl)|done|done|].
    intros hi. by rewrite (cc_out _ _ _ Hc), push_nil.
  - intros k mk sid Hne Hk. eapply stream_inv_same; [by eapply (li_stream _ Hl)|done..].
Qed.

Lemma inv_grow l k :
  links_inv l → (l_next l ≤ k)%nat → links_inv (Links (l_conns l) (l_pool l) (l_dialing l) (l_tasks l) k).
Proof.
  intros Hl Hk. split; cbn; try apply Hl.
  - intros n m Hm. destruct (li_conn _ Hl _ _ Hm) as (? & ?). split; [lia|done].
  - intros b t Hb. pose proof (li_name _ Hl _ _ Hb). lia.
  - intros n m sid Hm. eapply stream_inv_same; [by eapply (li_stream _ Hl)|done..].
Qed.

Lemma new_out m : (∃ a, m = new_initiator a ∨ ∃ p, m = new_responder a p) → out m = new_outq.
Proof. by intros (a & [->|[p ->]]). Qed.

Lemma inv_spawn l m :
  links_inv l → (∃ a, m = new_initiator a ∨ ∃ p, m = new_responder a p) →
  links_inv (Links (<[l_next l := m]> (l_conns l)) (l_pool l) (l_dialing l) (l_tasks l) (S (l_next l))).
Proof.
  intros Hl Hm. pose proof (new_out m Hm) as Ho. pose proof (new_ok m Hm) as Hok.
  assert (Hold : ∀ k mk, l_conns l !! k = Some mk → l_next l ≠ k).
  { intros k mk Hk <-. destruct (li_conn _ Hl _ _ Hk) as [? _]. lia. }
  assert (Hal : ∀ k, alive_conn l k →
    alive_conn (Links (<[l_next l := m]> (l_conns l)) (l_pool l) (l_dialing l) (l_tasks l) (S (l_next l))) k).
  { intros k (mk & Hk & Hmk). exists mk. cbn. rewrite lookup_insert_ne by (by eapply Hold). done. }
  split; cbn.
  - intros k mk. rewrite lookup_insert_Some. intros [[<- <-]|[_ Hk]]; [rewrite Ho; split_and!; [lia|done|done]|].
    destruct (li_conn _ Hl _ _ Hk) as (? & ?). split; [lia|done].
  - intros b t Hb. pose proof (li_name _ Hl _ _ Hb). lia.
  - intros a k Ha. by apply Hal, (li_pool _ Hl a).
  - intros k sid class Hin. destruct (li_dialing _ Hl _ _ _ Hin). auto.
  - intros b t Hb. destruct (li_task _ Hl _ _ Hb) as (? & ? & ?). split; [done|]. split; [by apply is_Some_insert|auto].
  - intros k sid class mk Hin. destruct (li_dialing _ Hl _ _ _ Hin) as [_ (m0 & Hk & _)].
    rewrite lookup_insert_ne by (by eapply Hold). by apply (li_parity _ Hl k sid class).
  - intros k mk sid. rewrite lookup_insert_Some. intros [[<- <-]|[_ Hk]].
    + rewrite Ho. split; [by intros _ _ []| |].
      * intros class _ Hw. unfold waiting in Hw. cbn in Hw.
        assert (Hin : (l_next l, sid, class) ∈ filter (λ x, x.1 = (l_next l, sid)) (l_dialing l)) by (rewrite Hw; set_solver).
        apply list_elem_of_filter in Hin as [_ Hin]. destruct (li_dialing _ Hl _ _ _ Hin) as [_ (mk & Hk & _)].
        by destruct (Hold _ _ Hk).
      * intros b t (Hb & [Hc _] & _) _ _. cbn in Hb. destruct (li_task _ Hl _ _ Hb) as (_ & [mk Hk] & _).
        rewrite Hc in Hk. by destruct (Hold _ _ Hk).
    + eapply stream_inv_same; [by eapply (li_stream _ Hl)|done..].
Qed.

Lemma inv_pool l a n m :
  links_inv l → l_conns l !! n = Some m → tx_alive (out m) = true →
  links_inv (Links (l_conns l) (<[a := n]> (l_pool l)) (l_dialing l) (l_tasks l) (l_next l)).
Proof.
  intros Hl Hm Hal. split; cbn; try apply Hl.
  - intros a' n'. rewrite lookup_insert_Some. intros [[_ <-]|[_ Ha]]; [by exists m|by apply (li_pool _ Hl a')].
  - intros k mk sid Hk. eapply stream_inv_same; [by eapply (li_stream _ Hl)|done..].
Qed.

Lemma waiting_app l n sid x nx tasks conns pool :
  waiting (Links conns pool (l_dialing l ++ [x]) tasks nx) n sid
  = waiting l n sid ++ (if bool_decide (x.1 = (n, sid)) then [x] else []).
Proof.
  unfold waiting; cbn. rewrite filter_app. f_equal. unfold filter; cbn. rewrite <-decide_bool_decide. by destruct (decide _).
Qed.

Lemma inv_open l a n m class sid m' :
  links_inv l → l_pool l !! a = Some n → l_conns l !! n = Some m → open_begin class m = (Ok sid, m') →
  links_inv (Links (<[n := set_opening (opening m' ++ [sid]) m']> (l_conns l)) (l_pool l)
               (l_dialing l ++ [(n, sid, class)]) (l_tasks l) (l_next l)).
Proof.
  intros Hl Ha Hm Ho. destruct (open_begin_change _ _ _ _ Ho) as [Hc [Hsid Hrx]]. rewrite <-Hsid in Hc.
  destruct (li_conn _ Hl _ _ Hm) as (_ & Hok & _). pose proof (ok_next _ Hok) as Hr. rewrite <-Hsid in Hr.
  destruct (item_streams sid class [] Hr) as [Hi _].
  eapply (inv_conn_change l n m _ [(high_priority class, open_item sid class)]); try done.
  - destruct Hc as [Hc1 Hc2 Hc3 Hc4]. split; [|done..]. intros ?. apply (ok_same m'); auto. apply Hc1. done.
  - intros k s c. rewrite elem_of_app, list_elem_of_singleton. intros [Hin|[= -> -> ->]]; [by apply (li_dialing _ Hl k s c)|].
    split; [done|]. by apply (li_pool _ Hl a).
  - intros k s c mk. rewrite elem_of_app, list_elem_of_singleton.
    intros [Hin|[= -> -> ->]] Hk; [by apply (li_parity _ Hl k s c)|]. congruence.
  - intros b t. by apply li_task_full.
  - intros s. cbn [out set_opening]. rewrite (cc_out _ _ _ Hc). destruct (decide (s = sid)) as [->|Hne].
    + pose proof (li_stream _ Hl n m sid Hm) as [H1 _ _]. split; rewrite waiting_app, bool_decide_eq_true_2 by done.
      * intros _ Hw. by apply app_eq_nil in Hw as [_ ?].
      * intros cl Hn Hw. destruct (waiting l n sid) as [|y ys] eqn:Hws; [|by destruct ys].
        cbn in Hw. injection Hw as ->. apply (only_items_push cl sid _ _ []); [done..|]. apply none_only. by apply H1.
      * intros b t _ _ Hw. by apply app_eq_nil in Hw as [_ ?].
    + eapply stream_inv_same; [by eapply (li_stream _ Hl)| |done|].
      * rewrite waiting_app, bool_decide_eq_false_2, app_nil_r; [done|]. cbn. congruence.
      * intros hi. apply lane_items_other. congruence.
  - intros k mk s Hne Hk. eapply stream_inv_same; [by eapply (li_stream _ Hl)| |done..].
    rewrite waiting_app, bool_decide_eq_false_2, app_nil_r; [done|]. cbn. congruence.
Qed.

Lemma inv_open_fail l n m class e m' :
  links_inv l → l_conns l !! n = Some m → open_begin class m = (Err e, m') →
  links_inv (Links (<[n := m']> (l_conns l)) (l_pool l) (l_dialing l) (l_tasks l) (l_next l)).
Proof.
  intros Hl Hm Ho. destruct (open_begin_change _ _ _ _ Ho) as [[H1 H2 H3 H4] Hrx]. apply (inv_silent l n m m'); try done.
  split; [done| |done|done]. rewrite H2. unfold push. by rewrite Hrx.
Qed.

(** A new task, for a connection that has handles; the connection submits
    nothing. *)
Lemma inv_new_task l n m m' class sid dial :
  links_inv l → l_conns l !! n = Some m → conn_change [] m m' → tx_alive (out m) = true → 0 ≤ sid < 2 ^ 32 →
  (∀ x, x ∈ dial → x ∈ l_dialing l) →
  let l' := Links (<[n := m']> (l_conns l)) (l_pool l) dial
              (<[l_next l := Task n class sid BRunning []]> (l_tasks l)) (S (l_next l)) in
  (∀ k s, (k, s) ≠ (n, sid) → waiting l' k s = waiting l k s) →
  (no_task l n sid → waiting l' n sid = [] →
     only_items class sid (out m) [] ∨ only_items class sid (out m) [open_item sid class]) →
  links_inv l'.
Proof.
  intros Hl Hm Hc Hal Hsid Hdial l' Hw Hnew.
  assert (Hold : ∀ b t, l_tasks l !! b = Some t → l_next l ≠ b).
  { intros b t Hb <-. pose proof (li_name _ Hl _ _ Hb). lia. }
  assert (Hsame : ∀ k s b t, (k, s) ≠ (n, sid) → is_task k s t → l_tasks l' !! b = Some t ↔ l_tasks l !! b = Some t).
  { intros k s b t Hne [Hk Hs]. subst l'. cbn. rewrite lookup_insert_Some. split.
    - intros [[_ <-]|[_ ?]]; [cbn in *; congruence|done].
    - intros Hb. right. split; [by eapply Hold|done]. }
  eapply inv_conn_change; try done; [lia|..].
  - intros k s c Hin. apply (li_dialing _ Hl k s c). auto.
  - intros k s c mk Hin. apply (li_parity _ Hl k s c). auto.
  - intros b t. rewrite lookup_insert_Some. intros [[<- <-]|[_ Hb]]; cbn.
    + split; [lia|]. split; [done|]. split; [by rewrite Hm|]. intros _. by exists m.
    + destruct (li_task_full _ _ _ Hl Hb) as (? & ?). split; [lia|done].
  - intros s. rewrite (cc_out _ _ _ Hc), push_nil. destruct (decide (s = sid)) as [->|Hne].
    + assert (Hin : l_tasks l' !! l_next l = Some (Task n class sid BRunning [])) by apply lookup_insert_eq.
      split.
      * intros Hn. by destruct (Hn _ _ Hin).
      * intros cl Hn. by destruct (Hn _ _ Hin).
      * intros b t (Hb & Hi & Hu) Hp Hwt. pose proof (Hu _ _ Hin ltac:(by split)) as <-.
        pose proof (eq_trans (eq_sym Hb) Hin) as Heq. injection Heq as ->. cbn [task_class taken fmap list_fmap].
        destruct Hnew as [H|H]; [|done| |].
        { intros b' t' Hb' Hi'. apply (Hold _ _ Hb'), eq_sym, (Hu b' t'); [|done].
          subst l'; cbn. rewrite lookup_insert_ne; [done|by eapply Hold]. }
        { exists []. auto. }
        { exists [open_item sid class]. auto. }
    + eapply stream_inv_same; [by eapply (li_stream _ Hl)|apply Hw; congruence| |done].
      intros b t. apply Hsame. congruence.
  - intros k mk s Hne Hk. eapply stream_inv_same; [by eapply (li_stream _ Hl)|apply Hw; congruence| |done].
    intros b t. apply Hsame. congruence.
Qed.

Lemma filter_delete {A} (P : A → Prop) `{!∀ x, Decision (P x)} l i x :
  l !! i = Some x → ∃ l1 l2, filter P (delete i l) = l1 ++ l2
    ∧ filter P l = l1 ++ (if bool_decide (P x) then [x] else []) ++ l2.
Proof.
  intros Hi. exists (filter P (take i l)), (filter P (drop (S i) l)).
  rewrite delete_take_drop, filter_app. split; [done|].
  rewrite <-(take_drop_middle l i x Hi) at 1. rewrite filter_app, filter_cons, <-decide_bool_decide.
  by destruct (decide (P x)).
Qed.

Lemma inv_dialed l i n sid class m c m' :
  links_inv l → l_dialing l !! i = Some (n, sid, class) → l_conns l !! n = Some m → open_resume sid m = Some (c, m') →
  links_inv (Links (<[n := m']> (l_conns l)) (l_pool l) (delete i (l_dialing l))
               (<[l_next l := Task n class sid BRunning []]> (l_tasks l)) (S (l_next l))).
Proof.
  intros Hl Hi Hm Ho. apply list_elem_of_lookup_2 in Hi as Hin.
  destruct (li_dialing _ Hl _ _ _ Hin) as [Hr (m0 & Hm0 & Hal)]. rewrite Hm in Hm0. injection Hm0 as <-.
  apply (inv_new_task l n m m' class sid); try done.
  - by eapply open_resume_change.
  - intros x. apply list_elem_of_delete_inv.
  - intros k s Hne. unfold waiting; cbn -[delete].
    destruct (filter_delete (λ x, x.1 = (k, s)) _ _ _ Hi) as (l1 & l2 & -> & ->).
    rewrite bool_decide_eq_false_2; [done|]. cbn. congruence.
  - intros Hn Hw. right. apply (si_dialing _ _ _ _ (li_stream _ Hl n m sid Hm)); [done|]. unfold waiting in *; cbn -[delete] in Hw.
    destruct (filter_delete (λ x, x.1 = (n, sid)) _ _ _ Hi) as (l1 & l2 & H1 & ->). rewrite Hw in H1.
    symmetry in H1. apply app_eq_nil in H1 as [-> ->]. by rewrite bool_decide_eq_true_2.
Qed.

Lemma inv_incoming l n m s m' :
  links_inv l → l_conns l !! n = Some m → head (incoming m) = Some s → step ETake m = Some m' →
  links_inv (Links (<[n := m']> (l_conns l)) (l_pool l) (l_dialing l)
               (<[l_next l := Task n (in_class s) (in_stream_id s) BRunning []]> (l_tasks l)) (S (l_next l))).
Proof.
  intros Hl Hm Hs Ht. destruct (li_conn _ Hl _ _ Hm) as (_ & Hok & Hdrop).
  destruct (incoming m) as [|s0 q] eqn:Hq; [done|]. injection Hs as ->.
  apply (inv_new_task l n m m' (in_class s) (in_stream_id s)); try done.
  - by apply take_change.
  - destruct (tx_alive (out m)); [done|]. specialize (Hdrop eq_refl). unfold loop_ended in Hdrop.
    rewrite Hq in Hdrop. by repeat case_match.
  - apply (ok_announced _ Hok s). unfold announcements. rewrite Hq. set_solver.
  - intros Hn Hw. left. apply none_only. by apply (si_none _ _ _ _ (li_stream _ Hl n m (in_stream_id s) Hm)).
Qed.

Lemma conn_change_trans l1 l2 m1 m2 m3 :
  conn_change l1 m1 m2 → conn_change l2 m2 m3 → conn_change (l1 ++ l2) m1 m3.
Proof.
  intros [A1 B1 C1 D1] [A2 B2 C2 D2]. split; [auto| |auto|congruence]. by rewrite B2, B1, push_push.
Qed.

(** What a step of a task submits is its stream's, and while it runs it is the
    data it took. *)
Lemma task_step_change t m t' m' :
  0 ≤ task_sid t < 2 ^ 32 → task_step t m t' m' →
  ∃ items, conn_change items m m'
  ∧ (∀ s hi, s ≠ task_sid t → lane_items hi s (out m') = lane_items hi s (out m))
  ∧ task_conn t' = task_conn t ∧ task_class t' = task_class t ∧ task_sid t' = task_sid t ∧ task_phase t ≠ BEnded
  ∧ (task_phase t' = BRunning → ∃ x, task_phase t = BRunning ∧ taken t' = taken t ++ [x] ∧ rx_alive (out m) = true
       ∧ out m' = push [(high_priority (task_class t), data_item (task_sid t) x)] (out m)).
Proof.
  intros Hr Ht. destruct Ht as [x m' Hp Hs|x e m' Hp Hs|Hp|m' Hp Hs];
    [destruct (item_streams _ (task_class t) x Hr) as (_ & Hdata & Hclose)..|
     destruct (item_streams _ (task_class t) [] Hr) as (_ & Hdata & Hclose)|].
  - destruct (mux_send_change _ _ _ _ _ _ Hs) as [Hc Hrx]. eexists. split_and!; [exact Hc|..]; try done; [|congruence|].
    + intros s hi Hne. rewrite (cc_out _ _ _ Hc). apply lane_items_other. congruence.
    + intros _. exists x. split_and!; try done. apply (cc_out _ _ _ Hc).
  - destruct (mux_send_change _ _ _ _ _ _ Hs) as [Hc Hrx].
    pose proof (close_call_change (task_sid t) (task_class t) m') as Hc2. eexists.
    split_and!; [by eapply conn_change_trans|..]; try done; [|congruence].
    intros s hi Hne. rewrite (cc_out _ _ _ Hc2), (cc_out _ _ _ Hc), lane_items_other by congruence.
    apply lane_items_other. congruence.
  - pose proof (close_call_change (task_sid t) (task_class t) m) as Hc. eexists.
    split_and!; [exact Hc|..]; try done; [|congruence].
    intros s hi Hne. rewrite (cc_out _ _ _ Hc). apply lane_items_other. congruence.
  - pose proof (close_resume_change _ _ _ Hs) as Hc. eexists. split_and!; [exact Hc|..]; try done; [|congruence].
    intros s hi _. by rewrite (cc_out _ _ _ Hc), push_nil.
Qed.

Lemma inv_task l b t t' m m' :
  links_inv l → l_tasks l !! b = Some t → l_conns l !! task_conn t = Some m → task_step t m t' m' →
  links_inv (Links (<[task_conn t := m']> (l_conns l)) (l_pool l) (l_dialing l) (<[b := t']> (l_tasks l)) (l_next l)).
Proof.
  intros Hl Hb Hm Ht. destruct (li_task_full _ _ _ Hl Hb) as (Hn & Hr & _ & Hal).
  destruct (task_step_change _ _ _ _ Hr Ht) as (items & Hc & Hother & Hconn & Hclass & Hsid & Hlive & Hrun).
  assert (Hsame : ∀ k s b0 t0, (k, s) ≠ (task_conn t, task_sid t) → is_task k s t0 →
    <[b := t']> (l_tasks l) !! b0 = Some t0 ↔ l_tasks l !! b0 = Some t0).
  { intros k s b0 t0 Hne [Hk Hs]. rewrite lookup_insert_Some. split.
    - intros [[_ <-]|[_ ?]]; [congruence|done].
    - intros Hb0. right. split; [|done]. intros <-. congruence. }
  eapply inv_conn_change; try done.
  - apply (li_dialing _ Hl).
  - apply (li_parity _ Hl).
  - intros b0 t0. rewrite lookup_insert_Some. intros [[<- <-]|[_ Hb0]]; [|by apply li_task_full].
    rewrite Hsid, Hconn. split; [done|]. split; [done|]. split; [by rewrite Hm|auto].
  - intros s. destruct (decide (s = task_sid t)) as [->|Hne].
    + assert (Hin : is_task (task_conn t) (task_sid t) t') by done. split.
      * intros Hno. by destruct (Hno b t' (lookup_insert_eq _ _ _)).
      * intros cl Hno. by destruct (Hno b t' (lookup_insert_eq _ _ _)).
      * intros b0 t0 (Hb0 & Hi0 & Hu) Hp Hw. pose proof (Hu b t' (lookup_insert_eq _ _ _) Hin) as <-.
        cbn in Hb0. rewrite lookup_insert_eq in Hb0. injection Hb0 as <-.
        destruct (Hrun Hp) as (x & Hpt & Htk & Hrx & Ho).
        destruct (si_task _ _ _ _ (li_stream _ Hl _ _ (task_sid t) Hm) b t) as (opens & Hopens & Honly); [|done|done|].
        { split_and!; [done|done|]. intros b' t0 Hb' Hi'. destruct (decide (b = b')) as [|Hne]; [done|].
          apply (Hu b' t0); [|done]. cbn. by rewrite lookup_insert_ne. }
        exists opens. rewrite Hclass. split; [done|]. rewrite Htk, fmap_app, app_assoc, Ho.
        apply only_items_push; [|done..]. by apply (item_streams (task_sid t) (task_class t) x).
    + eapply stream_inv_same; [by eapply (li_stream _ Hl)|done| |by intros; apply Hother].
      intros b0 t0. apply Hsame. congruence.
  - intros k mk s Hne Hk. eapply stream_inv_same; [by eapply (li_stream _ Hl)|done| |done].
    intros b0 t0. apply Hsame. congruence.
Qed.

Lemma lstep_inv l l' : links_inv l → lstep l l' → links_inv l'.
Proof.
  intros Hl Hs. destruct Hs.
  - by apply inv_grow.
  - eapply inv_silent; [done..|]. apply hang_up_change.
  - by apply inv_spawn.
  - by eapply inv_pool.
  - by eapply inv_open.
  - by eapply inv_open_fail.
  - by eapply inv_dialed.
  - by eapply inv_incoming.
  - by eapply inv_task.
Qed.

Lemma lsteps_inv l l' : links_inv l → lsteps l l' → links_inv l'.
Proof. intros Hl Hs. induction Hs as [|l1 l2 l3 H12 _ IH]; [done|]. apply IH. by eapply lstep_inv. Qed.

(** *** Steps of a connection's own tasks *)

Lemma loop_ended_step e m m' : loop_ended m = true → step e m = Some m' → loop_ended m' = true.
Proof.
  intros Hl Hs. assert (reader m = RDone ∧ first m = FirstEnded ∧ incoming m = []) as (Hr & Hf & Hi).
  { unfold loop_ended in Hl. by repeat case_match. }
  destruct (step_ended _ _ _ Hr Hf Hs) as [Hr' Hf'].
  assert (incoming m' = []) as Hi'.
  { destruct e; cbn [step] in Hs; unfold resume in Hs; rewrite ?Hr, ?Hf, ?Hi in Hs; step_cases Hs; try congruence;
      unfold enqueue, close_begin in *; repeat case_match; simplify_eq/=; congruence. }
  unfold loop_ended. by rewrite Hr', Hf', Hi'.
Qed.

Lemma own_step_submits n m e d : own_step n m e d = true → submitted e m = [].
Proof. by destruct e. Qed.

(** Steps other than dropping the last handle keep the handles. *)
Lemma step_tx_alive e m m' : step e m = Some m' → e ≠ EDropConn → tx_alive (out m') = tx_alive (out m).
Proof.
  intros Hs He. rewrite (step_out _ _ _ Hs). destruct e; try done; try apply push_alive.
  unfold write_pick. by repeat case_match; simplify_eq/=.
Qed.

Lemma own_step_inv e n m m' d :
  links_inv (links_of d) → conns d !! n = Some m → own_step n m e d = true → step e m = Some m' →
  links_inv (links_of (set_conns (<[n := m']> (conns d)) d)).
Proof.
  intros Hl Hm Ho Hs. destruct (li_conn _ Hl _ _ Hm) as (_ & Hok & Hdrop).
  assert (Hal : ∀ k, alive_conn (links_of d) k → (k = n → e ≠ EDropConn) →
    alive_conn (links_of (set_conns (<[n := m']> (conns d)) d)) k).
  { intros k (mk & Hk & Hmk) Hne. unfold alive_conn; cbn. destruct (decide (n = k)) as [->|Hnk].
    - exists m'. rewrite lookup_insert_eq. split; [done|]. cbn in Hk. simplify_eq.
      rewrite (step_tx_alive _ _ _ Hs) by auto. done.
    - exists mk. by rewrite lookup_insert_ne. }
  assert (Hheld : e = EDropConn → conn_held n m d = false).
  { intros ->. cbn in Ho. by destruct (conn_held n m d). }
  unfold conn_held in Hheld.
  split; cbn.
  - intros k mk. rewrite lookup_insert_Some. intros [[<- <-]|[_ Hk]]; [|by apply (li_conn _ Hl)].
    destruct (li_conn _ Hl _ _ Hm) as (? & _). split_and!; [done|by eapply step_ok|].
    intros Hdead. apply (loop_ended_step e m); [|done]. assert (e = EDropConn ∨ e ≠ EDropConn) as [->|Hne] by (destruct e; auto).
    + specialize (Hheld eq_refl). by destruct (loop_ended m).
    + apply Hdrop. by rewrite <-(step_tx_alive _ _ _ Hs).
  - apply (li_name _ Hl).
  - intros a k Ha. apply Hal; [by apply (li_pool _ Hl a)|]. intros -> ->. specialize (Hheld eq_refl).
    rewrite !orb_false_iff, !bool_decide_eq_false in Hheld. destruct Hheld as ((((_ & Hp) & _) & _) & _).
    apply Hp. by exists a, n.
  - intros k sid class Hin. destruct (li_dialing _ Hl _ _ _ Hin) as [? ?]. split; [done|]. apply Hal; [done|].
    intros -> ->. specialize (Hheld eq_refl). rewrite !orb_false_iff in Hheld. destruct Hheld as [_ Hd].
    assert (Ht : existsb (λ x : nat * Z * StreamClass, bool_decide (x.1.1 = n)) (dialing d) = true); [|congruence].
    apply existsb_exists. exists (n, sid, class). split; [by apply list_elem_of_In|]. by apply bool_decide_eq_true_2.
  - intros b t Hb. destruct (li_task _ Hl _ _ Hb) as (? & ? & Ht). split; [done|]. split; [by apply is_Some_insert|].
    intros Hp. apply Hal; [by apply Ht|]. intros Hn ->. specialize (Hheld eq_refl).
    rewrite !orb_false_iff, !bool_decide_eq_false in Hheld. destruct Hheld as ((_ & Hbr) & _). apply Hbr.
    cbn in Hb. rewrite lookup_omap in Hb. apply bind_Some in Hb as (br & Hbr' & Htk). exists b, br. split; [done|].
    unfold task_of in Htk. unfold bridge_on. destruct (bridge_to br); simplify_eq. cbn in *.
    rewrite bool_decide_eq_true_2, bool_decide_eq_false_2 by done. done.
  - intros k sid class mk Hin. rewrite lookup_insert_Some. intros [[<- <-]|[_ Hk]]; [|by eapply (li_parity _ Hl)].
    rewrite (step_parity _ _ _ Hs). by eapply (li_parity _ Hl).
  - intros k mk sid. rewrite lookup_insert_Some. intros [[<- <-]|[_ Hk]];
      (eapply stream_inv_same; [by eapply (li_stream _ Hl)|done|done|]); [|done].
    intros hi. unfold lane_items. rewrite (step_lane hi _ _ _ Hs), (own_step_submits _ _ _ _ Ho).
    f_equal. destruct (rx_alive (out m)); by rewrite app_nil_r.
Qed.

Lemma new_links_inv cfg : links_inv (links_of (new_manager cfg)).
Proof.
  split; cbn; try (intros *; rewrite ?omap_empty, lookup_empty; done); set_solver.
Qed.

(** ** What a connection has read *)

(** No task of the stream has ended, so this side has not closed it. *)
Definition unended (l : links) (k : nat) (sid : Z) : Prop :=
  ∀ b t, l_tasks l !! b = Some t → is_task k sid t → task_phase t ≠ BEnded.

(** The table of connection [k] has for stream [sid] what the frames read so far
    say, unless this side closed the stream or numbers its own streams like it. *)
Definition reads (l : links) (k : nat) (sid : Z) (st : option (list (list byte))) : Prop :=
  match l_conns l !! k with
  | Some m => unended l k sid → Z.odd sid ≠ Z.odd (next_stream_id m) → agrees sid (tbl m) (reader m) st
  | None => st = None
  end.

Lemma unended_mono l l' k sid :
  (∀ b t, l_tasks l !! b = Some t → task_phase t = BEnded → l_tasks l' !! b = Some t) →
  unended l' k sid → unended l k sid.
Proof. intros Hm Hu b t Hb Hi Hp. by destruct (Hu b t (Hm b t Hb Hp) Hi). Qed.

(** A connection changes by a step that reads nothing. *)
Lemma reads_silent l l' n m m' e k sid st :
  links_inv l → l_conns l !! n = Some m → step e m = Some m' → observed e m = [] →
  (unended l' n sid → Z.odd sid ≠ Z.odd (next_stream_id m') → local_event sid e = false) →
  l_conns l' = <[n := m']> (l_conns l) →
  (∀ b t, l_tasks l !! b = Some t → task_phase t = BEnded → l_tasks l' !! b = Some t) →
  reads l k sid st → reads l' k sid st.
Proof.
  intros Hl Hm Hs Hobs Hloc Hc Ht Hr. unfold reads in *. rewrite Hc. destruct (decide (n = k)) as [<-|Hne].
  - rewrite lookup_insert_eq, Hm in *. intros Hu Hp. destruct (li_conn _ Hl _ _ Hm) as (_ & Hok & _).
    eapply quiet_step_agrees; [apply Hok|done|by apply Hloc|done|]. apply Hr; [by eapply unended_mono|].
    by rewrite <-(step_parity _ _ _ Hs).
  - rewrite lookup_insert_ne by done. destruct (l_conns l !! k); [|done]. intros Hu. apply Hr. by eapply unended_mono.
Qed.

(** Its table, reader and numbering stay. *)
Lemma reads_same l l' n m m' k sid st :
  l_conns l !! n = Some m → tbl m' = tbl m → reader m' = reader m →
  Z.odd (next_stream_id m') = Z.odd (next_stream_id m) → l_conns l' = <[n := m']> (l_conns l) →
  (∀ b t, l_tasks l !! b = Some t → task_phase t = BEnded → l_tasks l' !! b = Some t) →
  reads l k sid st → reads l' k sid st.
Proof.
  intros Hm Et Er En Hc Ht Hr. unfold reads in *. rewrite Hc. destruct (decide (n = k)) as [<-|Hne].
  - rewrite lookup_insert_eq, Hm in *. rewrite Et, Er, En. intros Hu. apply Hr. by eapply unended_mono.
  - rewrite lookup_insert_ne by done. destruct (l_conns l !! k); [|done]. intros Hu. apply Hr. by eapply unended_mono.
Qed.

Lemma open_begin_same class m r m' : open_begin class m = (r, m') → tbl m' = tbl m ∧ reader m' = reader m.
Proof. unfold open_begin. destruct (enqueue _ _ _) as [[] o]; by intros [= _ <-]. Qed.

Lemma mux_send_same sid x class m r m' :
  mux_send sid x class m = (r, m') → tbl m' = tbl m ∧ reader m' = reader m ∧ next_stream_id m' = next_stream_id m.
Proof. unfold mux_send. destruct (enqueue _ _ _) as [? o]. by intros [= _ <-]. Qed.

Lemma task_step_reads l b t t' m m' k sid st :
  links_inv l → l_tasks l !! b = Some t → l_conns l !! task_conn t = Some m → task_step t m t' m' →
  reads l k sid st →
  reads (Links (<[task_conn t := m']> (l_conns l)) (l_pool l) (l_dialing l) (<[b := t']> (l_tasks l)) (l_next l)) k sid st.
Proof.
  intros Hl Hb Hm Ht Hr.
  assert (Hmono : task_phase t ≠ BEnded →
    ∀ b0 t0, l_tasks l !! b0 = Some t0 → task_phase t0 = BEnded → <[b := t']> (l_tasks l) !! b0 = Some t0).
  { intros Hp b0 t0 Hb0 Hp0. rewrite lookup_insert_ne; [done|]. intros <-. congruence. }
  destruct Ht as [x m' Hp Hs|x e m' Hp Hs|Hp|m' Hp Hs].
  - destruct (mux_send_same _ _ _ _ _ _ Hs) as (? & ? & Hn).
    eapply reads_same; try done; [by rewrite Hn|]. apply Hmono. congruence.
  - destruct (mux_send_same _ _ _ _ _ _ Hs) as (? & ? & Hn).
    eapply (reads_same _ _ _ _ (close_call _ _ m')); try done; [by cbn; rewrite Hn|]. apply Hmono. congruence.
  - eapply (reads_same _ _ _ _ (close_call _ _ m)); try done. apply Hmono. congruence.
  - eapply (reads_silent _ _ _ _ _ (ERemove (task_sid t))); try done; [|apply Hmono; congruence].
    intros Hu _. cbn. apply Z.eqb_neq. intros <-. by destruct (Hu b _ (lookup_insert_eq _ _ _) ltac:(done)).
Qed.

Lemma lstep_reads l l' k sid st : links_inv l → lstep l l' → reads l k sid st → reads l' k sid st.
Proof.
  intros Hl Hs Hr.
  assert (Hfresh : ∀ t0, ∀ b t, l_tasks l !! b = Some t → task_phase t = BEnded → <[l_next l := t0]> (l_tasks l) !! b = Some t).
  { intros t0 b t Hb _. rewrite lookup_insert_ne; [done|]. pose proof (li_name _ Hl _ _ Hb). lia. }
  destruct Hs as [|n m c Hm|m Hm|a n m|a n m class s m' _ Hm Ho|a n m class e m' _ Hm Ho|i n s class m c m' Hi Hm Ho|
    n m s m' Hm Hs Ht|b t t' m m' Hb Hm Ht].
  - done.
  - by eapply (reads_silent _ _ _ _ _ (EDropRx c)).
  - unfold reads in *; cbn. rewrite lookup_insert. case_decide as Hk; [subst k|done].
    destruct (l_conns l !! l_next l) as [m0|] eqn:Hm0; [destruct (li_conn _ Hl _ _ Hm0); lia|]. subst st.
    intros _ _. unfold agrees. by destruct Hm as (a & [->|[p ->]]).
  - done.
  - destruct (open_begin_same _ _ _ _ Ho), (open_begin_change _ _ _ _ Ho) as [Hc _].
    eapply (reads_same _ _ _ _ (set_opening _ m')); try done. apply (cc_next _ _ _ Hc).
  - destruct (open_begin_same _ _ _ _ Ho), (open_begin_change _ _ _ _ Ho) as [Hc _].
    eapply (reads_same _ _ _ _ m'); try done. apply (cc_next _ _ _ Hc).
  - assert (Hs : step (EInsert s) m = Some m') by (cbn; by rewrite Ho).
    eapply (reads_silent _ _ _ _ _ (EInsert s)); try done; [|apply Hfresh]. intros _ Hp. cbn. apply Z.eqb_neq. intros ->.
    apply Hp. rewrite (step_parity _ _ _ Hs). apply (li_parity _ Hl n sid class); [|done]. by eapply list_elem_of_lookup_2.
  - eapply (reads_silent _ _ _ _ _ ETake); try done. apply Hfresh.
  - by eapply task_step_reads.
Qed.

(** A step of a connection's own tasks. *)
Lemma own_step_reads n m m' e d k sid st :
  links_inv (links_of d) → conns d !! n = Some m → own_step n m e d = true → step e m = Some m' →
  reads (links_of d) k sid st →
  reads (links_of (set_conns (<[n := m']> (conns d)) d)) k sid
    (foldl (spec_frame sid) st
       (if bool_decide (n = k) then match conns d !! k with Some m => observed e m | None => [] end else [])).
Proof.
  intros Hl Hm Ho Hs Hr. unfold reads in *; cbn in *. destruct (decide (n = k)) as [<-|Hne].
  - rewrite bool_decide_eq_true_2, lookup_insert_eq, Hm in * by done. intros Hu Hp.
    destruct (li_conn _ Hl _ _ Hm) as (_ & Hok & _). rewrite (step_parity _ _ _ Hs) in Hp.
    apply step_agrees; [apply Hok|done|by destruct e|by apply Hr].
  - rewrite bool_decide_eq_false_2, lookup_insert_ne by done. done.
Qed.

Lemma lsteps_reads l l' k sid st : links_inv l → lsteps l l' → reads l k sid st → reads l' k sid st.
Proof.
  intros Hl Hs. induction Hs as [|l1 l2 l3 H12 _ IH]; [done|]. intros Hr.
  apply IH; [by eapply lstep_inv|by eapply lstep_reads].
Qed.

Section Runs.
Context `{ED : !Ed25519, CM : !CaseMapping}.

Lemma dstep_inv e d d' :
  daemon_wf d → links_inv (links_of d) → dstep e d = Some d' → daemon_wf d' ∧ links_inv (links_of d').
Proof.
  intros Hd Hl Hs. split; [by eapply dstep_wf|].
  destruct (dstep_links _ _ _ Hd Hs) as [H|(n & e' & m & m' & -> & Hm & Ho & Hst & ->)].
  - by eapply lsteps_inv.
  - by eapply own_step_inv.
Qed.

Lemma drun_inv es cfg d :
  drun es (new_manager cfg) = Some d → daemon_wf d ∧ links_inv (links_of d).
Proof.
  apply (drun_invariant (λ d, daemon_wf d ∧ links_inv (links_of d))).
  - intros e d1 d2 [? ?] Hs. by eapply dstep_inv.
  - split; [apply new_manager_wf|apply new_links_inv].
Qed.

(** The frames the read task of connection [k] takes from the peer in a run. *)
Definition dobserved (k : nat) (e : devent) (d : daemon) : list (FrameType * list byte) :=
  match e with
  | DConn n e => if bool_decide (n = k) then match conns d !! k with Some m => observed e m | None => [] end else []
  | _ => []
  end.
Fixpoint frames_read (k : nat) (es : list devent) (d : daemon) : list (FrameType * list byte) :=
  match es with
  | [] => []
  | e :: es => dobserved k e d ++ match dstep e d with Some d' => frames_read k es d' | None => [] end
  end.

Lemma dstep_reads e d d' k sid st :
  daemon_wf d → links_inv (links_of d) → dstep e d = Some d' →
  reads (links_of d) k sid st → reads (links_of d') k sid (foldl (spec_frame sid) st (dobserved k e d)).
Proof.
  intros Hd Hl Hs Hr.
  destruct (dstep_links _ _ _ Hd Hs) as [H|(n & e' & m & m' & -> & Hm & Ho & Hst & ->)].
  - assert (dobserved k e d = [] ∨ ∃ n e', e = DConn n e') as [->|(n & e' & ->)].
    { destruct e; eauto. }
    + by eapply lsteps_reads.
    + cbn [dstep] in Hs. apply bind_Some in Hs as (m & Hm & Hs). destruct (own_step n m e' d) eqn:Ho; [|done].
      apply bind_Some in Hs as (m' & Hst & [= <-]). clear H. by eapply own_step_reads.
  - by eapply own_step_reads.
Qed.

Lemma drun_reads es d d' k sid st :
  daemon_wf d → links_inv (links_of d) → drun es d = Some d' →
  reads (links_of d) k sid st → reads (links_of d') k sid (foldl (spec_frame sid) st (frames_read k es d)).
Proof.
  revert d st; induction es as [|e es IH]; intros d st Hd Hl Hrun Hr; simpl in *; [by simplify_eq|].
  apply bind_Some in Hrun as (d1 & Hs & Hrun). rewrite Hs, foldl_app. destruct (dstep_inv _ _ _ Hd Hl Hs).
  apply (IH d1); [done..|]. by eapply dstep_reads.
Qed.

(** ** What agents have sent on a stream *)

(** The data [send] accepted for the channel of task [k] in a run, in order. *)
Definition sent (k : nat) (e : devent) (d : daemon) : list (list byte) :=
  match e with
  | DSend sid x =>
      match d_streams d !! sid with
      | Some en =>
          if bool_decide (data_tx en = k) then match (send sid x d).1 with Done _ => [x] | _ => [] end else []
      | None => []
      end
  | DSendResume =>
      match sending d with
      | Some (n, x) =>
          if bool_decide (n = k) then
            match bridges d !! k with
            | Some b => match chan_send x (bridge_data b) with Some (true, _) => [x] | _ => [] end
            | None => []
            end
          else []
      | None => []
      end
  | _ => []
  end.
Fixpoint sends (k : nat) (es : list devent) (d : daemon) : list (list byte) :=
  match es with
  | [] => []
  | e :: es => sent k e d ++ match dstep e d with Some d' => sends k es d' | None => [] end
  end.

(** What went into a task's channel: what the task has taken and what waits. *)
Definition carried (b : bridge) : list (list byte) := got (bridge_data b) ++ buf (bridge_data b).
Definition content (k : nat) (bs : gmap nat bridge) : list (list byte) :=
  match bs !! k with Some b => carried b | None => [] end.

Lemma content_alter f j k bs : (∀ b, carried (f b) = carried b) → content k (alter f j bs) = content k bs.
Proof.
  intros Hf. unfold content. destruct (decide (j = k)) as [->|Hne]; [|by rewrite lookup_alter_ne].
  rewrite lookup_alter_eq. destruct (bs !! k); cbn; [apply Hf|done].
Qed.

Lemma content_insert j k b b' bs : bs !! j = Some b → carried b' = carried b → content k (<[j := b']> bs) = content k bs.
Proof.
  intros Hb Hc. unfold content. destruct (decide (j = k)) as [->|Hne]; [|by rewrite lookup_insert_ne].
  by rewrite lookup_insert_eq, Hb.
Qed.

Lemma content_fresh j k b bs : bs !! j = None → carried b = [] → content k (<[j := b]> bs) = content k bs.
Proof.
  intros Hb Hc. unfold content. destruct (decide (j = k)) as [->|Hne]; [|by rewrite lookup_insert_ne].
  by rewrite lookup_insert_eq, Hb.
Qed.

Lemma content_drop_entry k e d : content k (bridges (drop_stream_entry e d)) = content k (bridges d).
Proof.
  unfold drop_stream_entry. destruct (recv_rx e) as [[n c|j]|]; cbn; rewrite ?content_alter; try done;
    by intros [sid ch [] ph].
Qed.

Lemma content_remove k sid d : content k (bridges (remove_stream sid d)) = content k (bridges d).
Proof. unfold remove_stream. destruct (d_streams d !! sid); [|done]. apply content_drop_entry. Qed.

(** A new task with an empty channel and its entry. *)
Lemma content_add k sid e b d :
  daemon_wf d → carried b = [] → content k (bridges (insert_stream sid e (spawn_bridge b d).2)) = content k (bridges d).
Proof.
  intros Hd Hb. unfold insert_stream. cbn [bridges set_streams].
  assert (H : content k (bridges (spawn_bridge b d).2) = content k (bridges d)).
  { apply content_fresh; [|done]. apply eq_None_not_Some. intros [b' Hk]. pose proof (wf_name _ Hd _ _ Hk). cbn in *. lia. }
  destruct (d_streams _ !! sid); [|exact H]. by rewrite content_drop_entry.
Qed.

Lemma content_finish k n sid class d :
  daemon_wf d → content k (bridges (dial_finish n sid class d)) = content k (bridges d).
Proof. intros Hd. by apply (content_add k sid _ (Bridge sid new_chan (ToMux n class) BRunning) d). Qed.

Lemma content_dial k connect get now now' target class d :
  daemon_wf d → content k (bridges (dial connect get now now' target class d).2) = content k (bridges d).
Proof.
  intros Hd. unfold dial.
  assert (H : ∀ addr d0, daemon_wf d0 → content k (bridges
    (if use_mux (config d0) then dial_mux connect addr class d0 else dial_direct connect addr class d0).2) = content k (bridges d0)).
  { intros addr d0 Hd0. destruct (use_mux _).
    - unfold dial_mux. destruct (pooled_conn connect addr d0) as [r d1] eqn:Hp.
      destruct (wf_pooled _ _ _ _ _ Hd0 Hp) as (H1 & _ & Hn).
      assert (Hb : bridges d1 = bridges d0).
      { revert Hp. unfold pooled_conn, create_mux_conn. destruct (mux_pool d0 !! addr); [by intros [= _ <-]|].
        destruct (connect addr) as [tcp|]; [|by intros [= _ <-]].
        destruct (client_authenticate _ tcp) as [[] ?]; by intros [= _ <-]. }
      destruct r as [n|e|]; [|by cbn; rewrite Hb..]. destruct (conns d1 !! n) as [m|] eqn:Hm; [|by cbn; rewrite Hb].
      destruct (wf_conn _ H1 _ _ Hm) as [_ Hok]. destruct (open_stream_ok class m Hok) as (Hok' & Hch & _).
      pose proof (wf_set_conn n m _ d1 H1 Hm Hok' Hch) as H2.
      destruct (open_stream class m) as [[[sid c]|e|] m']; cbn [fst snd] in *; [|by cbn; rewrite Hb..].
      rewrite content_finish by done. cbn. by rewrite Hb.
    - unfold dial_direct. destruct (connect addr) as [tcp|e]; [|done].
      destruct (direct_open _ _ _ _) as [[u|e|] s]; [|done..].
      apply (content_add k (d_next_stream_id d0) _
        (Bridge (d_next_stream_id d0) new_chan (ToSocket (rd s) [] (wr s) new_chan) BRunning) (bump_next_stream_id d0)); [|done].
      apply (wf_roles d0); try done; try apply Hd0; [by apply conns_later_same|apply u32_wrap_range]. }
  destruct (starts_with _ _); [|by apply H]. destruct (resolver d) as [r|]; [|done].
  destruct (resolve _ _ _ _ _) as [[[addr|e] u] r']; [|done].
  apply (H addr (set_resolver (Some r') d)). apply (wf_quiet d); try done. by apply conns_later_same.
Qed.

Lemma content_inbound k nonce s d :
  daemon_wf d → content k (bridges (handle_inbound nonce s d).2) = content k (bridges d).
Proof.
  intros Hd. unfold handle_inbound. destruct (server_authenticate _ _ _) as [[?|e|] s1]; [|done..].
  destruct (read_frame _) as [[[ft p]|e|] r]; [|done..].
  destruct ft; try done. unfold handle_inbound_relay.
  destruct (zlen p <? 5); [done|]. destruct (write_frame _ _ _) as [[u|e|] w]; [|done..].
  by apply (content_add k _ _ (Bridge (be_value (take 4 p)) new_chan (ToSocket r [] w new_chan) BRunning) d).
Qed.

(** A task's own step moves data from its channel to itself at most. *)
Lemma content_step k j f d d' :
  (∀ b b', f b = Some b' → carried b' = carried b) → bridge_step j f d = Some d' →
  content k (bridges d') = content k (bridges d).
Proof.
  intros Hf (b & Hb & (b' & Hb' & [= <-])%bind_Some)%bind_Some. cbn. eapply content_insert; [done|by apply Hf].
Qed.

Lemma recv_carried ch o ch' : chan_recv ch = (o, ch') → got ch' ++ buf ch' = got ch ++ buf ch.
Proof. intros H. by apply chan_recv_Done in H as (_ & _ & ?). Qed.

Lemma turn_carried b class m b' m' : mux_bridge_turn b class m = Some (b', m') → carried b' = carried b.
Proof.
  destruct b as [sid [bf g tx rx] to ph]. unfold mux_bridge_turn, carried; cbn. destruct ph; try done.
  - destruct bf as [|x bf]; cbn.
    + destruct tx; [done|]. by intros [= <- <-].
    + destruct (mux_send sid x class m) as [[]?]; intros [= <- <-]; cbn; by rewrite <-app_assoc.
  - by intros (? & _ & [= <- _])%bind_Some.
Qed.

Lemma loop_carried f b b' :
  (∀ rd held wr recv b b', f rd held wr recv b = Some b' → carried b' = carried b) →
  at_loop f b = Some b' → carried b' = carried b.
Proof. intros Hf. unfold at_loop. repeat case_match; try done. by apply Hf. Qed.

Lemma outgoing_carried rd wr recv b b' : bridge_outgoing rd wr recv b = Some b' → carried b' = carried b.
Proof.
  unfold bridge_outgoing, carried. destruct (chan_recv _) as [[[x|]| |] ch] eqn:Hr; try done.
  - apply recv_carried in Hr. destruct (write_frame _ _ _) as [[]?]; by intros [= <-].
  - by intros [= <-].
Qed.

Lemma incoming_carried rd held wr recv b b' : bridge_incoming rd held wr recv b = Some b' → carried b' = carried b.
Proof. unfold bridge_incoming, carried. repeat case_match; by intros [= <-]. Qed.

Lemma content_send k sid x d :
  content k (bridges (send sid x d).2) = content k (bridges d) ++ sent k (DSend sid x) d.
Proof.
  unfold sent, send. destruct (d_streams d !! sid) as [e|]; [|by rewrite app_nil_r].
  destruct (bridges d !! data_tx e) as [b|] eqn:Hb; [|case_bool_decide; by rewrite app_nil_r].
  destruct (chan_send x (bridge_data b)) as [[[] ch]|] eqn:Hc; cbn; [|case_bool_decide; by rewrite app_nil_r..].
  apply chan_send_Some in Hc as (_ & _ & Hg & Hrx & Hbuf & _). unfold content. case_bool_decide as Hk.
  - subst k. rewrite lookup_insert_eq, Hb. unfold carried; cbn. by rewrite Hg, Hbuf, app_assoc.
  - by rewrite lookup_insert_ne, app_nil_r.
Qed.

Lemma dstep_content k e d d' :
  daemon_wf d → dstep e d = Some d' → content k (bridges d') = content k (bridges d) ++ sent k e d.
Proof.
  intros Hd H. destruct e; try (cbn [sent]; rewrite app_nil_r); cbn [dstep] in H; try (destruct (unlocked d); [|done]).
  - simplify_eq. unfold start_listener. repeat case_match; done.
  - by destruct (listener_up d); simplify_eq.
  - simplify_eq. by apply content_dial.
  - destruct (dial_resume i d) as [[y d1]|] eqn:Hr; cbn in H; simplify_eq.
    apply bind_Some in Hr as ([[n sid] class] & Hi & (m & Hm & ([c m'] & Ho & [= _ <-])%bind_Some)%bind_Some).
    assert (Hs : step (EInsert sid) m = Some m') by (cbn; by rewrite Ho).
    pose proof (wf_step_conn _ _ _ _ _ Hd Hm Hs) as H1.
    rewrite content_finish; [done|]. apply wf_set_dialing; [done|]. intros k0 s c0 Hin. apply (wf_dialing _ H1 k0 s c0). by eapply list_elem_of_delete_inv.
  - simplify_eq. apply content_send.
  - apply bind_Some in H as ([n x] & Hs & (b & Hb & ([ok ch] & Hc & [= <-])%bind_Some)%bind_Some).
    cbn [sent]. rewrite Hs. pose proof (chan_send_Some _ _ _ _ Hc) as (_ & _ & Hg & -> & Hbuf & Hno).
    unfold content; cbn. case_bool_decide as Hk; [subst k|by rewrite lookup_insert_ne, app_nil_r].
    rewrite lookup_insert_eq, Hb, Hc. unfold carried; cbn. destruct (rx_open (bridge_data b)).
    + by rewrite Hg, Hbuf, app_assoc.
    + by rewrite Hno, app_nil_r.
  - simplify_eq. apply content_remove.
  - simplify_eq. unfold take_recv_rx. by destruct (d_streams d !! sid).
  - destruct (listener_up d && unlocked d); simplify_eq. by apply content_inbound.
  - apply bind_Some in H as (m & Hm & (s & Hs & (m' & Ht & [= <-])%bind_Some)%bind_Some).
    unfold register_mux_incoming.
    apply (content_add k _ _ (Bridge (in_stream_id s) new_chan (ToMux conn (in_class s)) BRunning)
             (set_conns (<[conn := m']> (conns d)) d)); [|done]. by eapply wf_step_conn.
  - apply bind_Some in H as (m & Hm & H). destruct (own_step _ _ _ _); [|done].
    by apply bind_Some in H as (m' & _ & [= <-]).
  - apply bind_Some in H as (b & Hb & H). destruct (bridge_to b) as [conn class|rd held wr recv].
    + apply bind_Some in H as (m & Hm & ([b' m'] & Ht & [= <-])%bind_Some). cbn.
      eapply content_insert; [done|by eapply turn_carried].
    + destruct (phase b) as [|x| |]; try done.
      * apply bind_Some in H as (b' & Hb' & [= <-]). cbn. eapply content_insert; [done|].
        revert Hb'. unfold bridge_deliver, carried. repeat case_match; by intros [= <-].
      * destruct (unlocked d); [|done]. simplify_eq. cbn. rewrite content_alter; [apply content_remove|].
        by intros [sid ch [] ph].
  - revert H. apply content_step. intros b b'. apply loop_carried. intros ??????. apply outgoing_carried.
  - revert H. apply content_step. intros b b'. apply loop_carried. intros ??????. apply incoming_carried.
  - revert H. apply content_step. intros b b'. apply loop_carried. intros ??????. repeat case_match; by intros [= <-].
  - revert H. apply content_step. intros b b'. repeat case_match; by intros [= <-].
  - revert H. apply content_step. intros b b'. repeat case_match; by intros [= <-].
  - revert H. apply content_step. intros b b'. repeat case_match; by intros [= <-].
  - revert H. apply content_step. intros b b'. repeat case_match; by intros [= <-].
Qed.

Lemma drun_content k es d d' :
  daemon_wf d → drun es d = Some d' → content k (bridges d') = content k (bridges d) ++ sends k es d.
Proof.
  revert d; induction es as [|e es IH]; intros d Hd Hrun; simpl in *; [by simplify_eq; rewrite app_nil_r|].
  apply bind_Some in Hrun as (d1 & Hs & Hrun). rewrite Hs, (IH d1) by (done || by eapply dstep_wf).
  by rewrite (dstep_content k e d d1), app_assoc.
Qed.
End Runs.

(** ** Claims *)

(** Data frames for a stream that is not open change nothing. *)
Lemma spec_datas_closed sid ds :
  0 ≤ sid < 2 ^ 32 → foldl (spec_frame sid) None (item_frame <$> (data_item sid <$> ds)) = None.
Proof.
  intros Hs. induction ds as [|d ds IH]; [done|]. cbn [fmap list_fmap foldl].
  assert (spec_frame sid None (item_frame (data_item sid d)) = None) as ->; [|exact IH].
  cbn. by destruct ((4 <=? _) && _).
Qed.

(** A stream of which some of the items were read. *)
Lemma spec_items_prefix sid class opens ds l :
  0 ≤ sid < 2 ^ 32 → opens = [] ∨ opens = [open_item sid class] →
  l `prefix_of` opens ++ (data_item sid <$> ds) →
  foldl (spec_frame sid) None (item_frame <$> l) = None
  ∨ ∃ ds', ds' `prefix_of` ds ∧ foldl (spec_frame sid) None (item_frame <$> l) = Some ds'.
Proof.
  intros Hs Ho Hp.
  assert (Hdata : ∀ l', l' `prefix_of` data_item sid <$> ds → ∃ ds', ds' `prefix_of` ds ∧ l' = data_item sid <$> ds').
  { intros l' [k Hk]. exists (take (length l') ds). split; [apply prefix_take|].
    by rewrite fmap_take, Hk, take_app_length. }
  destruct Ho as [->| ->].
  - left. destruct (Hdata l Hp) as (ds' & _ & ->). by apply spec_datas_closed.
  - cbn [app] in Hp. destruct l as [|i l]; [by left|]. right.
    pose proof (prefix_cons_inv_1 _ _ _ _ Hp) as ->. apply prefix_cons_inv_2 in Hp.
    destruct (Hdata l Hp) as (ds' & Hd & ->). exists ds'. split; [done|].
    cbn [fmap list_fmap foldl]. rewrite spec_frame_open by done. by apply spec_datas.
Qed.

Lemma filter_prefix {A} (P : A → Prop) `{!∀ x, Decision (P x)} l1 l2 :
  l1 `prefix_of` l2 → filter P l1 `prefix_of` filter P l2.
Proof. intros [k ->]. rewrite filter_app. by eexists. Qed.

(** All of a stream's items are in one queue. *)
Lemma only_one_lane class sid o items :
  only_items class sid o items → one_lane sid (high_priority class) (wire o).
Proof.
  intros [_ H]. unfold one_lane. rewrite Forall_forall. intros [b i] Hin Hi. cbn in Hi |- *.
  destruct (Bool.bool_dec b (high_priority class)) as [|Hne]; [done|exfalso].
  assert (Hb : b = negb (high_priority class)) by (by destruct b, (high_priority class)).
  unfold lane_items in H. rewrite filter_app in H. apply app_eq_nil in H as [H _].
  apply elem_of_lane in Hin. rewrite Hb in Hin.
  assert (i ∈ filter (λ i, item_stream i = sid) (lane (negb (high_priority class)) (wire o))) as Hf.
  { by apply list_elem_of_filter. }
  rewrite H in Hf. by apply not_elem_of_nil in Hf.
Qed.

Lemma wire_items class sid o items :
  only_items class sid o items →
  stream_items sid (wire o) `prefix_of` items
  ∧ (queue (high_priority class) o = [] → stream_items sid (wire o) = items).
Proof.
  intros Ho. rewrite (stream_items_lane _ _ _ (only_one_lane _ _ _ _ Ho)). destruct Ho as [H _].
  unfold lane_items in H. rewrite filter_app in H. split; [by eexists|]. intros Hq. rewrite Hq, app_nil_r in H. done.
Qed.

Definition on_stream (n : nat) (sid : Z) (b : bridge) : bool :=
  match bridge_to b with
  | ToMux n' _ => bool_decide (n' = n) && bool_decide (bridge_sid b = sid)
  | ToSocket _ _ _ _ => false
  end.

(** Task [b] alone serves stream [sid] of connection [n] of the daemon. *)
Definition serves (d : daemon) (n : nat) (sid : Z) (b : nat) : Prop :=
  map_Forall (λ b' br, on_stream n sid br = true → b' = b) (bridges d) ∧ Forall (λ x, x.1 ≠ (n, sid)) (dialing d).

(** The daemon itself has not closed stream [sid] of connection [k]. *)
Definition not_closed (d : daemon) (k : nat) (sid : Z) : Prop :=
  map_Forall (λ _ br, on_stream k sid br = true → phase br ≠ BEnded) (bridges d).

#[export] Instance serves_dec d n sid b : Decision (serves d n sid b).
Proof. unfold serves. apply _. Defined.
#[export] Instance not_closed_dec d k sid : Decision (not_closed d k sid).
Proof. unfold not_closed. apply _. Defined.

Lemma task_on_stream n sid br t : task_of br = Some t → is_task n sid t → on_stream n sid br = true.
Proof.
  unfold task_of, on_stream. destruct (bridge_to br); [|done]. intros [= <-] [<- <-]. cbn.
  by rewrite !bool_decide_eq_true_2.
Qed.

Section Claims.
Context `{ED : !Ed25519, CM : !CaseMapping}.

(** The items of a stream that a running task serves alone. *)
Lemma served_items cfg es d n m sid b br class :
  drun es (new_manager cfg) = Some d → conns d !! n = Some m →
  bridges d !! b = Some br → bridge_to br = ToMux n class → bridge_sid br = sid → phase br = BRunning →
  serves d n sid b →
  0 ≤ sid < 2 ^ 32 ∧
  ∃ opens, (opens = [] ∨ opens = [open_item sid class])
  ∧ only_items class sid (out m) (opens ++ (data_item sid <$> got (bridge_data br))).
Proof.
  intros Hrun Hm Hb Hto Hsid Hp [Hsole Hdial]. destruct (drun_inv _ _ _ Hrun) as [Hd Hl].
  set (t := Task n class sid BRunning (got (bridge_data br))).
  assert (Ht : l_tasks (links_of d) !! b = Some t).
  { cbn. rewrite lookup_omap, Hb. cbn. unfold task_of. by rewrite Hto, Hsid, Hp. }
  split; [by destruct (li_task _ Hl _ _ Ht)|].
  apply (si_task _ _ _ _ (li_stream _ Hl n m sid Hm) b t); [|done|].
  - split_and!; [done|done|]. intros b' t' Hb' Hi. cbn in Hb'. rewrite lookup_omap in Hb'.
    apply bind_Some in Hb' as (br' & Hbr' & Htk). apply (Hsole b' br'); [done|]. by eapply task_on_stream.
  - unfold waiting; cbn. induction Hdial as [|x l Hx _ IH]; [done|]. by rewrite filter_cons, decide_False.
Qed.

(** The stream in the peer's table, for any part of the frames it has read. *)
Lemma peer_reads cfg es d k m sid :
  drun es (new_manager cfg) = Some d → conns d !! k = Some m →
  Z.odd sid ≠ Z.odd (next_stream_id m) → not_closed d k sid →
  agrees sid (tbl m) (reader m) (stream_after sid (frames_read k es (new_manager cfg))).
Proof.
  intros Hrun Hm Hodd Hopen.
  pose proof (drun_reads es _ d k sid None (new_manager_wf cfg) (new_links_inv cfg) Hrun ltac:(done)) as Hr.
  unfold reads in Hr; cbn in Hr. rewrite Hm in Hr. apply Hr; [|done].
  intros b t Hb Hi. cbn in Hb. rewrite lookup_omap in Hb. apply bind_Some in Hb as (br & Hbr & Htk).
  assert (task_phase t = phase br) as ->. { unfold task_of in Htk. by destruct (bridge_to br); simplify_eq. }
  apply (Hopen b br); [done|]. by eapply task_on_stream.
Qed.

(** What agents send on one daemon arrives at the other.  Take any run of a daemon
    with a multiplexed stream served by a running task, and any run of a second
    daemon that has read, on a connection of its own, some of the frames the first
    one wrote; the second numbers its streams with the other parity and has not
    closed this one.  Whatever else both daemons do meanwhile: what the second
    has for the stream's consumer (received, queued, in the read task's hands) is
    an initial part of the data that [send] accepted on the first.  When it has
    read all frames and the queue of the stream's class has drained, what the
    second has, followed by what still waits in the stream's channel on the first,
    is exactly that data. *)
Theorem sends_delivered cfgA esA dA n mA b br class cfgB esB dB k mB sid c ch :
  drun esA (new_manager cfgA) = Some dA → conns dA !! n = Some mA →
  bridges dA !! b = Some br → bridge_to br = ToMux n class → bridge_sid br = sid → phase br = BRunning →
  serves dA n sid b →
  drun esB (new_manager cfgB) = Some dB → conns dB !! k = Some mB →
  Z.odd sid ≠ Z.odd (next_stream_id mB) → not_closed dB k sid →
  frames_read k esB (new_manager cfgB) `prefix_of` wire_frames (out mA) →
  streams (tbl mB) !! sid = Some c → chans (tbl mB) !! c = Some ch → rx_open ch = true →
  let arrived := got ch ++ buf ch ++ in_flight c (reader mB) in
  arrived `prefix_of` sends b esA (new_manager cfgA)
  ∧ (frames_read k esB (new_manager cfgB) = wire_frames (out mA) → queue (high_priority class) (out mA) = [] →
     arrived ++ buf (bridge_data br) = sends b esA (new_manager cfgA)).
Proof.
  intros HA HmA Hb Hto Hsid Hp Hserv HB HmB Hodd Hopen Hpre Hs Hc Hrx arrived.
  destruct (served_items _ _ _ _ _ _ _ _ _ HA HmA Hb Hto Hsid Hp Hserv) as [Hr (opens & Ho & Honly)].
  destruct (wire_items _ _ _ _ Honly) as [Hwire Hall].
  pose proof (peer_reads _ _ _ _ _ _ HB HmB Hodd Hopen) as Ha. unfold agrees in Ha. rewrite Hs in Ha.
  pose proof (drun_content b esA _ dA (new_manager_wf cfgA) HA) as Hcont.
  unfold content in Hcont. cbn [bridges new_manager] in Hcont. rewrite Hb, lookup_empty in Hcont. cbn [app] in Hcont.
  destruct (stream_after sid _) as [st|] eqn:Hst; [|done]. specialize (Ha ch Hc Hrx). unfold stream_after in Hst.
  split.
  - destruct Hpre as [rest Hrest]. unfold wire_frames in Hrest.
    assert (Hread : frames_read k esB (new_manager cfgB)
                    = item_frame <$> take (length (frames_read k esB (new_manager cfgB))) (wire (out mA)).*2).
    { by rewrite fmap_take, Hrest, take_app_length. }
    rewrite Hread, spec_stream_items in Hst.
    destruct (spec_items_prefix sid class opens (got (bridge_data br))
      (filter (λ i, item_stream i = sid) (take (length (frames_read k esB (new_manager cfgB))) (wire (out mA)).*2))) as [Hn|(ds & Hds & Hn)];
      [done|done| |congruence|].
    { etrans; [|exact Hwire]. apply filter_prefix, prefix_take. }
    rewrite Hst in Hn. injection Hn as ->. subst arrived. rewrite Ha, <-Hcont. unfold carried.
    etrans; [exact Hds|]. by eexists.
  - intros Hread Hq. rewrite Hread in Hst. unfold wire_frames in Hst. rewrite spec_stream_items in Hst.
    change (filter _ _) with (stream_items sid (wire (out mA))) in Hst. rewrite (Hall Hq) in Hst.
    assert (st = got (bridge_data br)) as ->.
    { destruct Ho as [->| ->]; cbn [app] in Hst; [by rewrite spec_datas_closed in Hst|].
      rewrite fmap_cons in Hst. cbn [foldl] in Hst. rewrite spec_frame_open, spec_datas in Hst by done. by simplify_eq. }
    subst arrived. by rewrite Ha, <-Hcont.
Qed.

(** What a dial that fails leaves behind. *)
Definition dial_residue (d d' : daemon) : Prop :=
  d_streams d' = d_streams d ∧ bridges d' = bridges d ∧ announced d' = announced d ∧ dialing d' = dialing d
  ∧ sending d' = sending d ∧ config d' = config d ∧ listener_up d' = listener_up d
  ∧ (∀ a n, mux_pool d !! a = Some n → mux_pool d' !! a = Some n)
  ∧ (use_mux (config d) = true → d_next_stream_id d' = d_next_stream_id d)
  ∧ (use_mux (config d) = false → conns d' = conns d ∧ mux_pool d' = mux_pool d).

(** Why dialling address [addr] fails with [e]. *)
Definition dial_cause (connect : string → result io_error duplex) (addr : string) (d : daemon) (e : DaemonError) : Prop :=
  match e with
  | DaemonIo err => connect addr = Err err
  | DaemonAuth err => ∃ tcp, connect addr = Ok tcp ∧ (client_authenticate (auth_seed (config d)) tcp).1 = Fail err
  | DaemonProtocol _ => use_mux (config d) = false ∧ ∃ tcp s, connect addr = Ok tcp
      ∧ client_authenticate (auth_seed (config d)) tcp = (Done tt, s)
  | SendFailed => use_mux (config d) = true ∧ ∃ n m, mux_pool d !! addr = Some n ∧ conns d !! n = Some m
      ∧ rx_alive (out m) = false
  | _ => False
  end.

Lemma dial_mux_failed connect addr class d e d' :
  daemon_wf d → use_mux (config d) = true → dial_mux connect addr class d = (Fail e, d') →
  dial_residue d d' ∧ dial_cause connect addr d e.
Proof.
  intros Hd Hmux. unfold dial_mux, pooled_conn, create_mux_conn. destruct (mux_pool d !! addr) as [n|] eqn:Hp.
  - destruct (wf_pool _ Hd _ _ Hp) as [m Hm]. rewrite Hm.
    destruct (open_stream class m) as [[[sid c]|e1|] m'] eqn:Ho; intros [= <- <-]. split.
    + unfold dial_residue. rewrite Hmux. cbn. split_and!; done.
    + split; [done|]. exists n, m. split_and!; [done..|]. revert Ho. unfold open_stream.
      destruct (open_begin class m) as [[sid|e2] m1] eqn:Hb; [by repeat case_match|].
      by destruct (open_begin_change _ _ _ _ Hb).
  - destruct (connect addr) as [tcp|err] eqn:Hc.
    + destruct (client_authenticate _ tcp) as [[[]|err|] s] eqn:Ha.
      * cbn. rewrite lookup_insert_eq. destruct (open_stream class (new_initiator addr)) as [[[sid c]|e1|] m'] eqn:Ho;
          by destruct class; vm_compute in Ho.
      * intros [= <- <-]. split; [unfold dial_residue; rewrite Hmux; by split_and!|]. exists tcp. by rewrite Ha.
      * done.
    + intros [= <- <-]. split; [unfold dial_residue; rewrite Hmux; by split_and!|done].
Qed.

Lemma dial_direct_failed connect addr class d e d' :
  use_mux (config d) = false → dial_direct connect addr class d = (Fail e, d') →
  dial_residue d d' ∧ dial_cause connect addr d e.
Proof.
  intros Hmux. unfold dial_direct. destruct (connect addr) as [tcp|err] eqn:Hc.
  - destruct (direct_open _ _ _ tcp) as [[u|err|] s] eqn:Ho; [by cbn| |done]. intros [= <- <-].
    split; [unfold dial_residue; rewrite Hmux; by split_and!|]. cbn [config bump_next_stream_id] in Ho.
    unfold direct_open, mbind, io_bind, io_map_err in Ho.
    destruct (client_authenticate _ tcp) as [[u|err1|] s1] eqn:Ha; cbn in Ho; [destruct u|simplify_eq|done].
    + repeat case_match; unfold io_fail in *; simplify_eq; (split; [done|]); eauto.
    + exists tcp. by rewrite Ha.
  - intros [= <- <-]. split; [unfold dial_residue; rewrite Hmux; by split_and!|done].
Qed.

(** C26: A dial that fails says why and leaves no trace.  Whatever the error, streams,
    tasks, announcements and waiting dials are as before (at most a direct
    stream's number is used up and the resolver's cache changed); and the error
    tells what went wrong: a name without a registry, the resolver's error,
    connecting, the handshake, the opening exchange of a direct stream, or a pooled
    connection whose write task has ended. *)
Theorem dial_failure connect get now now' target class d e d' :
  daemon_wf d → dial connect get now now' target class d = (Fail e, d') →
  dial_residue d d' ∧
  match resolver d, starts_with "agt_" target with
  | None, true => e = NoResolver ∧ d' = d
  | Some r, true =>
      match (resolve target now now' get r).1.1 with
      | Err err => e = Resolve (resolve_error_string err)
      | Ok addr => dial_cause connect addr d e
      end
  | _, false => dial_cause connect target d e
  end.
Proof.
  intros Hd. unfold dial.
  assert (Hres : ∀ addr d0, daemon_wf d0 →
    (if use_mux (config d0) then dial_mux connect addr class d0 else dial_direct connect addr class d0) = (Fail e, d') →
    dial_residue d0 d' ∧ dial_cause connect addr d0 e).
  { intros addr d0 Hd0. destruct (use_mux (config d0)) eqn:Hm; [by apply dial_mux_failed|by apply dial_direct_failed]. }
  destruct (starts_with "agt_" target); [|destruct (resolver d); by apply Hres].
  destruct (resolver d) as [r|]; [|intros [= <- <-]; split; [|done]; unfold dial_residue; by split_and!].
  destruct (resolve target now now' get r) as [[[addr|err] u] r'] eqn:Hr; cbn.
  - intros H. apply (Hres addr (set_resolver (Some r') d)) in H; [exact H|].
    apply (wf_quiet d); try done. by apply conns_later_same.
  - intros [= <- <-]. split; [unfold dial_residue; by split_and!|done].
Qed.

(** C14: A daemon is well formed at all times, whatever its agents, its peers and the
    network do: every number in the table of streams has 32 bits and its entry
    belongs to one task of that number, whose sender is held by nobody else; the
    receivers entries hold exist; pooled and dialled connections exist and are well
    formed, their announcements included; a [send] that waits does so for a stream
    of the table. *)
Theorem daemon_well_formed cfg es d : drun es (new_manager cfg) = Some d → daemon_wf d.
Proof. intros Hrun. by destruct (drun_inv _ _ _ Hrun). Qed.
End Claims.

(** ** Witnesses *)

Section Witnesses.
#[local] Existing Instance toy_ed25519.
#[local] Existing Instance ascii_case_mapping.

(** One daemon dials, sends three times, and its tasks pass on two of the
    messages; the other accepts the connection and reads all that was written. *)
Definition dialer_run : list devent :=
  [DDial mux_accepting (λ _, Err "") 0 0 "10.0.0.1:11411" Bulk; DSend 1 [x01; x02]; DSend 1 [x03];
   DBridge 1; DConn 0 EWrite; DBridge 1; DSend 1 [x04]; DConn 0 EWrite; DConn 0 EWrite].
Definition acceptor_run : list devent :=
  [DListen (Ok tt);
   DInbound toy_nonce (Duplex (Source (ed_public (replicate 32 x00) ++ ed_sign (replicate 32 x00) toy_nonce
                                ++ frame_bytes (FStreamOpen, open_payload 1 Bulk)) Open) (open_sink []));
   DConn 0 EFirst; DConn 0 EFirst; DIncoming 0;
   DConn 0 (ERead (FStreamData, data_payload 1 [x01; x02])); DConn 0 EResume; DConn 0 (ERecv 0);
   DConn 0 (ERead (FStreamData, data_payload 1 [x03]))].

Definition start : daemon := new_manager default_daemon_config.
Definition dialer : daemon := default start (drun dialer_run start).
Definition dialer_conn : mux := default (new_initiator "") (conns dialer !! 0%nat).
Definition acceptor : daemon := default start (drun acceptor_run start).
Definition acceptor_conn : mux := default (new_initiator "") (conns acceptor !! 0%nat).

Lemma sends_delivered_witness :
  let ch := Chan [] [[x01; x02]] true true in
  let br := Bridge 1 (Chan [[x04]] [[x01; x02]; [x03]] true true) (ToMux 0 Bulk) BRunning in
  let arrived := got ch ++ buf ch ++ in_flight 0 (reader acceptor_conn) in
  arrived = [[x01; x02]; [x03]] ∧ sends 1 dialer_run start = [[x01; x02]; [x03]; [x04]]
  ∧ arrived `prefix_of` sends 1 dialer_run start
  ∧ arrived ++ buf (bridge_data br) = sends 1 dialer_run start.
Proof.
  intros ch br arrived. split; [vm_compute; reflexivity|]. split; [vm_compute; reflexivity|].
  destruct (sends_delivered default_daemon_config dialer_run dialer 0 dialer_conn 1 br Bulk
              default_daemon_config acceptor_run acceptor 0 acceptor_conn 1 0 ch) as [Hpre Hall];
    [..|split; [exact Hpre|apply Hall; vm_compute; reflexivity]];
    lazymatch goal with
    | |- serves _ _ _ _ => apply (bool_decide_eq_true_1 _); vm_compute; reflexivity
    | |- not_closed _ _ _ => apply (bool_decide_eq_true_1 _); vm_compute; reflexivity
    | |- _ `prefix_of` _ => apply (bool_decide_eq_true_1 _); vm_compute; reflexivity
    | |- _ ≠ _ => vm_compute; congruence
    | |- _ => vm_compute; reflexivity
    end.
Defined.

Lemma dial_failure_witness :
  let d := set_pool (<["10.0.0.1:11411" := 0%nat]> (mux_pool dead_pool)) dead_pool in
  dial_residue d (dial mux_accepting (λ _, Err "") 0 0 "10.0.0.1:11411" Control d).2
  ∧ dial_cause mux_accepting "10.0.0.1:11411" d SendFailed.
Proof.
  intros d. apply (dial_failure mux_accepting (λ _, Err "") 0 0 "10.0.0.1:11411" Control d); [|vm_compute; reflexivity].
  apply (dstep_wf (DConn 0 EWriteFail) once_dialed); [|vm_compute; reflexivity].
  apply (dstep_wf (DDial mux_accepting (λ _, Err "") 0 0 "10.0.0.1:11411" Bulk) start); [|vm_compute; reflexivity].
  apply new_manager_wf.
Defined.

Lemma daemon_well_formed_witness :
  daemon_wf (default (new_manager default_daemon_config) (drun acceptor_run (new_manager default_daemon_config))).
Proof. apply (daemon_well_formed default_daemon_config acceptor_run). vm_compute. reflexivity. Defined.
End Witnesses.
