(* ===== verification/Server.v ===== *)
(** * The IPC server (rust/crates/roboat-daemon/src/server.rs)

    What the daemon does for one connected agent: [handle_client] reads requests
    and answers them; one task per [listen] passes on announcements of incoming
    streams; one task per stream passes on what it receives.  They share the
    agent's socket, whose lock they take per message, and the manager.

    The base64 crate is a type class with the laws its documentation states. *)

From Stdlib Require Import Ascii String.
From S2P Require Import Prelude Text Stream Protocol Auth Ipc Mux Resolver Manager.

Class Base64 : Type := {
  b64_encode : list byte → string;
  (** [decode], or the text of its error *)
  b64_decode : string → result string (list byte);
  b64_roundtrip bs : b64_decode (b64_encode bs) = Ok bs;
  b64_ascii bs : is_ascii (b64_encode bs) = true;
}.

(** A task of [forward_recv_to_ipc]. *)
Record forward : Type := Forward {
  fwd_stream_id : Z;
  fwd_rx : rx_ref;
}.

(** One agent's connection and the manager: what was written to the agent, its
    forwarding tasks, the announcement each of its [listen] tasks reads next, and
    the heartbeat loops it has started. *)
Record server : Type := Server {
  writer : sink;
  forwards : list forward;
  subscriptions : list nat;
  heartbeats : list (Registrar * string * Z);
  mgr : daemon;
}.

(** The world as a request meets it: binding the port, connecting, the registry,
    the clock, the local address. *)
Record surroundings : Type := Surroundings {
  env_bind : result io_error unit;
  env_connect : string → result io_error duplex;
  env_get : string → result string discover_reply;
  env_now : Z;
  env_now' : Z;
  env_local_ip : option string;
}.

Section Server.
Context `{ED : !Ed25519, CM : !CaseMapping, RL : !RegistrarLibs, B64 : !Base64}.
Context `{JA : !JsonCodec AgentMsg, JD : !JsonCodec DaemonMsg}.

(** [write_daemon_msg(&mut *writer.lock().await, &msg).await?] *)
Definition reply (msg : DaemonMsg) : io server IpcError unit := λ s,
  let '(r, w) := write_daemon_msg msg (writer s) in
  (r, Server w (forwards s) (subscriptions s) (heartbeats s) (mgr s)).

(** An operation of the manager; its error is a value here. *)
Definition manager_op {A} (f : daemon → outcome DaemonError A * daemon) : io server IpcError (result DaemonError A) := λ s,
  let '(r, d) := f (mgr s) in
  (match r with Done a => Done (Ok a) | Fail e => Done (Err e) | Pending => Pending end,
   Server (writer s) (forwards s) (subscriptions s) (heartbeats s) d).

Definition of_result {A} (r : result DaemonError A * daemon) : outcome DaemonError A * daemon :=
  (match r.1 with Ok a => Done a | Err e => Fail e end, r.2).

Definition spawn_forward (f : forward) : io server IpcError unit := λ s,
  (Done tt, Server (writer s) (forwards s ++ [f]) (subscriptions s) (heartbeats s) (mgr s)).

Definition start_heartbeat (h : option (Registrar * string * Z)) : io server IpcError unit := λ s,
  (Done tt, Server (writer s) (forwards s) (subscriptions s)
              (heartbeats s ++ match h with Some x => [x] | None => [] end) (mgr s)).

(** [subscribe_incoming] and the task that serves it: it sees what is announced
    from now on. *)
Definition subscribe_incoming : io server IpcError unit := λ s,
  (Done tt, Server (writer s) (forwards s) (subscriptions s ++ [length (announced (mgr s))]) (heartbeats s) (mgr s)).

Definition get_manager : io server IpcError daemon := λ s, (Done (mgr s), s).

(** A request up to the answer it gets, if it gets one. *)
Definition request_effect (env : surroundings) (msg : AgentMsg) : io server IpcError (option DaemonMsg) :=
  match msg with
  | Ping => mret (Some Pong)
  | Listen agent_id registry_token tunnel_endpoint =>
      r ← manager_op (λ d, of_result (start_listener (env_bind env) d));
      match r with
      | Err e => mret (Some (MsgError "listen_failed" (daemon_error_string e) None))
      | Ok _ =>
          d ← get_manager;
          match registry_token with
          | Some token =>
              start_heartbeat (start_registry_heartbeat agent_id token tunnel_endpoint (env_local_ip env) d)
          | None => mret tt
          end;;
          subscribe_incoming;;
          mret (Some (Listening agent_id))
      end
  | Unlisten => mret None
  | Dial target_agent_id stream_class request_id =>
      r ← manager_op (dial (env_connect env) (env_get env) (env_now env) (env_now' env) target_agent_id stream_class);
      match r with
      | Ok (stream_id, rx) =>
          spawn_forward (Forward stream_id rx);;
          mret (Some (Connected stream_id target_agent_id request_id))
      | Err e => mret (Some (MsgError "dial_failed" (daemon_error_string e) request_id))
      end
  | Send stream_id data =>
      match b64_decode data with
      | Err e => mret (Some (MsgError "invalid_data" ("base64 decode failed: " +:+ e) None))
      | Ok bytes =>
          r ← manager_op (send stream_id bytes);
          match r with
          | Err e => mret (Some (MsgError "send_failed" (daemon_error_string e) None))
          | Ok _ => mret None
          end
      end
  | Close stream_id =>
      _ ← manager_op (λ d, (Done tt, manager_close_stream stream_id d));
      mret None
  end.

(** One round of [handle_client]'s loop on a request: the answer is written once
    the writer's lock is free, after what other tasks wrote meanwhile (Node.v). *)
Definition handle_request (env : surroundings) (msg : AgentMsg) : io server IpcError unit :=
  answer ← request_effect env msg;
  match answer with Some m => reply m | None => mret tt end.

(** [handle_client] on the requests an agent sends one after the other: it ends
    with the first error, else waits for the next request. *)
Fixpoint handle_requests (reqs : list (surroundings * AgentMsg)) : io server IpcError unit :=
  match reqs with
  | [] => mret tt
  | (env, msg) :: reqs => handle_request env msg;; handle_requests reqs
  end.

(** [handle_client] at the top of its loop: read a request, handle it. *)
Definition handle_client_turn (env : surroundings) (reader : source) : io server IpcError source := λ s,
  match read_agent_msg reader with
  | (Done msg, reader) => (handle_request env msg;; mret reader) s
  | (Fail e, _) => (Fail e, s)
  | (Pending, _) => (Pending, s)
  end.

(** ** The forwarding tasks *)

(** A stream's inbound channel. *)
Definition rx_chan (r : rx_ref) (d : daemon) : option chan :=
  match r with
  | RxMux n c => m ← conns d !! n; chans (tbl m) !! c
  | RxDirect n =>
      b ← bridges d !! n;
      match bridge_to b with ToSocket _ _ _ recv => Some recv | ToMux _ _ => None end
  end.

Definition set_rx_chan (r : rx_ref) (ch : chan) (d : daemon) : daemon :=
  match r with
  | RxMux n c => set_conns (alter (set_chan c ch) n (conns d)) d
  | RxDirect n => set_bridges (alter (on_recv (λ _, ch)) n (bridges d)) d
  end.

(** What [forward_recv_to_ipc]'s task receives next: data, or that there is no
    more. *)
Definition forward_take (f : forward) : io server IpcError (option (list byte)) := λ s,
  match rx_chan (fwd_rx f) (mgr s) with
  | None => (Pending, s)
  | Some ch =>
      match chan_recv ch with
      | (Done (Some data), ch) =>
          (Done (Some data),
           Server (writer s) (forwards s) (subscriptions s) (heartbeats s) (set_rx_chan (fwd_rx f) ch (mgr s)))
      | (Done None, _) => (Done None, s)
      | _ => (Pending, s)
      end
  end.

(** It writes what it received: [Done true] and it goes on, [Done false] and it
    has ended, dropping its receiver. *)
Definition forward_put (f : forward) (x : option (list byte)) : io server IpcError bool := λ s,
  let ended w := Server w (forwards s) (subscriptions s) (heartbeats s) (drop_rx_ref (fwd_rx f) (mgr s)) in
  match x with
  | Some data =>
      match write_daemon_msg (Recv (fwd_stream_id f) (b64_encode data)) (writer s) with
      | (Done _, w) => (Done true, Server w (forwards s) (subscriptions s) (heartbeats s) (mgr s))
      | (Fail _, w) => (Done false, ended w)
      | (Pending, w) => (Pending, Server w (forwards s) (subscriptions s) (heartbeats s) (mgr s))
      end
  | None =>
      (Done false, ended (write_daemon_msg (MsgClosed (fwd_stream_id f) (Some "remote closed")) (writer s)).2)
  end.

(** One round of the task. *)
Definition forward_turn (f : forward) : io server IpcError bool := x ← forward_take f; forward_put f x.

(** The broadcast channel keeps the last 64 announcements: what a subscriber that
    has read [k] of them gets next, and how far it has read then. *)
Definition BROADCAST_CAP : nat := 64.
Definition broadcast_recv (k : nat) (d : daemon) : option (option IncomingStreamInfo * nat) :=
  if (k + BROADCAST_CAP <? length (announced d))%nat
  then Some (None, length (announced d) - BROADCAST_CAP)%nat
  else info ← announced d !! k; Some (Some info, S k).

(** The task a [listen] starts, for a subscriber that has read [k] announcements:
    how many it has read then, and the message it has for the agent once it has
    claimed the stream's receiver, if it is the first to do so. *)
Definition announce_take (k : nat) : io server IpcError (nat * option DaemonMsg) := λ s,
  match broadcast_recv k (mgr s) with
  | Some (Some info, k) =>
      let '(rx, d) := take_recv_rx (info_stream_id info) (mgr s) in
      let fs := match rx with Some rx => [Forward (info_stream_id info) rx] | None => [] end in
      (Done (k, Some (Incoming (info_stream_id info) (info_from_agent_id info) (info_class info))),
       Server (writer s) (forwards s ++ fs) (subscriptions s) (heartbeats s) d)
  | Some (None, k) => (Done (k, None), s)
  | None => (Pending, s)
  end.

(** It writes the message, whatever comes of it. *)
Definition announce_put (msg : DaemonMsg) : io server IpcError unit := λ s,
  (Done tt, Server (write_daemon_msg msg (writer s)).2 (forwards s) (subscriptions s) (heartbeats s) (mgr s)).

(** One round of the task. *)
Definition announce_turn (k : nat) : io server IpcError nat :=
  '(k, msg) ← announce_take k;
  match msg with Some m => announce_put m | None => mret tt end;;
  mret k.
End Server.

(** ** Lemmas *)

Section Lemmas.
Context `{ED : !Ed25519, CM : !CaseMapping, RL : !RegistrarLibs, B64 : !Base64}.
Context `{JA : !JsonCodec AgentMsg, JD : !JsonCodec DaemonMsg}.

(** A message that fits into an IPC frame. *)
Definition fits (msg : DaemonMsg) : Prop := zlen (to_vec msg) ≤ MAX_MSG_SIZE.

Lemma reply_open msg w f fs su hb d :
  fits msg → reply msg (Server (Sink w None f) fs su hb d)
             = (Done tt, Server (Sink (w ++ msg_bytes msg) None f) fs su hb d).
Proof. intros Hm. unfold reply, write_daemon_msg; cbn [writer]. by rewrite write_msg_open. Qed.

Lemma rx_chan_set r ch ch' d : rx_chan r d = Some ch → rx_chan r (set_rx_chan r ch' d) = Some ch'.
Proof.
  destruct r as [n c|n]; cbn -[lookup alter]; intros (x & Hx & H)%bind_Some;
    rewrite lookup_alter_eq, Hx; cbn -[lookup insert].
  - by rewrite lookup_insert_eq.
  - unfold on_recv. by destruct (bridge_to x).
Qed.

Lemma rx_chan_drop r ch d : rx_chan r d = Some ch → rx_chan r (drop_rx_ref r d) = Some (drop_rx ch).
Proof.
  destruct r as [n c|n]; cbn -[lookup alter]; intros (x & Hx & H)%bind_Some;
    rewrite lookup_alter_eq, Hx; cbn -[lookup alter].
  - by rewrite lookup_alter_eq, H.
  - unfold on_recv. destruct (bridge_to x); by simplify_eq/=.
Qed.

Lemma forward_turn_eq f s :
  forward_turn f s =
  match rx_chan (fwd_rx f) (mgr s) with
  | None => (Pending, s)
  | Some ch =>
      match chan_recv ch with
      | (Done x, ch) =>
          let d := match x with Some _ => set_rx_chan (fwd_rx f) ch (mgr s) | None => mgr s end in
          forward_put f x (Server (writer s) (forwards s) (subscriptions s) (heartbeats s) d)
      | _ => (Pending, s)
      end
  end.
Proof.
  unfold forward_turn, forward_take, mbind, io_bind. destruct s as [w fs su hb d]; cbn [mgr writer forwards subscriptions heartbeats].
  destruct (rx_chan _ _) as [ch|]; [|done]. by destruct (chan_recv ch) as [[[x|]| |] ch'].
Qed.

(** The rounds of a forwarding task until it waits or ends. *)
Fixpoint forward_run (k : nat) (f : forward) (s : server) : server :=
  match k with
  | O => s
  | S k => match forward_turn f s with
           | (Done true, s) => forward_run k f s
           | (_, s) => s
           end
  end.

(** The messages for the data [ds] of a stream. *)
Definition recv_msgs (sid : Z) (ds : list (list byte)) : list DaemonMsg := (λ d, Recv sid (b64_encode d)) <$> ds.

Lemma forward_run_data ds k f w fl fs su hb d ch :
  rx_chan (fwd_rx f) d = Some ch → buf ch = ds → Forall fits (recv_msgs (fwd_stream_id f) ds) →
  ∃ d', forward_run (length ds + k) f (Server (Sink w None fl) fs su hb d)
        = forward_run k f (Server (Sink (w ++ concat (msg_bytes <$> recv_msgs (fwd_stream_id f) ds)) None fl) fs su hb d')
  ∧ rx_chan (fwd_rx f) d' = Some (Chan [] (got ch ++ ds) (tx_open ch) (rx_open ch)).
Proof.
  revert w d ch; induction ds as [|x ds IH]; intros w d [bf g tx rx] Hch Hb Hfit; cbn in Hb; subst.
  - exists d. cbn. by rewrite !app_nil_r.
  - apply Forall_cons in Hfit as [Hx Hfit]. cbn [length Nat.add forward_run].
    rewrite forward_turn_eq. cbn [mgr writer forwards subscriptions heartbeats]. rewrite Hch. cbn [chan_recv buf forward_put writer forwards subscriptions heartbeats mgr got tx_open rx_open].
    unfold write_daemon_msg. rewrite write_msg_open by exact Hx.
    destruct (IH (w ++ msg_bytes (Recv (fwd_stream_id f) (b64_encode x)))
      (set_rx_chan (fwd_rx f) (Chan ds (g ++ [x]) tx rx) d) (Chan ds (g ++ [x]) tx rx)) as (d' & Hr & Hd'); [|done|done|].
    { by eapply rx_chan_set. }
    exists d'. cbn [got tx_open rx_open] in *. rewrite Hr. cbn [recv_msgs fmap list_fmap concat].
    rewrite <-!app_assoc in *. done.
Qed.
End Lemmas.

(** ** Claims *)

Section Claims.
Context `{ED : !Ed25519, CM : !CaseMapping, RL : !RegistrarLibs, B64 : !Base64}.
Context `{JA : !JsonCodec AgentMsg, JD : !JsonCodec DaemonMsg}.

(** An agent gets what its stream receives.  The forwarding task of a stream
    whose channel holds [ds] and is closed writes, in [length ds + 1] rounds, one
    [recv] message per item, in order, and then [closed]; the agent that decodes
    the messages' data has [ds]. *)
Theorem forward_delivers f w fl fs su hb d ch ds :
  rx_chan (fwd_rx f) d = Some ch → buf ch = ds → tx_open ch = false →
  let msgs := recv_msgs (fwd_stream_id f) ds ++ [MsgClosed (fwd_stream_id f) (Some "remote closed")] in
  Forall fits msgs →
  let s' := forward_run (length ds + 1) f (Server (Sink w None fl) fs su hb d) in
  writer s' = Sink (w ++ concat (msg_bytes <$> msgs)) None fl
  ∧ read_msgs (Source (concat (msg_bytes <$> msgs)) Open) = (msgs, Pending)
  ∧ omap (λ m, match m with Recv _ data => result_ok (b64_decode data) | _ => None end) msgs = ds.
Proof.
  intros Hch Hb Htx msgs Hfit s'. split_and!.
  - apply Forall_app in Hfit as [Hds [Hclosed _]%Forall_cons]. subst s'.
    destruct (forward_run_data ds 1 f w fl fs su hb d ch Hch Hb Hds) as (d' & -> & Hd').
    cbn [forward_run]. rewrite forward_turn_eq. cbn [mgr]. rewrite Hd'. cbn [chan_recv buf tx_open]. rewrite Htx.
    cbn [forward_put writer]. unfold write_daemon_msg. rewrite write_msg_open by exact Hclosed. cbn [snd].
    subst msgs. by rewrite fmap_app, concat_app, <-app_assoc; cbn; rewrite app_nil_r.
  - rewrite <-(app_nil_r (concat _)).
    apply (read_msgs_concat msgs [] (MsgClosed (fwd_stream_id f) (Some "remote closed"))
             (msg_bytes (MsgClosed (fwd_stream_id f) (Some "remote closed"))) Open); [|done|done].
    constructor; [|exact Hfit]. by apply Forall_app in Hfit as [_ [Hclosed _]%Forall_cons].
  - subst msgs. rewrite omap_app, app_nil_r. clear. induction ds as [|x ds IH]; [done|].
    simpl. rewrite b64_roundtrip. simpl. f_equal. exact IH.
Qed.

(** Data that does not fit into an IPC message ends a stream's delivery
    without a word.  A frame from the network may carry 64 MiB, a message to the
    agent 4 MiB including the base64 form of the data.  When the next item of a
    stream makes a longer message, the forwarding task ends: the item is lost, the
    receiver is dropped, and the agent gets neither the data nor [closed]. *)
Theorem forward_oversized_silent f s ch x rest :
  rx_chan (fwd_rx f) (mgr s) = Some ch → buf ch = x :: rest →
  MAX_MSG_SIZE < zlen (to_vec (Recv (fwd_stream_id f) (b64_encode x))) →
  ∃ s', forward_turn f s = (Done false, s') ∧ writer s' = writer s
  ∧ ∃ ch', rx_chan (fwd_rx f) (mgr s') = Some ch' ∧ rx_open ch' = false ∧ buf ch' = rest.
Proof.
  intros Hch Hb Hbig. destruct ch as [bf g tx rx]; cbn in Hb; subst. rewrite forward_turn_eq, Hch.
  cbn [chan_recv buf forward_put writer]. unfold write_daemon_msg, write_msg.
  destruct (Z.gtb_spec (zlen (to_vec (Recv (fwd_stream_id f) (b64_encode x)))) MAX_MSG_SIZE); [|lia].
  cbn [io_fail]. eexists. split; [done|]. cbn [writer mgr]. split; [done|].
  eexists. split; [apply rx_chan_drop; by eapply rx_chan_set|]. done.
Qed.

(** The answer to a request whose operation on the manager failed with [e]. *)
Definition error_reply (msg : AgentMsg) (e : DaemonError) : option DaemonMsg :=
  match msg with
  | Dial _ _ request_id => Some (MsgError "dial_failed" (daemon_error_string e) request_id)
  | Send _ _ => Some (MsgError "send_failed" (daemon_error_string e) None)
  | Listen _ _ _ => Some (MsgError "listen_failed" (daemon_error_string e) None)
  | _ => None
  end.

(** The manager's part of a request, as far as it can fail. *)
Definition request_op (env : surroundings) (msg : AgentMsg) (d : daemon) : option (outcome DaemonError unit * daemon) :=
  match msg with
  | Listen _ _ _ => Some (of_result (start_listener (env_bind env) d))
  | Dial target class _ =>
      let '(r, d) := dial (env_connect env) (env_get env) (env_now env) (env_now' env) target class d in
      Some (match r with Done _ => Done tt | Fail e => Fail e | Pending => Pending end, d)
  | Send stream_id data =>
      match b64_decode data with Ok bytes => Some (send stream_id bytes d) | Err _ => None end
  | _ => None
  end.

(** C27: Every failure is reported to the agent that asked, and to nobody else.  When
    the manager's part of a request fails, the agent gets exactly one [error]
    message, with the code of the request, the text of the error and, for a dial,
    the request's id; the connection goes on; no forwarding task, subscription or
    heartbeat is started; and the manager is as the failed operation left it.  Data
    that is no base64 is reported as [invalid_data] and the manager is not asked. *)
Theorem request_errors_reported env msg e w fl fs su hb d d' :
  request_op env msg d = Some (Fail e, d') →
  (∃ m, error_reply msg e = Some m ∧
     (fits m → handle_request env msg (Server (Sink w None fl) fs su hb d)
               = (Done tt, Server (Sink (w ++ msg_bytes m) None fl) fs su hb d')))
  ∧ ∀ sid data err, b64_decode data = Err err →
      let m := MsgError "invalid_data" ("base64 decode failed: " +:+ err) None in
      fits m → handle_request env (Send sid data) (Server (Sink w None fl) fs su hb d)
               = (Done tt, Server (Sink (w ++ msg_bytes m) None fl) fs su hb d).
Proof.
  intros Hop. split.
  - destruct msg as [a tok ep| |t c rid|sid data|sid|]; cbn [request_op] in Hop; try done.
    + eexists. split; [done|]. intros Hfit. unfold handle_request, mbind, io_bind. cbn [request_effect]. unfold mbind, io_bind, manager_op. cbn [mgr].
      apply (inj Some) in Hop. rewrite Hop. cbn [writer forwards subscriptions heartbeats]. by apply reply_open.
    + destruct (dial _ _ _ _ _ _ _) as [r d1] eqn:Hd. injection Hop as Hr <-. destruct r as [|e1|]; try done.
      injection Hr as ->. eexists. split; [done|]. intros Hfit. unfold handle_request, mbind, io_bind.
      cbn [request_effect]. unfold mbind, io_bind, manager_op. cbn [mgr]. rewrite Hd. cbn [writer forwards subscriptions heartbeats].
      by apply reply_open.
    + destruct (b64_decode data) as [bs|] eqn:Hb; [|done]. injection Hop as Hop. eexists. split; [done|]. intros Hfit.
      unfold handle_request, mbind, io_bind. cbn [request_effect]. rewrite Hb. unfold mbind, io_bind, manager_op. cbn [mgr]. rewrite Hop.
      cbn [writer forwards subscriptions heartbeats]. by apply reply_open.
  - intros sid data err Hb m Hfit. unfold handle_request, mbind, io_bind. cbn [request_effect]. rewrite Hb. by apply reply_open.
Qed.

(** An agent's [send] reaches the peer's connection.  A request with the
    base64 form of [x], for a stream over a multiplexed connection, is not
    answered; after the next step of the stream's task the connection's queue of
    the stream's class ends with the data frame of [x] for the stream, and nothing
    else was queued.  For a number that is no stream's, the answer is
    [send_failed], naming the number, and the manager is unchanged. *)
Theorem send_request_forwarded env w fl fs su hb d sid e g n class m x :
  d_streams d !! sid = Some e →
  bridges d !! data_tx e = Some (Bridge sid (Chan [] g true true) (ToMux n class) BRunning) →
  conns d !! n = Some m → rx_alive (out m) = true →
  let msg := MsgError "send_failed" ("Stream " +:+ decimal (sid + 1) +:+ " not found") None in
  (∃ d1 d2, handle_request env (Send sid (b64_encode x)) (Server (Sink w None fl) fs su hb d)
            = (Done tt, Server (Sink w None fl) fs su hb d1)
     ∧ dstep (DBridge (data_tx e)) d1 = Some d2
     ∧ conns d2 = <[n := set_out (push [(high_priority class, data_item sid x)] (out m)) m]> (conns d))
  ∧ (d_streams d !! (sid + 1) = None → fits msg →
     handle_request env (Send (sid + 1) (b64_encode x)) (Server (Sink w None fl) fs su hb d)
     = (Done tt, Server (Sink (w ++ msg_bytes msg) None fl) fs su hb d)).
Proof.
  intros He Hb Hm Ha msg. split.
  - unfold handle_request, mbind, io_bind. cbn [request_effect]. rewrite b64_roundtrip.
    assert (Hsend : send sid x d = (Done tt, set_bridge (data_tx e)
      (Bridge sid (Chan [x] g true true) (ToMux n class) BRunning) d)).
    { unfold send. by rewrite He, Hb. }
    unfold mbind, io_bind, manager_op. cbn [mgr]. rewrite Hsend. cbn.
    do 2 eexists. split; [done|]. cbn [dstep]. rewrite set_bridge_lookup.
    cbn [mbind option_bind bridge_to conns set_bridge set_bridges].
    rewrite Hm. cbn [mbind option_bind]. unfold mux_bridge_turn. cbn [phase bridge_data chan_recv buf on_data bridge_sid].
    rewrite mux_send_push by done. cbn. split; [done|]. done.
  - intros Hnone Hfit. unfold handle_request, mbind, io_bind. cbn [request_effect]. rewrite b64_roundtrip.
    unfold mbind, io_bind, manager_op. cbn [mgr]. unfold send. rewrite Hnone.
    cbn [writer forwards subscriptions heartbeats]. apply reply_open. exact Hfit.
Qed.
End Claims.

(** ** Witnesses *)

Definition toy_base64 : Base64.
Proof.
  refine {| b64_encode := hex_encode; b64_decode := toy_hex_decode; b64_roundtrip := toy_hex_roundtrip |}.
  intros bs. eapply string_forallb_impl; [|apply hex_encode_lower].
  intros a. unfold is_lower_hex, is_ascii_digit, is_ascii_char, in_range. lia.
Defined.

Abbreviation daemon_msg_code :=
  (string + (Z * string * option string) + (Z * string * StreamClass) + (Z * string) + (Z * option string)
   + unit + (string * string * option string))%type.

Definition daemon_msg_encode (m : DaemonMsg) : daemon_msg_code :=
  match m with
  | Listening a => inl (inl (inl (inl (inl (inl a)))))
  | Connected i t r => inl (inl (inl (inl (inl (inr (i, t, r))))))
  | Incoming i a c => inl (inl (inl (inl (inr (i, a, c)))))
  | Recv i x => inl (inl (inl (inr (i, x))))
  | MsgClosed i r => inl (inl (inr (i, r)))
  | Pong => inl (inr tt)
  | MsgError c m r => inr (c, m, r)
  end.

Definition daemon_msg_decode (c : daemon_msg_code) : DaemonMsg :=
  match c with
  | inl (inl (inl (inl (inl (inl a))))) => Listening a
  | inl (inl (inl (inl (inl (inr (i, t, r)))))) => Connected i t r
  | inl (inl (inl (inl (inr (i, a, c))))) => Incoming i a c
  | inl (inl (inl (inr (i, x)))) => Recv i x
  | inl (inl (inr (i, r))) => MsgClosed i r
  | inl (inr tt) => Pong
  | inr (c, m, r) => MsgError c m r
  end.

#[export] Instance DaemonMsg_countable : Countable DaemonMsg.
Proof. refine (inj_countable' daemon_msg_encode daemon_msg_decode _). by intros []. Defined.

(** A codec whose texts are as long as the data they carry: zeros, a one, and an
    encoding. *)
Fixpoint skip_zeros (bs : list byte) : list byte :=
  match bs with x00 :: bs => skip_zeros bs | x01 :: bs => bs | _ => bs end.

Definition msg_weight (m : DaemonMsg) : nat := match m with Recv _ x => String.length x | _ => 0 end.

Definition padded_codec : JsonCodec DaemonMsg.
Proof.
  refine {| to_vec m := replicate (msg_weight m) x00 ++ x01 :: bits_bytes (encode m);
            from_slice bs := decode (bytes_bits (skip_zeros bs)) |}.
  intros m. assert (Hs : ∀ n bs, skip_zeros (replicate n x00 ++ x01 :: bs) = bs) by (by intros n bs; induction n).
  by rewrite Hs, bytes_bits_bytes, decode_encode.
Defined.

Section Witnesses.
#[local] Existing Instance toy_ed25519.
#[local] Existing Instance ascii_case_mapping.
#[local] Existing Instance toy_registrar_libs.
#[local] Existing Instance toy_base64.
#[local] Existing Instance padded_codec.
#[local] Existing Instance agent_msg_codec.

(** A daemon with a multiplexed stream (number 1) whose peer sent two messages and
    closed it. *)
Definition delivering : daemon :=
  default once_dialed (drun
    [DConn 0 (ERead (FStreamData, data_payload 1 [x01; x02])); DConn 0 EResume;
     DConn 0 (ERead (FStreamData, data_payload 1 [x03])); DConn 0 EResume;
     DConn 0 (ERead (FStreamClose, close_payload 1))] once_dialed).

Lemma forward_delivers_witness :
  let f := Forward 1 (RxMux 0 0) in
  let msgs := recv_msgs 1 [[x01; x02]; [x03]] ++ [MsgClosed 1 (Some "remote closed")] in
  let s' := forward_run (2 + 1) f (Server (Sink [] None None) [f] [] [] delivering) in
  writer s' = Sink ([] ++ concat (msg_bytes <$> msgs)) None None
  ∧ read_msgs (Source (concat (msg_bytes <$> msgs)) Open) = (msgs, Pending)
  ∧ omap (λ m, match m with Recv _ data => result_ok (b64_decode data) | _ => None end) msgs = [[x01; x02]; [x03]].
Proof.
  intros f msgs.
  apply (forward_delivers f [] None [f] [] [] delivering (Chan [[x01; x02]; [x03]] [] false true) [[x01; x02]; [x03]]);
    [vm_compute; reflexivity..|]. repeat constructor; vm_compute; congruence.
Defined.

Definition bulky : daemon :=
  set_rx_chan (RxMux 0 0) (Chan [oversized_data; [x01]] [] true true) once_dialed.

Lemma forward_oversized_silent_witness :
  let f := Forward 1 (RxMux 0 0) in
  let s := Server (open_sink []) [f] [] [] bulky in
  ∃ s', forward_turn f s = (Done false, s') ∧ writer s' = writer s
  ∧ ∃ ch', rx_chan (RxMux 0 0) (mgr s') = Some ch' ∧ rx_open ch' = false ∧ buf ch' = [[x01]].
Proof.
  intros f s.
  apply (forward_oversized_silent f s (Chan [oversized_data; [x01]] [] true true) oversized_data [[x01]]);
    [|reflexivity|].
  - apply (rx_chan_set (RxMux 0 0) new_chan). vm_compute. reflexivity.
  - cbn [to_vec padded_codec msg_weight b64_encode toy_base64].
    rewrite length_app, length_replicate, length_hex_encode. cbn [length].
    pose proof length_oversized_data as Hl. unfold max_frame in Hl. unfold MAX_MSG_SIZE. lia.
Defined.

Lemma request_errors_reported_witness :
  let env := Surroundings (Err (IoError (OtherKind "AddrInUse") "address in use")) mux_accepting (λ _, Err "") 0 0 None in
  let d := new_manager default_daemon_config in
  let m := MsgError "dial_failed" "No registry URL configured; cannot resolve agent_id" (Some "r1") in
  handle_request env (Dial "agt_x" Control (Some "r1")) (Server (Sink [] None None) [] [] [] d)
  = (Done tt, Server (Sink ([] ++ msg_bytes m) None None) [] [] [] d).
Proof.
  intros env d m.
  destruct (request_errors_reported env (Dial "agt_x" Control (Some "r1")) NoResolver [] None [] [] [] d d)
    as [(m' & Hm & H) _]; [vm_compute; reflexivity|].
  assert (m' = m) as -> by (injection Hm as <-; vm_compute; reflexivity). apply H. vm_compute. congruence.
Defined.

Lemma send_request_forwarded_witness :
  let env := Surroundings (Ok tt) mux_accepting (λ _, Err "") 0 0 None in
  let m := (open_stream Bulk (new_initiator "10.0.0.1:11411")).2 in
  let msg := MsgError "send_failed" ("Stream " +:+ decimal (1 + 1) +:+ " not found") None in
  (∃ d1 d2, handle_request env (Send 1 (b64_encode [x2a])) (Server (Sink [] None None) [] [] [] once_dialed)
            = (Done tt, Server (Sink [] None None) [] [] [] d1)
     ∧ dstep (DBridge 1) d1 = Some d2
     ∧ conns d2 = <[0%nat := set_out (push [(high_priority Bulk, data_item 1 [x2a])] (out m)) m]> (conns once_dialed))
  ∧ (d_streams once_dialed !! (1 + 1) = None → fits msg →
     handle_request env (Send (1 + 1) (b64_encode [x2a])) (Server (Sink [] None None) [] [] [] once_dialed)
     = (Done tt, Server (Sink ([] ++ msg_bytes msg) None None) [] [] [] once_dialed)).
Proof.
  intros env m.
  apply (send_request_forwarded env [] None [] [] [] once_dialed 1
    {| data_tx := 1; recv_rx := None; entry_class := Bulk; mux_conn := Some 0%nat |} [] 0 Bulk m [x2a]);
    vm_compute; reflexivity.
Defined.
End Witnesses.
