(* ===== verification/Owner.v ===== *)
(** * Who receives from a stream

    In Rust a channel's receiver is a value with one owner.  This file shows that
    the daemon's state keeps to it: the receiver of a stream's inbound channel is in
    an announcement that waits on its connection, in the entry of the daemon's
    table, or handed out (to a dialing agent, or by [take_recv_rx]) - never in two
    of these places, never twice.  So a stream's data reaches at most one agent. *)

From Stdlib Require Import Ascii String.
From S2P Require Import Prelude Text Stream Protocol Auth Ipc Mux Resolver Manager Daemon Server.

(** ** One connection *)

Definition ann_rxs (m : mux) : list nat := in_recv_rx <$> announcements m.

(** Channels stay; what was received from them and whether their receivers are
    held changes only for those in [X]. *)
Definition chans_kept (X : list nat) (m m' : mux) : Prop :=
  ∀ c ch, chans (tbl m) !! c = Some ch →
  ∃ ch', chans (tbl m') !! c = Some ch' ∧ (c ∉ X → got ch' = got ch ∧ rx_open ch' = rx_open ch).

(** A connection's channels and announcements: [new] are created, of which
    [out] are handed out and the others announced; receivers in [gone] are
    dropped; consumers touch the channels [T]. *)
Record mux_moves (new out gone T : list nat) (m m' : mux) : Prop := {
  mm_rxs : ann_rxs m' ++ out ++ gone ⊆+ new ++ ann_rxs m;
  mm_new : ∀ c, c ∈ new → chans (tbl m) !! c = None ∧ chans (tbl m') !! c = Some new_chan;
  mm_one : NoDup new;
  mm_kept : chans_kept (gone ++ T) m m';
}.

Lemma chans_kept_same X m m' : tbl m' = tbl m → chans_kept X m m'.
Proof. intros Ht c ch Hc. exists ch. by rewrite Ht. Qed.

Lemma chans_kept_set X c ch ch' m :
  chans (tbl m) !! c = Some ch → c ∈ X ∨ got ch' = got ch ∧ rx_open ch' = rx_open ch → chans_kept X m (set_chan c ch' m).
Proof.
  intros Hc Hch k chk Hk. cbn. destruct (decide (c = k)) as [<-|Hne].
  - simplify_eq. exists ch'. rewrite lookup_insert_eq. split; [done|]. naive_solver.
  - exists chk. by rewrite lookup_insert_ne.
Qed.

Lemma chans_kept_trans X Y m1 m2 m3 : chans_kept X m1 m2 → chans_kept Y m2 m3 → chans_kept (X ++ Y) m1 m3.
Proof.
  intros H1 H2 c ch Hc. destruct (H1 c ch Hc) as (ch2 & Hc2 & Hk2). destruct (H2 c ch2 Hc2) as (ch3 & Hc3 & Hk3).
  exists ch3. split; [done|]. rewrite not_elem_of_app. intros [Hx Hy]. destruct (Hk2 Hx), (Hk3 Hy). split; congruence.
Qed.

Lemma chans_kept_drop sid m t : tbl t = deregister sid (tbl m) → chans_kept [] m t.
Proof.
  intros Ht c ch Hc. rewrite Ht. cbn. rewrite drop_entry_lookup, Hc. case_bool_decide; eexists; (split; [done|]); done.
Qed.

Lemma register_kept sid m t :
  table_wf (tbl m) → tbl t = (register sid (tbl m)).2 →
  chans_kept [] m t ∧ chans (tbl m) !! fresh (tbl m) = None ∧ chans (tbl t) !! fresh (tbl m) = Some new_chan.
Proof.
  intros Hwf Ht. assert (Hnone : chans (tbl m) !! fresh (tbl m) = None).
  { apply eq_None_not_Some. intros Hc%(twf_fresh _ Hwf). lia. }
  split_and!; [|done|rewrite Ht; cbn; by rewrite lookup_insert_eq].
  intros c ch Hc. rewrite Ht. cbn. rewrite lookup_insert_ne by congruence.
  rewrite drop_entry_lookup, Hc. case_bool_decide; eexists; (split; [done|]); done.
Qed.

Lemma hang_up_kept c m : chans_kept [c] m (hang_up c m).
Proof.
  intros k ch Hk. cbn. destruct (decide (c = k)) as [<-|Hne].
  - rewrite lookup_alter_eq, Hk. eexists. split; [done|]. set_solver.
  - exists ch. by rewrite lookup_alter_ne.
Qed.

Lemma hang_up_all_kept l m : chans_kept (in_recv_rx <$> l) m (foldr (λ s, hang_up (in_recv_rx s)) m l).
Proof.
  induction l as [|s l IH]; [by apply chans_kept_same|]. intros c ch Hc.
  destruct (chans_kept_trans _ _ _ _ _ IH (hang_up_kept (in_recv_rx s) _) c ch Hc) as (ch' & Hc' & Hk).
  exists ch'. split; [done|]. intros Hn. apply Hk. cbn in Hn. rewrite not_elem_of_cons in Hn. set_solver.
Qed.

(** A step that neither touches channels nor announcements. *)
Lemma moves_same T m m' : tbl m' = tbl m → announcements m' = announcements m → mux_moves [] [] [] T m m'.
Proof.
  intros Ht Ha. split; [|set_solver|constructor|by apply chans_kept_same].
  unfold ann_rxs. by rewrite Ha, !app_nil_r.
Qed.

(** One that passes announcements on. *)
Lemma moves_passed m m' :
  tbl m' = tbl m → announcements m' ≡ₚ announcements m → mux_moves [] [] [] [] m m'.
Proof.
  intros Ht Ha. split; [|set_solver|constructor|by apply chans_kept_same].
  unfold ann_rxs. by rewrite Ha, !app_nil_r.
Qed.

(** A stream the peer opens. *)
Lemma moves_opened payload m m1 s m' :
  table_wf (tbl m) → process_stream_open payload m = (m1, Some s) → tbl m' = tbl m1 →
  announcements m' ≡ₚ s :: announcements m → mux_moves [fresh (tbl m)] [] [] [] m m'.
Proof.
  unfold process_stream_open. destruct (zlen payload <? 5); [done|]. intros Hwf [= <- <-] Ht Ha.
  destruct (register_kept (be_value (take 4 payload)) m m' Hwf Ht) as (Hk & Hnone & Hnew).
  split; [|by intros c ->%list_elem_of_singleton|apply NoDup_singleton|done].
  unfold ann_rxs. rewrite Ha, !app_nil_r. done.
Qed.

Lemma moves_notify s m m' rest :
  notify s m = Some m' → announcements m ≡ₚ s :: rest → 
  ∀ m2, tbl m2 = tbl m' → announcements m2 ≡ₚ (if incoming_open m then s :: rest else rest) →
  ∃ gone, mux_moves [] [] gone [] m m2.
Proof.
  unfold notify. intros Hn Ha m2 Ht Ha2. destruct (incoming_open m).
  - destruct (_ <? _)%nat; simplify_eq. exists []. apply moves_passed; [done|]. by rewrite Ha2, Ha.
  - simplify_eq. exists [in_recv_rx s]. split; [|set_solver|constructor|].
    + unfold ann_rxs. rewrite Ha2, Ha. cbn. by rewrite Permutation_app_comm.
    + intros c ch Hc. rewrite Ht. by apply (hang_up_kept (in_recv_rx s) m).
Qed.

(** The channels consumers touch in an event, and the receivers it hands out. *)
Definition touched (e : event) : list nat := match e with ERecv c | EDropRx c => [c] | _ => [] end.
Definition handed_out (e : event) (m : mux) : list nat :=
  match e with
  | EInsert _ => [fresh (tbl m)]
  | ETake => match incoming m with s :: _ => [in_recv_rx s] | [] => [] end
  | _ => []
  end.

Lemma frame_moves f m :
  mux_wf m → reader m = RIdle → ∃ new, mux_moves new [] [] [] m (handle_frame f m).
Proof.
  intros Hwf Hr. destruct f as [ty p].
  assert (Hsame : ∃ new, mux_moves new [] [] [] m m) by (exists []; by apply moves_same).
  destruct ty; try done; cbn.
  - destruct (process_stream_open p m) as [m1 [s|]] eqn:Ho.
    + exists [fresh (tbl m)]. eapply moves_opened; [apply Hwf|done|done|].
      unfold process_stream_open in Ho. destruct (zlen p <? 5); [try done|cbn in Ho]; simplify_eq. unfold announcements; cbn. rewrite Hr. cbn.
      symmetry. apply Permutation_middle.
    + unfold process_stream_open in Ho. destruct (zlen p <? 5); [|done]. by simplify_eq.
  - destruct (zlen p <? 4); [done|]. destruct (streams (tbl m) !! _); [|done]. exists [].
    apply moves_same; [done|]. unfold announcements; cbn. by rewrite Hr.
  - destruct (zlen p <? 4); [done|]. exists []. split; [|set_solver|constructor|].
    + by rewrite !app_nil_r.
    + cbn [app]. by eapply chans_kept_drop.
Qed.

Lemma resume_moves m m' : resume m = Some m' → ∃ gone, mux_moves [] [] gone [] m m'.
Proof.
  unfold resume. destruct (reader m) as [|c x|s|] eqn:Hr; try done.
  - intros (ch & Hch & ([b ch'] & Hs & [= <-])%bind_Some)%bind_Some. exists [].
    pose proof (chan_send_Some _ _ _ _ Hs) as (_ & Hrx & Hg & _).
    split; [|set_solver|constructor|].
    + unfold ann_rxs, announcements; cbn. by rewrite Hr, !app_nil_r.
    + apply (chans_kept_set _ c ch ch' m); auto.
  - destruct (notify s m) as [m1|] eqn:Hn; [|done]. cbn. intros [= <-].
    set (rest := incoming m ++ match first m with FirstNotifying s => [s] | _ => [] end).
    apply (moves_notify s m m1 rest); [done| |done|].
    + unfold announcements. rewrite Hr. cbn. symmetry. apply Permutation_middle.
    + unfold notify in Hn. unfold announcements. destruct (incoming_open m); [destruct (_ <? _)%nat; [|done]|];
        injection Hn as <-; cbn; [|done]. unfold rest. rewrite <-app_assoc. symmetry. apply Permutation_middle.
Qed.

Lemma first_moves m m' : mux_wf m → step EFirst m = Some m' → ∃ new gone, mux_moves new [] gone [] m m'.
Proof.
  intros Hwf H. cbn in H. destruct (first m) as [p|s|] eqn:Hf; [| |done].
  - destruct (locked m); [done|]. destruct (process_stream_open p m) as [m1 [s|]] eqn:Ho; simplify_eq.
    + exists [fresh (tbl m)], []. eapply moves_opened; [apply Hwf|done|done|].
      unfold process_stream_open in Ho. destruct (zlen p <? 5); [try done|cbn in Ho]; simplify_eq. unfold announcements; cbn. rewrite Hf, app_nil_r.
      rewrite (assoc_L (++)). symmetry. apply Permutation_cons_append.
    + exists [], []. unfold process_stream_open in Ho. destruct (zlen p <? 5); [try done|cbn in Ho]; simplify_eq. apply moves_same; [done|].
      unfold announcements; cbn. by rewrite Hf.
  - destruct (notify s m) as [m1|] eqn:Hn; [|done]. cbn in H. simplify_eq. exists [].
    set (rest := incoming m ++ match reader m with RNotifying s => [s] | _ => [] end).
    apply (moves_notify s m m1 rest); [done| |done|].
    + unfold announcements. rewrite Hf. unfold rest. rewrite (assoc_L (++)). symmetry. apply Permutation_cons_append.
    + unfold notify in Hn. unfold announcements. destruct (incoming_open m); [destruct (_ <? _)%nat; [|done]|];
        injection Hn as <-; cbn; rewrite ?app_nil_r; [|done]. unfold rest.
      rewrite <-app_assoc. symmetry. apply Permutation_middle.
Qed.

(** Every event moves receivers. *)
Lemma step_moves e m m' :
  mux_wf m → step e m = Some m' → ∃ new gone, mux_moves new (handed_out e m) gone (touched e) m m'.
Proof.
  intros Hwf H. destruct e; cbn [handed_out touched].
  all: try (by exists [], []; apply moves_same; step_cases H; unfold enqueue in *; repeat case_match; simplify_eq/=).
  - cbn in H. destruct (open_resume sid m) as [[c m1]|] eqn:Ho; [|done]. cbn in H. simplify_eq.
    unfold open_resume in Ho. destruct (locked m); [done|]. apply bind_Some in Ho as (i & _ & Ho). cbn in Ho. simplify_eq.
    destruct (register_kept sid m (set_tbl (register sid (tbl m)).2 m)) as (Hk & Hnone & Hnew); [apply Hwf|done|].
    exists [fresh (tbl m)], []. split; [|by intros c ->%list_elem_of_singleton|apply NoDup_singleton|done].
    rewrite !app_nil_r. by rewrite Permutation_app_comm.
  - cbn in H. unfold close_resume in H. destruct (locked m); [done|]. apply bind_Some in H as (i & _ & H). simplify_eq.
    exists [], []. split; [by rewrite !app_nil_r|set_solver|constructor|]. by eapply chans_kept_drop.
  - cbn in H. destruct (reader m) eqn:Hr; try done. simplify_eq. destruct (frame_moves f m Hwf Hr) as [new Hm]. eauto.
  - cbn in H. destruct (reader m) eqn:Hr; try done. simplify_eq. exists [], []. apply moves_same; [done|].
    unfold announcements; cbn. by rewrite Hr.
  - destruct (resume_moves m m' H) as [gone Hm]. eauto.
  - by apply first_moves.
  - cbn in H. apply bind_Some in H as (ch & Hc & H). destruct (rx_open ch); [|done].
    destruct (chan_recv ch) as [[] ch'] eqn:Hr; simplify_eq; exists [], [];
      (split; [by rewrite !app_nil_r|set_solver|constructor|]); apply (chans_kept_set _ c ch ch' m); set_solver.
  - cbn in H. simplify_eq. exists [], []. split; [by rewrite !app_nil_r|set_solver|constructor|]. apply hang_up_kept.
  - cbn in H. destruct (incoming m) as [|s q] eqn:Hi; [done|]. simplify_eq. exists [], [].
    split; [|set_solver|constructor|by apply chans_kept_same].
    unfold ann_rxs, announcements; cbn. rewrite Hi. cbn. by rewrite Permutation_app_comm.
  - cbn in H. simplify_eq. exists [], (in_recv_rx <$> incoming m). split; [|set_solver|constructor|].
    + unfold ann_rxs, announcements. rewrite (proj2 (hang_up_all_frame _ _)), hang_up_all_first, hang_up_all_incoming. cbn.
      by rewrite <-fmap_app, Permutation_app_comm.
    + rewrite app_nil_r. exact (hang_up_all_kept (incoming m) (set_incoming [] false m)).
Qed.

(** ** The daemon *)

Lemma submseteq_NoDup {A} (l k : list A) : NoDup k → l ⊆+ k → NoDup l.
Proof. intros Hk (k' & Hp)%submseteq_Permutation. rewrite Hp in Hk. by apply NoDup_app in Hk as [? _]. Qed.

Definition entry_rxs (s : gmap Z StreamEntry) : list rx_ref := map_to_list s ≫= λ p, option_list (recv_rx p.2).
Definition conn_rxs (cs : gmap nat mux) : list rx_ref := map_to_list cs ≫= λ p, RxMux p.1 <$> ann_rxs p.2.

(** The receivers the daemon holds. *)
Definition held (d : daemon) : list rx_ref := entry_rxs (d_streams d) ++ conn_rxs (conns d).

(** A receiver from which nothing was received. *)
Definition unused (d : daemon) (r : rx_ref) : Prop := ∃ ch, rx_chan r d = Some ch ∧ got ch = [] ∧ rx_open ch = true.

(** Receivers have one place each: the daemon, or among those handed out, [F]. *)
Record own (d : daemon) (F : list rx_ref) : Prop := {
  own_once : NoDup (held d ++ F);
  own_held : ∀ r, r ∈ held d → unused d r;
  own_out : ∀ r, r ∈ F → is_Some (rx_chan r d);
}.

(** The channels in [X] apart, what was received and which receivers are open
    stays. *)
Definition rx_kept (X : list rx_ref) (d d' : daemon) : Prop :=
  ∀ r ch, rx_chan r d = Some ch →
  ∃ ch', rx_chan r d' = Some ch' ∧ (r ∉ X → got ch' = got ch ∧ rx_open ch' = rx_open ch).

(** The daemon goes from [d] to [d'], hands out [C] and leaves alone what was
    handed out before, [T] apart. *)
Record hands (F C T : list rx_ref) (d d' : daemon) : Prop := {
  hands_own : own d' (C ++ F);
  hands_new : ∀ r, r ∈ C → unused d' r;
  hands_old : ∀ r ch, r ∈ F → rx_chan r d = Some ch →
    ∃ ch', rx_chan r d' = Some ch' ∧ (r ∉ T → got ch' = got ch ∧ rx_open ch' = rx_open ch);
}.

Lemma unused_kept X d d' r : rx_kept X d d' → r ∉ X → unused d r → unused d' r.
Proof.
  intros Hk Hx (ch & Hc & Hg & Ho). destruct (Hk r ch Hc) as (ch' & Hc' & Hs). destruct (Hs Hx) as [Hg' Ho'].
  exists ch'. split_and!; [done|congruence..].
Qed.

Ltac in_app := rewrite ?elem_of_app in *; tauto.

(** Receivers move: [new] ones appear, [C] are handed out, [gone] are dropped. *)
Lemma own_moves new gone C T d F d' :
  own d F → held d' ++ C ++ gone ⊆+ new ++ held d → NoDup new →
  (∀ r, r ∈ new → rx_chan r d = None ∧ rx_chan r d' = Some new_chan) →
  rx_kept (gone ++ T) d d' → T ⊆ F → hands F C T d d'.
Proof.
  intros [Hone Hheld Hout] Hsub Hnew Hfresh Hk HT.
  assert (Hnd : NoDup (new ++ held d ++ F)).
  { apply NoDup_app. split_and!; [done| |done]. intros r Hr Hin. destruct (Hfresh r Hr) as [Hnone _].
    apply elem_of_app in Hin as [Hin|Hin]; [destruct (Hheld r Hin) as (ch & Hc & _)|destruct (Hout r Hin)]; congruence. }
  assert (Hnd' : NoDup ((held d' ++ C ++ gone) ++ F)).
  { eapply submseteq_NoDup; [exact Hnd|]. rewrite (assoc_L (++) new). by apply submseteq_skips_r. }
  apply NoDup_app in Hnd' as (Hhcg & Hdisj & HF).
  assert (Hun : ∀ r, r ∈ held d' ++ C → unused d' r).
  { intros r Hr.
    assert (Hng : r ∉ gone).
    { rewrite (assoc_L (++)) in Hhcg. apply NoDup_app in Hhcg as (_ & Hg & _). by apply Hg. }
    assert (HnF : r ∉ F) by (apply Hdisj; rewrite (assoc_L (++)); apply elem_of_app; by left).
    assert (Hin : r ∈ new ++ held d).
    { eapply elem_of_submseteq; [|exact Hsub]. rewrite (assoc_L (++)). apply elem_of_app. by left. }
    apply elem_of_app in Hin as [Hin|Hin].
    - destruct (Hfresh r Hin) as [_ Hc]. by exists new_chan.
    - eapply unused_kept; [exact Hk| |by apply Hheld]. rewrite not_elem_of_app. split; [done|]. intros HrT. by apply HnF, HT. }
  split.
  - split.
    + apply NoDup_app in Hhcg as (Hh & Hhd & Hcg). apply NoDup_app in Hcg as (HC & _ & _).
      apply NoDup_app. split_and!; [done| |].
      * intros r Hr. rewrite not_elem_of_app. split; [|apply Hdisj; in_app]. specialize (Hhd r Hr). rewrite not_elem_of_app in Hhd. tauto.
      * apply NoDup_app. split_and!; [done| |done]. intros r Hr. apply Hdisj. in_app.
    + intros r Hr. apply Hun. in_app.
    + intros r [Hr|Hr]%elem_of_app.
      * destruct (Hun r) as (ch & Hc & _); [in_app|]. by exists ch.
      * destruct (Hout r Hr) as [ch Hc]. destruct (Hk r ch Hc) as (ch' & Hc' & _). by exists ch'.
  - intros r Hr. apply Hun. in_app.
  - intros r ch Hr Hc. destruct (Hk r ch Hc) as (ch' & Hc' & Hs). exists ch'. split; [done|]. intros HnT. apply Hs.
    rewrite not_elem_of_app. split; [|done]. intros Hg. apply (Hdisj r); [|done]. in_app.
Qed.

Lemma hands_trans F C1 C2 d1 d2 d3 :
  hands F C1 [] d1 d2 → hands (C1 ++ F) C2 [] d2 d3 → hands F (C2 ++ C1) [] d1 d3.
Proof.
  intros [H1 N1 O1] [H2 N2 O2]. split.
  - by rewrite <-(assoc_L (++)).
  - intros r [Hr|Hr]%elem_of_app; [by apply N2|]. destruct (N1 r Hr) as (ch & Hc & Hg & Ho).
    destruct (O2 r ch) as (ch' & Hc' & Hs); [in_app|done|]. destruct Hs as [Hg' Ho']; [apply not_elem_of_nil|].
    exists ch'. split_and!; [done|congruence..].
  - intros r ch Hr Hc. destruct (O1 r ch Hr Hc) as (ch2 & Hc2 & Hs2). destruct (O2 r ch2) as (ch3 & Hc3 & Hs3); [in_app|done|].
    exists ch3. split; [done|]. intros Hn. destruct (Hs2 Hn), (Hs3 Hn). split; congruence.
Qed.

Lemma rx_kept_same X d d' : conns d' = conns d → bridges d' = bridges d → rx_kept X d d'.
Proof. intros Hc Hb r ch Hr. exists ch. split; [|done]. rewrite <-Hr. destruct r; cbn; by rewrite ?Hc, ?Hb. Qed.

(** What concerns neither streams, connections nor tasks. *)
Lemma hands_same F d d' :
  own d F → d_streams d' = d_streams d → conns d' = conns d → bridges d' = bridges d → hands F [] [] d d'.
Proof.
  intros Ho Hs Hc Hb. apply (own_moves [] []); [done| |constructor|set_solver|by apply rx_kept_same|set_solver].
  unfold held. by rewrite Hs, Hc, !app_nil_r.
Qed.

Lemma entry_rxs_insert sid e s :
  s !! sid = None → entry_rxs (<[sid := e]> s) ≡ₚ option_list (recv_rx e) ++ entry_rxs s.
Proof. intros Hs. unfold entry_rxs. by rewrite map_to_list_insert. Qed.

Lemma entry_rxs_delete sid e s :
  s !! sid = Some e → entry_rxs s ≡ₚ option_list (recv_rx e) ++ entry_rxs (delete sid s).
Proof. intros Hs. rewrite <-(insert_delete_id s sid e) at 1 by done. apply entry_rxs_insert, lookup_delete_eq. Qed.

Lemma conn_rxs_insert n m cs :
  cs !! n = None → conn_rxs (<[n := m]> cs) ≡ₚ (RxMux n <$> ann_rxs m) ++ conn_rxs cs.
Proof. intros Hn. unfold conn_rxs. by rewrite map_to_list_insert. Qed.

Lemma conn_rxs_update n m m' cs :
  cs !! n = Some m →
  conn_rxs cs ≡ₚ (RxMux n <$> ann_rxs m) ++ conn_rxs (delete n cs)
  ∧ conn_rxs (<[n := m']> cs) ≡ₚ (RxMux n <$> ann_rxs m') ++ conn_rxs (delete n cs).
Proof.
  intros Hn. split.
  - rewrite <-(insert_delete_id cs n m) at 1 by done. apply conn_rxs_insert, lookup_delete_eq.
  - rewrite <-insert_delete_eq. apply conn_rxs_insert, lookup_delete_eq.
Qed.

Lemma submseteq_frame {A} (e r a a' o g n : list A) :
  a' ++ o ++ g ⊆+ n ++ a → (e ++ a' ++ r) ++ o ++ g ⊆+ n ++ e ++ a ++ r.
Proof.
  intros H. trans ((a' ++ o ++ g) ++ (e ++ r)); [|trans ((n ++ a) ++ (e ++ r)); [by apply submseteq_skips_r|]];
    apply Permutation_submseteq; rewrite <-!(assoc_L (++)).
  - rewrite (Permutation_app_swap_app e a'). f_equiv.
    rewrite (assoc_L (++) e r), (assoc_L (++) o g). apply Permutation_app_comm.
  - f_equiv. apply Permutation_app_swap_app.
Qed.

(** A connection moves receivers. *)
Lemma hands_conn F new out gone T n m m' d :
  own d F → conns d !! n = Some m → mux_moves new out gone T m m' → RxMux n <$> T ⊆ F →
  hands F (RxMux n <$> out) (RxMux n <$> T) d (set_conns (<[n := m']> (conns d)) d).
Proof.
  intros Ho Hm [Hrx Hnew Hone Hk] HT.
  apply (own_moves (RxMux n <$> new) (RxMux n <$> gone)); [done| | | | |done].
  - destruct (conn_rxs_update n m m' _ Hm) as [Hp Hp']. unfold held. cbn [d_streams conns set_conns].
    rewrite Hp, Hp'. apply submseteq_frame. rewrite <-!fmap_app. by apply fmap_submseteq.
  - apply NoDup_fmap; [|done]. by intros ?? [= ->].
  - intros r (c & -> & Hc)%list_elem_of_fmap. destruct (Hnew c Hc) as [Hnone Hsome]. cbn. rewrite Hm, lookup_insert_eq. cbn.
    by rewrite Hnone.
  - intros r ch Hr. destruct r as [n' c|b].
    + cbn in Hr |- *. apply bind_Some in Hr as (m0 & Hm0 & Hc). destruct (decide (n = n')) as [<-|Hne].
      * simplify_eq. rewrite lookup_insert_eq. cbn. destruct (Hk c ch Hc) as (ch' & Hc' & Hs). exists ch'. split; [done|].
        intros Hn. apply Hs. rewrite <-fmap_app in Hn. intros Hin. by apply Hn, list_elem_of_fmap_2.
      * rewrite lookup_insert_ne, Hm0 by done. by exists ch.
    + exists ch. by rewrite <-Hr.
Qed.

Lemma hands_step F n m e m' d :
  daemon_wf d → own d F → conns d !! n = Some m → step e m = Some m' → RxMux n <$> touched e ⊆ F →
  hands F (RxMux n <$> handed_out e m) (RxMux n <$> touched e) d (set_conns (<[n := m']> (conns d)) d).
Proof.
  intros Hd Ho Hm Hs HT. destruct (wf_conn _ Hd _ _ Hm) as [_ Hok].
  destruct (step_moves e m m' (ok_wf _ Hok) Hs) as (new & gone & Hmv). by eapply hands_conn.
Qed.

Lemma hands_spawn_conn F m d :
  daemon_wf d → own d F → announcements m = [] → hands F [] [] d (spawn_conn m d).2.
Proof.
  intros Hd Ho Ha.
  assert (Hnone : conns d !! next_name d = None).
  { apply eq_None_not_Some. intros [m0 Hm]. destruct (wf_conn _ Hd _ _ Hm). lia. }
  apply (own_moves [] []); [done| |constructor|set_solver| |set_solver].
  - unfold held. cbn. rewrite conn_rxs_insert by done. unfold ann_rxs. by rewrite Ha, app_nil_r.
  - intros r ch Hr. exists ch. split; [|done]. rewrite <-Hr. destruct r as [n c|b]; cbn; [|done].
    destruct (decide (next_name d = n)) as [<-|Hne]; [|by rewrite lookup_insert_ne].
    cbn in Hr. by rewrite Hnone in Hr.
Qed.

(** The receiver of a socket task's channel. *)
Definition bridge_rx (k : nat) (b : bridge) : list rx_ref :=
  match bridge_to b with ToSocket _ _ _ _ => [RxDirect k] | ToMux _ _ => [] end.

Lemma hands_spawn_bridge F b d :
  daemon_wf d → own d F → (∀ rd held wr recv, bridge_to b = ToSocket rd held wr recv → recv = new_chan) →
  hands F (bridge_rx (next_name d) b) [] d (spawn_bridge b d).2.
Proof.
  intros Hd Ho Hb.
  assert (Hnone : bridges d !! next_name d = None).
  { apply eq_None_not_Some. intros [b0 Hb0]. pose proof (wf_name _ Hd _ _ Hb0). lia. }
  apply (own_moves (bridge_rx (next_name d) b) []); [done| | | | |set_solver].
  - unfold held. cbn. rewrite app_nil_r. by rewrite Permutation_app_comm.
  - unfold bridge_rx. destruct (bridge_to b); [constructor|apply NoDup_singleton].
  - unfold bridge_rx. destruct (bridge_to b) eqn:Hto; [set_solver|]. intros r ->%list_elem_of_singleton. cbn.
    rewrite lookup_insert_eq, Hnone. cbn. by rewrite Hto, (Hb _ _ _ _ eq_refl).
  - intros r ch Hr. exists ch. split; [|done]. rewrite <-Hr. destruct r as [n c|k]; cbn; [done|].
    destruct (decide (next_name d = k)) as [<-|Hne]; [|by rewrite lookup_insert_ne]. cbn in Hr. by rewrite Hnone in Hr.
Qed.

(** Tasks change in a way that leaves the receivers of socket tasks alone, those
    in [X] apart. *)
Definition bridges_kept (X : list rx_ref) (bs bs' : gmap nat bridge) : Prop :=
  ∀ k b rd held wr recv, bs !! k = Some b → bridge_to b = ToSocket rd held wr recv →
  ∃ b' rd' held' wr' recv', bs' !! k = Some b' ∧ bridge_to b' = ToSocket rd' held' wr' recv'
    ∧ (RxDirect k ∉ X → got recv' = got recv ∧ rx_open recv' = rx_open recv).

Lemma bridges_kept_rx X d d' :
  bridges_kept X (bridges d) (bridges d') → conns d' = conns d → rx_kept X d d'.
Proof.
  intros Hb Hc r ch Hr. destruct r as [n c|k]; cbn in *; [exists ch; by rewrite Hc|].
  apply bind_Some in Hr as (b & Hk & Hr). destruct (bridge_to b) as [|rd held wr recv] eqn:Hto; [done|]. simplify_eq.
  destruct (Hb k b _ _ _ _ Hk Hto) as (b' & rd' & held' & wr' & recv' & Hk' & Hto' & Hs). exists recv'.
  rewrite Hk'. cbn. by rewrite Hto'.
Qed.

Lemma hands_bridges F T d d' :
  own d F → bridges_kept T (bridges d) (bridges d') → d_streams d' = d_streams d → conns d' = conns d → T ⊆ F →
  hands F [] T d d'.
Proof.
  intros Ho Hb Hs Hc HT. apply (own_moves [] []); [done| |constructor|set_solver|by apply bridges_kept_rx|done].
  unfold held. by rewrite Hs, Hc, !app_nil_r.
Qed.

Lemma rx_kept_trans X d1 d2 d3 : rx_kept X d1 d2 → rx_kept X d2 d3 → rx_kept X d1 d3.
Proof.
  intros H1 H2 r ch Hr. destruct (H1 r ch Hr) as (ch2 & Hr2 & Hs2). destruct (H2 r ch2 Hr2) as (ch3 & Hr3 & Hs3).
  exists ch3. split; [done|]. intros Hn. destruct (Hs2 Hn), (Hs3 Hn). split; congruence.
Qed.

Lemma rx_kept_hang_up n c d d' :
  conns d' = alter (hang_up c) n (conns d) → bridges d' = bridges d → rx_kept [RxMux n c] d d'.
Proof.
  intros Hc Hb r ch Hr. destruct r as [n' c'|k]; cbn in *; [|rewrite Hb; by exists ch].
  apply bind_Some in Hr as (m & Hm & Hch). rewrite Hc. destruct (decide (n = n')) as [<-|Hne].
  - rewrite lookup_alter_eq, Hm. cbn. destruct (hang_up_kept c m c' ch Hch) as (ch' & Hch' & Hs). exists ch'.
    split; [done|]. intros Hn. apply Hs. set_solver.
  - rewrite lookup_alter_ne, Hm by done. by exists ch.
Qed.

Lemma bridges_kept_alter X f k bs :
  (∀ b rd held wr recv, bridge_to b = ToSocket rd held wr recv →
     ∃ rd' held' wr' recv', bridge_to (f b) = ToSocket rd' held' wr' recv'
       ∧ (RxDirect k ∉ X → got recv' = got recv ∧ rx_open recv' = rx_open recv)) →
  bridges_kept X bs (alter f k bs).
Proof.
  intros Hf j b rd held wr recv Hj Hto. destruct (decide (k = j)) as [->|Hne].
  - rewrite lookup_alter_eq, Hj. cbn. destruct (Hf _ _ _ _ _ Hto) as (? & ? & ? & ? & ? & ?). do 5 eexists. by split_and!.
  - rewrite lookup_alter_ne, Hj by done. do 5 eexists. by split_and!.
Qed.

(** An entry leaves the table, with the receiver it holds. *)
Lemma hands_remove F sid d : daemon_wf d → own d F → hands F [] [] d (remove_stream sid d).
Proof.
  intros Hd Ho. unfold remove_stream. destruct (d_streams d !! sid) as [e|] eqn:He; [|by apply hands_same].
  apply (own_moves [] (option_list (recv_rx e))); [done| |constructor|set_solver| |set_solver].
  - assert (Hc : conn_rxs (conns (drop_stream_entry e d)) ≡ₚ conn_rxs (conns d)).
    { unfold drop_stream_entry. destruct (recv_rx e) as [[n c|k]|]; cbn; [|done..].
      destruct (conns d !! n) as [m|] eqn:Hm; [|by rewrite alter_None_same].
      rewrite (alter_Some_insert _ _ _ m) by done. destruct (conn_rxs_update n m (hang_up c m) _ Hm) as [-> ->]. done. }
    unfold held. cbn [d_streams conns set_streams]. rewrite Hc.
    replace (d_streams (drop_stream_entry e d)) with (d_streams d) by (unfold drop_stream_entry; by destruct (recv_rx e) as [[]|]).
    rewrite (entry_rxs_delete sid e (d_streams d)) by done. cbn.
    by rewrite (Permutation_app_comm (_ ++ conn_rxs _) (option_list _)), (assoc_L (++)).
  - rewrite app_nil_r. unfold drop_stream_entry.
    assert (Hdata : ∀ X k, bridges_kept X (bridges d) (alter (on_data drop_tx) k (bridges d))).
    { intros X k. apply bridges_kept_alter. intros b rd held wr recv Hto. do 4 eexists. by split_and!. }
    destruct (recv_rx e) as [[n c|k]|] eqn:Hr; cbn.
    all: apply (rx_kept_trans _ d (set_bridges (alter (on_data drop_tx) (data_tx e) (bridges d)) d));
      [by apply bridges_kept_rx; [apply Hdata|]|].
    + by apply (rx_kept_hang_up n c).
    + apply bridges_kept_rx; [apply bridges_kept_alter|done]. intros b rd held wr recv Hto. unfold on_recv. rewrite Hto.
      do 4 eexists. split; [done|]. set_solver.
    + by apply rx_kept_same.
Qed.

Lemma own_perm d F F' : F ≡ₚ F' → own d F → own d F'.
Proof.
  intros Hp [H1 H2 H3]. split; [by rewrite <-Hp|done|]. intros r Hr. apply H3. by rewrite Hp.
Qed.

(** A stream gets its task and its entry; [R] are receivers in the hands of the
    caller, [C] those it has afterwards. *)
Lemma hands_new_stream F R C sid e b d :
  daemon_wf d → sending d = None → own d (R ++ F) → (∀ r, r ∈ R → unused d r) →
  (∀ rd held wr recv, bridge_to b = ToSocket rd held wr recv → recv = new_chan) →
  bridge_rx (next_name d) b ++ R ≡ₚ option_list (recv_rx e) ++ C →
  hands F C [] d (insert_stream sid e (spawn_bridge b d).2).
Proof.
  intros Hd Hs Ho HR Hb Hp. rewrite insert_spawned by done.
  destruct (remove_stream_frame sid d) as (Hfree & Hnext & _).
  pose proof (hands_remove _ sid d Hd Ho) as H1. pose proof (wf_remove sid d Hd Hs) as Hd1.
  set (d1 := remove_stream sid d) in *.
  pose proof (hands_spawn_bridge _ b d1 Hd1 (hands_own _ _ _ _ _ H1) Hb) as H2. rewrite Hnext in H2.
  pose proof (hands_trans _ _ _ _ _ _ H1 H2) as [H3 N3 O3]. rewrite app_nil_r in H3, N3.
  set (d2 := (spawn_bridge b d1).2) in *.
  assert (Hall : ∀ r, r ∈ bridge_rx (next_name d) b ++ R → unused d2 r).
  { intros r [Hr|Hr]%elem_of_app; [by apply N3|]. destruct (HR r Hr) as (ch & Hc & Hg & Hop).
    destruct (O3 r ch) as (ch' & Hc' & Hsame); [in_app|done|]. destruct Hsame; [apply not_elem_of_nil|].
    exists ch'. split_and!; [done|congruence..]. }
  apply (own_perm _ _ (option_list (recv_rx e) ++ C ++ F)) in H3; [|by rewrite !(assoc_L (++)), Hp].
  assert (Hrx : ∀ r, rx_chan r (set_streams (<[sid := e]> (d_streams d1)) d2) = rx_chan r d2) by (by intros []).
  split.
  - destruct H3 as [Hone Hheld Hout]. split.
    + unfold held in *. cbn [d_streams conns set_streams]. rewrite entry_rxs_insert by done.
      eapply submseteq_NoDup; [exact Hone|]. apply Permutation_submseteq. cbn.
      rewrite <-!(assoc_L (++)), (Permutation_app_swap_app (conn_rxs _) (option_list _)), Permutation_app_swap_app. done.
    + intros r Hr. unfold unused. rewrite Hrx. unfold held in Hr. cbn [d_streams conns set_streams] in Hr.
      rewrite entry_rxs_insert in Hr by done. rewrite <-(assoc_L (++)) in Hr. apply elem_of_app in Hr as [Hr|Hr].
      * apply Hall. rewrite Hp. in_app.
      * by apply Hheld.
    + intros r Hr. rewrite Hrx. apply Hout. in_app.
  - intros r Hr. unfold unused. rewrite Hrx. apply Hall. rewrite Hp. in_app.
  - intros r ch Hr Hc. rewrite Hrx. apply O3; [in_app|done].
Qed.

(** A receiver is taken from its entry. *)
Lemma hands_take F sid d :
  own d F → hands F (option_list (take_recv_rx sid d).1) [] d (take_recv_rx sid d).2.
Proof.
  intros Ho. unfold take_recv_rx. destruct (d_streams d !! sid) as [e|] eqn:He; [|by apply hands_same].
  apply (own_moves [] []); [done| |constructor|set_solver|by apply rx_kept_same|set_solver].
  unfold held. cbn. rewrite (entry_rxs_delete sid e (d_streams d)) by done.
  rewrite <-insert_delete_eq, entry_rxs_insert by apply lookup_delete_eq. cbn. rewrite app_nil_r.
  by rewrite Permutation_app_comm, (assoc_L (++)).
Qed.

Section Owner.
Context `{ED : !Ed25519, CM : !CaseMapping}.

(** The receivers an event hands out, and those whose holders act in it. *)
Definition claims (e : devent) (d : daemon) : list rx_ref :=
  match e with
  | DDial connect get now now' target class =>
      match (dial connect get now now' target class d).1 with Done (_, rx) => [rx] | _ => [] end
  | DDialResume i => match dial_resume i d with Some ((_, rx), _) => [rx] | None => [] end
  | DTake sid => option_list (take_recv_rx sid d).1
  | _ => []
  end.
Definition consumes (e : devent) : list rx_ref :=
  match e with
  | DConn n e => RxMux n <$> touched e
  | DRecv b | DDropRx b => [RxDirect b]
  | _ => []
  end.

Lemma hands_pooled F connect addr d :
  daemon_wf d → own d F → hands F [] [] d (pooled_conn connect addr d).2.
Proof.
  intros Hd Ho. unfold pooled_conn, create_mux_conn. destruct (mux_pool d !! addr); [by apply hands_same|].
  destruct (connect addr) as [tcp|]; [|by apply hands_same].
  destruct (client_authenticate _ _) as [[u|e|] s]; [|by apply hands_same..]. cbn.
  apply (hands_trans _ [] [] _ (spawn_conn (new_initiator addr) d).2).
  - by apply hands_spawn_conn.
  - apply hands_same; try done. by apply (hands_spawn_conn F (new_initiator addr) d).
Qed.

Lemma moves_from new out gone T m m1 m' :
  tbl m1 = tbl m → announcements m1 = announcements m → mux_moves new out gone T m1 m' → mux_moves new out gone T m m'.
Proof.
  intros Ht Ha [H1 H2 H3 H4]. unfold ann_rxs, chans_kept in *. rewrite Ht, Ha in *. by split.
Qed.

Lemma open_moves class m :
  mux_wf m →
  ∃ new gone, mux_moves new (match (open_stream class m).1 with Done (_, c) => [c] | _ => [] end) gone [] m (open_stream class m).2.
Proof.
  intros Hwf. unfold open_stream.
  assert (Hb : let m1 := (open_begin class m).2 in tbl m1 = tbl m ∧ announcements m1 = announcements m ∧ reader m1 = reader m).
  { unfold open_begin. by destruct (enqueue _ _ _) as [[] ?]. }
  destruct (open_begin class m) as [[sid|e] m1]; cbn in Hb; destruct Hb as (Ht & Ha & Hr).
  2:{ exists [], []. by apply moves_same. }
  set (m2 := set_opening (opening m1 ++ [sid]) m1).
  destruct (open_resume sid m2) as [[c m3]|] eqn:Ho; cbn; [|exists [], []; by apply moves_same].
  assert (Hs : step (EInsert sid) m2 = Some m3) by (cbn; by rewrite Ho).
  assert (Hwf2 : mux_wf m2). { destruct Hwf. split; cbn; by rewrite ?Ht, ?Hr. }
  destruct (step_moves _ _ _ Hwf2 Hs) as (new & gone & Hm). cbn in Hm. exists new, gone.
  assert (c = fresh (tbl m1)) as ->.
  { unfold open_resume in Ho. case_match; [done|]. apply bind_Some in Ho as (i & _ & Ho). cbn in Ho. by simplify_eq. }
  by apply (moves_from _ _ _ _ m m2).
Qed.

Lemma hands_dial_mux F connect addr class d :
  daemon_wf d → sending d = None → own d F →
  hands F (match (dial_mux connect addr class d).1 with Done (_, rx) => [rx] | _ => [] end) [] d (dial_mux connect addr class d).2.
Proof.
  intros Hd Hs Ho. unfold dial_mux. pose proof (hands_pooled F connect addr d Hd Ho) as H1.
  destruct (pooled_conn connect addr d) as [r d1] eqn:Hp. destruct (wf_pooled _ _ _ _ _ Hd Hp) as (Hd1 & Hs1 & Hn).
  cbn [snd] in H1. destruct r as [n|e|]; [|done..]. destruct (Hn n eq_refl) as [m Hm]. rewrite Hm.
  destruct (wf_conn _ Hd1 _ _ Hm) as [_ Hok]. destruct (open_moves class m (ok_wf _ Hok)) as (new & gone & Hmv).
  pose proof (hands_conn F _ _ _ _ n m _ d1 (hands_own _ _ _ _ _ H1) Hm Hmv ltac:(set_solver)) as H2.
  destruct (open_stream_ok class m Hok) as (Hok' & Hch & Hsid).
  pose proof (wf_set_conn n m _ d1 Hd1 Hm Hok' Hch) as Hd2.
  destruct (open_stream class m) as [[[sid c]|e|] m'] eqn:Hop; cbn [fst snd] in *;
    pose proof (hands_trans _ _ _ _ _ _ H1 H2) as H3; cbn [app fmap list_fmap] in H3; [|done|].
  - destruct (Hsid sid c eq_refl) as [-> _].
    apply (hands_trans F [RxMux n c] [] _ _ _ H3).
    apply (hands_new_stream _ [] [] (next_stream_id m) _ (Bridge (next_stream_id m) new_chan (ToMux n class) BRunning));
      [done|cbn; congruence|apply H3|set_solver|done|done].
  - apply (hands_trans F [] [] _ _ _ H3). apply hands_same; [apply H3|done..].
Qed.

Lemma hands_dial_direct F connect addr class d :
  daemon_wf d → sending d = None → own d F →
  hands F (match (dial_direct connect addr class d).1 with Done (_, rx) => [rx] | _ => [] end) [] d (dial_direct connect addr class d).2.
Proof.
  intros Hd Hs Ho. unfold dial_direct.
  assert (Hd1 : daemon_wf (bump_next_stream_id d)).
  { apply (wf_roles d); try done; try apply Hd; [by apply conns_later_same|apply u32_wrap_range]. }
  assert (H1 : hands F [] [] d (bump_next_stream_id d)) by (by apply hands_same).
  destruct (connect addr) as [tcp|e]; [|done]. destruct (direct_open _ _ _ _) as [[u|e|] s]; [|done..].
  apply (hands_trans F [] [RxDirect (next_name d)] _ _ _ H1).
  apply (hands_new_stream _ [] [RxDirect (next_name d)] (d_next_stream_id d) _
           (Bridge (d_next_stream_id d) new_chan (ToSocket (rd s) [] (wr s) new_chan) BRunning) (bump_next_stream_id d));
    [done|done|apply H1|set_solver|by intros ???? [=]|done].
Qed.

Lemma hands_dial F connect get now now' target class d :
  daemon_wf d → sending d = None → own d F →
  hands F (claims (DDial connect get now now' target class) d) [] d (dial connect get now now' target class d).2.
Proof.
  intros Hd Hs Ho. cbn. unfold dial.
  assert (H : ∀ addr d0, daemon_wf d0 → sending d0 = None → own d0 F →
    let r := if use_mux (config d0) then dial_mux connect addr class d0 else dial_direct connect addr class d0 in
    hands F (match r.1 with Done (_, rx) => [rx] | _ => [] end) [] d0 r.2).
  { intros addr d0 Hd0 Hs0 Ho0. cbn. destruct (use_mux _); [by apply hands_dial_mux|by apply hands_dial_direct]. }
  destruct (starts_with _ _); [|by apply H]. destruct (resolver d) as [r|]; [|by apply hands_same].
  destruct (resolve _ _ _ _ _) as [[[addr|e] u] r'].
  - assert (H1 : hands F [] [] d (set_resolver (Some r') d)) by (by apply hands_same).
    specialize (H addr (set_resolver (Some r') d)). cbn zeta in H.
    rewrite <-(app_nil_r (match _ with Done _ => _ | _ => _ end)). apply (hands_trans F [] _ _ _ _ H1). apply H; [|done|apply H1].
    apply (wf_quiet d); try done. by apply conns_later_same.
  - by apply hands_same.
Qed.
Lemma hands_dial_resume F i d x d' :
  daemon_wf d → sending d = None → own d F → dial_resume i d = Some (x, d') → hands F [x.2] [] d d'.
Proof.
  intros Hd Hs Ho ([[n sid] class] & Hi & (m & Hm & ([c m'] & Hop & [= <- <-])%bind_Some)%bind_Some)%bind_Some.
  assert (Hstep : step (EInsert sid) m = Some m') by (cbn; by rewrite Hop).
  pose proof (hands_step F n m _ m' d Hd Ho Hm Hstep ltac:(set_solver)) as H1. cbn in H1.
  pose proof (wf_step_conn n m _ m' d Hd Hm Hstep) as Hd1.
  assert (c = fresh (tbl m)) as ->.
  { unfold open_resume in Hop. case_match; [done|]. apply bind_Some in Hop as (j & _ & Hop). cbn in Hop. by simplify_eq. }
  set (d1 := set_conns (<[n := m']> (conns d)) d) in *.
  assert (H2 : hands ([RxMux n (fresh (tbl m))] ++ F) [] [] d1 (set_dialing (delete i (dialing d)) d1))
    by (by apply hands_same; [apply H1|..]).
  apply (hands_trans F [RxMux n (fresh (tbl m))] [] _ d1 _ H1), (hands_trans _ [] [] _ _ _ H2).
  apply (hands_new_stream _ [] [] sid _ (Bridge sid new_chan (ToMux n class) BRunning));
    [|done|apply H2|set_solver|done|done].
  apply wf_set_dialing; [done|]. intros k s' c0 Hin. apply (wf_dialing _ Hd1 k s' c0). by eapply list_elem_of_delete_inv.
Qed.

Lemma hands_inbound F nonce s d :
  daemon_wf d → sending d = None → own d F → hands F [] [] d (handle_inbound nonce s d).2.
Proof.
  intros Hd Hs Ho. assert (H0 : hands F [] [] d d) by (by apply hands_same).
  unfold handle_inbound. destruct (server_authenticate _ _ _) as [[k|e|] s1]; [|done..].
  destruct (read_frame _) as [[[ft p]|e|] r]; [|done..].
  destruct ft; try done; [unfold handle_inbound_relay|by apply hands_spawn_conn].
  destruct (zlen p <? 5); [done|]. destruct (write_frame _ _ _) as [[u|e|] w]; [|done..].
  set (b := Bridge (be_value (take 4 p)) new_chan (ToSocket r [] w new_chan) BRunning).
  set (e := {| data_tx := next_name d; recv_rx := Some (RxDirect (next_name d));
               entry_class := from_byte (be_value (take 1 (drop 4 p))); mux_conn := None |}).
  assert (H1 : hands F [] [] d (insert_stream (be_value (take 4 p)) e (spawn_bridge b d).2)).
  { apply (hands_new_stream _ [] []); [done..|set_solver|by intros ???? [=]|done]. }
  apply (hands_trans _ [] [] _ _ _ H1). apply hands_same; [apply H1|done..].
Qed.

Lemma hands_register F s n m m' d :
  daemon_wf d → sending d = None → own d F → conns d !! n = Some m → head (incoming m) = Some s →
  step ETake m = Some m' →
  hands F [] [] d (register_mux_incoming s n (set_conns (<[n := m']> (conns d)) d)).
Proof.
  intros Hd Hs Ho Hm Hh Ht. pose proof (hands_step F n m _ m' d Hd Ho Hm Ht ltac:(set_solver)) as H1.
  pose proof (wf_step_conn n m _ m' d Hd Hm Ht) as Hd1.
  assert (Hout : handed_out ETake m = [in_recv_rx s]) by (cbn; by destruct (incoming m); simplify_eq/=).
  rewrite Hout in H1. cbn [fmap list_fmap touched] in H1. set (d1 := set_conns (<[n := m']> (conns d)) d) in *.
  assert (H2 : hands F [] [] d1 (insert_stream (in_stream_id s)
    {| data_tx := next_name d1; recv_rx := Some (RxMux n (in_recv_rx s)); entry_class := in_class s; mux_conn := Some n |}
    (spawn_bridge (Bridge (in_stream_id s) new_chan (ToMux n (in_class s)) BRunning) d1).2)).
  { apply (hands_new_stream F [RxMux n (in_recv_rx s)] []); [done|done|apply H1|apply H1|done|done]. }
  assert (H3 : hands F [] [] d (register_mux_incoming s n d1)); [|done].
  destruct H2 as [[Ho1 Ho2 Ho3] Hn2 Hold2]. destruct H1 as [_ _ Hold1]. split; [by split|done|].
  intros r ch Hr Hc. destruct (Hold1 r ch Hr Hc) as (ch1 & Hc1 & Hs1). destruct (Hold2 r ch1 Hr Hc1) as (ch2 & Hc2 & Hs2).
  exists ch2. split; [by destruct r|]. intros Hn. destruct (Hs1 Hn), (Hs2 Hn). split; congruence.
Qed.

Lemma task_moves t m t' m' : task_step t m t' m' → mux_ok m → ∃ new gone, mux_moves new [] gone [] m m'.
Proof.
  assert (Hsend : ∀ sid x class m, tbl (mux_send sid x class m).2 = tbl m
    ∧ announcements (mux_send sid x class m).2 = announcements m).
  { intros. unfold mux_send. by destruct (enqueue _ _ _). }
  intros Ht Hok. destruct Ht as [x m' _ Hs|x e m' _ Hs| |m' _ Hs].
  - destruct (Hsend (task_sid t) x (task_class t) m) as [H1 H2]. rewrite Hs in H1, H2. exists [], []. by apply moves_same.
  - destruct (Hsend (task_sid t) x (task_class t) m) as [H1 H2]. rewrite Hs in H1, H2. exists [], []. by apply moves_same.
  - exists [], []. by apply moves_same.
  - apply (step_moves (ERemove (task_sid t)) m m' (ok_wf _ Hok) Hs).
Qed.

(** A step of a task on a socket. *)
Lemma hands_bridge_step F T k f d d' :
  own d F → T ⊆ F →
  (∀ b b', f b = Some b' → ∀ rd held wr recv, bridge_to b = ToSocket rd held wr recv →
     ∃ rd' held' wr' recv', bridge_to b' = ToSocket rd' held' wr' recv'
       ∧ (RxDirect k ∉ T → got recv' = got recv ∧ rx_open recv' = rx_open recv)) →
  bridge_step k f d = Some d' → hands F [] T d d'.
Proof.
  intros Ho HT Hf (b & Hb & (b' & Hb' & [= <-])%bind_Some)%bind_Some. apply hands_bridges; try done.
  intros j b0 rd held wr recv Hj Hto. cbn. destruct (decide (k = j)) as [<-|Hne].
  - rewrite lookup_insert_eq. simplify_eq. destruct (Hf _ _ Hb' _ _ _ _ Hto) as (? & ? & ? & ? & ? & ?). do 5 eexists. by split_and!.
  - rewrite lookup_insert_ne, Hj by done. do 5 eexists. by split_and!.
Qed.
(** A round of a socket task's loop. *)
Lemma loop_same (f : source → list byte → sink → chan → bridge → option bridge) k (T : list rx_ref) :
  (∀ rd held wr recv b b', f rd held wr recv b = Some b' → ∃ rd' held' wr', bridge_to b' = ToSocket rd' held' wr' recv) →
  ∀ b b', at_loop f b = Some b' → ∀ rd held wr recv, bridge_to b = ToSocket rd held wr recv →
  ∃ rd' held' wr' recv', bridge_to b' = ToSocket rd' held' wr' recv'
    ∧ (RxDirect k ∉ T → got recv' = got recv ∧ rx_open recv' = rx_open recv).
Proof.
  intros Hf b b' Hl rd held wr recv Hto. unfold at_loop in Hl. rewrite Hto in Hl. destruct (phase b); try done.
  destruct (Hf _ _ _ _ _ _ Hl) as (? & ? & ? & ->). do 4 eexists. done.
Qed.

Lemma hands_end_direct F k sid d :
  daemon_wf d → own d F →
  hands F [] [] d (set_bridges (alter (on_recv drop_tx ∘ end_bridge) k (bridges (remove_stream sid d))) (remove_stream sid d)).
Proof.
  intros Hd Ho. pose proof (hands_remove F sid d Hd Ho) as H1. apply (hands_trans F [] [] _ _ _ H1).
  apply hands_bridges; [apply H1| |done|done|set_solver]. cbn [bridges set_bridges]. apply bridges_kept_alter.
  intros b rd held wr recv Hto. unfold on_recv, end_bridge. cbn. rewrite Hto. do 4 eexists. done.
Qed.

(** Every event keeps receivers in one place each, hands out what it says, and
    leaves those handed out before alone unless their holder acts. *)
Lemma dstep_hands e d d' F :
  daemon_wf d → own d F → dstep e d = Some d' → consumes e ⊆ F → hands F (claims e d) (consumes e) d d'.
Proof.
  intros Hd Ho H HT. assert (H0 : hands F [] [] d d) by (by apply hands_same).
  destruct e; cbn [dstep] in H; try (destruct (unlocked d) eqn:Hu; [apply unlocked_sending in Hu|done]);
    cbn [consumes] in *.
  - simplify_eq. unfold start_listener. repeat case_match; first [done|by apply hands_same].
  - destruct (listener_up d); simplify_eq. by apply hands_same.
  - injection H as <-. by apply hands_dial.
  - cbn. destruct (dial_resume i d) as [[[sid rx] d1]|] eqn:Hr; cbn in H; simplify_eq. by eapply (hands_dial_resume _ _ _ (sid, rx)).
  - simplify_eq. unfold send. destruct (d_streams d !! sid); [|done]. destruct (bridges d !! _) as [b|] eqn:Hb; [|done].
    destruct (chan_send _ _) as [[[] ch]|]; cbn; [|done|by apply hands_same]. apply hands_bridges; try done.
    cbn. rewrite <-(alter_Some_insert (on_data (λ _, ch))) by done. apply bridges_kept_alter.
    intros b0 rd held wr recv Hto. do 4 eexists. done.
  - apply bind_Some in H as ([n x] & Hs & (b & Hb & ([ok ch] & Hc & [= <-])%bind_Some)%bind_Some).
    apply hands_bridges; try done. cbn. rewrite <-(alter_Some_insert (on_data (λ _, ch))) by done. apply bridges_kept_alter.
    intros b0 rd held wr recv Hto. do 4 eexists. done.
  - simplify_eq. by apply hands_remove.
  - simplify_eq. by apply hands_take.
  - destruct (unlocked d) eqn:Hu; rewrite ?andb_false_r in H; [apply unlocked_sending in Hu|done].
    destruct (listener_up d); [|done]. injection H as <-. by apply hands_inbound.
  - apply bind_Some in H as (m & Hm & (s & Hs & (m' & Ht & [= <-])%bind_Some)%bind_Some). by eapply hands_register.
  - apply bind_Some in H as (m & Hm & H). destruct (own_step _ _ _ _) eqn:How; [|done].
    apply bind_Some in H as (m' & Hs & [= <-]). pose proof (hands_step F conn m e m' d Hd Ho Hm Hs HT) as H1.
    by destruct e.
  - apply bind_Some in H as (b & Hb & H). destruct (bridge_to b) as [conn class|rd held wr recv] eqn:Hto.
    + apply bind_Some in H as (m & Hm & ([b' m'] & Ht & [= <-])%bind_Some).
      destruct (turn_task _ _ _ _ _ _ Hto Ht) as (Hrole & t & t' & _ & Htb' & _ & Hstep).
      destruct (wf_conn _ Hd _ _ Hm) as [_ Hok]. destruct (task_moves _ _ _ _ Hstep Hok) as (new & gone & Hmv).
      pose proof (hands_conn F _ _ _ _ conn m m' d Ho Hm Hmv ltac:(set_solver)) as H1.
      apply (hands_trans F [] [] _ _ _ H1). apply hands_bridges; [apply H1| |done|done|set_solver].
      intros j b0 rd held wr recv Hj Hto0. cbn in *. rewrite lookup_insert_ne by congruence. do 5 eexists. by split_and!.
    + destruct (phase b) as [|x| |]; try done.
      * apply bind_Some in H as (b' & Hb' & [= <-]). apply hands_bridges; try done.
        intros j b0 rd0 held0 wr0 recv0 Hj Hto0. cbn. destruct (decide (n = j)) as [<-|Hne].
        -- rewrite Hb in Hj. injection Hj as <-. rewrite Hto in Hto0. simplify_eq. rewrite lookup_insert_eq.
           unfold bridge_deliver in Hb'. destruct (chan_send x recv0) as [[[] ch]|] eqn:Hc; simplify_eq.
           ++ apply chan_send_Some in Hc as (_ & Hrx & Hg & _). do 5 eexists. by split_and!.
           ++ do 5 eexists. by split_and!.
        -- rewrite lookup_insert_ne, Hj by done. do 5 eexists. by split_and!.
      * destruct (unlocked d); [|done]. simplify_eq. by apply hands_end_direct.
  - revert H. apply hands_bridge_step; [done|set_solver|]. apply loop_same. unfold bridge_outgoing.
    intros rd held wr recv b b'. repeat case_match; intros [= <-]; by do 3 eexists.
  - revert H. apply hands_bridge_step; [done|set_solver|]. apply loop_same. unfold bridge_incoming.
    intros rd held wr recv b b'. repeat case_match; intros [= <-]; by do 3 eexists.
  - revert H. apply hands_bridge_step; [done|set_solver|]. apply loop_same.
    intros rd held wr recv b b'. repeat case_match; intros [= <-]; by do 3 eexists.
  - revert H. apply hands_bridge_step; [done|set_solver|]. intros b b' Hf rd held wr recv Hto. rewrite Hto in Hf.
    destruct (fin rd); simplify_eq. by do 4 eexists.
  - revert H. apply hands_bridge_step; [done|set_solver|]. intros b b' Hf rd held wr recv Hto. rewrite Hto in Hf.
    simplify_eq. by do 4 eexists.
  - revert H. apply hands_bridge_step; [done|set_solver|]. intros b b' Hf rd held wr recv Hto. rewrite Hto in Hf.
    destruct (rx_open recv); [|done]. destruct (chan_recv recv) as [[] ch]; simplify_eq; do 4 eexists; (split; [done|set_solver]).
  - revert H. apply hands_bridge_step; [done|set_solver|]. intros b b' Hf rd held wr recv Hto. rewrite Hto in Hf.
    simplify_eq. do 4 eexists; (split; [done|set_solver]).
Qed.
End Owner.
