(* ===== verification/Node.v ===== *)
(** * The whole daemon process (rust/crates/roboat-daemon/src/server.rs,
    rust/bin/roboatd/src/main.rs)

    [IpcServer::run] accepts agents and starts [handle_client] for each; their
    requests, the forwarding tasks of their streams, the tasks of their [listen]s
    and the daemon's own tasks run side by side on one manager.  An event of the
    process is a step of one of them; each is a sequence of events of the daemon, so
    what holds of a daemon holds of the process.  The theorems are about agents: what
    one sends on a stream on one machine is what the peer's agent reads on the other.

    An agent's socket takes what is written to it until the agent hangs up.  All
    tasks of an agent write to it, one whole message at a time under a lock, so
    between what a task decides to write and its writing the others may write: the
    answer to a dial may come after the first data of the stream. *)

From Stdlib Require Import Ascii String.
From S2P Require Import Prelude Text Stream Protocol Auth Ipc Mux Resolver Manager Daemon Delivery Server Owner.

(** ** State *)

(** What [handle_client] is at: reading the next request, about to write an answer,
    inside [manager.send] or [dial_mux] of the request it read, waiting for a peer,
    or returned. *)
Inductive client_state : Type :=
| CReading
| CReplying (answer : DaemonMsg)
| CSending
| CDialing (key : nat * Z * StreamClass) (target_agent_id : string) (request_id : option string)
| CStuck
| CEnded.

(** What a forwarding task is at: waiting for data, about to pass on what it
    received, or returned. *)
Inductive task_state : Type :=
| FWaiting
| FHolding (received : option (list byte))
| FOver.

(** An agent's connection: its socket, the forwarding tasks it has started and
    what they are at, what its [listen] tasks read next and are about to write, the
    heartbeat loops. *)
Record agent : Type := Agent {
  a_in : source;
  a_out : sink;
  a_tasks : list (forward * task_state);
  a_subs : list (nat * option DaemonMsg);
  a_hbs : list (Registrar * string * Z);
  a_state : client_state;
}.

Record node : Type := Node {
  n_up : bool;
  n_agents : list agent;
  n_mgr : daemon;
}.

(** [IpcServer::run] up to its loop: [create_dir_all] on the socket's parent, if
    it has one, and [bind].  The removal of a stale socket may fail. *)
Definition ipc_start (cfg : DaemonConfig) (create_dir : option (result io_error unit)) (bind : result io_error unit) :
    result io_error node :=
  _ ← default (Ok tt) create_dir;
  _ ← bind;
  mret (Node true [] (new_manager cfg)).

Definition new_node (cfg : DaemonConfig) : node := Node true [] (new_manager cfg).

(** An accepted agent. *)
Definition new_agent : agent := Agent (Source [] Open) (open_sink []) [] [] [] CReading.

(** The agent hangs up: nothing can be written to it any more. *)
Definition hang_up_agent (a : agent) : agent :=
  Agent (Source (avail (a_in a)) Closed)
    (Sink (written (a_out a)) (Some 0) (Some (IoError (OtherKind "BrokenPipe") "Broken pipe (os error 32)")))
    (a_tasks a) (a_subs a) (a_hbs a) (a_state a).

(** [Server.v]'s view of an agent and the manager, and the agent after a step on
    it: tasks that were started wait. *)
Definition server_of (a : agent) (d : daemon) : server := Server (a_out a) (a_tasks a).*1 (a_subs a).*1 (a_hbs a) d.
Definition put_view (r : source) (st : client_state) (s : server) (a : agent) : agent :=
  Agent r (writer s) (a_tasks a ++ ((λ f, (f, FWaiting)) <$> drop (length (a_tasks a)) (forwards s)))
    (a_subs a ++ ((λ k, (k, None)) <$> drop (length (a_subs a)) (subscriptions s))) (heartbeats s) st.

Section Node.
Context `{ED : !Ed25519, CM : !CaseMapping, RL : !RegistrarLibs, B64 : !Base64}.
Context `{JA : !JsonCodec AgentMsg, JD : !JsonCodec DaemonMsg}.

(** ** Steps of one agent's tasks *)

(** Whether a request needs the manager's table. *)
Definition needs_table (msg : AgentMsg) : bool :=
  match msg with
  | Dial _ _ _ | Close _ => true
  | Send _ data => match b64_decode data with Ok _ => true | Err _ => false end
  | Listen _ _ _ | Unlisten | Ping => false
  end.

(** What a request that has not returned waits for: [send] for room, [dial] for
    the table of its connection, or for its peer. *)
Definition waiting_for (msg : AgentMsg) (before after : daemon) : client_state :=
  match msg with
  | Send _ _ => CSending
  | Dial target _ request_id =>
      if (length (dialing before) <? length (dialing after))%nat then
        match last (dialing after) with Some key => CDialing key target request_id | None => CStuck end
      else CStuck
  | _ => CStuck
  end.

Definition after_reply {A} (o : outcome IpcError A) : client_state :=
  match o with Done _ => CReading | Fail _ => CEnded | Pending => CStuck end.

(** [handle_client] reads a request and handles it as far as it gets without the
    writer. *)
Definition client_turn (env : surroundings) (a : agent) (d : daemon) : option (agent * daemon) :=
  match a_state a with
  | CReading =>
      match read_agent_msg (a_in a) with
      | (Done msg, r) =>
          if needs_table msg && negb (unlocked d) then None
          else
            let '(o, s) := request_effect env msg (server_of a d) in
            Some (put_view r (match o with
                              | Done (Some answer) => CReplying answer
                              | Done None => CReading
                              | Fail _ => CEnded
                              | Pending => waiting_for msg d (mgr s)
                              end) s a, mgr s)
      | (Fail _, r) => Some (put_view r CEnded (server_of a d) a, d)
      | (Pending, _) => None
      end
  | _ => None
  end.

(** It writes its answer. *)
Definition reply_goes (a : agent) (d : daemon) : option (agent * daemon) :=
  match a_state a with
  | CReplying answer =>
      let '(o, s) := reply answer (server_of a d) in
      Some (put_view (a_in a) (after_reply o) s a, mgr s)
  | _ => None
  end.

(** Its [send] gets room and returns. *)
Definition send_returns (a : agent) (d : daemon) : option (agent * daemon) :=
  match a_state a with
  | CSending =>
      '(n, data) ← sending d;
      b ← bridges d !! n;
      '(ok, _) ← chan_send data (bridge_data b);
      d' ← dstep DSendResume d;
      Some (put_view (a_in a)
              (if ok : bool then CReading
               else CReplying (MsgError "send_failed" (daemon_error_string SendFailed) None)) (server_of a d') a, d')
  | _ => None
  end.

(** Its [dial] gets the connection's table and returns. *)
Definition dial_returns (a : agent) (d : daemon) : option (agent * daemon) :=
  match a_state a with
  | CDialing key target request_id =>
      if unlocked d then
        i ← fst <$> list_find (key =.) (dialing d);
        '((stream_id, rx), d') ← dial_resume i d;
        let '(_, s) := spawn_forward (Forward stream_id rx) (server_of a d') in
        Some (put_view (a_in a) (CReplying (Connected stream_id target request_id)) s a, mgr s)
      else None
  | _ => None
  end.

(** A forwarding task takes a step. *)
Definition set_task (j : nat) (f : forward) (st : task_state) (w : sink) (a : agent) : agent :=
  Agent (a_in a) w (<[j := (f, st)]> (a_tasks a)) (a_subs a) (a_hbs a) (a_state a).
Definition forward_goes (j : nat) (a : agent) (d : daemon) : option (agent * daemon) :=
  '(f, st) ← a_tasks a !! j;
  match st with
  | FWaiting =>
      match forward_take f (server_of a d) with
      | (Done x, s) => Some (set_task j f (FHolding x) (writer s) a, mgr s)
      | _ => None
      end
  | FHolding x =>
      match forward_put f x (server_of a d) with
      | (Done go, s) => Some (set_task j f (if go : bool then FWaiting else FOver) (writer s) a, mgr s)
      | _ => None
      end
  | FOver => None
  end.

(** The task of a [listen] takes a step; to claim a receiver it needs the
    manager's table. *)
Definition set_sub (j : nat) (x : nat * option DaemonMsg) (a : agent) : agent :=
  Agent (a_in a) (a_out a) (a_tasks a) (<[j := x]> (a_subs a)) (a_hbs a) (a_state a).
Definition announce_goes (j : nat) (a : agent) (d : daemon) : option (agent * daemon) :=
  '(k, pending) ← a_subs a !! j;
  match pending with
  | Some m =>
      let '(_, s) := announce_put m (server_of a d) in
      Some (set_sub j (k, None) (put_view (a_in a) (a_state a) s a), mgr s)
  | None =>
      if unlocked d || match broadcast_recv k d with Some (None, _) => true | _ => false end then
        match announce_take k (server_of a d) with
        | (Done x, s) => Some (set_sub j x (put_view (a_in a) (a_state a) s a), mgr s)
        | _ => None
        end
      else None
  end.

(** ** Steps of the process *)

Inductive nevent : Type :=
(** an agent connects, sends bytes, hangs up; accepting fails *)
| NAccept
| NAcceptFail
| NBytes (i : nat) (bs : list byte)
| NHangUp (i : nat)
(** the tasks of agent [i] *)
| NRequest (i : nat) (env : surroundings)
| NReply (i : nat)
| NSendReturns (i : nat)
| NDialReturns (i : nat)
| NForward (i j : nat)
| NAnnounce (i j : nat)
(** the daemon's own tasks and its network *)
| NDaemon (e : devent).

(** The daemon's events that are not calls of agents or of their tasks. *)
Definition background (e : devent) : bool :=
  match e with
  | DListen _ | DDial _ _ _ _ _ _ | DDialResume _ | DSend _ _ | DSendResume | DClose _ | DTake _ | DRecv _ | DDropRx _
  | DConn _ (ERecv _) | DConn _ (EDropRx _) => false
  | _ => true
  end.

(** A step of agent [i] on the manager. *)
Definition on_agent (i : nat) (f : agent → daemon → option (agent * daemon)) (N : node) : option node :=
  a ← n_agents N !! i;
  '(a', d') ← f a (n_mgr N);
  Some (Node (n_up N) (<[i := a']> (n_agents N)) d').

(** When accepting fails, [run] returns the error and [main] exits: nothing
    happens any more. *)
Definition nstep (e : nevent) (N : node) : option node :=
  if n_up N then
    match e with
    | NAccept => Some (Node true (n_agents N ++ [new_agent]) (n_mgr N))
    | NAcceptFail => Some (Node false (n_agents N) (n_mgr N))
    | NBytes i bs =>
        on_agent i (λ a d,
          match fin (a_in a) with
          | Open => Some (Agent (Source (avail (a_in a) ++ bs) Open) (a_out a) (a_tasks a) (a_subs a) (a_hbs a) (a_state a), d)
          | _ => None
          end) N
    | NHangUp i => on_agent i (λ a d, Some (hang_up_agent a, d)) N
    | NRequest i env => on_agent i (client_turn env) N
    | NReply i => on_agent i reply_goes N
    | NSendReturns i => on_agent i send_returns N
    | NDialReturns i => on_agent i dial_returns N
    | NForward i j => on_agent i (forward_goes j) N
    | NAnnounce i j => on_agent i (announce_goes j) N
    | NDaemon e => if background e then d' ← dstep e (n_mgr N); Some (Node true (n_agents N) d') else None
    end
  else None.

Fixpoint nrun (es : list nevent) (N : node) : option node :=
  match es with [] => Some N | e :: es => N' ← nstep e N; nrun es N' end.
End Node.

(** ** The daemon's events in a step of the process *)

(** A consumer receives; it drops its receiver. *)
Definition recv_devent (r : rx_ref) : devent := match r with RxMux n c => DConn n (ERecv c) | RxDirect b => DRecv b end.
Definition drop_devent (r : rx_ref) : devent := match r with RxMux n c => DConn n (EDropRx c) | RxDirect b => DDropRx b end.

Section Trace.
Context `{ED : !Ed25519, CM : !CaseMapping, RL : !RegistrarLibs, B64 : !Base64}.
Context `{JA : !JsonCodec AgentMsg, JD : !JsonCodec DaemonMsg}.

Definition request_devents (env : surroundings) (msg : AgentMsg) : list devent :=
  match msg with
  | Listen _ _ _ => [DListen (env_bind env)]
  | Dial target class _ => [DDial (env_connect env) (env_get env) (env_now env) (env_now' env) target class]
  | Send sid data => match b64_decode data with Ok x => [DSend sid x] | Err _ => [] end
  | Close sid => [DClose sid]
  | Unlisten | Ping => []
  end.

Definition forward_devents (f : forward) (st : task_state) (a : agent) (d : daemon) : list devent :=
  match st with
  | FWaiting =>
      match ch ← rx_chan (fwd_rx f) d; Some (chan_recv ch) with
      | Some (Done (Some _), _) => [recv_devent (fwd_rx f)]
      | _ => []
      end
  | FHolding x =>
      match forward_put f x (server_of a d) with (Done false, _) => [drop_devent (fwd_rx f)] | _ => [] end
  | FOver => []
  end.

Definition agent_devents (e : nevent) (a : agent) (d : daemon) : list devent :=
  match e with
  | NRequest _ env => match read_agent_msg (a_in a) with (Done msg, _) => request_devents env msg | _ => [] end
  | NSendReturns _ => [DSendResume]
  | NDialReturns _ =>
      match a_state a with
      | CDialing key _ _ => match list_find (key =.) (dialing d) with Some (i, _) => [DDialResume i] | None => [] end
      | _ => []
      end
  | NForward _ j => match a_tasks a !! j with Some (f, st) => forward_devents f st a d | None => [] end
  | NAnnounce _ j =>
      match a_subs a !! j with
      | Some (k, None) =>
          match broadcast_recv k d with Some (Some info, _) => [DTake (info_stream_id info)] | _ => [] end
      | _ => []
      end
  | _ => []
  end.

Definition event_agent (e : nevent) : option nat :=
  match e with
  | NBytes i _ | NHangUp i | NRequest i _ | NReply i | NSendReturns i | NDialReturns i | NForward i _ | NAnnounce i _ => Some i
  | NAccept | NAcceptFail | NDaemon _ => None
  end.

Definition ndevents (e : nevent) (N : node) : list devent :=
  match e with
  | NDaemon e => [e]
  | _ => match i ← event_agent e; n_agents N !! i with Some a => agent_devents e a (n_mgr N) | None => [] end
  end.

(** The daemon's events in a run of the process. *)
Fixpoint ntrace (es : list nevent) (N : node) : list devent :=
  match es with
  | [] => []
  | e :: es => ndevents e N ++ match nstep e N with Some N' => ntrace es N' | None => [] end
  end.
End Trace.

(** ** Lemmas: an agent's socket *)

(** A socket of an agent is open or broken. *)
Definition agent_sink (w : sink) : Prop :=
  ∃ bs, w = Sink bs None None ∨ ∃ e, w = Sink bs (Some 0) (Some e).

Section Writing.
Context `{JD : !JsonCodec DaemonMsg}.

Lemma agent_write msg w :
  agent_sink w →
  (write_daemon_msg msg w = (Done tt, Sink (written w ++ msg_bytes msg) None None) ∧ fits msg)
  ∨ ∃ e, write_daemon_msg msg w = (Fail e, w).
Proof.
  intros (bs & [->|[e ->]]); unfold write_daemon_msg.
  - destruct (decide (zlen (to_vec msg) ≤ MAX_MSG_SIZE)) as [Hf|Hf].
    + left. split; [|done]. by rewrite write_msg_open.
    + right. unfold write_msg. case_match; [|lia]. by eexists.
  - right. unfold write_msg. case_match; [by eexists|].
    assert (write_u32 (u32_wrap (zlen (to_vec msg))) (Sink bs (Some 0) (Some e)) = (Fail e, Sink bs (Some 0) (Some e))) as Hw.
    { unfold write_u32, write_all. cbn [room]. rewrite length_be_bytes. cbn. by rewrite app_nil_r. }
    eexists. unfold mbind at 1, io_bind at 1, io_map_err at 1. by rewrite Hw.
Qed.

Lemma agent_write_sink msg w : agent_sink w → agent_sink (write_daemon_msg msg w).2.
Proof.
  intros Hw. destruct (agent_write msg w Hw) as [[-> _]|[e ->]]; [|done]. cbn. eexists. by left.
Qed.
End Writing.

(** ** Lemmas: requests *)

Definition is_recv (m : DaemonMsg) : bool := match m with Recv _ _ => true | _ => false end.

Section Requests.
Context `{ED : !Ed25519, CM : !CaseMapping, RL : !RegistrarLibs, B64 : !Base64}.
Context `{JA : !JsonCodec AgentMsg, JD : !JsonCodec DaemonMsg}.

(** Whole messages are written, none of them data. *)
Record wrote (w : sink) (msgs : list DaemonMsg) (w' : sink) : Prop := {
  wr_sink : agent_sink w';
  wr_bytes : written w' = written w ++ concat (msg_bytes <$> msgs);
  wr_fits : Forall fits msgs;
  wr_kind : Forall (λ m, is_recv m = false) msgs;
}.

Lemma wrote_nothing w : agent_sink w → wrote w [] w.
Proof. intros Hw. split; [done|by rewrite app_nil_r|constructor..]. Qed.

Lemma wrote_msg msg w : agent_sink w → is_recv msg = false → ∃ msgs, wrote w msgs (write_daemon_msg msg w).2.
Proof.
  intros Hw Hm. destruct (agent_write msg w Hw) as [[Hwr Hf]|[e Hwr]].
  - exists [msg]. pose proof (agent_write_sink msg w Hw) as Hs. rewrite Hwr in *. split; [done|cbn; by rewrite app_nil_r|by constructor..].
  - exists []. rewrite Hwr. by apply wrote_nothing.
Qed.

(** What a handler did to the agent it serves: it wrote [msgs] and started the
    tasks [new]; the manager is now [d]. *)
Record served (a : agent) (new : list forward) (msgs : list DaemonMsg) (d : daemon) (s : server) : Prop := {
  sv_out : wrote (a_out a) msgs (writer s);
  sv_tasks : forwards s = (a_tasks a).*1 ++ new;
  sv_mgr : mgr s = d;
}.

(** [reply] as the last thing a handler does. *)
Lemma reply_served msg w fs su hb d o s a new :
  reply msg (Server w fs su hb d) = (o, s) → is_recv msg = false → agent_sink (a_out a) → w = a_out a →
  fs = (a_tasks a).*1 ++ new → ∃ msgs, served a new msgs d s.
Proof.
  unfold reply. cbn. intros Hr Hm Hw -> ->. destruct (wrote_msg msg (a_out a) Hw Hm) as [msgs Hwr].
  destruct (write_daemon_msg msg (a_out a)) as [r w']. simplify_eq. exists msgs. by split.
Qed.

(** The receivers handed out by at most one event. *)
Definition claims_of (es : list devent) (d : daemon) : list rx_ref := match es with [e] => claims e d | _ => [] end.

Lemma served_view a d : agent_sink (a_out a) → served a [] [] d (server_of a d).
Proof. intros Hw. split; [by apply wrote_nothing|by rewrite app_nil_r|done]. Qed.

(** Every request is the daemon's events it stands for; its tasks are those of
    the receivers these hand out, and its answer is not data. *)
Lemma request_effect_served env msg a d o s :
  agent_sink (a_out a) → needs_table msg && negb (unlocked d) = false → request_effect env msg (server_of a d) = (o, s) →
  ∃ new, served a new [] (mgr s) s ∧ drun (request_devents env msg) d = Some (mgr s)
    ∧ fwd_rx <$> new = claims_of (request_devents env msg) d ∧ ∀ m, o = Done (Some m) → is_recv m = false.
Proof.
  intros Hw Hn H.
  assert (Hok : ∀ su hb d' new, s = Server (a_out a) ((a_tasks a).*1 ++ new) su hb d' → served a new [] (mgr s) s).
  { intros su hb d' new ->. split; [by apply wrote_nothing|done..]. }
  destruct msg as [aid token ep| |target class rid|sid data|sid|]; cbn [request_effect request_devents claims_of] in *;
    unfold manager_op, get_manager, start_heartbeat, subscribe_incoming, spawn_forward, mbind, io_bind, mret, io_ret in H;
    cbn [mgr server_of writer forwards subscriptions heartbeats] in H.
  - destruct (start_listener (env_bind env) d) as [[u|e] d'] eqn:Hl; cbn in H; [destruct token as [t|]; cbn in H|];
      injection H as <- <-; exists []; (split; [eapply Hok; by rewrite app_nil_r|]); cbn; rewrite Hl; naive_solver.
  - injection H as <- <-. exists []. split; [eapply Hok; by rewrite app_nil_r|]. naive_solver.
  - assert (Hu : unlocked d = true) by (by destruct (unlocked d)).
    destruct (dial _ _ _ _ _ _ d) as [[[sid rx]|e|] d'] eqn:Hd; cbn in H; injection H as <- <-;
      [exists [Forward sid rx]|exists []..]; (split; [eapply Hok; by rewrite ?app_nil_r|]); cbn; rewrite Hu, Hd; naive_solver.
  - cbn in Hn. destruct (b64_decode data) as [x|e]; cbn [mgr server_of writer forwards subscriptions heartbeats] in H.
    + assert (Hu : unlocked d = true) by (by destruct (unlocked d)).
      destruct (send sid x d) as [[u|e|] d'] eqn:Hd; cbn in H; injection H as <- <-; exists [];
        (split; [eapply Hok; by rewrite app_nil_r|]); cbn; rewrite Hu, Hd; naive_solver.
    + injection H as <- <-. exists []. split; [eapply Hok; by rewrite app_nil_r|]. naive_solver.
  - assert (Hu : unlocked d = true) by (by destruct (unlocked d)).
    injection H as <- <-. exists []. split; [eapply Hok; by rewrite app_nil_r|]. cbn. rewrite Hu. naive_solver.
  - injection H as <- <-. exists []. split; [eapply Hok; by rewrite app_nil_r|]. naive_solver.
Qed.
End Requests.

(** ** The invariant of the process *)

(** Messages with the task that wrote them, if it passes on data. *)
Definition task_msgs (j : nat) (log : list (option nat * DaemonMsg)) : list DaemonMsg :=
  (filter (λ p, p.1 = Some j) log).*2.

(** What a forwarding task has received and not yet passed on. *)
Definition in_hand (st : task_state) : list (list byte) := match st with FHolding (Some x) => [x] | _ => [] end.

(** The receivers an agent's tasks hold or held, and those of all agents. *)
Definition agent_claims (a : agent) : list rx_ref := (λ t, fwd_rx t.1) <$> a_tasks a.
Definition claimed (N : node) : list rx_ref := n_agents N ≫= agent_claims.

Section Invariant.
Context `{ED : !Ed25519, CM : !CaseMapping, RL : !RegistrarLibs, B64 : !Base64}.
Context `{JA : !JsonCodec AgentMsg, JD : !JsonCodec DaemonMsg}.

(** An agent's socket carries the messages of [log]: data is from the stream's
    task, in the order received, and a running task has passed on all it
    received but what it has in hand. *)
Record agent_ok (d : daemon) (a : agent) (log : list (option nat * DaemonMsg)) : Prop := {
  ao_sink : agent_sink (a_out a);
  ao_written : written (a_out a) = concat (msg_bytes <$> log.*2);
  ao_fits : Forall fits log.*2;
  ao_tags : ∀ j m, (Some j, m) ∈ log → is_Some (a_tasks a !! j);
  ao_recv : ∀ t m, (t, m) ∈ log → is_recv m = true → ∃ j, t = Some j;
  ao_task : ∀ j f st ch, a_tasks a !! j = Some (f, st) → rx_chan (fwd_rx f) d = Some ch →
    ∃ ds, task_msgs j log = recv_msgs (fwd_stream_id f) ds ∧ ds `prefix_of` got ch
    ∧ (st ≠ FOver → got ch = ds ++ in_hand st ∧ rx_open ch = true);
  ao_answer : ∀ m, a_state a = CReplying m → is_recv m = false;
  ao_pending : ∀ j k m, a_subs a !! j = Some (k, Some m) → is_recv m = false;
}.

Record node_inv (N : node) : Prop := {
  ni_wf : daemon_wf (n_mgr N);
  ni_own : own (n_mgr N) (claimed N);
  ni_agent : ∀ i a, n_agents N !! i = Some a → ∃ log, agent_ok (n_mgr N) a log;
}.

(** Receivers [F] are left alone. *)
Definition steady (F : list rx_ref) (d d' : daemon) : Prop :=
  ∀ r, r ∈ F → ∃ ch ch', rx_chan r d = Some ch ∧ rx_chan r d' = Some ch' ∧ got ch' = got ch ∧ rx_open ch' = rx_open ch.

Lemma hands_steady F C T G d d' :
  own d F → hands F C T d d' → G ⊆ F → (∀ r, r ∈ G → r ∉ T) → steady G d d'.
Proof.
  intros Ho Hh HG HT r Hr. destruct (own_out _ _ Ho r) as [ch Hc]; [by apply HG|].
  destruct (hands_old _ _ _ _ _ Hh r ch) as (ch' & Hc' & Hs); [by apply HG|done|].
  exists ch, ch'. destruct (Hs (HT r Hr)). done.
Qed.

Lemma agent_ok_steady d d' a log : agent_ok d a log → steady (agent_claims a) d d' → agent_ok d' a log.
Proof.
  intros [H1 H2 H3 H4 H5 H6 H7 H8] Hs. split; [done..| |done|done]. intros j f st ch' Hj Hc'.
  destruct (Hs (fwd_rx f)) as (ch & ch1 & Hc & Hc1 & Hg & Ho).
  { apply list_elem_of_fmap. exists (f, st). split; [done|]. by eapply list_elem_of_lookup_2. }
  rewrite Hc' in Hc1. injection Hc1 as <-. rewrite Hg, Ho. by apply H6.
Qed.

Lemma claims_insert {A} (f : A → list rx_ref) l i a a' C :
  l !! i = Some a → f a' = f a ++ C → (<[i := a']> l ≫= f) ≡ₚ C ++ (l ≫= f).
Proof.
  intros Hi Hf. rewrite <-(take_drop_middle l i a Hi) at 2. rewrite insert_take_drop by (by eapply lookup_lt_Some).
  rewrite !bind_app. cbn. rewrite Hf, <-!(assoc_L (++)). rewrite (Permutation_app_swap_app C).
  f_equiv. by rewrite Permutation_app_swap_app.
Qed.

Lemma claims_disjoint {A} (f : A → list rx_ref) l i j a b r :
  NoDup (l ≫= f) → l !! i = Some a → l !! j = Some b → i ≠ j → r ∈ f a → r ∉ f b.
Proof.
  revert i j; induction l as [|x l IH]; intros [|i] [|j] Hn Hi Hj Hne Hr Hb; try done; cbn in *.
  all: apply NoDup_app in Hn as (_ & Hd & Hn).
  - simplify_eq. apply (Hd r Hr). apply list_elem_of_bind. exists b. split; [done|]. by eapply list_elem_of_lookup_2.
  - simplify_eq. apply (Hd r Hb). apply list_elem_of_bind. exists a. split; [done|]. by eapply list_elem_of_lookup_2.
  - eapply (IH i j); eauto.
Qed.

Lemma claims_elem N i a : n_agents N !! i = Some a → agent_claims a ⊆ claimed N.
Proof. intros Hi r Hr. apply list_elem_of_bind. exists a. split; [done|]. by eapply list_elem_of_lookup_2. Qed.

(** Agent [i] goes from [a] to [a'] while the daemon hands it [C]. *)
Lemma node_put N i a a' d' C T up :
  node_inv N → n_agents N !! i = Some a → daemon_wf d' → hands (claimed N) C T (n_mgr N) d' → T ⊆ agent_claims a →
  agent_claims a' = agent_claims a ++ C → (∃ log, agent_ok d' a' log) →
  node_inv (Node up (<[i := a']> (n_agents N)) d').
Proof.
  intros [Hwf Hown Hag] Hi Hd' Hh HT Hcl Hok. split; cbn [n_mgr n_agents]; [done| |].
  - eapply own_perm; [|apply Hh]. symmetry. unfold claimed; cbn [n_agents]. by apply (claims_insert _ _ _ a).
  - intros k b Hk. destruct (decide (i = k)) as [<-|Hne].
    + rewrite list_lookup_insert_eq in Hk by (by eapply lookup_lt_Some). by injection Hk as <-.
    + rewrite list_lookup_insert_ne in Hk by done. destruct (Hag k b Hk) as [log Hlog]. exists log.
      eapply agent_ok_steady; [done|]. eapply hands_steady; [done|done|by eapply claims_elem|].
      intros r Hr HrT. apply own_once in Hown. apply NoDup_app in Hown as (_ & _ & Hown).
      eapply (claims_disjoint agent_claims (n_agents N) i k a b r); eauto.
Qed.
Lemma put_view_tasks r st s a new :
  forwards s = (a_tasks a).*1 ++ new → a_tasks (put_view r st s a) = a_tasks a ++ ((λ f, (f, FWaiting)) <$> new).
Proof.
  intros Hf. cbn. rewrite Hf. replace (length (a_tasks a)) with (length (a_tasks a).*1) by apply length_fmap.
  by rewrite drop_app_length.
Qed.

Lemma put_view_claims r st s a new :
  forwards s = (a_tasks a).*1 ++ new → agent_claims (put_view r st s a) = agent_claims a ++ (fwd_rx <$> new).
Proof.
  intros Hf. unfold agent_claims. rewrite (put_view_tasks _ _ _ _ new) by done. rewrite fmap_app. f_equal.
  by rewrite <-list_fmap_compose.
Qed.

Lemma task_msgs_app j l1 l2 : task_msgs j (l1 ++ l2) = task_msgs j l1 ++ task_msgs j l2.
Proof. unfold task_msgs. by rewrite filter_app, fmap_app. Qed.

Lemma task_msgs_others j (msgs : list DaemonMsg) : task_msgs j ((λ m, (None, m)) <$> msgs) = [].
Proof. unfold task_msgs. induction msgs as [|m msgs IH]; [done|]. by rewrite fmap_cons, filter_cons_False. Qed.

Lemma task_msgs_none j log : (∀ m, (Some j, m) ∉ log) → task_msgs j log = [].
Proof.
  intros H. unfold task_msgs. induction log as [|[t m] log IH]; [done|]. rewrite filter_cons. case_decide as Ht; cbn in Ht.
  - subst t. destruct (H m). by constructor.
  - apply IH. intros m' Hin. apply (H m'). by constructor.
Qed.

Lemma put_view_subs r st s a j k m :
  a_subs (put_view r st s a) !! j = Some (k, Some m) → a_subs a !! j = Some (k, Some m).
Proof.
  cbn. intros [?|[_ Hj]]%lookup_app_Some; [done|]. rewrite list_lookup_fmap in Hj. by destruct (_ !! _).
Qed.

(** After a handler or another task that writes no data. *)
Lemma view_ok d d' a log r st s new msgs :
  agent_ok d a log → served a new msgs d' s → steady (agent_claims a) d d' →
  (∀ f, f ∈ new → unused d' (fwd_rx f)) → (∀ m, st = CReplying m → is_recv m = false) →
  agent_ok d' (put_view r st s a) (log ++ ((λ m, (None, m)) <$> msgs)).
Proof.
  intros Hok [[Hsink Hbytes Hfits Hkind] Htasks _] Hst Hnew Hans. apply (agent_ok_steady _ d') in Hok; [|done].
  destruct Hok as [_ H2 H3 H4 H5 H6 _ H8].
  assert (Hsnd : ((λ m : DaemonMsg, (@None nat, m)) <$> msgs).*2 = msgs) by (by rewrite <-list_fmap_compose, list_fmap_id).
  split.
  - done.
  - cbn. by rewrite Hbytes, H2, fmap_app, Hsnd, fmap_app, concat_app.
  - rewrite fmap_app, Hsnd. by apply Forall_app.
  - intros j m [Hin|Hin]%elem_of_app.
    + rewrite (put_view_tasks _ _ _ _ new) by done. destruct (H4 j m Hin) as [t Ht]. exists t. by apply lookup_app_l_Some.
    + by apply list_elem_of_fmap in Hin as (? & [= ] & _).
  - intros t m [Hin|Hin]%elem_of_app Hm; [by eapply H5|]. apply list_elem_of_fmap in Hin as (m' & [= -> ->] & Hin).
    eapply Forall_forall in Hin; [|exact Hkind]. cbn in Hin. congruence.
  - intros j f ts ch Hj Hc. rewrite (put_view_tasks _ _ _ _ new) in Hj by done.
    rewrite task_msgs_app, task_msgs_others, app_nil_r. apply lookup_app_Some in Hj as [Hj|[Hge Hj]]; [by eapply H6|].
    assert (Hnone : task_msgs j log = []).
    { apply task_msgs_none. intros m Hin. destruct (H4 j m Hin) as [t Ht]. apply lookup_lt_Some in Ht. lia. }
    rewrite list_lookup_fmap in Hj. destruct (new !! _) as [f'|] eqn:Hn; [|done]. cbn in Hj. simplify_eq.
    destruct (Hnew f) as (ch0 & Hc0 & Hg & Hop); [by eapply list_elem_of_lookup_2|].
    rewrite Hc in Hc0. injection Hc0 as <-. exists []. by rewrite Hnone, Hg, Hop.
  - exact Hans.
  - intros j k m Hj. eapply H8. by eapply put_view_subs.
Qed.

(** A step of agent [i] that is events [es] of the daemon, at most one, and writes
    no data. *)
Lemma node_served N i a d' es r st s new msgs up :
  node_inv N → n_agents N !! i = Some a → drun es (n_mgr N) = Some d' → (length es ≤ 1)%nat →
  (∀ e, e ∈ es → consumes e = []) → served a new msgs d' s → fwd_rx <$> new = claims_of es (n_mgr N) →
  (∀ m, st = CReplying m → is_recv m = false) →
  node_inv (Node up (<[i := put_view r st s a]> (n_agents N)) d').
Proof.
  intros HN Hi Hrun Hlen Hcons Hs Hnew Hans. pose proof HN as [Hwf Hown Hag].
  assert (daemon_wf d' ∧ hands (claimed N) (claims_of es (n_mgr N)) [] (n_mgr N) d') as [Hd' Hh].
  { destruct es as [|e [|]]; [| |cbn in Hlen; lia]; cbn in Hrun.
    - injection Hrun as <-. split; [done|by apply hands_same].
    - apply bind_Some in Hrun as (d1 & Hstep & [= <-]). split; [by eapply dstep_wf|].
      assert (consumes e = []) as Hc by (apply Hcons; constructor). cbn. rewrite <-Hc. apply dstep_hands; [done..|].
      rewrite Hc. set_solver. }
  apply (node_put N i a _ d' (claims_of es (n_mgr N)) []); try done; [set_solver| |].
  - rewrite <-Hnew. apply put_view_claims, Hs.
  - destruct (Hag i a Hi) as [log Hlog]. eexists. eapply view_ok; [done|done| | |done].
    + eapply hands_steady; [done|done|by eapply claims_elem|set_solver].
    + intros f Hf. apply (hands_new _ _ _ _ _ Hh). rewrite <-Hnew. by apply list_elem_of_fmap_2.
Qed.
(** *** The forwarding tasks *)

Lemma recv_dstep r d ch o ch' :
  rx_chan r d = Some ch → rx_open ch = true → chan_recv ch = (Done o, ch') →
  dstep (recv_devent r) d = Some (set_rx_chan r ch' d).
Proof.
  intros Hr Ho Hc. destruct r as [n c|b]; cbn in Hr |- *; apply bind_Some in Hr as (x & Hx & Hch).
  - rewrite Hx. cbn. rewrite Hch. cbn. rewrite Ho, Hc. cbn. by rewrite (alter_Some_insert _ _ _ x).
  - unfold bridge_step. rewrite Hx. cbn. destruct x as [sid dch [|rd held wr recv] ph]; simplify_eq/=.
    rewrite Ho, Hc. cbn. unfold set_bridge. by rewrite (alter_Some_insert _ _ _ _ Hx).
Qed.

Lemma drop_dstep r d : is_Some (rx_chan r d) → dstep (drop_devent r) d = Some (drop_rx_ref r d).
Proof.
  intros [ch Hr]. destruct r as [n c|b]; cbn in Hr |- *; apply bind_Some in Hr as (x & Hx & Hch).
  - rewrite Hx. cbn. by rewrite (alter_Some_insert _ _ _ x).
  - unfold bridge_step. rewrite Hx. cbn. destruct x as [sid dch [|rd held wr recv] ph]; simplify_eq/=.
    unfold set_bridge. by rewrite (alter_Some_insert _ _ _ _ Hx).
Qed.

(** Task [j] of an agent writes [l] and goes on or ends. *)
Lemma forward_ok d d' a log j f st st' w l ch' :
  agent_ok d a log → a_tasks a !! j = Some (f, st) → NoDup (agent_claims a) →
  steady (filter (λ r, r ≠ fwd_rx f) (agent_claims a)) d d' → rx_chan (fwd_rx f) d' = Some ch' →
  agent_sink w → written w = written (a_out a) ++ concat (msg_bytes <$> l.*2) → Forall fits l.*2 →
  (∀ t m, (t, m) ∈ l → t = Some j ∨ t = None ∧ is_recv m = false) →
  (∃ ds, task_msgs j (log ++ l) = recv_msgs (fwd_stream_id f) ds ∧ ds `prefix_of` got ch'
   ∧ (st' ≠ FOver → got ch' = ds ++ in_hand st' ∧ rx_open ch' = true)) →
  agent_ok d' (set_task j f st' w a) (log ++ l).
Proof.
  intros [H1 H2 H3 H4 H5 H6 H7 H8] Hj Hnd Hst Hc' Hw Hbytes Hfits Hl Hds.
  assert (Hlt : (j < length (a_tasks a))%nat) by (by eapply lookup_lt_Some).
  split; cbn.
  - done.
  - by rewrite Hbytes, H2, !fmap_app, concat_app.
  - rewrite fmap_app. by apply Forall_app.
  - intros k m [Hin|Hin]%elem_of_app; apply lookup_lt_is_Some; rewrite length_insert.
    + apply lookup_lt_is_Some. by eapply H4.
    + apply Hl in Hin as [[= ->]|[? _]]; [lia|done].
  - intros t m [Hin|Hin]%elem_of_app Hm; [by eapply H5|]. apply Hl in Hin as [->|[-> ?]]; [eauto|congruence].
  - intros k g sg ch Hk Hc. destruct (decide (k = j)) as [->|Hne].
    { rewrite list_lookup_insert_eq in Hk by done. injection Hk as <- <-. rewrite Hc' in Hc. by injection Hc as <-. }
    rewrite list_lookup_insert_ne in Hk by done.
    assert (task_msgs k (log ++ l) = task_msgs k log) as ->.
    { rewrite task_msgs_app, (task_msgs_none k l); [by rewrite app_nil_r|].
      intros m Hin. apply Hl in Hin as [[= ->]|[? _]]; done. }
    destruct (Hst (fwd_rx g)) as (ch0 & ch1 & Hc0 & Hc1 & Hg & Ho).
    { apply list_elem_of_filter. split.
      - intros Heq. apply Hne. apply (NoDup_lookup _ _ _ (fwd_rx f) Hnd).
        + unfold agent_claims. rewrite list_lookup_fmap, Hk. cbn. by rewrite Heq.
        + unfold agent_claims. by rewrite list_lookup_fmap, Hj.
      - apply list_elem_of_fmap. exists (g, sg). split; [done|]. by eapply list_elem_of_lookup_2. }
    rewrite Hc in Hc1. injection Hc1 as <-. rewrite Hg, Ho. by eapply H6.
  - done.
  - done.
Qed.

Lemma forward_claims a j f st st' w :
  a_tasks a !! j = Some (f, st) → agent_claims (set_task j f st' w a) = agent_claims a.
Proof.
  intros Hj. unfold agent_claims. cbn. rewrite list_fmap_insert. cbn. apply list_insert_id. by rewrite list_lookup_fmap, Hj.
Qed.

(** A step of a forwarding task in terms of the daemon's events: what it did to
    its channel, what it wrote, what it is at then. *)
Inductive forward_round (f : forward) (a : agent) (d : daemon) : task_state → task_state → sink → daemon → list devent → Prop :=
| FTook ch x ch' :
    rx_chan (fwd_rx f) d = Some ch → chan_recv ch = (Done (Some x), ch') →
    forward_round f a d FWaiting (FHolding (Some x)) (a_out a) (set_rx_chan (fwd_rx f) ch' d) [recv_devent (fwd_rx f)]
| FTookEnd ch ch' :
    rx_chan (fwd_rx f) d = Some ch → chan_recv ch = (Done None, ch') →
    forward_round f a d FWaiting (FHolding None) (a_out a) d []
| FPassed x w :
    write_daemon_msg (Recv (fwd_stream_id f) (b64_encode x)) (a_out a) = (Done tt, w) →
    forward_round f a d (FHolding (Some x)) FWaiting w d []
| FLost x e :
    write_daemon_msg (Recv (fwd_stream_id f) (b64_encode x)) (a_out a) = (Fail e, a_out a) →
    forward_round f a d (FHolding (Some x)) FOver (a_out a) (drop_rx_ref (fwd_rx f) d) [drop_devent (fwd_rx f)]
| FClosed :
    forward_round f a d (FHolding None) FOver
      (write_daemon_msg (MsgClosed (fwd_stream_id f) (Some "remote closed")) (a_out a)).2
      (drop_rx_ref (fwd_rx f) d) [drop_devent (fwd_rx f)].

Lemma forward_rounds j a a' d d' :
  agent_sink (a_out a) → forward_goes j a d = Some (a', d') →
  ∃ f st st' w, a_tasks a !! j = Some (f, st) ∧ a' = set_task j f st' w a
  ∧ forward_round f a d st st' w d' (forward_devents f st a d).
Proof.
  intros Hw H. unfold forward_goes in H. apply bind_Some in H as ([f st] & Hj & H).
  destruct st as [|x|]; [| |done].
  - destruct (forward_take f (server_of a d)) as [[x| |] s] eqn:Ht; [|done..]. injection H as <- <-.
    exists f, FWaiting, (FHolding x), (writer s). split; [done|]. split; [done|].
    unfold forward_take in Ht. cbn [forward_devents mgr server_of writer forwards subscriptions heartbeats] in *.
    destruct (rx_chan (fwd_rx f) d) as [ch|] eqn:Hr; [|done]. cbn [mbind option_bind].
    destruct (chan_recv ch) as [[[y|]| |] ch'] eqn:Hc; try done; injection Ht as <- <-; cbn [writer mgr].
    + by eapply FTook.
    + by eapply FTookEnd.
  - destruct (forward_put f x (server_of a d)) as [[go| |] s] eqn:Ht; [|done..]. injection H as <- <-.
    exists f, (FHolding x), (if go then FWaiting else FOver), (writer s). split; [done|]. split; [done|].
    cbn [forward_devents]. rewrite Ht. unfold forward_put in Ht.
    cbn [mgr server_of writer forwards subscriptions heartbeats] in Ht. destruct x as [x|].
    + destruct (agent_write (Recv (fwd_stream_id f) (b64_encode x)) (a_out a) Hw) as [[Hwr _]|[e Hwr]]; rewrite Hwr in Ht;
        injection Ht as <- <-; cbn [writer mgr]; [by apply FPassed|by eapply FLost].
    + injection Ht as <- <-. cbn [writer mgr]. by apply FClosed.
Qed.

Lemma forward_effect N i a j f st st' w d' es :
  node_inv N → n_agents N !! i = Some a → a_tasks a !! j = Some (f, st) →
  forward_round f a (n_mgr N) st st' w d' es →
  drun es (n_mgr N) = Some d' ∧ daemon_wf d' ∧ hands (claimed N) [] [fwd_rx f] (n_mgr N) d'.
Proof.
  intros [Hwf Hown Hag] Hi Hj Hround. destruct (Hag i a Hi) as [log Hlog].
  assert (Hrx : fwd_rx f ∈ claimed N).
  { eapply claims_elem; [done|]. apply list_elem_of_fmap. exists (f, st). split; [done|]. by eapply list_elem_of_lookup_2. }
  assert (Hcons : ∀ e d1, e = recv_devent (fwd_rx f) ∨ e = drop_devent (fwd_rx f) → dstep e (n_mgr N) = Some d1 →
    drun [e] (n_mgr N) = Some d1 ∧ daemon_wf d1 ∧ hands (claimed N) [] [fwd_rx f] (n_mgr N) d1).
  { intros e d1 He Hs. split; [cbn [drun]; by rewrite Hs|]. split; [by eapply dstep_wf|].
    assert (consumes e = [fwd_rx f] ∧ claims e (n_mgr N) = []) as [Hce Hcl] by (destruct He as [-> | ->]; by destruct (fwd_rx f)).
    rewrite <-Hce, <-Hcl. apply dstep_hands; [done..|]. rewrite Hce. set_solver. }
  assert (Hsame : drun [] (n_mgr N) = Some (n_mgr N) ∧ daemon_wf (n_mgr N) ∧ hands (claimed N) [] [fwd_rx f] (n_mgr N) (n_mgr N)).
  { split_and!; [done|done|]. destruct (hands_same (claimed N) (n_mgr N) (n_mgr N) Hown) as [A B C]; [done..|]. split; [done|done|].
    intros r ch Hr Hc. destruct (C r ch Hr Hc) as (ch' & Hc' & Hk). exists ch'. split; [done|]. intros _. apply Hk. set_solver. }
  assert (Hdrop : dstep (drop_devent (fwd_rx f)) (n_mgr N) = Some (drop_rx_ref (fwd_rx f) (n_mgr N))).
  { apply drop_dstep. by apply (own_out _ _ Hown). }
  destruct Hround as [ch x ch' Hr Hc|ch ch' Hr Hc|x w Hwr|x e Hwr|]; try done; try (apply Hcons; [by right|done]).
  apply Hcons; [by left|]. eapply recv_dstep; [done| |done].
  destruct (ao_task _ _ _ Hlog j f FWaiting ch Hj Hr) as (ds & _ & _ & Hl). by apply Hl.
Qed.

Lemma recv_msgs_app sid l1 l2 : recv_msgs sid (l1 ++ l2) = recv_msgs sid l1 ++ recv_msgs sid l2.
Proof. apply fmap_app. Qed.

Lemma chan_recv_item ch x ch' :
  chan_recv ch = (Done (Some x), ch') → got ch' = got ch ++ [x] ∧ rx_open ch' = rx_open ch.
Proof. destruct ch as [[|y bf] g tx rx]; cbn; [by destruct tx|]. by intros [= <- <-]. Qed.

Lemma forward_round_ok d d' a log j f st st' w es :
  agent_ok d a log → a_tasks a !! j = Some (f, st) → NoDup (agent_claims a) → is_Some (rx_chan (fwd_rx f) d) →
  steady (filter (λ r, r ≠ fwd_rx f) (agent_claims a)) d d' → forward_round f a d st st' w d' es →
  ∃ log', agent_ok d' (set_task j f st' w a) log'.
Proof.
  intros Hok Hj Hnd [ch Hch] Hst Hround. destruct (ao_task _ _ _ Hok j f st ch Hj Hch) as (ds & Hlog & Hpre & Hds).
  assert (Hquiet : ∀ st' d' ch', steady (filter (λ r, r ≠ fwd_rx f) (agent_claims a)) d d' →
    rx_chan (fwd_rx f) d' = Some ch' → ds `prefix_of` got ch' →
    (st' ≠ FOver → got ch' = ds ++ in_hand st' ∧ rx_open ch' = true) →
    ∃ log', agent_ok d' (set_task j f st' (a_out a) a) log').
  { intros s1 d1 ch1 Hst1 Hc1 Hp1 Hd1. exists (log ++ []). eapply (forward_ok d d1 a log j f st s1 (a_out a) [] ch1); try done.
    - apply (ao_sink _ _ _ Hok).
    - cbn. by rewrite app_nil_r.
    - by intros t m ?%elem_of_nil.
    - exists ds. rewrite app_nil_r. done. }
  destruct Hround as [ch1 x ch' Hr Hc|ch1 ch' Hr Hc|x w Hwr|x e Hwr|].
  - rewrite Hch in Hr. injection Hr as <-. destruct (chan_recv_item _ _ _ Hc) as [Hg Ho], Hds as [Hg0 Hopen]; [done|].
    cbn in Hg0. rewrite app_nil_r in Hg0. eapply (Hquiet _ _ ch'); [done|by eapply rx_chan_set| |].
    + rewrite Hg, Hg0. by eexists.
    + intros _. cbn. by rewrite Hg, Hg0, Ho.
  - rewrite Hch in Hr. injection Hr as <-. eapply (Hquiet _ _ ch); [done|done|done|]. intros _. by apply Hds.
  - destruct Hds as [Hg Hopen]; [done|]. cbn in Hg. set (m := Recv (fwd_stream_id f) (b64_encode x)) in *.
    destruct (agent_write m (a_out a) (ao_sink _ _ _ Hok)) as [[Hw Hfit]|[e Hw]]; rewrite Hwr in Hw; [|done]. injection Hw as ->.
    exists (log ++ [(Some j, m)]). eapply (forward_ok d _ a log j f _ FWaiting _ _ ch); try done.
    + eexists. by left.
    + cbn. by rewrite app_nil_r.
    + by constructor.
    + intros t m' [= -> _]%list_elem_of_singleton. by left.
    + exists (ds ++ [x]). rewrite task_msgs_app, Hlog, recv_msgs_app, Hg. split_and!; [|done|].
      * f_equal. unfold task_msgs. by rewrite filter_cons_True.
      * intros _. cbn. by rewrite app_nil_r.
  - eapply (Hquiet _ _ (drop_rx ch)); [done|by apply rx_chan_drop|done|done].
  - destruct (wrote_msg (MsgClosed (fwd_stream_id f) (Some "remote closed")) (a_out a)) as [msgs [W1 W2 W3 W4]]; [apply Hok|done|].
    assert (Hsnd : ((λ m : DaemonMsg, (@None nat, m)) <$> msgs).*2 = msgs) by (by rewrite <-list_fmap_compose, list_fmap_id).
    exists (log ++ ((λ m, (None, m)) <$> msgs)). eapply (forward_ok d _ a log j f _ FOver _ _ (drop_rx ch)); try done.
    + by apply rx_chan_drop.
    + by rewrite Hsnd.
    + by rewrite Hsnd.
    + intros t m (m' & [= -> ->] & Hin)%list_elem_of_fmap. right. split; [done|]. by eapply Forall_forall in Hin; [|exact W4].
    + exists ds. rewrite task_msgs_app, task_msgs_others, app_nil_r, Hlog. done.
Qed.

Lemma node_forward N i a j a' d' up :
  node_inv N → n_agents N !! i = Some a → forward_goes j a (n_mgr N) = Some (a', d') →
  drun (agent_devents (NForward i j) a (n_mgr N)) (n_mgr N) = Some d' ∧ node_inv (Node up (<[i := a']> (n_agents N)) d').
Proof.
  intros HN Hi H. pose proof HN as [Hwf Hown Hag]. destruct (Hag i a Hi) as [log Hlog].
  destruct (forward_rounds _ _ _ _ _ (ao_sink _ _ _ Hlog) H) as (f & st & st' & w & Hj & -> & Hround).
  destruct (forward_effect N i a j f _ _ _ _ _ HN Hi Hj Hround) as (Hrun & Hd' & Hh).
  split; [cbn; by rewrite Hj|].
  assert (Hin : fwd_rx f ∈ agent_claims a).
  { apply list_elem_of_fmap. exists (f, st). split; [done|]. by eapply list_elem_of_lookup_2. }
  apply (node_put N i a _ _ [] [fwd_rx f]); try done; [set_solver|by rewrite (forward_claims _ _ _ st), app_nil_r|].
  eapply forward_round_ok; [done|done| | | |done].
  - apply own_once in Hown. apply NoDup_app in Hown as (_ & _ & Hown). unfold claimed in Hown.
    rewrite <-(take_drop_middle _ _ _ Hi), bind_app in Hown. apply NoDup_app in Hown as (_ & _ & Hown).
    cbn in Hown. by apply NoDup_app in Hown as [? _].
  - apply (own_out _ _ Hown). by eapply claims_elem.
  - eapply hands_steady; [done|done| |].
    + intros r [_ Hr]%list_elem_of_filter. by eapply claims_elem.
    + intros r [Hne _]%list_elem_of_filter Hr. set_solver.
Qed.

(** *** Every step *)

(** What an agent's state beyond its socket and tasks is does not matter. *)
Lemma node_fields N i a a' d' up :
  node_inv N → n_agents N !! i = Some a → a_out a' = a_out a → a_tasks a' = a_tasks a → d' = n_mgr N →
  (∀ m, a_state a' = CReplying m → is_recv m = false) →
  (∀ j k m, a_subs a' !! j = Some (k, Some m) → is_recv m = false) →
  node_inv (Node up (<[i := a']> (n_agents N)) d').
Proof.
  intros HN Hi Ho Ht -> Hans Hpend. pose proof HN as [Hwf Hown Hag].
  apply (node_put N i a _ _ [] []); try done; [by apply hands_same|set_solver|by unfold agent_claims; rewrite Ht, app_nil_r|].
  destruct (Hag i a Hi) as [log [H1 H2 H3 H4 H5 H6 H7 H8]]. exists log. split; by rewrite ?Ho, ?Ht.
Qed.

Lemma node_hang_up N i a up :
  node_inv N → n_agents N !! i = Some a → node_inv (Node up (<[i := hang_up_agent a]> (n_agents N)) (n_mgr N)).
Proof.
  intros HN Hi. pose proof HN as [Hwf Hown Hag].
  apply (node_put N i a _ _ [] []); try done; [by apply hands_same|set_solver|by rewrite app_nil_r|].
  destruct (Hag i a Hi) as [log [H1 H2 H3 H4 H5 H6 H7 H8]]. exists log. split; [|done..]. eexists. right. by eexists.
Qed.

Lemma node_request N i a env a' d' up :
  node_inv N → n_agents N !! i = Some a → client_turn env a (n_mgr N) = Some (a', d') →
  drun (agent_devents (NRequest i env) a (n_mgr N)) (n_mgr N) = Some d' ∧ node_inv (Node up (<[i := a']> (n_agents N)) d').
Proof.
  intros HN Hi H. destruct (ni_agent _ HN i a Hi) as [log Hlog]. unfold client_turn in H. cbn [agent_devents].
  destruct (a_state a); try done. destruct (read_agent_msg (a_in a)) as [[msg|e|] r]; [|injection H as <- <-|done].
  - destruct (needs_table msg && negb (unlocked (n_mgr N))) eqn:Hn; [done|].
    destruct (request_effect env msg (server_of a (n_mgr N))) as [o s] eqn:Hreq. injection H as <- <-.
    destruct (request_effect_served _ _ _ _ _ _ (ao_sink _ _ _ Hlog) Hn Hreq) as (new & Hs & Hrun & Hcl & Hans).
    split; [done|]. eapply node_served; [done|done|exact Hrun| | |exact Hs|exact Hcl|].
    + destruct msg as [| | |sid data| |]; cbn; try lia. destruct (b64_decode data); cbn; lia.
    + destruct msg as [| | |sid data| |]; cbn; try (by intros e' ->%list_elem_of_singleton); try set_solver.
      destruct (b64_decode data); [by intros e' ->%list_elem_of_singleton|set_solver].
    + intros m. destruct o as [[m'|]| |]; try done; [intros [= <-]; by apply Hans|].
      unfold waiting_for. repeat case_match; done.
  - split; [done|]. eapply (node_served N i a _ []); [done|done|done|cbn; lia|set_solver|by apply served_view, Hlog|done|done].
Qed.

Lemma node_reply N i a a' d' up :
  node_inv N → n_agents N !! i = Some a → reply_goes a (n_mgr N) = Some (a', d') →
  d' = n_mgr N ∧ node_inv (Node up (<[i := a']> (n_agents N)) d').
Proof.
  intros HN Hi H. destruct (ni_agent _ HN i a Hi) as [log Hlog]. unfold reply_goes in H.
  destruct (a_state a) as [|m| | | |] eqn:Hst; try done. destruct (reply _ _) as [o s] eqn:Hr. injection H as <- <-.
  destruct (reply_served _ _ _ _ _ _ _ _ a [] Hr) as [msgs Hsv]; [by apply (ao_answer _ _ _ Hlog)|apply Hlog|done|by rewrite app_nil_r|].
  rewrite (sv_mgr _ _ _ _ _ Hsv). split; [done|].
  eapply (node_served N i a _ []); [done|done|done|cbn; lia|set_solver|exact Hsv|done|]. intros m'. by destruct o.
Qed.

Lemma node_send_returns N i a a' d' up :
  node_inv N → n_agents N !! i = Some a → send_returns a (n_mgr N) = Some (a', d') →
  drun (agent_devents (NSendReturns i) a (n_mgr N)) (n_mgr N) = Some d' ∧ node_inv (Node up (<[i := a']> (n_agents N)) d').
Proof.
  intros HN Hi H. destruct (ni_agent _ HN i a Hi) as [log Hlog]. unfold send_returns in H. cbn [agent_devents].
  destruct (a_state a); try done. apply bind_Some in H as ([n x] & _ & (b & _ & ([ok ch] & _ & (d1 & Hs & H)%bind_Some)%bind_Some)%bind_Some).
  injection H as <- <-. assert (Hrun : drun [DSendResume] (n_mgr N) = Some d1) by (cbn [drun]; by rewrite Hs).
  split; [done|]. eapply (node_served N i a d1 [DSendResume]); [done|done|done|cbn; lia| |apply served_view, Hlog|done|].
  - by intros e ->%list_elem_of_singleton.
  - intros m. destruct ok; [done|]. by intros [= <-].
Qed.

Lemma node_dial_returns N i a a' d' up :
  node_inv N → n_agents N !! i = Some a → dial_returns a (n_mgr N) = Some (a', d') →
  drun (agent_devents (NDialReturns i) a (n_mgr N)) (n_mgr N) = Some d' ∧ node_inv (Node up (<[i := a']> (n_agents N)) d').
Proof.
  intros HN Hi H. destruct (ni_agent _ HN i a Hi) as [log Hlog]. unfold dial_returns in H. cbn [agent_devents].
  destruct (a_state a) as [| | |key target rid| |]; try done. destruct (unlocked (n_mgr N)) eqn:Hu; [|done].
  destruct (list_find _ _) as [[k key']|]; [|done]. cbn in H. apply bind_Some in H as ([[sid rx] d1] & Hr & H).
  assert (Hrun : drun [DDialResume k] (n_mgr N) = Some d1) by (cbn; by rewrite Hu, Hr).
  unfold spawn_forward in H. injection H as <- <-. cbn [mgr server_of] in *. split; [done|].
  eapply (node_served N i a d1 [DDialResume k] _ _ _ [Forward sid rx] []);
    [done|done|done|cbn; lia|by intros e ->%list_elem_of_singleton| |cbn; by rewrite Hr|by intros m [= <-]].
  split; [apply wrote_nothing, Hlog|done|done].
Qed.

(** The task of a [listen] changes its own place. *)
Lemma node_sub N i a j x up :
  node_inv N → n_agents N !! i = Some a → (∀ m, x.2 = Some m → is_recv m = false) →
  node_inv (Node up (<[i := set_sub j x a]> (n_agents N)) (n_mgr N)).
Proof.
  intros HN Hi Hx. destruct (ni_agent _ HN i a Hi) as [log Hlog].
  apply (node_fields N i a); try done; [apply Hlog|]. cbn. intros k n m Hk.
  destruct (decide (k = j)) as [->|Hne].
  - destruct (decide (j < length (a_subs a))%nat).
    + rewrite list_lookup_insert_eq in Hk by done. injection Hk as ->. by apply Hx.
    + rewrite list_insert_ge in Hk by lia. by apply (ao_pending _ _ _ Hlog j n).
  - rewrite list_lookup_insert_ne in Hk by done. by apply (ao_pending _ _ _ Hlog k n).
Qed.

(** A step of another task on the agent, followed by a change of that task's
    place. *)
Lemma node_then_sub N i a' j x d' up :
  node_inv (Node up (<[i := a']> (n_agents N)) d') → is_Some (n_agents N !! i) → (∀ m, x.2 = Some m → is_recv m = false) →
  node_inv (Node up (<[i := set_sub j x a']> (n_agents N)) d').
Proof.
  intros HN [a Hi] Hx. pose proof (node_sub _ i a' j x up HN) as H. cbn [n_agents n_mgr] in H.
  rewrite list_insert_insert_eq in H. apply H; [|done]. apply list_lookup_insert_eq. by eapply lookup_lt_Some.
Qed.

Lemma node_announce N i a j a' d' up :
  node_inv N → n_agents N !! i = Some a → announce_goes j a (n_mgr N) = Some (a', d') →
  drun (agent_devents (NAnnounce i j) a (n_mgr N)) (n_mgr N) = Some d' ∧ node_inv (Node up (<[i := a']> (n_agents N)) d').
Proof.
  intros HN Hi H. destruct (ni_agent _ HN i a Hi) as [log Hlog]. unfold announce_goes in H. cbn [agent_devents].
  apply bind_Some in H as ([k [m|]] & Hk & H); rewrite Hk.
  - unfold announce_put in H. injection H as <- <-. cbn [mgr server_of writer forwards subscriptions heartbeats].
    split; [done|]. apply node_then_sub; [|done|done].
    destruct (wrote_msg m (a_out a)) as [msgs Hwr]; [apply Hlog|by apply (ao_pending _ _ _ Hlog j k)|].
    eapply (node_served N i a _ [] _ _ _ []); [done|done|done|cbn; lia|set_solver| |done|apply Hlog].
    split; [exact Hwr|cbn; by rewrite app_nil_r|done].
  - destruct (unlocked (n_mgr N) || _) eqn:Hu; [|done].
    unfold announce_take in H. cbn [mgr server_of writer forwards subscriptions heartbeats] in H.
    destruct (broadcast_recv k (n_mgr N)) as [[[info|] k']|]; [| |done].
    + rewrite orb_false_r in Hu. destruct (take_recv_rx (info_stream_id info) (n_mgr N)) as [rx d1] eqn:Ht.
      injection H as <- <-. cbn [mgr]. assert (Hrun : drun [DTake (info_stream_id info)] (n_mgr N) = Some d1) by (cbn; by rewrite Hu, Ht).
      split; [done|]. apply node_then_sub; [|done|by intros m [= <-]].
      eapply (node_served N i a d1 [DTake _]); [done|done|done|cbn; lia|by intros e ->%list_elem_of_singleton| |cbn; rewrite Ht|apply Hlog].
      * split; [apply wrote_nothing, Hlog|done|done].
      * by destruct rx.
    + injection H as <- <-. split; [done|]. apply node_then_sub; [|done|done].
      eapply (node_served N i a _ [] _ _ _ []); [done|done|done|cbn; lia|set_solver|by apply served_view, Hlog|done|apply Hlog].
Qed.

Lemma background_quiet e d : background e = true → claims e d = [] ∧ consumes e = [].
Proof. destruct e; try done; cbn. by destruct e. Qed.

Lemma node_daemon N e d' up :
  node_inv N → background e = true → dstep e (n_mgr N) = Some d' → node_inv (Node up (n_agents N) d').
Proof.
  intros [Hwf Hown Hag] Hb Hs. destruct (background_quiet e (n_mgr N) Hb) as [Hcl Hco].
  pose proof (dstep_hands e _ _ (claimed N) Hwf Hown Hs) as Hh. rewrite Hcl, Hco in Hh. specialize (Hh ltac:(set_solver)).
  split; cbn [n_mgr n_agents]; [by eapply dstep_wf|apply Hh|].
  intros i a Hi. destruct (Hag i a Hi) as [log Hlog]. exists log. eapply agent_ok_steady; [done|].
  eapply hands_steady; [done|done|by eapply claims_elem|set_solver].
Qed.

Lemma node_accept N up : node_inv N → node_inv (Node up (n_agents N ++ [new_agent]) (n_mgr N)).
Proof.
  intros [Hwf Hown Hag]. split; cbn [n_mgr n_agents]; [done| |].
  - unfold claimed; cbn [n_agents]. by rewrite bind_app, app_nil_r.
  - intros i a [Hi|[_ Hi]]%lookup_app_Some; [by eapply Hag|]. apply list_lookup_singleton_Some in Hi as [_ <-].
    exists []. split; cbn; try done; [eexists; by left|set_solver|set_solver].
Qed.

(** Every step keeps the invariant and is a run of the daemon. *)
Lemma nstep_inv e N N' :
  node_inv N → nstep e N = Some N' → drun (ndevents e N) (n_mgr N) = Some (n_mgr N') ∧ node_inv N'.
Proof.
  intros HN H. unfold nstep in H. destruct (n_up N); [|done].
  assert (Hag : ∀ i f, on_agent i f N = Some N' → ∃ a a' d', n_agents N !! i = Some a ∧ f a (n_mgr N) = Some (a', d')
    ∧ N' = Node (n_up N) (<[i := a']> (n_agents N)) d').
  { intros i f Ha. apply bind_Some in Ha as (a & Hi & ([a' d'] & Hf & [= <-])%bind_Some). by exists a, a', d'. }
  destruct e; cbn [ndevents event_agent mbind option_bind];
    try (apply Hag in H as (a & a' & d' & Hi & Hf & ->); cbn [n_mgr]; rewrite Hi).
  - injection H as <-. split; [done|by apply node_accept].
  - injection H as <-. split; [done|]. destruct HN. by split.
  - cbn in Hf. destruct (fin (a_in a)); simplify_eq. destruct (ni_agent _ HN i a Hi) as [log Hlog]. split; [done|]. by eapply node_fields; [..|apply Hlog|apply Hlog].
  - simplify_eq. split; [done|]. by apply node_hang_up.
  - by apply node_request.
  - destruct (node_reply _ _ _ _ _ (n_up N) HN Hi Hf) as [-> Hinv]. done.
  - by apply node_send_returns.
  - by apply node_dial_returns.
  - by apply node_forward.
  - by apply node_announce.
  - destruct (background e) eqn:Hb; [|done]. apply bind_Some in H as (d' & Hs & [= <-]).
    split; [cbn [drun n_mgr]; by rewrite Hs|by eapply node_daemon].
Qed.

Lemma drun_app es1 es2 d : drun (es1 ++ es2) d = d' ← drun es1 d; drun es2 d'.
Proof. revert d; induction es1 as [|e es1 IH]; intros d; [done|]. cbn [app drun]. destruct (dstep e d); [apply IH|done]. Qed.

Lemma nrun_inv es N N' :
  node_inv N → nrun es N = Some N' → drun (ntrace es N) (n_mgr N) = Some (n_mgr N') ∧ node_inv N'.
Proof.
  revert N; induction es as [|e es IH]; intros N HN H; cbn [nrun ntrace] in *; [by simplify_eq|].
  apply bind_Some in H as (N1 & Hs & H). destruct (nstep_inv _ _ _ HN Hs) as [Hd HN1].
  destruct (IH N1 HN1 H) as [Hr HN']. split; [|done]. by rewrite Hs, drun_app, Hd.
Qed.

Lemma new_node_inv cfg : node_inv (new_node cfg).
Proof.
  split; cbn; [apply new_manager_wf| |done]. split; cbn.
  - unfold held; cbn. constructor.
  - unfold held; cbn. set_solver.
  - set_solver.
Qed.
End Invariant.

(** ** Claims *)

(** The data an agent reads for a stream. *)
Definition data_for (sid : Z) (msgs : list DaemonMsg) : list string :=
  omap (λ m, match m with Recv s x => if bool_decide (s = sid) then Some x else None | _ => None end) msgs.

(** On daemon [d], task [b] carries what agents send on stream [sid] to connection
    [n]. *)
Record carries (d : daemon) (n : nat) (m : mux) (b : nat) (br : bridge) (class : StreamClass) (sid : Z) : Prop := {
  ca_conn : conns d !! n = Some m;
  ca_task : bridges d !! b = Some br;
  ca_to : bridge_to br = ToMux n class;
  ca_sid : bridge_sid br = sid;
  ca_running : phase br = BRunning;
  ca_only : serves d n sid b;
}.

(** On daemon [d], connection [k] has stream [sid], opened by the peer and not
    closed, with inbound channel [c]. *)
Record accepts (d : daemon) (k : nat) (m : mux) (sid : Z) (c : nat) (ch : chan) : Prop := {
  ac_conn : conns d !! k = Some m;
  ac_peer : Z.odd sid ≠ Z.odd (next_stream_id m);
  ac_open : not_closed d k sid;
  ac_stream : streams (tbl m) !! sid = Some c;
  ac_chan : chans (tbl m) !! c = Some ch;
}.

Section Claims.
Context `{ED : !Ed25519, CM : !CaseMapping, RL : !RegistrarLibs, B64 : !Base64}.
Context `{JA : !JsonCodec AgentMsg, JD : !JsonCodec DaemonMsg}.

Lemma read_written (ms : list DaemonMsg) :
  Forall fits ms → read_msgs (Source (concat (msg_bytes <$> ms)) Open) = (ms, Pending).
Proof.
  intros Hms. destruct ms as [|m ms]; [done|].
  rewrite <-(app_nil_r (concat _)). apply (read_msgs_concat (m :: ms) [] m (msg_bytes m) Open); [|done|].
  - constructor; [by inversion Hms|done].
  - intros Hnil. pose proof (length_msg_bytes m). rewrite Hnil in *. cbn in *. lia.
Qed.

Lemma data_for_task sid j (log : list (option nat * DaemonMsg)) :
  (∀ t x, (t, Recv sid x) ∈ log → t = Some j) → data_for sid log.*2 = data_for sid (task_msgs j log).
Proof.
  induction log as [|[t m] log IH]; intros H; [done|]. unfold task_msgs in *. rewrite filter_cons. cbn [fst].
  assert (Hrest : data_for sid log.*2 = data_for sid (filter (λ p : option nat * DaemonMsg, p.1 = Some j) log).*2).
  { apply IH. intros t' x Hin. apply (H t' x). by constructor. }
  case_decide as Ht; unfold data_for in *; cbn [fmap list_fmap omap list_omap fst snd].
  - rewrite Hrest. done.
  - rewrite Hrest. destruct m; try done. case_bool_decide as Hs; [|done]. subst. destruct Ht. apply (H t data). constructor.
Qed.

Lemma data_for_recv sid ds : data_for sid (recv_msgs sid ds) = b64_encode <$> ds.
Proof.
  induction ds as [|x ds IH]; [done|]. unfold data_for, recv_msgs in *. cbn [fmap list_fmap omap list_omap].
  rewrite bool_decide_eq_true_2 by done. f_equal. exact IH.
Qed.

(** What a running task's stream has brought the agent. *)
Lemma agent_data d a log j f st ch :
  agent_ok d a log → (∀ r, r ∈ agent_claims a → is_Some (rx_chan r d)) →
  a_tasks a !! j = Some (f, st) → st ≠ FOver → rx_chan (fwd_rx f) d = Some ch →
  (∀ j' g sg, a_tasks a !! j' = Some (g, sg) → fwd_stream_id g = fwd_stream_id f → j' = j) →
  ∃ ds, data_for (fwd_stream_id f) log.*2 = b64_encode <$> ds ∧ got ch = ds ++ in_hand st.
Proof.
  intros Hok Hex Hj Hst Hc Honly. destruct (ao_task _ _ _ Hok j f st ch Hj Hc) as (ds & Hds & _ & Hl).
  exists ds. split; [|by apply Hl]. rewrite (data_for_task _ j).
  - rewrite Hds. apply data_for_recv.
  - intros t x Hin. destruct (ao_recv _ _ _ Hok _ _ Hin eq_refl) as [j' ->]. f_equal.
    destruct (ao_tags _ _ _ Hok _ _ Hin) as [[g sg] Hg]. apply (Honly j' g sg Hg).
    destruct (Hex (fwd_rx g)) as [chg Hcg].
    { apply list_elem_of_fmap. exists (g, sg). split; [done|]. by eapply list_elem_of_lookup_2. }
    destruct (ao_task _ _ _ Hok j' g sg chg Hg Hcg) as (dg & Hdg & _).
    assert (Hm : Recv (fwd_stream_id f) x ∈ recv_msgs (fwd_stream_id g) dg).
    { rewrite <-Hdg. unfold task_msgs. apply list_elem_of_fmap. exists (Some j', Recv (fwd_stream_id f) x).
      split; [done|]. by apply list_elem_of_filter. }
    apply list_elem_of_fmap in Hm as (y & [= Heq _] & _). done.
Qed.

(** The same for the bytes on the agent's socket. *)
Lemma agent_delivery cfgA esA NA n mA b br class cfgB esB NB k mB sid c ch i a j f st :
  nrun esA (new_node cfgA) = Some NA → carries (n_mgr NA) n mA b br class sid →
  nrun esB (new_node cfgB) = Some NB → accepts (n_mgr NB) k mB sid c ch →
  frames_read k (ntrace esB (new_node cfgB)) (new_manager cfgB) `prefix_of` wire_frames (out mA) →
  n_agents NB !! i = Some a → a_tasks a !! j = Some (f, st) → st ≠ FOver → fwd_rx f = RxMux k c →
  (∀ j' g sg, a_tasks a !! j' = Some (g, sg) → fwd_stream_id g = fwd_stream_id f → j' = j) →
  let accepted := sends b (ntrace esA (new_node cfgA)) (new_manager cfgA) in
  ∃ msgs data, Forall fits msgs ∧ written (a_out a) = concat (msg_bytes <$> msgs)
  ∧ data_for (fwd_stream_id f) msgs = b64_encode <$> data
  ∧ data `prefix_of` accepted
  ∧ (frames_read k (ntrace esB (new_node cfgB)) (new_manager cfgB) = wire_frames (out mA) →
     queue (high_priority class) (out mA) = [] →
     data ++ in_hand st ++ buf ch ++ in_flight c (reader mB) ++ buf (bridge_data br) = accepted).
Proof.
  intros HA [C1 C2 C3 C4 C5 C6] HB [D1 D2 D3 D4 D5] Hpre Hi Hj Hst Hrx Honly accepted.
  destruct (nrun_inv _ _ _ (new_node_inv cfgA) HA) as [HrA _]. destruct (nrun_inv _ _ _ (new_node_inv cfgB) HB) as [HrB HN].
  destruct (ni_agent _ HN i a Hi) as [log Hlog].
  assert (Hch : rx_chan (fwd_rx f) (n_mgr NB) = Some ch) by (rewrite Hrx; cbn; by rewrite D1).
  destruct (ao_task _ _ _ Hlog j f st ch Hj Hch) as (ds0 & _ & _ & Hl). destruct (Hl Hst) as [_ Hopen].
  pose proof (sends_delivered _ _ _ _ _ _ _ _ _ _ _ _ _ _ _ _ HrA C1 C2 C3 C4 C5 C6 HrB D1 D2 D3 Hpre D4 D5 Hopen) as Hdel.
  destruct (agent_data (n_mgr NB) a log j f st ch) as (ds & Hds & Hgot); try done.
  { intros r Hr. apply (own_out _ _ (ni_own _ HN)). by eapply claims_elem. }
  rewrite Hgot in Hdel. exists log.*2, ds. split_and!; [apply Hlog|apply Hlog|done| |].
  - destruct Hdel as [Hp _]. etrans; [|exact Hp]. rewrite <-!(assoc_L (++)). by eexists.
  - destruct Hdel as [_ Hall]. intros Hread Hq. etrans; [|exact (Hall Hread Hq)]. by rewrite <-!(assoc_L (++)).
Qed.


(** C15: The process is a daemon whose receivers have one owner each.  Every run of a
    [roboatd] process is, step by step, a run of the daemon of [Manager.v].  At
    any time the receiver of a stream's data is in one place only: the daemon, or one
    forwarding task of one agent; so no data reaches two agents.  A running task's
    receiver is open, and what its agent was sent for it is exactly what it received,
    but for the item in its hand. *)
Theorem process_receivers cfg es N :
  nrun es (new_node cfg) = Some N →
  drun (ntrace es (new_node cfg)) (new_manager cfg) = Some (n_mgr N)
  ∧ NoDup (held (n_mgr N) ++ claimed N)
  ∧ ∀ i a j f st, n_agents N !! i = Some a → a_tasks a !! j = Some (f, st) → st ≠ FOver →
    ∃ log ch data, rx_chan (fwd_rx f) (n_mgr N) = Some ch ∧ rx_open ch = true
      ∧ written (a_out a) = concat (msg_bytes <$> log.*2) ∧ task_msgs j log = recv_msgs (fwd_stream_id f) data
      ∧ got ch = data ++ in_hand st.
Proof.
  intros Hrun. destruct (nrun_inv _ _ _ (new_node_inv cfg) Hrun) as [Hd [_ Hown Hag]]. split_and!; [done|apply Hown|].
  intros i a j f st Hi Hj Hst. destruct (Hag i a Hi) as [log Hlog].
  destruct (own_out _ _ Hown (fwd_rx f)) as [ch Hc].
  { eapply claims_elem; [done|]. apply list_elem_of_fmap. exists (f, st). split; [done|]. by eapply list_elem_of_lookup_2. }
  destruct (ao_task _ _ _ Hlog j f st ch Hj Hc) as (ds & Hm & _ & Hl). destruct (Hl Hst) as [Hg Ho].
  exists log, ch, ds. split_and!; [done|done|apply Hlog|done|done].
Qed.
End Claims.

(** ** Witnesses *)

Section Witnesses.
#[local] Existing Instance toy_ed25519.
#[local] Existing Instance ascii_case_mapping.
#[local] Existing Instance toy_registrar_libs.
#[local] Existing Instance toy_base64.
#[local] Existing Instance padded_codec.
#[local] Existing Instance agent_msg_codec.

Definition quiet_env : surroundings := Surroundings (Ok tt) mux_accepting (λ _, Err "") 0 0 None.

(** One agent dials and sends two messages, the second of which the stream's task
    has not taken yet. *)
Definition dialing_node : list nevent :=
  [NAccept; NBytes 0 (msg_bytes (Dial "10.0.0.1:11411" Bulk (Some "r1"))); NRequest 0 quiet_env; NReply 0;
   NBytes 0 (msg_bytes (Send 1 (hex_encode [x01; x02])) ++ msg_bytes (Send 1 (hex_encode [x03]))); NRequest 0 quiet_env;
   NDaemon (DBridge 1); NRequest 0 quiet_env; NDaemon (DConn 0 EWrite); NDaemon (DConn 0 EWrite)].

(** The other listens and gets the first message of the stream before it is told
    of the stream. *)
Definition listening_node : list nevent :=
  [NAccept; NBytes 0 (msg_bytes (Listen "agt_b" None None)); NRequest 0 quiet_env; NReply 0;
   NDaemon (DInbound toy_nonce (Duplex (Source (ed_public (replicate 32 x00) ++ ed_sign (replicate 32 x00) toy_nonce
                                ++ frame_bytes (FStreamOpen, open_payload 1 Bulk)) Open) (open_sink [])));
   NDaemon (DConn 0 EFirst); NDaemon (DConn 0 EFirst); NDaemon (DIncoming 0); NAnnounce 0 0;
   NDaemon (DConn 0 (ERead (FStreamData, data_payload 1 [x01; x02]))); NDaemon (DConn 0 EResume); NForward 0 0; NForward 0 0;
   NAnnounce 0 0].

Definition started : node := new_node default_daemon_config.
Definition node_a : node := default started (nrun dialing_node started).
Definition node_b : node := default started (nrun listening_node started).
Definition agent_b : agent := default new_agent (n_agents node_b !! 0%nat).
Definition conn_of (N : node) : mux := default (new_initiator "") (conns (n_mgr N) !! 0%nat).


Lemma process_receivers_witness :
  drun (ntrace listening_node started) (new_manager default_daemon_config) = Some (n_mgr node_b)
  ∧ NoDup (held (n_mgr node_b) ++ claimed node_b)
  ∧ ∀ i a j f st, n_agents node_b !! i = Some a → a_tasks a !! j = Some (f, st) → st ≠ FOver →
    ∃ log ch data, rx_chan (fwd_rx f) (n_mgr node_b) = Some ch ∧ rx_open ch = true
      ∧ written (a_out a) = concat (msg_bytes <$> log.*2) ∧ task_msgs j log = recv_msgs (fwd_stream_id f) data
      ∧ got ch = data ++ in_hand st.
Proof. apply (process_receivers default_daemon_config listening_node node_b). vm_compute. reflexivity. Defined.
End Witnesses.
