(* ===== verification/Tunnel.v ===== *)
(** * The tunnel server (rust/crates/roboat-core/src/tunnel.rs)

    One connected client of the tunnel server: after the handshake a reader loop
    handles the client's frames and a task forwards what is broadcast to all
    clients; both write to the same socket, frame by frame, under its lock.  The
    commands' answers come from the application over a channel.

    The state of a client is where its reader loop stands; every [await] of the
    loop is a boundary between two [tevent]s.  The server as a whole ([tunnel]) has
    the accept loop and a session per connection it accepted; [vstep] and [vrun]
    interleave them with the application. *)

From Stdlib Require Import Ascii String.
From S2P Require Import Prelude Text Stream Protocol Auth.

(** ** State *)

(** What the server shares with its clients: the queue of commands for the
    application, with its capacity and whether the application still receives;
    what was broadcast; and the channels that trigger WebRTC, if set. *)
Record trigger (A : Type) : Type := Trigger {
  tr_queue : list A;
  tr_cap : nat;
  tr_open : bool;
}.
Arguments Trigger {A}.
Arguments tr_queue {A}.
Arguments tr_cap {A}.
Arguments tr_open {A}.

Section Tunnel.
(** [serde_json::Value] *)
Context {Value : Type}.

(** [response_tx] is the channel of the client that asked, by its number. *)
Record IncomingCommand : Type := {
  request : CommandRequest Value;
  response_tx : nat;
}.

Record TunnelServer : Type := {
  t_listen_port : Z;
  authenticator : ServerAuthenticator;
  command_tx : trigger IncomingCommand;
  broadcasts : list (list byte);
  client_count : Z;
  webrtc_trigger : option (trigger WebRtcBootstrapPayload);
  webrtc_teardown : option (trigger WebRtcTeardownPayload);
}.

Inductive client_phase : Type :=
| CReading
| CQueueing (request : CommandRequest Value)
| CAwaiting
| CEnded (r : result ProtocolError unit).

(** [t_id]: the client's number; [t_seen]: how many broadcasts the forwarding task
    has read. *)
Record tclient : Type := TClient {
  t_id : nat;
  t_rd : source;
  t_wr : sink;
  t_phase : client_phase;
  t_seen : nat;
  t_forwarding : bool;
}.

Context `{ED : !Ed25519, CM : !CaseMapping}.
Context `{JReq : !JsonCodec (CommandRequest Value), JResp : !JsonCodec (CommandResponse Value)}.
Context `{JBoot : !JsonCodec WebRtcBootstrapPayload, JTear : !JsonCodec WebRtcTeardownPayload}.

(** [TunnelServer::new], for an application whose channel holds [cap]
    commands. *)
Definition new_tunnel_server (listen_port : Z) (authorized_keys : list string) (cap : nat) : TunnelServer :=
  {| t_listen_port := listen_port; authenticator := new_authenticator authorized_keys;
     command_tx := Trigger [] cap true; broadcasts := []; client_count := 0;
     webrtc_trigger := None; webrtc_teardown := None |}.

Definition set_webrtc_trigger (tx : trigger WebRtcBootstrapPayload) (t : TunnelServer) : TunnelServer :=
  {| t_listen_port := t_listen_port t; authenticator := authenticator t; command_tx := command_tx t;
     broadcasts := broadcasts t; client_count := client_count t;
     webrtc_trigger := Some tx; webrtc_teardown := webrtc_teardown t |}.
Definition set_webrtc_teardown (tx : trigger WebRtcTeardownPayload) (t : TunnelServer) : TunnelServer :=
  {| t_listen_port := t_listen_port t; authenticator := authenticator t; command_tx := command_tx t;
     broadcasts := broadcasts t; client_count := client_count t;
     webrtc_trigger := webrtc_trigger t; webrtc_teardown := Some tx |}.
Definition set_command_tx (tx : trigger IncomingCommand) (t : TunnelServer) : TunnelServer :=
  {| t_listen_port := t_listen_port t; authenticator := authenticator t; command_tx := tx;
     broadcasts := broadcasts t; client_count := client_count t;
     webrtc_trigger := webrtc_trigger t; webrtc_teardown := webrtc_teardown t |}.
Definition set_authenticator (a : ServerAuthenticator) (t : TunnelServer) : TunnelServer :=
  {| t_listen_port := t_listen_port t; authenticator := a; command_tx := command_tx t;
     broadcasts := broadcasts t; client_count := client_count t;
     webrtc_trigger := webrtc_trigger t; webrtc_teardown := webrtc_teardown t |}.
Definition add_clients (n : Z) (t : TunnelServer) : TunnelServer :=
  {| t_listen_port := t_listen_port t; authenticator := authenticator t; command_tx := command_tx t;
     broadcasts := broadcasts t; client_count := client_count t + n;
     webrtc_trigger := webrtc_trigger t; webrtc_teardown := webrtc_teardown t |}.
Definition broadcast (data : list byte) (t : TunnelServer) : TunnelServer :=
  {| t_listen_port := t_listen_port t; authenticator := authenticator t; command_tx := command_tx t;
     broadcasts := broadcasts t ++ [data]; client_count := client_count t;
     webrtc_trigger := webrtc_trigger t; webrtc_teardown := webrtc_teardown t |}.

Definition tunnel_replace_authorized_keys (keys : list string) (t : TunnelServer) : TunnelServer :=
  set_authenticator (replace_authorized_keys (authenticator t) keys) t.
Definition tunnel_authorized_keys (t : TunnelServer) : list string := authorized_keys (authenticator t).

(** [try_send]: dropped when the channel is full or closed. *)
Definition try_send {A} (x : A) (tx : trigger A) : trigger A :=
  if tr_open tx && (length (tr_queue tx) <? tr_cap tx)%nat
  then Trigger (tr_queue tx ++ [x]) (tr_cap tx) (tr_open tx) else tx.

(** ** The reader loop *)

Definition at_phase (p : client_phase) (c : tclient) : tclient :=
  TClient (t_id c) (t_rd c) (t_wr c) p (t_seen c) (t_forwarding c).

(** The loop ends normally: the forwarding task is aborted. *)
Definition break_loop (c : tclient) : tclient := TClient (t_id c) (t_rd c) (t_wr c) (CEnded (Ok tt)) (t_seen c) false.

(** [write_frame(..).await?] in the loop: an error leaves [handle_client] at
    once, with the forwarding task running. *)
Definition answer_frame (ft : FrameType) (data : list byte) (c : tclient) : option tclient :=
  match write_frame ft data (t_wr c) with
  | (Done _, w) => Some (TClient (t_id c) (t_rd c) w CReading (t_seen c) (t_forwarding c))
  | (Fail e, w) => Some (TClient (t_id c) (t_rd c) w (CEnded (Err e)) (t_seen c) (t_forwarding c))
  | (Pending, _) => None
  end.

(** What the loop does with a frame, up to its first [await]. *)
Definition client_frame (f : FrameType * list byte) (t : TunnelServer) (c : tclient) : option (TunnelServer * tclient) :=
  match f with
  | (FCommandRequest, data) =>
      match from_slice data with
      | Some request => Some (t, at_phase (CQueueing request) c)
      | None => Some (t, c)
      end
  | (FPing, _) => c' ← answer_frame FPong [] c; Some (t, c')
  | (FWebRtcBootstrap, data) =>
      match webrtc_trigger t with
      | Some tx =>
          match from_slice data with
          | Some payload => Some (set_webrtc_trigger (try_send payload tx) t, c)
          | None => Some (t, c)
          end
      | None => Some (t, c)
      end
  | (FWebRtcTeardown, data) =>
      match webrtc_teardown t with
      | Some tx =>
          let payload :=
            if bool_decide (data = []) then {| teardown_bootstrap_id := None |}
            else default {| teardown_bootstrap_id := None |} (from_slice data) in
          Some (set_webrtc_teardown (try_send payload tx) t, c)
      | None => Some (t, c)
      end
  | _ => Some (t, c)
  end.

(** Where the loop stands after [read_frame]. *)
Definition client_read (t : TunnelServer) (c : tclient) : option (TunnelServer * tclient) :=
  match read_frame (t_rd c) with
  | (Done f, r) => client_frame f t (TClient (t_id c) r (t_wr c) CReading (t_seen c) (t_forwarding c))
  | (Fail _, r) => Some (t, break_loop (TClient (t_id c) r (t_wr c) CReading (t_seen c) (t_forwarding c)))
  | (Pending, _) => None
  end.

(** [command_tx.send(cmd).await] *)
Definition client_queue (req : CommandRequest Value) (t : TunnelServer) (c : tclient) :
    option (TunnelServer * tclient) :=
  let tx := command_tx t in
  if tr_open tx then
    if (length (tr_queue tx) <? tr_cap tx)%nat
    then Some (set_command_tx (Trigger (tr_queue tx ++ [{| request := req; response_tx := t_id c |}]) (tr_cap tx) true) t,
               at_phase CAwaiting c)
    else None
  else Some (t, break_loop c).

(** [resp_rx.recv().await]: the application's answer, or [None] when it dropped
    the sender. *)
Definition client_answered (response : option (CommandResponse Value)) (c : tclient) : option tclient :=
  match response with
  | Some r => answer_frame FCommandResponse (to_vec r) c
  | None => Some (at_phase CReading c)
  end.

(** The forwarding task: the channel keeps the last 256 broadcasts. *)
Definition TUNNEL_BROADCAST_CAP : nat := 256.
Definition forward_broadcast (t : TunnelServer) (c : tclient) : option tclient :=
  if t_forwarding c then
    if (t_seen c + TUNNEL_BROADCAST_CAP <? length (broadcasts t))%nat
    then Some (TClient (t_id c) (t_rd c) (t_wr c) (t_phase c) (length (broadcasts t) - TUNNEL_BROADCAST_CAP) true)
    else
      data ← broadcasts t !! t_seen c;
      match write_frame FTunnelPacket data (t_wr c) with
      | (Done _, w) => Some (TClient (t_id c) (t_rd c) w (t_phase c) (S (t_seen c)) true)
      | (Fail _, w) => Some (TClient (t_id c) (t_rd c) w (t_phase c) (S (t_seen c)) false)
      | (Pending, _) => None
      end
  else None.

(** [handle_client] up to its loop: the error, or the client's state.  [seen]: the
    broadcasts there were when [run] subscribed for it. *)
Definition client_connect (id seen : nat) (t : TunnelServer) (nonce : list byte) (s : duplex) :
    outcome ProtocolError tclient :=
  match server_authenticate (authenticator t) nonce s with
  | (Done _, s) => Done (TClient id (rd s) (wr s) CReading seen true)
  | (Fail e, _) => Fail (Io (auth_error_string e))
  | (Pending, _) => Pending
  end.

(** ** Interleavings *)

Inductive tevent : Type :=
| TRead
| TQueue
(** the application takes a command from its channel, and answers *)
| TTake
| TAnswer (r : option (CommandResponse Value))
| TForward
| TBroadcast (data : list byte)
| TArrive (bs : list byte)
(** [shutdown()]: [notify_waiters] wakes the loop only if it waits in its
    [select!]. *)
| TShutdown.

Definition tstep (e : tevent) (t : TunnelServer) (c : tclient) : option (TunnelServer * tclient) :=
  match e, t_phase c with
  | TRead, CReading => client_read t c
  | TQueue, CQueueing request => client_queue request t c
  | TAnswer r, CAwaiting => c' ← client_answered r c; Some (t, c')
  | TTake, _ =>
      match tr_queue (command_tx t) with
      | _ :: q => Some (set_command_tx (Trigger q (tr_cap (command_tx t)) (tr_open (command_tx t))) t, c)
      | [] => None
      end
  | TForward, _ => c' ← forward_broadcast t c; Some (t, c')
  | TBroadcast data, _ => Some (broadcast data t, c)
  | TArrive bs, _ =>
      match fin (t_rd c) with
      | Open => Some (t, TClient (t_id c) (Source (avail (t_rd c) ++ bs) Open) (t_wr c) (t_phase c) (t_seen c) (t_forwarding c))
      | _ => None
      end
  | TShutdown, CReading => Some (t, break_loop c)
  | TShutdown, _ => Some (t, c)
  | _, _ => None
  end.

Fixpoint trun (es : list tevent) (t : TunnelServer) (c : tclient) : option (TunnelServer * tclient) :=
  match es with
  | [] => Some (t, c)
  | e :: es => '(t, c) ← tstep e t c; trun es t c
  end.

(** ** The server as a whole *)

(** A connection [run] accepted: its task spawned, inside the handshake (counted
    as a client from here on), serving, or returned; after an error the forwarding
    task is left behind. *)
Inductive session : Type :=
| SSpawned (s : duplex) (seen : nat)
| SAuthenticating (s : duplex) (seen : nat)
| SServing (c : tclient)
| SGone (left_behind : option tclient).

(** [in_work]: the commands the application has taken and not yet answered. *)
Record tunnel : Type := Tunnel {
  srv : TunnelServer;
  sessions : gmap nat session;
  next_session : nat;
  accepting : bool;
  in_work : list IncomingCommand;
}.

(** [run] with the port bound; binding fails with an error. *)
Definition tunnel_run (bind : result io_error unit) (t : TunnelServer) : result io_error tunnel :=
  match bind with
  | Ok _ => Ok {| srv := t; sessions := ∅; next_session := 0; accepting := true; in_work := [] |}
  | Err e => Err e
  end.

Definition connected_clients (t : tunnel) : Z := client_count (srv t).

Definition set_srv (t : TunnelServer) (T : tunnel) : tunnel :=
  Tunnel t (sessions T) (next_session T) (accepting T) (in_work T).
Definition set_session (i : nat) (s : session) (T : tunnel) : tunnel :=
  Tunnel (srv T) (<[i := s]> (sessions T)) (next_session T) (accepting T) (in_work T).
Definition set_in_work (l : list IncomingCommand) (T : tunnel) : tunnel :=
  Tunnel (srv T) (sessions T) (next_session T) (accepting T) l.

(** A [select!] with [shutdown.notified()] is what a reading client waits in. *)
Definition wake (s : session) : session :=
  match s with
  | SServing c => match t_phase c with CReading => SServing (break_loop c) | _ => s end
  | _ => s
  end.

Inductive vevent : Type :=
(** the accept loop *)
| VAccept (s : duplex)
| VAcceptError (e : io_error)
(** a session's task: its first step, bytes during the handshake, the handshake's
    end, a step of its loop or of its forwarding task, its return *)
| VStart (i : nat)
| VArrive (i : nat) (bs : list byte)
| VAuth (i : nat) (nonce : list byte)
| VClient (i : nat) (e : tevent)
| VEnd (i : nat)
(** the application takes a command, answers one it has taken or drops it,
    broadcasts, replaces the allowlist, shuts down *)
| VTake
| VAnswer (j : nat) (r : option (CommandResponse Value))
| VBroadcast (data : list byte)
| VKeys (keys : list string)
| VShutdown.

(** The steps of [tevent] a client takes by itself. *)
Definition client_event (e : tevent) : bool :=
  match e with TRead | TQueue | TForward | TArrive _ => true | _ => false end.

Definition vstep (e : vevent) (T : tunnel) : option tunnel :=
  match e with
  | VAccept s =>
      if accepting T
      then Some (Tunnel (srv T) (<[next_session T := SSpawned s (length (broadcasts (srv T)))]> (sessions T))
                   (S (next_session T)) true (in_work T))
      else None
  | VAcceptError _ => if accepting T then Some T else None
  | VStart i =>
      match sessions T !! i with
      | Some (SSpawned s seen) => Some (set_session i (SAuthenticating s seen) (set_srv (add_clients 1 (srv T)) T))
      | _ => None
      end
  | VArrive i bs =>
      match sessions T !! i with
      | Some (SAuthenticating (Duplex (Source av Open) w) seen) =>
          Some (set_session i (SAuthenticating (Duplex (Source (av ++ bs) Open) w) seen) T)
      | _ => None
      end
  | VAuth i nonce =>
      match sessions T !! i with
      | Some (SAuthenticating s seen) =>
          match client_connect i seen (srv T) nonce s with
          | Done c => Some (set_session i (SServing c) T)
          | Fail _ => Some (set_session i (SGone None) (set_srv (add_clients (-1) (srv T)) T))
          | Pending => None
          end
      | _ => None
      end
  | VClient i e =>
      if client_event e then
        match sessions T !! i with
        | Some (SServing c) => '(t, c) ← tstep e (srv T) c; Some (set_session i (SServing c) (set_srv t T))
        | Some (SGone (Some c)) => c ← forward_broadcast (srv T) c; Some (set_session i (SGone (Some c)) T)
        | _ => None
        end
      else None
  | VEnd i =>
      match sessions T !! i with
      | Some (SServing c) =>
          match t_phase c with
          | CEnded _ => Some (set_session i (SGone (Some c)) (set_srv (add_clients (-1) (srv T)) T))
          | _ => None
          end
      | _ => None
      end
  | VTake =>
      match tr_queue (command_tx (srv T)) with
      | cmd :: q =>
          Some (set_in_work (in_work T ++ [cmd])
                  (set_srv (set_command_tx (Trigger q (tr_cap (command_tx (srv T))) (tr_open (command_tx (srv T)))) (srv T)) T))
      | [] => None
      end
  | VAnswer j r =>
      cmd ← in_work T !! j;
      let T := set_in_work (delete j (in_work T)) T in
      match sessions T !! response_tx cmd with
      | Some (SServing c) =>
          '(t, c) ← tstep (TAnswer r) (srv T) c; Some (set_session (response_tx cmd) (SServing c) (set_srv t T))
      | _ => Some T
      end
  | VBroadcast data => Some (set_srv (broadcast data (srv T)) T)
  | VKeys keys => Some (set_srv (tunnel_replace_authorized_keys keys (srv T)) T)
  | VShutdown => Some (Tunnel (srv T) (wake <$> sessions T) (next_session T) false (in_work T))
  end.

Fixpoint vrun (es : list vevent) (T : tunnel) : option tunnel :=
  match es with [] => Some T | e :: es => T ← vstep e T; vrun es T end.
End Tunnel.

Arguments TunnelServer : clear implicits.
Arguments tclient : clear implicits.
Arguments tevent : clear implicits.
Arguments IncomingCommand : clear implicits.
Arguments session : clear implicits.
Arguments tunnel : clear implicits.
Arguments vevent : clear implicits.

(** ** Lemmas *)

Section Lemmas.
Context {Value : Type}.
Context `{ED : !Ed25519, CM : !CaseMapping}.
Context `{JReq : !JsonCodec (CommandRequest Value), JResp : !JsonCodec (CommandResponse Value)}.
Context `{JBoot : !JsonCodec WebRtcBootstrapPayload, JTear : !JsonCodec WebRtcTeardownPayload}.

(** The answers the application gave in a run. *)
Definition answers (es : list (tevent Value)) : list (CommandResponse Value) :=
  omap (λ e, match e with TAnswer (Some r) => Some r | _ => None end) es.

Lemma answers_app es1 es2 : answers (es1 ++ es2) = answers es1 ++ answers es2.
Proof. apply omap_app. Qed.

(** The frames of one type in a log of frames. *)
Definition of_type (ft : FrameType) (log : list (FrameType * list byte)) : list (list byte) :=
  (filter (λ f, f.1 = ft) log).*2.

Lemma of_type_app ft l1 l2 : of_type ft (l1 ++ l2) = of_type ft l1 ++ of_type ft l2.
Proof. unfold of_type. by rewrite filter_app, fmap_app. Qed.

(** What an event adds to the client's socket: nothing or one whole frame, an
    answer being its response and a forwarded broadcast the next unread one. *)
Inductive emits (e : tevent Value) (t : TunnelServer Value) (c c' : tclient Value) : list (FrameType * list byte) → Prop :=
| EmitNone : answers [e] = [] → (t_seen c ≤ t_seen c')%nat → emits e t c c' []
| EmitPong : e = TRead → (t_seen c ≤ t_seen c')%nat → emits e t c c' [(FPong, [])]
| EmitAnswer r : e = TAnswer (Some r) → (t_seen c ≤ t_seen c')%nat → emits e t c c' [(FCommandResponse, to_vec r)]
| EmitData data : answers [e] = [] → broadcasts t !! t_seen c = Some data → t_seen c' = S (t_seen c) →
    emits e t c c' [(FTunnelPacket, data)].

Lemma answer_frame_open ft data (c c' : tclient Value) w f :
  t_wr c = Sink w None f → answer_frame ft data c = Some c' →
  t_wr c' = Sink (w ++ frame_bytes (ft, data)) None f ∧ t_seen c' = t_seen c.
Proof. intros Hw. unfold answer_frame. rewrite Hw, write_frame_open. by intros [= <-]. Qed.

Lemma tstep_emits e t c t' c' w f :
  t_wr c = Sink w None f → tstep e t c = Some (t', c') →
  ∃ log, t_wr c' = Sink (w ++ frames_bytes log) None f ∧ emits e t c c' log
  ∧ broadcasts t `prefix_of` broadcasts t'.
Proof.
  intros Hw H.
  assert (Hquiet : t_wr c' = t_wr c → answers [e] = [] → (t_seen c ≤ t_seen c')%nat →
    broadcasts t `prefix_of` broadcasts t' →
    ∃ log, t_wr c' = Sink (w ++ frames_bytes log) None f ∧ emits e t c c' log ∧ broadcasts t `prefix_of` broadcasts t').
  { intros Hw' ??. exists []. rewrite Hw', Hw. change (frames_bytes []) with (@nil byte). rewrite app_nil_r.
    split_and!; [done|by constructor|done]. }
  destruct e; unfold tstep in H.
  - destruct (t_phase c); try done. unfold client_read in H. destruct (read_frame (t_rd c)) as [[[ft d]|e|] r]; [| |done].
    + destruct ft; cbn in H; try (by repeat case_match; simplify_eq; apply Hquiet).
      apply bind_Some in H as (c1 & Ha & H). simplify_eq.
      edestruct answer_frame_open as [Hw' Hs]; [|exact Ha|]; [exact Hw|]. exists [(FPong, [])].
      rewrite frames_bytes_cons. change (frames_bytes []) with (@nil byte). rewrite app_nil_r.
      split_and!; [done| |done]. apply EmitPong; [done|]. cbn in Hs. lia.
    + simplify_eq. by apply Hquiet.
  - destruct (t_phase c); try done. unfold client_queue in H. repeat case_match; simplify_eq; by apply Hquiet.
  - destruct (tr_queue _); [done|]. simplify_eq. by apply Hquiet.
  - destruct (t_phase c); try done. apply bind_Some in H as (c1 & Ha & H). simplify_eq.
    destruct r as [r|]; cbn in Ha; [|simplify_eq; by apply Hquiet].
    destruct (answer_frame_open _ _ _ _ w f Hw Ha) as [Hw' Hs]. exists [(FCommandResponse, to_vec r)].
    rewrite frames_bytes_cons. change (frames_bytes []) with (@nil byte). rewrite app_nil_r.
    split_and!; [done| |done]. apply EmitAnswer; [done|lia].
  - apply bind_Some in H as (c1 & Ha & H). simplify_eq. unfold forward_broadcast in Ha.
    destruct (t_forwarding c); [|done]. destruct (Nat.ltb_spec (t_seen c + TUNNEL_BROADCAST_CAP) (length (broadcasts t'))).
    + simplify_eq. apply Hquiet; [done..|cbn; lia|done].
    + apply bind_Some in Ha as (data & Hd & Ha). rewrite Hw, write_frame_open in Ha. simplify_eq.
      exists [(FTunnelPacket, data)]. rewrite frames_bytes_cons. change (frames_bytes []) with (@nil byte).
      rewrite app_nil_r. split_and!; [done|by apply EmitData|done].
  - simplify_eq. apply Hquiet; [done..|]. by eexists.
  - destruct (fin (t_rd c)); [|done..]. simplify_eq. by apply Hquiet.
  - destruct (t_phase c); simplify_eq; by apply Hquiet.
Qed.

Lemma drop_sublist {A} (l : list A) i j : (i ≤ j)%nat → drop j l `sublist_of` drop i l.
Proof.
  intros Hij. replace j with (i + (j - i))%nat by lia. rewrite <-drop_drop. apply sublist_drop.
Qed.

(** The frames a run writes to a client, by their types. *)
Definition log_ok (es : list (tevent Value)) (t' : TunnelServer Value) (c : tclient Value)
    (log : list (FrameType * list byte)) : Prop :=
  of_type FCommandResponse log = to_vec <$> answers es
  ∧ of_type FTunnelPacket log `sublist_of` drop (t_seen c) (broadcasts t').

Lemma log_ok_nil t' c : log_ok [] t' c [].
Proof. split; [done|apply sublist_nil_l]. Qed.

Lemma log_ok_cons e es t c c1 t' l1 l2 :
  emits e t c c1 l1 → broadcasts t `prefix_of` broadcasts t' → log_ok es t' c1 l2 → log_ok (e :: es) t' c (l1 ++ l2).
Proof.
  intros He Hp [Ha Hb]. unfold log_ok. rewrite (answers_app [e] es : answers (e :: es) = _), !of_type_app, Ha, fmap_app. split.
  - f_equal. destruct He as [H1 _|H1 _|r H1 _|d H1 _ _]; [by rewrite H1|by subst|by subst|by rewrite H1].
  - destruct He as [_ Hs'|_ Hs'|r _ Hs'|d _ Hd Hs'].
    1-3: cbn; etrans; [exact Hb|by apply drop_sublist].
    rewrite (drop_S _ d (t_seen c)); [|by eapply prefix_lookup_Some].
    cbn. apply sublist_skip. by rewrite <-Hs'.
Qed.

#[local] Hint Resolve log_ok_nil : core.

(** *** Sessions *)

Definition started (s : session Value) : bool :=
  match s with SAuthenticating _ _ | SServing _ => true | _ => false end.

(** The client waits for the answer to a command. *)
Definition awaiting (c : tclient Value) : bool := match t_phase c with CAwaiting => true | _ => false end.
Definition waits (s : option (session Value)) : bool := match s with Some (SServing c) => awaiting c | _ => false end.

Definition count_started (m : gmap nat (session Value)) : nat := size (filter (λ p, started p.2 = true) m).

(** The commands of client [i] that are queued or being worked on. *)
Definition commands_of (i : nat) (T : tunnel Value) : list (IncomingCommand Value) :=
  filter (λ cmd, response_tx cmd = i) (tr_queue (command_tx (srv T)) ++ in_work T).

Record tunnel_inv (T : tunnel Value) : Prop := {
  ti_names : ∀ i, is_Some (sessions T !! i) → (i < next_session T)%nat;
  ti_count : client_count (srv T) = Z.of_nat (count_started (sessions T));
  ti_id : ∀ i c, sessions T !! i = Some (SServing c) → t_id c = i;
  ti_commands : ∀ i, length (commands_of i T) = if waits (sessions T !! i) then 1%nat else 0%nat;
}.

Lemma count_insert i s m :
  (count_started (<[i := s]> m) + (if default false (started <$> m !! i) then 1 else 0)
   = count_started m + (if started s then 1 else 0))%nat.
Proof.
  unfold count_started.
  assert (Hold : (size (delete i (filter (λ p, started p.2 = true) m))
                  + (if default false (started <$> m !! i) then 1 else 0)
                  = size (filter (λ p, started p.2 = true) m))%nat).
  { destruct (m !! i) as [s0|] eqn:Hi; cbn.
    - destruct (started s0) eqn:Hs0.
      + rewrite map_size_delete_Some; [|exists s0; by apply map_lookup_filter_Some].
        assert (size (filter (λ p, started p.2 = true) m) ≠ 0)%nat; [|lia].
        apply map_size_ne_0_lookup. exists i, s0. by apply map_lookup_filter_Some.
      + rewrite delete_id; [lia|]. apply map_lookup_filter_None. right. intros x Hx. cbn. congruence.
    - rewrite delete_id; [lia|]. apply map_lookup_filter_None. by left. }
  destruct (started s) eqn:Hs.
  - rewrite map_filter_insert_True by done. rewrite <-insert_delete_eq, map_size_insert_None by apply lookup_delete_eq. lia.
  - rewrite map_filter_insert_False by (cbn; congruence). rewrite map_filter_delete. lia.
Qed.

Lemma count_wake m : count_started (wake <$> m) = count_started m.
Proof.
  unfold count_started. rewrite map_filter_fmap, map_size_fmap. f_equal. apply map_filter_ext.
  intros i s _. cbn. unfold wake. destruct s as [| |c|]; [done|done| |done]. by destruct (t_phase c).
Qed.

Lemma waits_wake s : waits (wake <$> s) = waits s.
Proof. destruct s as [[| |c|]|]; try done. cbn. destruct (t_phase c) eqn:Hp; cbn; unfold awaiting; by rewrite ?Hp. Qed.

(** What a client does by itself to the count and to the commands. *)
Lemma tstep_client e t c t' c' :
  client_event e = true → tstep e t c = Some (t', c') →
  t_id c' = t_id c ∧ client_count t' = client_count t ∧
  ((tr_queue (command_tx t') = tr_queue (command_tx t) ∧ awaiting c' = awaiting c) ∨
   (∃ req, tr_queue (command_tx t') = tr_queue (command_tx t) ++ [{| request := req; response_tx := t_id c |}]
      ∧ awaiting c = false ∧ awaiting c' = true)).
Proof.
  intros He H. destruct e; try done; unfold tstep in H.
  - destruct (t_phase c) eqn:Hp; try done. unfold client_read in H. unfold awaiting. rewrite Hp.
    destruct (read_frame (t_rd c)) as [[[ft d]|err|] r]; [|simplify_eq; cbn; auto|done].
    destruct ft; cbn in H; unfold answer_frame in H; repeat (case_match; simplify_option_eq; simplify_eq); cbn; auto.
  - destruct (t_phase c) eqn:Hp; try done. unfold client_queue in H. unfold awaiting. rewrite Hp.
    repeat (case_match; simplify_eq); cbn; naive_solver.
  - apply bind_Some in H as (c1 & Ha & H). simplify_eq. unfold forward_broadcast, awaiting in *.
    repeat (case_match; simplify_option_eq; simplify_eq); cbn; auto.
  - unfold awaiting. destruct (fin (t_rd c)); simplify_eq; cbn; auto.
Qed.

Lemma answer_client r t c t' c' :
  tstep (TAnswer r) t c = Some (t', c') → t' = t ∧ t_id c' = t_id c ∧ awaiting c = true ∧ awaiting c' = false.
Proof.
  unfold tstep, awaiting. destruct (t_phase c) eqn:Hp; try done. intros (c1 & Ha & [= <- <-])%bind_Some.
  destruct r; cbn in Ha; [unfold answer_frame in Ha; repeat (case_match; simplify_eq)|simplify_eq]; done.
Qed.

Lemma commands_same i T T' :
  tr_queue (command_tx (srv T')) = tr_queue (command_tx (srv T)) → in_work T' = in_work T →
  commands_of i T' = commands_of i T.
Proof. unfold commands_of. by intros -> ->. Qed.

(** One session changes, with the count following; no command comes or goes. *)
Lemma inv_session T t i s s' :
  tunnel_inv T → sessions T !! i = Some s →
  tr_queue (command_tx t) = tr_queue (command_tx (srv T)) →
  client_count t = client_count (srv T) + (if started s' then 1 else 0) - (if started s then 1 else 0) →
  waits (Some s') = waits (Some s) → (∀ c, s' = SServing c → t_id c = i) →
  tunnel_inv (set_session i s' (set_srv t T)).
Proof.
  intros [Hn Hc Hid Hcmd] Hi Hq Hcount Hw Hid'. split; cbn.
  - intros j. rewrite lookup_insert_is_Some. intros [<-|[_ ?]]; [apply Hn; by rewrite Hi|by apply Hn].
  - pose proof (count_insert i s' (sessions T)) as Hci. rewrite Hi in Hci. cbn in Hci. rewrite Hcount, Hc.
    destruct (started s), (started s'); lia.
  - intros j c. rewrite lookup_insert_Some. intros [[<- ->]|[_ ?]]; [by apply Hid'|by apply Hid].
  - intros j. rewrite (commands_same j T) by done. rewrite Hcmd.
    destruct (decide (i = j)) as [<-|Hne]; [by rewrite lookup_insert_eq, Hi, Hw|by rewrite lookup_insert_ne].
Qed.

Lemma inv_session_only T i s s' :
  tunnel_inv T → sessions T !! i = Some s → started s' = started s → waits (Some s') = waits (Some s) →
  (∀ c, s' = SServing c → t_id c = i) → tunnel_inv (set_session i s' T).
Proof.
  intros HT Hi Hs Hw Hid. change (tunnel_inv (set_session i s' (set_srv (srv T) T))).
  eapply inv_session; [done|done|done|rewrite Hs; lia|done|done].
Qed.

Lemma inv_client T i c e t' c' :
  tunnel_inv T → sessions T !! i = Some (SServing c) → client_event e = true → tstep e (srv T) c = Some (t', c') →
  tunnel_inv (set_session i (SServing c') (set_srv t' T)).
Proof.
  intros HT Hi He Hs. destruct (tstep_client _ _ _ _ _ He Hs) as (Hid & Hcount & [[Hq Ha]|(req & Hq & Ha & Ha')]).
  - eapply inv_session; [done|done|done|cbn; lia|done|]. intros c0 [= <-]. rewrite Hid. by apply (ti_id _ HT).
  - pose proof HT as [Hn Hc Hids Hcmd]. split; cbn.
    + intros j. rewrite lookup_insert_is_Some. intros [<-|[_ ?]]; [apply Hn; by rewrite Hi|by apply Hn].
    + pose proof (count_insert i (SServing c') (sessions T)) as Hci. rewrite Hi in Hci. cbn in Hci. lia.
    + intros j c0. rewrite lookup_insert_Some. intros [[<- [= <-]]|[_ ?]]; [rewrite Hid; by apply Hids|by apply Hids].
    + intros j. unfold commands_of in *; cbn. rewrite Hq, <-app_assoc, filter_app, filter_app, filter_one.
      specialize (Hcmd j). rewrite filter_app in Hcmd. rewrite !length_app in *. rewrite (Hids _ _ Hi). cbn.
      destruct (decide (i = j)) as [<-|Hne].
      * rewrite lookup_insert_eq, bool_decide_eq_true_2 by done. cbn. rewrite Ha'. rewrite Hi in Hcmd. cbn in Hcmd.
        rewrite Ha in Hcmd. lia.
      * rewrite lookup_insert_ne, bool_decide_eq_false_2 by done. cbn. lia.
Qed.

(** The application takes a command and answers it. *)
Lemma inv_take T cmd q :
  tunnel_inv T → tr_queue (command_tx (srv T)) = cmd :: q →
  tunnel_inv (set_in_work (in_work T ++ [cmd]) (set_srv (set_command_tx
    (Trigger q (tr_cap (command_tx (srv T))) (tr_open (command_tx (srv T)))) (srv T)) T)).
Proof.
  intros [Hn Hc Hid Hcmd] Hq. split; cbn; try done. intros i. rewrite <-(Hcmd i). unfold commands_of; cbn. rewrite Hq.
  cbn [app]. apply Permutation_length, filter_Permutation. rewrite app_assoc, Permutation_app_comm. done.
Qed.

Lemma inv_answered T j cmd c t' c' r :
  tunnel_inv T → in_work T !! j = Some cmd → sessions T !! response_tx cmd = Some (SServing c) →
  tstep (TAnswer r) (srv T) c = Some (t', c') →
  tunnel_inv (set_session (response_tx cmd) (SServing c') (set_srv t' (set_in_work (delete j (in_work T)) T))).
Proof.
  intros [Hn Hc Hid Hcmd] Hj Hi Hs. destruct (answer_client _ _ _ _ _ Hs) as (-> & Hid' & Ha & Ha'). split; cbn.
  - intros i. rewrite lookup_insert_is_Some. intros [<-|[_ ?]]; [apply Hn; by rewrite Hi|by apply Hn].
  - pose proof (count_insert (response_tx cmd) (SServing c') (sessions T)) as Hci. rewrite Hi in Hci. cbn in Hci. lia.
  - intros i c0. rewrite lookup_insert_Some. intros [[<- [= <-]]|[_ ?]]; [rewrite Hid'; by apply Hid|by apply Hid].
  - intros i. specialize (Hcmd i). unfold commands_of in *; cbn -[delete].
    rewrite <-(take_drop_middle _ _ _ Hj) in Hcmd. rewrite delete_take_drop.
    rewrite !filter_app, !length_app in *. rewrite filter_cons in Hcmd. rewrite lookup_insert.
    case_decide as Heq; cbn in *.
    + subst i. rewrite Hi in Hcmd. cbn in Hcmd. rewrite Ha in Hcmd. rewrite Ha'. lia.
    + exact Hcmd.
Qed.

(** An answer always finds its client waiting. *)
Lemma answered_waits T j cmd : tunnel_inv T → in_work T !! j = Some cmd → waits (sessions T !! response_tx cmd) = true.
Proof.
  intros HT Hj. pose proof (ti_commands _ HT (response_tx cmd)) as Hl. destruct (waits _); [done|]. exfalso.
  assert (Hin : cmd ∈ commands_of (response_tx cmd) T).
  { apply list_elem_of_filter. split; [done|]. apply elem_of_app. right. by eapply list_elem_of_lookup_2. }
  apply length_zero_iff_nil in Hl. rewrite Hl in Hin. by apply not_elem_of_nil in Hin.
Qed.

Lemma vstep_inv e T T' : tunnel_inv T → vstep e T = Some T' → tunnel_inv T'.
Proof.
  intros HT H. pose proof HT as [Hn Hc Hid Hcmd]. destruct e as [s|e|i|i bs|i nonce|i e|i| |j r|data|keys|]; cbn [vstep] in H.
  - destruct (accepting T); [|done]. injection H as <-.
    assert (Hfresh : sessions T !! next_session T = None).
    { apply eq_None_not_Some. intros Hs. pose proof (Hn _ Hs). lia. }
    split; cbn.
    + intros i. rewrite lookup_insert_is_Some. intros [<-|[_ Hi]]; [lia|]. pose proof (Hn i Hi). lia.
    + pose proof (count_insert (next_session T) (SSpawned s (length (broadcasts (srv T)))) (sessions T)) as Hci.
      rewrite Hfresh in Hci. cbn in Hci. lia.
    + intros i c. rewrite lookup_insert_Some. intros [[_ ?]|[_ ?]]; [done|by apply Hid].
    + intros i. rewrite (commands_same i T) by done. rewrite Hcmd.
      destruct (decide (next_session T = i)) as [<-|Hne]; [by rewrite lookup_insert_eq, Hfresh|by rewrite lookup_insert_ne].
  - by destruct (accepting T); simplify_eq.
  - destruct (sessions T !! i) as [[s seen| | |]|] eqn:Hi; try done. injection H as <-.
    eapply inv_session; [done|done|done|cbn; lia|done|done].
  - destruct (sessions T !! i) as [[|[[av []] w] seen| |]|] eqn:Hi; try done. injection H as <-.
    by eapply inv_session_only.
  - destruct (sessions T !! i) as [[|s seen| |]|] eqn:Hi; try done. unfold client_connect in H.
    destruct (server_authenticate _ _ _) as [[k|e|] s1]; [| |done]; injection H as <-.
    + eapply inv_session_only; [done|done|done|done|]. by intros c [= <-].
    + eapply inv_session; [done|done|done|cbn; lia|done|done].
  - destruct (client_event e) eqn:He; [|done].
    destruct (sessions T !! i) as [[| |c|[c|]]|] eqn:Hi; try done.
    + apply bind_Some in H as ([t' c'] & Hs & [= <-]). by eapply inv_client.
    + apply bind_Some in H as (c' & _ & [= <-]). by eapply inv_session_only.
  - destruct (sessions T !! i) as [[| |c|]|] eqn:Hi; try done. destruct (t_phase c) eqn:Hp; try done. injection H as <-.
    eapply inv_session; [done|done|done|cbn; lia| |done]. cbn. unfold awaiting. by rewrite Hp.
  - destruct (tr_queue (command_tx (srv T))) as [|cmd q] eqn:Hq; [done|]. injection H as <-. by apply inv_take.
  - apply bind_Some in H as (cmd & Hj & H). pose proof (answered_waits _ _ _ HT Hj) as Hw. cbn -[delete tstep] in H.
    destruct (sessions T !! response_tx cmd) as [[| |c|]|] eqn:Hi; try done.
    apply bind_Some in H as ([t' c'] & Hs & [= <-]). by eapply inv_answered.
  - injection H as <-. by split.
  - injection H as <-. by split.
  - injection H as <-. split; cbn.
    + intros i. rewrite lookup_fmap, fmap_is_Some. apply Hn.
    + by rewrite count_wake.
    + intros i c. rewrite lookup_fmap. intros (s & Hi & Hw)%fmap_Some. destruct s as [| |c0|]; try done. cbn in Hw.
      rewrite <-(Hid i c0 Hi). destruct (t_phase c0); by simplify_eq.
    + intros i. by rewrite (commands_same i T), Hcmd, lookup_fmap, waits_wake.
Qed.

Lemma vrun_inv es T T' : tunnel_inv T → vrun es T = Some T' → tunnel_inv T'.
Proof.
  revert T; induction es as [|e es IH]; intros T HT Hr; cbn [vrun] in Hr; [by simplify_eq|].
  apply bind_Some in Hr as (T1 & Hs & Hr). apply (IH T1); [|done]. by eapply vstep_inv.
Qed.

(** ** Claims *)

(** C28: The server keeps count and routes answers.  Whatever happens, in any order:
    [connected_clients] is the number of sessions that are inside the handshake or
    being served; and for every client the commands queued for the application or
    in its hands are one if the client's loop waits for an answer and none
    otherwise, so an answer the application gives goes to the client that asked,
    which is waiting for exactly this one. *)
Theorem tunnel_sessions es port keys cap T T' :
  tunnel_run (Ok tt) (new_tunnel_server port keys cap) = Ok T → vrun es T = Some T' →
  connected_clients T' = Z.of_nat (count_started (sessions T'))
  ∧ (∀ i, length (commands_of i T') = if waits (sessions T' !! i) then 1%nat else 0%nat)
  ∧ (∀ j cmd r T'', in_work T' !! j = Some cmd → vstep (VAnswer j r) T' = Some T'' →
       ∃ c c', sessions T' !! response_tx cmd = Some (SServing c) ∧ t_phase c = CAwaiting
       ∧ tstep (TAnswer r) (srv T') c = Some (srv T', c') ∧ sessions T'' = <[response_tx cmd := SServing c']> (sessions T')).
Proof.
  intros Hrun Hr. injection Hrun as <-.
  assert (HT : tunnel_inv T').
  { eapply vrun_inv; [|done]. split; cbn; try done; intros i; rewrite lookup_empty; by intros [? ?]. }
  split_and!; [apply (ti_count _ HT)|apply (ti_commands _ HT)|].
  intros j cmd r T'' Hj Hs. pose proof (answered_waits _ _ _ HT Hj) as Hw. cbn -[delete tstep] in Hs. rewrite Hj in Hs.
  cbn -[delete tstep] in Hs. destruct (sessions T' !! response_tx cmd) as [[| |c|]|] eqn:Hi; try done.
  apply bind_Some in Hs as ([t' c'] & Hst & [= <-]). exists c, c'. destruct (answer_client _ _ _ _ _ Hst) as (-> & _).
  split_and!; [done| |done|done]. cbn in Hw. unfold awaiting in Hw. by destruct (t_phase c).
Qed.


(** A client that is waiting for the application misses a shutdown.  The
    signal reaches only tasks that wait for it at that moment; while a command is
    queued or being answered it has no effect: the rest of the run is the same, and
    the client goes on being served. *)
Theorem shutdown_missed es t c :
  (∃ r, t_phase c = CQueueing r) ∨ t_phase c = CAwaiting →
  trun (TShutdown :: es) t c = trun es t c.
Proof. cbn [trun tstep]. by intros [[r ->]| ->]. Qed.
End Lemmas.

(** ** Witnesses *)

Section Witnesses.
#[local] Existing Instance toy_ed25519.
#[local] Existing Instance ascii_case_mapping.

(** Codecs for commands without parameters. *)
Definition command_codec : JsonCodec (CommandRequest unit).
Proof.
  refine {| to_vec r := bits_bytes (encode (req_id r, skill _ r, action _ r));
            from_slice bs := (λ '(i, s, a), {| req_id := i; skill := s; action := a; params := tt |})
                             <$> decode (bytes_bits bs) |}.
  intros [i s a []]. by rewrite bytes_bits_bytes, decode_encode.
Defined.

Definition response_codec : JsonCodec (CommandResponse unit).
Proof.
  refine {| to_vec r := bits_bytes (encode (resp_id r,
                          (match status _ r with StatusOk => 0 | StatusError => 1 | StatusTimeout => 2 end),
                          data _ r, error _ r));
            from_slice bs := (λ '(i, s, d, e), {| resp_id := i;
                               status := if s =? 0 then StatusOk else if s =? 1 then StatusError else StatusTimeout;
                               data := d; error := e |}) <$> decode (bytes_bits bs) |}.
  intros [i s d e]. rewrite bytes_bits_bytes, decode_encode. by destruct s.
Defined.

Definition bootstrap_codec : JsonCodec WebRtcBootstrapPayload.
Proof.
  refine {| to_vec r := bits_bytes (encode (bootstrap_id r, cli_public_ip r, cli_lan_cidr r, route_type r));
            from_slice bs := (λ '(i, p, l, r), {| bootstrap_id := i; cli_public_ip := p; cli_lan_cidr := l; route_type := r |})
                             <$> decode (bytes_bits bs) |}.
  intros [i p l r]. by rewrite bytes_bits_bytes, decode_encode.
Defined.

Definition teardown_codec : JsonCodec WebRtcTeardownPayload.
Proof.
  refine {| to_vec r := bits_bytes (encode (teardown_bootstrap_id r));
            from_slice bs := (λ i, {| teardown_bootstrap_id := i |}) <$> decode (bytes_bits bs) |}.
  intros [i]. by rewrite bytes_bits_bytes, decode_encode.
Defined.

#[local] Existing Instance command_codec.
#[local] Existing Instance response_codec.
#[local] Existing Instance bootstrap_codec.
#[local] Existing Instance teardown_codec.

Definition pong_request : CommandRequest unit := {| req_id := "1"; skill := "ros"; action := "list"; params := tt |}.
Definition pong_answer : CommandResponse unit := {| resp_id := "1"; status := StatusOk; data := None; error := None |}.

Definition demo_session : list (tevent unit) :=
  [TArrive (frame_bytes (FCommandRequest, to_vec pong_request)); TRead; TBroadcast [x01]; TQueue; TForward; TTake;
   TBroadcast [x02]; TShutdown; TAnswer (Some pong_answer); TArrive (frame_bytes (FPing, [])); TRead; TForward].
Definition demo_client : tclient unit := TClient 0 (Source [] Open) (Sink [] None None) CReading 0 true.
Definition demo_server : TunnelServer unit := new_tunnel_server 11411 [] 4.
Definition demo_end : TunnelServer unit * tclient unit :=
  default (demo_server, demo_client) (trun demo_session demo_server demo_client).


(** Two clients, one of which asks and is answered; one fails the handshake. *)
Definition handshake (seed : list byte) (sig_nonce : list byte) : duplex :=
  Duplex (Source (ed_public seed ++ ed_sign seed sig_nonce) Open) (open_sink []).
Definition busy_run : list (vevent unit) :=
  [VAccept (handshake [x01] toy_nonce); VAccept (handshake [x02] []); VStart 0; VStart 1; VAuth 1 toy_nonce;
   VBroadcast [x07]; VAuth 0 toy_nonce; VClient 0 (TArrive (frame_bytes (FCommandRequest, to_vec pong_request)));
   VClient 0 TRead; VClient 0 TQueue; VShutdown; VTake].
Definition idle_tunnel : tunnel unit :=
  {| srv := demo_server; sessions := ∅; next_session := 0; accepting := true; in_work := [] |}.
Definition busy_tunnel : tunnel unit := default idle_tunnel (vrun busy_run idle_tunnel).

Lemma tunnel_sessions_witness :
  connected_clients busy_tunnel = 1 ∧ length (commands_of 0 busy_tunnel) = 1%nat
  ∧ ∃ c c', sessions busy_tunnel !! 0%nat = Some (SServing c) ∧ t_phase c = CAwaiting
    ∧ tstep (TAnswer (Some pong_answer)) (srv busy_tunnel) c = Some (srv busy_tunnel, c')
    ∧ sessions (default busy_tunnel (vstep (VAnswer 0 (Some pong_answer)) busy_tunnel))
      = <[0%nat := SServing c']> (sessions busy_tunnel).
Proof.
  destruct (tunnel_sessions busy_run 11411 [] 4 idle_tunnel busy_tunnel) as (Hn & Hc & Ha);
    [reflexivity|vm_compute; reflexivity|].
  split; [rewrite Hn; vm_compute; reflexivity|]. split; [rewrite Hc; vm_compute; reflexivity|].
  apply (Ha 0%nat {| request := pong_request; response_tx := 0 |} (Some pong_answer)); vm_compute; reflexivity.
Defined.

Lemma shutdown_missed_witness :
  let c := at_phase CAwaiting demo_client in
  trun [TShutdown; TAnswer (Some pong_answer)] demo_server c = trun [TAnswer (Some pong_answer)] demo_server c.
Proof. apply shutdown_missed. right. reflexivity. Defined.
End Witnesses.
