(* ===== verification/Bootstrap.v ===== *)
(** * The platform's calls to an agent's tunnel server (go/relay/bootstrap.go)

    The platform, written in Go, is the other end of the tunnel server of Tunnel.v:
    it connects, goes through the handshake of Auth.v, sends one frame of
    Protocol.v and, for a command, waits for one frame in return.  The theorems put
    the two ends together: the Go client is the Rust client byte for byte, and a
    call against the Rust server comes back with the answer to it, or with what the
    server forwarded first.

    [net], [io] and [encoding/binary] are the Go library: [read_full] is
    [io.ReadFull], which tells an end before the first byte from one in the middle;
    [conn.Write] writes everything or fails.  A reading half holds what arrives
    before the deadline, so a call that would wait is one that times out, if a
    deadline is set.  [encoding/json] is the interface [GoJson], with what it
    promises about the Rust ends' [serde_json] in [JsonInterop]. *)

From Stdlib Require Import Ascii String.
From S2P Require Import Prelude Text Stream Protocol Auth Tunnel.

(** ** Go's errors, reads and writes *)

Inductive go_error : Type :=
| EOF
| ErrUnexpectedEOF
| ErrDeadline
| NetError (e : io_error)
| NewError (msg : string)
(** [fmt.Errorf("<context>: %w", err)] *)
| Wrapped (context : string) (e : go_error).

Definition read_full (n : Z) : io source go_error (list byte) := λ s,
  if n <=? zlen (avail s)
  then (Done (take (Z.to_nat n) (avail s)), Source (drop (Z.to_nat n) (avail s)) (fin s))
  else match fin s with
       | Open => (Pending, Source [] Open)
       | Closed => (Fail (if bool_decide (avail s = []) then EOF else ErrUnexpectedEOF), Source [] Closed)
       | Broken e => (Fail (NetError e), Source [] (Broken e))
       end.

Definition conn_write (bs : list byte) : io sink go_error unit := io_map_err NetError (write_all bs).

(** [SetDeadline], [SetReadDeadline]: an operation that would wait fails. *)
Definition deadline {S A} (m : io S go_error A) : io S go_error A := λ s,
  match m s with
  | (Pending, s') => (Fail ErrDeadline, s')
  | r => r
  end.

Definition wrap {S A} (context : string) (m : io S go_error A) : io S go_error A :=
  io_map_err (Wrapped context) m.

(** ** Frames *)

Definition FrameCommandRequest : Z := 0x02.
Definition FrameCommandResponse : Z := 0x03.
Definition FrameWebRtcBootstrap : Z := 0x20.
Definition FrameWebRtcTeardown : Z := 0x21.

Definition writeByte (b : Z) : io sink go_error unit := conn_write (be_bytes 1 b).

Definition readByte : io source go_error Z := b ← read_full 1; mret (be_value b).

Definition writeFrame (frameType : Z) (data : list byte) : io sink go_error unit :=
  writeByte frameType;;
  conn_write (be_bytes 4 (u32_wrap (zlen data)));;
  conn_write data.

Definition readFrame : io source go_error (Z * list byte) :=
  frameType ← readByte;
  length ← (bs ← read_full 4; mret (be_value bs));
  if length >? 64 * 1024 * 1024 then io_fail (NewError "frame too large") else
  data ← read_full length;
  mret (frameType, data).

(** ** Payloads *)

(** The structs of the same names, with Go's strings. *)
Record GoBootstrapPayload : Type := {
  BootstrapID : string;
  CliPublicIP : string;
  CliLanCIDR : string;
  RouteType : string;
}.

Record GoTeardownPayload : Type := {
  TeardownBootstrapID : string;
}.

(** [json.Marshal] and [json.Unmarshal].  [go_map] is [map[string]interface{}], of
    which only the encoding can fail; a struct of strings is always encoded. *)
Class GoJson : Type := {
  go_map : Type;
  marshal_map : go_map → result go_error (list byte);
  unmarshal_map : list byte → result go_error go_map;
  marshal_bootstrap : GoBootstrapPayload → list byte;
  marshal_teardown : GoTeardownPayload → list byte;
}.

(** [omitempty] *)
Definition omitempty (s : string) : option string := if bool_decide (s = "") then None else Some s.

Definition rust_bootstrap (p : GoBootstrapPayload) : WebRtcBootstrapPayload :=
  {| bootstrap_id := BootstrapID p; cli_public_ip := omitempty (CliPublicIP p);
     cli_lan_cidr := omitempty (CliLanCIDR p); route_type := omitempty (RouteType p) |}.
Definition rust_teardown (p : GoTeardownPayload) : WebRtcTeardownPayload :=
  {| teardown_bootstrap_id := omitempty (TeardownBootstrapID p) |}.

Definition payload_wf (p : GoBootstrapPayload) : Prop :=
  str_wf (BootstrapID p) ∧ str_wf (CliPublicIP p) ∧ str_wf (CliLanCIDR p) ∧ str_wf (RouteType p).

(** What the two JSON libraries promise each other: a Go struct of valid strings
    reads back in Rust as the fields it has, those left out being [None]; an object
    is not the empty text. *)
Class JsonInterop `{GoJson} `{JBoot : !JsonCodec WebRtcBootstrapPayload, JTear : !JsonCodec WebRtcTeardownPayload} : Prop := {
  bootstrap_interop p : payload_wf p → from_slice (marshal_bootstrap p) = Some (rust_bootstrap p);
  teardown_interop p : str_wf (TeardownBootstrapID p) → from_slice (marshal_teardown p) = Some (rust_teardown p);
  teardown_nonempty p : marshal_teardown p ≠ [];
}.

(** ** Calls *)

Section Calls.
Context `{ED : !Ed25519} `{GJ : !GoJson}.

Definition SeedSize : Z := 32.

Definition authenticate (seed : list byte) : io duplex go_error unit :=
  if negb (zlen seed =? SeedSize) then io_fail (NewError "invalid seed size") else
  let pubKey := ed_public seed in
  deadline (
    nonce ← on_rd (read_full 32);
    let sig := ed_sign seed nonce in
    on_wr (conn_write pubKey);;
    on_wr (conn_write sig);;
    res ← on_rd readByte;
    if negb (res =? 0x01) then io_fail (NewError "unauthorized by agent") else mret tt).

(** The calls on the connection that was dialled. *)
Definition send_command (keySeed : list byte) (request : go_map) : io duplex go_error go_map :=
  wrap "auth agent" (authenticate keySeed);;
  reqBytes ← io_lift (marshal_map request);
  wrap "write request" (on_wr (writeFrame FrameCommandRequest reqBytes));;
  '(frameType, respBytes) ← wrap "read response" (deadline (on_rd readFrame));
  if negb (frameType =? FrameCommandResponse)
  then io_fail (NewError ("unexpected frame type: 0x" +:+ hex2 frameType))
  else io_lift (unmarshal_map respBytes).

Definition trigger_bootstrap (keySeed : list byte) (payload : GoBootstrapPayload) : io duplex go_error unit :=
  wrap "auth agent for bootstrap trigger" (authenticate keySeed);;
  let data := marshal_bootstrap payload in
  wrap "write bootstrap trigger" (on_wr (writeFrame FrameWebRtcBootstrap data)).

Definition trigger_teardown (keySeed : list byte) (payload : GoTeardownPayload) : io duplex go_error unit :=
  wrap "auth agent for teardown trigger" (authenticate keySeed);;
  let data := marshal_teardown payload in
  wrap "write teardown trigger" (on_wr (writeFrame FrameWebRtcTeardown data)).

(** [dial] is what [net.DialTimeout] returns; the connection is closed on every
    way out. *)
Definition with_dial {A} (context : string) (dial : result go_error duplex) (call : io duplex go_error A) :
    outcome go_error A * option duplex :=
  match dial with
  | Err e => (Fail (Wrapped context e), None)
  | Ok d => let '(r, d) := call d in (r, Some d)
  end.

Definition SendCommand (dial : result go_error duplex) (keySeed : list byte) (request : go_map) :=
  with_dial "dial agent" dial (send_command keySeed request).
Definition TriggerWebRtcBootstrap (dial : result go_error duplex) (keySeed : list byte) (payload : GoBootstrapPayload) :=
  with_dial "dial agent for bootstrap trigger" dial (trigger_bootstrap keySeed payload).
Definition TriggerWebRtcTeardown (dial : result go_error duplex) (keySeed : list byte) (payload : GoTeardownPayload) :=
  with_dial "dial agent for teardown trigger" dial (trigger_teardown keySeed payload).
End Calls.

(** ** The Go operations and the Rust operations *)

(** The two end in the same state, with the same value if they succeed; they fail
    together and wait together. *)
Definition same_outcome {E E' A} (r : outcome E A) (r' : outcome E' A) : Prop :=
  match r, r' with
  | Done a, Done b => a = b
  | Fail _, Fail _ | Pending, Pending => True
  | _, _ => False
  end.
Definition sim {S E E' A} (m : io S E A) (m' : io S E' A) : Prop :=
  ∀ s, (m s).2 = (m' s).2 ∧ same_outcome (m s).1 (m' s).1.

Lemma sim_bind {S E E' A B} (m : io S E A) (m' : io S E' A) (k : A → io S E B) (k' : A → io S E' B) :
  sim m m' → (∀ a, sim (k a) (k' a)) → sim (m ≫= k) (m' ≫= k').
Proof.
  intros Hm Hk s. destruct (Hm s) as [Hs Ho]. unfold mbind, io_bind.
  destruct (m s) as [[a|e|] s1], (m' s) as [[b|e'|] s2]; cbn in *; subst; try done. apply Hk.
Qed.

Lemma sim_ret {S E E' A} (a : A) : sim (mret a : io S E A) (mret a : io S E' A).
Proof. done. Qed.

Lemma sim_fail {S E E' A} (e : E) (e' : E') : sim (io_fail e : io S E A) (io_fail e').
Proof. done. Qed.

Lemma sim_if {S E E' A} (b : bool) (m1 m2 : io S E A) (n1 n2 : io S E' A) :
  sim m1 n1 → sim m2 n2 → sim (if b then m1 else m2) (if b then n1 else n2).
Proof. by destruct b. Qed.

Lemma sim_map_err {S E E' F F' A} (f : E → F) (f' : E' → F') (m : io S E A) (m' : io S E' A) :
  sim m m' → sim (io_map_err f m) (io_map_err f' m').
Proof.
  intros Hm s. destruct (Hm s) as [Hs Ho]. unfold io_map_err.
  by destruct (m s) as [[a|e|] s1], (m' s) as [[b|e'|] s2].
Qed.

Lemma sim_map_err_l {S E E' F A} (f : E → F) (m : io S E A) (m' : io S E' A) :
  sim m m' → sim (io_map_err f m) m'.
Proof.
  intros Hm s. destruct (Hm s) as [Hs Ho]. unfold io_map_err.
  by destruct (m s) as [[a|e|] s1], (m' s) as [[b|e'|] s2].
Qed.

Lemma sim_map_err_r {S E E' F A} (f : E' → F) (m : io S E A) (m' : io S E' A) :
  sim m m' → sim m (io_map_err f m').
Proof.
  intros Hm s. destruct (Hm s) as [Hs Ho]. unfold io_map_err.
  by destruct (m s) as [[a|e|] s1], (m' s) as [[b|e'|] s2].
Qed.

Lemma sim_on_rd {E E' A} (m : io source E A) (m' : io source E' A) : sim m m' → sim (on_rd m) (on_rd m').
Proof.
  intros Hm [r w]. destruct (Hm r) as [Hs Ho]. unfold on_rd; cbn.
  destruct (m r), (m' r); cbn in *; by subst.
Qed.

Lemma sim_on_wr {E E' A} (m : io sink E A) (m' : io sink E' A) : sim m m' → sim (on_wr m) (on_wr m').
Proof.
  intros Hm [r w]. destruct (Hm w) as [Hs Ho]. unfold on_wr; cbn.
  destruct (m w), (m' w); cbn in *; by subst.
Qed.

Lemma sim_read n : sim (read_full n) (read_exact n).
Proof. intros [bs e]. unfold read_full, read_exact; cbn. destruct (_ <=? _); [done|]. by destruct e. Qed.

Lemma sim_write bs : sim (conn_write bs) (write_all bs).
Proof. apply sim_map_err_l. intros s. split; [done|]. by destruct (write_all bs s) as [[]]. Qed.

(** Rust bounds every operation of the handshake, Go all of them together; an
    operation that would wait is the last one either way. *)
Lemma sim_timeout {S A} op (m : io S go_error A) (m' : io S io_error A) :
  sim m m' → sim (deadline m) (with_io_timeout op m').
Proof.
  intros Hm s. destruct (Hm s) as [Hs Ho]. unfold deadline, with_io_timeout.
  by destruct (m s) as [[a|e|] s1], (m' s) as [[b|e'|] s2].
Qed.

Lemma deadline_bind {S A B} (m : io S go_error A) (k : A → io S go_error B) s :
  deadline (m ≫= k) s = (deadline m ≫= λ a, deadline (k a)) s.
Proof. unfold deadline, mbind, io_bind. by destruct (m s) as [[a|e|] s1]. Qed.

Lemma sim_ext {S E E' A} (m n : io S E A) (m' : io S E' A) : (∀ s, m s = n s) → sim n m' → sim m m'.
Proof. intros Hmn Hn s. rewrite Hmn. apply Hn. Qed.

Lemma sim_timeout_bind {S A B} op (m : io S go_error A) (m' : io S io_error A)
    (k : A → io S go_error B) (k' : A → io S AuthError B) :
  sim m m' → (∀ a, sim (deadline (k a)) (k' a)) →
  sim (deadline (m ≫= k)) (with_io_timeout op m' ≫= k').
Proof. intros Hm Hk. eapply sim_ext; [apply deadline_bind|]. apply sim_bind; [by apply sim_timeout|done]. Qed.

Lemma sim_flush {A} op (m : io duplex go_error A) (m' : io duplex AuthError A) :
  sim m m' → sim m (with_io_timeout op (on_wr flush);; m').
Proof. intros Hm [r w]. unfold mbind, io_bind, with_io_timeout, on_wr; cbn. apply Hm. Qed.

Lemma sim_read_byte : sim readByte read_u8.
Proof. apply sim_bind; [apply sim_read|intros bs; apply sim_ret]. Qed.

Create HintDb sim.
#[export] Hint Resolve sim_bind sim_ret sim_fail sim_if sim_map_err sim_on_rd sim_on_wr sim_read sim_write
  sim_read_byte : sim.

Lemma sim_write_frame ft data : sim (writeFrame (frame_byte ft) data) (write_frame ft data).
Proof.
  unfold writeFrame, write_frame, try_io, writeByte, write_u8, write_u32.
  apply sim_bind; [apply sim_map_err_r, sim_write|intros _].
  apply sim_bind; [apply sim_map_err_r, sim_write|intros _].
  intros s. rewrite write_all_flush. apply sim_map_err_r, sim_write.
Qed.

(** From a type byte that Rust knows on, the two readers agree. *)
Definition untyped {E} (r : outcome E (FrameType * list byte)) : outcome E (Z * list byte) :=
  match r with Done (ft, d) => Done (frame_byte ft, d) | Fail e => Fail e | Pending => Pending end.

Lemma read_frame_same ft bs e :
  let s := Source (be_bytes 1 (frame_byte ft) ++ bs) e in
  (readFrame s).2 = (read_frame s).2 ∧ same_outcome (readFrame s).1 (untyped (read_frame s).1).
Proof.
  cbv zeta.
  assert (Hrust : read_frame (Source (be_bytes 1 (frame_byte ft) ++ bs) e) =
    (length ← try_io read_u32;
     if length >? 64 * 1024 * 1024 then io_fail (InvalidPacket "frame too large") else
     data ← try_io (read_exact length); mret (ft, data)) (Source bs e)).
  { unfold read_frame. io_next read_u8_app. unfold u8_wrap. rewrite Z.mod_small by apply frame_byte_range.
    by rewrite try_from_frame_byte. }
  rewrite Hrust. unfold readFrame.
  assert (Hgo : readByte (Source (be_bytes 1 (frame_byte ft) ++ bs) e) = (Done (frame_byte ft), Source bs e)).
  { pose proof (sim_read_byte (Source (be_bytes 1 (frame_byte ft) ++ bs) e)) as [Hs Ho].
    rewrite read_u8_app in Hs, Ho. unfold u8_wrap in Ho. rewrite Z.mod_small in Ho by apply frame_byte_range.
    destruct (readByte _) as [[z| |] s]; cbn in *; by subst. }
  rewrite (io_bind_Done _ _ _ _ _ Hgo).
  assert (Hrest : sim (length ← (b ← read_full 4; mret (be_value b));
      if length >? 64 * 1024 * 1024 then io_fail (NewError "frame too large") else
      data ← read_full length; mret (frame_byte ft, data))
    (length ← try_io read_u32;
      if length >? 64 * 1024 * 1024 then io_fail (InvalidPacket "frame too large") else
      data ← try_io (read_exact length); mret (frame_byte ft, data))).
  { unfold try_io, read_u32, read_uint. apply sim_bind; [apply sim_map_err_r; auto with sim|intros n].
    apply sim_if; [apply sim_fail|]. apply sim_bind; [apply sim_map_err_r; auto with sim|intros d; apply sim_ret]. }
  destruct (Hrest (Source bs e)) as [Hs Ho]. revert Hs Ho.
  unfold mbind, io_bind. destruct (try_io read_u32 (Source bs e)) as [[n|x|] s1]; [|done..].
  destruct (n >? _); [done|]. by destruct (try_io (read_exact n) s1) as [[d|x|] s2].
Qed.

Lemma readFrame_app ft d rest e :
  zlen d ≤ max_frame →
  readFrame (Source (frame_bytes (ft, d) ++ rest) e) = (Done (frame_byte ft, d), Source rest e).
Proof.
  intros Hd. pose proof (read_frame_same ft ((be_bytes 4 (zlen d) ++ d) ++ rest) e) as H. cbv zeta in H.
  pose proof (read_frame_app ft d rest e Hd) as Hr. unfold frame_bytes in *; cbn [fst snd] in *.
  rewrite <-!app_assoc in *. rewrite Hr in H. destruct H as [Hs Ho].
  destruct (readFrame _) as [[z| |] s]; cbn in *; by subst.
Qed.

Lemma writeFrame_open ft d w f :
  writeFrame (frame_byte ft) d (Sink w None f) = (Done tt, Sink (w ++ frame_bytes (ft, d)) None f).
Proof.
  pose proof (sim_write_frame ft d (Sink w None f)) as [Hs Ho]. rewrite write_frame_open in Hs, Ho.
  destruct (writeFrame _ _ _) as [[[]| |] s]; cbn in *; by subst.
Qed.

Section Interop.
Context `{ED : !Ed25519, CM : !CaseMapping} `{GJ : !GoJson}.

Lemma sim_authenticate seed : zlen seed = SeedSize → sim (authenticate seed) (client_authenticate seed).
Proof.
  intros Hseed. unfold authenticate, client_authenticate.
  destruct (Z.eqb_spec (zlen seed) SeedSize) as [_|]; [cbn [negb]; cbv zeta iota|done].
  apply sim_timeout_bind; [auto with sim|intros nonce]. apply sim_timeout_bind; [auto with sim|intros _].
  apply sim_timeout_bind; [auto with sim|intros _]. apply sim_flush.
  apply sim_timeout_bind; [auto with sim|intros res]. by destruct (negb _).
Qed.

Lemma authenticate_spec seed nonce b rest e w f :
  zlen seed = SeedSize → zlen nonce = NONCE_LEN → byte_Z b = 1 →
  authenticate seed (Duplex (Source (nonce ++ b :: rest) e) (Sink w None f)) =
    (Done tt, Duplex (Source rest e) (Sink (w ++ ed_public seed ++ ed_sign seed nonce) None f)).
Proof.
  intros Hseed Hn Hb.
  destruct (sim_authenticate seed Hseed (Duplex (Source (nonce ++ b :: rest) e) (Sink w None f))) as [Hs Ho].
  rewrite client_authenticate_spec, Hb in Hs, Ho by done. cbn in *.
  destruct (authenticate _ _) as [[[]| |] s]; cbn in *; by subst.
Qed.

Context {Value : Type}.
Context `{JReq : !JsonCodec (CommandRequest Value), JResp : !JsonCodec (CommandResponse Value)}.
Context `{JBoot : !JsonCodec WebRtcBootstrapPayload, JTear : !JsonCodec WebRtcTeardownPayload}.
Implicit Types (t : TunnelServer Value) (c : tclient Value) (es : list (tevent Value)).

(** The socket the server accepted from a caller that holds [seed]. *)
Definition caller (seed nonce : list byte) : duplex :=
  Duplex (Source (ed_public seed ++ ed_sign seed nonce) Open) (open_sink []).

Lemma client_connect_caller id seen t nonce seed :
  client_connect id seen t nonce (caller seed nonce) =
    if decide (admits (authenticator t) (ed_public seed))
    then Done (TClient id (Source [] Open) (open_sink (nonce ++ [x01])) CReading seen true)
    else Fail (Io (auth_error_string Unauthorized)).
Proof.
  unfold client_connect, caller. rewrite <-(app_nil_r (ed_sign seed nonce)). unfold open_sink.
  rewrite server_authenticate_spec by apply ed_public_length || apply ed_sign_length.
  rewrite server_verdict_signed. by destruct (decide _).
Qed.

(** What arrives from the caller in a run. *)
Definition arrivals es : list byte := concat (omap (λ e, match e with TArrive bs => Some bs | _ => None end) es).

(** All that is left to come and to read is the caller's one frame, or nothing. *)
Definition one_frame (d : list byte) es c : Prop :=
  (∃ r, t_phase c = CEnded r) ∨ avail (t_rd c) ++ arrivals es = frame_bytes (FCommandRequest, d)
  ∨ avail (t_rd c) ++ arrivals es = [].

Lemma frame_bytes_nonempty f bs : frame_bytes f ++ bs ≠ [].
Proof. intros H%(f_equal length). rewrite length_app in H. pose proof (length_frame_bytes f). cbn in H. lia. Qed.

Lemma frame_bytes_unique ft d ft' d' rest :
  zlen d ≤ max_frame → zlen d' ≤ max_frame →
  frame_bytes (ft', d') ++ rest = frame_bytes (ft, d) → ft' = ft ∧ d' = d ∧ rest = [].
Proof.
  intros Hd Hd' H. pose proof (read_frame_app ft' d' rest Open Hd') as H1. rewrite H in H1.
  rewrite <-(app_nil_r (frame_bytes (ft, d))), read_frame_app in H1 by done. by injection H1 as <- <- <-.
Qed.

Lemma one_frame_read d es t c t' c' :
  zlen d ≤ max_frame → one_frame d (TRead :: es) c → tstep TRead t c = Some (t', c') →
  one_frame d es c' ∧ t_wr c' = t_wr c.
Proof.
  intros Hd Hin H. cbn [tstep] in H. destruct (t_phase c) eqn:Hp; try done. unfold client_read in H.
  destruct (read_frame (t_rd c)) as [[[ft d']|e|] r] eqn:Hr; [|by injection H as <- <-; split; [left; eexists|]|done].
  apply read_frame_inv in Hr as (Hav & _ & Hd'). destruct Hin as [[? Hin]|[Hin|Hin]]; [congruence|..];
    change (arrivals (TRead :: es)) with (arrivals es) in Hin; rewrite Hav, <-app_assoc in Hin;
    [|by apply frame_bytes_nonempty in Hin].
  apply frame_bytes_unique in Hin as (-> & -> & Hrest); [|done..].
  cbn in H. destruct (from_slice d); injection H as <- <-; (split; [by right; right|done]).
Qed.

Lemma one_frame_step d e es t c t' c' :
  zlen d ≤ max_frame → one_frame d (e :: es) c → tstep e t c = Some (t', c') → one_frame d es c'.
Proof.
  intros Hd Hin H. destruct e; [by eapply one_frame_read|..]; cbn [tstep] in H.
  - destruct (t_phase c) eqn:Hp; try done. unfold client_queue in H. unfold one_frame in *. rewrite Hp in Hin.
    repeat (case_match; simplify_eq); cbn; naive_solver.
  - destruct (tr_queue _); by simplify_eq.
  - destruct (t_phase c) eqn:Hp; try done. apply bind_Some in H as (c1 & Ha & [= <- <-]).
    unfold one_frame in *. rewrite Hp in Hin. destruct r; cbn in Ha; unfold answer_frame in Ha;
      repeat (case_match; simplify_eq); cbn; naive_solver.
  - apply bind_Some in H as (c1 & Ha & [= <- <-]). unfold forward_broadcast in Ha.
    unfold one_frame in *. repeat (case_match; simplify_option_eq; simplify_eq); cbn; done.
  - by simplify_eq.
  - destruct (fin (t_rd c)); simplify_eq. unfold one_frame in *; cbn in *. by rewrite <-app_assoc.
  - unfold one_frame in *. destruct (t_phase c) eqn:Hp; simplify_eq; cbn; rewrite ?Hp in *; eauto.
Qed.

(** The caller asks once and never pings, so what it is sent are answers and
    forwarded broadcasts. *)
Lemma caller_log d es t c t' c' w f :
  zlen d ≤ max_frame → one_frame d es c → t_wr c = Sink w None f → trun es t c = Some (t', c') →
  ∃ log, t_wr c' = Sink (w ++ frames_bytes log) None f ∧ log_ok es t' c log ∧ broadcasts t `prefix_of` broadcasts t'
  ∧ Forall (λ f, f.1 = FCommandResponse ∨ f.1 = FTunnelPacket) log.
Proof.
  intros Hd. revert t c w; induction es as [|e es IH]; intros t c w Hin Hw Hr; cbn [trun] in Hr.
  { simplify_eq. exists []. change (frames_bytes []) with (@nil byte). rewrite app_nil_r.
    split_and!; [done|apply log_ok_nil|done|done]. }
  apply bind_Some in Hr as ([t1 c1] & Hs & Hr).
  destruct (tstep_emits _ _ _ _ _ _ _ Hw Hs) as (l1 & Hw1 & He & Hp1).
  pose proof (one_frame_step _ _ _ _ _ _ _ Hd Hin Hs) as Hin1.
  destruct (IH _ _ _ Hin1 Hw1 Hr) as (l2 & Hw2 & Hok & Hp2 & Hf). exists (l1 ++ l2).
  rewrite frames_bytes_app, app_assoc. split_and!; [done|eapply log_ok_cons; [done|by etrans|done]|by etrans|].
  apply Forall_app. split; [|done].
  destruct He as [|He _|r _ _|d' _ _ _]; [by constructor| |constructor; auto..].
  subst e. destruct (one_frame_read _ _ _ _ _ _ Hd Hin Hs) as [_ Hq]. rewrite Hq, Hw in Hw1.
  injection Hw1 as Hl%(f_equal length). pose proof (length_frames_bytes [(FPong, [])]) as Hl'.
  rewrite length_app in Hl. cbn [length] in Hl'. lia.
Qed.

(** What the caller makes of the frames it is sent. *)
Definition call_result (e : ending) (log : list (FrameType * list byte)) : outcome go_error go_map :=
  match log with
  | [] => Fail (Wrapped "read response" match e with Open => ErrDeadline | Closed => EOF | Broken x => NetError x end)
  | (FCommandResponse, p) :: _ => match unmarshal_map p with Ok m => Done m | Err x => Fail x end
  | (ft, _) :: _ => Fail (NewError ("unexpected frame type: 0x" +:+ hex2 (frame_byte ft)))
  end.

Lemma send_command_reads seed nonce m d log e :
  zlen seed = SeedSize → zlen nonce = NONCE_LEN → marshal_map m = Ok d →
  Forall (λ f, zlen f.2 ≤ max_frame) log →
  send_command seed m (Duplex (Source (nonce ++ [x01] ++ frames_bytes log) e) (open_sink [])) =
    (call_result e log,
     Duplex (Source (frames_bytes (tail log)) e)
       (open_sink (ed_public seed ++ ed_sign seed nonce ++ frame_bytes (FCommandRequest, d)))).
Proof.
  intros Hseed Hn Hm Hlog. unfold send_command, open_sink, wrap. cbn [app].
  erewrite io_bind_Done by (apply io_map_err_Done, (authenticate_spec _ nonce x01 _ e [] None); done).
  erewrite io_bind_Done by (unfold io_lift; rewrite Hm; done).
  erewrite io_bind_Done.
  2:{ apply io_map_err_Done. unfold on_wr; cbn [wr rd].
      by rewrite (writeFrame_open FCommandRequest). }
  cbn [app]. rewrite <-(app_assoc (ed_public seed)). destruct log as [|[ft p] log].
  - unfold mbind, io_bind, io_map_err, deadline, on_rd; cbn. by destruct e.
  - apply Forall_cons in Hlog as [Hp _]. rewrite frames_bytes_cons.
    erewrite io_bind_Done.
    2:{ apply io_map_err_Done. unfold deadline, on_rd; cbn [rd wr]. by rewrite readFrame_app. }
    destruct ft; try done. cbn. unfold io_lift. by destruct (unmarshal_map p).
Qed.

Lemma log_ok_sizes es t' c log :
  log_ok es t' c log → Forall (λ f, f.1 = FCommandResponse ∨ f.1 = FTunnelPacket) log →
  Forall (λ a, zlen (to_vec a) ≤ max_frame) (answers es) → Forall (λ b, zlen b ≤ max_frame) (broadcasts t') →
  Forall (λ f, zlen f.2 ≤ max_frame) log.
Proof.
  intros [Ha Hb] Hf Hsa Hsb. apply Forall_forall. intros [ft p] Hin.
  assert (Hof : p ∈ of_type ft log).
  { unfold of_type. apply list_elem_of_fmap. exists (ft, p). split; [done|]. by apply list_elem_of_filter. }
  rewrite Forall_forall in Hf. rewrite Forall_forall in Hsa. rewrite Forall_forall in Hsb. destruct (Hf _ Hin) as [Hft|Hft]; cbn in Hft; subst ft.
  - rewrite Ha in Hof. apply list_elem_of_fmap in Hof as (a & -> & Hin'). by apply Hsa.
  - apply Hsb. eapply subseteq_drop, elem_of_sublist; [exact Hof|done].
Qed.

(** The caller's half of a trigger, and the server's: one frame, and the end. *)
Lemma trigger_sent ctx1 ctx2 seed nonce ft data e :
  zlen seed = SeedSize → zlen nonce = NONCE_LEN →
  (wrap ctx1 (authenticate seed);; wrap ctx2 (on_wr (writeFrame (frame_byte ft) data)))
    (Duplex (Source (nonce ++ [x01]) e) (open_sink [])) =
  (Done tt, Duplex (Source [] e) (open_sink ((ed_public seed ++ ed_sign seed nonce) ++ frame_bytes (ft, data)))).
Proof.
  intros Hseed Hn. unfold wrap, open_sink.
  erewrite io_bind_Done by (apply io_map_err_Done, (authenticate_spec _ nonce x01 _ e [] None); done).
  apply io_map_err_Done. unfold on_wr; cbn [wr rd]. by rewrite writeFrame_open.
Qed.

(** The session of a caller that sends [sent] and hangs up. *)
Definition served (id seen : nat) (seed nonce sent : list byte) t t' : Prop :=
  ∃ s w c', server_authenticate (authenticator t) nonce
      (Duplex (Source ((ed_public seed ++ ed_sign seed nonce) ++ sent) Closed) (open_sink [])) =
      (Done (public_key_hex seed), Duplex s w)
  ∧ trun [TRead; TRead] t (TClient id s w CReading seen true) = Some (t', c') ∧ t_phase c' = CEnded (Ok tt).

Lemma trigger_served id seen seed nonce ft data t t' :
  admits (authenticator t) (ed_public seed) → zlen data ≤ max_frame →
  (∀ c, client_frame (ft, data) t c = Some (t', c)) →
  served id seen seed nonce (frame_bytes (ft, data)) t t'.
Proof.
  intros Hadm Hd Hf. unfold served, open_sink. rewrite <-app_assoc.
  rewrite server_authenticate_spec by apply ed_public_length || apply ed_sign_length.
  rewrite server_verdict_signed. destruct (decide _) as [_|]; [|done]. eexists _, _, _. split; [done|].
  cbn [trun tstep t_phase]. unfold client_read; cbn [t_rd].
  rewrite <-(app_nil_r (frame_bytes _)), read_frame_app, Hf by done. cbn. by split.
Qed.

(** ** Claims *)

(** C35: the Go side of the wire is the Rust side.  On every connection, with every
    outcome of its reads and writes, Go's [authenticate] leaves it as Rust's client
    does and succeeds, fails and sends alike; so does [writeFrame]; and [readFrame]
    agrees with [read_frame] on every stream that starts with a type byte Rust
    knows.  (On other type bytes Rust fails at once and Go reads the frame.) *)
Theorem go_wire_equiv seed (Hseed : zlen seed = SeedSize) :
  sim (authenticate seed) (client_authenticate seed)
  ∧ (∀ ft data, sim (writeFrame (frame_byte ft) data) (write_frame ft data))
  ∧ (∀ ft bs e, let s := Source (be_bytes 1 (frame_byte ft) ++ bs) e in
       (readFrame s).2 = (read_frame s).2 ∧ same_outcome (readFrame s).1 (untyped (read_frame s).1)).
Proof. split_and!; [by apply sim_authenticate|apply sim_write_frame|apply read_frame_same]. Qed.

(** C36: what a command call of the platform comes back with.  The Go caller
    and the Rust server joined by a connection, whatever else the server does
    meanwhile: what the caller is sent are answers to it and broadcasts, and its
    result is decided by the first of these alone.  It is the application's answer
    if that comes first; an error, though the command is being carried out, if a
    broadcast does; and an error if nothing comes. *)
Theorem send_command_exchange seed nonce m d id seen t c es t' c' e :
  zlen seed = SeedSize → zlen nonce = NONCE_LEN → marshal_map m = Ok d → zlen d ≤ max_frame →
  client_connect id seen t nonce (caller seed nonce) = Done c →
  trun es t c = Some (t', c') → arrivals es = frame_bytes (FCommandRequest, d) →
  Forall (λ a, zlen (to_vec a) ≤ max_frame) (answers es) → Forall (λ b, zlen b ≤ max_frame) (broadcasts t') →
  ∃ log r rest, send_command seed m (Duplex (Source (written (t_wr c')) e) (open_sink [])) =
    (r, Duplex rest (open_sink (ed_public seed ++ ed_sign seed nonce ++ arrivals es)))
  ∧ written (t_wr c') = nonce ++ [x01] ++ frames_bytes log
  ∧ match log with
    | (FCommandResponse, p) :: _ =>
        ∃ a as', answers es = a :: as' ∧ p = to_vec a
        ∧ r = match unmarshal_map (to_vec a) with Ok m => Done m | Err x => Fail x end
    | (FTunnelPacket, p) :: _ =>
        p ∈ drop seen (broadcasts t') ∧ r = Fail (NewError "unexpected frame type: 0x01")
    | _ :: _ => False
    | [] => answers es = [] ∧ ∃ x, r = Fail (Wrapped "read response" x)
    end.
Proof.
  intros Hseed Hn Hm Hd Hconn Hr Harr Hsa Hsb. rewrite client_connect_caller in Hconn.
  destruct (decide _) as [_|_]; [|done]. injection Hconn as <-.
  destruct (caller_log d es t (TClient id (Source [] Open) (open_sink (nonce ++ [x01])) CReading seen true) t' c'
    (nonce ++ [x01]) None Hd) as (log & Hw & Hok & _ & Hf); [|done|done|].
  { right; left. by rewrite Harr. }
  pose proof (log_ok_sizes _ _ _ _ Hok Hf Hsa Hsb) as Hsizes.
  exists log, (call_result e log), (Source (frames_bytes (tail log)) e).
  rewrite Hw, Harr; cbn [written]. rewrite <-app_assoc. split_and!; [by apply send_command_reads|done|].
  destruct Hok as [Ha Hb]. destruct log as [|[ft p] log]; cbn [of_type call_result] in *.
  - split; [|by eexists]. cbn in Ha. symmetry in Ha. by apply fmap_nil_inv in Ha.
  - apply Forall_cons in Hf as [Hft _]. cbn in Hft. destruct Hft as [-> | ->]; cbn in *.
    + destruct (answers es) as [|a as']; [done|]. injection Ha as -> _. by exists a, as'.
    + split; [|done]. eapply elem_of_sublist; [|exact Hb]. by left.
Qed.

(** A command call is served.  Against a server that admits the key, whose
    application takes commands and has room for one, and whose [serde_json] reads
    the request: the caller's frame puts exactly this request, with the way back to
    this caller, at the end of the application's queue; and whenever the
    application then answers, the call returns the answer. *)
Theorem send_command_served seed nonce m d req id seen t e :
  zlen seed = SeedSize → zlen nonce = NONCE_LEN → marshal_map m = Ok d → zlen d ≤ max_frame → from_slice d = Some req →
  admits (authenticator t) (ed_public seed) →
  tr_open (command_tx t) = true → (length (tr_queue (command_tx t)) < tr_cap (command_tx t))%nat →
  ∃ c t1 c1, client_connect id seen t nonce (caller seed nonce) = Done c
  ∧ trun [TArrive (frame_bytes (FCommandRequest, d)); TRead; TQueue] t c = Some (t1, c1)
  ∧ tr_queue (command_tx t1) = tr_queue (command_tx t) ++ [{| request := req; response_tx := id |}]
  ∧ ∀ a, zlen (to_vec a) ≤ max_frame →
      ∃ c2 d2, tstep (TAnswer (Some a)) t1 c1 = Some (t1, c2)
      ∧ send_command seed m (Duplex (Source (written (t_wr c2)) e) (open_sink [])) =
          (match unmarshal_map (to_vec a) with Ok m => Done m | Err x => Fail x end, d2).
Proof.
  intros Hseed Hn Hm Hd Hreq Hadm Hopen Hroom. rewrite client_connect_caller.
  destruct (decide _) as [_|]; [|done]. eexists _, _, _. split; [done|].
  cbn [trun tstep t_rd fin t_phase avail app mbind option_bind].
  unfold client_read; cbn [t_rd]. rewrite <-(app_nil_r (frame_bytes _)), read_frame_app by done.
  cbn [client_frame]. rewrite Hreq. cbn [mbind option_bind at_phase t_phase]. unfold client_queue. rewrite Hopen.
  destruct (Nat.ltb_spec (length (tr_queue (command_tx t))) (tr_cap (command_tx t))); [|lia].
  cbn [mbind option_bind at_phase t_phase]. split; [done|]. split; [done|].
  intros a Ha. eexists _, _. split.
  { cbn -[write_frame]. unfold answer_frame, open_sink; cbn -[write_frame]. by rewrite write_frame_open. }
  cbn [t_wr written]. rewrite <-app_assoc, <-(app_nil_r (frame_bytes _)).
  apply (send_command_reads seed nonce m d [(FCommandResponse, to_vec a)] e); [done..|by constructor].
Qed.

(** A trigger of the platform reaches the agent.  Against a server that admits
    the key, [TriggerWebRtcBootstrap] succeeds, and what it sends makes the server
    offer exactly this payload, with what Go leaves out as [None], to the
    application, before the end of the connection ends the session without an
    error; the same for [TriggerWebRtcTeardown]. *)
Theorem triggers_delivered `{!JsonInterop} seed nonce p q id seen t e :
  zlen seed = SeedSize → zlen nonce = NONCE_LEN → admits (authenticator t) (ed_public seed) →
  payload_wf p → zlen (marshal_bootstrap p) ≤ max_frame →
  str_wf (TeardownBootstrapID q) → zlen (marshal_teardown q) ≤ max_frame →
  let conn := Duplex (Source (nonce ++ [x01]) e) (open_sink []) in
  let hello := ed_public seed ++ ed_sign seed nonce in
  (∀ tx, webrtc_trigger t = Some tx → ∃ sent d',
     trigger_bootstrap seed p conn = (Done tt, Duplex d' (open_sink (hello ++ sent)))
     ∧ served id seen seed nonce sent t (set_webrtc_trigger (try_send (rust_bootstrap p) tx) t))
  ∧ (∀ tx, webrtc_teardown t = Some tx → ∃ sent d',
     trigger_teardown seed q conn = (Done tt, Duplex d' (open_sink (hello ++ sent)))
     ∧ served id seen seed nonce sent t (set_webrtc_teardown (try_send (rust_teardown q) tx) t)).
Proof.
  intros Hseed Hn Hadm Hp Hpl Hq Hql. cbv zeta.
  split; intros tx Htx; eexists _, _; split.
  - by apply (trigger_sent _ _ seed nonce FWebRtcBootstrap).
  - apply trigger_served; [done..|]. intros c; cbn. by rewrite Htx, bootstrap_interop.
  - by apply (trigger_sent _ _ seed nonce FWebRtcTeardown).
  - apply trigger_served; [done..|]. intros c; cbn. rewrite Htx. rewrite bool_decide_eq_false_2 by apply teardown_nonempty. by rewrite teardown_interop.
Qed.
End Interop.

(** ** Witnesses *)

Section Witnesses.
#[local] Existing Instance toy_ed25519.
#[local] Existing Instance ascii_case_mapping.
#[local] Existing Instance command_codec.
#[local] Existing Instance response_codec.
#[local] Existing Instance bootstrap_codec.

(** An object is never the empty text. *)
Definition object_codec : JsonCodec WebRtcTeardownPayload.
Proof.
  refine {| to_vec r := x7b :: bits_bytes (encode (teardown_bootstrap_id r));
            from_slice bs := match bs with
              | x7b :: bs => (λ i, {| teardown_bootstrap_id := i |}) <$> decode (bytes_bits bs) | _ => None end |}.
  intros [i]. by rewrite bytes_bits_bytes, decode_encode.
Defined.
#[local] Existing Instance object_codec.

(** A [map[string]interface{}] that is kept as its text. *)
Definition toy_go_json : GoJson :=
  {| go_map := list byte; marshal_map := Ok; unmarshal_map := Ok;
     marshal_bootstrap p := to_vec (rust_bootstrap p); marshal_teardown p := to_vec (rust_teardown p) |}.
#[local] Existing Instance toy_go_json.

Lemma toy_interop : JsonInterop.
Proof. split; intros p; [intros _; apply from_slice_to_vec..|done]. Qed.
#[local] Existing Instance toy_interop.

Definition toy_seed : list byte := replicate 32 x01.

Lemma go_wire_equiv_witness :
  authenticate toy_seed (Duplex (Source (toy_nonce ++ [x00]) Open) (open_sink [])) =
    (Fail (NewError "unauthorized by agent"),
     Duplex (Source [] Open) (open_sink (ed_public toy_seed ++ ed_sign toy_seed toy_nonce)))
  ∧ sim (authenticate toy_seed) (client_authenticate toy_seed).
Proof. split; [vm_compute; reflexivity|]. apply (go_wire_equiv toy_seed). reflexivity. Defined.

Definition pong_call : @go_map toy_go_json := to_vec pong_request.

(** The call whose answer a broadcast overtakes. *)
Definition overtaken : list (tevent unit) :=
  [TArrive (frame_bytes (FCommandRequest, to_vec pong_request)); TRead; TQueue; TTake;
   TBroadcast [x07]; TForward; TAnswer (Some pong_answer)].
Definition caller_client : tclient unit :=
  TClient 0 (Source [] Open) (open_sink (toy_nonce ++ [x01])) CReading 0 true.
Definition overtaken_end : TunnelServer unit * tclient unit :=
  default (demo_server, caller_client) (trun overtaken demo_server caller_client).

Lemma send_command_exchange_witness :
  (send_command toy_seed pong_call
     (Duplex (Source (written (t_wr overtaken_end.2)) Open) (open_sink []))).1
    = Fail (NewError "unexpected frame type: 0x01")
  ∧ answers overtaken = [pong_answer]
  ∧ ∃ log, written (t_wr overtaken_end.2) = toy_nonce ++ [x01] ++ frames_bytes log.
Proof.
  split; [vm_compute; reflexivity|]. split; [reflexivity|].
  destruct (send_command_exchange (Value := unit) toy_seed toy_nonce pong_call (to_vec pong_request) 0 0
    demo_server caller_client overtaken overtaken_end.1 overtaken_end.2 Open) as (log & _ & _ & _ & Hw & _);
    [..|exists log; exact Hw];
    first [apply (bool_decide_eq_true_1 _); vm_compute; reflexivity | vm_compute; reflexivity].
Defined.

Lemma send_command_served_witness :
  ∃ c t1 c1, client_connect 0 0 demo_server toy_nonce (caller toy_seed toy_nonce) = Done c
  ∧ trun [TArrive (frame_bytes (FCommandRequest, to_vec pong_request)); TRead; TQueue] demo_server c = Some (t1, c1)
  ∧ ∃ c2 d2, tstep (TAnswer (Some pong_answer)) t1 c1 = Some (t1, c2)
    ∧ send_command toy_seed pong_call (Duplex (Source (written (t_wr c2)) Open) (open_sink [])) =
        (Done (to_vec pong_answer : @go_map toy_go_json), d2).
Proof.
  destruct (send_command_served (Value := unit) toy_seed toy_nonce pong_call (to_vec pong_request) pong_request
    0 0 demo_server Open) as (c & t1 & c1 & Hc & Hr & _ & Ha);
    [first [apply (bool_decide_eq_true_1 _); vm_compute; reflexivity | vm_compute; reflexivity]..|].
  exists c, t1, c1. split; [exact Hc|]. split; [exact Hr|]. apply (Ha pong_answer).
  apply (bool_decide_eq_true_1 _); vm_compute; reflexivity.
Defined.

Definition demo_payload : GoBootstrapPayload :=
  {| BootstrapID := "b1"; CliPublicIP := "1.2.3.4"; CliLanCIDR := ""; RouteType := "" |}.
Definition trigger_server : TunnelServer unit := set_webrtc_trigger (Trigger [] 1 true) demo_server.

Lemma triggers_delivered_witness :
  ∃ sent d',
    trigger_bootstrap toy_seed demo_payload (Duplex (Source (toy_nonce ++ [x01]) Open) (open_sink [])) =
      (Done tt, Duplex d' (open_sink ((ed_public toy_seed ++ ed_sign toy_seed toy_nonce) ++ sent)))
    ∧ served 0 0 toy_seed toy_nonce sent trigger_server
        (set_webrtc_trigger (Trigger [{| bootstrap_id := "b1"; cli_public_ip := Some "1.2.3.4"; cli_lan_cidr := None;
                                         route_type := None |}] 1 true) trigger_server).
Proof.
  destruct (triggers_delivered (Value := unit) toy_seed toy_nonce demo_payload {| TeardownBootstrapID := "" |} 0 0
    trigger_server Open) as [H _];
    [first [apply (bool_decide_eq_true_1 _); vm_compute; reflexivity | vm_compute; reflexivity
           | repeat split; vm_compute; reflexivity]..|].
  apply (H (Trigger [] 1 true)). reflexivity.
Defined.
End Witnesses.
