(* ===== verification/GoClient.v ===== *)
(** * The Go client library (clients/go/roboat/client.go)

    The agent's end of the IPC socket: writing requests, the receive loop that
    dispatches the daemon's messages to streams, dials and the channel of incoming
    streams, and what an application gets from its streams.  With Node.v below it the
    theorems reach from one application to the other.

    A message is a JSON object ([map[string]any]); [daemon_object] is the object that
    serde writes for a [DaemonMsg] and [agent_of_object] what it makes of an object an
    agent sends, by the attributes in ipc.rs.  Text to object and back is [encoding/json],
    the interface [GoObjects]; numbers are integers, as the daemon writes no others.
    [readMsg] returns the object as it is after [json.Unmarshal] filled it in, which is
    how the Go compiler orders the two.  A channel of Go holds up to its capacity; a send on a
    full one waits.  [sync.Map]s and channels are only touched by the receive loop and
    by the application's calls, each in one step. *)

From Stdlib Require Import Ascii String.
From S2P Require Import Prelude Text Stream Protocol Auth Ipc Mux Resolver Manager Daemon Delivery Server Owner Node Tunnel Bootstrap.

(** ** Objects *)

Inductive jval : Type :=
| JString (s : string)
| JNumber (z : Z)
| JOther.

#[export] Instance jval_eq : EqDecision jval.
Proof. solve_decision. Defined.

Abbreviation object := (gmap string jval).

Definition class_name (c : StreamClass) : string :=
  match c with Control => "control" | Meta => "meta" | Bulk => "bulk" end.
Definition class_of_name (s : string) : option StreamClass :=
  if bool_decide (s = "control") then Some Control else if bool_decide (s = "meta") then Some Meta
  else if bool_decide (s = "bulk") then Some Bulk else None.

(** A field that is left out when it is [None]. *)
Definition opt_field (k : string) (v : option string) (o : object) : object :=
  match v with Some s => <[k := JString s]> o | None => o end.

(** The object serde writes: the tag [op] and the variant's fields. *)
Definition daemon_object (m : DaemonMsg) : object :=
  match m with
  | Listening a => {["op" := JString "listening"; "agent_id" := JString a]}
  | Connected sid t r =>
      opt_field "request_id" r {["op" := JString "connected"; "stream_id" := JNumber sid; "target_agent_id" := JString t]}
  | Incoming sid f c =>
      {["op" := JString "incoming"; "stream_id" := JNumber sid; "from_agent_id" := JString f; "class" := JString (class_name c)]}
  | Recv sid d => {["op" := JString "recv"; "stream_id" := JNumber sid; "data" := JString d]}
  | MsgClosed sid r => opt_field "reason" r {["op" := JString "closed"; "stream_id" := JNumber sid]}
  | Pong => {["op" := JString "pong"]}
  | MsgError c t r => opt_field "request_id" r {["op" := JString "error"; "code" := JString c; "message" := JString t]}
  end.

Definition get_string (k : string) (o : object) : option string :=
  match o !! k with Some (JString s) => Some s | _ => None end.
Definition get_u32 (k : string) (o : object) : option Z :=
  match o !! k with Some (JNumber z) => if (0 <=? z) && (z <? 2 ^ 32) then Some z else None | _ => None end.
(** A missing optional field is [None]; one of another type is an error. *)
Definition get_opt (k : string) (o : object) : option (option string) :=
  match o !! k with Some (JString s) => Some (Some s) | None => Some None | _ => None end.

(** What serde makes of an agent's object. *)
Definition agent_of_object (o : object) : option AgentMsg :=
  op ← get_string "op" o;
  if bool_decide (op = "listen") then
    a ← get_string "agent_id" o; t ← get_opt "registry_token" o; e ← get_opt "tunnel_endpoint" o; Some (Listen a t e)
  else if bool_decide (op = "unlisten") then Some Unlisten
  else if bool_decide (op = "dial") then
    t ← get_string "target_agent_id" o;
    c ← match o !! "stream_class" with None => Some default_class | Some (JString s) => class_of_name s | _ => None end;
    r ← get_opt "request_id" o; Some (Dial t c r)
  else if bool_decide (op = "send") then sid ← get_u32 "stream_id" o; d ← get_string "data" o; Some (Send sid d)
  else if bool_decide (op = "close") then sid ← get_u32 "stream_id" o; Some (Close sid)
  else if bool_decide (op = "ping") then Some Ping
  else None.

Definition jval_wf (v : jval) : Prop := match v with JString s => str_wf s | _ => True end.
Definition object_wf (o : object) : Prop := map_Forall (λ k v, str_wf k ∧ jval_wf v) o.

#[export] Instance jval_wf_dec v : Decision (jval_wf v).
Proof. destruct v; apply _. Defined.
#[export] Instance object_wf_dec o : Decision (object_wf o).
Proof. unfold object_wf, str_wf. apply _. Defined.

(** The Go library: [json.Marshal] and [json.Unmarshal] of a [map[string]any], the
    bytes that base64's [DecodeString] returns along with an error, and the format
    [%v] of a value that may be missing. *)
Class GoObjects : Type := {
  marshal : object → list byte;
  unmarshal : list byte → option object;
  decoded_part : string → list byte;
  format_v : option jval → string;
}.

(** What they promise, with [serde_json] at the other end and for valid strings. *)
Class ObjectInterop `{GoObjects} `{JA : !JsonCodec AgentMsg, JD : !JsonCodec DaemonMsg} : Prop := {
  marshal_interop o : object_wf o → from_slice (marshal o) = agent_of_object o;
  unmarshal_interop m : object_wf (daemon_object m) → unmarshal (to_vec m) = Some (daemon_object m);
  format_string t : format_v (Some (JString t)) = t;
}.

(** ** The client *)

Definition maxMsgSize : Z := 4 * 1024 * 1024.
Definition queue_cap : nat := 64.

(** [taken]: what the application has received on the stream. *)
Record gstream : Type := GStream {
  StreamID : Z;
  Class : string;
  FromAgentID : string;
  recvQueue : list (list byte);
  queue_closed : bool;
  taken : list (list byte);
}.

Inductive dial_result : Type :=
| GotStream (n : nat)
| GotError (msg : string).

(** [stream_objs]: the [Stream] values, by number; [results]: what the channels of
    the dials that are no longer pending hold; [sent]: the objects written. *)
Record client : Type := Client {
  stream_objs : gmap nat gstream;
  next_obj : nat;
  c_streams : gmap Z nat;
  pending : gset string;
  results : gmap string dial_result;
  incoming_chan : list nat;
  nextReqID : Z;
  sent : list object;
}.

(** [NewDaemon] on a connection. *)
Definition new_client : client := Client ∅ 0 ∅ ∅ ∅ [] 0 [].

Section Client.
Context `{GO : !GoObjects, B64 : !Base64}.
(** [writeMsg] and [readMsg] *)
Definition writeMsg (obj : object) : io sink go_error unit :=
  let payload := marshal obj in
  conn_write (be_bytes 4 (u32_wrap (zlen payload)));;
  conn_write payload.

Definition readMsg : io source go_error object :=
  header ← read_full 4;
  let length := be_value header in
  if length >? maxMsgSize then io_fail (NewError ("roboat: message too large: " +:+ decimal length)) else
  buf ← read_full length;
  match unmarshal buf with Some msg => mret msg | None => io_fail (NewError "json") end.

(** [recvLoop]: what it dispatches until it ends or waits. *)
Fixpoint recv_loop_fuel (fuel : nat) (s : source) : list object * outcome go_error unit :=
  match fuel with
  | O => ([], Pending)
  | S fuel =>
      match readMsg s with
      | (Done m, s') => let '(ms, r) := recv_loop_fuel fuel s' in (m :: ms, r)
      | (Fail e, _) => ([], Fail e)
      | (Pending, _) => ([], Pending)
      end
  end.
Definition recvLoop (s : source) := recv_loop_fuel (S (length (avail s))) s.

Definition mustFloat (k : string) (o : object) : Z := match o !! k with Some (JNumber z) => z | _ => 0 end.
Definition mustString (k : string) (o : object) : string := match o !! k with Some (JString s) => s | _ => "" end.
Definition stream_id_of (o : object) : Z := u32_wrap (mustFloat "stream_id" o).

Definition set_obj (n : nat) (s : gstream) (c : client) : client :=
  Client (<[n := s]> (stream_objs c)) (next_obj c) (c_streams c) (pending c) (results c) (incoming_chan c) (nextReqID c) (sent c).
(** A new [Stream], stored under its number. *)
Definition store_stream (sid : Z) (class from : string) (c : client) : nat * client :=
  (next_obj c,
   Client (<[next_obj c := GStream sid class from [] false []]> (stream_objs c)) (S (next_obj c))
     (<[sid := next_obj c]> (c_streams c)) (pending c) (results c) (incoming_chan c) (nextReqID c) (sent c)).
Definition resolve_dial (reqID : string) (r : dial_result) (c : client) : client :=
  if bool_decide (reqID ∈ pending c)
  then Client (stream_objs c) (next_obj c) (c_streams c) (pending c ∖ {[reqID]}) (<[reqID := r]> (results c))
         (incoming_chan c) (nextReqID c) (sent c)
  else c.

Definition decode_data (data : string) : list byte :=
  match b64_decode data with Ok bs => bs | Err _ => decoded_part data end.

(** [dispatch]; [None] when it waits for room in a channel. *)
Definition dispatch (msg : object) (c : client) : option client :=
  let op := mustString "op" msg in
  let sid := stream_id_of msg in
  if bool_decide (op = "recv") then
    match n ← c_streams c !! sid; s ← stream_objs c !! n; Some (n, s) with
    | None => Some c
    | Some (n, s) =>
        if (length (recvQueue s) <? queue_cap)%nat
        then Some (set_obj n (GStream (StreamID s) (Class s) (FromAgentID s)
                     (recvQueue s ++ [decode_data (mustString "data" msg)]) (queue_closed s) (taken s)) c)
        else None
    end
  else if bool_decide (op = "incoming") then
    if (length (incoming_chan c) <? queue_cap)%nat then
      let '(n, c) := store_stream sid (mustString "class" msg) (mustString "from_agent_id" msg) c in
      Some (Client (stream_objs c) (next_obj c) (c_streams c) (pending c) (results c) (incoming_chan c ++ [n])
              (nextReqID c) (sent c))
    else None
  else if bool_decide (op = "connected") then
    let '(n, c) := store_stream sid "control" (mustString "target_agent_id" msg) c in
    Some (resolve_dial (mustString "request_id" msg) (GotStream n) c)
  else if bool_decide (op = "closed") then
    match n ← c_streams c !! sid; s ← stream_objs c !! n; Some (n, s) with
    | None => Some c
    | Some (n, s) =>
        let c := set_obj n (GStream (StreamID s) (Class s) (FromAgentID s) (recvQueue s) true (taken s)) c in
        Some (Client (stream_objs c) (next_obj c) (delete sid (c_streams c)) (pending c) (results c) (incoming_chan c)
                (nextReqID c) (sent c))
    end
  else if bool_decide (op = "error") then
    Some (resolve_dial (mustString "request_id" msg) (GotError (format_v (msg !! "message"))) c)
  else Some c.

(** ** The application's calls *)

Definition add_sent (o : object) (c : client) : client :=
  Client (stream_objs c) (next_obj c) (c_streams c) (pending c) (results c) (incoming_chan c) (nextReqID c) (sent c ++ [o]).

(** [Dial] up to its wait, for a write that succeeds ([ok]) or not: the request. *)
Definition Dial_begin (targetAgentID streamClass : string) (ok : bool) (c : client) : option string * client :=
  let streamClass := if bool_decide (streamClass = "") then "control" else streamClass in
  let n := u64_wrap (nextReqID c + 1) in
  let reqID := "r" +:+ decimal n in
  let c' := Client (stream_objs c) (next_obj c) (c_streams c) ({[reqID]} ∪ pending c) (results c) (incoming_chan c) n (sent c) in
  if ok then
    (Some reqID,
     add_sent {["op" := JString "dial"; "target_agent_id" := JString targetAgentID;
                "stream_class" := JString streamClass; "request_id" := JString reqID]} c')
  else
    (None, Client (stream_objs c') (next_obj c') (c_streams c') (pending c' ∖ {[reqID]}) (results c') (incoming_chan c')
             (nextReqID c') (sent c')).

(** [Listen]: the request it writes, and what it makes of the object it reads next.
    That read goes to the socket alongside the receive loop's. *)
Definition Listen_request (agentID registryToken : string) : object :=
  let msg := {["op" := JString "listen"; "agent_id" := JString agentID]} in
  if bool_decide (registryToken ≠ "") then <["registry_token" := JString registryToken]> msg else msg.
Definition listen_result (resp : object) : option go_error :=
  if bool_decide (resp !! "op" = Some (JString "error"))
  then Some (NewError ("roboat: listen: " +:+ format_v (resp !! "message")))
  else if bool_decide (resp !! "op" ≠ Some (JString "listening"))
  then Some (NewError ("roboat: unexpected response: " +:+ format_v (resp !! "op")))
  else None.

(** [Stream.Send] and [Stream.Close]: the request written. *)
Definition Stream_Send (s : gstream) (data : list byte) : object :=
  {["op" := JString "send"; "stream_id" := JNumber (StreamID s); "data" := JString (b64_encode data)]}.
Definition Stream_Close (s : gstream) : object :=
  {["op" := JString "close"; "stream_id" := JNumber (StreamID s)]}.

(** [Stream.Recv]: the next data, or [io.EOF] ([Some None]) once the stream is
    closed; [None] while it waits. *)
Definition Stream_Recv (n : nat) (c : client) : option (option (list byte) * client) :=
  s ← stream_objs c !! n;
  match recvQueue s with
  | x :: q =>
      Some (Some x, set_obj n (GStream (StreamID s) (Class s) (FromAgentID s) q (queue_closed s) (taken s ++ [x])) c)
  | [] => if queue_closed s then Some (None, c) else None
  end.

(** The next stream from [Incoming]. *)
Definition next_incoming (c : client) : option (nat * client) :=
  match incoming_chan c with
  | n :: q => Some (n, Client (stream_objs c) (next_obj c) (c_streams c) (pending c) (results c) q (nextReqID c) (sent c))
  | [] => None
  end.

(** ** Runs *)

Inductive cevent : Type :=
| GDispatch (msg : object)
| GListen (agentID registryToken : string)
| GDial (target class : string) (ok : bool)
| GSend (n : nat) (data : list byte)
| GClose (n : nat)
| GRecv (n : nat)
| GIncoming.

Definition cstep (e : cevent) (c : client) : option client :=
  match e with
  | GDispatch msg => dispatch msg c
  | GListen a t => Some (add_sent (Listen_request a t) c)
  | GDial t k ok => Some (Dial_begin t k ok c).2
  | GSend n data => s ← stream_objs c !! n; Some (add_sent (Stream_Send s data) c)
  | GClose n => s ← stream_objs c !! n; Some (add_sent (Stream_Close s) c)
  | GRecv n => snd <$> Stream_Recv n c
  | GIncoming => snd <$> next_incoming c
  end.

Fixpoint crun (es : list cevent) (c : client) : option client :=
  match es with [] => Some c | e :: es => c' ← cstep e c; crun es c' end.
End Client.

(** ** Objects: lemmas *)

(** The parts of a daemon's message that the client looks at. *)
Definition msg_op (m : DaemonMsg) : string :=
  match m with
  | Listening _ => "listening" | Connected _ _ _ => "connected" | Incoming _ _ _ => "incoming" | Recv _ _ => "recv"
  | MsgClosed _ _ => "closed" | Pong => "pong" | MsgError _ _ _ => "error"
  end.
Definition msg_sid (m : DaemonMsg) : option Z :=
  match m with
  | Connected s _ _ | Incoming s _ _ | Recv s _ | MsgClosed s _ => Some s
  | Listening _ | Pong | MsgError _ _ _ => None
  end.
(** A stream number is 32 bits wide. *)
Definition sid_wf (m : DaemonMsg) : Prop := match msg_sid m with Some s => 0 ≤ s < 2 ^ 32 | None => True end.

Ltac each_message m := destruct m as [a|s t [r|]|s f c|s d|s [r|]| |c t [r|]].

Lemma object_op m : mustString "op" (daemon_object m) = msg_op m.
Proof. each_message m; reflexivity. Qed.

Lemma object_sid m : mustFloat "stream_id" (daemon_object m) = default 0 (msg_sid m).
Proof. each_message m; reflexivity. Qed.

Lemma object_stream_id m s : sid_wf m → msg_sid m = Some s → stream_id_of (daemon_object m) = s.
Proof.
  unfold sid_wf, stream_id_of. intros Hm Hs. rewrite Hs in Hm. rewrite object_sid, Hs. apply Z.mod_small. exact Hm.
Qed.

Lemma object_data sid d : mustString "data" (daemon_object (Recv sid d)) = d.
Proof. reflexivity. Qed.

(** ** Streams: lemmas *)

Section Streams.
Context `{GO : !GoObjects, B64 : !Base64}.
Implicit Types (c : client) (es : list cevent).

(** Every stored stream is a [Stream] of that number, still open. *)
Definition client_wf c : Prop :=
  ∀ sid n, c_streams c !! sid = Some n →
    (n < next_obj c)%nat ∧ ∃ s, stream_objs c !! n = Some s ∧ StreamID s = sid ∧ queue_closed s = false.

Lemma new_client_wf : client_wf new_client.
Proof. intros sid n. unfold new_client; cbn [c_streams]. by rewrite lookup_empty. Qed.

Lemma set_obj_wf n s s' c :
  client_wf c → stream_objs c !! n = Some s → StreamID s' = StreamID s → queue_closed s' = queue_closed s →
  client_wf (set_obj n s' c).
Proof.
  intros Hwf Hn Hid Hq sid k Hk. destruct (Hwf sid k Hk) as (Hlt & s0 & H0 & Hs0 & Hc0). split; [done|]. cbn.
  destruct (decide (n = k)) as [<-|Hne].
  - rewrite lookup_insert_eq. exists s'. rewrite Hn in H0. injection H0 as <-. split_and!; congruence.
  - rewrite lookup_insert_ne by done. eauto.
Qed.

Lemma store_wf sid class from c n c' : client_wf c → store_stream sid class from c = (n, c') → client_wf c'.
Proof.
  intros Hwf [= <- <-] sid' k; cbn. rewrite lookup_insert_Some. intros [[<- <-]|[Hne Hk]].
  - split; [lia|]. rewrite lookup_insert_eq. eauto.
  - destruct (Hwf sid' k Hk) as (Hlt & s0 & H0 & Hs0 & Hc0). split; [lia|]. rewrite lookup_insert_ne by lia. eauto.
Qed.

Lemma resolve_wf r x c : client_wf c → client_wf (resolve_dial r x c).
Proof. unfold resolve_dial. by case_bool_decide. Qed.

Lemma dispatch_wf m c c' : client_wf c → dispatch m c = Some c' → client_wf c'.
Proof.
  intros Hwf. unfold dispatch. repeat (case_bool_decide as E; clear E).
  - destruct (c_streams c !! _) as [n|] eqn:Hn; cbn; [|by intros [= <-]].
    destruct (stream_objs c !! n) as [s|] eqn:Hs; cbn; [|by intros [= <-]]. case_match; [|done]. intros [= <-].
    by eapply set_obj_wf.
  - case_match; [|done]. destruct (store_stream _ _ _ c) as [n c1] eqn:Hst. intros [= <-].
    pose proof (store_wf _ _ _ _ _ _ Hwf Hst). done.
  - destruct (store_stream _ _ _ c) as [n c1] eqn:Hst. intros [= <-]. apply resolve_wf. by eapply store_wf.
  - destruct (c_streams c !! _) as [n|] eqn:Hn; cbn; [|by intros [= <-]].
    destruct (stream_objs c !! n) as [s|] eqn:Hs; cbn; [|by intros [= <-]]. intros [= <-] sid k; cbn.
    rewrite lookup_delete_Some. intros [Hne Hk]. destruct (Hwf sid k Hk) as (Hlt & s0 & H0 & Hs0 & Hc0). split; [done|].
    destruct (decide (n = k)) as [<-|Hnk]; [|rewrite lookup_insert_ne by done; eauto].
    destruct (Hwf _ n Hn) as (_ & s1 & H1 & Hs1 & _). congruence.
  - intros [= <-]. by apply resolve_wf.
  - by intros [= <-].
Qed.

Lemma cstep_wf e c c' : client_wf c → cstep e c = Some c' → client_wf c'.
Proof.
  intros Hwf. destruct e as [m|a t|t k ok|n data|n|n|]; cbn [cstep].
  - by apply dispatch_wf.
  - by intros [= <-].
  - intros [= <-]. unfold Dial_begin. by destruct ok.
  - by intros (s & _ & [= <-])%bind_Some.
  - by intros (s & _ & [= <-])%bind_Some.
  - intros ([x c1] & Hr & ->)%fmap_Some. unfold Stream_Recv in Hr. apply bind_Some in Hr as (s & Hs & Hr).
    destruct (recvQueue s); [destruct (queue_closed s); [|done]|]; injection Hr as <- <-; [done|]. by eapply set_obj_wf.
  - intros ([n c1] & Hr & ->)%fmap_Some. unfold next_incoming in Hr. destruct (incoming_chan c); [done|]. by injection Hr as <- <-.
Qed.

Lemma crun_wf es c c' : client_wf c → crun es c = Some c' → client_wf c'.
Proof.
  revert c; induction es as [|e es IH]; intros c Hwf Hr; cbn [crun] in Hr; [by simplify_eq|].
  apply bind_Some in Hr as (c1 & Hs & Hr). eapply IH; [|done]. by eapply cstep_wf.
Qed.

(** Stream [sid] is [Stream] [n], to which [ds] was delivered so far. *)
Definition delivered c (sid : Z) (n : nat) (ds : list (list byte)) : Prop :=
  c_streams c !! sid = Some n ∧ ∃ s, stream_objs c !! n = Some s ∧ taken s ++ recvQueue s = ds.

(** A message that neither makes nor ends stream [sid]. *)
Definition passing (sid : Z) (m : DaemonMsg) : Prop :=
  match m with Connected s _ _ | Incoming s _ _ | MsgClosed s _ => s ≠ sid | _ => True end.

(** The data of stream [sid] in messages, decoded. *)
Definition payloads (sid : Z) (ms : list DaemonMsg) : list (list byte) := decode_data <$> data_for sid ms.

Lemma payloads_cons sid m ms : payloads sid (m :: ms) = payloads sid [m] ++ payloads sid ms.
Proof. unfold payloads, data_for. by rewrite <-fmap_app, <-omap_app. Qed.

Lemma set_obj_delivered c n s s' k sid ds :
  client_wf c → delivered c sid n ds → stream_objs c !! k = Some s → taken s' ++ recvQueue s' = taken s ++ recvQueue s →
  delivered (set_obj k s' c) sid n ds.
Proof.
  intros Hwf [Hn (s0 & H0 & Hd)] Hk Heq. split; [done|]. cbn. destruct (decide (k = n)) as [->|Hne].
  - rewrite lookup_insert_eq. exists s'. split; [done|]. rewrite Heq. congruence.
  - rewrite lookup_insert_ne by done. eauto.
Qed.

Lemma store_delivered c sid n ds sid' class from k c' :
  client_wf c → delivered c sid n ds → sid' ≠ sid → store_stream sid' class from c = (k, c') → delivered c' sid n ds.
Proof.
  intros Hwf [Hn (s0 & H0 & Hd)] Hne [= <- <-]. destruct (Hwf sid n Hn) as (Hlt & _).
  split; cbn; [by rewrite lookup_insert_ne|]. rewrite lookup_insert_ne by lia. eauto.
Qed.

Lemma resolve_delivered c sid n ds r x : delivered c sid n ds → delivered (resolve_dial r x c) sid n ds.
Proof. unfold resolve_dial. by case_bool_decide. Qed.

(** [dispatch] on each kind of message. *)
Lemma dispatch_recv sid d c :
  dispatch (daemon_object (Recv sid d)) c =
  match n ← c_streams c !! u32_wrap sid; s ← stream_objs c !! n; Some (n, s) with
  | None => Some c
  | Some (n, s) =>
      if (length (recvQueue s) <? queue_cap)%nat
      then Some (set_obj n (GStream (StreamID s) (Class s) (FromAgentID s)
                   (recvQueue s ++ [decode_data d]) (queue_closed s) (taken s)) c)
      else None
  end.
Proof. reflexivity. Qed.

Lemma dispatch_incoming sid f cl c :
  dispatch (daemon_object (Incoming sid f cl)) c =
  if (length (incoming_chan c) <? queue_cap)%nat then
    let '(n, c) := store_stream (u32_wrap sid) (class_name cl) f c in
    Some (Client (stream_objs c) (next_obj c) (c_streams c) (pending c) (results c) (incoming_chan c ++ [n])
            (nextReqID c) (sent c))
  else None.
Proof. reflexivity. Qed.

Lemma dispatch_connected sid t r c :
  dispatch (daemon_object (Connected sid t r)) c =
  let '(n, c) := store_stream (u32_wrap sid) "control" t c in
  Some (resolve_dial (default "" r) (GotStream n) c).
Proof. by destruct r. Qed.

Lemma dispatch_closed sid r c :
  dispatch (daemon_object (MsgClosed sid r)) c =
  match n ← c_streams c !! u32_wrap sid; s ← stream_objs c !! n; Some (n, s) with
  | None => Some c
  | Some (n, s) =>
      let c := set_obj n (GStream (StreamID s) (Class s) (FromAgentID s) (recvQueue s) true (taken s)) c in
      Some (Client (stream_objs c) (next_obj c) (delete (u32_wrap sid) (c_streams c)) (pending c) (results c)
              (incoming_chan c) (nextReqID c) (sent c))
  end.
Proof. by destruct r. Qed.

Lemma dispatch_error co t r c :
  dispatch (daemon_object (MsgError co t r)) c = Some (resolve_dial (default "" r) (GotError (format_v (Some (JString t)))) c).
Proof. by destruct r. Qed.

Lemma dispatch_delivered m c c' sid n ds :
  client_wf c → sid_wf m → passing sid m → delivered c sid n ds → dispatch (daemon_object m) c = Some c' →
  delivered c' sid n (ds ++ payloads sid [m]).
Proof.
  intros Hwf Hm Hp Hd. unfold sid_wf in Hm.
  assert (Hu : ∀ s, msg_sid m = Some s → u32_wrap s = s). { intros s Hs. rewrite Hs in Hm. by apply Z.mod_small. }
  destruct m as [a|s t r|s f cl|s d|s r| |co t r]; cbn [msg_sid passing] in *;
    try (change (payloads sid [_]) with (@nil (list byte)); rewrite app_nil_r).
  - by intros [= <-].
  - rewrite dispatch_connected, (Hu s) by done. destruct (store_stream _ _ _ c) as [k c1] eqn:Hst. intros [= <-].
    apply resolve_delivered. by eapply store_delivered.
  - rewrite dispatch_incoming, (Hu s) by done. case_match; [|done].
    destruct (store_stream _ _ _ c) as [k c1] eqn:Hst. intros [= <-]. by apply (store_delivered _ _ _ _ _ _ _ _ _ Hwf Hd Hp Hst).
  - rewrite dispatch_recv, (Hu s) by done. unfold payloads, data_for; cbn [omap list_omap].
    destruct (decide (s = sid)) as [->|Hne].
    + rewrite bool_decide_eq_true_2 by done. cbn [fmap list_fmap]. destruct Hd as [Hn (s0 & H0 & Hq)].
      rewrite Hn; cbn [mbind option_bind]. rewrite H0; cbn [mbind option_bind]. case_match; [|done]. intros [= <-].
      split; [done|]. cbn. rewrite lookup_insert_eq. eexists. split; [done|]. cbn. by rewrite app_assoc, Hq.
    + rewrite bool_decide_eq_false_2 by done. cbn [fmap list_fmap]. rewrite app_nil_r.
      destruct (c_streams c !! s) as [k|] eqn:Hk; cbn [mbind option_bind]; [|by intros [= <-]].
      destruct (stream_objs c !! k) as [sk|] eqn:Hsk; cbn [mbind option_bind]; [|by intros [= <-]].
      case_match; [|done]. intros [= <-]. destruct Hd as [Hn (s0 & H0 & Hq)]. split; [done|]. cbn.
      rewrite lookup_insert_ne; [by eauto|]. intros ->. destruct (Hwf s n Hk) as (_ & x & Hx & Hxs & _).
      destruct (Hwf sid n Hn) as (_ & y & Hy & Hys & _). congruence.
  - rewrite dispatch_closed, (Hu s) by done. destruct (c_streams c !! s) as [k|] eqn:Hk; cbn [mbind option_bind]; [|by intros [= <-]].
    destruct (stream_objs c !! k) as [sk|] eqn:Hsk; cbn [mbind option_bind]; [|by intros [= <-]]. intros [= <-].
    destruct (set_obj_delivered c n sk (GStream (StreamID sk) (Class sk) (FromAgentID sk) (recvQueue sk) true (taken sk)) k sid ds)
      as [Hn Hs]; [done..|]. split; [cbn; by rewrite lookup_delete_ne|exact Hs].
  - by intros [= <-].
  - rewrite dispatch_error. intros [= <-]. by apply resolve_delivered.
Qed.

(** Not a message. *)
Definition is_call (e : cevent) : Prop := match e with GDispatch _ => False | _ => True end.

Lemma cstep_delivered e c c' sid n ds :
  client_wf c → is_call e → delivered c sid n ds → cstep e c = Some c' → delivered c' sid n ds.
Proof.
  intros Hwf He Hd. destruct e as [m|a t|t k ok|j data|j|j|]; cbn [cstep].
  - done.
  - by intros [= <-].
  - intros [= <-]. unfold Dial_begin. by destruct ok.
  - by intros (s & _ & [= <-])%bind_Some.
  - by intros (s & _ & [= <-])%bind_Some.
  - intros ([x c1] & Hr & ->)%fmap_Some. unfold Stream_Recv in Hr. apply bind_Some in Hr as (s & Hs & Hr).
    destruct (recvQueue s) as [|y q] eqn:Hq; [destruct (queue_closed s); [|done]|]; injection Hr as <- <-; [done|].
    eapply set_obj_delivered; [done|done|done|]. cbn. by rewrite Hq, <-app_assoc.
  - intros ([k c1] & Hr & ->)%fmap_Some. unfold next_incoming in Hr. destruct (incoming_chan c); [done|]. by injection Hr as <- <-.
Qed.

(** The messages dispatched in a run. *)
Definition dispatched es : list object := omap (λ e, match e with GDispatch m => Some m | _ => None end) es.

Lemma crun_delivered es c c' sid n ds ms :
  client_wf c → dispatched es = daemon_object <$> ms → Forall sid_wf ms → Forall (passing sid) ms →
  delivered c sid n ds → crun es c = Some c' → delivered c' sid n (ds ++ payloads sid ms).
Proof.
  revert c ds ms; induction es as [|e es IH]; intros c ds ms Hwf Hds Hms Hps Hd Hr; cbn [crun] in Hr.
  { simplify_eq. destruct ms; [|done]. unfold payloads, data_for; cbn. by rewrite app_nil_r. }
  apply bind_Some in Hr as (c1 & Hs & Hr). pose proof (cstep_wf _ _ _ Hwf Hs) as Hwf1.
  destruct e as [m| | | | | |];
    [|by eapply (IH c1); [..|exact Hr]; [done..|]; eapply (cstep_delivered _ c); [..|exact Hs]..].
  destruct ms as [|m0 ms]; [done|]. injection Hds as -> Hds. apply Forall_cons in Hms as [Hm Hms], Hps as [Hp Hps].
  rewrite payloads_cons, app_assoc. eapply (IH c1); [..|exact Hr]; [done..|]. by eapply (dispatch_delivered _ c).
Qed.

Lemma dispatched_split es a x b :
  dispatched es = a ++ x :: b →
  ∃ es1 es2, es = es1 ++ GDispatch x :: es2 ∧ dispatched es1 = a ∧ dispatched es2 = b.
Proof.
  revert a; induction es as [|e es IH]; intros a Ha; [by destruct a|].
  destruct e as [m| | | | | |]; [|by destruct (IH a Ha) as (es1 & es2 & -> & <- & <-); eexists (_ :: es1), es2..].
  destruct a as [|y a]; injection Ha as -> Ha; [by exists [], es|].
  destruct (IH a Ha) as (es1 & es2 & -> & <- & <-). by exists (GDispatch y :: es1), es2.
Qed.

Lemma crun_app es1 es2 c : crun (es1 ++ es2) c = c' ← crun es1 c; crun es2 c'.
Proof. revert c; induction es1 as [|e es1 IH]; intros c; [done|]. cbn [app crun]. destruct (cstep e c); [apply IH|done]. Qed.

(** A message that makes stream [sid]. *)
Definition makes (sid : Z) (m : DaemonMsg) : Prop :=
  match m with Connected s _ _ | Incoming s _ _ => s = sid | _ => False end.

Lemma dispatch_makes m c c' sid :
  sid_wf m → makes sid m → dispatch (daemon_object m) c = Some c' → delivered c' sid (next_obj c) [].
Proof.
  intros Hm Hk. unfold sid_wf in Hm.
  assert (Hu : ∀ s, msg_sid m = Some s → u32_wrap s = s). { intros s Hs. rewrite Hs in Hm. by apply Z.mod_small. }
  assert (Hst : ∀ class from c1, store_stream sid class from c = (next_obj c, c1) → delivered c1 sid (next_obj c) []).
  { intros class from c1 [= <-]. split; cbn; [by rewrite lookup_insert_eq|]. rewrite lookup_insert_eq. eauto. }
  destruct m as [a|s t r|s f cl|s d|s r| |co t r]; cbn [makes msg_sid] in *; try done; subst s.
  - rewrite dispatch_connected, (Hu sid) by done. intros [= <-]. apply resolve_delivered. by eapply Hst.
  - rewrite dispatch_incoming, (Hu sid) by done. case_match; [|done]. intros [= <-]. exact (Hst (class_name cl) f _ eq_refl).
Qed.

(** What a stream's application was or will be given: the data after the message
    that made the stream, and none of the data before it. *)
Lemma stream_data es c sid pre m post :
  crun es new_client = Some c → dispatched es = daemon_object <$> (pre ++ m :: post) →
  Forall sid_wf (m :: post) → makes sid m → Forall (passing sid) post →
  ∃ n, delivered c sid n (payloads sid post).
Proof.
  intros Hr Hds Hwf Hm Hp. rewrite fmap_app, fmap_cons in Hds.
  destruct (dispatched_split _ _ _ _ Hds) as (es1 & es2 & -> & H1 & H2).
  rewrite crun_app in Hr. apply bind_Some in Hr as (c1 & Hr1 & Hr). cbn [crun] in Hr. apply bind_Some in Hr as (c2 & Hs & Hr).
  apply Forall_cons in Hwf as [Hwm Hwf]. pose proof (crun_wf _ _ _ new_client_wf Hr1) as Hc1.
  exists (next_obj c1). rewrite <-(app_nil_l (payloads sid post)).
  eapply crun_delivered; [|exact H2|done|done| |done].
  - eapply (cstep_wf (GDispatch (daemon_object m))); [exact Hc1|exact Hs].
  - by eapply dispatch_makes.
Qed.

(** ** Requests: lemmas *)

(** The id of the next dial. *)
Definition next_id c : string := "r" +:+ decimal (u64_wrap (nextReqID c + 1)).

Definition class_or_control (k : string) : string := if bool_decide (k = "") then "control" else k.

(** The request that a call makes, in the daemon's terms. *)
Definition call_msg (e : cevent) c : option AgentMsg :=
  match e with
  | GListen a t => Some (Listen a (omitempty t) None)
  | GDial t k true => cl ← class_of_name (class_or_control k); Some (Dial t cl (Some (next_id c)))
  | GSend n data => s ← stream_objs c !! n; Some (Send (StreamID s) (b64_encode data))
  | GClose n => s ← stream_objs c !! n; Some (Close (StreamID s))
  | _ => None
  end.

Fixpoint calls es c : list AgentMsg :=
  match es with
  | [] => []
  | e :: es => option_list (call_msg e c) ++ match cstep e c with Some c' => calls es c' | None => [] end
  end.

(** Arguments of the application: valid strings and one of the three classes. *)
Definition call_wf (e : cevent) : Prop :=
  match e with
  | GListen a t => str_wf a ∧ str_wf t
  | GDial t k _ => str_wf t ∧ is_Some (class_of_name (class_or_control k))
  | _ => True
  end.

Definition ids_wf c : Prop := ∀ n s, stream_objs c !! n = Some s → 0 ≤ StreamID s < 2 ^ 32.

Definition understood (o : object) (m : AgentMsg) : Prop := object_wf o ∧ agent_of_object o = Some m.

Lemma set_obj_ids n s c : ids_wf c → 0 ≤ StreamID s < 2 ^ 32 → ids_wf (set_obj n s c).
Proof. intros Hc Hs k s' Hk. cbn in Hk. apply lookup_insert_Some in Hk as [[<- <-]|[_ Hk]]; [done|by eapply Hc]. Qed.

Lemma store_ids z class from c n c' : ids_wf c → store_stream (u32_wrap z) class from c = (n, c') → ids_wf c'.
Proof.
  intros Hc [= <- <-] k s Hk. cbn in Hk. apply lookup_insert_Some in Hk as [[<- <-]|[_ Hk]]; [|by eapply Hc].
  apply Z.mod_pos_bound. lia.
Qed.

Lemma resolve_ids r x c : ids_wf c → ids_wf (resolve_dial r x c).
Proof. unfold resolve_dial. by case_bool_decide. Qed.

Lemma dispatch_ids m c c' : ids_wf c → dispatch m c = Some c' → ids_wf c'.
Proof.
  intros Hc. unfold dispatch, stream_id_of. repeat (case_bool_decide as E; clear E).
  - destruct (c_streams c !! _) as [n|]; cbn [mbind option_bind]; [|by intros [= <-]].
    destruct (stream_objs c !! n) as [s|] eqn:Hs; cbn [mbind option_bind]; [|by intros [= <-]].
    case_match; [|done]. intros [= <-]. apply set_obj_ids; [done|exact (Hc n s Hs)].
  - case_match; [|done]. destruct (store_stream _ _ _ c) as [n c1] eqn:Hst. intros [= <-]. exact (store_ids _ _ _ _ _ _ Hc Hst).
  - destruct (store_stream _ _ _ c) as [n c1] eqn:Hst. intros [= <-]. apply resolve_ids. by eapply store_ids.
  - destruct (c_streams c !! _) as [n|]; cbn [mbind option_bind]; [|by intros [= <-]].
    destruct (stream_objs c !! n) as [s|] eqn:Hs; cbn [mbind option_bind]; [|by intros [= <-]]. intros [= <-].
    exact (set_obj_ids n (GStream _ _ _ _ _ _) c Hc (Hc n s Hs)).
  - intros [= <-]. by apply resolve_ids.
  - by intros [= <-].
Qed.

Lemma dispatch_sent m c c' : dispatch m c = Some c' → sent c' = sent c.
Proof.
  assert (Hres : ∀ r x c0, sent (resolve_dial r x c0) = sent c0) by (intros; unfold resolve_dial; by case_bool_decide).
  unfold dispatch, store_stream. repeat (case_bool_decide as E; clear E); repeat case_match; intros; simplify_eq; try done; by rewrite Hres.
Qed.

Lemma object_wf_insert k v o : is_ascii k = true → jval_wf v → object_wf o → object_wf (<[k := v]> o).
Proof. intros Hk Hv Ho. apply map_Forall_insert_2; [|done]. split; [by apply ascii_str_wf|done]. Qed.

Lemma object_wf_one k v : is_ascii k = true → jval_wf v → object_wf {[k := v]}.
Proof. intros Hk Hv. apply map_Forall_singleton. split; [by apply ascii_str_wf|done]. Qed.

Ltac fields_wf := repeat (apply object_wf_insert; [reflexivity| |]); try (apply object_wf_one; [reflexivity|]); cbn [jval_wf]; try done;
  try (apply ascii_str_wf; reflexivity).

Lemma class_of_name_Some s cl : class_of_name s = Some cl → s = class_name cl.
Proof. unfold class_of_name. repeat (case_bool_decide as E; [intros [= <-]; exact E|clear E]). done. Qed.

Lemma class_of_class_name cl : class_of_name (class_name cl) = Some cl.
Proof. by destruct cl. Qed.

Lemma get_u32_ok z : 0 ≤ z < 2 ^ 32 → (if (0 <=? z) && (z <? 2 ^ 32) then Some z else None) = Some z.
Proof. intros Hz. case_match; [done|lia]. Qed.

Lemma next_id_wf c : str_wf (next_id c).
Proof.
  apply ascii_str_wf. unfold next_id, is_ascii. rewrite string_forallb_app. apply andb_true_intro. split; [done|].
  apply digits_ascii, decimal_spec, Z.mod_pos_bound. lia.
Qed.

Lemma listen_understood a t : str_wf a → str_wf t → understood (Listen_request a t) (Listen a (omitempty t) None).
Proof.
  intros Ha Ht. unfold Listen_request, omitempty. destruct (decide (t = "")) as [->|Hne].
  - split; [fields_wf|reflexivity].
  - rewrite bool_decide_eq_true_2, bool_decide_eq_false_2 by done. split; [fields_wf|reflexivity].
Qed.

Lemma send_understood s data :
  0 ≤ StreamID s < 2 ^ 32 → understood (Stream_Send s data) (Send (StreamID s) (b64_encode data)).
Proof.
  intros Hs. split; [unfold Stream_Send; fields_wf; apply ascii_str_wf, b64_ascii|].
  unfold agent_of_object. change (get_string "op" _) with (Some "send"). cbn -[get_u32 get_string].
  change (get_u32 "stream_id" _) with (if (0 <=? StreamID s) && (StreamID s <? 2 ^ 32) then Some (StreamID s) else None).
  by rewrite get_u32_ok.
Qed.

Lemma close_understood s : 0 ≤ StreamID s < 2 ^ 32 → understood (Stream_Close s) (Close (StreamID s)).
Proof.
  intros Hs. split; [unfold Stream_Close; fields_wf|].
  unfold agent_of_object. change (get_string "op" _) with (Some "close"). cbn -[get_u32 get_string].
  change (get_u32 "stream_id" _) with (if (0 <=? StreamID s) && (StreamID s <? 2 ^ 32) then Some (StreamID s) else None).
  by rewrite get_u32_ok.
Qed.

Lemma dial_understood t cl r :
  str_wf t → str_wf r →
  understood {["op" := JString "dial"; "target_agent_id" := JString t; "stream_class" := JString (class_name cl);
               "request_id" := JString r]} (Dial t cl (Some r)).
Proof. intros Ht Hr. split; [|by destruct cl]. fields_wf. destruct cl; apply ascii_str_wf; reflexivity. Qed.

Lemma cstep_ids e c c' : ids_wf c → cstep e c = Some c' → ids_wf c'.
Proof.
  intros Hc. destruct e as [m|a t|t k ok|n data|n|n|]; cbn [cstep].
  - by apply dispatch_ids.
  - by intros [= <-].
  - intros [= <-]. unfold Dial_begin. by destruct ok.
  - by intros (s & _ & [= <-])%bind_Some.
  - by intros (s & _ & [= <-])%bind_Some.
  - intros ([x c1] & Hr & ->)%fmap_Some. unfold Stream_Recv in Hr. apply bind_Some in Hr as (s & Hs & Hr).
    destruct (recvQueue s); [destruct (queue_closed s); [|done]|]; injection Hr as <- <-; [done|].
    apply set_obj_ids; [done|exact (Hc n s Hs)].
  - intros ([n c1] & Hr & ->)%fmap_Some. unfold next_incoming in Hr. destruct (incoming_chan c); [done|]. by injection Hr as <- <-.
Qed.

(** A call adds the object of its request to what was written. *)
Lemma cstep_sent e c c' :
  ids_wf c → call_wf e → cstep e c = Some c' →
  ∃ os, sent c' = sent c ++ os ∧ Forall2 understood os (option_list (call_msg e c)).
Proof.
  intros Hc He. destruct e as [m|a t|t k ok|n data|n|n|]; cbn [cstep call_msg].
  - intros Hd. exists []. rewrite app_nil_r. split; [by eapply dispatch_sent|constructor].
  - intros [= <-]. destruct He. eexists [_]. split; [done|]. constructor; [by apply listen_understood|constructor].
  - intros [= <-]. unfold Dial_begin. destruct ok; [|exists []; rewrite app_nil_r; split; [done|constructor]].
    destruct He as [Ht [cl Hcl]]. rewrite Hcl. eexists [_]. split; [done|]. cbn [mbind option_bind option_list].
    constructor; [|constructor]. fold (class_or_control k). rewrite (class_of_name_Some _ _ Hcl). apply dial_understood; [done|apply next_id_wf].
  - intros (s & Hs & [= <-])%bind_Some. rewrite Hs. eexists [_]. split; [done|]. constructor; [|constructor].
    apply send_understood. by eapply Hc.
  - intros (s & Hs & [= <-])%bind_Some. rewrite Hs. eexists [_]. split; [done|]. constructor; [|constructor].
    apply close_understood. by eapply Hc.
  - intros ([x c1] & Hr & ->)%fmap_Some. unfold Stream_Recv in Hr. apply bind_Some in Hr as (s & Hs & Hr). exists [].
    rewrite app_nil_r. split; [|constructor].
    destruct (recvQueue s); [destruct (queue_closed s); [|done]|]; by injection Hr as <- <-.
  - intros ([n c1] & Hr & ->)%fmap_Some. unfold next_incoming in Hr. exists []. rewrite app_nil_r. split; [|constructor].
    destruct (incoming_chan c); [done|]. by injection Hr as <- <-.
Qed.

Lemma crun_sent es c c' :
  ids_wf c → Forall call_wf es → crun es c = Some c' →
  ∃ os, sent c' = sent c ++ os ∧ Forall2 understood os (calls es c).
Proof.
  revert c; induction es as [|e es IH]; intros c Hc Hes Hr; cbn [crun] in Hr.
  { simplify_eq. exists []. rewrite app_nil_r. split; [done|constructor]. }
  apply bind_Some in Hr as (c1 & Hs & Hr). apply Forall_cons in Hes as [He Hes]. cbn [calls]. rewrite Hs.
  destruct (cstep_sent _ _ _ Hc He Hs) as (os & Ho & H1). destruct (IH c1 (cstep_ids _ _ _ Hc Hs) Hes Hr) as (os' & Ho' & H2).
  exists (os ++ os'). rewrite Ho', Ho, <-app_assoc. split; [done|]. by apply Forall2_app.
Qed.
End Streams.

(** ** The wire: lemmas *)

Section Wire.
Context `{GO : !GoObjects, B64 : !Base64}.
Context `{JA : !JsonCodec AgentMsg, JD : !JsonCodec DaemonMsg, OI : !ObjectInterop}.

Fixpoint write_objects (os : list object) : io sink go_error unit :=
  match os with [] => mret tt | o :: os => writeMsg o;; write_objects os end.

Definition object_bytes (o : object) : list byte := be_bytes 4 (zlen (marshal o)) ++ marshal o.
Definition object_fits (o : object) : Prop := zlen (marshal o) ≤ MAX_MSG_SIZE.

Lemma write_objects_open os w f :
  Forall object_fits os → write_objects os (Sink w None f) = (Done tt, Sink (w ++ concat (object_bytes <$> os)) None f).
Proof.
  intros Hos. revert w. induction Hos as [|o os Ho _ IH]; intros w; simpl; [by rewrite app_nil_r|].
  assert (Hw : writeMsg o (Sink w None f) = (Done tt, Sink (w ++ object_bytes o) None f)).
  { unfold writeMsg, conn_write, object_bytes. rewrite u32_wrap_bytes. io_next write_all_open.
    unfold io_map_err. rewrite write_all_open. by rewrite <-app_assoc. }
  rewrite (io_bind_Done _ _ _ _ _ Hw), IH. by rewrite <-app_assoc.
Qed.

Lemma fuel_enough {A} (f : A → list byte) xs :
  (∀ x, 4 ≤ length (f x))%nat → (length xs < S (length (concat (f <$> xs))))%nat.
Proof.
  intros Hf. induction xs as [|x xs IH]; [simpl; lia|]. rewrite fmap_cons. cbn [concat length]. rewrite length_app.
  specialize (Hf x). lia.
Qed.

Lemma length_object_bytes o : (4 ≤ length (object_bytes o))%nat.
Proof. unfold object_bytes. rewrite length_app, length_be_bytes. lia. Qed.

(** What the daemon reads of a client's objects. *)
Lemma read_objects os ms e :
  Forall2 understood os ms → Forall object_fits os →
  read_msgs (Source (concat (object_bytes <$> os)) e) = (ms, ipc_end e).
Proof.
  intros Hom Hfit. unfold read_msgs; cbn [avail].
  pose proof (fuel_enough object_bytes os length_object_bytes) as Hf.
  revert Hf. generalize (S (length (concat (object_bytes <$> os)))). revert Hfit.
  induction Hom as [|o m os ms [Hwf Ho] _ IH]; intros Hfit [|fuel] Hf; try (simpl in Hf; lia).
  - cbn. by destruct e.
  - apply Forall_cons in Hfit as [Hfo Hfit]. cbn [read_msgs_fuel fmap list_fmap concat]. unfold object_bytes at 1.
    rewrite <-app_assoc, (read_msg_text _ m); [|by rewrite marshal_interop|done].
    rewrite IH; [done..|simpl in Hf; lia].
Qed.

Lemma read_full_app bs rest e : read_full (zlen bs) (Source (bs ++ rest) e) = (Done bs, Source rest e).
Proof.
  pose proof (sim_read (zlen bs) (Source (bs ++ rest) e)) as [Hs Ho]. rewrite read_exact_app in Hs, Ho.
  destruct (read_full _ _) as [[x| |] s]; cbn in *; by subst.
Qed.

Lemma readMsg_app m rest e :
  object_wf (daemon_object m) → zlen (to_vec m) ≤ MAX_MSG_SIZE →
  readMsg (Source (msg_bytes m ++ rest) e) = (Done (daemon_object m), Source rest e).
Proof.
  unfold MAX_MSG_SIZE. intros Hwf Hm. unfold readMsg, msg_bytes. rewrite <-app_assoc.
  pose proof (read_full_app (be_bytes 4 (zlen (to_vec m))) (to_vec m ++ rest) e) as Hh.
  rewrite length_be_bytes in Hh. rewrite (io_bind_Done _ _ _ _ _ Hh), be_value_bytes_small by (change (256 ^ Z.of_nat 4) with (2 ^ 32); lia).
  case_match eqn:E; [unfold maxMsgSize in E; lia|].
  rewrite (io_bind_Done _ _ _ _ _ (read_full_app _ _ _)). by rewrite unmarshal_interop.
Qed.

(** What the client's receive loop reads of the daemon's messages. *)
Lemma recvLoop_messages ms :
  Forall (λ m, object_wf (daemon_object m)) ms → Forall fits ms →
  recvLoop (Source (concat (msg_bytes <$> ms)) Open) = (daemon_object <$> ms, Pending).
Proof.
  intros Hwf Hfit. unfold recvLoop; cbn [avail].
  pose proof (fuel_enough (msg_bytes (A := DaemonMsg)) ms length_msg_bytes) as Hf.
  revert Hf. generalize (S (length (concat (msg_bytes <$> ms)))). revert Hwf Hfit.
  induction ms as [|m ms IH]; intros Hwf Hfit [|fuel] Hf; try (simpl in Hf; lia); [done|].
  apply Forall_cons in Hfit as [Hfm Hfit], Hwf as [Hwm Hwf]. cbn [recv_loop_fuel fmap list_fmap concat].
  rewrite readMsg_app, IH; [done..|simpl in Hf; lia|done|done].
Qed.

(** What the application asks for reaches the daemon.  In any run of the Go client
    whose arguments are valid strings and stream classes, the bytes it writes for
    [Listen], [Dial], [Send] and [Close] are read by the daemon as exactly these
    requests in their order, each dial with its own request id and data in base64,
    if none exceeds 4 MiB. *)
Theorem go_requests_understood es c e :
  crun es new_client = Some c → Forall call_wf es → Forall object_fits (sent c) →
  ∃ w, write_objects (sent c) (open_sink []) = (Done tt, open_sink w) ∧
       read_msgs (Source w e) = (calls es new_client, ipc_end e).
Proof.
  intros Hr Hes Hfit. destruct (crun_sent es new_client c) as (os & Ho & Hu); [done|done|done|].
  rewrite Ho in *. exists (concat (object_bytes <$> os)). split; [by apply write_objects_open|by apply read_objects].
Qed.
End Wire.

(** ** Dials: lemmas *)

Section Dials.
Context `{GO : !GoObjects, B64 : !Base64}.
Implicit Types (c : client) (es : list cevent).

Definition dial_id (j : Z) : string := "r" +:+ decimal j.

(** Every id that waits or has a result was given out. *)
Definition dials_wf c : Prop :=
  0 ≤ nextReqID c ∧
  ∀ r, r ∈ pending c ∨ is_Some (results c !! r) → ∃ j, 0 < j ≤ nextReqID c ∧ r = dial_id j.

Lemma dial_id_inj i j : 0 ≤ i < 2 ^ 64 → 0 ≤ j < 2 ^ 64 → dial_id i = dial_id j → i = j.
Proof. intros Hi Hj [= Heq]. by apply decimal_inj. Qed.

(** What dispatching a message does to the dials: a waiting one gets its answer. *)
Definition resolved (r : string) (v : dial_result) c c' : Prop :=
  r ∈ pending c ∧ pending c' = pending c ∖ {[r]} ∧ results c' = <[r := v]> (results c).
Definition dials_kept c c' : Prop := pending c' = pending c ∧ results c' = results c.

Lemma resolve_dial_cases r v c : resolved r v c (resolve_dial r v c) ∨ (¬ (r ∈ pending c) ∧ resolve_dial r v c = c).
Proof. unfold resolve_dial. case_bool_decide; [by left|by right]. Qed.

Lemma dispatch_dials m c c' :
  dispatch (daemon_object m) c = Some c' → nextReqID c' = nextReqID c ∧
  match m with
  | Connected s t r =>
      resolved (default "" r) (GotStream (next_obj c)) c c' ∨ (¬ (default "" r ∈ pending c) ∧ dials_kept c c')
  | MsgError _ t r =>
      resolved (default "" r) (GotError (format_v (Some (JString t)))) c c' ∨ (¬ (default "" r ∈ pending c) ∧ dials_kept c c')
  | _ => dials_kept c c'
  end.
Proof.
  assert (Hid : ∀ r v c0, nextReqID (resolve_dial r v c0) = nextReqID c0) by (intros; unfold resolve_dial; by case_bool_decide).
  destruct m as [a|s t r|s f cl|s d|s r| |co t r].
  - by intros [= <-].
  - rewrite dispatch_connected. unfold store_stream. cbv zeta. intros [= <-]. rewrite Hid. split; [done|].
    match goal with |- context [resolve_dial ?r0 ?v ?c0] => destruct (resolve_dial_cases r0 v c0) as [H|[Hn ->]] end; [by left|by right].
  - rewrite dispatch_incoming. case_match; [|done]. unfold store_stream. intros H1; injection H1 as <-. by split_and!.
  - rewrite dispatch_recv. repeat case_match; intros Hc1; inversion Hc1; by split_and!.
  - rewrite dispatch_closed. repeat case_match; intros Hc1; inversion Hc1; by split_and!.
  - by intros [= <-].
  - rewrite dispatch_error. intros [= <-]. rewrite Hid. split; [done|].
    match goal with |- context [resolve_dial ?r0 ?v ?c0] => destruct (resolve_dial_cases r0 v c0) as [H|[Hn ->]] end; [by left|by right].
Qed.
(** A [Stream] keeps its number, class and peer for good. *)
Definition objs_wf c : Prop := ∀ n, is_Some (stream_objs c !! n) → (n < next_obj c)%nat.
Definition same_name (s s' : gstream) : Prop :=
  StreamID s' = StreamID s ∧ Class s' = Class s ∧ FromAgentID s' = FromAgentID s.
Definition grows c c' : Prop :=
  objs_wf c' ∧ ∀ n s, stream_objs c !! n = Some s → ∃ s', stream_objs c' !! n = Some s' ∧ same_name s s'.

Lemma grows_refl c c' : objs_wf c → stream_objs c' = stream_objs c → next_obj c' = next_obj c → grows c c'.
Proof. intros Hc Ho Hn. split; [intros n; rewrite Ho, Hn; apply Hc|]. intros n s Hs. exists s. by rewrite Ho. Qed.

Lemma grows_set n s s' c c' :
  objs_wf c → stream_objs c !! n = Some s → same_name s s' → stream_objs c' = <[n := s']> (stream_objs c) →
  next_obj c' = next_obj c → grows c c'.
Proof.
  intros Hc Hn Hs Ho Hx. split.
  - intros k. rewrite Ho, Hx, lookup_insert_is_Some. intros [<-|[_ Hk]]; [by apply Hc|by apply Hc].
  - intros k t Ht. rewrite Ho. destruct (decide (n = k)) as [<-|Hne]; [|rewrite lookup_insert_ne by done; by exists t].
    rewrite lookup_insert_eq. exists s'. rewrite Hn in Ht. by injection Ht as <-.
Qed.

Ltac obj_set H := eapply grows_set; [|exact H| |reflexivity|reflexivity]; [done|by split_and!].

Lemma grows_store s c c' :
  objs_wf c → stream_objs c' = <[next_obj c := s]> (stream_objs c) → next_obj c' = S (next_obj c) → grows c c'.
Proof.
  intros Hc Ho Hx. split.
  - intros k. rewrite Ho, Hx, lookup_insert_is_Some. intros [<-|[_ Hk]]; [lia|]. apply Hc in Hk. lia.
  - intros k t Ht. exists t. rewrite Ho, lookup_insert_ne; [done|]. assert (k < next_obj c)%nat by (by apply Hc). lia.
Qed.

Lemma resolve_objs r v c : stream_objs (resolve_dial r v c) = stream_objs c ∧ next_obj (resolve_dial r v c) = next_obj c.
Proof. unfold resolve_dial. by case_bool_decide. Qed.

Lemma dispatch_grows m c c' : objs_wf c → dispatch (daemon_object m) c = Some c' → grows c c'.
Proof.
  intros Hc. destruct m as [a|s t r|s f cl|s d|s r| |co t r].
  - intros [= <-]. by apply grows_refl.
  - rewrite dispatch_connected. unfold store_stream. intros Hd; injection Hd as <-.
    eapply grows_store; [done|etrans; [apply resolve_objs|reflexivity]..].
  - rewrite dispatch_incoming. case_match; [|done]. unfold store_stream. intros Hd; injection Hd as <-. by eapply grows_store.
  - rewrite dispatch_recv. destruct (c_streams c !! _) as [k|]; cbn [mbind option_bind]; [|intros [= <-]; by apply grows_refl].
    destruct (stream_objs c !! k) as [sk|] eqn:Hk; cbn [mbind option_bind]; [|intros [= <-]; by apply grows_refl].
    case_match; [|done]. intros [= <-]. obj_set Hk.
  - rewrite dispatch_closed. destruct (c_streams c !! _) as [k|]; cbn [mbind option_bind]; [|intros [= <-]; by apply grows_refl].
    destruct (stream_objs c !! k) as [sk|] eqn:Hk; cbn [mbind option_bind]; [|intros [= <-]; by apply grows_refl].
    intros [= <-]. obj_set Hk.
  - intros [= <-]. by apply grows_refl.
  - rewrite dispatch_error. intros [= <-]. apply grows_refl; [done|apply resolve_objs..].
Qed.

(** The events other than a message. *)
Lemma call_grows e c c' : cstep e c = Some c' → is_call e → objs_wf c → grows c c'.
Proof.
  intros Hs He Hc. revert Hs. destruct e as [m|a t|t k ok|n data|n|n|]; cbn [cstep].
  - done.
  - intros [= <-]. by apply grows_refl.
  - intros [= <-]. unfold Dial_begin. by destruct ok; apply grows_refl.
  - intros (s & _ & [= <-])%bind_Some. by apply grows_refl.
  - intros (s & _ & [= <-])%bind_Some. by apply grows_refl.
  - intros ([x c1] & Hr & ->)%fmap_Some. unfold Stream_Recv in Hr. apply bind_Some in Hr as (s & Hs & Hr).
    destruct (recvQueue s); [destruct (queue_closed s); [|done]|]; injection Hr as <- <-; [by apply grows_refl|obj_set Hs].
  - intros ([n c1] & Hr & ->)%fmap_Some. unfold next_incoming in Hr. destruct (incoming_chan c); [done|].
    injection Hr as <- <-. by apply grows_refl.
Qed.

Lemma call_dials e c c' j :
  cstep e c = Some c' → is_call e → 0 < j ≤ nextReqID c → nextReqID c + 1 < 2 ^ 64 →
  nextReqID c ≤ nextReqID c' ≤ nextReqID c + 1 ∧ results c' = results c ∧ (dial_id j ∈ pending c' ↔ dial_id j ∈ pending c).
Proof.
  intros Hs He Hj Hn. destruct e as [m|a t|t k ok|n data|n|n|]; cbn [cstep] in Hs.
  - done.
  - injection Hs as <-. by split_and!; [cbn; lia..| |].
  - assert (Hne : dial_id j ≠ dial_id (nextReqID c + 1)) by (intros Heq%dial_id_inj; lia).
    injection Hs as <-. unfold Dial_begin. unfold u64_wrap. rewrite Z.mod_small by lia. fold (dial_id (nextReqID c + 1)).
    destruct ok; cbn; (split_and!; [lia..|done|]); rewrite ?elem_of_difference, elem_of_union, !elem_of_singleton; naive_solver.
  - apply bind_Some in Hs as (s & _ & [= <-]). by split_and!; [cbn; lia..| |].
  - apply bind_Some in Hs as (s & _ & [= <-]). by split_and!; [cbn; lia..| |].
  - apply fmap_Some in Hs as ([x c1] & Hr & ->). unfold Stream_Recv in Hr. apply bind_Some in Hr as (s & Hs & Hr).
    destruct (recvQueue s); [destruct (queue_closed s); [|done]|]; injection Hr as <- <-; by split_and!; [cbn; lia..| |].
  - apply fmap_Some in Hs as ([n c1] & Hr & ->). unfold next_incoming in Hr. destruct (incoming_chan c); [done|].
    injection Hr as <- <-. by split_and!; [cbn; lia..| |].
Qed.

Definition known c (r : string) : Prop := r ∈ pending c ∨ is_Some (results c !! r).

Lemma dispatch_known m c c' :
  dispatch m c = Some c' → nextReqID c' = nextReqID c ∧ ∀ r, known c' r → known c r.
Proof.
  assert (Hres : ∀ x v c0, nextReqID c0 = nextReqID c → (∀ r, known c0 r → known c r) →
    nextReqID (resolve_dial x v c0) = nextReqID c ∧ ∀ r, known (resolve_dial x v c0) r → known c r).
  { intros x v c0 Hn Hk. unfold resolve_dial. case_bool_decide as Hx; [|done]. split; [done|]. intros r Hr. apply Hk.
    unfold known in *; cbn in *. rewrite elem_of_difference, lookup_insert_is_Some in Hr. naive_solver. }
  unfold dispatch, store_stream. repeat (case_bool_decide as E; clear E); repeat case_match; intros Hd;
    first [discriminate Hd|injection Hd as <-; first [done|by apply Hres]].
Qed.

Lemma cstep_dials_wf e c c' :
  dials_wf c → nextReqID c + 1 < 2 ^ 64 → cstep e c = Some c' → dials_wf c' ∧ nextReqID c' ≤ nextReqID c + 1.
Proof.
  intros [H0 Hw] Hn. destruct e as [m|a t|t k ok|n data|n|n|]; cbn [cstep].
  - intros Hd. destruct (dispatch_known _ _ _ Hd) as [Hid Hk]. split; [split; rewrite Hid; [done|]|lia].
    intros r Hr. apply Hw, Hk, Hr.
  - intros [= <-]. split; [done|cbn; lia].
  - intros [= <-]. unfold Dial_begin, u64_wrap. rewrite Z.mod_small by lia. fold (dial_id (nextReqID c + 1)).
    destruct ok; cbn; (split; [split; cbn; [lia|]|lia]); intros r;
      rewrite ?elem_of_difference, elem_of_union, elem_of_singleton; intros Hr;
      (destruct (decide (r = dial_id (nextReqID c + 1))) as [->|]; [exists (nextReqID c + 1); split; [lia|done]|]);
      (destruct (Hw r) as (j & Hj & ->); [naive_solver|]; exists j; split; [lia|done]).
  - intros (s & _ & [= <-])%bind_Some. split; [done|cbn; lia].
  - intros (s & _ & [= <-])%bind_Some. split; [done|cbn; lia].
  - intros ([x c1] & Hr & ->)%fmap_Some. unfold Stream_Recv in Hr. apply bind_Some in Hr as (s & Hs & Hr).
    destruct (recvQueue s); [destruct (queue_closed s); [|done]|]; injection Hr as <- <-; (split; [done|cbn; lia]).
  - intros ([n c1] & Hr & ->)%fmap_Some. unfold next_incoming in Hr. destruct (incoming_chan c); [done|].
    injection Hr as <- <-. split; [done|cbn; lia].
Qed.

Lemma crun_dials_wf es c c' :
  dials_wf c → nextReqID c + zlen es < 2 ^ 64 → crun es c = Some c' → dials_wf c' ∧ nextReqID c' ≤ nextReqID c + zlen es.
Proof.
  revert c; induction es as [|e es IH]; intros c Hw Hn Hr; cbn [crun] in Hr; [simplify_eq; split; [done|cbn; lia]|].
  apply bind_Some in Hr as (c1 & Hs & Hr). rewrite length_cons in *.
  destruct (cstep_dials_wf _ _ _ Hw ltac:(lia) Hs) as [Hw1 Hn1]. destruct (IH c1 Hw1 ltac:(lia) Hr) as [? ?]. split; [done|lia].
Qed.

(** The answer of a message to dial [j]: the stream's number and its peer, or the
    text of an error. *)
Definition answer_of (j : Z) (m : DaemonMsg) : option (Z * string + string) :=
  match m with
  | Connected s t (Some r) => if bool_decide (r = dial_id j) then Some (inl (s, t)) else None
  | MsgError _ t (Some r) => if bool_decide (r = dial_id j) then Some (inr t) else None
  | _ => None
  end.

Definition waiting c (j : Z) : Prop := dial_id j ∈ pending c ∧ results c !! dial_id j = None.

(** [Dial] number [j] has returned [x]. *)
Definition returned c (j : Z) (x : Z * string + string) : Prop :=
  ¬ (dial_id j ∈ pending c) ∧
  match x with
  | inl (sid, target) => ∃ n s, results c !! dial_id j = Some (GotStream n) ∧ stream_objs c !! n = Some s
      ∧ StreamID s = sid ∧ Class s = "control" ∧ FromAgentID s = target
  | inr text => results c !! dial_id j = Some (GotError text)
  end.

Definition dial_outcome c (j : Z) (x : option (Z * string + string)) : Prop :=
  match x with None => waiting c j | Some x => returned c j x end.

Lemma returned_kept c c' j x :
  returned c j x → ¬ (dial_id j ∈ pending c') → results c' !! dial_id j = results c !! dial_id j → grows c c' →
  returned c' j x.
Proof.
  intros [_ Hx] Hp Hr [_ Hg]. split; [done|]. rewrite Hr. destruct x as [[sid t]|text]; [|done].
  destruct Hx as (n & s & H1 & H2 & <- & <- & <-). destruct (Hg n s H2) as (s' & Hs' & H3 & H4 & H5). exists n, s'. done.
Qed.

Lemma default_dial_id r j : default "" r = dial_id j ↔ r = Some (dial_id j).
Proof. destruct r as [x|]; cbn; [|done]. split; [by intros ->|by intros [= ->]]. Qed.

Lemma dispatch_returned m c c' j x :
  objs_wf c → dispatch (daemon_object m) c = Some c' → returned c j x → returned c' j x.
Proof.
  intros Hc Hd Hx. pose proof (dispatch_grows _ _ _ Hc Hd) as Hg. destruct Hx as [Hp Hx].
  assert (Hkept : dials_kept c c' → returned c' j x).
  { intros [Hp' Hr']. apply (returned_kept c); [by split|by rewrite Hp'|by rewrite Hr'|done]. }
  assert (Hres : ∀ r v, resolved r v c c' → returned c' j x).
  { intros r v (Hr & Hp' & Hr'). assert (r ≠ dial_id j) by (by intros ->).
    apply (returned_kept c); [by split|rewrite Hp'; set_solver|by rewrite Hr', lookup_insert_ne|done]. }
  destruct (dispatch_dials _ _ _ Hd) as [_ Hm]. destruct m; naive_solver.
Qed.

Context `{JA : !JsonCodec AgentMsg, JD : !JsonCodec DaemonMsg, OI : !ObjectInterop}.

Lemma connected_object s t r c c' :
  dispatch (daemon_object (Connected s t r)) c = Some c' →
  stream_objs c' !! next_obj c = Some (GStream (u32_wrap s) "control" t [] false []).
Proof.
  rewrite dispatch_connected. unfold store_stream. intros Hd; injection Hd as <-.
  etrans; [eapply (f_equal (λ m, m !! next_obj c)), resolve_objs|]. apply lookup_insert_eq.
Qed.

Lemma dispatch_waiting m c c' j :
  objs_wf c → sid_wf m → dispatch (daemon_object m) c = Some c' → waiting c j → dial_outcome c' j (answer_of j m).
Proof.
  intros Hc Hsid Hd [Hp Hr]. pose proof (dispatch_dials _ _ _ Hd) as [_ Hm].
  assert (Hkept : dials_kept c c' → waiting c' j) by (intros [Hp' Hr']; split; congruence).
  assert (Hother : ∀ r v, resolved r v c c' → r ≠ dial_id j → waiting c' j).
  { intros r v (_ & Hp' & Hr') Hne. split; [rewrite Hp'; set_solver|by rewrite Hr', lookup_insert_ne]. }
  destruct m as [a|s t r|s f cl|s d|s r| |co t r]; try (by apply Hkept); cbn [answer_of].
  - destruct (decide (r = Some (dial_id j))) as [->|Hne].
    + rewrite bool_decide_eq_true_2 by done. destruct Hm as [(_ & Hp' & Hr')|[Hn _]]; [|done].
      split; [rewrite Hp'; set_solver|]. exists (next_obj c). rewrite Hr', (connected_object _ _ _ _ _ Hd), lookup_insert_eq.
      eexists. split_and!; [done..|cbn|done|done].
      apply Z.mod_small, Hsid.
    + destruct r as [r|]; [rewrite bool_decide_eq_false_2 by congruence|]; (destruct Hm as [Hm|[_ Hm]]; [|by apply Hkept]);
        (eapply Hother; [exact Hm|]; intros Heq%default_dial_id; done).
  - destruct (decide (r = Some (dial_id j))) as [->|Hne].
    + rewrite bool_decide_eq_true_2 by done. destruct Hm as [(_ & Hp' & Hr')|[Hn _]]; [|done].
      split; [rewrite Hp'; set_solver|]. by rewrite Hr', lookup_insert_eq, format_string.
    + destruct r as [r|]; [rewrite bool_decide_eq_false_2 by congruence|]; (destruct Hm as [Hm|[_ Hm]]; [|by apply Hkept]);
        (eapply Hother; [exact Hm|]; intros Heq%default_dial_id; done).
Qed.

Definition first_answer (j : Z) (ms : list DaemonMsg) : option (Z * string + string) := head (omap (answer_of j) ms).

Lemma crun_outcome es c c' j x ms :
  objs_wf c → 0 < j ≤ nextReqID c → nextReqID c + zlen es < 2 ^ 64 → crun es c = Some c' →
  dispatched es = daemon_object <$> ms → Forall sid_wf ms → dial_outcome c j x →
  dial_outcome c' j (match x with None => first_answer j ms | Some _ => x end).
Proof.
  revert c x ms; induction es as [|e es IH]; intros c x ms Hc Hj Hn Hr Hds Hms Hx; cbn [crun] in Hr.
  { simplify_eq. destruct ms; [|done]. by destruct x. }
  apply bind_Some in Hr as (c1 & Hs & Hr). rewrite length_cons in Hn. destruct e as [m| | | | | |].
  2-7: destruct (call_dials _ _ _ j Hs I Hj ltac:(lia)) as (Hid & Hres & Hp);
    (pose proof (call_grows _ _ _ Hs I Hc) as Hg);
    (eapply (IH c1); [apply Hg|lia|lia|done|exact Hds|done|]);
    (destruct x as [x|]; cbn [dial_outcome] in *;
      [apply (returned_kept c); [done|destruct Hx; by rewrite Hp|by rewrite Hres|done]|destruct Hx; split; [by apply Hp|by rewrite Hres]]).
  destruct ms as [|m0 ms]; [done|]. injection Hds as -> Hds. apply Forall_cons in Hms as [Hm Hms].
  cbn [cstep] in Hs. destruct (dispatch_dials _ _ _ Hs) as [Hid _]. pose proof (dispatch_grows _ _ _ Hc Hs) as [Hc1 _].
  destruct x as [x|]; cbn [dial_outcome] in Hx.
  - apply (IH c1 (Some x) ms); [done|lia|lia|done..|]. exact (dispatch_returned _ _ _ _ _ Hc Hs Hx).
  - pose proof (dispatch_waiting _ _ _ _ Hc Hm Hs Hx) as Ho. pose proof (IH c1 _ ms Hc1 ltac:(lia) ltac:(lia) Hr Hds Hms Ho) as Hf.
    unfold first_answer in *. cbn [omap list_omap]. by destruct (answer_of j m0).
Qed.

Lemma crun_objs es c c' ms : objs_wf c → dispatched es = daemon_object <$> ms → crun es c = Some c' → objs_wf c'.
Proof.
  revert c ms; induction es as [|e es IH]; intros c ms Hc Hds Hr; cbn [crun] in Hr; [by simplify_eq|].
  apply bind_Some in Hr as (c1 & Hs & Hr). destruct e as [m| | | | | |].
  2-7: eapply (IH c1); [eapply call_grows; [exact Hs|done|exact Hc]|exact Hds|exact Hr].
  destruct ms as [|m0 ms]; [done|]. injection Hds as -> Hds. eapply (IH c1); [eapply dispatch_grows; [exact Hc|exact Hs]|done|done].
Qed.

(** Each dial gets its own answer.  In a run of the Go client, a [Dial] returns
    exactly when a message with its request id has been dispatched after it, with the
    outcome of the first such message: the stream with the number and the peer in the
    daemon's [connected], or the text of its [error].  Until then it waits, and no
    other message, earlier or later, and no other dial disturbs it. *)
Theorem dial_answered es1 ms1 c1 t k es2 c ms :
  crun es1 new_client = Some c1 → dispatched es1 = daemon_object <$> ms1 → crun (GDial t k true :: es2) c1 = Some c →
  zlen es1 + zlen es2 + 1 < 2 ^ 64 → dispatched es2 = daemon_object <$> ms → Forall sid_wf ms →
  dial_outcome c (nextReqID c1 + 1) (first_answer (nextReqID c1 + 1) ms).
Proof.
  intros H1 Hd1 H2 Hn Hds Hms. cbn [crun cstep mbind option_bind] in H2.
  destruct (crun_dials_wf es1 new_client c1) as [[H0 Hw] Hle]; [split; [done|]|cbn; lia|done|].
  { intros r [Hr|[v Hr]]; set_solver. }
  cbn in Hle. assert (Hc1 : objs_wf c1) by (eapply crun_objs; [|exact Hd1|exact H1]; intros n [s Hs]; set_solver).
  assert (Hfresh : results c1 !! dial_id (nextReqID c1 + 1) = None).
  { destruct (results c1 !! _) eqn:E; [|done]. destruct (Hw (dial_id (nextReqID c1 + 1))) as (j & Hj & Heq%dial_id_inj); [by right|lia..]. }
  unfold Dial_begin, u64_wrap in H2. rewrite Z.mod_small in H2 by lia.
  eapply (crun_outcome es2 _ c _ None); [..|exact H2|exact Hds|done|]; [done|cbn; lia|cbn; lia|].
  split; [by apply elem_of_union_l, elem_of_singleton|exact Hfresh].
Qed.
End Dials.

(** ** From application to application *)

Section Applications.
Context `{ED : !Ed25519, CM : !CaseMapping, RL : !RegistrarLibs, B64 : !Base64, GO : !GoObjects}.
Context `{JA : !JsonCodec AgentMsg, JD : !JsonCodec DaemonMsg, OI : !ObjectInterop}.

(** A value of the Rust type: valid strings and a stream number of 32 bits. *)
Definition typed (m : DaemonMsg) : Prop := object_wf (daemon_object m) ∧ sid_wf m.

#[export] Instance typed_dec m : Decision (typed m).
Proof. unfold typed, sid_wf. apply and_dec; [apply _|destruct (msg_sid m); apply _]. Defined.

Lemma payloads_encoded sid ms data : data_for sid ms = b64_encode <$> data → payloads sid ms = data.
Proof.
  intros H. unfold payloads. rewrite H, <-list_fmap_compose. rewrite <-(list_fmap_id data) at 2. apply list_fmap_ext.
  intros i d _. unfold compose, decode_data. by rewrite b64_roundtrip.
Qed.

Lemma data_for_app sid ms ms' : data_for sid (ms ++ ms') = data_for sid ms ++ data_for sid ms'.
Proof. apply omap_app. Qed.

Lemma makes_no_data sid m : makes sid m → data_for sid [m] = [].
Proof. by destruct m. Qed.

End Applications.

(** ** Witnesses *)

Section Witnesses.
#[local] Existing Instance toy_ed25519.
#[local] Existing Instance ascii_case_mapping.
#[local] Existing Instance toy_registrar_libs.
#[local] Existing Instance toy_base64.
#[local] Existing Instance padded_codec.
#[local] Existing Instance agent_msg_codec.

Definition toy_go_objects : GoObjects :=
  {| marshal o := match agent_of_object o with Some m => to_vec m | None => [] end;
     unmarshal bs := daemon_object <$> from_slice bs; decoded_part _ := [];
     format_v v := match v with Some (JString s) => s | _ => "" end |}.
#[local] Existing Instance toy_go_objects.

Lemma toy_object_interop : ObjectInterop.
Proof.
  split; [intros o _|intros m _|done].
  - cbn [marshal toy_go_objects]. destruct (agent_of_object o) as [m|]; [apply from_slice_to_vec|by vm_compute].
  - cbn [unmarshal toy_go_objects]. by rewrite from_slice_to_vec.
Qed.
#[local] Existing Instance toy_object_interop.

(** An application that listens, dials, sends and closes. *)
Definition app_run : list cevent :=
  [GListen "agt_a" "token"; GDial "10.0.0.1:11411" "" true; GDispatch (daemon_object (Listening "agt_a"));
   GDial "agt_c" "bulk" true; GDispatch (daemon_object (MsgError "dial_failed" "no such agent" (Some "r2")));
   GDispatch (daemon_object (Connected 1 "10.0.0.1:11411" (Some "r1"))); GSend 0 [x01; x02]; GClose 0].
Definition app_end : client := Eval vm_compute in default new_client (crun app_run new_client).

Lemma go_requests_understood_witness :
  calls app_run new_client =
    [Listen "agt_a" (Some "token") None; Dial "10.0.0.1:11411" Control (Some "r1"); Dial "agt_c" Bulk (Some "r2");
     Send 1 (hex_encode [x01; x02]); Close 1] ∧
  ∃ w, write_objects (sent app_end) (open_sink []) = (Done tt, open_sink w) ∧
       read_msgs (Source w Closed) = (calls app_run new_client, Fail IpcClosed).
Proof.
  split; [vm_compute; reflexivity|].
  apply (go_requests_understood app_run app_end Closed).
  - vm_compute. reflexivity.
  - repeat constructor; first [apply (bool_decide_eq_true_1 _); vm_compute; reflexivity | vm_compute; eauto].
  - unfold object_fits. repeat constructor; vm_compute; discriminate.
Defined.

Lemma dial_answered_witness :
  dial_outcome app_end 1 (Some (inl (1, "10.0.0.1:11411"))).
Proof.
  apply (dial_answered [GListen "agt_a" "token"] [] (default new_client (crun [GListen "agt_a" "token"] new_client))
    "10.0.0.1:11411" "" (drop 2 app_run) app_end
    [Listening "agt_a"; MsgError "dial_failed" "no such agent" (Some "r2"); Connected 1 "10.0.0.1:11411" (Some "r1")]);
    first [repeat constructor; done | vm_compute; reflexivity].
Defined.

(** The listening process of Node.v, with the announcement written before the data. *)
Definition told_node : list nevent := take 9 listening_node ++ [NAnnounce 0 0] ++ take 4 (drop 9 listening_node).
Definition node_t : node := default Node.started (nrun told_node Node.started).
Definition agent_t : agent := default new_agent (n_agents node_t !! 0%nat).
Definition incoming_t : DaemonMsg := Incoming 1 "0000000000000000" Bulk.
Definition msgs_t : list DaemonMsg := [Listening "agt_b"; incoming_t; Recv 1 "0102"].
Definition app_t_run : list cevent := (GDispatch ∘ daemon_object <$> msgs_t) ++ [GIncoming; GRecv 0].
Definition app_t : client := Eval vm_compute in default new_client (crun app_t_run new_client).


(** The same data, written before the announcement as in Node.v's run, is dropped:
    the client has dispatched every message, and its stream stays empty. *)
Example early_data_dropped :
  let msgs := (read_msgs (Source (written (a_out agent_b)) Open)).1 in
  data_for 1 msgs = ["0102"] ∧
  ∃ cl s, crun (GDispatch ∘ daemon_object <$> msgs) new_client = Some cl
    ∧ stream_objs cl !! 0%nat = Some s ∧ StreamID s = 1 ∧ taken s ++ recvQueue s = [].
Proof. split; [vm_compute; reflexivity|]. eexists _, _. split_and!; vm_compute; reflexivity. Qed.
End Witnesses.
