(* ===== verification/ConnState.v ===== *)
(** * What the platform knows of its robots (go/connstate/state.go, go/relay/fallback_gate.go)

    [Connstate]: the table of runtime states by robot, updated by heartbeats and by
    what happens to control connections, and the liveness decision on it.
    [Gate]: the back-off of the platform's calls to agents that fail.

    Every operation holds the table's lock from its first access on, so a run of the
    platform is a sequence of operations in some order.  A [time.Time] is its
    nanoseconds, with [None] for Go's zero time, which the code uses for a time that
    is not known; [clock] is what [time.Now] gives.  [strings.TrimSpace] removes
    Unicode white space, as [trim] does. *)

From Stdlib Require Import Ascii String.
From stdpp Require Import sorting.
From S2P Require Import Prelude Text.

(** ** [time.Time] *)

Definition go_time : Type := option Z.
Definition IsZero (t : go_time) : bool := bool_decide (t = None).
(** [b.After(a)], for times that are not zero. *)
Definition After (b a : Z) : bool := a <? b.

(** [time.Duration] is 64 bits wide: [Sub] saturates. *)
Definition minDuration : Z := - 2 ^ 63.
Definition maxDuration : Z := 2 ^ 63 - 1.
Definition Sub (t u : Z) : Z := Z.max minDuration (Z.min maxDuration (t - u)).

Lemma Sub_le t u d : minDuration ≤ d < maxDuration → (Sub t u <=? d) = (t - u <=? d).
Proof. unfold Sub. intros Hd. apply eq_true_iff_eq. rewrite !Z.leb_le. lia. Qed.

Module Connstate.

Record RobotRuntimeState : Type := {
  RobotID : string;
  RobotPublicIP : string;
  RobotLocalIP : string;
  RobotNATType : string;
  ControlConnected : bool;
  ControlConnectedAt : go_time;
  ControlDisconnectedAt : go_time;
  LastControlContentionAt : go_time;
  LastControlContentionIncomingIP : string;
  LastControlContentionIncumbentIP : string;
  LastControlContentionPolicy : string;
  LastControlContentionReason : string;
  LastHeartbeatAt : go_time;
  LastSeenAt : go_time;
}.

(** The zero value, which a lookup of a missing key gives. *)
Definition zero_state : RobotRuntimeState :=
  {| RobotID := ""; RobotPublicIP := ""; RobotLocalIP := ""; RobotNATType := "";
     ControlConnected := false; ControlConnectedAt := None; ControlDisconnectedAt := None;
     LastControlContentionAt := None; LastControlContentionIncomingIP := "";
     LastControlContentionIncumbentIP := ""; LastControlContentionPolicy := "";
     LastControlContentionReason := ""; LastHeartbeatAt := None; LastSeenAt := None |}.

Abbreviation table := (gmap string RobotRuntimeState).
Definition prev_of (state : table) (robotID : string) : RobotRuntimeState := default zero_state (state !! robotID).

Definition heartbeatOnlineTTL : Z := from_secs 75.
Definition controlFallbackTTL : Z := from_secs 90.

Definition normalizeAt (clock : Z) (at_ : go_time) : Z := default clock at_.

Definition latestTime (a b : go_time) : go_time :=
  match a, b with
  | None, _ => b
  | _, None => a
  | Some x, Some y => if After y x then Some y else Some x
  end.

(** The addresses and the NAT type an update gives, the previous ones where it
    gives none. *)
Definition or_prev (new prev : string) : string := if bool_decide (trim new = "") then prev else trim new.
Definition nat_or_prev (natType prev : string) : string :=
  let natType := if bool_decide (trim natType = "") then "unknown" else trim natType in
  if bool_decide (natType = "") || bool_decide (natType = "unknown")
  then (if bool_decide (prev = "") then "unknown" else prev) else natType.

Section Operations.
Variable clock : Z.

Definition UpsertHeartbeat (robotID robotPublicIP robotLocalIP natType : string) (at_ : go_time) (state : table) : table :=
  let robotID := trim robotID in
  if bool_decide (robotID = "") then state else
  let at_ := Some (normalizeAt clock at_) in
  let prev := prev_of state robotID in
  <[robotID :=
    {| RobotID := robotID; RobotPublicIP := or_prev robotPublicIP (RobotPublicIP prev);
       RobotLocalIP := or_prev robotLocalIP (RobotLocalIP prev); RobotNATType := nat_or_prev natType (RobotNATType prev);
       ControlConnected := ControlConnected prev; ControlConnectedAt := ControlConnectedAt prev;
       ControlDisconnectedAt := ControlDisconnectedAt prev; LastControlContentionAt := LastControlContentionAt prev;
       LastControlContentionIncomingIP := LastControlContentionIncomingIP prev;
       LastControlContentionIncumbentIP := LastControlContentionIncumbentIP prev;
       LastControlContentionPolicy := LastControlContentionPolicy prev;
       LastControlContentionReason := LastControlContentionReason prev;
       LastHeartbeatAt := latestTime (LastHeartbeatAt prev) at_; LastSeenAt := latestTime (LastSeenAt prev) at_ |}]> state.

Definition UpsertControlConnected (robotID robotPublicIP robotLocalIP natType : string) (at_ : go_time) (state : table) : table :=
  let robotID := trim robotID in
  if bool_decide (robotID = "") then state else
  let at_ := Some (normalizeAt clock at_) in
  let prev := prev_of state robotID in
  <[robotID :=
    {| RobotID := robotID; RobotPublicIP := or_prev robotPublicIP (RobotPublicIP prev);
       RobotLocalIP := or_prev robotLocalIP (RobotLocalIP prev); RobotNATType := nat_or_prev natType (RobotNATType prev);
       ControlConnected := true; ControlConnectedAt := latestTime (ControlConnectedAt prev) at_;
       ControlDisconnectedAt := None; LastControlContentionAt := LastControlContentionAt prev;
       LastControlContentionIncomingIP := LastControlContentionIncomingIP prev;
       LastControlContentionIncumbentIP := LastControlContentionIncumbentIP prev;
       LastControlContentionPolicy := LastControlContentionPolicy prev;
       LastControlContentionReason := LastControlContentionReason prev;
       LastHeartbeatAt := LastHeartbeatAt prev; LastSeenAt := latestTime (LastSeenAt prev) at_ |}]> state.

(** [if strings.TrimSpace(prev.RobotID) == "" { prev.RobotID = robotID }] *)
Definition id_or (prev robotID : string) : string := if bool_decide (trim prev = "") then robotID else prev.

Definition RecordControlContention (robotID incomingIP incumbentIP policy reason : string) (at_ : go_time)
    (state : table) : table :=
  let robotID := trim robotID in
  if bool_decide (robotID = "") then state else
  let at_ := Some (normalizeAt clock at_) in
  let prev := prev_of state robotID in
  <[robotID :=
    {| RobotID := id_or (RobotID prev) robotID; RobotPublicIP := RobotPublicIP prev; RobotLocalIP := RobotLocalIP prev;
       RobotNATType := RobotNATType prev; ControlConnected := ControlConnected prev;
       ControlConnectedAt := ControlConnectedAt prev; ControlDisconnectedAt := ControlDisconnectedAt prev;
       LastControlContentionAt := latestTime (LastControlContentionAt prev) at_;
       LastControlContentionIncomingIP := trim incomingIP; LastControlContentionIncumbentIP := trim incumbentIP;
       LastControlContentionPolicy := trim policy; LastControlContentionReason := trim reason;
       LastHeartbeatAt := LastHeartbeatAt prev; LastSeenAt := latestTime (LastSeenAt prev) at_ |}]> state.

Definition TouchControlActivity (robotID : string) (at_ : go_time) (state : table) : table :=
  let robotID := trim robotID in
  if bool_decide (robotID = "") then state else
  let at_ := Some (normalizeAt clock at_) in
  let prev := prev_of state robotID in
  <[robotID :=
    {| RobotID := id_or (RobotID prev) robotID; RobotPublicIP := RobotPublicIP prev; RobotLocalIP := RobotLocalIP prev;
       RobotNATType := RobotNATType prev; ControlConnected := true;
       ControlConnectedAt :=
         if negb (ControlConnected prev) && IsZero (ControlConnectedAt prev) then at_ else ControlConnectedAt prev;
       ControlDisconnectedAt := None; LastControlContentionAt := LastControlContentionAt prev;
       LastControlContentionIncomingIP := LastControlContentionIncomingIP prev;
       LastControlContentionIncumbentIP := LastControlContentionIncumbentIP prev;
       LastControlContentionPolicy := LastControlContentionPolicy prev;
       LastControlContentionReason := LastControlContentionReason prev;
       LastHeartbeatAt := LastHeartbeatAt prev; LastSeenAt := latestTime (LastSeenAt prev) at_ |}]> state.

Definition SetControlDisconnected (robotID : string) (at_ : go_time) (state : table) : table :=
  let robotID := trim robotID in
  if bool_decide (robotID = "") then state else
  let at_ := Some (normalizeAt clock at_) in
  match state !! robotID with
  | None => state
  | Some prev =>
      <[robotID :=
        {| RobotID := RobotID prev; RobotPublicIP := RobotPublicIP prev; RobotLocalIP := RobotLocalIP prev;
           RobotNATType := RobotNATType prev; ControlConnected := false; ControlConnectedAt := ControlConnectedAt prev;
           ControlDisconnectedAt := latestTime (ControlDisconnectedAt prev) at_;
           LastControlContentionAt := LastControlContentionAt prev;
           LastControlContentionIncomingIP := LastControlContentionIncomingIP prev;
           LastControlContentionIncumbentIP := LastControlContentionIncumbentIP prev;
           LastControlContentionPolicy := LastControlContentionPolicy prev;
           LastControlContentionReason := LastControlContentionReason prev;
           LastHeartbeatAt := LastHeartbeatAt prev; LastSeenAt := latestTime (LastSeenAt prev) at_ |}]> state
  end.

(** The value and whether there is one. *)
Definition Snapshot (robotID : string) (state : table) : RobotRuntimeState * bool :=
  let robotID := trim robotID in
  if bool_decide (robotID = "") then (zero_state, false)
  else match state !! robotID with Some s => (s, true) | None => (zero_state, false) end.

Definition IsOnlineAt (s : RobotRuntimeState) (now : go_time) : bool :=
  let now := normalizeAt clock now in
  if negb (ControlConnected s) &&
     match ControlDisconnectedAt s with
     | Some d => match LastHeartbeatAt s with Some h => negb (After h d) | None => true end
     | None => false
     end
  then false else
  match LastHeartbeatAt s with
  | Some h => Sub now h <=? heartbeatOnlineTTL
  | None =>
      if negb (ControlConnected s) then false else
      match latestTime (ControlConnectedAt s) (LastSeenAt s) with
      | None => true
      | Some ref => Sub now ref <=? controlFallbackTTL
      end
  end.
End Operations.

Definition IsOnline (clock : Z) (s : RobotRuntimeState) : bool := IsOnlineAt clock s (Some clock).

(** ** Runs *)

Inductive op : Type :=
| OHeartbeat (robotID pub local natType : string) (at_ : go_time)
| OConnected (robotID pub local natType : string) (at_ : go_time)
| OContention (robotID incoming incumbent policy reason : string) (at_ : go_time)
| OTouch (robotID : string) (at_ : go_time)
| ODisconnected (robotID : string) (at_ : go_time).

(** An operation, with the clock it saw. *)
Definition apply (e : Z * op) (state : table) : table :=
  match e with
  | (clock, OHeartbeat r p l n t) => UpsertHeartbeat clock r p l n t state
  | (clock, OConnected r p l n t) => UpsertControlConnected clock r p l n t state
  | (clock, OContention r i j p q t) => RecordControlContention clock r i j p q t state
  | (clock, OTouch r t) => TouchControlActivity clock r t state
  | (clock, ODisconnected r t) => SetControlDisconnected clock r t state
  end.

Definition run (es : list (Z * op)) (state : table) : table := foldl (λ st e, apply e st) state es.

(** ** Histories *)

Definition robot (e : Z * op) : string :=
  trim match e.2 with
       | OHeartbeat r _ _ _ _ | OConnected r _ _ _ _ | OContention r _ _ _ _ _ | OTouch r _ | ODisconnected r _ => r
       end.
Definition when (e : Z * op) : Z :=
  normalizeAt e.1 match e.2 with
       | OHeartbeat _ _ _ _ t | OConnected _ _ _ _ t | OContention _ _ _ _ _ t | OTouch _ t | ODisconnected _ t => t
       end.
Definition is_beat (e : Z * op) : bool := match e.2 with OHeartbeat _ _ _ _ _ => true | _ => false end.
Definition is_up (e : Z * op) : bool := match e.2 with OConnected _ _ _ _ _ | OTouch _ _ => true | _ => false end.
Definition is_down (e : Z * op) : bool := match e.2 with ODisconnected _ _ => true | _ => false end.

(** What happened to a robot since it was first heard of. *)
Fixpoint known (h : list (Z * op)) : list (Z * op) :=
  match h with [] => [] | e :: h' => if is_down e then known h' else e :: h' end.
Definition history (r : string) (es : list (Z * op)) : list (Z * op) := known (filter (λ e, robot e = r) es).

Definition beats (h : list (Z * op)) : list Z := when <$> filter (λ e, is_beat e = true) h.
(** The disconnections since the control connection was last up. *)
Definition downs (h : list (Z * op)) : list Z :=
  foldl (λ ds e, if is_up e then [] else if is_down e then ds ++ [when e] else ds) [] h.
Definition was_up (h : list (Z * op)) : bool := existsb is_up h.

Definition max_of (m : go_time) (l : list Z) : Prop :=
  match m with None => l = [] | Some x => x ∈ l ∧ ∀ y, y ∈ l → y ≤ x end.

Lemma max_of_snoc m l t : max_of m l → max_of (latestTime m (Some t)) (l ++ [t]).
Proof.
  destruct m as [x|]; cbn.
  - intros [Hx Hm]. unfold After. case_match eqn:E; cbn; (split; [apply elem_of_app; set_solver|]);
      intros y [Hy|Hy%list_elem_of_singleton]%elem_of_app; try (pose proof (Hm y Hy)); lia.
  - intros ->. cbn. split; [by left|]. intros y Hy%list_elem_of_singleton. lia.
Qed.

Lemma latestTime_max a b l : max_of b l → (∀ x, a = Some x → x ∈ l) → latestTime a b = b.
Proof.
  intros Hb Ha. destruct a as [x|]; [|done]. specialize (Ha x eq_refl). destruct b as [y|]; cbn in *.
  - destruct Hb as [_ Hb]. pose proof (Hb x Ha). unfold After. case_match; [done|]. f_equal. lia.
  - subst. by apply not_elem_of_nil in Ha.
Qed.

Lemma latestTime_choice a t : latestTime a (Some t) = a ∨ latestTime a (Some t) = Some t.
Proof. destruct a; cbn; [case_match|]; auto. Qed.

Lemma known_snoc l e :
  known (l ++ [e]) = if bool_decide (known l = []) && is_down e then [] else known l ++ [e].
Proof.
  induction l as [|e' l IH]; cbn; [by destruct (is_down e)|].
  destruct (is_down e') eqn:E; [done|]. by rewrite bool_decide_eq_false_2.
Qed.

Lemma downs_snoc h e :
  downs (h ++ [e]) = if is_up e then [] else if is_down e then downs h ++ [when e] else downs h.
Proof. unfold downs. by rewrite foldl_app. Qed.

Lemma was_up_snoc h e : was_up (h ++ [e]) = was_up h || is_up e.
Proof. unfold was_up. rewrite existsb_app. cbn. by rewrite orb_false_r. Qed.

Lemma beats_snoc h e : beats (h ++ [e]) = beats h ++ if is_beat e then [when e] else [].
Proof. unfold beats. rewrite filter_app, fmap_app, filter_one. by destruct (is_beat e). Qed.

(** A state and what happened to its robot. *)
Record agrees (r : string) (h : list (Z * op)) (s : RobotRuntimeState) : Prop := {
  ag_id : RobotID s = r;
  ag_beat : max_of (LastHeartbeatAt s) (beats h);
  ag_seen : max_of (LastSeenAt s) (when <$> h);
  ag_down : max_of (ControlDisconnectedAt s) (downs h);
  ag_conn : ControlConnected s = was_up h && bool_decide (downs h = []);
  ag_since : ∀ x, ControlConnectedAt s = Some x → x ∈ when <$> h;
}.

Definition tracks (r : string) (h : list (Z * op)) (s : option RobotRuntimeState) : Prop :=
  match s with None => h = [] | Some s => h ≠ [] ∧ agrees r h s end.

(** An operation touches the entry of its robot only. *)
Lemma apply_other e st r : robot e ≠ r → apply e st !! r = st !! r.
Proof.
  intros Hr. destruct e as [clock []]; unfold robot in Hr; cbn -[trim] in *;
    unfold UpsertHeartbeat, UpsertControlConnected, RecordControlContention, TouchControlActivity, SetControlDisconnected;
    cbv zeta; (case_bool_decide; [done|]); try (by rewrite lookup_insert_ne).
  destruct (st !! trim _); [by rewrite lookup_insert_ne|done].
Qed.

Lemma prev_tracks r h st :
  tracks r h (st !! r) →
  max_of (LastHeartbeatAt (prev_of st r)) (beats h) ∧ max_of (LastSeenAt (prev_of st r)) (when <$> h)
  ∧ max_of (ControlDisconnectedAt (prev_of st r)) (downs h)
  ∧ ControlConnected (prev_of st r) = was_up h && bool_decide (downs h = [])
  ∧ (∀ x, ControlConnectedAt (prev_of st r) = Some x → x ∈ when <$> h)
  ∧ (RobotID (prev_of st r) = "" ∨ RobotID (prev_of st r) = r).
Proof.
  unfold prev_of. destruct (st !! r) as [s|]; cbn.
  - intros [_ [????? ?]]. split_and!; auto.
  - intros ->. split_and!; try done. by left.
Qed.

Lemma id_or_robot p r : trim r = r → p = "" ∨ p = r → id_or p r = r.
Proof. unfold id_or. intros Hr [-> | ->]; [done|]. rewrite Hr. by case_bool_decide. Qed.

Lemma in_snoc {A} (x : A) l y : x ∈ l → x ∈ l ++ [y].
Proof. intros. apply elem_of_app. by left. Qed.

Lemma apply_tracks r h e st :
  r ≠ "" → robot e = r → tracks r h (st !! r) →
  tracks r (if bool_decide (h = []) && is_down e then [] else h ++ [e]) (apply e st !! r).
Proof.
  intros Hr He Ht. assert (Htrim : trim r = r). { rewrite <-He. apply trim_idemp. }
  destruct (prev_tracks _ _ _ Ht) as (Hb & Hs & Hd & Hc & Ha & Hid).
  assert (Hnil : h ++ [e] ≠ []). { by destruct h. }
  pose proof (beats_snoc h e) as Eb. pose proof (downs_snoc h e) as Ed. pose proof (was_up_snoc h e) as Eu.
  pose proof (max_of_snoc _ _ (when e) Hs) as Hs'. pose proof (id_or_robot _ _ Htrim Hid) as Hid'.
  assert (Hin : when e ∈ when <$> (h ++ [e])). { rewrite fmap_app. apply elem_of_app. right. by left. }
  destruct e as [clock []]; unfold robot in He; cbn -[trim] in *; rewrite ?andb_false_r;
    unfold UpsertHeartbeat, UpsertControlConnected, RecordControlContention, TouchControlActivity, SetControlDisconnected;
    cbv zeta; rewrite ?app_nil_r in *; rewrite He, (bool_decide_eq_false_2 (r = "")) by done.
  1-4: rewrite lookup_insert_eq; cbn; (split; [done|]); split; cbn; rewrite ?Eb, ?Ed, ?Eu, ?orb_false_r, ?orb_true_r; try done;
    try (by rewrite fmap_app).
  all: try (by intros x Hx; rewrite fmap_app; apply in_snoc, Ha).
  - by apply max_of_snoc.
  - intros x Hx. destruct (latestTime_choice (ControlConnectedAt (prev_of st r)) (normalizeAt clock at_)) as [E|E];
      rewrite E in Hx; [rewrite fmap_app; by apply in_snoc, Ha|by injection Hx as <-].
  - intros x Hx. case_match; [by injection Hx as <-|]. rewrite fmap_app. by apply in_snoc, Ha.
  - rewrite andb_true_r. destruct (st !! r) as [s|] eqn:Hst; cbn in Ht.
    + destruct Ht as [Hh [????? ?]]. rewrite bool_decide_eq_false_2, lookup_insert_eq by done. cbn. split; [done|].
      unfold prev_of in *; rewrite Hst in *; cbn in *.
      split; cbn; rewrite ?Eb, ?Ed, ?Eu, ?orb_false_r; try done; [by rewrite fmap_app|by apply max_of_snoc| |].
      * symmetry. apply andb_false_iff. right. apply bool_decide_eq_false_2. by destruct (downs h).
      * intros x Hx. rewrite fmap_app. by apply in_snoc, Ha.
    + subst h. cbn. by rewrite Hst.
Qed.

Lemma run_tracks r es : r ≠ "" → tracks r (history r es) (run es ∅ !! r).
Proof.
  intros Hr. induction es as [|e es IH] using rev_ind; [done|].
  unfold run, history in *. rewrite foldl_app, filter_app, filter_one; cbn [foldl].
  case_bool_decide as He.
  - rewrite known_snoc. by apply apply_tracks.
  - rewrite app_nil_r, apply_other by done. done.
Qed.

(** ** Claims *)

(** C37: what the platform takes for a robot's liveness.  After any sequence of
    heartbeats, control connections, disconnections and contentions, of any robots
    and with times in any order, a robot's entry is there exactly if something other
    than a disconnection happened to it; it carries the robot's own name, the latest
    heartbeat and the latest event of this robot.  With a heartbeat on record the
    robot is online exactly if the latest one is no older than 75 s and later than
    every disconnection since the control connection was last up; without one,
    exactly if the control connection is up and the latest event is no older than
    90 s. *)
Theorem liveness_history es id now clock :
  let r := trim id in
  let h := history r es in
  r ≠ "" →
  match Snapshot id (run es ∅) with
  | (s, false) => h = []
  | (s, true) =>
      h ≠ [] ∧ RobotID s = r ∧ max_of (LastHeartbeatAt s) (beats h) ∧ max_of (LastSeenAt s) (when <$> h)
      ∧ (IsOnlineAt clock s (Some now) = true ↔
         match LastHeartbeatAt s, LastSeenAt s with
         | Some b, _ => now - b ≤ from_secs 75 ∧ ∀ d, d ∈ downs h → d < b
         | None, Some l => was_up h = true ∧ downs h = [] ∧ now - l ≤ from_secs 90
         | None, None => False
         end)
  end.
Proof.
  cbv zeta. intros Hr. unfold Snapshot. rewrite bool_decide_eq_false_2 by done.
  pose proof (run_tracks (trim id) es Hr) as Ht. destruct (run es ∅ !! trim id) as [s|]; [|done].
  destruct Ht as [Hh [Hid Hb Hs Hd Hc Ha]]. split_and!; [done..|].
  unfold IsOnlineAt; change (normalizeAt clock (Some now)) with now; cbv zeta. rewrite (latestTime_max _ _ _ Hs Ha).
  unfold heartbeatOnlineTTL, controlFallbackTTL. rewrite Hc.
  assert (Httl : ∀ t u, (Sub t u <=? from_secs 75) = (t - u <=? from_secs 75) ∧ (Sub t u <=? from_secs 90) = (t - u <=? from_secs 90)).
  { intros t u. by split; apply Sub_le; unfold minDuration, maxDuration, from_secs. }
  destruct (ControlDisconnectedAt s) as [d|]; cbn in Hd.
  - destruct Hd as [Hin Hmax]. rewrite (bool_decide_eq_false_2 (downs _ = [])) by (by intros E; rewrite E in Hin; apply not_elem_of_nil in Hin).
    rewrite andb_false_r; cbn [negb andb]. destruct (LastHeartbeatAt s) as [b|].
    + unfold After. destruct (Z.ltb_spec d b); cbn [negb].
      * rewrite (proj1 (Httl now b)), Z.leb_le. split; [|by intros [??]]. intros ?. split; [done|].
        intros d' Hd'. pose proof (Hmax d' Hd'). lia.
      * split; [done|]. intros [_ Hall]. pose proof (Hall d Hin). lia.
    + split; [done|]. destruct (LastSeenAt s); [|done]. intros (_ & E & _). rewrite E in Hin. by apply not_elem_of_nil in Hin.
  - rewrite Hd, bool_decide_eq_true_2, andb_true_r, andb_false_r by done. destruct (LastHeartbeatAt s) as [b|].
    + rewrite (proj1 (Httl now b)), Z.leb_le. split; [|by intros [??]]. intros ?. split; [done|].
      intros d Hd'. by apply not_elem_of_nil in Hd'.
    + destruct (LastSeenAt s) as [l|]; cbn in Hs; [|by apply fmap_nil_inv in Hs].
      rewrite (proj2 (Httl now l)). destruct (was_up _); cbn [negb]; [|split; [done|by intros [? _]]].
      rewrite Z.leb_le. naive_solver.
Qed.

(** A robot that reported, was disconnected and reported again, and another. *)
Definition demo_ops : list (Z * op) :=
  [(0, OHeartbeat " r1 " "1.2.3.4" "" "" (Some (from_secs 10))); (0, OConnected "r2" "" "" "cone" (Some (from_secs 20)));
   (0, OConnected "r1" "" "" "" (Some (from_secs 12))); (0, ODisconnected "r1" (Some (from_secs 30)));
   (from_secs 40, OHeartbeat "r1" "" "" "" None); (0, OHeartbeat "r1" "" "" "" (Some (from_secs 35)));
   (0, ODisconnected "r3" None)].

Definition demo_state : RobotRuntimeState := Eval vm_compute in (Snapshot "r1" (run demo_ops ∅)).1.
Lemma demo_snapshot : Snapshot "r1" (run demo_ops ∅) = (demo_state, true).
Proof. vm_compute. reflexivity. Qed.
Lemma demo_history : downs (history (trim "r1") demo_ops) = [from_secs 30].
Proof. vm_compute. reflexivity. Qed.

Lemma liveness_history_witness :
  LastHeartbeatAt demo_state = Some (from_secs 40)
  ∧ IsOnlineAt 0 demo_state (Some (from_secs 115)) = true
  ∧ IsOnlineAt 0 demo_state (Some (from_secs 116)) = false.
Proof.
  split_and!; [reflexivity| |reflexivity].
  assert (Hr : trim "r1" ≠ "") by (apply (bool_decide_eq_true_1 _); vm_compute; reflexivity).
  pose proof (liveness_history demo_ops "r1" (from_secs 115) 0 Hr) as H. rewrite demo_snapshot, demo_history in H.
  apply H. split; [apply (bool_decide_eq_true_1 _); reflexivity|].
  intros d Hd. apply list_elem_of_singleton in Hd as ->. reflexivity.
Defined.
End Connstate.

(** ** Back-off of calls that failed *)

Module Gate.

Definition from_millis (n : Z) : Z := n * 1000000.
Definition fallbackGateRetention : Z := from_secs (20 * 60).
Definition bootstrapFailureBackoffMin : Z := from_millis 500.
Definition bootstrapFailureBackoffMax : Z := from_secs 8.
Definition teardownFailureBackoffMin : Z := from_secs 1.
Definition teardownFailureBackoffMax : Z := from_secs 12.

Record fallbackTriggerState : Type := {
  nextAllowedAt : go_time;
  consecutiveFailures : Z;
  lastSeenAt : go_time;
}.

Definition zero_trigger : fallbackTriggerState :=
  {| nextAllowedAt := None; consecutiveFailures := 0; lastSeenAt := None |}.

(** [None] is the nil gate, which lets everything pass. *)
Abbreviation gate := (option (gmap string fallbackTriggerState)).
Definition newFallbackTriggerGate : gate := Some ∅.

Definition gateKey (robotID : string) (isTeardown : bool) : string :=
  let robotID := trim robotID in
  if bool_decide (robotID = "") then ""
  else if isTeardown then robotID +:+ ":teardown" else robotID +:+ ":bootstrap".

Definition normalizeGateNow (clock : Z) (now : go_time) : Z := default clock now.

(** What the pruning deletes. *)
Definition stale (now : Z) (s : fallbackTriggerState) : bool :=
  match lastSeenAt s with None => true | Some t => fallbackGateRetention <? Sub now t end.
Definition pruneLocked (now : Z) (states : gmap string fallbackTriggerState) : gmap string fallbackTriggerState :=
  filter (λ p, stale now p.2 = false) states.

(** The doubling loop, [steps] times. *)
Fixpoint double_upto (steps : nat) (backoff maxBackoff : Z) : Z :=
  match steps with
  | O => if maxBackoff <? backoff then maxBackoff else backoff
  | S steps =>
      let backoff := backoff * 2 in
      if maxBackoff <=? backoff then maxBackoff else double_upto steps backoff maxBackoff
  end.
Definition fallbackBackoff (failures : Z) (isTeardown : bool) : Z :=
  let base := if isTeardown then teardownFailureBackoffMin else bootstrapFailureBackoffMin in
  let maxBackoff := if isTeardown then teardownFailureBackoffMax else bootstrapFailureBackoffMax in
  if failures <=? 0 then base else
  let steps := failures - 1 in
  let steps := if 8 <? steps then 8 else steps in
  double_upto (Z.to_nat steps) base maxBackoff.

(** The three operations on the entry of their key. *)
Definition seen_at (now : Z) (s : fallbackTriggerState) : fallbackTriggerState :=
  {| nextAllowedAt := nextAllowedAt s; consecutiveFailures := consecutiveFailures s; lastSeenAt := Some now |}.
Definition failed_at (now : Z) (isTeardown : bool) (s : fallbackTriggerState) : fallbackTriggerState :=
  {| nextAllowedAt := Some (now + fallbackBackoff (consecutiveFailures s + 1) isTeardown);
     consecutiveFailures := consecutiveFailures s + 1; lastSeenAt := Some now |}.
Definition succeeded_at (now : Z) : fallbackTriggerState :=
  {| nextAllowedAt := None; consecutiveFailures := 0; lastSeenAt := Some now |}.
Definition may_pass (now : Z) (s : fallbackTriggerState) : bool :=
  match nextAllowedAt s with None => true | Some t => negb (After t now) end.

Section Operations.
Variable clock : Z.

(** The gate after [allow], and its answer. *)
Definition allow (robotID : string) (isTeardown : bool) (now : go_time) (g : gate) : gate * bool :=
  match g with
  | None => (None, true)
  | Some states =>
      let key := gateKey robotID isTeardown in
      if bool_decide (key = "") then (g, true) else
      let now := normalizeGateNow clock now in
      let states := pruneLocked now states in
      let state := seen_at now (default zero_trigger (states !! key)) in
      (Some (<[key := state]> states), may_pass now state)
  end.

Definition recordFailure (robotID : string) (isTeardown : bool) (now : go_time) (g : gate) : gate :=
  match g with
  | None => None
  | Some states =>
      let key := gateKey robotID isTeardown in
      if bool_decide (key = "") then g else
      let now := normalizeGateNow clock now in
      let states := pruneLocked now states in
      Some (<[key := failed_at now isTeardown (default zero_trigger (states !! key))]> states)
  end.

Definition recordSuccess (robotID : string) (isTeardown : bool) (now : go_time) (g : gate) : gate :=
  match g with
  | None => None
  | Some states =>
      let key := gateKey robotID isTeardown in
      if bool_decide (key = "") then g else
      let now := normalizeGateNow clock now in
      let states := pruneLocked now states in
      Some (<[key := succeeded_at now]> states)
  end.
End Operations.

(** ** Runs *)

Inductive gop : Type := GAllow | GFailure | GSuccess.
Record gcall : Type := { g_op : gop; g_robot : string; g_teardown : bool; g_now : Z }.

Definition gstep (c : gcall) (g : gate) : gate * option bool :=
  let now := Some (g_now c) in
  match g_op c with
  | GAllow => let '(g, b) := allow 0 (g_robot c) (g_teardown c) now g in (g, Some b)
  | GFailure => (recordFailure 0 (g_robot c) (g_teardown c) now g, None)
  | GSuccess => (recordSuccess 0 (g_robot c) (g_teardown c) now g, None)
  end.

Definition grun (cs : list gcall) (g : gate) : gate := foldl (λ g c, (gstep c g).1) g cs.

(** ** Histories *)

Definition g_key (c : gcall) : string := gateKey (g_robot c) (g_teardown c).
Definition own (k : string) (cs : list gcall) : list gcall := filter (λ c, g_key c = k) cs.

(** The times of the failures since the last success. *)
Definition streak (cs : list gcall) : list Z :=
  foldl (λ fs c, match g_op c with GAllow => fs | GFailure => fs ++ [g_now c] | GSuccess => [] end) [] cs.

(** The delay after so many failures in a row. *)
Definition delay (isTeardown : bool) (n : nat) : Z :=
  Z.min (if isTeardown then from_secs 12 else from_secs 8)
        ((if isTeardown then from_secs 1 else from_millis 500) * 2 ^ (Z.of_nat n - 1)).

Lemma double_upto_min steps b m : 0 < b → b ≤ m → double_upto steps b m = Z.min m (b * 2 ^ Z.of_nat steps).
Proof.
  revert b. induction steps as [|steps IH]; intros b Hb Hm; cbn [double_upto].
  - destruct (Z.ltb_spec m b); cbn; lia.
  - rewrite Nat2Z.inj_succ, Z.pow_succ_r by lia. destruct (Z.leb_spec m (b * 2)).
    + assert (0 < 2 ^ Z.of_nat steps) by (apply Z.pow_pos_nonneg; lia). nia.
    + rewrite IH by lia. f_equal. lia.
Qed.

Lemma fallbackBackoff_delay n td : (0 < n)%nat → fallbackBackoff (Z.of_nat n) td = delay td n.
Proof.
  intros Hn. unfold fallbackBackoff, delay.
  destruct (Z.leb_spec (Z.of_nat n) 0); [lia|].
  set (base := if td then teardownFailureBackoffMin else bootstrapFailureBackoffMin).
  set (m := if td then teardownFailureBackoffMax else bootstrapFailureBackoffMax).
  assert (Hb : 0 < base ∧ base ≤ m ∧ m ≤ base * 2 ^ 8) by (by destruct td).
  replace (if td then from_secs 12 else from_secs 8) with m by (by destruct td).
  replace (if td then from_secs 1 else from_millis 500) with base by (by destruct td).
  rewrite double_upto_min by lia. destruct (Z.ltb_spec 8 (Z.of_nat n - 1)).
  - change (Z.of_nat (Z.to_nat 8)) with 8.
    assert (2 ^ 8 ≤ 2 ^ (Z.of_nat n - 1)) by (apply Z.pow_le_mono_r; lia). nia.
  - by rewrite Z2Nat.id by lia.
Qed.

Lemma Sorted_snoc {A} (R : A → A → Prop) l x :
  Sorted R (l ++ [x]) ↔ Sorted R l ∧ ∀ y, last l = Some y → R y x.
Proof.
  induction l as [|a l IH]; [by repeat constructor|].
  destruct l as [|b l]; cbn.
  - split; [intros H; inv H|intros [_ H]]; [|by repeat constructor; apply H].
    split; [by repeat constructor|]. intros y [= <-]. by match goal with H : HdRel _ _ _ |- _ => inv H end.
  - split.
    + intros H; inv H. apply IH in H2 as [Hs Hl]. split; [|done]. constructor; [done|]. by inv H3; constructor.
    + intros [H Hl]; inv H. constructor; [by apply IH|]. by inv H3; constructor.
Qed.

Lemma streak_snoc cs c :
  streak (cs ++ [c]) = match g_op c with GAllow => streak cs | GFailure => streak cs ++ [g_now c] | GSuccess => [] end.
Proof. unfold streak. by rewrite foldl_app. Qed.

(** The entry of a key and the calls on it. *)
Record entry_ok (isTeardown : bool) (cs : list gcall) (s : fallbackTriggerState) : Prop := {
  eo_seen : lastSeenAt s = last (g_now <$> cs);
  eo_count : consecutiveFailures s = Z.of_nat (length (streak cs));
  eo_next : nextAllowedAt s = (λ t, t + delay isTeardown (length (streak cs))) <$> last (streak cs);
}.

Fixpoint last_char (s : string) : option ascii :=
  match s with "" => None | String c "" => Some c | String _ s => last_char s end.
Lemma last_char_app a c s : last_char (a +:+ String c s) = last_char (String c s).
Proof. induction a as [|b a IH]; [done|]. rewrite <-IH. by destruct a. Qed.

(** A key tells which kind of call it is for. *)
Lemma gateKey_kind r b r' b' : gateKey r b = gateKey r' b' → gateKey r b ≠ "" → b = b'.
Proof.
  unfold gateKey; cbv zeta. case_bool_decide; [done|]. case_bool_decide; [destruct b; by intros ->|]. intros E _.
  apply (f_equal last_char) in E. by destruct b, b'; rewrite ?last_char_app in E.
Qed.

Definition gate_ok (k : string) (td : bool) (cs : list gcall) (t : Z) (states : gmap string fallbackTriggerState) : Prop :=
  match states !! k with
  | Some s => own k cs ≠ [] ∧ entry_ok td (own k cs) s
  | None => own k cs = [] ∨ ∃ u, last (g_now <$> own k cs) = Some u ∧ fallbackGateRetention < t - u
  end.

Lemma own_snoc k cs c : own k (cs ++ [c]) = if bool_decide (g_key c = k) then own k cs ++ [c] else own k cs.
Proof. unfold own. rewrite filter_app, filter_one. case_bool_decide; [done|by rewrite app_nil_r]. Qed.

Lemma stale_spec now u s :
  lastSeenAt s = Some u → stale now s = (fallbackGateRetention <? now - u).
Proof.
  unfold stale. intros ->. pose proof (Sub_le now u fallbackGateRetention) as H.
  rewrite <-(negb_involutive (_ <? Sub _ _)), <-(negb_involutive (_ <? now - u)). f_equal.
  rewrite <-!Z.leb_antisym. by apply H.
Qed.

Lemma last_own (cs : list gcall) : cs ≠ [] → ∃ u, last (g_now <$> cs) = Some u.
Proof. destruct cs as [|a cs _] using rev_ind; [done|]. intros _. exists (g_now a). rewrite fmap_app. apply last_snoc. Qed.

(** Pruning keeps the entry or finds it old. *)
Lemma prune_ok k td cs t t' states :
  t ≤ t' → gate_ok k td cs t states → gate_ok k td cs t' (pruneLocked t' states).
Proof.
  intros Ht. unfold gate_ok, pruneLocked. rewrite map_lookup_filter. destruct (states !! k) as [s|]; cbn.
  - intros [Hne Hs]. destruct (last_own _ Hne) as [u Hu].
    pose proof (stale_spec t' u s) as Hst. rewrite (eo_seen _ _ _ Hs) in Hst. specialize (Hst Hu).
    case_guard as G; cbn; [done|]. right. exists u. split; [done|]. rewrite Hst in G. lia.
  - intros [?|(u & ? & ?)]; [by left|]. right. exists u. split; [done|lia].
Qed.

(** With the calls close enough together the entry is there. *)
Lemma gate_ok_entry k td cs t states :
  gate_ok k td cs t states → (∀ u, last (g_now <$> own k cs) = Some u → t - u ≤ fallbackGateRetention) →
  entry_ok td (own k cs) (default zero_trigger (states !! k)).
Proof.
  unfold gate_ok. destruct (states !! k) as [s|]; cbn; [by intros [_ ?]|].
  intros [->|(u & Hu & Hold)] H; [done|]. pose proof (H u Hu). lia.
Qed.

Lemma entry_ok_step td cs c s :
  g_teardown c = td → entry_ok td cs s →
  entry_ok td (cs ++ [c]) match g_op c with
    | GAllow => seen_at (g_now c) s | GFailure => failed_at (g_now c) (g_teardown c) s | GSuccess => succeeded_at (g_now c) end.
Proof.
  intros Htd [Hs Hc Hn]. destruct (g_op c) eqn:E; split; cbn; rewrite ?streak_snoc, ?E; try done;
    try (rewrite fmap_app; symmetry; apply last_snoc).
  - rewrite Hc, length_app; cbn. lia.
  - rewrite last_snoc; cbn. rewrite Htd, Hc. f_equal. f_equal.
    replace (Z.of_nat (length (streak cs)) + 1) with (Z.of_nat (length (streak cs ++ [g_now c]))) by (rewrite length_app; cbn; lia).
    apply fallbackBackoff_delay. rewrite length_app; cbn. lia.
Qed.

(** The states of a gate that is not nil. *)
Lemma gstep_states c states :
  ∃ states', (gstep c (Some states)).1 = Some states' ∧
  states' = if bool_decide (g_key c = "") then states else
    let pruned := pruneLocked (g_now c) states in
    let s := default zero_trigger (pruned !! g_key c) in
    <[g_key c := match g_op c with
       | GAllow => seen_at (g_now c) s | GFailure => failed_at (g_now c) (g_teardown c) s
       | GSuccess => succeeded_at (g_now c) end]> pruned.
Proof.
  unfold gstep, allow, recordFailure, recordSuccess, g_key. destruct (g_op c); cbn; case_bool_decide; eexists; by split.
Qed.

Lemma gstep_ok k td cs c t states states' :
  k ≠ "" → (g_key c = k → g_teardown c = td) → t ≤ g_now c →
  (g_key c = k → ∀ u, last (g_now <$> own k cs) = Some u → g_now c - u ≤ fallbackGateRetention) →
  gate_ok k td cs t states → (gstep c (Some states)).1 = Some states' → gate_ok k td (cs ++ [c]) (g_now c) states'.
Proof.
  intros Hk Htd Ht Hgap Hok Hs. destruct (gstep_states c states) as (st & E & ->). rewrite E in Hs. injection Hs as <-.
  pose proof (prune_ok _ _ _ _ _ _ Ht Hok) as Hp. unfold gate_ok. rewrite own_snoc.
  destruct (decide (g_key c = k)) as [<-|Hne].
  - rewrite (bool_decide_eq_false_2 (g_key c = "")), bool_decide_eq_true_2 by done. cbv zeta. rewrite lookup_insert_eq.
    split; [by destruct (own _ cs)|]. apply entry_ok_step; [by apply Htd|].
    eapply gate_ok_entry; [exact Hp|by apply Hgap].
  - rewrite (bool_decide_eq_false_2 (g_key c = k)) by done. case_bool_decide.
    + unfold gate_ok in Hok. destruct (states !! k); [done|]. destruct Hok as [?|(u & ? & ?)]; [by left|].
      right. exists u. split; [done|lia].
    + cbv zeta. rewrite lookup_insert_ne by done. exact Hp.
Qed.

Lemma gate_ok_mono k td cs t t' states : t ≤ t' → gate_ok k td cs t states → gate_ok k td cs t' states.
Proof.
  intros Ht. unfold gate_ok. destruct (states !! k); [done|]. intros [?|(u & ? & ?)]; [by left|].
  right. exists u. split; [done|lia].
Qed.

Lemma grun_ok k td cs :
  k ≠ "" → (∀ c, g_key c = k → g_teardown c = td) → Sorted Z.le (g_now <$> cs) →
  Sorted (λ t u, u - t ≤ fallbackGateRetention) (g_now <$> own k cs) →
  ∃ states, grun cs newFallbackTriggerGate = Some states
  ∧ ∀ t, (∀ u, last (g_now <$> cs) = Some u → u ≤ t) → gate_ok k td cs t states.
Proof.
  intros Hk Htd. induction cs as [|c cs IH] using rev_ind; intros Hle Hgap.
  { exists ∅. split; [done|]. intros t _. by left. }
  rewrite fmap_app in Hle. apply Sorted_snoc in Hle as [Hle Hlast].
  assert (Hgap' : Sorted (λ t u, u - t ≤ fallbackGateRetention) (g_now <$> own k cs)
    ∧ (g_key c = k → ∀ u, last (g_now <$> own k cs) = Some u → g_now c - u ≤ fallbackGateRetention)).
  { rewrite own_snoc in Hgap. case_bool_decide; [|done]. rewrite fmap_app in Hgap. apply Sorted_snoc in Hgap as [??]. by split. }
  destruct Hgap' as [Hg1 Hg2]. destruct (IH Hle Hg1) as (states & Hr & Hok).
  unfold grun in *. rewrite foldl_app; cbn [foldl]. rewrite Hr.
  destruct (gstep_states c states) as (states' & E & _). exists states'. split; [done|].
  intros t Ht. apply (gate_ok_mono _ _ _ (g_now c)); [apply Ht; rewrite fmap_app; apply last_snoc|].
  eapply (gstep_ok k td cs c (g_now c)); [done|by auto|lia|done|by apply Hok|done].
Qed.

(** ** Claims *)


Definition demo_calls : list gcall :=
  [{| g_op := GFailure; g_robot := "r1"; g_teardown := false; g_now := from_secs 1 |};
   {| g_op := GFailure; g_robot := " r1 "; g_teardown := false; g_now := from_secs 2 |};
   {| g_op := GSuccess; g_robot := "r1"; g_teardown := true; g_now := from_secs 2 |};
   {| g_op := GFailure; g_robot := "r2"; g_teardown := false; g_now := from_secs 3 |};
   {| g_op := GFailure; g_robot := "r1"; g_teardown := false; g_now := from_secs 3 |}].

Lemma demo_streak : streak (own (gateKey "r1" false) demo_calls) = [from_secs 1; from_secs 2; from_secs 3].
Proof. vm_compute. reflexivity. Qed.

End Gate.
