(* ===== verification/Evidence.v ===== *)
(** * What the platform knows of connection attempts (go/connstate/evidence.go)

    Profiles that agents and command-line clients report about themselves, and the
    sessions, one per connection attempt, that collect the evidence of both ends and of
    the platform.  Strings are cleaned when they are stored; sessions are dropped half
    an hour after their last update, by the next update of any session.

    Every operation holds the package's lock from its first access on.  Copies of
    slices and maps keep a caller's changes out of the tables; values have no such
    aliases here.  [time.Format] and [time.Parse] with RFC 3339 are the interface
    [Rfc3339]; a [float64] is only compared. *)

From Stdlib Require Import Ascii String.
From S2P Require Import Prelude Text ConnState.
Import Connstate.

(** Times are printed to the second, and read back as such. *)
Class Rfc3339 : Type := {
  Format : Z → string;
  Parse : string → go_time;
  time_ok : Z → Prop;
  format_trim t : trim (Format t) = Format t;
  format_nonempty t : Format t ≠ "";
  parse_format t : time_ok t → Parse (Format t) = Some (from_secs (t / from_secs 1));
}.

Class Float64 : Type := {
  float64 : Type;
  float_lt : float64 → float64 → bool;
  float_0 : float64;
  float_1 : float64;
}.

Record LastKnownGoodRoute : Type := {
  lkg_RouteType : string;
  lkg_PublicIP : string;
  lkg_PrivateAddrs : list string;
  lkg_ObservedAt : string;
}.

Record EndpointProfile `{Float64} : Type := {
  PrivateAddrs : list string;
  DefaultIface : string;
  DefaultGateway : string;
  PublicIPHint : string;
  TransportCaps : list string;
  NetworkTags : list string;
  LastKnownGood : option LastKnownGoodRoute;
  Source : string;
  ObservedAt : string;
  TTLSeconds : Z;
  Confidence : float64;
}.

Record PlatformObservation : Type := {
  ObservedSrcIP : string;
  ObservedVia : string;
  ProxyTrusted : bool;
  ConnectedAt : string;
  obs_LastHeartbeatAt : string;
  CPRTTMs : Z;
  WSUpgradeOK : bool;
  TurnCredFetchOK : bool;
  obs_BootstrapID : string;
  obs_Phase : string;
  obs_PhaseElapsedMs : Z;
}.

Record BootstrapSession `{Float64} : Type := {
  SessionID : string;
  s_BootstrapID : string;
  s_RobotID : string;
  UserID : string;
  CLIID : string;
  StartedAt : string;
  UpdatedAt : string;
  s_AgentProfile : option EndpointProfile;
  s_CLIProfile : option EndpointProfile;
  Observation : option PlatformObservation;
  Phase : string;
  PhaseElapsedMs : Z;
  SelectedRoute : string;
  WhyChosen : list string;
  WhyNot : gmap string (list string);
}.

Definition sessionRetention : Z := from_secs (30 * 60).

(** ** Cleaning *)

(** The loop of [cleanStrings]: [seen] are the strings kept so far. *)
Fixpoint clean_loop (seen : gset string) (values : list string) : list string :=
  match values with
  | [] => []
  | v :: values =>
      let v := trim v in
      if bool_decide (v = "") then clean_loop seen values
      else if bool_decide (v ∈ seen) then clean_loop seen values
      else v :: clean_loop ({[v]} ∪ seen) values
  end.
Definition cleanStrings (values : list string) : list string := sort_strings (clean_loop ∅ values).

(** The first of the values that is not blank, trimmed. *)
Fixpoint firstNonEmpty (values : list string) : string :=
  match values with
  | [] => ""
  | v :: values => if bool_decide (trim v ≠ "") then trim v else firstNonEmpty values
  end.

(** The routes of a map in the order [range] gives them: a later one replaces an
    earlier one whose name is trimmed to the same. *)
Definition add_reasons (out : gmap string (list string)) (kv : string * list string) : gmap string (list string) :=
  let route := trim kv.1 in
  if bool_decide (route = "") then out
  else match cleanStrings kv.2 with [] => out | clean => <[route := clean]> out end.
Definition normalizeWhyNot (order : gmap string (list string) → list (string * list string))
    (in_ : gmap string (list string)) : gmap string (list string) :=
  foldl add_reasons ∅ (order in_).

Section Evidence.
Context `{R : !Rfc3339, F : !Float64}.
(** The order in which [range] visits a map, and what [time.Now] gives. *)
Variable order : gmap string (list string) → list (string * list string).
Variable clock : Z.

Definition parseRFC3339Safe (raw : string) : go_time :=
  let raw := trim raw in if bool_decide (raw = "") then None else Parse raw.

Definition normalizeProfile (profile : EndpointProfile) (at_ : go_time) : EndpointProfile :=
  {| PrivateAddrs := cleanStrings (PrivateAddrs profile);
     DefaultIface := trim (DefaultIface profile);
     DefaultGateway := trim (DefaultGateway profile);
     PublicIPHint := trim (PublicIPHint profile);
     TransportCaps := cleanStrings (TransportCaps profile);
     NetworkTags := cleanStrings (NetworkTags profile);
     LastKnownGood := (λ lkg,
       {| lkg_RouteType := trim (lkg_RouteType lkg); lkg_PublicIP := trim (lkg_PublicIP lkg);
          lkg_PrivateAddrs := cleanStrings (lkg_PrivateAddrs lkg); lkg_ObservedAt := trim (lkg_ObservedAt lkg) |})
       <$> LastKnownGood profile;
     Source := trim (Source profile);
     ObservedAt := firstNonEmpty [trim (ObservedAt profile); Format (normalizeAt clock at_)];
     TTLSeconds := if TTLSeconds profile <? 0 then 0 else TTLSeconds profile;
     Confidence :=
       let c := if float_lt (Confidence profile) float_0 then float_0 else Confidence profile in
       if float_lt float_1 c then float_1 else c |}.

Definition normalizeObservation (obs : PlatformObservation) (at_ : go_time) : PlatformObservation :=
  {| ObservedSrcIP := trim (ObservedSrcIP obs); ObservedVia := trim (ObservedVia obs); ProxyTrusted := ProxyTrusted obs;
     ConnectedAt := firstNonEmpty [trim (ConnectedAt obs); Format (normalizeAt clock at_)];
     obs_LastHeartbeatAt := trim (obs_LastHeartbeatAt obs);
     CPRTTMs := if CPRTTMs obs <? 0 then 0 else CPRTTMs obs;
     WSUpgradeOK := WSUpgradeOK obs; TurnCredFetchOK := TurnCredFetchOK obs;
     obs_BootstrapID := trim (obs_BootstrapID obs); obs_Phase := trim (obs_Phase obs);
     obs_PhaseElapsedMs := if obs_PhaseElapsedMs obs <? 0 then 0 else obs_PhaseElapsedMs obs |}.

(** ** Profiles *)

Definition UpsertAgentProfile (robotID : string) (profile : EndpointProfile) (at_ : go_time)
    (agentProfile : gmap string EndpointProfile) : gmap string EndpointProfile :=
  let robotID := trim robotID in
  if bool_decide (robotID = "") then agentProfile else <[robotID := normalizeProfile profile at_]> agentProfile.

Definition AgentProfile (robotID : string) (agentProfile : gmap string EndpointProfile) : option EndpointProfile :=
  let robotID := trim robotID in if bool_decide (robotID = "") then None else agentProfile !! robotID.

(** The command-line clients' table works the same way. *)
Definition UpsertCLIProfile (cliID : string) (profile : EndpointProfile) (at_ : go_time)
    (cliProfile : gmap string EndpointProfile) : gmap string EndpointProfile :=
  let cliID := trim cliID in
  if bool_decide (cliID = "") then cliProfile else <[cliID := normalizeProfile profile at_]> cliProfile.

Definition CLIProfile (cliID : string) (cliProfile : gmap string EndpointProfile) : option EndpointProfile :=
  let cliID := trim cliID in if bool_decide (cliID = "") then None else cliProfile !! cliID.

(** ** Sessions *)

(** [ref.Before(now.Add(-sessionRetention))], for a session whose time is known. *)
Definition expired (now : Z) (s : BootstrapSession) : bool :=
  let ref := match parseRFC3339Safe (UpdatedAt s) with None => parseRFC3339Safe (StartedAt s) | ref => ref end in
  match ref with Some ref => ref <? now - sessionRetention | None => false end.

Definition pruneExpiredSessionsLocked (now : Z) (sessions : gmap string BootstrapSession) : gmap string BootstrapSession :=
  filter (λ ks, expired now ks.2 = false) sessions.

(** The session as it is stored, given the one it replaces. *)
Definition stored (session : BootstrapSession) (now : Z) (prev : option BootstrapSession) : BootstrapSession :=
  let started := match prev with Some p => firstNonEmpty [StartedAt session; StartedAt p] | None => StartedAt session end in
  {| SessionID := trim (SessionID session); s_BootstrapID := trim (s_BootstrapID session);
     s_RobotID := trim (s_RobotID session); UserID := trim (UserID session); CLIID := trim (CLIID session);
     StartedAt := if bool_decide (trim started = "") then Format now else started;
     UpdatedAt := Format now;
     s_AgentProfile := (λ p, normalizeProfile p (Some now)) <$> s_AgentProfile session;
     s_CLIProfile := (λ p, normalizeProfile p (Some now)) <$> s_CLIProfile session;
     Observation := (λ o, normalizeObservation o (Some now)) <$> Observation session;
     Phase := trim (Phase session); PhaseElapsedMs := PhaseElapsedMs session;
     SelectedRoute := trim (SelectedRoute session); WhyChosen := cleanStrings (WhyChosen session);
     WhyNot := normalizeWhyNot order (WhyNot session) |}.

Definition UpsertSession (session : BootstrapSession) (at_ : go_time) (sessions : gmap string BootstrapSession) :
    option BootstrapSession * gmap string BootstrapSession :=
  let sessionID := trim (SessionID session) in
  if bool_decide (sessionID = "") then (None, sessions) else
  let now := normalizeAt clock at_ in
  let sessions := pruneExpiredSessionsLocked now sessions in
  let session := stored session now (sessions !! sessionID) in
  (Some session, <[sessionID := session]> sessions).

Definition SessionSnapshot (sessionID : string) (sessions : gmap string BootstrapSession) : option BootstrapSession :=
  let sessionID := trim sessionID in if bool_decide (sessionID = "") then None else sessions !! sessionID.
End Evidence.

(** ** Lemmas *)

Lemma clean_loop_elem v seen l : v ∈ clean_loop seen l ↔ v ≠ "" ∧ ¬ (v ∈ seen) ∧ v ∈ trim <$> l.
Proof.
  revert seen; induction l as [|x l IH]; intros seen; cbn [clean_loop fmap list_fmap]; [set_solver|].
  case_bool_decide as E; [rewrite IH; set_solver|]. case_bool_decide as E'; [rewrite IH; set_solver|].
  rewrite elem_of_cons, IH. split; [set_solver|]. intros (Hv & Hs & [->|Hl]%elem_of_cons); [by left|].
  destruct (decide (v = trim x)); [by left|]. right. set_solver.
Qed.

Lemma clean_loop_NoDup seen l : NoDup (clean_loop seen l).
Proof.
  revert seen; induction l as [|x l IH]; intros seen; cbn [clean_loop]; [constructor|].
  repeat (case_bool_decide; [apply IH|]). constructor; [rewrite clean_loop_elem; set_solver|apply IH].
Qed.

(** Cleaning gives the trimmed strings that are not blank, each once, in order. *)
Lemma cleanStrings_spec l : cleanStrings l = sort_dedup (filter (.≠ "") (trim <$> l)).
Proof.
  apply sorted_set_unique; [apply sort_strings_sorted|apply sort_dedup_sorted| |apply sort_dedup_NoDup|].
  - unfold cleanStrings. rewrite sort_strings_Permutation. apply clean_loop_NoDup.
  - intros x. unfold cleanStrings. rewrite sort_strings_Permutation, sort_dedup_elem_of, clean_loop_elem, list_elem_of_filter.
    set_solver.
Qed.

Lemma cleanStrings_idemp l : cleanStrings (cleanStrings l) = cleanStrings l.
Proof.
  rewrite !cleanStrings_spec. apply sort_dedup_ext. intros x. rewrite !list_elem_of_filter. split.
  - intros [Hx (y & -> & Hy)%list_elem_of_fmap]. apply sort_dedup_elem_of, list_elem_of_filter in Hy as [Hy (z & -> & Hz)%list_elem_of_fmap].
    rewrite trim_idemp. split; [done|]. by apply list_elem_of_fmap_2.
  - intros [Hx (y & -> & Hy)%list_elem_of_fmap]. split; [done|]. apply list_elem_of_fmap. exists (trim y).
    split; [by rewrite trim_idemp|]. apply sort_dedup_elem_of, list_elem_of_filter. split; [done|]. by apply list_elem_of_fmap_2.
Qed.

Section Sessions.
Context `{R : !Rfc3339, F : !Float64}.
Variable order : gmap string (list string) → list (string * list string).
Variable clock : Z.

(** Updates of sessions with their times. *)
Abbreviation updates := (list (BootstrapSession * Z)).
Definition run_updates (es : updates) : gmap string BootstrapSession :=
  foldl (λ ss e, (UpsertSession order clock e.1 (Some e.2) ss).2) ∅ es.

Definition names (r : string) (e : BootstrapSession * Z) : Prop := trim (SessionID e.1) = r.

(** The last moment at which an update of time [t] is still kept: RFC 3339 has seconds. *)
Definition kept_until (t : Z) : Z := from_secs (t / from_secs 1) + sessionRetention.

Lemma parse_stored t : time_ok t → parseRFC3339Safe (Format t) = Some (from_secs (t / from_secs 1)).
Proof.
  intros Ht. unfold parseRFC3339Safe. rewrite format_trim, bool_decide_eq_false_2 by apply format_nonempty. by apply parse_format.
Qed.

Lemma expired_stored now x t prev : time_ok t → expired now (stored order clock x t prev) = (kept_until t <? now).
Proof.
  intros Ht. unfold expired; cbn [stored UpdatedAt]. rewrite (parse_stored t Ht). unfold kept_until.
  apply eq_true_iff_eq. rewrite !Z.ltb_lt. lia.
Qed.

Lemma run_snoc es e : run_updates (es ++ [e]) = (UpsertSession order clock e.1 (Some e.2) (run_updates es)).2.
Proof. unfold run_updates. by rewrite foldl_app. Qed.

Lemma prune_lookup now ss r : pruneExpiredSessionsLocked now ss !! r = s ← ss !! r; if expired now s then None else Some s.
Proof.
  unfold pruneExpiredSessionsLocked. destruct (ss !! r) as [s|] eqn:Hs; cbn.
  - destruct (expired now s) eqn:He.
    + apply map_lookup_filter_None. right. intros s' Hs'. rewrite Hs in Hs'. injection Hs' as <-. cbn. congruence.
    + apply map_lookup_filter_Some. by split.
  - apply map_lookup_filter_None. by left.
Qed.

Lemma upsert_lookup e ss r :
  r ≠ "" → (UpsertSession order clock e.1 (Some e.2) ss).2 !! r =
    if bool_decide (trim (SessionID e.1) = "") then ss !! r
    else if bool_decide (trim (SessionID e.1) = r) then Some (stored order clock e.1 e.2 (pruneExpiredSessionsLocked e.2 ss !! r))
    else s ← ss !! r; if expired e.2 s then None else Some s.
Proof.
  intros Hr. unfold UpsertSession. cbv zeta. cbn [normalizeAt default]. case_bool_decide as E; [done|]. cbn [snd].
  case_bool_decide as E'; [subst r; by rewrite lookup_insert_eq|]. rewrite lookup_insert_ne by done. apply prune_lookup.
Qed.

(** What an entry says about the updates so far. *)
Definition last_update (r : string) (es : updates) (s : BootstrapSession) : Prop :=
  ∃ pre x t post, es = pre ++ (x, t) :: post ∧ names r (x, t) ∧ Forall (λ e, ¬ names r e) post
  ∧ Forall (λ e, names "" e ∨ e.2 ≤ kept_until t) post
  ∧ s = stored order clock x t (pruneExpiredSessionsLocked t (run_updates pre) !! r).
Definition no_update (r : string) (es : updates) : Prop :=
  ∀ pre x t post, es = pre ++ (x, t) :: post → names r (x, t) → Forall (λ e, ¬ names r e) post →
    ∃ e, e ∈ post ∧ ¬ names "" e ∧ kept_until t < e.2.

Lemma no_update_snoc r es e : no_update r es → ¬ names r e → no_update r (es ++ [e]).
Proof.
  intros Hno He pre x t post Heq Hn Hp. destruct post as [|p post _] using rev_ind.
  - apply app_inj_tail in Heq as [_ ->]. done.
  - rewrite app_comm_cons, app_assoc in Heq. apply app_inj_tail in Heq as [-> ->]. apply Forall_app in Hp as [Hp _].
    destruct (Hno pre x t post) as (y & Hy & Hy'); [done..|]. exists y. split; [apply elem_of_app; by left|done].
Qed.

Lemma last_naming r pre x t post pre' x' t' post' :
  pre ++ (x, t) :: post = pre' ++ (x', t') :: post' → names r (x, t) → names r (x', t') →
  Forall (λ e, ¬ names r e) post → Forall (λ e, ¬ names r e) post' → t' = t.
Proof.
  intros Heq Hn Hn' Hp Hp'. apply app_eq_inv in Heq as [(k & -> & Hk)|(k & -> & Hk)]; destruct k as [|y k]; cbn in Hk.
  - by injection Hk as -> -> ->.
  - injection Hk as <- ->. apply Forall_app in Hp' as [_ Hp']. by apply Forall_cons in Hp' as [Hp' _].
  - by injection Hk as -> -> ->.
  - injection Hk as <- ->. apply Forall_app in Hp as [_ Hp]. by apply Forall_cons in Hp as [Hp _].
Qed.

Lemma last_update_snoc r es s e :
  last_update r es s → Forall (λ e, time_ok e.2) es → ¬ names r e →
  if bool_decide (trim (SessionID e.1) = "") || negb (expired e.2 s) then last_update r (es ++ [e]) s else no_update r (es ++ [e]).
Proof.
  intros (pre & x & t & post & -> & Hn & Hp & Hk & Hs) Hok He.
  assert (Ht : time_ok t). { apply Forall_app in Hok as [_ Hok]. by apply Forall_cons in Hok as [Hok _]. }
  assert (Hx : expired e.2 s = (kept_until t <? e.2)) by (rewrite Hs; by apply expired_stored).
  destruct (bool_decide _ || negb (expired e.2 s)) eqn:Hb.
  - exists pre, x, t, (post ++ [e]). split_and!; [by rewrite <-app_assoc|done|..|done].
    + apply Forall_app. split; [done|by constructor].
    + apply Forall_app. split; [done|]. constructor; [|constructor].
      apply orb_true_iff in Hb as [Hb%bool_decide_eq_true|Hb]; [by left|right]. rewrite Hx in Hb. lia.
  - apply orb_false_iff in Hb as [Hne%bool_decide_eq_false Hb]. rewrite Hx in Hb.
    intros pre' x' t' post' Heq Hn' Hp'. exists e.
    destruct post' as [|p post' _] using rev_ind; [by apply app_inj_tail in Heq as [_ ->]|].
    rewrite (app_comm_cons post'), (app_assoc pre') in Heq. apply app_inj_tail in Heq as [Heq ->].
    apply Forall_app in Hp' as [Hp' _]. split; [apply elem_of_app; right; by left|]. split; [done|].
    assert (t' = t) as -> by (by eapply (last_naming r pre x t post pre' x' t' post')). lia.
Qed.

(** A session is kept exactly half an hour.  After any updates of any sessions, in
    any order of times, a session is found if and only if it was updated and none of
    the updates since (of any session) came more than 30 minutes after its last update,
    counted from the full second.  What is found is that last update, with its strings
    cleaned, its time as the time of update, and the start of the entry it replaced
    unless it brings its own. *)
Theorem session_retained es id :
  trim id ≠ "" → Forall (λ e, time_ok e.2) es →
  match SessionSnapshot id (run_updates es) with
  | Some s => last_update (trim id) es s
  | None => no_update (trim id) es
  end.
Proof.
  intros Hid. unfold SessionSnapshot. cbv zeta. rewrite bool_decide_eq_false_2 by done.
  induction es as [|e es IH] using rev_ind; intros Hok.
  { unfold run_updates; cbn [foldl]. rewrite lookup_empty. intros pre x t post Heq. by destruct pre. }
  apply Forall_app in Hok as [Hok He]. specialize (IH Hok). rewrite run_snoc, (upsert_lookup e _ _ Hid).
  case_bool_decide as E1; [|case_bool_decide as E2].
  - assert (Hne : ¬ names (trim id) e) by (unfold names; congruence).
    destruct (run_updates es !! trim id) as [s|]; [|by apply no_update_snoc].
    pose proof (last_update_snoc _ _ _ _ IH Hok Hne) as H. by rewrite bool_decide_eq_true_2 in H.
  - destruct e as [x t]. exists es, x, t, []. by split_and!.
  - destruct (run_updates es !! trim id) as [s|]; cbn [mbind option_bind]; [|by apply no_update_snoc].
    pose proof (last_update_snoc _ _ _ _ IH Hok E2) as H. rewrite bool_decide_eq_false_2 in H by done. cbn in H.
    by destruct (expired e.2 s).
Qed.
End Sessions.

(** ** Witnesses *)

Section Witnesses.
(** Times in seconds since 1970, as decimal numbers. *)
Definition toy_rfc3339 : Rfc3339.
Proof.
  assert (Hr : ∀ t, 0 ≤ t / from_secs 1 mod 2 ^ 64 < 2 ^ 64) by (intros t; apply Z.mod_pos_bound; lia).
  refine {| Format t := decimal (t / from_secs 1 mod 2 ^ 64);
            Parse s := from_secs <$> parse_u64 s;
            time_ok t := 0 ≤ t < from_secs (2 ^ 64) |}.
  - intros t. apply trim_visible, decimal_word, Hr.
  - intros t. apply (decimal_word _ (Hr t)).
  - intros t Ht. assert (Hs : 0 ≤ t / from_secs 1 < 2 ^ 64).
    { unfold from_secs in *. split; [apply Z.div_pos; lia|apply Z.div_lt_upper_bound; lia]. }
    rewrite Z.mod_small by done. unfold parse_u64. by rewrite parse_decimal.
Defined.
#[local] Existing Instance toy_rfc3339.
Definition toy_float64 : Float64 := {| float64 := Z; float_lt := Z.ltb; float_0 := 0; float_1 := 1 |}.
#[local] Existing Instance toy_float64.

Definition attempt_of (id robot : string) : BootstrapSession :=
  {| SessionID := id; s_BootstrapID := id; s_RobotID := robot; UserID := " user_a"; CLIID := ""; StartedAt := ""; UpdatedAt := "";
     s_AgentProfile := None; s_CLIProfile := None; Observation := None; Phase := ""; PhaseElapsedMs := 0; SelectedRoute := "";
     WhyChosen := ["lan "; "lan"]; WhyNot := ∅ |}.

(** Two sessions, the second updated 32 minutes later; the first is gone then. *)
Definition two_attempts : list (BootstrapSession * Z) :=
  [(attempt_of "sess_old" "robot_1", from_secs 100); (attempt_of "sess_new" "robot_2", from_secs (100 + 32 * 60))].

Lemma session_retained_witness :
  SessionSnapshot "sess_old " (run_updates map_to_list 0 two_attempts) = None ∧ no_update "sess_old" two_attempts.
Proof.
  assert (E : SessionSnapshot "sess_old " (run_updates map_to_list 0 two_attempts) = None) by (vm_compute; reflexivity).
  split; [exact E|]. pose proof (session_retained map_to_list 0 two_attempts "sess_old ") as H. rewrite E in H. apply H.
  - vm_compute. discriminate.
  - repeat apply List.Forall_cons; try apply List.Forall_nil; vm_compute; split; congruence.
Defined.
End Witnesses.
