(* ===== verification/Threads.v ===== *)
(** * Goroutines that share a state

    A [thread] is a goroutine as the sequence of its actions on the state it shares with
    others; an action may wait, and takes what the surroundings decide (the clock, a
    branch of a select) as its input.  A [system] is the shared state with the
    goroutines that run, by name; the scheduler starts goroutines and lets any of them
    take its next action.

    [safe] is the reasoning principle: with respect to an invariant of the state and, for
    each name, a relation that actions of the others respect, a thread that is [safe]
    keeps the invariant and respects the relations of the others, whatever they do in
    between; [run_safe] carries this to whole runs. *)

From S2P Require Import Prelude.

Local Unset Elimination Schemes.
Inductive thread (W I A : Type) : Type :=
| Ret (a : A)
| Act (f : I → W → option (thread W I A * W)).
Local Set Elimination Schemes.
Arguments Ret {W I A} _.
Arguments Act {W I A} _.

(** For each name, a relation on states that is a preorder. *)
Class Rely {G W : Type} (rely : G → W → W → Prop) : Prop := rely_preorder g :: PreOrder (rely g).

Section Threads.
Context {W I : Type}.

#[export] Instance thread_ret : MRet (thread W I) := λ A a, Ret a.

#[export] Instance thread_bind : MBind (thread W I) := λ A B k,
  fix go (t : thread W I A) : thread W I B :=
    match t with
    | Ret a => k a
    | Act f => Act (λ i w, match f i w with Some (t, w) => Some (go t, w) | None => None end)
    end.

(** An action that waits until it has a result. *)
Definition await {A} (f : I → W → option (A * W)) : thread W I A :=
  Act (λ i w, match f i w with Some (a, w) => Some (Ret a, w) | None => None end).
Definition atomic {A} (f : I → W → A * W) : thread W I A := await (λ i w, Some (f i w)).
Definition look {A} (f : W → A) : thread W I A := atomic (λ _ w, (f w, w)).
Definition change (f : W → W) : thread W I unit := atomic (λ _ w, (tt, f w)).

(** All actions in a row, each with the same input. *)
Fixpoint alone {A} (i : I) (t : thread W I A) (w : W) : option (A * W) :=
  match t with
  | Ret a => Some (a, w)
  | Act f => match f i w with Some (t, w) => alone i t w | None => None end
  end.

Lemma thread_ind' {A} (P : thread W I A → Prop) :
  (∀ a, P (Ret a)) → (∀ f, (∀ i w t w', f i w = Some (t, w') → P t) → P (Act f)) → ∀ t, P t.
Proof.
  intros Hr Ha. fix go 1. intros [a|f]; [apply Hr|]. apply Ha. intros i w t w' E.
  destruct (f i w) as [[t1 w1]|]; [|discriminate E].
  assert (P t1) by apply go. by simplify_eq.
Qed.

Lemma alone_bind {A B} i (t : thread W I A) (k : A → thread W I B) w :
  alone i (t ≫= k) w = match alone i t w with Some (a, w) => alone i (k a) w | None => None end.
Proof.
  revert w. induction t as [a|f IH] using thread_ind'; intros w; [done|].
  cbn. destruct (f i w) as [[t w']|] eqn:E; [|done]. by eapply IH.
Qed.

Lemma alone_await {A} i (f : I → W → option (A * W)) w : alone i (await f) w = f i w.
Proof. cbn. by destruct (f i w) as [[a w']|]. Qed.

Lemma alone_ret {A} i (a : A) w : alone i (mret a : thread W I A) w = Some (a, w).
Proof. done. Qed.

Lemma alone_atomic {A} i (f : I → W → A * W) w : alone i (atomic f) w = Some (f i w).
Proof. cbn. by destruct (f i w). Qed.

(** ** Runs *)

Section Scheduler.
Context {G T : Type} `{Countable G}.
(** What can be started, under which name, and when. *)
Context (code : T → G * thread W I unit) (startable : T → W → bool).

Record system : Type := System { shared : W; pool : gmap G (thread W I unit) }.

Inductive sevent : Type := Start (e : T) | Sched (g : G) (i : I).

Definition idle (t : option (thread W I unit)) : bool := match t with Some (Act _) => false | _ => true end.

Definition sys_step (ev : sevent) (s : system) : option system :=
  match ev with
  | Start e =>
      let '(g, t) := code e in
      if startable e (shared s) && idle (pool s !! g) then Some (System (shared s) (<[g := t]> (pool s))) else None
  | Sched g i =>
      match pool s !! g with
      | Some (Act f) =>
          match f i (shared s) with Some (t, w) => Some (System w (<[g := t]> (pool s))) | None => None end
      | _ => None
      end
  end.

Definition sys_run (evs : list sevent) (s : system) : option system :=
  foldl (λ s ev, s ≫= sys_step ev) (Some s) evs.

Lemma sys_run_snoc evs ev s : sys_run (evs ++ [ev]) s = sys_run evs s ≫= sys_step ev.
Proof. unfold sys_run. by rewrite foldl_app. Qed.

(** ** Safety *)

Context (Inv : W → Prop) (rely : G → W → W → Prop) `{!Rely rely}.

Definition others (g : G) (w w' : W) : Prop := ∀ g', g' ≠ g → rely g' w w'.

(** Thread [t] of goroutine [g], from a state that the others have changed from [w0]. *)
Fixpoint safe {A} (g : G) (t : thread W I A) (Q : A → W → Prop) (w0 : W) : Prop :=
  match t with
  | Ret a => ∀ w, rely g w0 w → Inv w → Q a w
  | Act f =>
      ∀ i w, rely g w0 w → Inv w →
      match f i w with Some (t, w') => Inv w' ∧ others g w w' ∧ safe g t Q w' | None => True end
  end.

Lemma safe_weaken {A} g (t : thread W I A) (Q Q' : A → W → Prop) w :
  safe g t Q w → (∀ a w, Q a w → Q' a w) → safe g t Q' w.
Proof.
  intros Hs HQ. revert w Hs. induction t as [a|f IH] using thread_ind'; cbn; [eauto|].
  intros w Hs i w1 Hr Hi. specialize (Hs i w1 Hr Hi). destruct (f i w1) as [[t w2]|] eqn:E; [|done].
  destruct Hs as (? & ? & ?). split_and!; try done. by eapply IH.
Qed.

Lemma safe_bind {A B} g (t : thread W I A) (k : A → thread W I B) Q Q' w :
  safe g t Q w → (∀ a w, Inv w → Q a w → safe g (k a) Q' w) → safe g (t ≫= k) Q' w.
Proof.
  intros Hs Hk. revert w Hs. induction t as [a|f IH] using thread_ind'; cbn; intros w Hs.
  - change (safe g (k a) Q' w). destruct (k a) as [b|f] eqn:E; cbn.
    + intros w' Hr Hi. pose proof (Hk a w' Hi (Hs w' Hr Hi)) as Hb. rewrite E in Hb. by apply Hb.
    + intros i w' Hr Hi. pose proof (Hk a w' Hi (Hs w' Hr Hi)) as Hb. rewrite E in Hb. by apply Hb.
  - intros i w1 Hr Hi. specialize (Hs i w1 Hr Hi). destruct (f i w1) as [[t w2]|] eqn:E; [|done].
    destruct Hs as (? & ? & ?). split_and!; try done. by eapply IH.
Qed.

Lemma safe_ret {A} g (a : A) (Q : A → W → Prop) w : (∀ w', rely g w w' → Inv w' → Q a w') → safe g (mret a) Q w.
Proof. done. Qed.

(** What is known after an action has to survive what the others do. *)
Lemma safe_await {A} g (f : I → W → option (A * W)) (Q : A → W → Prop) w :
  (∀ i w1 a w2, rely g w w1 → Inv w1 → f i w1 = Some (a, w2) →
     Inv w2 ∧ others g w1 w2 ∧ ∀ w3, rely g w2 w3 → Inv w3 → Q a w3) →
  safe g (await f) Q w.
Proof.
  intros Hf i w1 Hr Hi. destruct (f i w1) as [[a w2]|] eqn:E; cbn; [|done]. by eapply Hf.
Qed.

Lemma safe_atomic {A} g (f : I → W → A * W) (Q : A → W → Prop) w :
  (∀ i w1, rely g w w1 → Inv w1 →
     Inv (f i w1).2 ∧ others g w1 (f i w1).2 ∧ ∀ w3, rely g (f i w1).2 w3 → Inv w3 → Q (f i w1).1 w3) →
  safe g (atomic f) Q w.
Proof. intros Hf. apply safe_await. intros i w1 a w2 Hr Hi E. simplify_eq. specialize (Hf i w1 Hr Hi). by rewrite E in Hf. Qed.

(** ** Threads that do nothing of interest *)

(** Every action is within a relation, whatever the thread knows. *)
Fixpoint within {A} (P : W → W → Prop) (t : thread W I A) : Prop :=
  match t with
  | Ret _ => True
  | Act f => ∀ i w, match f i w with Some (t, w') => P w w' ∧ within P t | None => True end
  end.

Lemma within_bind {A B} P (t : thread W I A) (k : A → thread W I B) :
  within P t → (∀ a, within P (k a)) → within P (t ≫= k).
Proof.
  intros Ht Hk. induction t as [a|f IH] using thread_ind'; [apply Hk|]. cbn in *. intros i w.
  specialize (Ht i w). destruct (f i w) as [[t w']|] eqn:E; [|done]. destruct Ht. split; [done|]. by eapply IH.
Qed.

Lemma alone_within {A} P `{!PreOrder P} i (t : thread W I A) w a w' : within P t → alone i t w = Some (a, w') → P w w'.
Proof.
  revert w. induction t as [b|f IH] using thread_ind'; cbn; intros w Ht E; [by injection E as _ <-|].
  specialize (Ht i w). destruct (f i w) as [[t w1]|] eqn:Ef; [|done]. destruct Ht as [H1 H2]. etrans; [exact H1|]. by eapply IH.
Qed.

Lemma within_await {A} (P : W → W → Prop) (f : I → W → option (A * W)) :
  (∀ i w a w', f i w = Some (a, w') → P w w') → within P (await f).
Proof. intros Hf i w. destruct (f i w) as [[a w']|] eqn:E; cbn; [|done]. split; [by eapply Hf|done]. Qed.

(** What survives the others and the relation is known afterwards. *)
Lemma within_safe_keep {A} g P (t : thread W I A) (K : W → Prop) w :
  (∀ w w', Inv w → P w w' → Inv w' ∧ others g w w') → (∀ w w', K w → rely g w w' → K w') →
  (∀ w w', Inv w → K w → P w w' → K w') → within P t → K w → safe g t (λ _ w, K w) w.
Proof.
  intros HP HK1 HK2. revert w. induction t as [a|f IH] using thread_ind'; cbn; [eauto|]. intros w Ht Hw i w1 Hr Hi.
  specialize (Ht i w1). destruct (f i w1) as [[t w2]|] eqn:E; [|done]. destruct Ht as [H1 H2].
  destruct (HP _ _ Hi H1). split_and!; try done. eapply IH; eauto.
Qed.

Lemma within_safe {A} g P (t : thread W I A) w :
  (∀ w w', Inv w → P w w' → Inv w' ∧ others g w w') → within P t → safe g t (λ _ _, True) w.
Proof.
  intros HP. revert w. induction t as [a|f IH] using thread_ind'; [done|]. cbn. intros w Ht i w1 _ Hi.
  specialize (Ht i w1). destruct (f i w1) as [[t w2]|] eqn:E; [|done]. destruct Ht as [H1 H2].
  destruct (HP _ _ Hi H1). split_and!; try done. by eapply IH.
Qed.

(** ** Safe systems *)

Lemma safe_mono {A} g (t : thread W I A) Q w w' : safe g t Q w → rely g w w' → safe g t Q w'.
Proof.
  destruct t; cbn; intros Hs Hr; [intros w2 ??|intros i w2 ??]; apply Hs; try done; by etrans.
Qed.

Definition safe_system (s : system) : Prop :=
  Inv (shared s) ∧ ∀ g t, pool s !! g = Some t → safe g t (λ _ _, True) (shared s).

Definition start_safe (e : T) : Prop :=
  ∀ w, Inv w → startable e w = true → safe (code e).1 (code e).2 (λ _ _, True) w.

Lemma step_safe ev s s' :
  (∀ e, ev = Start e → start_safe e) → safe_system s → sys_step ev s = Some s' → safe_system s'.
Proof.
  intros Hst [Hi Hp]. destruct ev as [e|g i]; cbn.
  - pose proof (Hst e eq_refl (shared s) Hi) as Hs. destruct (code e) as [g t].
    destruct (startable e (shared s)) eqn:Eg, (idle (pool s !! g)); cbn; intros; simplify_eq.
    split; [done|]. cbn. intros g' t'. rewrite lookup_insert. case_decide; intros; simplify_eq; eauto.
  - destruct (pool s !! g) as [[|f]|] eqn:Eg; try done. pose proof (Hp g _ Eg i (shared s)) as Hf. cbn in Hf.
    destruct (f i (shared s)) as [[t w]|]; [|done]. intros; simplify_eq.
    destruct Hf as (Hi' & Ho & Hs); [done|done|]. split; [done|]. cbn. intros g' t'.
    rewrite lookup_insert. case_decide as Hg; intros; simplify_eq; [done|].
    eapply safe_mono; [by apply Hp|]. apply Ho. congruence.
Qed.

Lemma run_safe evs s s' :
  (∀ e, Start e ∈ evs → start_safe e) → safe_system s → sys_run evs s = Some s' → safe_system s'.
Proof.
  intros Hst Hs. revert s' Hst. induction evs as [|ev evs IH] using rev_ind; intros s' Hst; [by intros [= <-]|].
  rewrite sys_run_snoc. intros (s1 & H1 & H2)%bind_Some. refine (step_safe _ _ _ _ (IH _ _ H1) H2).
  - intros e ->. apply Hst, elem_of_app. right. by left.
  - intros e He. apply Hst, elem_of_app. by left.
Qed.

(** ** Scripts *)

(** Let a goroutine act, at most [n] times, until it waits or is done. *)
Fixpoint drain (n : nat) (g : G) (i : I) (s : system) : list sevent * system :=
  match n with
  | O => ([], s)
  | S n =>
      match sys_step (Sched g i) s with
      | Some s => let '(l, s) := drain n g i s in (Sched g i :: l, s)
      | None => ([], s)
      end
  end.

(** Something is started, and acts, or a goroutine goes on. *)
Inductive item : Type := Begin (e : T) (i : I) (n : nat) | GoOn (g : G) (i : I) (n : nat).

Fixpoint play (script : list item) (s : system) : list sevent :=
  match script with
  | [] => []
  | Begin e i n :: script =>
      match sys_step (Start e) s with
      | Some s => let '(l, s) := drain n (code e).1 i s in Start e :: l ++ play script s
      | None => [Start e]
      end
  | GoOn g i n :: script => let '(l, s) := drain n g i s in l ++ play script s
  end.

(** What a run leads to, if a check of its last state holds. *)
Lemma run_checked evs s (check : system → bool) :
  match sys_run evs s with Some s => check s | None => false end = true →
  ∃ s', sys_run evs s = Some s' ∧ check s' = true.
Proof. destruct (sys_run evs s) as [s'|]; [eauto|done]. Qed.

End Scheduler.
End Threads.
Arguments system W I G {_ _} : rename.
Arguments System {W I G _ _} _ _ : rename.
Arguments sevent : clear implicits.
Arguments Start {I G E} _ : rename.
Arguments Sched {I G E} _ _ : rename.
Arguments item : clear implicits.
Arguments Begin {I G E} _ _ _ : rename.
Arguments GoOn {I G E} _ _ _ : rename.

(** Compute what a thread does alone, up to the actions. *)
Ltac alone_steps :=
  repeat first [rewrite alone_bind|rewrite alone_atomic|rewrite alone_await|rewrite alone_ret|progress cbv beta iota].
