(* ===== verification/Hub.v ===== *)
(** * The control hub (go/relay/relay.go)

    The platform's switchboard.  Agents keep a control connection and a relay
    connection to it; users open relay sessions, each a stream to a port of a robot; the
    platform sends commands and waits for the answers.  The hub has the tables; every
    connection has a goroutine that reads, one that writes and a bounded queue between
    the hub and the writer; every relay session has a bounded queue of what its agent
    sends.

    A step is what one goroutine does under one lock or on one channel; goroutines
    interleave between steps, so a sender that has looked up a connection may find it
    replaced when it puts its message in the queue.  Log lines and what
    only feeds them are left out, but for the counters of a relay session and the
    reason a connection ended.  A [map[string]interface{}] is a value of any type [M]
    that is only passed on. *)

From Stdlib Require Import Ascii String.
From S2P Require Import Prelude Text ConnState Evidence Threads.

(** [strings.EqualFold] and [strings.ToLower] *)
Class GoStrings : Type := {
  EqualFold : string → string → bool;
  ToLower : string → string;
  fold_refl s : EqualFold s s = true;
  fold_sym s t : EqualFold s t = EqualFold t s;
  fold_trans s t u : EqualFold s t = true → EqualFold t u = true → EqualFold s u = true;
  lower_ascii s : is_ascii s = true → ToLower s = to_ascii_lowercase s;
}.

(** [base64.StdEncoding] *)
Class GoBase64 : Type := {
  EncodeToString : list byte → string;
  DecodeString : string → option (list byte);
  decode_encode bs : DecodeString (EncodeToString bs) = Some bs;
  encode_visible bs : string_forallb is_visible (EncodeToString bs) = true;
}.

(** Whether [uuid.Parse] takes a text. *)
Class GoUuid : Type := { uuid_Parse : string → bool }.

Definition agentControlConcurrencyPolicyRejectNew : string := "reject_new".
Definition agentControlConcurrencyPolicyPreemptExisting : string := "preempt_existing".
Definition agentControlRelayCloseCooldown : Z := from_secs 2.

(** ** Messages *)

Record agentControlMessage (M : Type) : Type := Message {
  m_type : string;
  m_bootstrap : string;
  m_session : string;
  m_route : string;
  m_cli_ip : string;
  m_cli_lan : string;
  m_request : string;
  m_command : option M;
  m_status_query : option M;
  m_response : option M;
  m_relay : string;
  m_port : Z;
  m_data : string;
  m_status : string;
  m_error : string;
}.
Arguments Message {M} _ _ _ _ _ _ _ _ _ _ _ _ _ _ _.
Arguments m_type {M} _.
Arguments m_bootstrap {M} _.
Arguments m_session {M} _.
Arguments m_route {M} _.
Arguments m_cli_ip {M} _.
Arguments m_cli_lan {M} _.
Arguments m_request {M} _.
Arguments m_command {M} _.
Arguments m_status_query {M} _.
Arguments m_response {M} _.
Arguments m_relay {M} _.
Arguments m_port {M} _.
Arguments m_data {M} _.
Arguments m_status {M} _.
Arguments m_error {M} _.

(** The messages the hub makes: of a relay session, a request, a trigger. *)
Definition relay_message {M} (ty relayID sessionKey : string) (port : Z) (data error : string) : agentControlMessage M :=
  Message ty "" sessionKey "" "" "" "" None None None relayID port data "" error.
Definition request_message {M} (ty requestID sessionKey : string) (command query : option M) : agentControlMessage M :=
  Message ty sessionKey sessionKey "" "" "" requestID command query None "" 0 "" "" "".

(** ** The queue of a relay session *)

Record relayQueueStats : Type := Stats {
  enqueued : Z;
  droppedOldest : Z;
  droppedNoSlot : Z;
  maxQueueDepth : Z;
  enqueueWaitSamples : Z;
  enqueueWaitTotalNs : Z;
  enqueueWaitMaxNs : Z;
}.

Definition newRelayQueueStats : relayQueueStats := Stats 0 0 0 0 0 0 0.
Definition recordEnqueue (depth : Z) (s : relayQueueStats) : relayQueueStats :=
  Stats (u64_wrap (enqueued s + 1)) (droppedOldest s) (droppedNoSlot s)
    (if depth >? 0 then Z.max (maxQueueDepth s) (u64_wrap depth) else maxQueueDepth s)
    (enqueueWaitSamples s) (enqueueWaitTotalNs s) (enqueueWaitMaxNs s).
Definition recordDropOldest (s : relayQueueStats) : relayQueueStats :=
  Stats (enqueued s) (u64_wrap (droppedOldest s + 1)) (droppedNoSlot s) (maxQueueDepth s)
    (enqueueWaitSamples s) (enqueueWaitTotalNs s) (enqueueWaitMaxNs s).
Definition recordDropNoSlot (s : relayQueueStats) : relayQueueStats :=
  Stats (enqueued s) (droppedOldest s) (u64_wrap (droppedNoSlot s + 1)) (maxQueueDepth s)
    (enqueueWaitSamples s) (enqueueWaitTotalNs s) (enqueueWaitMaxNs s).
Definition recordEnqueueWait (wait : Z) (s : relayQueueStats) : relayQueueStats :=
  if wait <=? 0 then s
  else Stats (enqueued s) (droppedOldest s) (droppedNoSlot s) (maxQueueDepth s)
         (u64_wrap (enqueueWaitSamples s + 1)) (u64_wrap (enqueueWaitTotalNs s + wait)) (Z.max (enqueueWaitMaxNs s) wait).

Record relayQueueStatsSnapshot : Type := StatsSnapshot {
  Enqueued : Z;
  DroppedOldest : Z;
  DroppedNoSlot : Z;
  MaxQueueDepth : Z;
  EnqueueWaitSamples : Z;
  EnqueueWaitAvg : Z;
  EnqueueWaitMax : Z;
}.
(** A [time.Duration] made of an unsigned number is read as signed. *)
Definition to_duration (z : Z) : Z := if z <? 2 ^ 63 then z else z - 2 ^ 64.
Definition snapshot (s : relayQueueStats) : relayQueueStatsSnapshot :=
  StatsSnapshot (enqueued s) (droppedOldest s) (droppedNoSlot s) (maxQueueDepth s) (enqueueWaitSamples s)
    (if enqueueWaitSamples s >? 0 then to_duration (enqueueWaitTotalNs s / enqueueWaitSamples s) else 0)
    (to_duration (enqueueWaitMaxNs s)).

(** [ch] with its capacity, [enqueuedAt], which has the same, and [stats].  [put]: all
    that was ever put in; [got]: all that the session has taken out. *)
Record relayQueue (M : Type) : Type := RelayQueue {
  ch : list (agentControlMessage M);
  ch_cap : nat;
  enqueuedAt : list Z;
  stats : relayQueueStats;
  put : list (agentControlMessage M);
  got : list (agentControlMessage M);
}.
Arguments RelayQueue {M} _ _ _ _ _ _.
Arguments ch {M} _.
Arguments ch_cap {M} _.
Arguments enqueuedAt {M} _.
Arguments stats {M} _.
Arguments put {M} _.
Arguments got {M} _.

Section Queue.
Context {M : Type}.
Implicit Types (q : relayQueue M) (msg : agentControlMessage M).

Definition new_queue (cap : nat) : relayQueue M := RelayQueue [] cap [] newRelayQueueStats [] [].

Definition enqueue msg (ts : Z) q : bool * relayQueue M :=
  if (length (ch q) <? ch_cap q)%nat
  then (true, RelayQueue (ch q ++ [msg]) (ch_cap q)
                (if (length (enqueuedAt q) <? Nat.max 1 (ch_cap q))%nat then enqueuedAt q ++ [ts] else enqueuedAt q)
                (recordEnqueue (zlen (ch q) + 1) (stats q)) (put q ++ [msg]) (got q))
  else (false, q).

Definition dropOldestQueuedMessage q : bool * relayQueue M :=
  match ch q with
  | _ :: rest => (true, RelayQueue rest (ch_cap q) (tail (enqueuedAt q)) (recordDropOldest (stats q)) (put q) (got q))
  | [] => (false, q)
  end.

Definition no_slot q : relayQueue M :=
  RelayQueue (ch q) (ch_cap q) (enqueuedAt q) (recordDropNoSlot (stats q)) (put q) (got q).

(** The session receives, and [consumeRelayEnqueueWait] at time [now]. *)
Definition receive (now : Z) q : option (agentControlMessage M * relayQueue M) :=
  match ch q with
  | [] => None
  | msg :: rest =>
      Some (msg, RelayQueue rest (ch_cap q) (tail (enqueuedAt q))
                   (match enqueuedAt q with ts :: _ => recordEnqueueWait (Z.max 0 (now - ts)) (stats q) | [] => stats q end)
                   (put q) (got q ++ [msg]))
  end.

End Queue.

(** ** The hub and what it works on *)

Inductive channel : Type := ControlPlane | DataPlane.

(** A goroutine that is started once. *)
Inductive running : Type := NotYet | Running | Over.
Definition started (r : running) : running := match r with NotYet => Running | r => r end.
Definition is_running (r : running) : bool := match r with Running => true | _ => false end.

(** An [agentControlConn] or [agentRelayConn].  [c_closeSent]: the map
    [relayCloseSentAt] of its reader; [c_reader], [c_writer]: whether those goroutines
    run; [c_written]: what went out on the socket. *)
Record agentConn (M : Type) : Type := AgentConn {
  c_kind : channel;
  c_robot : string;
  c_session : string;
  c_src : string;
  c_at : Z;
  c_send : list (agentControlMessage M);
  c_cap : nat;
  c_done : bool;
  c_reason : string;
  c_closeSent : gmap string Z;
  c_reader : bool;
  c_writer : running;
  c_written : list (agentControlMessage M);
}.
Arguments AgentConn {M} _ _ _ _ _ _ _ _ _ _ _ _ _.
Arguments c_kind {M} _.
Arguments c_robot {M} _.
Arguments c_session {M} _.
Arguments c_src {M} _.
Arguments c_at {M} _.
Arguments c_send {M} _.
Arguments c_cap {M} _.
Arguments c_done {M} _.
Arguments c_reason {M} _.
Arguments c_closeSent {M} _.
Arguments c_reader {M} _.
Arguments c_writer {M} _.
Arguments c_written {M} _.

Record relayRegistration : Type := Registration {
  reg_robot : string;
  reg_session : string;
  reg_queue : nat;
}.

Inductive relayDeliveryResult : Type := relayDeliveryDelivered | relayDeliveryNoRegistration | relayDeliveryChannelFull.

Inductive call_error : Type :=
| NoControlChannel
| CommandTimeout (timeout : Z)
| StatusTimeout (timeout : Z).

#[export] Instance call_error_eq_dec : EqDecision call_error.
Proof. solve_decision. Defined.

(** A [SendCommand] or [SendStatusQuery]: its request, its [respCh], its result. *)
Record call (M : Type) : Type := Call {
  call_id : string;
  call_buf : option (option M);
  call_result : option (result call_error (option M));
}.
Arguments Call {M} _ _ _.
Arguments call_id {M} _.
Arguments call_buf {M} _.
Arguments call_result {M} _.

(** What a user's socket is sent. *)
Inductive client_frame : Type :=
| ClientData (data : list byte)
| ClientPing
| ClientClose (code : Z) (text : string).

Inductive phase : Type := Opening | Established | Ended.

(** A user's relay session: what it is for; the variables of [handleRelayWS]
    ([rm_deadline]: when [openTimeout] fires; [rm_pending]: the messages taken off the
    queue and not handled yet; [rm_gone]: whether the socket is closed; [rm_out]: what
    was written to it); those of its reader ([rr_read]: the data read; [rr_sending]:
    whether the last of it is being passed on); what both share ([u_once]: whether
    [closeRelay] has begun, [u_done]: whether [done] is closed). *)
Record relayInfo : Type := RelayInfo {
  ri_robot : string;
  ri_port : Z;
  ri_key : string;
  ri_id : string;
  ri_budget : Z;
}.

Record relayMain (M : Type) : Type := RelayMain {
  rm_phase : phase;
  rm_deadline : Z;
  rm_pending : list (agentControlMessage M);
  rm_streak : Z;
  rm_gone : bool;
  rm_out : list client_frame;
}.
Arguments RelayMain {M} _ _ _ _ _ _.
Arguments rm_phase {M} _.
Arguments rm_deadline {M} _.
Arguments rm_pending {M} _.
Arguments rm_streak {M} _.
Arguments rm_gone {M} _.
Arguments rm_out {M} _.

Record relayReader : Type := RelayReader {
  rr_alive : bool;
  rr_read : list (list byte);
  rr_sending : bool;
}.

Record userRelay (M : Type) : Type := UserRelay {
  u_info : relayInfo;
  u_main : relayMain M;
  u_up : relayReader;
  u_once : bool;
  u_done : bool;
}.
Arguments UserRelay {M} _ _ _ _ _.
Arguments u_info {M} _.
Arguments u_main {M} _.
Arguments u_up {M} _.
Arguments u_once {M} _.
Arguments u_done {M} _.

(** [AgentControlHub], the tables of connstate the hub uses, the objects the hub's
    tables refer to, and three records of what has happened: the calls of connstate in
    their order, the messages put in send queues, the responses taken for a call. *)
Record world `{Float64} (M : Type) : Type := World {
  conns : gmap string nat;
  relay : gmap string nat;
  pending : gmap string nat;
  activeSessions : gmap string string;
  relays : gmap string relayRegistration;
  fallback : Gate.gate;
  sessions : gmap string BootstrapSession;
  objs : gmap nat (agentConn M);
  calls : gmap nat (call M);
  queues : gmap nat (relayQueue M);
  users : gmap nat (userRelay M);
  uuids : gset string;
  noted : list (Z * Connstate.op);
  sent : list (nat * agentControlMessage M);
  answers : list (string * option M);
}.
Arguments World {_ M} _ _ _ _ _ _ _ _ _ _ _ _ _ _ _.
Arguments conns {_ M} _.
Arguments relay {_ M} _.
Arguments pending {_ M} _.
Arguments activeSessions {_ M} _.
Arguments relays {_ M} _.
Arguments fallback {_ M} _.
Arguments sessions {_ M} _.
Arguments objs {_ M} _.
Arguments calls {_ M} _.
Arguments queues {_ M} _.
Arguments users {_ M} _.
Arguments uuids {_ M} _.
Arguments noted {_ M} _.
Arguments sent {_ M} _.
Arguments answers {_ M} _.

(** A [net.Error] that is a timeout, [os.ErrDeadlineExceeded], a [websocket.CloseError],
    and the text of an error. *)
Record ws_error : Type := WsError {
  e_timeout : bool;
  e_deadline : bool;
  e_close : option (Z * string);
  e_text : string;
}.

(** What the surroundings decide for one action: the clock, a new UUID, the branch a
    select takes, how a write ends, the order in which [range] visits a map. *)
Record input : Type := Input {
  i_now : Z;
  i_uuid : string;
  i_branch : nat;
  i_write : option ws_error;
  i_range : gmap string relayRegistration → list (string * relayRegistration);
}.

Section Setters.
Context `{Float64} {M : Type}.
Implicit Types w : world M.

Definition set_conns x w : world M :=
  World x (relay w) (pending w) (activeSessions w) (relays w) (fallback w) (sessions w) (objs w) (calls w) (queues w) (users w) (uuids w) (noted w) (sent w) (answers w).
Definition set_relay x w : world M :=
  World (conns w) x (pending w) (activeSessions w) (relays w) (fallback w) (sessions w) (objs w) (calls w) (queues w) (users w) (uuids w) (noted w) (sent w) (answers w).
Definition set_pending x w : world M :=
  World (conns w) (relay w) x (activeSessions w) (relays w) (fallback w) (sessions w) (objs w) (calls w) (queues w) (users w) (uuids w) (noted w) (sent w) (answers w).
Definition set_activeSessions x w : world M :=
  World (conns w) (relay w) (pending w) x (relays w) (fallback w) (sessions w) (objs w) (calls w) (queues w) (users w) (uuids w) (noted w) (sent w) (answers w).
Definition set_relays x w : world M :=
  World (conns w) (relay w) (pending w) (activeSessions w) x (fallback w) (sessions w) (objs w) (calls w) (queues w) (users w) (uuids w) (noted w) (sent w) (answers w).
Definition set_fallback x w : world M :=
  World (conns w) (relay w) (pending w) (activeSessions w) (relays w) x (sessions w) (objs w) (calls w) (queues w) (users w) (uuids w) (noted w) (sent w) (answers w).
Definition set_sessions x w : world M :=
  World (conns w) (relay w) (pending w) (activeSessions w) (relays w) (fallback w) x (objs w) (calls w) (queues w) (users w) (uuids w) (noted w) (sent w) (answers w).
Definition set_objs x w : world M :=
  World (conns w) (relay w) (pending w) (activeSessions w) (relays w) (fallback w) (sessions w) x (calls w) (queues w) (users w) (uuids w) (noted w) (sent w) (answers w).
Definition set_calls x w : world M :=
  World (conns w) (relay w) (pending w) (activeSessions w) (relays w) (fallback w) (sessions w) (objs w) x (queues w) (users w) (uuids w) (noted w) (sent w) (answers w).
Definition set_queues x w : world M :=
  World (conns w) (relay w) (pending w) (activeSessions w) (relays w) (fallback w) (sessions w) (objs w) (calls w) x (users w) (uuids w) (noted w) (sent w) (answers w).
Definition set_users x w : world M :=
  World (conns w) (relay w) (pending w) (activeSessions w) (relays w) (fallback w) (sessions w) (objs w) (calls w) (queues w) x (uuids w) (noted w) (sent w) (answers w).
Definition set_uuids x w : world M :=
  World (conns w) (relay w) (pending w) (activeSessions w) (relays w) (fallback w) (sessions w) (objs w) (calls w) (queues w) (users w) x (noted w) (sent w) (answers w).
Definition set_noted x w : world M :=
  World (conns w) (relay w) (pending w) (activeSessions w) (relays w) (fallback w) (sessions w) (objs w) (calls w) (queues w) (users w) (uuids w) x (sent w) (answers w).
Definition set_sent x w : world M :=
  World (conns w) (relay w) (pending w) (activeSessions w) (relays w) (fallback w) (sessions w) (objs w) (calls w) (queues w) (users w) (uuids w) (noted w) x (answers w).
Definition set_answers x w : world M :=
  World (conns w) (relay w) (pending w) (activeSessions w) (relays w) (fallback w) (sessions w) (objs w) (calls w) (queues w) (users w) (uuids w) (noted w) (sent w) x.
End Setters.

#[export] Instance relayRegistration_eq_dec : EqDecision relayRegistration.
Proof. solve_decision. Defined.

#[export] Instance relayInfo_eq_dec : EqDecision relayInfo.
Proof. solve_decision. Defined.

Section Hub.
Context `{GS : !GoStrings, GB : !GoBase64, GU : !GoUuid, R : !Rfc3339, F : !Float64} {M : Type}.
Implicit Types (w : world M) (msg : agentControlMessage M) (k n u : nat).
Local Abbreviation go := (thread (world M) input).

Definition clock : go Z := atomic (λ i w, (i_now i, w)).

(** [uuid.New().String()]: never the same twice, and not blank. *)
Definition fresh_uuid (id : string) w : Prop := id ≠ "" ∧ trim id = id ∧ ¬ (id ∈ uuids w).
#[export] Instance fresh_uuid_dec id w : Decision (fresh_uuid id w).
Proof. apply _. Defined.
(** It is drawn by the action that uses it first, [f]. *)
Definition with_uuid (f : string → world M → world M) : go string :=
  await (λ i w,
    if decide (fresh_uuid (i_uuid i) w) then Some (i_uuid i, f (i_uuid i) (set_uuids ({[i_uuid i]} ∪ uuids w) w)) else None).
Definition uuid_New : go string := with_uuid (λ _ w, w).

(** A call of connstate. *)
Definition note (o : Connstate.op) : go unit := atomic (λ i w, (tt, set_noted (noted w ++ [(i_now i, o)]) w)).
Definition TouchControlActivity (robotID : string) : go unit :=
  now ← clock; note (Connstate.OTouch robotID (Some now)).

(** ** Objects *)

Definition on_conn k (f : agentConn M → agentConn M) w : world M := set_objs (alter f k (objs w)) w.
Definition on_user u (f : userRelay M → userRelay M) w : world M := set_users (alter f u (users w)) w.
(** An operation on the queue of a relay session. *)
Definition on_queue (q : nat) (f : relayQueue M → bool * relayQueue M) w : bool * world M :=
  match queues w !! q with
  | Some x => ((f x).1, set_queues (<[q := (f x).2]> (queues w)) w)
  | None => (false, w)
  end.

Definition conn_close (c : agentConn M) : agentConn M :=
  AgentConn (c_kind c) (c_robot c) (c_session c) (c_src c) (c_at c) (c_send c) (c_cap c) true (c_reason c) (c_closeSent c)
    (c_reader c) (c_writer c) (c_written c).
Definition close k : go unit := change (on_conn k conn_close).

Definition conn_reason (reason : string) (c : agentConn M) : agentConn M :=
  let reason := trim reason in
  if bool_decide (reason = "") then c
  else AgentConn (c_kind c) (c_robot c) (c_session c) (c_src c) (c_at c) (c_send c) (c_cap c) (c_done c)
         (if bool_decide (c_reason c = "") then reason else c_reason c) (c_closeSent c) (c_reader c) (c_writer c) (c_written c).
Definition setDisconnectReason k (reason : string) : go unit := change (on_conn k (conn_reason reason)).

Definition disconnectReason (c : agentConn M) : string := trim (c_reason c).

Definition conn_queue (send written : list (agentControlMessage M)) (c : agentConn M) : agentConn M :=
  AgentConn (c_kind c) (c_robot c) (c_session c) (c_src c) (c_at c) send (c_cap c) (c_done c) (c_reason c) (c_closeSent c)
    (c_reader c) (c_writer c) written.
Definition conn_runs (reader : bool) (writer : running) (c : agentConn M) : agentConn M :=
  AgentConn (c_kind c) (c_robot c) (c_session c) (c_src c) (c_at c) (c_send c) (c_cap c) (c_done c) (c_reason c) (c_closeSent c)
    reader writer (c_written c).
Definition conn_sent_close (m : gmap string Z) (c : agentConn M) : agentConn M :=
  AgentConn (c_kind c) (c_robot c) (c_session c) (c_src c) (c_at c) (c_send c) (c_cap c) (c_done c) (c_reason c) m
    (c_reader c) (c_writer c) (c_written c).
Definition conn_named (robotID : string) (c : agentConn M) : agentConn M :=
  AgentConn (c_kind c) robotID (c_session c) (c_src c) (c_at c) (c_send c) (c_cap c) (c_done c) (c_reason c) (c_closeSent c)
    (c_reader c) (c_writer c) (c_written c).

Definition describeAgentWSDisconnect (e : ws_error) : string :=
  match e_close e with
  | Some (code, text) =>
      if bool_decide (trim text ≠ "") then "websocket close code=" +:+ decimal code +:+ " text=" +:+ trim text
      else "websocket close code=" +:+ decimal code
  | None => trim (e_text e)
  end.

(** ** The tables of connections *)

Definition normalizeAgentControlConcurrencyPolicy (policy : string) : string :=
  let p := ToLower (trim policy) in
  if bool_decide (p = "") || bool_decide (p = agentControlConcurrencyPolicyRejectNew) then agentControlConcurrencyPolicyRejectNew
  else if bool_decide (p = agentControlConcurrencyPolicyPreemptExisting) then agentControlConcurrencyPolicyPreemptExisting
  else agentControlConcurrencyPolicyRejectNew.
(** [raw]: the variable ROBOTUNNEL_CONTROL_CONCURRENCY_POLICY, blank if not set. *)
Definition currentAgentControlConcurrencyPolicy (raw : string) : string := normalizeAgentControlConcurrencyPolicy (trim raw).

Definition RegisterWithPolicy k (policy : string) w : (bool * option nat) * world M :=
  match objs w !! k with
  | None => ((false, None), w)
  | Some c =>
      let robotID := trim (c_robot c) in
      if bool_decide (robotID = "") then ((false, None), w) else
      let w := on_conn k (conn_named robotID) w in
      let policy := normalizeAgentControlConcurrencyPolicy policy in
      let prev := conns w !! robotID in
      if bool_decide (prev ≠ None) && bool_decide (policy = agentControlConcurrencyPolicyRejectNew) then ((false, prev), w)
      else ((true, prev), set_conns (<[robotID := k]> (conns w)) w)
  end.

Definition Register k w : option nat * world M :=
  let '((_, prev), w) := RegisterWithPolicy k agentControlConcurrencyPolicyPreemptExisting w in (prev, w).

Definition Unregister k w : bool * world M :=
  match objs w !! k with
  | Some c =>
      if bool_decide (conns w !! c_robot c = Some k) then (true, set_conns (delete (c_robot c) (conns w)) w) else (false, w)
  | None => (false, w)
  end.

Definition RegisterRelayConn k w : option nat * world M :=
  match objs w !! k with
  | None => (None, w)
  | Some c =>
      let robotID := trim (c_robot c) in
      if bool_decide (robotID = "") then (None, w) else
      let w := on_conn k (conn_named robotID) w in
      (relay w !! robotID, set_relay (<[robotID := k]> (relay w)) w)
  end.

Definition UnregisterRelayConn k w : bool * world M :=
  match objs w !! k with
  | Some c =>
      let robotID := trim (c_robot c) in
      if bool_decide (relay w !! robotID = Some k) then (true, set_relay (delete robotID (relay w)) w) else (false, w)
  | None => (false, w)
  end.

Definition HasConnection (robotID : string) w : bool := bool_decide (is_Some (conns w !! trim robotID)).
Definition HasRelayConnection (robotID : string) w : bool := bool_decide (is_Some (relay w !! trim robotID)).

(** [select { case conn.send <- msg: ... default: ... }] *)
Definition put_send k msg w : bool * world M :=
  match objs w !! k with
  | Some c =>
      if (length (c_send c) <? c_cap c)%nat
      then (true, set_sent (sent w ++ [(k, msg)]) (on_conn k (conn_queue (c_send c ++ [msg]) (c_written c)) w))
      else (false, w)
  | None => (false, w)
  end.

Definition Send (robotID : string) msg : go bool :=
  conn ← look (λ w, conns w !! trim robotID);
  match conn with None => mret false | Some k => atomic (λ _, put_send k msg) end.

Definition SendRelay (robotID : string) msg : go bool :=
  let robotID := trim robotID in
  if bool_decide (robotID = "") then mret false else
  relayConn ← look (λ w, relay w !! robotID);
  match relayConn with None => mret false | Some k => atomic (λ _, put_send k msg) end.

(** ** Sessions *)

Definition active (robotID : string) w : string := trim (default "" (activeSessions w !! robotID)).

Definition ActiveSession (robotID : string) : go string :=
  let robotID := trim robotID in
  if bool_decide (robotID = "") then mret "" else look (active robotID).

Definition MatchesActiveSession (robotID sessionKey : string) : go bool :=
  let robotID := trim robotID in
  let sessionKey := trim sessionKey in
  if bool_decide (robotID = "") || bool_decide (sessionKey = "") then mret false
  else look (λ w, bool_decide (active robotID w = sessionKey)).

Definition ClearActiveSessionIfMatch (robotID sessionKey : string) : go bool :=
  let robotID := trim robotID in
  let sessionKey := trim sessionKey in
  if bool_decide (robotID = "") then mret false else
  atomic (λ _ w,
    let current := active robotID w in
    if bool_decide (current = "") then (false, w)
    else if bool_decide (sessionKey ≠ "") && bool_decide (current ≠ sessionKey) then (false, w)
    else (true, set_activeSessions (delete robotID (activeSessions w)) w)).

(** ** Commands and their answers *)

Definition on_call n (f : call M → call M) w : world M := set_calls (alter f n (calls w)) w.
Definition buf_set (b : option (option M)) (c : call M) : call M := Call (call_id c) b (call_result c).
Definition drop_pending (requestID : string) : go unit := change (λ w, set_pending (delete requestID (pending w)) w).

(** Call number [n]: [respCh] is new and pending under a new request id. *)
Definition new_call n : go string :=
  with_uuid (λ requestID w,
    set_pending (<[requestID := n]> (pending w)) (set_calls (<[n := Call requestID None None]> (calls w)) w)).

(** [select { case resp := <-respCh: ... case <-time.After(timeout): ... }] *)
Definition wait_response n (timeout : Z) : go (option (option M)) :=
  start ← clock;
  await (λ i w,
    match i_branch i with
    | O => c ← calls w !! n; resp ← call_buf c; Some (Some resp, on_call n (buf_set None) w)
    | _ => if start + timeout <=? i_now i then Some (None, w) else None
    end).

(** The two calls are alike but for the message, the default and the error. *)
Definition send_request n (robotID : string) (msg : string → string → agentControlMessage M) (timeout : Z) (late : call_error) :
    go (result call_error (option M)) :=
  let robotID := trim robotID in
  sessionKey ← ActiveSession robotID;
  requestID ← new_call n;
  ok ← Send robotID (msg requestID sessionKey);
  if negb ok then drop_pending requestID;; mret (Err NoControlChannel) else
  resp ← wait_response n timeout;
  match resp with
  | Some resp => mret (Ok resp)
  | None => drop_pending requestID;; mret (Err late)
  end.

Definition SendCommand n (robotID : string) (command : option M) (timeout : Z) : go (result call_error (option M)) :=
  let timeout := if timeout <=? 0 then from_secs 35 else timeout in
  send_request n robotID (λ requestID sessionKey, request_message "command_request" requestID sessionKey command None)
    timeout (CommandTimeout timeout).

Definition SendStatusQuery n (robotID : string) (query : option M) (timeout : Z) : go (result call_error (option M)) :=
  let timeout := if timeout <=? 0 then from_secs 8 else timeout in
  send_request n robotID (λ requestID sessionKey, request_message "status_request" requestID sessionKey None query)
    timeout (StatusTimeout timeout).

Definition deliverResponse (requestID : string) (response : option M) : go bool :=
  let requestID := trim requestID in
  if bool_decide (requestID = "") then mret false else
  ch ← atomic (λ _ w,
    match pending w !! requestID with
    | Some n => (Some n, set_answers (answers w ++ [(requestID, response)]) (set_pending (delete requestID (pending w)) w))
    | None => (None, w)
    end);
  match ch with
  | None => mret false
  | Some n => change (on_call n (λ c, match call_buf c with None => buf_set (Some response) c | Some _ => c end));; mret true
  end.

(** ** Relay sessions *)

Definition fresh_queue (q : relayQueue M) : relayQueue M := RelayQueue (ch q) (ch_cap q) [] newRelayQueueStats (put q) (got q).

(** [ch] is the queue [q]; its times and counters are new. *)
Definition RegisterRelay (relayID robotID sessionKey : string) (q : nat) w : world M :=
  let relayID := trim relayID in
  if bool_decide (relayID = "") then w
  else set_relays (<[relayID := Registration (trim robotID) (trim sessionKey) q]> (relays w))
         (set_queues (alter fresh_queue q (queues w)) w).

Definition UnregisterRelay (relayID : string) w : world M :=
  let relayID := trim relayID in
  if bool_decide (relayID = "") then w else set_relays (delete relayID (relays w)) w.

Definition RelayStatsSnapshot (relayID : string) w : relayQueueStatsSnapshot :=
  snapshot (default newRelayQueueStats (reg ← relays w !! trim relayID; stats <$> queues w !! reg_queue reg)).

Definition count_no_slot (q : nat) : go unit := atomic (λ _, on_queue q (λ x, (true, no_slot x)));; mret tt.

Definition deliverRelay msg : go relayDeliveryResult :=
  let relayID := trim (m_relay msg) in
  if bool_decide (relayID = "") then mret relayDeliveryNoRegistration else
  reg ← look (λ w, relays w !! relayID);
  match reg with
  | None => mret relayDeliveryNoRegistration
  | Some reg =>
      let q := reg_queue reg in
      now ← clock;
      ok ← atomic (λ _, on_queue q (enqueue msg now));
      if (ok : bool) then mret relayDeliveryDelivered else
      ok ← (if bool_decide (trim (m_type msg) = "relay_data")
            then atomic (λ _, on_queue q dropOldestQueuedMessage);; atomic (λ _, on_queue q (enqueue msg now))
            else mret false);
      if (ok : bool) then mret relayDeliveryDelivered else
      count_no_slot q;; mret relayDeliveryChannelFull
  end.

Definition is_stale (robotID activeSessionKey : string) (reg : relayRegistration) : bool :=
  EqualFold (trim (reg_robot reg)) robotID && negb (EqualFold (trim (reg_session reg)) activeSessionKey).

Fixpoint close_stale (activeSessionKey : string) (stale : list (string * relayRegistration)) : go unit :=
  match stale with
  | [] => mret tt
  | (relayID, reg) :: stale =>
      let msg := relay_message "relay_close" relayID activeSessionKey 0 "" "attach preempted by newer attach" in
      let q := reg_queue reg in
      now ← clock;
      ok ← atomic (λ _, on_queue q (enqueue msg now));
      (if (ok : bool) then mret tt else
       dropped ← atomic (λ _, on_queue q dropOldestQueuedMessage);
       ok ← (if (dropped : bool) then atomic (λ _, on_queue q (enqueue msg now)) else mret false);
       if (ok : bool) then mret tt else count_no_slot q);;
      close_stale activeSessionKey stale
  end.

Definition preemptRelaysForSession (robotID activeSessionKey : string) : go unit :=
  let robotID := trim robotID in
  let activeSessionKey := trim activeSessionKey in
  if bool_decide (robotID = "") || bool_decide (activeSessionKey = "") then mret tt else
  stale ← await (λ i w,
    if decide (i_range i (relays w) ≡ₚ map_to_list (relays w))
    then Some (filter (λ x, is_stale robotID activeSessionKey x.2 = true) (i_range i (relays w)), w) else None);
  close_stale activeSessionKey stale.

Definition SetActiveSession (robotID sessionKey : string) : go unit :=
  let robotID := trim robotID in
  let sessionKey := trim sessionKey in
  if bool_decide (robotID = "") || bool_decide (sessionKey = "") then mret tt else
  changed ← atomic (λ _ w,
    (bool_decide (active robotID w ≠ sessionKey), set_activeSessions (<[robotID := sessionKey]> (activeSessions w)) w));
  if (changed : bool) then preemptRelaysForSession robotID sessionKey else mret tt.

(** ** The goroutines of an agent's connection *)

(** What [ReadMessage] gives the reader, or the ping and pong handlers meanwhile; a text
    with what [json.Unmarshal] makes of it. *)
Inductive agent_input : Type :=
| ReadError (e : ws_error)
| ReadControl
| ReadOther
| ReadText (m : option (agentControlMessage M)).

(** [sendRelayClose], with [relayCloseSentAt] in the connection. *)
Definition sendRelayClose k (robotID relayID reason : string) : go unit :=
  let relayID := trim relayID in
  let reason := trim reason in
  if bool_decide (relayID = "") then mret tt else
  ok ← atomic (λ i w,
    match objs w !! k with
    | Some c =>
        if match c_closeSent c !! relayID with
           | Some last => Sub (i_now i) last <? agentControlRelayCloseCooldown
           | None => false
           end
        then (false, w) else (true, on_conn k (conn_sent_close (<[relayID := i_now i]> (c_closeSent c))) w)
    | None => (false, w)
    end);
  if negb ok then mret tt else
  sessionKey ← ActiveSession robotID;
  SendRelay robotID (relay_message "relay_close" relayID (trim sessionKey) 0 "" reason);;
  mret tt.

Definition is_relay_type (t : string) : bool :=
  bool_decide (t = "relay_open_ack") || bool_decide (t = "relay_data") || bool_decide (t = "relay_close").

Definition relay_inbound k (robotID : string) msg : go unit :=
  r ← deliverRelay msg;
  match r with
  | relayDeliveryNoRegistration => sendRelayClose k robotID (m_relay msg) "relay_not_registered"
  | _ => mret tt
  end.

(** The end of the handler, after the reader. *)
Definition control_ends k (robotID : string) : go unit :=
  close k;;
  removed ← atomic (λ _, Unregister k);
  (if (removed : bool) then now ← clock; note (Connstate.ODisconnected robotID (Some now)) else mret tt);;
  close k.
Definition relay_ends k : go unit := close k;; atomic (λ _, UnregisterRelayConn k);; close k.

Definition stop_reader k : go unit := change (on_conn k (λ c, conn_runs false (c_writer c) c)).

(** One turn of the reader of connection [k], of robot [robotID]. *)
Definition readAgentControlPump k (robotID : string) (x : agent_input) : go unit :=
  match x with
  | ReadError e =>
      setDisconnectReason k (describeAgentWSDisconnect e);; stop_reader k;; control_ends k robotID
  | ReadControl | ReadOther | ReadText None => TouchControlActivity robotID
  | ReadText (Some msg) =>
      TouchControlActivity robotID;;
      let messageType := trim (m_type msg) in
      if bool_decide (messageType = "command_response") || bool_decide (messageType = "status_response")
      then deliverResponse (m_request msg) (m_response msg);; mret tt
      else if is_relay_type messageType then relay_inbound k robotID msg
      else mret tt
  end.

Definition readAgentRelayPump k (robotID : string) (x : agent_input) : go unit :=
  match x with
  | ReadError e => setDisconnectReason k (describeAgentWSDisconnect e);; stop_reader k;; relay_ends k
  | ReadControl | ReadOther | ReadText None => mret tt
  | ReadText (Some msg) => if is_relay_type (trim (m_type msg)) then relay_inbound k robotID msg else mret tt
  end.

(** [select] of the writer of connection [k]: a message or a ping goes out, or the
    writer ends, with a reason or with none.  On a closed socket a write fails. *)
Definition write_select k (name : string) : go (option string) :=
  await (λ i w,
    c ← objs w !! k;
    if negb (is_running (c_writer c)) then None else
    match i_branch i with
    | O =>
        match c_send c, i_write i with
        | [], _ => None
        | msg :: rest, Some e =>
            Some (Some (name +:+ " write failed: " +:+ trim (e_text e)),
                  on_conn k (λ c, conn_runs (c_reader c) Over (conn_queue rest (c_written c) c)) w)
        | msg :: rest, None =>
            if c_done c then None else Some (None, on_conn k (conn_queue rest (c_written c ++ [msg])) w)
        end
    | S O =>
        match i_write i with
        | Some e =>
            Some (Some (name +:+ " ping failed: " +:+ trim (e_text e)), on_conn k (λ c, conn_runs (c_reader c) Over c) w)
        | None => if c_done c then None else Some (None, w)
        end
    | _ => if c_done c then Some (Some "", on_conn k (λ c, conn_runs (c_reader c) Over c) w) else None
    end).

Definition writer_ends k (reason : string) : go unit := setDisconnectReason k reason;; close k.

(** One turn of the writers. *)
Definition writeAgentControlPump k (robotID : string) : go unit :=
  r ← write_select k "control";
  match r with None => TouchControlActivity robotID | Some reason => writer_ends k reason end.
Definition writeAgentRelayPump k : go unit :=
  r ← write_select k "relay";
  match r with None => mret tt | Some reason => writer_ends k reason end.

(** ** Agents connect *)

Record AuthRecord : Type := { auth_ID : string; auth_LocalIP : option string }.

(** The request: its parameters, the address it comes from, the answer of
    [ResolveControl], and whether the upgrade works. *)
Record agent_request : Type := AgentRequest {
  ar_robot : string;
  ar_session : string;
  ar_header : string;
  ar_query : string;
  ar_ip : string;
  ar_resolve : string → string → result unit (option AuthRecord);
  ar_upgrade : bool;
}.

(** How the request ends, or begins: an HTTP status, no upgrade, a close frame, or a
    connection. *)
Inductive answer : Type :=
| HttpError (status : Z) (error : string)
| UpgradeFailed
| CloseFrame (code : Z) (text : string)
| Accepted.

Definition admit_agent (rq : agent_request) : result (Z * string) (string * AuthRecord) :=
  let robotID := trim (ar_robot rq) in
  let apiKey := if bool_decide (trim (ar_header rq) = "") then trim (ar_query rq) else trim (ar_header rq) in
  if bool_decide (robotID = "") || bool_decide (apiKey = "") then Err (400, "robot_id and api_key are required")
  else if negb (uuid_Parse robotID) then Err (400, "robot_id must be a valid UUID")
  else match ar_resolve rq robotID apiKey with
       | Err _ => Err (500, "database query failed")
       | Ok None => Err (401, "invalid robot credentials")
       | Ok (Some authRecord) => Ok (robotID, authRecord)
       end.

Definition session_id (rq : agent_request) : go string :=
  if bool_decide (trim (ar_session rq) = "") then uuid_New else mret (trim (ar_session rq)).

(** A new object: its number is not in use. *)
Definition new_conn k (kind : channel) (robotID sessionID src : string) (now : Z) (cap : nat) : go unit :=
  await (λ _ w,
    if decide (objs w !! k = None)
    then Some (tt, set_objs (<[k := AgentConn kind robotID sessionID src now [] cap false "" ∅ false NotYet []]> (objs w)) w)
    else None).
Definition start_pumps k : go unit := change (on_conn k (λ c, conn_runs true (started (c_writer c)) c)).
Definition close_prev (prev : option nat) : go unit := match prev with Some p => close p | None => mret tt end.

(** The address of the connection that is kept. *)
Definition incumbent_ip (prev : option nat) w : string :=
  match prev ≫= (objs w !!.) with
  | Some c => if bool_decide (trim (c_src c) ≠ "") then trim (c_src c) else "<unknown>"
  | None => "<unknown>"
  end.

(** [handleAgentControlConnect] up to its reader, and [readAgentControlPump] with what
    follows it, are two parts of one goroutine.  [raw] is the policy's variable. *)
Definition handleAgentControlConnect k (raw : string) (rq : agent_request) : go answer :=
  sessionID ← session_id rq;
  match admit_agent rq with
  | Err (status, error) => mret (HttpError status error)
  | Ok (robotID, authRecord) =>
      if negb (ar_upgrade rq) then mret UpgradeFailed else
      now ← clock;
      let src := trim (ar_ip rq) in
      new_conn k ControlPlane robotID sessionID src now 256;;
      let policy := currentAgentControlConcurrencyPolicy raw in
      r ← atomic (λ _, RegisterWithPolicy k policy);
      match r with
      | (false, prev) =>
          incumbentIP ← look (incumbent_ip prev);
          now ← clock;
          note (Connstate.OContention robotID src incumbentIP policy "competing_control_connection" (Some now));;
          close k;;
          mret (CloseFrame 1008 "competing control connection for robot_id")
      | (true, prev) =>
          close_prev prev;;
          now ← clock;
          let localIP := match auth_LocalIP authRecord with Some ip => trim ip | None => "" end in
          note (Connstate.OConnected (auth_ID authRecord) src localIP "unknown" (Some now));;
          start_pumps k;;
          mret Accepted
      end
  end.

Definition handleAgentRelayConnect k (rq : agent_request) : go answer :=
  sessionID ← session_id rq;
  match admit_agent rq with
  | Err (status, error) => mret (HttpError status error)
  | Ok (robotID, authRecord) =>
      if negb (ar_upgrade rq) then mret UpgradeFailed else
      now ← clock;
      new_conn k DataPlane robotID sessionID (trim (ar_ip rq)) now 2048;;
      prev ← atomic (λ _, RegisterRelayConn k);
      close_prev prev;;
      start_pumps k;;
      mret Accepted
  end.

(** ** Which session a user may attach to *)

Definition attachSessionSnapshot (sessionKey robotID userID : string) : go (option BootstrapSession) :=
  let sessionKey := trim sessionKey in
  let robotID := trim robotID in
  let userID := trim userID in
  if bool_decide (sessionKey = "") || bool_decide (robotID = "") then mret None else
  snapshot ← look (λ w, SessionSnapshot sessionKey (sessions w));
  mret (s ← snapshot;
        if negb (EqualFold (trim (s_RobotID s)) robotID) then None
        else if bool_decide (userID ≠ "") && bool_decide (trim (UserID s) ≠ "") && negb (EqualFold (trim (UserID s)) userID)
        then None else Some s).

Definition attachSessionRefTime (snapshot : BootstrapSession) : go_time :=
  match parseRFC3339Safe (UpdatedAt snapshot) with Some t => Some t | None => parseRFC3339Safe (StartedAt snapshot) end.

Definition shouldPromoteAttachSession (activeSessionKey requestedSessionKey robotID userID : string) : go bool :=
  requested ← attachSessionSnapshot requestedSessionKey robotID userID;
  match requested with
  | None => mret false
  | Some requested =>
      active ← attachSessionSnapshot activeSessionKey robotID userID;
      match active with
      | None => mret true
      | Some active =>
          mret match attachSessionRefTime requested, attachSessionRefTime active with
               | Some requestedAt, Some activeAt => After requestedAt activeAt
               | _, _ => false
               end
      end
  end.

(** ** Settings *)

(** [strconv.Atoi]: decimal digits after an optional sign, within 64 bits. *)
Definition Atoi (s : string) : option Z :=
  match s with
  | String a rest =>
      if decide (a = "-"%char)
      then if is_empty rest then None else v ← digits_value 0 rest; if v <=? 2 ^ 63 then Some (- v) else None
      else parse_uint 63 s
  | "" => None
  end.

(** [raw]: the value of the variable, blank if not set. *)
Definition parseGatewayEnvIntDefault (raw : string) (fallback minValue maxValue : Z) : Z :=
  let raw := trim raw in
  if bool_decide (raw = "") then fallback else
  match Atoi raw with
  | None => fallback
  | Some v => if v <? minValue then minValue else if v >? maxValue then maxValue else v
  end.
Definition relayClientWriteTimeoutDuration (raw : string) : Z :=
  parseGatewayEnvIntDefault raw 20000 1000 120000 * 1000000.
Definition relayClientSoftTimeoutBudget (raw : string) : Z := parseGatewayEnvIntDefault raw 6 0 256.

Definition isRelayWriterTimeoutLikeError (e : ws_error) : bool :=
  e_timeout e || e_deadline e
  || let msg := ToLower (trim (e_text e)) in contains "i/o timeout" msg || contains "deadline exceeded" msg.

(** ** A user's relay session *)

(** The request: [RelayUser], its parameters, [RobotOwnedBy], whether the upgrade
    works, and the variable of the timeout budget. *)
Record user_request : Type := UserRequest {
  ur_user : result unit string;
  ur_robot : string;
  ur_port : string;
  ur_session : string;
  ur_owned : string → string → result unit bool;
  ur_upgrade : bool;
  ur_budget : string;
}.

(** The robot, the port and the session key, once the request is granted. *)
Definition relay_admission (rq : user_request) : go (result (Z * string) (string * Z * string)) :=
  match ur_user rq with
  | Err _ => mret (Err (401, "Unauthorized"))
  | Ok userID =>
      let robotID := trim (ur_robot rq) in
      let portRaw := trim (ur_port rq) in
      if bool_decide (robotID = "") || bool_decide (portRaw = "") then mret (Err (400, "robot_id and port are required")) else
      match Atoi portRaw with
      | None => mret (Err (400, "port must be between 1 and 65535"))
      | Some port =>
          if (port <=? 0) || (port >? 65535) then mret (Err (400, "port must be between 1 and 65535")) else
          match ur_owned rq robotID userID with
          | Err _ => mret (Err (500, "Database query failed"))
          | Ok false => mret (Err (404, "robot not found"))
          | Ok true =>
              online ← look (HasRelayConnection robotID);
              if negb online then mret (Err (409, "robot relay channel offline")) else
              activeSession ← ActiveSession robotID;
              let sessionKey := if bool_decide (trim (ur_session rq) = "") then activeSession else trim (ur_session rq) in
              if bool_decide (sessionKey = "") then mret (Err (409, "robot attach session unavailable")) else
              if bool_decide (activeSession ≠ "") && negb (EqualFold activeSession sessionKey) then
                snapshot ← attachSessionSnapshot sessionKey robotID userID;
                if match snapshot with Some s => bool_decide (SessionID s = "") | None => true end
                then mret (Err (409, "attach session is stale; reconnect required")) else
                promote ← shouldPromoteAttachSession activeSession sessionKey robotID userID;
                if negb promote then mret (Err (409, "attach session is stale; reconnect required")) else
                SetActiveSession robotID sessionKey;; mret (Ok (robotID, port, sessionKey))
              else if bool_decide (activeSession = "") then
                attachSessionSnapshot sessionKey robotID userID;;
                SetActiveSession robotID sessionKey;; mret (Ok (robotID, port, sessionKey))
              else mret (Ok (robotID, port, sessionKey))
          end
      end
  end.

Definition user_main (f : relayMain M → relayMain M) (x : userRelay M) : userRelay M :=
  UserRelay (u_info x) (f (u_main x)) (u_up x) (u_once x) (u_done x).
Definition user_up (f : relayReader → relayReader) (x : userRelay M) : userRelay M :=
  UserRelay (u_info x) (u_main x) (f (u_up x)) (u_once x) (u_done x).
Definition user_closing (once done : bool) (x : userRelay M) : userRelay M :=
  UserRelay (u_info x) (u_main x) (u_up x) once done.

Definition main_phase (p : phase) (gone : bool) (m : relayMain M) : relayMain M :=
  RelayMain p (rm_deadline m) (rm_pending m) (rm_streak m) gone (rm_out m).
Definition main_pending (l : list (agentControlMessage M)) (m : relayMain M) : relayMain M :=
  RelayMain (rm_phase m) (rm_deadline m) l (rm_streak m) (rm_gone m) (rm_out m).
Definition main_deadline (t : Z) (m : relayMain M) : relayMain M :=
  RelayMain (rm_phase m) t (rm_pending m) (rm_streak m) (rm_gone m) (rm_out m).
Definition main_streak (n : Z) (m : relayMain M) : relayMain M :=
  RelayMain (rm_phase m) (rm_deadline m) (rm_pending m) n (rm_gone m) (rm_out m).
Definition main_write (x : client_frame) (m : relayMain M) : relayMain M :=
  RelayMain (rm_phase m) (rm_deadline m) (rm_pending m) (rm_streak m) (rm_gone m) (rm_out m ++ [x]).

(** [wsConn.WriteControl] with a close frame; its error is ignored. *)
Definition client_close u (code : Z) (text : string) : go unit :=
  atomic (λ i w, (tt, if bool_decide (i_write i = None) then on_user u (user_main (main_write (ClientClose code text))) w else w)).

(** [defer]: the session leaves the table and the socket is closed. *)
Definition relay_over u (relayID : string) : go unit :=
  change (UnregisterRelay relayID);;
  change (on_user u (user_main (main_phase Ended true))).

Definition new_user u (info : relayInfo) w : world M :=
  RegisterRelay (ri_id info) (ri_robot info) (ri_key info) u
    (set_queues (<[u := new_queue 512]> (queues w))
       (set_users (<[u := UserRelay info (RelayMain Opening 0 [] 0 false []) (RelayReader false [] false) false false]> (users w)) w)).

(** [handleRelayWS] until it waits for the agent. *)
Definition handleRelayWS u (rq : user_request) : go answer :=
  r ← relay_admission rq;
  match r with
  | Err (status, error) => mret (HttpError status error)
  | Ok (robotID, port, sessionKey) =>
      if negb (ur_upgrade rq) then mret UpgradeFailed else
      relayID ← with_uuid (λ relayID,
        new_user u (RelayInfo robotID port sessionKey relayID (relayClientSoftTimeoutBudget (ur_budget rq))));
      ok ← SendRelay robotID (relay_message "relay_open" relayID sessionKey port "" "");
      if negb ok
      then client_close u 1013 "relay_open send failed";; relay_over u relayID;; mret (CloseFrame 1013 "relay_open send failed")
      else now ← clock; change (on_user u (user_main (main_deadline (now + from_secs 8))));; mret Accepted
  end.

(** [closeOnce.Do]: who comes second waits for the first. *)
Definition closeRelay u (info : relayInfo) (reason : string) : go unit :=
  first ← await (λ _ w,
    x ← users w !! u;
    if u_once x then (if u_done x then Some (false, w) else None)
    else Some (true, on_user u (user_closing true (u_done x)) w));
  if (first : bool) then
    SendRelay (ri_robot info) (relay_message "relay_close" (ri_id info) (ri_key info) 0 "" (trim reason));;
    change (on_user u (user_closing true true))
  else mret tt.

Definition session_over u (info : relayInfo) : go unit :=
  closeRelay u info "client_disconnected";; relay_over u (ri_id info).

(** What handling a message from the agent leads to. *)
Inductive client_turn : Type := Continue | Leave | BadPayload.

Definition write_data (m : relayMain M) (budget : Z) (data : list byte) (i : input) : client_turn * relayMain M :=
  match i_write i with
  | None => (Continue, main_write (ClientData data) (main_streak 0 m))
  | Some e =>
      if (budget >? 0) && isRelayWriterTimeoutLikeError e then
        let m := main_streak (rm_streak m + 1) m in
        if rm_streak m <=? budget then (Continue, m) else (Leave, m)
      else (Leave, m)
  end.

(** [sendToClient], up to its calls of [closeRelay]. *)
Definition client_step (m : relayMain M) (budget : Z) (inbound : agentControlMessage M) (i : input) : client_turn * relayMain M :=
  let t := trim (m_type inbound) in
  if bool_decide (t = "relay_data") then
    let raw := trim (m_data inbound) in
    if bool_decide (raw = "") then (Continue, m) else
    match DecodeString raw with
    | None => (BadPayload, m)
    | Some data => write_data m budget data i
    end
  else if bool_decide (t = "relay_close") then
    let text := if bool_decide (trim (m_error inbound) = "") then "relay closed" else trim (m_error inbound) in
    (Leave, if bool_decide (i_write i = None) then main_write (ClientClose 1000 text) m else m)
  else (Continue, m).

(** It takes the first message that is not handled yet; the session goes on or not. *)
Definition sendToClient u (info : relayInfo) : go bool :=
  r ← atomic (λ i w,
    match users w !! u with
    | Some x =>
        match rm_pending (u_main x) with
        | inbound :: rest =>
            let '(r, m) := client_step (main_pending rest (u_main x)) (ri_budget info) inbound i in
            (r, on_user u (user_main (λ _, m)) w)
        | [] => (Continue, w)
        end
    | None => (Leave, w)
    end);
  match r with
  | Continue => mret true
  | Leave => mret false
  | BadPayload => closeRelay u info "invalid_relay_payload";; mret false
  end.

Fixpoint send_pending u (info : relayInfo) (n : nat) : go bool :=
  match n with
  | O => mret true
  | S n => ok ← sendToClient u info; if (ok : bool) then send_pending u info n else mret false
  end.

(** [case inbound := <-relayCh] *)
Definition take_inbound u (keep : agentControlMessage M → bool) (now : Z) w : option (agentControlMessage M * world M) :=
  q ← queues w !! u;
  '(msg, q) ← receive now q;
  x ← users w !! u;
  Some (msg, set_queues (<[u := q]> (queues w))
               (if keep msg then on_user u (user_main (main_pending (rm_pending (u_main x) ++ [msg]))) w else w)).

(** One turn while the session is opened; the acknowledgement establishes it. *)
Definition open_turn u (info : relayInfo) : go unit :=
  let is_ack (msg : agentControlMessage M) := bool_decide (trim (m_type msg) = "relay_open_ack") in
  inbound ← await (λ i w,
    match i_branch i with
    | O => '(msg, w) ← take_inbound u (λ msg, negb (is_ack msg)) (i_now i) w; Some (Some msg, w)
    | _ => x ← users w !! u; if rm_deadline (u_main x) <=? i_now i then Some (None, w) else None
    end);
  match inbound with
  | None => client_close u 1013 "relay_open timeout";; relay_over u (ri_id info)
  | Some msg =>
      if negb (is_ack msg) then mret tt
      else if EqualFold (trim (m_status msg)) "ok" then
        change (on_user u (λ x, user_up (λ _, RelayReader true [] false) (user_main (main_phase Established false) x)));;
        n ← look (λ w, match users w !! u with Some x => length (rm_pending (u_main x)) | None => O end);
        ok ← send_pending u info n;
        if (ok : bool) then mret tt else session_over u info
      else
        let text := if bool_decide (trim (m_error msg) = "") then "relay_open rejected" else trim (m_error msg) in
        client_close u 1008 text;; relay_over u (ri_id info)
  end.

(** One turn of an established session; [relayTicker] may tick at any time. *)
Definition relay_turn u (info : relayInfo) : go unit :=
  r ← await (λ i w,
    x ← users w !! u;
    match i_branch i with
    | O => '(msg, w) ← take_inbound u (λ _, true) (i_now i) w; Some (Some true, w)
    | S O =>
        if bool_decide (i_write i = None) then Some (None, on_user u (user_main (main_write ClientPing)) w)
        else Some (Some false, w)
    | _ => if u_done x then Some (Some false, w) else None
    end);
  ok ← match r with
       | None => mret true
       | Some true => sendToClient u info
       | Some false => mret false
       end;
  if (ok : bool) then mret tt else session_over u info.

(** ** The reader of the user's socket *)

Inductive user_input : Type := UserError | UserData (payload : list byte) | UserOther.

Definition reader_read (payload : list byte) (r : relayReader) : relayReader :=
  RelayReader (rr_alive r) (rr_read r ++ [payload]) true.
Definition reader_sent (r : relayReader) : relayReader := RelayReader (rr_alive r) (rr_read r) false.
Definition reader_stop (r : relayReader) : relayReader := RelayReader false (rr_read r) (rr_sending r).

(** One turn of the reader. *)
Definition user_reader u (info : relayInfo) (x : user_input) : go unit :=
  match x with
  | UserError => change (on_user u (user_up reader_stop));; closeRelay u info "client_reader_closed"
  | UserOther => mret tt
  | UserData payload =>
      change (on_user u (user_up (reader_read payload)));;
      ok ← SendRelay (ri_robot info) (relay_message "relay_data" (ri_id info) (ri_key info) 0 (EncodeToString payload) "");
      if (ok : bool) then change (on_user u (user_up reader_sent))
      else change (on_user u (user_up reader_stop));; closeRelay u info "client_reader_closed"
  end.

(** ** The platform's goroutines *)

Inductive name : Type :=
| GCall (n : nat)
| GConn (k : nat)
| GWriter (k : nat)
| GUser (u : nat)
| GUserReader (u : nat).

(** What can be started: the calls of the rest of the service, requests that come in,
    and turns of the goroutines that run. *)
Inductive entry : Type :=
| SendsCommand (n : nat) (robotID : string) (command : option M) (timeout : Z)
| SendsStatusQuery (n : nat) (robotID : string) (query : option M) (timeout : Z)
| Activates (n : nat) (robotID sessionKey : string)
| Clears (n : nat) (robotID sessionKey : string)
| Attempts (n : nat) (f : gmap string BootstrapSession → gmap string BootstrapSession)
| ConnectsControl (k : nat) (raw : string) (rq : agent_request)
| ConnectsRelay (k : nat) (rq : agent_request)
| Reads (k : nat) (kind : channel) (robotID : string) (x : agent_input)
| Writes (k : nat) (kind : channel) (robotID : string)
| ConnectsUser (u : nat) (rq : user_request)
| Opens (u : nat) (info : relayInfo)
| Relays (u : nat) (info : relayInfo)
| UserReads (u : nat) (info : relayInfo) (x : user_input).

Definition finish n (t : go (result call_error (option M))) : go unit :=
  r ← t; change (on_call n (λ c, Call (call_id c) (call_buf c) (Some r))).
Definition ignore {A} (t : go A) : go unit := t;; mret tt.

Definition code (e : entry) : name * go unit :=
  match e with
  | SendsCommand n r c t => (GCall n, finish n (SendCommand n r c t))
  | SendsStatusQuery n r q t => (GCall n, finish n (SendStatusQuery n r q t))
  | Activates n r s => (GCall n, SetActiveSession r s)
  | Clears n r s => (GCall n, ignore (ClearActiveSessionIfMatch r s))
  | Attempts n f => (GCall n, change (λ w, set_sessions (f (sessions w)) w))
  | ConnectsControl k raw rq => (GConn k, ignore (handleAgentControlConnect k raw rq))
  | ConnectsRelay k rq => (GConn k, ignore (handleAgentRelayConnect k rq))
  | Reads k ControlPlane r x => (GConn k, readAgentControlPump k r x)
  | Reads k DataPlane r x => (GConn k, readAgentRelayPump k r x)
  | Writes k ControlPlane r => (GWriter k, writeAgentControlPump k r)
  | Writes k DataPlane r => (GWriter k, writeAgentRelayPump k)
  | ConnectsUser u rq => (GUser u, ignore (handleRelayWS u rq))
  | Opens u info => (GUser u, open_turn u info)
  | Relays u info => (GUser u, relay_turn u info)
  | UserReads u info x => (GUserReader u, user_reader u info x)
  end.

(** Numbers are given once; turns are of goroutines that run, with what they know. *)
Definition startable (e : entry) w : bool :=
  match e with
  | SendsCommand n _ _ _ | SendsStatusQuery n _ _ _ => bool_decide (calls w !! n = None)
  | Activates _ _ _ | Clears _ _ _ | Attempts _ _ => true
  | ConnectsControl k _ _ | ConnectsRelay k _ => bool_decide (objs w !! k = None)
  | Reads k kind r _ =>
      match objs w !! k with
      | Some c => c_reader c && bool_decide (c_robot c = r) &&
          match c_kind c, kind with ControlPlane, ControlPlane | DataPlane, DataPlane => true | _, _ => false end
      | None => false
      end
  | Writes k kind r =>
      match objs w !! k with
      | Some c => is_running (c_writer c) && bool_decide (c_robot c = r) &&
          match c_kind c, kind with ControlPlane, ControlPlane | DataPlane, DataPlane => true | _, _ => false end
      | None => false
      end
  | ConnectsUser u _ => bool_decide (users w !! u = None)
  | Opens u info =>
      match users w !! u with
      | Some x => bool_decide (u_info x = info) && match rm_phase (u_main x) with Opening => true | _ => false end
      | None => false
      end
  | Relays u info =>
      match users w !! u with
      | Some x => bool_decide (u_info x = info) && match rm_phase (u_main x) with Established => true | _ => false end
      | None => false
      end
  | UserReads u info _ =>
      match users w !! u with
      | Some x => bool_decide (u_info x = info) && rr_alive (u_up x) && negb (rr_sending (u_up x))
      | None => false
      end
  end.

Definition NewAgentControlHub : world M :=
  World ∅ ∅ ∅ ∅ ∅ Gate.newFallbackTriggerGate ∅ ∅ ∅ ∅ ∅ ∅ [] [] [].
End Hub.

(** ** Names and automation for the theorems *)

#[export] Instance name_eq_dec : EqDecision name.
Proof. solve_decision. Defined.
#[export] Instance name_countable : Countable name.
Proof.
  refine (inj_countable'
    (λ g, match g with GCall n => (0%nat, n) | GConn n => (1%nat, n) | GWriter n => (2%nat, n)
          | GUser n => (3%nat, n) | GUserReader n => (4%nat, n) end)
    (λ x, match x.1 with 0 => GCall x.2 | 1 => GConn x.2 | 2 => GWriter x.2 | 3 => GUser x.2 | _ => GUserReader x.2 end)%nat _).
  by intros [].
Defined.

(** A thread whose actions are all within a relation that the goal's primitive
    operations keep by computation. *)
Ltac hub_threads :=
  unfold finish, ignore, SendCommand, SendStatusQuery, send_request, handleAgentControlConnect, handleAgentRelayConnect,
    readAgentControlPump, readAgentRelayPump, writeAgentControlPump, writeAgentRelayPump, handleRelayWS, relay_admission,
    shouldPromoteAttachSession, attachSessionSnapshot, open_turn, relay_turn, user_reader, sendToClient, session_over,
    relay_over, closeRelay, client_close, relay_inbound, deliverRelay, sendRelayClose, deliverResponse, control_ends,
    relay_ends, stop_reader, writer_ends, write_select, start_pumps, close_prev, new_conn, session_id,
    SetActiveSession, preemptRelaysForSession, ClearActiveSessionIfMatch, MatchesActiveSession, count_no_slot, wait_response,
    new_call, drop_pending, Send, SendRelay, ActiveSession, setDisconnectReason, close, TouchControlActivity, note, uuid_New,
    with_uuid, clock in *.

Ltac within_step :=
  match goal with
  | |- within _ (_ ≫= _) => apply within_bind; [|intros ?]
  | |- within _ (mret _) => exact I
  | |- within _ (Ret _) => exact I
  | |- within _ (await _) => apply within_await; intros ? ? ? ? ?
  | |- within _ (atomic _) => apply within_await; intros ? ? ? ? ?
  | |- within _ (look _) => apply within_await; intros ? ? ? ? ?
  | |- within _ (change _) => apply within_await; intros ? ? ? ? ?
  | |- within _ (match ?x with _ => _ end) => destruct x
  | |- within _ (let _ := _ in _) => cbv zeta
  end.

Ltac hub_case :=
  repeat match goal with
  | H : Some _ = Some _ |- _ => injection H as ??; subst
  | H : (_, _) = (_, _) |- _ => injection H as ??; subst
  | H : None = Some _ |- _ => discriminate H
  | H : _ ≫= _ = Some _ |- _ => apply bind_Some in H as (? & ? & H); cbv beta in H
  | H : context [match ?x with _ => _ end] |- _ => destruct x eqn:?
  | |- context [match ?x with _ => _ end] => destruct x eqn:?
  end.
Ltac hub_prim :=
  unfold new_user, put_send, RegisterWithPolicy, Unregister, RegisterRelayConn, UnregisterRelayConn, RegisterRelay,
    UnregisterRelay, take_inbound, on_conn, on_user, on_queue, on_call in *;
  cbv zeta in *; hub_case.
