(* ===== verification/HubControl.v ===== *)
(** * Commands, control connections and sessions at the hub (go/relay/relay.go)

    Theorems about the control plane of Hub.v, for all interleavings: commands and their
    answers, and control connections that exclude each other. *)

From Stdlib Require Import Ascii String.
From S2P Require Import Prelude Text ConnState Evidence Threads Hub.

(** ** Commands and their answers *)

Section Commands.
Context `{GS : !GoStrings, GB : !GoBase64, GU : !GoUuid, R : !Rfc3339, F : !Float64} {M : Type}.
Implicit Types (w : world M) (evs : list (sevent input name (entry (M := M)))).

(** A control reader was given this response. *)
Definition was_read evs (id : string) (response : option M) : Prop :=
  ∃ k r msg, Start (Reads k ControlPlane r (ReadText (Some msg))) ∈ evs
    ∧ (trim (m_type msg) = "command_response" ∨ trim (m_type msg) = "status_response")
    ∧ trim (m_request msg) = id ∧ m_response msg = response.

Record calls_ok evs w : Prop := {
  co_pending id n : pending w !! id = Some n →
    ∃ c, calls w !! n = Some c ∧ call_id c = id ∧ call_buf c = None ∧ call_result c = None ∧ ¬ (id ∈ (answers w).*1);
  co_id n c : calls w !! n = Some c → call_id c ∈ uuids w;
  co_inj n n' c c' : calls w !! n = Some c → calls w !! n' = Some c' → call_id c = call_id c' → n = n';
  co_buf n c r : calls w !! n = Some c → call_buf c = Some r → (call_id c, r) ∈ answers w;
  co_result n c r : calls w !! n = Some c → call_result c = Some (Ok r) → (call_id c, r) ∈ answers w;
  co_once : NoDup (answers w).*1;
  co_known id : id ∈ (answers w).*1 → id ∈ uuids w;
  co_read id r : (id, r) ∈ answers w → was_read evs id r;
}.

(** What every goroutine can rely on, and what the goroutine of a call can. *)
Record calls_grow w w' : Prop := {
  cg_uuids : uuids w ⊆ uuids w';
  cg_answers x : x ∈ answers w → x ∈ answers w';
  cg_calls n c : calls w !! n = Some c → ∃ c', calls w' !! n = Some c' ∧ call_id c' = call_id c;
  cg_pending id : id ∈ uuids w → pending w !! id = None → pending w' !! id = None;
}.
Definition calls_rely (g : name) w w' : Prop :=
  calls_grow w w' ∧ match g with GCall n => calls w !! n = None → calls w' !! n = None | _ => True end.

#[export] Instance calls_rely_preorder : Rely calls_rely.
Proof.
  intros g. split.
  - intros w. split; [split; eauto|destruct g; auto].
  - intros w1 w2 w3 [[A1 B1 C1 D1] H1] [[A2 B2 C2 D2] H2]. split; [split|].
    + by etrans.
    + auto.
    + intros n c (c' & Hc & Hi)%C1. destruct (C2 n c' Hc) as (c'' & ? & ?). exists c''. by rewrite <-Hi.
    + auto.
    + destruct g; auto.
Qed.

(** The part of the hub that commands use. *)
Definition calls_same w w' : Prop :=
  calls w' = calls w ∧ pending w' = pending w ∧ answers w' = answers w ∧ uuids w ⊆ uuids w'.

Lemma calls_same_keep evs g w w' : calls_ok evs w → calls_same w w' → calls_ok evs w' ∧ others calls_rely g w w'.
Proof.
  intros Hok (E1 & E2 & E3 & Hu). split.
  - destruct Hok as [H1 H2 H3 H4 H5 H6 H7 H8]. split; rewrite ?E1, ?E2, ?E3; eauto.
  - intros g' _. split; [split; rewrite ?E1, ?E2, ?E3; eauto|]. destruct g'; rewrite ?E1; auto.
Qed.

Lemma within_close_stale key stale : within calls_same (close_stale (M := M) key stale).
Proof.
  induction stale as [|[id reg] stale IH]; cbn [close_stale]; [done|]. hub_threads. repeat (within_step; try exact IH).
  all: hub_prim; repeat split; cbn; set_solver.
Qed.
Lemma within_send_pending u info n : within calls_same (send_pending (M := M) u info n).
Proof.
  induction n as [|n IH]; cbn [send_pending]; [done|]. hub_threads. repeat (within_step; try exact IH).
  all: try (hub_prim; repeat split; cbn; set_solver).
Qed.

(** Entries that neither ask nor answer. *)
Definition no_call (e : entry (M := M)) : bool :=
  match e with
  | SendsCommand _ _ _ _ | SendsStatusQuery _ _ _ _ | Reads _ ControlPlane _ (ReadText (Some _)) => false
  | _ => true
  end.

Ltac calls_within :=
  repeat (within_step || apply within_close_stale || apply within_send_pending);
  hub_prim; repeat split; cbn; set_solver.

Lemma within_SetActiveSession r s : within calls_same (SetActiveSession (M := M) r s).
Proof. hub_threads. calls_within. Qed.
Lemma within_relay_inbound k r msg : within calls_same (relay_inbound (M := M) k r msg).
Proof. hub_threads. calls_within. Qed.
Lemma within_closeRelay u info reason : within calls_same (closeRelay (M := M) u info reason).
Proof. hub_threads. calls_within. Qed.

Lemma no_call_within e : no_call e = true → within calls_same (code e).2.
Proof.
  destruct e as [| | | | | | |k [] r [| | |[m|]]|k [] r| | | |]; intros E; try discriminate E; cbn [code snd].
  all: hub_threads.
  all: calls_within.
Qed.

Section Run.
Variable evs : list (sevent input name (entry (M := M))).
Local Abbreviation csafe := (safe (calls_ok evs) calls_rely).
Local Abbreviation cbind := (safe_bind (calls_ok evs) calls_rely).

(** Call [n] has request [id]; it is no longer pending. *)
Definition known n (id : string) w : Prop := id ∈ uuids w ∧ ∃ c, calls w !! n = Some c ∧ call_id c = id.
Definition settled n (id : string) w : Prop := known n id w ∧ pending w !! id = None.

Lemma known_grow n id w w' : known n id w → calls_grow w w' → known n id w'.
Proof.
  intros [Hu (c & Hc & Hi)] Hg. split; [by apply (cg_uuids _ _ Hg)|].
  destruct (cg_calls _ _ Hg n c Hc) as (c' & ? & ?). exists c'. split; congruence.
Qed.
Lemma settled_grow n id w w' : settled n id w → calls_grow w w' → settled n id w'.
Proof. intros [Hk Hp] Hg. split; [by eapply known_grow|]. apply (cg_pending _ _ Hg); [apply Hk|done]. Qed.

Lemma calls_same_grow w w' : calls_same w w' → calls_grow w w'.
Proof. intros (E1 & E2 & E3 & Hu). split; rewrite ?E1, ?E2, ?E3; eauto. Qed.

Lemma quiet {A} g (t : thread (world M) input A) w : within calls_same t → csafe g t (λ _ _, True) w.
Proof. apply within_safe. intros. by eapply calls_same_keep. Qed.

(** Knowledge that only growth matters to survives quiet threads. *)
Lemma quiet_keep {A} g (t : thread (world M) input A) (K : world M → Prop) w :
  (∀ w w', K w → calls_grow w w' → K w') → within calls_same t → K w → csafe g t (λ _ w, K w) w.
Proof.
  intros HK. apply within_safe_keep.
  - intros. by eapply calls_same_keep.
  - intros w1 w2 ? [? _]. eauto.
  - intros w1 w2 _ ? ?%calls_same_grow. eauto.
Qed.

Lemma no_number n (t : thread (world M) input string) w :
  within calls_same t → calls w !! n = None → csafe (GCall n) t (λ _ w, calls w !! n = None) w.
Proof.
  intros Ht. apply (within_safe_keep _ _ _ calls_same _ (λ w, calls w !! n = None)); try done.
  - intros. by eapply calls_same_keep.
  - intros w1 w2 ? [_ H]. auto.
  - intros w1 w2 _ ? (-> & _). done.
Qed.

Lemma new_call_safe n w : calls w !! n = None → csafe (GCall n) (new_call n) (λ id w, known n id w) w.
Proof.
  intros Hn. apply safe_await. intros i w1 id w2 [Hg Hn1] Hi E. specialize (Hn1 Hn).
  case_decide as Hf; [|discriminate E]. injection E as <- <-. destruct Hf as (_ & _ & Hf). set (id := i_uuid i) in *.
  assert (Hfr : ∀ n' c, calls w1 !! n' = Some c → call_id c ≠ id).
  { intros n' c Hc <-. apply Hf. by eapply co_id. }
  assert (Hfp : pending w1 !! id = None).
  { destruct (pending w1 !! id) eqn:E; [|done]. destruct (co_pending _ _ Hi _ _ E) as (c & ? & ? & _). exfalso. by eapply Hfr. }
  assert (Hne : ∀ n' c, calls w1 !! n' = Some c → n' ≠ n) by congruence.
  split_and!.
  - destruct Hi as [H1 H2 H3 H4 H5 H6 H7 H8]. split; cbn.
    + intros id' n' [[<- <-]|[Hid Hp]]%lookup_insert_Some.
      * exists (Call id None None). rewrite lookup_insert_eq. split_and!; try done. intros ?%H7. done.
      * destruct (H1 _ _ Hp) as (c & Hc & ?). exists c. rewrite lookup_insert_ne; [done|]. symmetry. by eapply Hne.
    + intros n' c [[<- <-]|[Hnn Hc]]%lookup_insert_Some; cbn; [set_solver|]. apply elem_of_union_r. by eapply H2.
    + intros n1 n2 c1 c2 [[<- <-]|[? Hc1]]%lookup_insert_Some [[<- <-]|[? Hc2]]%lookup_insert_Some; cbn; try done.
      * intros E. by destruct (Hfr n2 c2 Hc2).
      * intros E. by destruct (Hfr n1 c1 Hc1).
      * eauto.
    + intros n' c r [[<- <-]|[? Hc]]%lookup_insert_Some; [done|]. eauto.
    + intros n' c r [[<- <-]|[? Hc]]%lookup_insert_Some; [done|]. eauto.
    + done.
    + intros id' ?%H7. by apply elem_of_union_r.
    + done.
  - intros g' Hg'. split; [split; cbn|].
    + set_solver.
    + done.
    + intros n' c Hc. exists c. rewrite lookup_insert_ne; [done|]. symmetry. by eapply Hne.
    + intros id' Hid Hp. rewrite lookup_insert_ne; [done|]. congruence.
    + destruct g'; try done. cbn. intros ?. rewrite lookup_insert_ne; [done|]. congruence.
  - intros w3 [Hg3 _] _. eapply known_grow; [|done]. split; cbn; [by apply elem_of_union_l, elem_of_singleton|].
    eexists. by rewrite lookup_insert_eq.
Qed.

(** A change of a call that keeps its request. *)
Lemma on_call_keep g n f w :
  calls_ok evs w → (∀ c, call_id (f c) = call_id c) →
  (∀ c, calls w !! n = Some c →
     pending w !! call_id c = None
     ∧ (∀ r, call_buf (f c) = Some r → (call_id c, r) ∈ answers w)
     ∧ (∀ r, call_result (f c) = Some (Ok r) → (call_id c, r) ∈ answers w)) →
  calls_ok evs (on_call n f w) ∧ others calls_rely g w (on_call n f w).
Proof.
  intros Hi Hid Hf. split.
  - destruct Hi as [H1 H2 H3 H4 H5 H6 H7 H8]. split; cbn; try done.
    + intros id n' Hp. destruct (H1 _ _ Hp) as (c & Hc & <- & Hr). exists c. split; [|done].
      rewrite lookup_alter_ne; [done|]. intros <-. destruct (Hf c Hc). congruence.
    + intros n' c [[<- (c' & Hc & ->)]|[_ Hc]]%lookup_alter_Some; rewrite ?Hid; eauto.
    + intros n1 n2 c1 c2 [[<- (c1' & Hc1 & ->)]|[_ Hc1]]%lookup_alter_Some [[<- (c2' & Hc2 & ->)]|[_ Hc2]]%lookup_alter_Some;
        rewrite ?Hid; eauto.
    + intros n' c r [[<- (c' & Hc & ->)]|[_ Hc]]%lookup_alter_Some; rewrite ?Hid; [apply (Hf _ Hc)|eauto].
    + intros n' c r [[<- (c' & Hc & ->)]|[_ Hc]]%lookup_alter_Some; rewrite ?Hid; [apply (Hf _ Hc)|eauto].
  - intros g' _. split; [split; cbn; try done|].
    + intros n' c Hc. destruct (decide (n = n')) as [<-|Hn].
      * exists (f c). by rewrite lookup_alter_eq, Hc.
      * exists c. by rewrite lookup_alter_ne.
    + destruct g'; try done. cbn. intros ?. by apply lookup_alter_None.
Qed.

Lemma drop_pending_safe n id w : known n id w → csafe (GCall n) (drop_pending id) (λ _ w, settled n id w) w.
Proof.
  intros Hk. apply safe_atomic. intros i w1 [Hg _] Hi. cbn. split_and!.
  - destruct Hi as [H1 H2 H3 H4 H5 H6 H7 H8]. split; cbn; try done. intros id' n' [_ Hp]%lookup_delete_Some. eauto.
  - intros g' _. split; [split; cbn; eauto|by destruct g']. intros ? _ ?. apply lookup_delete_None. by right.
  - intros w3 [Hg3 _] _. eapply settled_grow; [|done]. split; [|by apply lookup_delete_eq].
    apply (known_grow _ _ _ _ Hk Hg).
Qed.

Lemma wait_response_safe n id t w :
  known n id w →
  csafe (GCall n) (wait_response n t)
    (λ r w, match r with Some x => settled n id w ∧ (id, x) ∈ answers w | None => known n id w end) w.
Proof.
  intros Hk. unfold wait_response. eapply cbind.
  { apply (quiet_keep _ _ (known n id)); [apply known_grow| |done]. hub_threads. calls_within. }
  clear w Hk. intros start w _ Hk. apply safe_await. intros i w1 r w2 [Hg _] Hi E.
  pose proof (known_grow _ _ _ _ Hk Hg) as Hk1. destruct (i_branch i) as [|b].
  - apply bind_Some in E as (c & Hc & (x & Hx & [= <- <-])%bind_Some).
    assert (Hid : call_id c = id). { destruct Hk1 as [_ (c' & ? & ?)]. congruence. }
    assert (Hp : pending w1 !! id = None).
    { destruct (pending w1 !! id) as [n'|] eqn:E; [|done]. destruct (co_pending _ _ Hi _ _ E) as (c' & Hc' & Hi' & Hb & _).
      assert (n' = n) as -> by (eapply (co_inj _ _ Hi); eauto; congruence). congruence. }
    destruct (on_call_keep (GCall n) n (buf_set None) w1 Hi) as [Hi2 Ho].
    { done. }
    { intros c1 Hc1. rewrite Hc1 in Hc. injection Hc as ->. rewrite Hid. split_and!; try done. cbn.
      intros r Hr. rewrite <-Hid. by eapply co_result. }
    split_and!; [done|done|]. intros w3 [Hg3 _] _. pose proof (co_buf _ _ Hi _ _ _ Hc Hx) as Ha. rewrite Hid in Ha. split.
    + eapply settled_grow; [|done]. split; [|done]. destruct Hk1 as [? _]. split; [done|].
      exists (buf_set None c). cbn. by rewrite lookup_alter_eq, Hc.
    + by apply (cg_answers _ _ Hg3).
  - destruct (start + t <=? i_now i); [|discriminate E]. injection E as <- <-. split_and!; [done| |].
    + intros g' _. reflexivity.
    + intros w3 [Hg3 _] _. by eapply known_grow.
Qed.

Lemma send_request_safe n robot msg t late w :
  calls w !! n = None → csafe (GCall n) (finish n (send_request n robot msg t late)) (λ _ _, True) w.
Proof.
  intros Hn. unfold finish.
  apply (cbind _ _ _ (λ r w, ∃ id, settled n id w ∧ ∀ x, r = Ok x → (id, x) ∈ answers w)).
  - unfold send_request. eapply cbind; [apply no_number; [hub_threads; calls_within|done]|]. clear w Hn.
    intros key w _ Hn. eapply cbind; [by apply new_call_safe|]. clear w Hn. intros id w _ Hk.
    eapply cbind; [apply (quiet_keep _ _ (known n id)); [apply known_grow|hub_threads; calls_within|done]|].
    clear w Hk. intros [] w _ Hk; cbn [negb].
    + eapply cbind; [by apply wait_response_safe|]. clear w Hk. intros [x|] w _ Hk.
      * apply safe_ret. intros w' [Hg _] _. exists id. split; [by eapply settled_grow; [apply Hk|]|].
        intros ? [= <-]. apply (cg_answers _ _ Hg), Hk.
      * eapply cbind; [by apply drop_pending_safe|]. clear w Hk. intros [] w _ Hk.
        apply safe_ret. intros w' [Hg _] _. exists id. split; [by eapply settled_grow|done].
    + eapply cbind; [by apply drop_pending_safe|]. clear w Hk. intros [] w _ Hk.
      apply safe_ret. intros w' [Hg _] _. exists id. split; [by eapply settled_grow|done].
  - clear w Hn. intros r w _ (id & Hs & Hr). apply safe_atomic. intros i w1 [Hg _] Hi. cbn [fst snd].
    destruct (settled_grow _ _ _ _ Hs Hg) as [[_ (c & Hc & Hid)] Hp].
    destruct (on_call_keep (GCall n) n (λ c, Call (call_id c) (call_buf c) (Some r)) w1 Hi) as [Hi2 Ho]; [done| |done].
    intros c1 Hc1. rewrite Hc1 in Hc. injection Hc as ->. rewrite Hid. split_and!; [done| |]; cbn.
    + intros x Hx. rewrite <-Hid. by eapply co_buf.
    + intros x [= ->]. apply (cg_answers _ _ Hg). by apply Hr.
Qed.

Lemma deliverResponse_safe k requestID response w :
  was_read evs (trim requestID) response → csafe (GConn k) (deliverResponse requestID response) (λ _ _, True) w.
Proof.
  intros Hread. unfold deliverResponse. cbv zeta. case_bool_decide as E; [done|]. set (id := trim requestID) in *.
  apply (cbind _ _ _ (λ r w, match r with Some n => settled n id w ∧ (id, response) ∈ answers w | None => True end)).
  - apply safe_atomic. intros i w1 _ Hi. destruct (pending w1 !! id) as [n|] eqn:Ep; cbn.
    2:{ split_and!; [done| |done]. intros g' _. reflexivity. }
    destruct (co_pending _ _ Hi _ _ Ep) as (c & Hc & Hid & Hb & Hr & Hn).
    pose proof (co_id _ _ Hi _ _ Hc) as Hu. rewrite Hid in Hu. split_and!.
    + destruct Hi as [H1 H2 H3 H4 H5 H6 H7 H8]. split; cbn; try done.
      * intros id' n' [Hne Hp]%lookup_delete_Some. destruct (H1 _ _ Hp) as (c' & ? & ? & ? & ? & Ha). exists c'.
        split_and!; try done. rewrite fmap_app, elem_of_app. cbn. rewrite list_elem_of_singleton. intros [?|?]; congruence.
      * intros. apply elem_of_app. left. eauto.
      * intros. apply elem_of_app. left. eauto.
      * rewrite fmap_app. apply NoDup_app. split_and!; [done| |apply NoDup_singleton]. intros x Hx ->%list_elem_of_singleton. done.
      * intros x. rewrite fmap_app, elem_of_app. cbn. rewrite list_elem_of_singleton. intros [?| ->]; eauto.
      * intros x r. rewrite elem_of_app, list_elem_of_singleton. intros [?|[= -> ->]]; eauto.
    + intros g' _. split; [split; cbn; eauto|by destruct g'].
      * intros x Hx. apply elem_of_app. by left.
      * intros ? _ ?. apply lookup_delete_None. by right.
    + intros w3 [Hg3 _] _. split.
      * eapply settled_grow; [|done]. split; [|by apply lookup_delete_eq]. split; [done|]. by exists c.
      * apply (cg_answers _ _ Hg3). cbn. apply elem_of_app. right. by left.
  - clear w. intros [n|] w _; [|done]. intros [Hs Ha].
    apply (cbind _ _ _ (λ _ _, True)); [|done]. apply safe_atomic. intros i w1 [Hg _] Hi. cbn [fst snd].
    destruct (settled_grow _ _ _ _ Hs Hg) as [[_ (c & Hc & Hid)] Hp].
    match goal with |- context [on_call n ?f w1] => destruct (on_call_keep (GConn k) n f w1 Hi) as [Hi2 Ho] end; [| |done].
    { intros c1. by destruct (call_buf c1). }
    intros c1 Hc1. rewrite Hc1 in Hc. injection Hc as ->. rewrite Hid. pose proof (co_result _ _ Hi n c) as Hcr.
    destruct (call_buf c) eqn:Eb; (split_and!; [done| |]); intros r Hr; rewrite <-?Hid.
    + eapply co_buf; [done..|]. congruence.
    + by eapply Hcr.
    + cbn in Hr. injection Hr as <-. rewrite Hid. by apply (cg_answers _ _ Hg).
    + by eapply Hcr.
Qed.

Lemma calls_start_safe e : Start e ∈ evs → start_safe code startable (calls_ok evs) calls_rely e.
Proof.
  intros He w Hi Hs. destruct (no_call e) eqn:E; [by apply quiet, no_call_within|].
  destruct e as [n r c t|n r c t| | | | | |k [] r [| | |[m|]]|k [] r| | | |]; try discriminate E; cbn [code fst snd].
  - cbn in Hs. apply bool_decide_eq_true in Hs. by apply send_request_safe.
  - cbn in Hs. apply bool_decide_eq_true in Hs. by apply send_request_safe.
  - unfold readAgentControlPump. apply (cbind _ _ _ (λ _ _, True)); [apply quiet; hub_threads; calls_within|].
    clear w Hi Hs. intros _ w _ _. cbv zeta. destruct (_ || _) eqn:Et.
    + apply (cbind _ _ _ (λ _ _, True)); [|done]. apply deliverResponse_safe. exists k, r, m. split_and!; try done.
      apply orb_prop in Et as [?%bool_decide_eq_true|?%bool_decide_eq_true]; auto.
    + destruct (is_relay_type _); [|done]. apply quiet, within_relay_inbound.
Qed.
End Run.

Lemma calls_start evs : safe_system (I := input) (calls_ok evs) calls_rely (System NewAgentControlHub ∅).
Proof. split; [|done]. split; cbn; try done; try (intros *; rewrite ?lookup_empty; done); try set_solver. constructor. Qed.

(** C7: commands get the answer meant for them.  In every run of the hub, whatever
    agents, users and the platform do and in every interleaving: a call of [SendCommand]
    or [SendStatusQuery] that returned a response returned one that a control reader was
    given under the very request id of the call, no request id is answered twice, a call
    that has returned has no entry left in the table of pending requests, and every entry
    of that table is of one call, which still waits. *)
Theorem command_answers evs s :
  sys_run code startable evs (System (NewAgentControlHub (M := M)) ∅) = Some s →
  (∀ n c r, calls (shared s) !! n = Some c → call_result c = Some (Ok r) → was_read evs (call_id c) r)
  ∧ NoDup (answers (shared s)).*1
  ∧ (∀ n c r, calls (shared s) !! n = Some c → call_result c = Some r → pending (shared s) !! call_id c = None)
  ∧ (∀ id n, pending (shared s) !! id = Some n →
       ∃ c, calls (shared s) !! n = Some c ∧ call_id c = id ∧ call_result c = None).
Proof.
  intros Hrun. destruct (run_safe _ _ _ _ _ _ _ (calls_start_safe evs) (calls_start evs) Hrun) as [Hok _].
  split_and!.
  - intros n c r Hc Hr. eapply co_read; [done|]. by eapply co_result.
  - by eapply co_once.
  - intros n c r Hc Hr. destruct (pending _ !! call_id c) as [n'|] eqn:E; [|done].
    destruct (co_pending _ _ Hok _ _ E) as (c' & Hc' & Hi & _ & Hr' & _).
    assert (n' = n) as -> by (by eapply (co_inj _ _ Hok)). congruence.
  - intros id n Hp. destruct (co_pending _ _ Hok _ _ Hp) as (c & ? & ? & _ & ? & _). eauto.
Qed.
End Commands.

(** ** Control connections that exclude each other *)

Section Exclusive.
Context `{GS : !GoStrings, GB : !GoBase64, GU : !GoUuid, R : !Rfc3339, F : !Float64} {M : Type}.
Implicit Types (w : world M) (evs : list (sevent input name (entry (M := M)))).

Definition rejects_new (raw : string) : Prop :=
  currentAgentControlConcurrencyPolicy raw = agentControlConcurrencyPolicyRejectNew.

(** A connection that is read is the one the table has for its robot. *)
Record excl_ok w : Prop := {
  ex_entry r k : conns w !! r = Some k → ∃ c, objs w !! k = Some c ∧ c_kind c = ControlPlane ∧ c_robot c = r;
  ex_reader k c : objs w !! k = Some c → c_kind c = ControlPlane → c_reader c = true → conns w !! c_robot c = Some k;
  ex_trim k c : objs w !! k = Some c → trim (c_robot c) = c_robot c;
}.

Definition view (c : agentConn M) : channel * string * bool := (c_kind c, c_robot c, c_reader c).

Record excl_grow w w' : Prop := {
  eg_objs k c : objs w !! k = Some c → ∃ c', objs w' !! k = Some c' ∧ c_kind c' = c_kind c ∧ c_robot c' = c_robot c;
}.
Definition excl_rely (g : name) w w' : Prop :=
  excl_grow w w' ∧
  match g with
  | GConn k => view <$> objs w' !! k = view <$> objs w !! k ∧ ∀ r, conns w !! r = Some k ↔ conns w' !! r = Some k
  | _ => True
  end.

#[export] Instance excl_rely_preorder : Rely excl_rely.
Proof.
  intros g. split.
  - intros w. split; [split; eauto|by destruct g].
  - intros w1 w2 w3 [[A1] H1] [[A2] H2]. split; [split|].
    + intros k c (c' & Hc & Hk & Hr)%A1. destruct (A2 k c' Hc) as (c'' & ? & ? & ?). exists c''. split_and!; congruence.
    + destruct g as [|k| | |]; try done. destruct H1 as [V1 C1], H2 as [V2 C2]. split; [by rewrite V2|].
      intros r. by rewrite C1.
Qed.

Definition excl_same w w' : Prop :=
  excl_ok w → conns w' = conns w ∧ ∀ k, view <$> objs w' !! k = view <$> objs w !! k.

Lemma view_parts c kind robot b : view c = (kind, robot, b) → c_kind c = kind ∧ c_robot c = robot ∧ c_reader c = b.
Proof. by intros [= <- <- <-]. Qed.

Lemma view_lookup w w' k c :
  view <$> objs w' !! k = view <$> objs w !! k → objs w !! k = Some c →
  ∃ c', objs w' !! k = Some c' ∧ c_kind c' = c_kind c ∧ c_robot c' = c_robot c ∧ c_reader c' = c_reader c.
Proof. intros E Hc. rewrite Hc in E. apply fmap_Some in E as (c' & ? & E). unfold view in E. exists c'. by simplify_eq. Qed.

Lemma excl_same_keep g w w' : excl_ok w → excl_same w w' → excl_ok w' ∧ others excl_rely g w w'.
Proof.
  intros Hok Hs. destruct (Hs Hok) as [Ec Ev]. split.
  - destruct Hok as [H1 H2 H3]. split.
    + intros r k. rewrite Ec. intros (c & Hc & ? & ?)%H1. destruct (view_lookup w w' k c) as (c' & ? & ? & ? & ?); auto.
      exists c'. split_and!; congruence.
    + intros k c' Hc. destruct (view_lookup w' w k c') as (c & Hc0 & E1 & E2 & E3); auto. rewrite <-E1, <-E2, <-E3, Ec. eauto.
    + intros k c' Hc. destruct (view_lookup w' w k c') as (c & Hc0 & E1 & E2 & E3); auto. rewrite <-E2. eauto.
  - intros g' _. split.
    + split. intros k c Hc. destruct (view_lookup w w' k c) as (c' & ? & ? & ? & ?); eauto.
    + destruct g'; try done. by rewrite Ec.
Qed.

Lemma view_alter f k (m : gmap nat (agentConn M)) k' :
  (∀ c, m !! k = Some c → view (f c) = view c) → view <$> alter f k m !! k' = view <$> m !! k'.
Proof.
  intros Hf. rewrite lookup_alter. case_decide as E; [|done]. subst. destruct (m !! k') eqn:Em; cbn; [by rewrite Hf|done].
Qed.

Ltac excl_prim :=
  hub_prim; intros Hok; (split; [reflexivity|]); intros ?; try reflexivity; apply view_alter; intros ? Hc; try reflexivity;
  (* a connection that gets the name it has *)
  unfold view, conn_named, conn_reason; cbn; repeat case_match; try reflexivity;
  repeat f_equal; simplify_eq; by eapply ex_trim.

Lemma excl_close_stale key stale : within excl_same (close_stale (M := M) key stale).
Proof.
  induction stale as [|[id reg] stale IH]; cbn [close_stale]; [done|]. hub_threads. repeat (within_step; try exact IH).
  all: excl_prim.
Qed.
Lemma excl_send_pending u info n : within excl_same (send_pending (M := M) u info n).
Proof.
  induction n as [|n IH]; cbn [send_pending]; [done|]. hub_threads. repeat (within_step; try exact IH).
  all: excl_prim.
Qed.

Ltac excl_within :=
  repeat (within_step || apply excl_close_stale || apply excl_send_pending); excl_prim.

(** Entries that neither begin nor end a connection. *)
Definition no_conn (e : entry (M := M)) : bool :=
  match e with
  | ConnectsControl _ _ _ | ConnectsRelay _ _ | Reads _ _ _ (ReadError _) => false
  | _ => true
  end.

Lemma no_conn_within e : no_conn e = true → within excl_same (code e).2.
Proof.
  destruct e as [| | | | | | |k [] r [| | |[m|]]|k [] r| | | |]; intros E; try discriminate E; cbn [code snd].
  all: hub_threads.
  all: excl_within.
Qed.

Local Abbreviation xsafe := (safe (I := input) excl_ok excl_rely).
Local Abbreviation xbind := (safe_bind excl_ok excl_rely).

Lemma xquiet {A} g (t : thread (world M) input A) w : within excl_same t → xsafe g t (λ _ _, True) w.
Proof. apply within_safe. intros. by eapply excl_same_keep. Qed.

(** What a goroutine of a connection knows of it, and of the table, survives. *)
Definition knows k (x : option (channel * string * bool)) (rs : string → Prop) w : Prop :=
  view <$> objs w !! k = x ∧ ∀ r, rs r → conns w !! r = Some k.

Lemma knows_rely k x rs w w' : knows k x rs w → excl_rely (GConn k) w w' → knows k x rs w'.
Proof. intros [E Hr] [_ [V C]]. split; [by rewrite V|]. intros r ?. by apply C, Hr. Qed.

Lemma xquiet_keep {A} k x rs (t : thread (world M) input A) w :
  within excl_same t → knows k x rs w → xsafe (GConn k) t (λ _ w, knows k x rs w) w.
Proof.
  apply (within_safe_keep _ _ _ excl_same _ (knows k x rs)).
  - intros. by eapply excl_same_keep.
  - intros w1 w2. apply knows_rely.
  - intros w1 w2 Hi [E Hr] Hs. destruct (Hs Hi) as [C V]. split; [by rewrite V|]. by rewrite C.
Qed.

Lemma new_conn_safe k kind robot session src now cap w :
  trim robot = robot → knows k None (λ _, False) w →
  xsafe (GConn k) (new_conn k kind robot session src now cap) (λ _ w, knows k (Some (kind, robot, false)) (λ _, False) w) w.
Proof.
  intros Ht Hk. apply safe_await. intros i w1 [] w2 Hr Hi E. case_decide as En; [|discriminate E]. injection E as <-.
  assert (Hne : ∀ k' c, objs w1 !! k' = Some c → k ≠ k') by congruence. split_and!.
  - destruct Hi as [H1 H2 H3]. split; cbn.
    + intros r k' (c & Hc & ?)%H1. exists c. split; [|done]. rewrite lookup_insert_ne; eauto.
    + intros k' c [[<- <-]|[_ Hc]]%lookup_insert_Some; [done|]. eauto.
    + intros k' c [[<- <-]|[_ Hc]]%lookup_insert_Some; [done|]. eauto.
  - intros g' Hg'. split.
    + split. cbn. intros k' c Hc. exists c. rewrite lookup_insert_ne; eauto.
    + destruct g' as [|k'| | |]; try done. cbn. rewrite lookup_insert_ne; [done|congruence].
  - intros w3 Hr3 _. eapply knows_rely; [|done]. split; [|done]. cbn. by rewrite lookup_insert_eq.
Qed.

(** The reader's flag of connection [k] changes, by its own goroutine. *)
Lemma set_reader_safe k kind robot b b' rs w (f : agentConn M → agentConn M) :
  (∀ c, view (f c) = (c_kind c, c_robot c, b')) →
  (kind = ControlPlane → b' = true → rs robot) →
  knows k (Some (kind, robot, b)) rs w →
  xsafe (GConn k) (change (on_conn k f)) (λ _ w, knows k (Some (kind, robot, b')) rs w) w.
Proof.
  intros Hf Hb Hk. apply safe_atomic. intros i w1 Hr Hi. cbn [fst snd].
  destruct (knows_rely _ _ _ _ _ Hk Hr) as [(c0 & Hc0 & E0)%fmap_Some Hrs]. injection E0 as -> -> ->. split_and!.
  - destruct Hi as [H1 H2 H3]. split; cbn.
    + intros r k' (c & Hc & ? & ?)%H1. rewrite lookup_alter. case_decide; subst; [|eauto].
      rewrite Hc0 in *. simplify_eq. exists (f c). split; [done|]. destruct (view_parts _ _ _ _ (Hf c)) as (-> & -> & _). done.
    + intros k' c [[<- (c' & Hc & ->)]|[_ Hc]]%lookup_alter_Some; [|eauto].
      destruct (view_parts _ _ _ _ (Hf c')) as (-> & -> & ->). simplify_eq. auto.
    + intros k' c [[<- (c' & Hc & ->)]|[_ Hc]]%lookup_alter_Some; [|eauto].
      destruct (view_parts _ _ _ _ (Hf c')) as (_ & -> & _). eauto.
  - intros g' Hg'. split.
    + split. cbn. intros k' c Hc. rewrite lookup_alter. case_decide; subst; [|eauto]. rewrite Hc. exists (f c).
      by destruct (view_parts _ _ _ _ (Hf c)) as (-> & -> & _).
    + destruct g' as [|k'| | |]; try done. cbn. rewrite lookup_alter_ne; [done|congruence].
  - intros w3 Hr3 _. eapply knows_rely; [|done]. split; [|done]. cbn. by rewrite lookup_alter_eq, Hc0; cbn; rewrite Hf.
Qed.

Lemma register_safe k robot policy w :
  robot ≠ "" → normalizeAgentControlConcurrencyPolicy policy = agentControlConcurrencyPolicyRejectNew →
  knows k (Some (ControlPlane, robot, false)) (λ _, False) w →
  xsafe (GConn k) (atomic (λ _, RegisterWithPolicy k policy))
    (λ r w, r.1 = true → r.2 = None ∧ knows k (Some (ControlPlane, robot, false)) (eq robot) w) w.
Proof.
  intros Hrob Hpol Hk. apply safe_atomic. intros i w1 Hr Hi. unfold RegisterWithPolicy.
  destruct (knows_rely _ _ _ _ _ Hk Hr) as [(c0 & Hc0 & E0)%fmap_Some _]. injection E0 as Ek Er Eb. rewrite Hc0. cbv zeta.
  rewrite (ex_trim _ Hi _ _ Hc0), <-Er, Hpol. rewrite bool_decide_eq_false_2 by done.
  rewrite (bool_decide_eq_true_2 (agentControlConcurrencyPolicyRejectNew = _)) by done. rewrite andb_true_r.
  assert (Hs : excl_same w1 (on_conn k (conn_named robot) w1)).
  { intros _. split; [done|]. intros k'. apply view_alter. intros c Hc. simplify_eq. by unfold view, conn_named; cbn. }
  destruct (excl_same_keep (GConn k) _ _ Hi Hs) as [Hi2 Ho2]. set (w2 := on_conn k (conn_named robot) w1) in *.
  case_bool_decide as Ep; cbn [fst snd]; [by split_and!|].
  assert (Hn : conns w2 !! robot = None) by (destruct (conns w2 !! robot); naive_solver).
  assert (Hc2 : objs w2 !! k = Some (conn_named robot c0)) by (by unfold w2; cbn; rewrite lookup_alter_eq, Hc0).
  clearbody w2. split_and!.
  - destruct Hi2 as [H1 H2 H3]. split; cbn.
    + intros r k' [[<- <-]|[_ Hx]]%lookup_insert_Some; [|eauto]. exists (conn_named robot c0). by cbn.
    + intros k' c Hc Hkind Hrd. rewrite lookup_insert_ne; [eauto|]. intros ->. rewrite (H2 _ _ Hc Hkind Hrd) in Hn. done.
    + eauto.
  - intros g' Hg'. etrans; [by apply Ho2|]. split.
    + split. cbn. eauto.
    + destruct g' as [|k'| | |]; try done. cbn. split; [done|]. intros r. rewrite lookup_insert. case_decide; [|done]. subst.
      rewrite Hn. split; [done|]. intros [= ->]. done.
  - intros w3 Hr3 _ _. split; [done|]. eapply knows_rely; [|done]. split; cbn.
    + rewrite Hc2. cbn. unfold view. cbn. by rewrite <-Ek, <-Eb.
    + intros r <-. by rewrite lookup_insert_eq.
Qed.

Lemma unregister_safe k kind robot w :
  knows k (Some (kind, robot, false)) (λ _, False) w → xsafe (GConn k) (atomic (λ _, Unregister k)) (λ _ _, True) w.
Proof.
  intros Hk. apply safe_atomic. intros i w1 Hr Hi. unfold Unregister.
  destruct (knows_rely _ _ _ _ _ Hk Hr) as [(c0 & Hc0 & E0)%fmap_Some _]. injection E0 as Ek Er Eb. rewrite Hc0.
  case_bool_decide as Ec; cbn [fst snd]; [|split_and!; try done; intros g' _; reflexivity]. split_and!; [| |done].
  - destruct Hi as [H1 H2 H3]. split; cbn; [|intros k' c Hc Hkind Hrd|eauto].
    + intros r k' [_ Hx]%lookup_delete_Some. eauto.
    + rewrite lookup_delete_ne; [eauto|]. intros E. pose proof (H2 _ _ Hc Hkind Hrd) as Hx. rewrite <-E in Hx. congruence.
  - intros g' Hg'. split; [split; eauto|]. destruct g' as [|k'| | |]; try done. cbn. split; [done|].
    intros r. rewrite lookup_delete. case_decide; subst; [|done]. split; [congruence|done].
Qed.

Lemma admit_agent_robot rq robot auth : admit_agent rq = Ok (robot, auth) → robot ≠ "" ∧ trim robot = robot.
Proof.
  unfold admit_agent. cbv zeta. case_bool_decide as E; [done|]. cbn [orb]. repeat case_match; try done.
  all: intros [= <- <-]; (split; [done|apply trim_idemp]).
Qed.

Lemma normalize_reject :
  normalizeAgentControlConcurrencyPolicy agentControlConcurrencyPolicyRejectNew = agentControlConcurrencyPolicyRejectNew.
Proof. unfold normalizeAgentControlConcurrencyPolicy. rewrite lower_ascii; by vm_compute. Qed.

Ltac keep := cbv beta in *; eapply xbind; [apply xquiet_keep; [clear; hub_threads; excl_within|eassumption]|].
Ltac quietly := apply (xbind _ _ _ (λ _ _, True)); [apply xquiet; clear; hub_threads; excl_within|].

Lemma connect_control_safe k raw rq w :
  rejects_new raw → objs w !! k = None → xsafe (GConn k) (handleAgentControlConnect (M := M) k raw rq) (λ _ _, True) w.
Proof.
  intros Hraw Hn. assert (Hk : knows k None (λ _, False) w) by (split; [by rewrite Hn|done]). clear Hn.
  unfold handleAgentControlConnect. keep. clear w Hk. intros session w _ Hk.
  destruct (admit_agent rq) as [[robot auth]|[]] eqn:Ea; [|done]. apply admit_agent_robot in Ea as [Hr1 Hr2].
  destruct (ar_upgrade rq); cbn [negb]; [|done]. keep. clear w Hk. intros now w _ Hk. cbv zeta.
  eapply xbind; [by apply new_conn_safe|]. clear w Hk. intros [] w _ Hk.
  eapply xbind; [apply (register_safe k robot); [done|by rewrite Hraw; apply normalize_reject|done]|].
  clear w Hk. intros [[] prev] w _ Hk.
  - destruct (Hk eq_refl) as [E Hk1]. cbn [snd] in E. subst prev. clear Hk. keep. clear w Hk1. intros [] w _ Hk. keep. clear w Hk. intros now' w _ Hk. keep. clear w Hk. intros [] w _ Hk.
    eapply xbind; [apply (set_reader_safe k ControlPlane robot false true (eq robot)); [done|done|apply Hk]|done].
  - clear Hk. quietly. clear w. intros ? w _ _. quietly. clear w. intros ? w _ _. quietly. clear w. intros ? w _ _.
    quietly. done.
Qed.

Lemma connect_relay_safe k rq w :
  objs w !! k = None → xsafe (GConn k) (handleAgentRelayConnect (M := M) k rq) (λ _ _, True) w.
Proof.
  intros Hn. assert (Hk : knows k None (λ _, False) w) by (split; [by rewrite Hn|done]). clear Hn.
  unfold handleAgentRelayConnect. keep. clear w Hk. intros session w _ Hk.
  destruct (admit_agent rq) as [[robot auth]|[]] eqn:Ea; [|done]. apply admit_agent_robot in Ea as [Hr1 Hr2].
  destruct (ar_upgrade rq); cbn [negb]; [|done]. keep. clear w Hk. intros now w _ Hk. cbv zeta.
  eapply xbind; [by apply new_conn_safe|]. clear w Hk. intros [] w _ Hk. keep. clear w Hk. intros prev w _ Hk.
  keep. clear w Hk. intros [] w _ Hk. cbv beta in Hk.
  eapply xbind; [apply (set_reader_safe k DataPlane robot false true (λ _, False)); [done|done|apply Hk]|done].
Qed.

(** A reader that ends. *)
Lemma read_error_safe k kind w (c : agentConn M) reason (t : thread (world M) input unit) :
  objs w !! k = Some c → c_kind c = kind →
  (∀ w, knows k (Some (kind, c_robot c, false)) (λ _, False) w → xsafe (GConn k) t (λ _ _, True) w) →
  xsafe (GConn k) (setDisconnectReason k reason;; stop_reader k;; t) (λ _ _, True) w.
Proof.
  intros Hc Hkind Ht.
  assert (Hk : knows k (Some (kind, c_robot c, c_reader c)) (λ _, False) w) by (split; [by rewrite Hc, <-Hkind|done]).
  keep. clear w Hc Hk. intros [] w _ Hk. cbv beta in Hk.
  eapply xbind; [apply (set_reader_safe k kind (c_robot c) (c_reader c) false (λ _, False)); [done|done|apply Hk]|]. clear w Hk.
  intros [] w _ Hk. by apply Ht.
Qed.

Lemma excl_start_safe evs e :
  (∀ k raw rq, Start (ConnectsControl k raw rq) ∈ evs → rejects_new raw) →
  Start e ∈ evs → start_safe code startable excl_ok excl_rely e.
Proof.
  intros Hev He w Hi Hs. destruct (no_conn e) eqn:E; [by apply xquiet, no_conn_within|].
  destruct e as [| | | | |k raw rq|k rq|k kind r x| | | | |]; try discriminate E; cbn [code fst snd startable] in *.
  - apply bool_decide_eq_true in Hs. eapply xbind; [apply connect_control_safe; eauto|done].
  - apply bool_decide_eq_true in Hs. eapply xbind; [by apply connect_relay_safe|done].
  - destruct (objs w !! k) as [c|] eqn:Hc; [|discriminate Hs]. apply andb_prop in Hs as [_ Hk].
    destruct x as [e| | |]; try discriminate E. destruct kind; cbn [fst snd].
    + apply (read_error_safe k ControlPlane w c); [done|by destruct (c_kind c)|]. clear w Hc Hi. intros w Hkn. unfold control_ends. keep. clear w Hkn. intros [] w _ Hkn. eapply xbind; [by eapply unregister_safe|].
      clear w Hkn. intros removed w _ _. quietly. clear w. intros [] w _ _. apply xquiet. clear. hub_threads. excl_within.
    + apply (read_error_safe k DataPlane w c); [done|by destruct (c_kind c)|]. clear w Hc Hi. intros w Hkn. unfold relay_ends.
      apply xquiet. clear. hub_threads. excl_within.
Qed.

Lemma excl_start : safe_system (I := input) excl_ok excl_rely (System NewAgentControlHub ∅).
Proof. split; [|done]. split; cbn; intros *; by rewrite lookup_empty. Qed.

(** C10: an agent's control connection is the only one.  In every run of the hub under the
    default policy, [reject_new], in every interleaving of the connections that come and
    go: a control connection whose reader runs is the one the table has for its robot, so
    commands for the robot reach it and two connections of one robot are never read at
    the same time; and the table leads to control connections of the robot asked for
    only. *)
Theorem control_exclusive evs s :
  (∀ k raw rq, Start (ConnectsControl k raw rq) ∈ evs → rejects_new raw) →
  sys_run code startable evs (System (NewAgentControlHub (M := M)) ∅) = Some s →
  (∀ k c, objs (shared s) !! k = Some c → c_kind c = ControlPlane → c_reader c = true → conns (shared s) !! c_robot c = Some k)
  ∧ (∀ k k' c c', objs (shared s) !! k = Some c → objs (shared s) !! k' = Some c' →
       c_kind c = ControlPlane → c_kind c' = ControlPlane → c_reader c = true → c_reader c' = true →
       c_robot c = c_robot c' → k = k')
  ∧ (∀ r k, conns (shared s) !! r = Some k → ∃ c, objs (shared s) !! k = Some c ∧ c_kind c = ControlPlane ∧ c_robot c = r).
Proof.
  intros Hev Hrun. destruct (run_safe _ _ _ _ _ _ _ (λ e, excl_start_safe evs e Hev) excl_start Hrun) as [Hok _].
  split_and!; [by apply ex_reader| |by apply ex_entry].
  intros k k' c c' Hc Hc' Hk Hk' Hr Hr' E. pose proof (ex_reader _ Hok _ _ Hc Hk Hr) as H1.
  pose proof (ex_reader _ Hok _ _ Hc' Hk' Hr') as H2. congruence.
Qed.
End Exclusive.
