(* ===== verification/HubRelay.v ===== *)
(** * Relay sessions at the hub (go/relay/relay.go)

    Theorems about the data plane of Hub.v, for all interleavings: what a user receives
    from an agent, and what an agent receives from a user. *)

From Stdlib Require Import Ascii String.
From S2P Require Import Prelude Text ConnState Evidence Threads Hub.

Lemma sublist_omap {A B} (f : A → option B) l l' : sublist l l' → sublist (omap f l) (omap f l').
Proof. induction 1; cbn; [done|case_match; by try constructor|case_match; by try constructor]. Qed.

(** ** From the agent to the user *)

Section Downstream.
Context `{GS : !GoStrings, GB : !GoBase64, GU : !GoUuid, R : !Rfc3339, F : !Float64} {M : Type}.
Implicit Types (w : world M) (q : relayQueue M) (msg : agentControlMessage M)
  (evs : list (sevent input name (entry (M := M)))).

(** The data a message carries, and the data a user was sent. *)
Definition payload msg : option (list byte) :=
  if bool_decide (trim (m_type msg) = "relay_data") && bool_decide (trim (m_data msg) ≠ "")
  then DecodeString (trim (m_data msg)) else None.
Definition frame_data (x : client_frame) : option (list byte) := match x with ClientData d => Some d | _ => None end.

(** A reader was given this message. *)
Definition relayed evs msg : Prop := ∃ k kind r, Start (Reads k kind r (ReadText (Some msg))) ∈ evs.

(** Messages pass the queue in their order; those it drops are counted. *)
Record queue_ok evs (id : string) q : Prop := {
  qo_order : sublist (got q ++ ch q) (put q);
  qo_cap : ch_cap q = 512%nat;
  qo_room : (length (ch q) <= 512)%nat;
  qo_ids : Forall (λ msg, trim (m_relay msg) = id) (put q);
  qo_from : Forall (λ msg, trim (m_type msg) = "relay_data" → relayed evs msg) (put q);
  qo_enqueued : enqueued (stats q) = u64_wrap (zlen (put q));
  qo_dropped : droppedOldest (stats q) = u64_wrap (zlen (put q) - zlen (got q) - zlen (ch q));
}.

(** What the user has been sent, and then what is yet to be handled. *)
Definition flow (m : relayMain M) : list (list byte) := omap frame_data (rm_out m) ++ omap payload (rm_pending m).

Record down_ok evs w : Prop := {
  do_queue u x : users w !! u = Some x →
    ∃ q, queues w !! u = Some q ∧ queue_ok evs (ri_id (u_info x)) q ∧ sublist (flow (u_main x)) (omap payload (got q));
  do_reg id reg : relays w !! id = Some reg → ∃ x, users w !! reg_queue reg = Some x ∧ ri_id (u_info x) = id ∧ trim id = id;
}.

Definition info_grow w w' : Prop := ∀ u x, users w !! u = Some x → ∃ x', users w' !! u = Some x' ∧ u_info x' = u_info x.
Definition down_rely (g : name) w w' : Prop :=
  info_grow w w' ∧
  match g with GUser u => u_main <$> users w' !! u = u_main <$> users w !! u | _ => True end.

#[export] Instance down_rely_preorder : Rely down_rely.
Proof.
  intros g. split.
  - intros w. split; [intros ?; eauto|by destruct g].
  - intros w1 w2 w3 [A1 H1] [A2 H2]. split.
    + intros u x (x' & Hx & <-)%A1. destruct (A2 u x' Hx) as (x'' & ? & ?). eauto.
    + destruct g as [| | |u|]; try done. by rewrite H2.
Qed.

(** ** The queue *)

Lemma u64_succ z : u64_wrap (u64_wrap z + 1) = u64_wrap (z + 1).
Proof. unfold u64_wrap. apply Zplus_mod_idemp_l. Qed.

Lemma enqueue_ok evs id msg now q :
  queue_ok evs id q → trim (m_relay msg) = id → (trim (m_type msg) = "relay_data" → relayed evs msg) →
  queue_ok evs id (enqueue msg now q).2 ∧ got (enqueue msg now q).2 = got q.
Proof.
  intros [H1 H2 H3 H4 H5 H6 H7] Hid Hfrom. unfold enqueue.
  destruct (_ <? _)%nat eqn:E; cbn [snd]; [|split; [by split|done]]. split; [|done]. split; cbn.
  - rewrite (assoc_L (++)). by apply sublist_app.
  - done.
  - rewrite length_app. cbn. rewrite H2 in E. apply Nat.ltb_lt in E. lia.
  - apply Forall_app. auto.
  - apply Forall_app. auto.
  - rewrite H6, u64_succ, length_app. f_equal. cbn. lia.
  - rewrite H7, !length_app. f_equal. cbn. lia.
Qed.

Lemma drop_oldest_ok evs id q :
  queue_ok evs id q → queue_ok evs id (dropOldestQueuedMessage q).2 ∧ got (dropOldestQueuedMessage q).2 = got q.
Proof.
  intros [H1 H2 H3 H4 H5 H6 H7]. unfold dropOldestQueuedMessage.
  destruct (ch q) as [|m l] eqn:E; cbn [snd]; [split; [|done]; split; by rewrite ?E|]. split; [|done]. split; cbn in *; try done.
  - etrans; [|exact H1]. apply sublist_app; [done|]. by constructor.
  - lia.
  - rewrite H7, u64_succ. f_equal. lia.
Qed.

Lemma no_slot_ok evs id q : queue_ok evs id q → queue_ok evs id (no_slot q) ∧ got (no_slot q) = got q.
Proof. intros [H1 H2 H3 H4 H5 H6 H7]. done. Qed.

Lemma receive_ok evs id now q msg q' :
  queue_ok evs id q → receive now q = Some (msg, q') → queue_ok evs id q' ∧ got q' = got q ++ [msg].
Proof.
  intros [H1 H2 H3 H4 H5 H6 H7]. unfold receive. destruct (ch q) as [|m l] eqn:E; [done|]. intros [= <- <-].
  split; [|done]. assert (Hs : ∀ t s, enqueued (recordEnqueueWait t s) = enqueued s ∧ droppedOldest (recordEnqueueWait t s) = droppedOldest s).
  { intros t s. unfold recordEnqueueWait. by case_match. }
  split; cbn in *; try done.
  - by rewrite <-app_assoc.
  - lia.
  - case_match; [done|]. by destruct (Hs (Z.max 0 (now - z)) (stats q)) as [-> _].
  - rewrite length_app. cbn. transitivity (droppedOldest (stats q)).
    + case_match; [done|]. by destruct (Hs (Z.max 0 (now - z)) (stats q)) as [_ ->].
    + rewrite H7. f_equal. lia.
Qed.

(** ** Steps *)

Definition down_step evs (g : name) w w' : Prop := down_ok evs w → down_ok evs w' ∧ others down_rely g w w'.

(** Sessions change, one of them by its own goroutine, which may also lose data. *)
Lemma down_users evs g w w' :
  queues w' = queues w → (∀ id reg, relays w' !! id = Some reg → relays w !! id = Some reg) →
  (∀ u, match users w !! u, users w' !! u with
        | Some x, Some x' => u_info x' = u_info x
            ∧ (u_main x' = u_main x ∨ g = GUser u ∧ sublist (flow (u_main x')) (flow (u_main x)))
        | None, None => True
        | _, _ => False
        end) →
  down_step evs g w w'.
Proof.
  intros Eq Er Hu Hok. assert (Hg : info_grow w w').
  { intros u x Hx. specialize (Hu u). rewrite Hx in Hu. destruct (users w' !! u) as [x'|]; [|done]. exists x'. by destruct Hu. }
  split.
  - destruct Hok as [H1 H2]. split.
    + intros u x' Hx'. specialize (Hu u). rewrite Hx', Eq in *. destruct (users w !! u) as [x|] eqn:Hx; [|done].
      destruct Hu as [-> Hm]. destruct (H1 u x Hx) as (q & ? & ? & Hs). exists q. split_and!; try done.
      destruct Hm as [->|[_ Hm]]; [done|]. by etrans.
    + intros id reg (x & Hx & <- & ?)%Er%H2. destruct (Hg _ _ Hx) as (x' & ? & E). exists x'. by rewrite E.
  - intros g' Hg'. split; [done|]. destruct g' as [| | |u|]; try done. specialize (Hu u).
    destruct (users w !! u) as [x|], (users w' !! u) as [x'|]; try done. cbn. f_equal. destruct Hu as [_ [?|[E _]]]; congruence.
Qed.

Lemma down_plain evs g w w' :
  queues w' = queues w → (∀ id reg, relays w' !! id = Some reg → relays w !! id = Some reg) → users w' = users w →
  down_step evs g w w'.
Proof. intros Eq Er Eu. apply down_users; [done|done|]. intros u. rewrite Eu. destruct (users w !! u); auto. Qed.

Lemma down_alter evs g u f w w' :
  queues w' = queues w → (∀ id reg, relays w' !! id = Some reg → relays w !! id = Some reg) → users w' = alter f u (users w) →
  (∀ x, users w !! u = Some x → u_info (f x) = u_info x
     ∧ (u_main (f x) = u_main x ∨ g = GUser u ∧ sublist (flow (u_main (f x))) (flow (u_main x)))) →
  down_step evs g w w'.
Proof.
  intros Eq Er Eu Hf. apply down_users; [done|done|]. intros u'. rewrite Eu, lookup_alter. case_decide as E.
  - subst u'. destruct (users w !! u); cbn; [by apply Hf|done].
  - destruct (users w !! u'); auto.
Qed.

Lemma client_step_flow m rest budget inbound i r m' :
  rm_pending m = inbound :: rest → client_step (main_pending rest m) budget inbound i = (r, m') → sublist (flow m') (flow m).
Proof.
  unfold client_step, write_data. cbv zeta. intros Ep. unfold flow at 2. rewrite Ep. cbn [omap list_omap]. unfold payload at 1.
  assert (Hd : ∀ m1, rm_out m1 = rm_out m → rm_pending m1 = rest →
    sublist (flow m1) (omap frame_data (rm_out m) ++ omap payload rest)) by (intros m1 E1 E2; unfold flow; by rewrite E1, E2).
  assert (Hk : ∀ d, sublist (omap frame_data (rm_out m) ++ omap payload rest) (omap frame_data (rm_out m) ++ d :: omap payload rest)).
  { intros d. apply sublist_app; [done|]. by constructor. }
  case_bool_decide as Et; cbn [andb].
  - case_bool_decide as Eb; [rewrite bool_decide_eq_false_2 by naive_solver; intros [= <- <-]; by apply Hd|].
    rewrite bool_decide_eq_true_2 by done. destruct (DecodeString _) as [d|]; [|intros [= <- <-]; by apply Hd].
    destruct (i_write i) as [e|].
    + intros E. etrans; [|apply Hk]. repeat case_match; injection E as <- <-; by apply Hd.
    + intros [= <- <-]. unfold flow. cbn. rewrite omap_app. cbn. by rewrite <-app_assoc.
  - case_bool_decide; intros [= <- <-]; [|by apply Hd]. case_bool_decide; [|by apply Hd].
    unfold flow. cbn. rewrite omap_app. cbn. by rewrite app_nil_r.
Qed.

Lemma take_inbound_step evs u keep now w msg w' :
  (∀ msg, keep msg = false → payload msg = None) →
  take_inbound u keep now w = Some (msg, w') → down_step evs (GUser u) w w'.
Proof.
  intros Hkeep. unfold take_inbound. intros (q & Hq & ([m q'] & Hr & (x & Hx & [= <- <-])%bind_Some)%bind_Some)%bind_Some Hok.
  set (w' := set_queues _ _).
  assert (Hus : ∀ u', users w' !! u' = if decide (u = u') then
    Some (if keep m then user_main (main_pending (rm_pending (u_main x) ++ [m])) x else x) else users w !! u').
  { intros u'. subst w'. destruct (keep m); cbn; rewrite ?lookup_alter; case_decide; subst; by rewrite ?Hx. }
  assert (Hre : relays w' = relays w) by (subst w'; by destruct (keep m)).
  assert (Hqs : queues w' = <[u := q']> (queues w)) by (subst w'; by destruct (keep m)).
  clearbody w'. assert (Hg : info_grow w w').
  { intros u' y Hy. rewrite Hus. case_decide; subst; [|eauto]. rewrite Hx in Hy. injection Hy as ->. by destruct (keep m); eauto. }
  split.
  - destruct Hok as [H1 H2]. split.
    + intros u' y. rewrite Hus, Hqs. destruct (decide (u = u')) as [<-|Hne].
      * destruct (H1 u x Hx) as (q0 & Hq0 & Hok & Hs). rewrite Hq in Hq0. injection Hq0 as ->.
        destruct (receive_ok _ _ _ _ _ _ Hok Hr) as [Hok' Hgot]. intros [= <-]. exists q'. rewrite lookup_insert_eq.
        split_and!; [done|by destruct (keep m)|]. rewrite Hgot, omap_app. destruct (keep m) eqn:Ek.
        -- unfold flow. cbn [user_main u_main main_pending rm_out rm_pending]. rewrite omap_app, (assoc_L (++)). by apply sublist_app.
        -- cbn. rewrite (Hkeep m Ek), app_nil_r. done.
      * rewrite lookup_insert_ne by done. apply H1.
    + rewrite Hre. intros id reg (y & Hy & <- & ?)%H2. destruct (Hg _ _ Hy) as (y' & ? & E). exists y'. by rewrite E.
  - intros g' Hg'. split; [done|]. destruct g' as [| | |u'|]; try done. rewrite Hus. case_decide; congruence.
Qed.

Lemma flow_write m x : frame_data x = None → flow (main_write x m) = flow m.
Proof. intros Hx. unfold flow. cbn. rewrite omap_app. cbn. rewrite Hx. by rewrite app_nil_r. Qed.

Lemma unregister_relays id w i reg : relays (UnregisterRelay id w) !! i = Some reg → relays w !! i = Some reg.
Proof. unfold UnregisterRelay. cbv zeta. case_bool_decide; cbn; [done|]. by intros [_ ?]%lookup_delete_Some. Qed.
Lemma unregister_rest id w : queues (UnregisterRelay id w) = queues w ∧ users (UnregisterRelay id w) = users w.
Proof. unfold UnregisterRelay. cbv zeta. by case_bool_decide. Qed.

Lemma ack_payload msg : negb (bool_decide (trim (m_type msg) = "relay_open_ack")) = false → payload msg = None.
Proof. intros E%negb_false_iff%bool_decide_eq_true. unfold payload. by rewrite E. Qed.

Ltac down_prim :=
  unfold put_send, RegisterWithPolicy, Unregister, RegisterRelayConn, UnregisterRelayConn, on_conn, on_user, on_call in *;
  cbv zeta in *; hub_case;
  first
    [ by apply down_plain
    | by apply down_plain; [apply unregister_rest|apply unregister_relays|apply unregister_rest]
    | eapply take_inbound_step; [|eassumption]; done
    | eapply take_inbound_step; [|eassumption]; apply ack_payload
    | eapply down_alter; [reflexivity|done|reflexivity|]; intros ? ?; simplify_eq; (split; [reflexivity|]);
      first
        [ left; reflexivity
        | right; (split; [reflexivity|]); cbn [user_main u_main];
          first [reflexivity|by rewrite flow_write|by eapply client_step_flow]]
    | by apply down_plain; cbn; rewrite ?alter_None_same ].

Lemma down_send_pending evs u info n : within (down_step evs (GUser u)) (send_pending (M := M) u info n).
Proof.
  induction n as [|n IH]; cbn [send_pending]; [done|]. hub_threads. repeat (within_step; try exact IH).
  all: down_prim.
Qed.

Ltac down_within := repeat (within_step || apply down_send_pending); down_prim.

(** Entries that neither deliver to a queue nor make one. *)
Definition no_queue (e : entry (M := M)) : bool :=
  match e with
  | Activates _ _ _ | Reads _ _ _ (ReadText (Some _)) | ConnectsUser _ _ => false
  | _ => true
  end.

Lemma no_queue_within evs e : no_queue e = true → within (down_step evs (code e).1) (code e).2.
Proof.
  destruct e as [| | | | | | |k [] r [| | |[m|]]|k [] r| | | |]; intros E; try discriminate E; cbn [code fst snd].
  all: hub_threads.
  all: down_within.
Qed.

(** ** Deliveries *)

Section Deliver.
Variable evs : list (sevent input name (entry (M := M))).
Local Abbreviation dsafe := (safe (I := input) (down_ok evs) down_rely).
Local Abbreviation dbind := (safe_bind (down_ok evs) down_rely).

Definition down_same w w' : Prop := queues w' = queues w ∧ relays w' = relays w ∧ users w' = users w.
(** Knowledge that the others leave alone. *)
Definition stable (g : name) (K : world M → Prop) : Prop := ∀ w w', K w → down_rely g w w' → K w'.

Lemma same_rely g w w' : users w' = users w → down_rely g w w'.
Proof. intros E. split; [intros u x; rewrite E; eauto|]. destruct g; by rewrite ?E. Qed.

Lemma dkeep {A} g (t : thread (world M) input A) K w :
  stable g K → within down_same t → K w → dsafe g t (λ _ w, K w) w.
Proof.
  intros HK. apply within_safe_keep; [|done|].
  - intros w1 w2 Hi (E1 & E2 & E3). eapply down_plain; [done|by rewrite E2|done|done].
  - intros w1 w2 _ Hw (_ & _ & E). eapply HK; [done|]. by apply same_rely.
Qed.

Definition owns (q : nat) (id : string) w : Prop := ∃ x, users w !! q = Some x ∧ ri_id (u_info x) = id.

Lemma owns_stable g (q : nat) id : stable g (owns q id).
Proof. intros w w' (x & Hx & <-) [Hg _]. destruct (Hg _ _ Hx) as (x' & ? & E). exists x'. by rewrite E. Qed.

Lemma stable_and g K1 K2 : stable g K1 → stable g K2 → stable g (λ w, K1 w ∧ K2 w).
Proof. intros H1 H2 w w' [] ?. split; eauto. Qed.

Lemma on_queue_safe g (q : nat) id f K w :
  (∀ x, queue_ok evs id x → queue_ok evs id (f x).2 ∧ got (f x).2 = got x) → stable g K → (∀ w, K w → owns q id w) →
  K w → dsafe g (atomic (λ _, on_queue q f)) (λ _ w, K w) w.
Proof.
  intros Hf HK Ho Hw. apply safe_atomic. intros i w1 Hr Hi. pose proof (HK _ _ Hw Hr) as Hw1. destruct (Ho _ Hw1) as (x & Hx & Hid).
  unfold on_queue. destruct (queues w1 !! q) as [y|] eqn:Hq; cbn [fst snd].
  2:{ split_and!; [done|intros g' _; reflexivity|]. intros w3 Hr3 _. eauto. }
  split_and!.
  - destruct Hi as [H1 H2]. split; cbn; [|done]. intros u x' Hx'. destruct (H1 u x' Hx') as (q' & Hq' & Hok & Hs).
    rewrite lookup_insert. case_decide as E; subst; [|eauto]. rewrite Hq in Hq'. rewrite Hx in Hx'. simplify_eq.
    destruct (Hf _ Hok) as [? Hg]. eexists. split_and!; [done..|]. by rewrite Hg.
  - intros g' _. by apply same_rely.
  - intros w3 Hr3 _. eapply HK; [|done]. eapply HK; [done|]. by apply same_rely.
Qed.

Lemma deliverRelay_safe g msg w :
  (trim (m_type msg) = "relay_data" → relayed evs msg) → dsafe g (deliverRelay msg) (λ _ _, True) w.
Proof.
  intros Hm. unfold deliverRelay. cbv zeta. case_bool_decide as E; [done|]. set (id := trim (m_relay msg)) in *.
  apply (dbind _ _ _ (λ reg w, match reg with Some reg => owns (reg_queue reg) id w | None => True end)).
  { apply safe_atomic. intros i w1 _ Hi. cbn. split_and!; [done|intros g' _; reflexivity|]. intros w3 Hr3 _.
    destruct (relays w1 !! id) as [reg|] eqn:Er; [|done]. eapply owns_stable; [|done].
    destruct (do_reg _ _ Hi _ _ Er) as (x & ? & ? & _). by exists x. }
  clear w. intros [reg|] w _ Ho; [|done]. set (q := reg_queue reg) in *. set (K := owns q id) in *.
  assert (HK : stable g K) by apply owns_stable.
  assert (Henq : ∀ now w, K w → dsafe g (atomic (λ _, on_queue q (enqueue msg now))) (λ _ w, K w) w).
  { intros now w1. apply (on_queue_safe g q id _ K); [|done|done]. intros x Hx. by apply enqueue_ok. }
  eapply dbind; [apply (dkeep g _ K); [done| |done]|].
  { clear. hub_threads. repeat within_step. by hub_prim. }
  clear w Ho. intros now w _ Ho. eapply dbind; [by apply Henq|]. clear w Ho. intros [] w _ Ho; [done|].
  apply (dbind _ _ _ (λ _ w, K w)).
  - case_bool_decide; [|apply safe_ret; intros; by eapply HK].
    eapply dbind; [apply (on_queue_safe g q id _ K); [|done|done|done]|].
    { intros x Hx. by apply drop_oldest_ok. }
    clear w Ho. intros ok w _ Ho. by apply Henq.
  - clear w Ho. intros [] w _ Ho; [done|]. apply (dbind _ _ _ (λ _ _, True)); [|done].
    eapply dbind; [apply (on_queue_safe g q id _ K); [|done|done|done]|done]. intros x Hx. by apply no_slot_ok.
Qed.

(** The registrations of a list of stale relays. *)
Definition owned (l : list (string * relayRegistration)) w : Prop :=
  Forall (λ x, trim x.1 = x.1 ∧ owns (reg_queue x.2) x.1 w) l.
Lemma owned_stable g l : stable g (owned l).
Proof.
  intros w w' Hl Hr. eapply Forall_impl; [exact Hl|]. intros [id reg] [? ?]. split; [done|]. by eapply owns_stable.
Qed.

Lemma close_stale_safe g key l K w :
  stable g K → K w → owned l w → dsafe g (close_stale key l) (λ _ w, K w) w.
Proof.
  intros HK. revert w. induction l as [|[id reg] l IH]; intros w Hw Hl; cbn [close_stale].
  { apply safe_ret. intros. by eapply HK. }
  cbv zeta. set (msg := relay_message _ id key 0 "" _). set (q := reg_queue reg). set (K' := λ w, K w ∧ owned ((id, reg) :: l) w).
  assert (HK' : stable g K') by (apply stable_and; [done|apply owned_stable]). assert (Hw' : K' w) by done.
  assert (Hown : ∀ w, K' w → owns q id w). { intros w1 [_ Ho]. by apply Forall_cons in Ho as [[_ Ho] _]. }
  assert (Hid : trim id = id). { by apply Forall_cons in Hl as [[? _] _]. }
  assert (Henq : ∀ now w, K' w → dsafe g (atomic (λ _, on_queue q (enqueue msg now))) (λ _ w, K' w) w).
  { intros now w1. apply (on_queue_safe g q id _ K'); [|done|done]. intros x Hx. by apply enqueue_ok. }
  eapply dbind; [apply (dkeep g _ K'); [done| |done]|].
  { clear. hub_threads. repeat within_step. by hub_prim. }
  clear w Hw Hl Hw'. intros now w _ Hw. eapply dbind; [by apply Henq|]. clear w Hw. intros ok w _ Hw.
  apply (dbind _ _ _ (λ _ w, K' w)); [|clear w Hw; intros [] w _ [? [_ ?]%Forall_cons]; by apply IH].
  destruct ok; [apply safe_ret; intros; by eapply HK'|].
  eapply dbind; [apply (on_queue_safe g q id _ K'); [|done|done|done]|].
  { intros x Hx. by apply drop_oldest_ok. }
  clear w Hw. intros dropped w _ Hw. apply (dbind _ _ _ (λ _ w, K' w)).
  - destruct dropped; [by apply Henq|apply safe_ret; intros; by eapply HK'].
  - clear w Hw. intros [] w _ Hw; [apply safe_ret; intros; by eapply HK'|].
    eapply dbind; [apply (on_queue_safe g q id _ K'); [|done|done|done]|].
    { intros x Hx. by apply no_slot_ok. }
    clear w Hw. intros ok w _ Hw. apply safe_ret. intros. by eapply HK'.
Qed.

Lemma SetActiveSession_safe g robotID key K w :
  stable g K → K w → dsafe g (SetActiveSession robotID key) (λ _ w, K w) w.
Proof.
  intros HK Hw. unfold SetActiveSession. cbv zeta. destruct (_ || _); [apply safe_ret; intros; by eapply HK|].
  eapply dbind; [apply (dkeep g _ K); [done|clear; repeat within_step; by hub_prim|done]|].
  clear w Hw. intros [] w _ Hw; [|apply safe_ret; intros; by eapply HK].
  unfold preemptRelaysForSession. cbv zeta. destruct (_ || _); [apply safe_ret; intros; by eapply HK|].
  apply (dbind _ _ _ (λ l w, K w ∧ owned l w)); [|clear w Hw; intros l w _ [? ?]; by apply close_stale_safe].
  apply safe_await. intros i w1 l w2 Hr Hi E. case_decide as Hp; [|discriminate E]. injection E as <- <-.
  split_and!; [done|intros g' _; reflexivity|]. intros w3 Hr3 _. split; [eapply HK; [|done]; by eapply HK|].
  eapply owned_stable; [|done]. apply Forall_forall. intros [id reg] [_ Hin]%list_elem_of_filter.
  rewrite Hp in Hin. apply elem_of_map_to_list in Hin. destruct (do_reg _ _ Hi _ _ Hin) as (x & ? & ? & ?).
  split; [done|]. by exists x.
Qed.

Lemma new_user_step u info w :
  users w !! u = None → ri_id info ≠ "" → trim (ri_id info) = ri_id info → down_step evs (GUser u) w (new_user u info w).
Proof.
  intros Hn Hne Ht Hok. unfold new_user, RegisterRelay. cbv zeta. rewrite Ht, bool_decide_eq_false_2 by done.
  assert (Hd : ∀ u' x, users w !! u' = Some x → u ≠ u') by congruence. split.
  - destruct Hok as [H1 H2]. split; cbn.
    + intros u' x [[<- <-]|[Hu Hx]]%lookup_insert_Some.
      * exists (fresh_queue (new_queue 512)). rewrite lookup_alter_eq, lookup_insert_eq. split_and!; [done| |done].
        split; cbn; try done; try constructor. lia.
      * destruct (H1 _ _ Hx) as (q & Hq & ? & ?). exists q. by rewrite lookup_alter_ne, lookup_insert_ne by done.
    + intros id reg [[<- <-]|[_ Hr]]%lookup_insert_Some; cbn.
      * eexists. by rewrite lookup_insert_eq.
      * destruct (H2 _ _ Hr) as (x & Hx & ?). exists x. rewrite lookup_insert_ne; eauto.
  - intros g' Hg'. split.
    + intros u' x Hx. exists x. cbn. rewrite lookup_insert_ne; eauto.
    + destruct g' as [| | |u'|]; try done. cbn. rewrite lookup_insert_ne; [done|congruence].
Qed.

Lemma dquiet {A} g (t : thread (world M) input A) w : within (down_step evs g) t → dsafe g t (λ _ _, True) w.
Proof. apply within_safe. intros w1 w2 Hi Hs. by apply Hs. Qed.

Ltac dsame K := eapply dbind; [apply (dkeep _ _ K); [done|clear; hub_threads; repeat within_step; by hub_prim|done]|].

Lemma relay_admission_safe g rq K w : stable g K → K w → dsafe g (relay_admission rq) (λ _ w, K w) w.
Proof.
  intros HK Hw. assert (Hret : ∀ (r : result (Z * string) (string * Z * string)) w, K w → dsafe g (mret r) (λ _ w, K w) w).
  { intros r w1 Hw1. apply safe_ret. intros. by eapply HK. }
  unfold relay_admission. destruct (ur_user rq) as [userID|]; [|by apply Hret]. cbv zeta. destruct (_ || _); [by apply Hret|].
  destruct (Atoi _) as [port|]; [|by apply Hret]. destruct (_ || _); [by apply Hret|].
  destruct (ur_owned rq _ _) as [[]|]; [|by apply Hret..]. dsame K. clear w Hw. intros online w _ Hw.
  destruct (negb online); [by apply Hret|]. dsame K. clear w Hw. intros activeSession w _ Hw.
  set (key := if bool_decide (trim (ur_session rq) = "") then activeSession else _).
  case_bool_decide; [by apply Hret|]. destruct (_ && _).
  - dsame K. clear w Hw. intros snapshot w _ Hw.
    destruct (match snapshot with Some s => _ | None => true end); [by apply Hret|]. dsame K. clear w Hw. intros promote w _ Hw.
    destruct (negb promote); [by apply Hret|].
    eapply dbind; [by apply (SetActiveSession_safe g _ _ K)|]. clear w Hw. intros [] w _ Hw. by apply Hret.
  - case_bool_decide; [|by apply Hret]. dsame K. clear w Hw. intros snapshot w _ Hw.
    eapply dbind; [by apply (SetActiveSession_safe g _ _ K)|]. clear w Hw. intros [] w _ Hw. by apply Hret.
Qed.

Lemma handleRelayWS_safe u rq w : users w !! u = None → dsafe (GUser u) (handleRelayWS u rq) (λ _ _, True) w.
Proof.
  intros Hw. set (K := λ w : world M, users w !! u = None).
  assert (HK : stable (GUser u) K). { intros w1 w2 H1 [_ H2]. unfold K in *. rewrite H1 in H2. by apply fmap_None in H2. }
  unfold handleRelayWS. eapply dbind; [by apply (relay_admission_safe _ _ K)|]. clear w Hw. intros [[[robot port] key]|[]] w _ Hw; [|done].
  destruct (ur_upgrade rq); cbn [negb]; [|done]. apply (dbind _ _ _ (λ _ _, True)).
  - apply safe_await. intros i w1 id w2 Hr Hi E. pose proof (HK _ _ Hw Hr) as Hn. case_decide as Hf; [|discriminate E].
    injection E as <- <-. destruct Hf as (Hne & Ht & _).
    set (w' := set_uuids _ w1). destruct (new_user_step u (RelayInfo robot port key (i_uuid i)
      (relayClientSoftTimeoutBudget (ur_budget rq))) w') as [Hi' Ho']; [done..| |].
    { by destruct (down_plain evs (GUser u) w1 w') as [? _]. }
    split_and!; [done| |done]. intros g' Hg'. etrans; [|by apply Ho']. by apply same_rely.
  - clear w Hw. intros id w _ _. apply dquiet. clear. hub_threads. down_within.
Qed.

Lemma relay_inbound_safe k r m w : relayed evs m → dsafe (GConn k) (relay_inbound k r m) (λ _ _, True) w.
Proof.
  intros Hm. unfold relay_inbound. apply (dbind _ _ _ (λ _ _, True)); [by apply deliverRelay_safe|].
  clear. intros r' w _ _. apply dquiet. clear. hub_threads. down_within.
Qed.

Lemma down_start_safe e : Start e ∈ evs → start_safe code startable (down_ok evs) down_rely e.
Proof.
  intros He w Hi Hs. destruct (no_queue e) eqn:E; [by apply dquiet, no_queue_within|].
  destruct e as [| |n r key| | | | |k kind r [| | |[m|]]| |u rq| | |]; try discriminate E; cbn [code fst snd startable] in *.
  - eapply safe_weaken; [by apply (SetActiveSession_safe _ _ _ (λ _, True))|done].
  - assert (Hm : relayed evs m) by (by exists k, kind, r). destruct kind; cbn [fst snd].
    + unfold readAgentControlPump. apply (dbind _ _ _ (λ _ _, True)); [apply dquiet; clear; hub_threads; down_within|].
      clear w Hi Hs. intros [] w _ _. cbv zeta. destruct (_ || _); [apply dquiet; clear; hub_threads; down_within|].
      destruct (is_relay_type _); [|done]. by apply relay_inbound_safe.
    + unfold readAgentRelayPump. destruct (is_relay_type _); [|done]. by apply relay_inbound_safe.
  - apply bool_decide_eq_true in Hs. eapply dbind; [by apply handleRelayWS_safe|done].
Qed.
End Deliver.

Lemma down_start evs : safe_system (I := input) (down_ok evs) down_rely (System NewAgentControlHub ∅).
Proof. split; [|done]. split; cbn; intros *; by rewrite lookup_empty. Qed.

End Downstream.

(** ** From the user to the agent *)

Section Upstream.
Context `{GS : !GoStrings, GB : !GoBase64, GU : !GoUuid, R : !Rfc3339, F : !Float64} {M : Type}.
Implicit Types (w : world M) (msg : agentControlMessage M) (evs : list (sevent input name (entry (M := M)))).

(** The data of a session among the messages put in send queues. *)
Definition data_of (id : string) (x : nat * agentControlMessage M) : option string :=
  if bool_decide (m_type x.2 = "relay_data") && bool_decide (m_relay x.2 = id) then Some (m_data x.2) else None.
Definition data_sent (id : string) w : list string := omap (data_of id) (sent w).

(** All that was read was sent, but for the last of it while it is being sent, or when
    that failed and the reader has ended. *)
Definition reader_ok (d : list string) (r : relayReader) : Prop :=
  ∃ rest, EncodeToString <$> rr_read r = d ++ rest ∧ (length rest <= 1)%nat
    ∧ (rr_alive r = true → rr_sending r = false → rest = []).

Record up_ok w : Prop := {
  up_user u x : users w !! u = Some x → ri_id (u_info x) ∈ uuids w ∧ reader_ok (data_sent (ri_id (u_info x)) w) (u_up x);
  up_opening u x : users w !! u = Some x → rm_phase (u_main x) = Opening → u_up x = RelayReader false [] false;
  up_inj u u' x x' : users w !! u = Some x → users w !! u' = Some x' → ri_id (u_info x) = ri_id (u_info x') → u = u';
  up_known x : x ∈ sent w → m_type x.2 = "relay_data" → m_relay x.2 ∈ uuids w;
}.

Definition up_rely (g : name) w w' : Prop :=
  match g with
  | GUser u => u_main <$> users w' !! u = u_main <$> users w !! u
  | GUserReader u =>
      ∀ x, users w !! u = Some x → rm_phase (u_main x) ≠ Opening →
      ∃ x', users w' !! u = Some x' ∧ rm_phase (u_main x') ≠ Opening ∧ u_info x' = u_info x ∧ u_up x' = u_up x
        ∧ data_sent (ri_id (u_info x)) w' = data_sent (ri_id (u_info x)) w
  | _ => True
  end.

#[export] Instance up_rely_preorder : Rely up_rely.
Proof.
  intros g. split; destruct g as [| | |u|u]; try done.
  - intros w x Hx Hp. eauto 10.
  - intros w1 w2 w3 H1 H2. cbn in *. by rewrite H2.
  - intros w1 w2 w3 H1 H2 x Hx Hp. destruct (H1 x Hx Hp) as (x' & Hx' & Hp' & Hi & Hu & Hd).
    destruct (H2 x' Hx' Hp') as (x'' & ? & ? & ? & ? & Hd'). exists x''. rewrite Hi in *. split_and!; congruence.
Qed.

Definition up_step (g : name) w w' : Prop := up_ok w → up_ok w' ∧ others up_rely g w w'.

Lemma data_sent_app id w l l' : sent w = l ++ l' → data_sent id w = omap (data_of id) l ++ omap (data_of id) l'.
Proof. intros E. unfold data_sent. by rewrite E, omap_app. Qed.

Lemma reader_stop_ok d r : reader_ok d r → reader_ok d (reader_stop r).
Proof. intros (rest & ? & ? & _). by exists rest. Qed.

(** Nothing of interest: messages without data are sent, sessions change otherwise, a
    reader ends. *)
Lemma up_users g w w' l :
  sent w' = sent w ++ l → Forall (λ x : nat * agentControlMessage M, m_type x.2 ≠ "relay_data") l → uuids w ⊆ uuids w' →
  (∀ u, match users w !! u, users w' !! u with
        | Some x, Some x' => u_info x' = u_info x
            ∧ (u_up x' = u_up x ∨ g = GUserReader u ∧ u_up x' = reader_stop (u_up x))
            ∧ (u_main x' = u_main x
               ∨ g = GUser u ∧ (rm_phase (u_main x') = rm_phase (u_main x) ∨ rm_phase (u_main x') = Ended))
        | None, None => True
        | _, _ => False
        end) →
  up_step g w w'.
Proof.
  intros Es Hl Hu Hx Hok. assert (Hd : ∀ id, data_sent id w' = data_sent id w).
  { intros id. rewrite (data_sent_app _ _ _ _ Es). fold (data_sent id w). replace (omap (data_of id) l) with (@nil string).
    - by rewrite app_nil_r.
    - clear Es. induction Hl as [|x l Ht _ IH]; [done|]. cbn. unfold data_of at 1. by rewrite bool_decide_eq_false_2. }
  split.
  - destruct Hok as [H1 H2 H3 H4]. split.
    + intros u x' Hx'. specialize (Hx u). rewrite Hx' in Hx. destruct (users w !! u) as [x|] eqn:E; [|done].
      destruct Hx as (-> & Hup & _). destruct (H1 u x E) as [? Hr]. rewrite Hd. split; [set_solver|].
      destruct Hup as [-> | [_ ->]]; [done|by apply reader_stop_ok].
    + intros u x' Hx' Hp. specialize (Hx u). rewrite Hx' in Hx. destruct (users w !! u) as [x|] eqn:E; [|done].
      destruct Hx as (_ & Hup & Hm). assert (Hx0 : u_up x = RelayReader false [] false).
      { apply (H2 u x E). destruct Hm as [E1|[_ [E1|E1]]]; congruence. }
      destruct Hup as [-> | [_ ->]]; by rewrite Hx0.
    + intros u u' x1 x2 Hx1 Hx2. pose proof (Hx u) as Y1. pose proof (Hx u') as Y2. rewrite Hx1 in Y1. rewrite Hx2 in Y2.
      destruct (users w !! u) eqn:E1, (users w !! u') eqn:E2; try done. destruct Y1 as [-> _], Y2 as [-> _]. eauto.
    + intros y. rewrite Es, elem_of_app. intros [Hy|Hy] Ht; [apply Hu; eauto|]. by destruct (proj1 (Forall_forall _ _) Hl y Hy).
  - intros g' Hg'. destruct g' as [| | |u|u]; try done; cbn.
    + specialize (Hx u). destruct (users w !! u), (users w' !! u); try done. cbn. f_equal.
      destruct Hx as (_ & _ & [?|[E _]]); congruence.
    + intros x Hxx Hp. specialize (Hx u). rewrite Hxx in Hx. destruct (users w' !! u) as [x'|]; [|done].
      destruct Hx as (Hi & Hup & Hm). exists x'. split_and!; [done| |done| |done].
      * destruct Hm as [-> | [_ [-> | ->]]]; done.
      * destruct Hup as [?|[E _]]; congruence.
Qed.

Lemma up_plain g w w' : sent w' = sent w → uuids w ⊆ uuids w' → users w' = users w → up_step g w w'.
Proof.
  intros Es Hu Ex. apply (up_users _ _ _ []); [by rewrite app_nil_r|done|done|]. intros u. rewrite Ex.
  destruct (users w !! u); auto.
Qed.
Lemma up_send g w w' x :
  sent w' = sent w ++ [x] → m_type x.2 ≠ "relay_data" → uuids w ⊆ uuids w' → users w' = users w → up_step g w w'.
Proof.
  intros Es Ht Hu Ex. apply (up_users _ _ _ [x]); [done|by constructor|done|]. intros u. rewrite Ex.
  destruct (users w !! u); auto.
Qed.
Lemma up_alter g u f w w' :
  sent w' = sent w → uuids w ⊆ uuids w' → users w' = alter f u (users w) →
  (∀ x, users w !! u = Some x → u_info (f x) = u_info x
     ∧ (u_up (f x) = u_up x ∨ g = GUserReader u ∧ u_up (f x) = reader_stop (u_up x))
     ∧ (u_main (f x) = u_main x
        ∨ g = GUser u ∧ (rm_phase (u_main (f x)) = rm_phase (u_main x) ∨ rm_phase (u_main (f x)) = Ended))) →
  up_step g w w'.
Proof.
  intros Es Hu Ex Hf. apply (up_users _ _ _ []); [by rewrite app_nil_r|done|done|]. intros u'. rewrite Ex, lookup_alter.
  case_decide as E; [subst u'; destruct (users w !! u); cbn; [by apply Hf|done]|]. destruct (users w !! u'); auto.
Qed.

Lemma client_step_phase (m : relayMain M) budget inbound i r m' : client_step m budget inbound i = (r, m') → rm_phase m' = rm_phase m.
Proof. unfold client_step, write_data. cbv zeta. intros E. repeat case_match; by injection E as <- <-. Qed.

Ltac up_prim :=
  hub_prim;
  first
    [ apply up_plain; [reflexivity|first [reflexivity|set_solver]|reflexivity]
    | eapply up_send; [reflexivity|discriminate|reflexivity|reflexivity]
    | eapply up_alter; [reflexivity|reflexivity|reflexivity|]; intros ? ?; simplify_eq;
      split_and!;
        [ reflexivity
        | first [left; reflexivity|right; split; reflexivity]
        | first [left; reflexivity|right; (split; [reflexivity|]); first [left; reflexivity|right; reflexivity
                                  |left; by erewrite client_step_phase by eassumption]]] ].

Lemma up_close_stale g key stale : within (up_step g) (close_stale (M := M) key stale).
Proof.
  induction stale as [|[id reg] stale IH]; cbn [close_stale]; [done|]. hub_threads. repeat (within_step; try exact IH).
  all: up_prim.
Qed.
Lemma up_send_pending u info n : within (up_step (GUser u)) (send_pending (M := M) u info n).
Proof.
  induction n as [|n IH]; cbn [send_pending]; [done|]. hub_threads. repeat (within_step; try exact IH).
  all: up_prim.
Qed.

Ltac up_within := repeat (within_step || apply up_close_stale || apply up_send_pending); up_prim.

(** Entries that neither begin a session or its reader, nor read data. *)
Definition no_data (e : entry (M := M)) : bool :=
  match e with ConnectsUser _ _ | Opens _ _ | UserReads _ _ (UserData _) => false | _ => true end.

Lemma no_data_within e : no_data e = true → within (up_step (code e).1) (code e).2.
Proof.
  destruct e as [| | | | | | |k [] r [| | |[m|]]|k [] r| | | |u info []]; intros E; try discriminate E; cbn [code fst snd].
  all: hub_threads.
  all: up_within.
Qed.

Local Abbreviation usafe := (safe (I := input) up_ok up_rely).
Local Abbreviation ubind := (safe_bind up_ok up_rely).

Lemma uquiet {A} g (t : thread (world M) input A) w : within (up_step g) t → usafe g t (λ _ _, True) w.
Proof. apply within_safe. intros w1 w2 Hi Hs. by apply Hs. Qed.

(** What the goroutine of session [u] knows of the session's phase. *)
Definition phase_of u w : option phase := (λ x, rm_phase (u_main x)) <$> users w !! u.
Lemma phase_rely u w w' : up_rely (GUser u) w w' → phase_of u w' = phase_of u w.
Proof. cbn. unfold phase_of. destruct (users w !! u), (users w' !! u); cbn; intros E; congruence. Qed.

Definition up_phase u w w' : Prop := up_step (GUser u) w w' ∧ phase_of u w' = phase_of u w.

Lemma ukeep {A} u (t : thread (world M) input A) p w :
  within (up_phase u) t → phase_of u w = p →
  usafe (GUser u) t (λ _ w, phase_of u w = p) w.
Proof.
  apply (within_safe_keep _ _ _ _ _ (λ w, phase_of u w = p)).
  - intros w1 w2 Hi [Hs _]. by apply Hs.
  - intros w1 w2 <- Hr. by apply phase_rely.
  - intros w1 w2 _ <- [_ ?]. done.
Qed.

Lemma phase_alter u f (us : gmap nat (userRelay M)) u' :
  (∀ x, rm_phase (u_main (f x)) = rm_phase (u_main x)) →
  (λ x : userRelay M, rm_phase (u_main x)) <$> alter f u us !! u' = (λ x, rm_phase (u_main x)) <$> us !! u'.
Proof. intros Hf. rewrite lookup_alter. case_decide; subst; [|done]. destruct (us !! u'); cbn; [by rewrite Hf|done]. Qed.

Lemma establish_safe u w :
  phase_of u w = Some Opening →
  usafe (GUser u) (change (on_user u (λ x, user_up (λ _, RelayReader true [] false) (user_main (main_phase Established false) x))))
    (λ _ _, True) w.
Proof.
  intros Hp. apply safe_atomic. intros i w1 Hr Hi. cbn [fst snd]. rewrite <-(phase_rely _ _ _ Hr) in Hp.
  apply fmap_Some in Hp as (x0 & Hx0 & Hp0). set (f := λ x : userRelay M, _). split_and!; [| |done].
  - destruct Hi as [H1 H2 H3 H4]. split; cbn.
    + intros u' x [[<- (x1 & Hx1 & ->)]|[_ Hx]]%lookup_alter_Some; [|by apply (H1 u')]. rewrite Hx0 in Hx1. injection Hx1 as <-.
      destruct (H1 u x0 Hx0) as [? (rest & E & _)]. split; [done|]. rewrite (H2 _ _ Hx0) in E by done. cbn in E.
      symmetry in E. apply app_eq_nil in E as [E _]. exists []. cbn. split_and!; [|lia|done]. change (data_sent (ri_id (u_info x0)) w1 = []) in E.
      by unfold data_sent in *; cbn; rewrite E.
    + intros u' x [[<- (x1 & Hx1 & ->)]|[_ Hx]]%lookup_alter_Some; [done|]. eauto.
    + intros u1 u2 x1 x2 [[<- (y1 & Hy1 & ->)]|[_ Hy1]]%lookup_alter_Some [[<- (y2 & Hy2 & ->)]|[_ Hy2]]%lookup_alter_Some; eauto.
    + done.
  - intros g' Hg'. destruct g' as [| | |u'|u']; try done; cbn.
    + rewrite lookup_alter_ne; [done|congruence].
    + intros x Hx Hph. rewrite lookup_alter. case_decide; [congruence|]. eauto 10.
Qed.

Lemma open_turn_safe u info w : phase_of u w = Some Opening → usafe (GUser u) (open_turn u info) (λ _ _, True) w.
Proof.
  intros Hp. unfold open_turn. cbv zeta. eapply ubind; [apply ukeep; [clear|exact Hp]|].
  { apply within_await. intros i w inbound w' E. split; [revert E; intros; up_prim|]. hub_prim; try done; cbn.
    all: unfold phase_of; cbn; by apply phase_alter. }
  clear w Hp. intros [msg|] w _ Hp; [|apply uquiet; clear; hub_threads; up_within].
  destruct (negb _); [done|]. destruct (EqualFold _ _); [|apply uquiet; clear; hub_threads; up_within].
  eapply ubind; [by apply establish_safe|]. clear w Hp. intros [] w _ _. apply uquiet. clear. hub_threads. up_within.
Qed.

Lemma data_of_Some id x d : data_of id x = Some d → m_type x.2 = "relay_data" ∧ m_relay x.2 = id.
Proof. unfold data_of. by do 2 case_bool_decide. Qed.

Lemma no_data_sent id w : up_ok w → ¬ (id ∈ uuids w) → data_sent id w = [].
Proof.
  intros Hok Hid. apply elem_of_nil_inv. intros d (x & Hx & [Ht Hr]%data_of_Some)%list_elem_of_omap.
  apply Hid. rewrite <-Hr. by apply (up_known _ Hok).
Qed.

Lemma new_user_up u info w :
  users w !! u = None → ¬ (ri_id info ∈ uuids w) →
  up_step (GUser u) w (new_user u info (set_uuids ({[ri_id info]} ∪ uuids w) w)).
Proof.
  intros Hn Hf Hok. set (w' := new_user _ _ _). set (x0 := UserRelay info (RelayMain (M := M) Opening 0 [] 0 false [])
    (RelayReader false [] false) false false).
  assert (Hu : users w' = <[u := x0]> (users w)) by (by unfold w', new_user, RegisterRelay; cbv zeta; case_bool_decide).
  assert (Hs : sent w' = sent w) by (by unfold w', new_user, RegisterRelay; cbv zeta; case_bool_decide).
  assert (Huu : uuids w' = {[ri_id info]} ∪ uuids w) by (by unfold w', new_user, RegisterRelay; cbv zeta; case_bool_decide).
  assert (Hd : ∀ id, data_sent id w' = data_sent id w) by (intros id; unfold data_sent; by rewrite Hs). clearbody w'.
  pose proof (no_data_sent _ _ Hok Hf) as Hno. split.
  - destruct Hok as [H1 H2 H3 H4]. split; rewrite ?Hu, ?Huu.
    + intros u' x [[<- <-]|[_ Hx]]%lookup_insert_Some; rewrite Hd.
      * split; [by apply elem_of_union_l, elem_of_singleton|]. exists []. cbn. rewrite Hno. split_and!; [done|lia|done].
      * destruct (H1 u' x Hx). split; [by apply elem_of_union_r|done].
    + intros u' x [[<- <-]|[_ Hx]]%lookup_insert_Some; [done|eauto].
    + intros u1 u2 x1 x2 [[<- <-]|[_ Hx1]]%lookup_insert_Some [[<- <-]|[_ Hx2]]%lookup_insert_Some E; [done| | |eauto];
        exfalso; apply Hf; cbn in E.
      * rewrite E. by eapply H1.
      * rewrite <-E. by eapply H1.
    + rewrite Hs. intros x Hx Ht. apply elem_of_union_r. eauto.
  - intros g' Hg'. destruct g' as [| | |u'|u']; try done; cbn.
    + rewrite Hu, lookup_insert_ne; [done|congruence].
    + intros x Hx Hp. exists x. rewrite Hu, lookup_insert_ne by congruence. by rewrite Hd.
Qed.

Ltac phase_prim := split; [up_prim|hub_prim; reflexivity].

Lemma phase_close_stale u key stale : within (up_phase u) (close_stale (M := M) key stale).
Proof.
  induction stale as [|[id reg] stale IH]; cbn [close_stale]; [done|]. hub_threads. repeat (within_step; try exact IH).
  all: phase_prim.
Qed.

Lemma connect_user_safe u rq w : users w !! u = None → usafe (GUser u) (handleRelayWS u rq) (λ _ _, True) w.
Proof.
  intros Hn. unfold handleRelayWS. eapply ubind; [apply (ukeep u _ None); [clear|by unfold phase_of; rewrite Hn]|].
  { hub_threads. repeat (within_step || apply phase_close_stale). all: phase_prim. }
  clear w Hn. intros [[[robot port] key]|[]] w _ Hp; [|done]. destruct (ur_upgrade rq); cbn [negb]; [|done].
  apply (ubind _ _ _ (λ _ _, True)); [|clear; intros id w _ _; apply uquiet; clear; hub_threads; up_within].
  apply safe_await. intros i w1 id w2 Hr Hi E. rewrite <-(phase_rely _ _ _ Hr) in Hp. apply fmap_None in Hp.
  case_decide as Hf; [|discriminate E]. injection E as <- <-. destruct Hf as (_ & _ & Hf).
  set (info := RelayInfo robot port key (i_uuid i) (relayClientSoftTimeoutBudget (ur_budget rq))).
  destruct (new_user_up u info w1) as [Hi' Ho']; [done..|]. by split_and!.
Qed.

(** ** The reader *)

(** What the reader knows of its session. *)
Definition reading u (info : relayInfo) (r : relayReader) (d : list string) w : Prop :=
  ∃ x, users w !! u = Some x ∧ rm_phase (u_main x) ≠ Opening ∧ u_info x = info ∧ u_up x = r ∧ data_sent (ri_id info) w = d.

Lemma reading_rely u info r d w w' : reading u info r d w → up_rely (GUserReader u) w w' → reading u info r d w'.
Proof.
  intros (x & Hx & Hp & Hi & Hu & Hd) Hr. destruct (Hr x Hx Hp) as (x' & ? & ? & ? & ? & Hd'). exists x'.
  subst info. split_and!; congruence.
Qed.

Lemma reader_change u info f r d w :
  (∀ d, reader_ok d r → reader_ok d (f r)) ∨ reader_ok d (f r) → reading u info r d w →
  usafe (GUserReader u) (change (on_user u (user_up f))) (λ _ w, reading u info (f r) d w) w.
Proof.
  intros Hf Hw. apply safe_atomic. intros i w1 Hr Hi. destruct (reading_rely _ _ _ _ _ _ Hw Hr) as (x0 & Hx0 & Hp0 & Hi0 & Hu0 & Hd0).
  cbn [fst snd]. split_and!.
  - destruct Hi as [H1 H2 H3 H4]. split; cbn.
    + intros u' x [[<- (x1 & Hx1 & ->)]|[_ Hx]]%lookup_alter_Some; [|by apply (H1 u')]. rewrite Hx0 in Hx1. injection Hx1 as <-.
      destruct (H1 u x0 Hx0) as [? Hok]. split; [done|]. cbn. change (reader_ok (data_sent (ri_id (u_info x0)) w1) (f (u_up x0))).
      subst info. rewrite Hd0, Hu0 in *. destruct Hf; auto.
    + intros u' x [[<- (x1 & Hx1 & ->)]|[_ Hx]]%lookup_alter_Some; [|eauto]. cbn. intros. congruence.
    + intros u1 u2 x1 x2 [[<- (y1 & Hy1 & ->)]|[_ Hy1]]%lookup_alter_Some [[<- (y2 & Hy2 & ->)]|[_ Hy2]]%lookup_alter_Some; eauto.
    + done.
  - intros g' Hg'. destruct g' as [| | |u'|u']; try done; cbn.
    + rewrite lookup_alter. case_decide; subst; [|done]. by rewrite Hx0.
    + intros x Hx Hp. rewrite lookup_alter_ne by congruence. eauto 10.
  - intros w3 Hr3 _. eapply reading_rely; [|done]. exists (user_up f x0). cbn. rewrite lookup_alter_eq, Hx0. split_and!; try done.
    cbn. by rewrite Hu0.
Qed.

Lemma send_data_safe u info r d data w :
  reader_ok (d ++ [data]) r → reading u info r d w →
  usafe (GUserReader u) (SendRelay (ri_robot info) (relay_message "relay_data" (ri_id info) (ri_key info) 0 data ""))
    (λ ok w, reading u info r (if (ok : bool) then d ++ [data] else d) w) w.
Proof.
  intros Hrd Hw. assert (Hret : ∀ w, reading u info r d w →
    usafe (GUserReader u) (mret false) (λ ok w, reading u info r (if (ok : bool) then d ++ [data] else d) w) w).
  { intros w1 Hw1. apply safe_ret. intros. by eapply reading_rely. }
  unfold SendRelay. cbv zeta. case_bool_decide; [by apply Hret|]. set (msg := relay_message _ _ _ _ _ _).
  apply (ubind _ _ _ (λ _ w, reading u info r d w)).
  { apply safe_atomic. intros i w1 Hr Hi. cbn. split_and!; [done|intros g' _; reflexivity|]. intros w3 Hr3 _.
    eapply reading_rely; [|done]. by eapply reading_rely. }
  clear w Hw. intros [k|] w _ Hw; [|by apply Hret]. apply safe_atomic. intros i w1 Hr Hi. unfold put_send.
  pose proof (reading_rely _ _ _ _ _ _ Hw Hr) as Hw1.
  destruct (objs w1 !! k) as [c|]; [destruct (_ <? _)%nat|]; cbn [fst snd].
  2,3: (split_and!; [done|intros g' _; reflexivity|]; intros w3 Hr3 _; by eapply reading_rely).
  destruct Hw1 as (x0 & Hx0 & Hp0 & Hi0 & Hu0 & Hd0). set (w2 := set_sent _ _).
  assert (Hd2 : ∀ id, data_sent id w2 = data_sent id w1 ++ if decide (id = ri_id info) then [data] else []).
  { intros id. rewrite (data_sent_app id w2 (sent w1) [(k, msg)] eq_refl). f_equal. cbn [omap list_omap].
    unfold data_of, msg. cbn [relay_message m_type m_relay m_data snd]. rewrite bool_decide_eq_true_2 by done. cbn [andb].
    case_decide; case_bool_decide; congruence. }
  assert (Hu2 : users w2 = users w1) by done. assert (Hid2 : uuids w2 = uuids w1) by done.
  assert (Hs2 : sent w2 = sent w1 ++ [(k, msg)]) by done. clearbody w2. split_and!.
  - destruct Hi as [H1 H2 H3 H4]. split; rewrite ?Hu2, ?Hid2.
    + intros u' x Hx. destruct (H1 u' x Hx) as [? Hok]. split; [done|]. rewrite Hd2. case_decide as E; [|by rewrite app_nil_r].
      assert (u' = u) as -> by (eapply H3; [done..|]; congruence). rewrite Hx0 in Hx. injection Hx as <-.
      subst info. by rewrite Hd0, Hu0.
    + eauto.
    + eauto.
    + rewrite Hs2. intros x [?| ->%list_elem_of_singleton]%elem_of_app Ht; [eauto|]. cbn. subst info. by eapply H1.
  - intros g' Hg'. destruct g' as [| | |u'|u']; try done; cbn; rewrite Hu2; [done|].
    intros x Hx Hp. exists x. rewrite Hd2. case_decide as E; [|by rewrite app_nil_r].
    destruct Hg'. f_equal. eapply (up_inj _ Hi); [done..|]. congruence.
  - intros w3 Hr3 _. eapply reading_rely; [|done]. exists x0. rewrite Hu2, Hd2, Hd0. rewrite decide_True by done. by split_and!.
Qed.

Lemma user_data_safe u info payload w l :
  reading u info (RelayReader true l false) (EncodeToString <$> l) w →
  usafe (GUserReader u) (user_reader u info (UserData payload)) (λ _ _, True) w.
Proof.
  intros Hw. unfold user_reader. eapply ubind; [apply reader_change; [|exact Hw]|].
  { right. exists [EncodeToString payload]. cbn. rewrite fmap_app. split_and!; [done|lia|done]. }
  clear w Hw. intros [] w _ Hw. cbn in Hw. eapply ubind; [apply send_data_safe; [|exact Hw]|].
  { exists []. cbn. rewrite fmap_app, app_nil_r. split_and!; [done|lia|done]. }
  clear w Hw. intros [] w _ Hw.
  - eapply safe_weaken; [apply reader_change; [|exact Hw]|done]. right. exists []. cbn. rewrite fmap_app, app_nil_r.
    split_and!; [done|lia|done].
  - apply (ubind _ _ _ (λ _ _, True)); [|clear; intros [] w _ _; apply uquiet; clear; hub_threads; up_within].
    eapply safe_weaken; [apply reader_change; [|exact Hw]|done]. left. intros d. apply reader_stop_ok.
Qed.

Lemma up_start_safe e : start_safe code startable up_ok up_rely e.
Proof.
  intros w Hi Hs. destruct (no_data e) eqn:E; [by apply uquiet, no_data_within|].
  destruct e as [| | | | | | | | |u rq|u info| |u info [|payload|]]; try discriminate E; cbn [code fst snd startable] in *.
  - apply bool_decide_eq_true in Hs. eapply ubind; [by apply connect_user_safe|done].
  - apply open_turn_safe. unfold phase_of. destruct (users w !! u) as [x|]; [|discriminate Hs]. cbn.
    apply andb_prop in Hs as [_ Hs]. by destruct (rm_phase (u_main x)).
  - destruct (users w !! u) as [x|] eqn:Hx; [|discriminate Hs]. apply andb_prop in Hs as [[Hinfo%bool_decide_eq_true Ha]%andb_prop Hs%negb_true_iff].
    destruct (up_user _ Hi u x Hx) as [_ (rest & Hr & _ & Hl)]. rewrite (Hl Ha Hs), app_nil_r in Hr.
    apply (user_data_safe _ _ _ _ (rr_read (u_up x))). exists x. subst info. split_and!; try done.
    + intros Hp. pose proof (up_opening _ Hi u x Hx Hp) as Eu. by rewrite Eu in Ha.
    + destruct (u_up x). cbn in *. congruence.
Qed.

Lemma up_start : safe_system (I := input) up_ok up_rely (System NewAgentControlHub ∅).
Proof. split; [|done]. split; cbn; intros *; rewrite ?lookup_empty; try done. by intros ?%not_elem_of_nil. Qed.
End Upstream.

(** ** What goes out to an agent *)

Section Written.
Context `{GS : !GoStrings, GB : !GoBase64, GU : !GoUuid, R : !Rfc3339, F : !Float64} {M : Type}.
Implicit Types (w : world M) (msg : agentControlMessage M) (k : nat).

Definition to_conn k (x : nat * agentControlMessage M) : option (agentControlMessage M) :=
  if bool_decide (x.1 = k) then Some x.2 else None.
Definition sent_to k w : list (agentControlMessage M) := omap (to_conn k) (sent w).

(** What was put in the queue went out or is still there, but for what the writer could
    not write when it ended. *)
Definition wire_ok (l : list (agentControlMessage M)) (c : agentConn M) : Prop :=
  ∃ lost, l = c_written c ++ lost ++ c_send c ∧ (c_writer c ≠ Over → lost = []).

Record written_ok w : Prop := {
  wo_conn k c : objs w !! k = Some c → wire_ok (sent_to k w) c;
  wo_new k : objs w !! k = None → sent_to k w = [];
}.

Definition no_rely (g : name) w w' : Prop := True.
#[export] Instance no_rely_preorder : Rely no_rely.
Proof. done. Qed.

Definition written_step w w' : Prop := written_ok w → written_ok w'.

Lemma written_plain w w' : objs w' = objs w → sent w' = sent w → written_step w w'.
Proof. intros E1 E2 [H1 H2]. split; intros k; unfold sent_to; rewrite E1, E2; [apply H1|apply H2]. Qed.

Lemma written_alter k f w w' :
  objs w' = alter f k (objs w) → sent w' = sent w →
  (∀ c l, objs w !! k = Some c → wire_ok l c → wire_ok l (f c)) → written_step w w'.
Proof.
  intros E1 E2 Hf [H1 H2]. split; intros k'; unfold sent_to; rewrite E1, E2.
  - intros c [[<- (c' & Hc & ->)]|[_ Hc]]%lookup_alter_Some; [|by apply H1]. apply Hf; [done|]. by apply H1.
  - intros Hc%lookup_alter_None. by apply H2.
Qed.

Lemma wire_same (f : agentConn M → agentConn M) c l :
  c_written (f c) = c_written c → c_send (f c) = c_send c → (c_writer (f c) ≠ Over → c_writer c ≠ Over) →
  wire_ok l c → wire_ok l (f c).
Proof. intros E1 E2 H (lost & -> & Hl). exists lost. rewrite E1, E2. auto. Qed.

Lemma wire_write c l msg rest :
  c_send c = msg :: rest → is_running (c_writer c) = true → wire_ok l c → wire_ok l (conn_queue rest (c_written c ++ [msg]) c).
Proof.
  intros E1 E2 (lost & -> & Hl). exists lost. cbn. rewrite E1. split; [|done].
  rewrite Hl by (by destruct (c_writer c)). by rewrite <-app_assoc.
Qed.

Lemma wire_lose c l msg rest :
  c_send c = msg :: rest → wire_ok l c → wire_ok l (conn_runs (c_reader c) Over (conn_queue rest (c_written c) c)).
Proof. intros E1 (lost & -> & Hl). exists (lost ++ [msg]). cbn. rewrite E1. split; [|done]. by rewrite <-!app_assoc. Qed.

Lemma written_put k c msg w w' :
  objs w !! k = Some c → objs w' = alter (conn_queue (c_send c ++ [msg]) (c_written c)) k (objs w) →
  sent w' = sent w ++ [(k, msg)] → written_step w w'.
Proof.
  intros Hc E1 E2 [H1 H2].
  assert (Hs : ∀ k', sent_to k' w' = sent_to k' w ++ if decide (k = k') then [msg] else []).
  { intros k'. unfold sent_to. rewrite E2, omap_app. f_equal. cbn. unfold to_conn. cbn. case_bool_decide; case_decide; congruence. }
  split; intros k'; rewrite E1, Hs.
  - intros c' [[<- (c0 & Hc0 & ->)]|[? Hc0]]%lookup_alter_Some.
    + rewrite decide_True by done. rewrite Hc in Hc0. injection Hc0 as <-. destruct (H1 k c Hc) as (lost & -> & Hl).
      exists lost. cbn. split; [|done]. by rewrite <-!app_assoc.
    + rewrite decide_False by done. rewrite app_nil_r. by apply H1.
  - intros Hc0%lookup_alter_None. rewrite decide_False by congruence. rewrite app_nil_r. by apply H2.
Qed.

Lemma written_new k c w w' :
  objs w !! k = None → objs w' = <[k := c]> (objs w) → sent w' = sent w → c_written c = [] → c_send c = [] → written_step w w'.
Proof.
  intros Hn E1 E2 E3 E4 [H1 H2]. split; intros k'; unfold sent_to; rewrite E1, E2; fold (sent_to k' w).
  - intros c' [[<- <-]|[_ Hc]]%lookup_insert_Some; [|by apply H1]. rewrite H2 by done. exists []. by rewrite E3, E4.
  - intros [? ?]%lookup_insert_None. by apply H2.
Qed.

Ltac written_prim :=
  hub_prim;
  first
    [ by apply written_plain
    | eapply written_put; [eassumption|reflexivity|reflexivity]
    | eapply written_new; [eassumption|reflexivity..]
    | eapply written_alter; [reflexivity|reflexivity|]; intros ? ? ?; simplify_eq;
      first
        [ eapply wire_lose; eassumption
        | eapply wire_write; [eassumption|by apply negb_false_iff]
        | apply (wire_same _ _ _); cbn; (try reflexivity); (try done); unfold conn_reason; repeat case_match; cbn; try done;
          by destruct (c_writer _) ] ].

Lemma written_close_stale key stale : within written_step (close_stale (M := M) key stale).
Proof.
  induction stale as [|[id reg] stale IH]; cbn [close_stale]; [done|]. hub_threads. repeat (within_step; try exact IH).
  all: written_prim.
Qed.
Lemma written_send_pending u info n : within written_step (send_pending (M := M) u info n).
Proof.
  induction n as [|n IH]; cbn [send_pending]; [done|]. hub_threads. repeat (within_step; try exact IH).
  all: written_prim.
Qed.

Lemma written_within (e : entry (M := M)) : within written_step (code e).2.
Proof.
  destruct e as [| | | | | | |k [] r [| | |[m|]]|k [] r| | | |u info []]; cbn [code fst snd].
  all: hub_threads.
  all: repeat (within_step || apply written_close_stale || apply written_send_pending).
  all: written_prim.
Qed.

Lemma written_start_safe e : start_safe code startable written_ok no_rely e.
Proof.
  intros w _ _. eapply (within_safe _ _ _ written_step); [|apply written_within]. intros w1 w2 Hi Hs. split; [by apply Hs|done].
Qed.

Lemma written_start : safe_system (I := input) written_ok no_rely (System NewAgentControlHub ∅).
Proof. split; [|done]. split; cbn; intros *; by rewrite ?lookup_empty. Qed.

(** C9: an agent receives what the user sent, and in that order.  In every run of the
    hub, in every interleaving, and whatever the agent's relay connection is replaced by
    on the way: the data of a relay session among all messages put in send queues is the
    encoding of what was read from the user's socket, all of it and in order, but for the
    last piece while it is being passed on or when that failed, which ends the reader;
    and on every connection of an agent, what was put in its queue has gone out in that
    order or is still in the queue, but for what was lost when its writer ended. *)
Theorem relay_upstream evs s u x :
  sys_run code startable evs (System (NewAgentControlHub (M := M)) ∅) = Some s → users (shared s) !! u = Some x →
  (∃ rest, EncodeToString <$> rr_read (u_up x) = data_sent (ri_id (u_info x)) (shared s) ++ rest ∧ (length rest <= 1)%nat
     ∧ (rr_alive (u_up x) = true → rr_sending (u_up x) = false → rest = []))
  ∧ ∀ k c, objs (shared s) !! k = Some c →
      ∃ lost, sent_to k (shared s) = c_written c ++ lost ++ c_send c ∧ (c_writer c ≠ Over → lost = []).
Proof.
  intros Hrun Hx. destruct (run_safe _ _ _ _ _ _ _ (λ e _, up_start_safe e) up_start Hrun) as [Hup _].
  destruct (run_safe _ _ _ _ _ _ _ (λ e _, written_start_safe e) written_start Hrun) as [Hwr _].
  split; [by apply (up_user _ Hup u x Hx)|]. intros k c Hc. by apply (wo_conn _ Hwr).
Qed.
End Written.
