(* ===== verification/HubSession.v ===== *)
(** * Sessions and triggers at the hub (go/relay/relay.go, go/relay/server.go)

    [TriggerBootstrap] of server.go, which asks an agent to begin or end a WebRTC session
    over its control connection, or else by a TCP call of Bootstrap.v unless the gate of
    ConnState.v holds it back; and theorems about operations of Hub.v that nobody
    disturbs ([alone]): what triggers lead to, what a switch of the active session does to
    relay sessions, whom a relay session is granted to. *)

From Stdlib Require Import Ascii String.
From S2P Require Import Prelude Text Stream Protocol Auth Tunnel Bootstrap ConnState Evidence Threads Hub HubRelay.

Section Trigger.
Context `{GS : !GoStrings, GB : !GoBase64, GU : !GoUuid, R : !Rfc3339, F : !Float64} {M : Type}.
Context `{ED : !Ed25519} `{GJ : !GoJson}.
Local Abbreviation go := (thread (world M) input).

Definition trigger_message (isTeardown : bool) (sessionKey cliIP routeType : string) : agentControlMessage M :=
  Message (if isTeardown then "webrtc_teardown" else "webrtc_bootstrap") sessionKey sessionKey (trim routeType)
    (if isTeardown then "" else cliIP) "" "" None None None "" 0 "" "" "".

(** An operation of the gate. *)
Definition on_gate (f : Z → Gate.gate → Gate.gate) : go unit :=
  atomic (λ i w, (tt, set_fallback (f (i_now i) (fallback w)) w)).

(** The TCP call; the action ends when the call does. *)
Definition tcp_trigger (isTeardown : bool) (dial : result go_error duplex) (seed : list byte) (sessionKey cliIP routeType : string) :
    outcome go_error unit :=
  if isTeardown then (TriggerWebRtcTeardown dial seed {| TeardownBootstrapID := sessionKey |}).1
  else (TriggerWebRtcBootstrap dial seed
          {| BootstrapID := sessionKey; CliPublicIP := cliIP; CliLanCIDR := ""; RouteType := trim routeType |}).1.

(** [target] is what [RobotBootstrapTarget] answers, [dial] what dialling a host at port
    11411 gives.  The result is the error, if any. *)
Definition TriggerBootstrap (target : result go_error string) (dial : string → result go_error duplex) (seed : list byte)
    (robotID : string) (isTeardown : bool) (cliIP bootstrapID routeType : string) : go (option go_error) :=
  sessionKey ← (if bool_decide (trim bootstrapID = "") then uuid_New else mret (trim bootstrapID));
  now ← clock;
  ok ← Send robotID (trigger_message isTeardown sessionKey cliIP routeType);
  if (ok : bool) then
    (if isTeardown then ClearActiveSessionIfMatch robotID sessionKey;; mret tt else mret tt);;
    on_gate (λ clock, Gate.recordSuccess clock robotID isTeardown (Some now));; mret None
  else
  allowed ← atomic (λ i w,
    let '(g, ok) := Gate.allow (i_now i) robotID isTeardown (Some now) (fallback w) in (ok, set_fallback g w));
  if negb allowed then mret None else
  match target with
  | Err e => mret (Some e)
  | Ok targetHost =>
      let targetHost := trim targetHost in
      if bool_decide (targetHost = "") then mret (Some (NewError "robot has no IP for bootstrap trigger")) else
      err ← await (λ _ w,
        match tcp_trigger isTeardown (dial targetHost) seed sessionKey cliIP routeType with
        | Done _ => Some (None, w)
        | Fail e => Some (Some e, w)
        | Pending => None
        end);
      match err with
      | None =>
          (if isTeardown then ClearActiveSessionIfMatch robotID sessionKey;; mret tt else mret tt);;
          on_gate (λ clock, Gate.recordSuccess clock robotID isTeardown (Some now));; mret None
      | Some e => on_gate (λ clock, Gate.recordFailure clock robotID isTeardown (Some now));; mret (Some e)
      end
  end.

(** ** What a trigger leads to *)

Implicit Types (w : world M).

(** The control connection of the robot has the message as the last of its queue. *)
Definition queued (robotID : string) (msg : agentControlMessage M) w w' : Prop :=
  ∃ k c c', conns w !! trim robotID = Some k ∧ objs w !! k = Some c ∧ objs w' !! k = Some c' ∧ c_send c' = c_send c ++ [msg].

Lemma alone_Send i robotID msg w :
  ∃ ok w1, alone i (Send robotID msg) w = Some (ok, w1) ∧ fallback w1 = fallback w ∧ activeSessions w1 = activeSessions w
    ∧ if (ok : bool) then queued robotID msg w w1 else w1 = w.
Proof.
  unfold Send, look. rewrite alone_bind, alone_atomic. destruct (conns w !! trim robotID) as [k|] eqn:Ek; [|by exists false, w].
  rewrite alone_atomic. unfold put_send. destruct (objs w !! k) as [c|] eqn:Ec; [|by exists false, w].
  destruct (_ <? _)%nat; [|by exists false, w]. eexists true, _. split_and!; [done..|]. exists k, c. eexists. split_and!; try done.
  { cbn. by rewrite lookup_alter_eq, Ec. }
  done.
Qed.

(** The end of a trigger that worked: it is recorded, and a teardown ends its session. *)
Lemma alone_success i now robotID td key w :
  trim robotID ≠ "" → key ≠ "" → trim key = key →
  ∃ w1, alone i ((if (td : bool) then ClearActiveSessionIfMatch robotID key;; mret tt else mret tt);;
                 on_gate (λ clock, Gate.recordSuccess clock robotID td (Some now));; mret (@None go_error)) w = Some (None, w1)
    ∧ objs w1 = objs w ∧ sent w1 = sent w ∧ (td = true → active (trim robotID) w1 ≠ key).
Proof.
  intros Hr Hk Ht. destruct td; [unfold ClearActiveSessionIfMatch; rewrite bool_decide_eq_false_2 by done|]; unfold on_gate; alone_steps.
  - rewrite Ht. case_bool_decide as E1; [|destruct (_ && _) eqn:E2]; alone_steps; eexists; (split_and!; [reflexivity..|]); intros _;
      unfold active in *; cbn.
    + by rewrite E1.
    + by apply andb_prop in E2 as [_ E2%bool_decide_eq_true].
    + by rewrite lookup_delete_eq.
  - eexists. by split_and!.
Qed.

Lemma fallbackBackoff_pos n td : 0 < Gate.fallbackBackoff n td.
Proof.
  unfold Gate.fallbackBackoff. destruct (n <=? 0); [by destruct td|]. rewrite Gate.double_upto_min by (by destruct td).
  set (k := Z.of_nat _). assert (0 < 2 ^ k) by (apply Z.pow_pos_nonneg; lia). destruct td; unfold Gate.teardownFailureBackoffMax,
    Gate.teardownFailureBackoffMin, Gate.bootstrapFailureBackoffMax, Gate.bootstrapFailureBackoffMin, Gate.from_millis, from_secs; lia.
Qed.

(** A failure holds back what comes right after it. *)
Lemma failure_holds now r td g :
  trim r ≠ "" → g ≠ None → (Gate.allow now r td (Some now) (Gate.recordFailure now r td (Some now) g)).2 = false.
Proof.
  intros Hr Hg. destruct g as [states|]; [|done]. unfold Gate.allow, Gate.recordFailure. set (k := Gate.gateKey r td).
  assert (Hk : k ≠ ""). { unfold k, Gate.gateKey. rewrite bool_decide_eq_false_2 by done. by destruct td, (trim r). }
  rewrite bool_decide_eq_false_2 by done. cbv zeta. change (Gate.normalizeGateNow now (Some now)) with now.
  set (x := Gate.failed_at now td _). cbn [snd]. unfold Gate.pruneLocked at 1.
  rewrite (map_lookup_filter_Some_2 _ _ _ x); [|by rewrite lookup_insert_eq|].
  - cbn. unfold Gate.may_pass, x, Gate.failed_at. cbn. unfold After. pose proof (fallbackBackoff_pos
      (Gate.consecutiveFailures (default Gate.zero_trigger (Gate.pruneLocked now states !! k)) + 1) td). lia.
  - change (Gate.stale now x = false). rewrite (Gate.stale_spec now now) by done. rewrite Z.sub_diag. done.
Qed.

End Trigger.

(** ** The active session changes *)

Section Switch.
Context `{GS : !GoStrings, GB : !GoBase64, GU : !GoUuid, R : !Rfc3339, F : !Float64} {M : Type}.
Implicit Types (w : world M) (q : relayQueue M) (evs : list (sevent input name (entry (M := M)))).

Definition preempt_message (relayID key : string) : agentControlMessage M :=
  relay_message "relay_close" relayID key 0 "" "attach preempted by newer attach".

(** The message is the last of the queue. *)
Definition told (msg : agentControlMessage M) q q' : Prop :=
  put q' = put q ++ [msg] ∧ last (ch q') = Some msg ∧ got q' = got q.

Definition has_room q : Prop := (0 < ch_cap q ∧ length (ch q) <= ch_cap q)%nat.

Lemma enqueue_told msg now q : (length (ch q) < ch_cap q)%nat → (enqueue msg now q).1 = true ∧ told msg q (enqueue msg now q).2.
Proof.
  intros Hl. unfold enqueue. destruct (Nat.ltb_spec (length (ch q)) (ch_cap q)); [|lia]. split; [done|].
  unfold told. cbn. split_and!; [done|apply last_snoc|done].
Qed.

Lemma enqueue_full msg now q : ¬ (length (ch q) < ch_cap q)%nat → enqueue msg now q = (false, q).
Proof. intros Hl. unfold enqueue. by destruct (Nat.ltb_spec (length (ch q)) (ch_cap q)). Qed.

(** Telling one relay session always works. *)
Lemma close_one i key id reg l w q :
  queues w !! reg_queue reg = Some q → has_room q →
  ∃ q', told (preempt_message id key) q q'
    ∧ alone i (close_stale key ((id, reg) :: l)) w = alone i (close_stale key l) (set_queues (<[reg_queue reg := q']> (queues w)) w).
Proof.
  intros Hq [Hc Hl]. set (msg := preempt_message id key). cbn [close_stale]. cbv zeta. unfold clock.
  change (relay_message "relay_close" id key 0 "" "attach preempted by newer attach") with msg. alone_steps.
  unfold on_queue at 1. rewrite Hq. cbn [fst snd]. destruct (decide (length (ch q) < ch_cap q)%nat) as [Hroom|Hfull].
  - destruct (enqueue_told msg (i_now i) q Hroom) as [-> Ht]. exists (enqueue msg (i_now i) q).2. split; [done|]. by alone_steps.
  - rewrite (enqueue_full msg (i_now i) q Hfull). cbn [fst snd]. alone_steps.
    unfold on_queue at 1. cbn [queues set_queues]. rewrite lookup_insert_eq. cbn [fst snd]. unfold dropOldestQueuedMessage.
    destruct (ch q) as [|m rest] eqn:Ech; [cbn in *; lia|]. cbn [fst snd]. set (q1 := RelayQueue rest _ _ _ _ _). alone_steps.
    unfold on_queue at 1. cbn [queues set_queues]. rewrite lookup_insert_eq. cbn [fst snd].
    assert (Hroom : (length (ch q1) < ch_cap q1)%nat) by (cbn in *; lia).
    destruct (enqueue_told msg (i_now i) q1 Hroom) as [-> Ht]. exists (enqueue msg (i_now i) q1).2. split; [done|]. alone_steps.
    cbn [queues set_queues]. by rewrite !insert_insert_eq.
Qed.

Definition queue_of (x : string * relayRegistration) : nat := reg_queue x.2.

Lemma close_all i key l w :
  NoDup (queue_of <$> l) → (∀ x, x ∈ l → ∃ q, queues w !! queue_of x = Some q ∧ has_room q) →
  ∃ w', alone i (close_stale key l) w = Some (tt, w') ∧ activeSessions w' = activeSessions w ∧ relays w' = relays w
    ∧ (∀ n, ¬ (n ∈ queue_of <$> l) → queues w' !! n = queues w !! n)
    ∧ (∀ x, x ∈ l → ∃ q q', queues w !! queue_of x = Some q ∧ queues w' !! queue_of x = Some q' ∧ told (preempt_message x.1 key) q q').
Proof.
  revert w. induction l as [|[id reg] l IH]; intros w Hnd Hq.
  { exists w. split_and!; try done. by intros x ?%not_elem_of_nil. }
  apply NoDup_cons in Hnd as [Hn Hnd]. destruct (Hq (id, reg)) as (q & Hq1 & Hr); [by left|].
  destruct (close_one i key id reg l w q Hq1 Hr) as (q' & Ht & ->). set (w1 := set_queues _ w).
  assert (Hw1 : ∀ n, n ≠ reg_queue reg → queues w1 !! n = queues w !! n) by (intros n ?; cbn; by rewrite lookup_insert_ne).
  assert (Hne : ∀ x, x ∈ l → queue_of x ≠ reg_queue reg).
  { intros x Hx E. apply Hn. change (queue_of (id, reg)) with (reg_queue reg). rewrite <-E. by apply list_elem_of_fmap_2. }
  destruct (IH w1 Hnd) as (w' & E & Ea & Er & Ho & Hi).
  { intros x Hx. rewrite Hw1 by auto. apply Hq. by right. }
  exists w'. split_and!; try done.
  - intros n Hn'. rewrite fmap_cons, not_elem_of_cons in Hn'. destruct Hn' as [? ?]. rewrite Ho by done. by apply Hw1.
  - intros x [->|Hx]%elem_of_cons.
    + exists q, q'. split_and!; [done| |done]. rewrite Ho by done. apply lookup_insert_eq.
    + destruct (Hi x Hx) as (q1 & q1' & ? & ? & ?). exists q1, q1'. split_and!; try done. rewrite <-Hw1; auto.
Qed.

(** Registrations of a hub that runs lead to queues of their own. *)
Lemma registered_queue evs w id reg :
  down_ok evs w → relays w !! id = Some reg → ∃ q, queues w !! reg_queue reg = Some q ∧ has_room q.
Proof.
  intros Hok Hr. destruct (do_reg _ _ Hok _ _ Hr) as (x & Hx & _). destruct (do_queue _ _ Hok _ _ Hx) as (q & Hq & Hqo & _).
  exists q. split; [done|]. unfold has_room. rewrite (qo_cap _ _ _ Hqo). pose proof (qo_room _ _ _ Hqo). lia.
Qed.

Lemma queue_of_inj evs w x y :
  down_ok evs w → x ∈ map_to_list (relays w) → y ∈ map_to_list (relays w) → queue_of x = queue_of y → x = y.
Proof.
  destruct x as [id reg], y as [id' reg']. intros Hok Hx%elem_of_map_to_list Hy%elem_of_map_to_list E. cbn in E.
  destruct (do_reg _ _ Hok _ _ Hx) as (u & Hu & Hi & _). destruct (do_reg _ _ Hok _ _ Hy) as (u' & Hu' & Hi' & _).
  assert (id = id') as -> by (unfold queue_of in E; cbn in E; congruence). congruence.
Qed.

(** A newer session pushes the older ones out.  In any state the hub reaches, and
    whatever the order in which the table is visited: [SetActiveSession], undisturbed,
    ends with the session active for the robot and for no other; if it was not before,
    every relay session of the robot that belongs to another session is told to close, as
    the last message of its queue, full or not; no other relay session is touched. *)
Theorem session_switch evs s i robotID key :
  sys_run code startable evs (System (NewAgentControlHub (M := M)) ∅) = Some s →
  i_range i (relays (shared s)) ≡ₚ map_to_list (relays (shared s)) → trim robotID ≠ "" → trim key ≠ "" →
  ∃ w', alone i (SetActiveSession robotID key) (shared s) = Some (tt, w')
    ∧ (∀ r, active r w' = if bool_decide (r = trim robotID) then trim key else active r (shared s))
    ∧ ∀ id reg, relays (shared s) !! id = Some reg →
        ∃ q q', queues (shared s) !! reg_queue reg = Some q ∧ queues w' !! reg_queue reg = Some q'
          ∧ if bool_decide (active (trim robotID) (shared s) ≠ trim key) && is_stale (trim robotID) (trim key) reg
            then told (preempt_message id (trim key)) q q' else q' = q.
Proof.
  intros Hrun Hperm Hr Hk. destruct (run_safe _ _ _ _ _ _ _ (down_start_safe evs) (down_start evs) Hrun) as [Hok _].
  set (w := shared s) in *. set (w1 := set_activeSessions (<[trim robotID := trim key]> (activeSessions w)) w).
  assert (Hact : ∀ r, active r w1 = if bool_decide (r = trim robotID) then trim key else active r w).
  { intros r. unfold active. cbn [w1 set_activeSessions activeSessions]. rewrite lookup_insert.
    case_decide; case_bool_decide; subst; try done. exact (trim_idemp key). }
  unfold SetActiveSession. cbv zeta. rewrite !bool_decide_eq_false_2 by done. cbn [orb]. alone_steps. fold w1.
  case_bool_decide as Ech; cbn [andb]; alone_steps.
  2:{ exists w1. split_and!; [done..|]. intros id reg Hreg. destruct (registered_queue _ _ _ _ Hok Hreg) as (q & ? & _). by exists q, q. }
  unfold preemptRelaysForSession. cbv zeta. rewrite !trim_idemp. rewrite !bool_decide_eq_false_2 by done. cbn [orb]. alone_steps.
  change (relays w1) with (relays w). rewrite decide_True by done. alone_steps.
  set (stale := filter _ (i_range i (relays w))).
  assert (Hin : ∀ x, x ∈ stale ↔ is_stale (trim robotID) (trim key) x.2 = true ∧ x ∈ map_to_list (relays w)).
  { intros x. unfold stale. by rewrite list_elem_of_filter, Hperm. }
  destruct (close_all i (trim key) stale w1) as (w' & E & Ea & _ & Ho & Hi).
  { apply NoDup_fmap_2_strong.
    - intros x y [_ Hx]%Hin [_ Hy]%Hin. by eapply queue_of_inj.
    - apply NoDup_filter. rewrite Hperm. apply NoDup_map_to_list. }
  { intros [id reg] [_ Hx%elem_of_map_to_list]%Hin. exact (registered_queue evs w id reg Hok Hx). }
  rewrite E. exists w'. split_and!; [done| |].
  { intros r. unfold active in *. rewrite Ea. apply Hact. }
  intros id reg Hreg. destruct (is_stale (trim robotID) (trim key) reg) eqn:Est.
  - destruct (Hi (id, reg)) as (q & q' & ? & ? & ?); [apply Hin; split; [done|by apply elem_of_map_to_list]|]. by exists q, q'.
  - destruct (registered_queue _ _ _ _ Hok Hreg) as (q & Hq & _). exists q, q. split_and!; try done. rewrite Ho; [done|].
    intros ([id' reg'] & Eq & [Hs Hx]%Hin)%list_elem_of_fmap.
    assert (Exy : (id, reg) = (id', reg')) by (eapply queue_of_inj; [done|by apply elem_of_map_to_list|done|done]).
    cbn in Hs. congruence.
Qed.

(** ** Whom a relay session is granted to *)

Definition same_active w w' : Prop := activeSessions w' = activeSessions w.
#[export] Instance same_active_preorder : PreOrder same_active.
Proof. split; [done|]. unfold same_active. intros w1 w2 w3 H1 H2. by rewrite H2. Qed.

Lemma active_close_stale key stale : within same_active (close_stale (M := M) key stale).
Proof.
  induction stale as [|[id reg] stale IH]; cbn [close_stale]; [done|]. hub_threads. repeat (within_step; try exact IH).
  all: by hub_prim.
Qed.

Lemma SetActiveSession_active i robotID key w w' :
  trim robotID ≠ "" → trim key ≠ "" → alone i (SetActiveSession robotID key) w = Some (tt, w') → active (trim robotID) w' = trim key.
Proof.
  intros Hr Hk. unfold SetActiveSession. cbv zeta. rewrite !bool_decide_eq_false_2 by done. cbn [orb]. alone_steps.
  set (w1 := set_activeSessions _ w). assert (H1 : active (trim robotID) w1 = trim key).
  { unfold active. cbn [w1 set_activeSessions activeSessions]. rewrite lookup_insert_eq. exact (trim_idemp key). }
  case_bool_decide; [|by intros [= <-]].
  intros E. assert (same_active w1 w') as Es.
  { refine (alone_within same_active i _ w1 tt w' _ E). clear. hub_threads. repeat (within_step || apply active_close_stale). by hub_prim. }
  unfold active in *. by rewrite Es.
Qed.

(** [s] is an attempt known under [key], of this robot and, where both are named, of
    this user. *)
Definition attempt_for (robotID userID key : string) w (s : BootstrapSession) : Prop :=
  SessionSnapshot key (sessions w) = Some s ∧ EqualFold (trim (s_RobotID s)) robotID = true
  ∧ (trim userID = "" ∨ trim (UserID s) = "" ∨ EqualFold (trim (UserID s)) (trim userID) = true).

Lemma alone_snapshot i key robotID userID w :
  trim robotID ≠ "" → trim key ≠ "" → ∃ x, alone i (attachSessionSnapshot key robotID userID) w = Some (x, w)
    ∧ ∀ s, x = Some s ↔ attempt_for (trim robotID) userID (trim key) w s.
Proof.
  intros Hr Hk. unfold attachSessionSnapshot, attempt_for. cbv zeta. rewrite !bool_decide_eq_false_2 by done. cbn [orb]. unfold look.
  alone_steps. eexists. split; [done|]. intros s.
  destruct (SessionSnapshot _ _) as [s'|]; cbn [mbind option_bind]; [|split; [done|by intros [? _]]]. split.
  - destruct (EqualFold (trim (s_RobotID s')) _) eqn:E1; cbn [negb]; [|done]. destruct (_ && _) eqn:E2; [done|]. intros [= ->].
    split_and!; [done..|]. apply andb_false_iff in E2 as [[E2%bool_decide_eq_false|E2%bool_decide_eq_false]%andb_false_iff|E2%negb_false_iff]; auto.
    + left. by destruct (decide (trim userID = "")).
    + right; left. by destruct (decide (trim (UserID s) = "")).
  - intros ([= ->] & -> & H). cbn [negb]. destruct (_ && _) eqn:E2; [|done].
    apply andb_prop in E2 as [[E2%bool_decide_eq_true E3%bool_decide_eq_true]%andb_prop E4%negb_true_iff].
    destruct H as [?|[?|?]]; congruence.
Qed.

(** The attempt of [key] is younger than that of [old]. *)
Definition younger (robotID userID key old : string) w : Prop :=
  ∃ s, attempt_for robotID userID key w s
    ∧ ∀ s', attempt_for robotID userID old w s' →
        ∃ t t', attachSessionRefTime s = Some t ∧ attachSessionRefTime s' = Some t' ∧ t' < t.

Lemma alone_promote i old key robotID userID w :
  trim robotID ≠ "" → trim key ≠ "" → trim old ≠ "" →
  ∃ b, alone i (shouldPromoteAttachSession old key robotID userID) w = Some (b, w)
    ∧ (b = true ↔ younger (trim robotID) userID (trim key) (trim old) w).
Proof.
  intros Hr Hk Ho. unfold shouldPromoteAttachSession. alone_steps.
  destruct (alone_snapshot i key robotID userID w Hr Hk) as (x & -> & Hx). destruct x as [s|]; alone_steps.
  2:{ exists false. split; [done|]. split; [done|]. intros (s & Hs & _). by apply Hx in Hs. }
  destruct (alone_snapshot i old robotID userID w Hr Ho) as (y & -> & Hy). destruct y as [s'|]; alone_steps.
  - eexists. split; [done|]. pose proof (proj1 (Hx s) eq_refl) as Hs. pose proof (proj1 (Hy s') eq_refl) as Hs'. split.
    + intros E. exists s. split; [done|]. intros s2 Hs2. apply Hy in Hs2 as [= <-].
      destruct (attachSessionRefTime s), (attachSessionRefTime s'); try done. unfold After in E. eexists _, _. split_and!; [done..|lia].
    + intros (s1 & Hs1 & Hl). apply Hx in Hs1 as [= <-]. destruct (Hl s' Hs') as (t & t' & -> & -> & ?). unfold After. lia.
  - exists true. split; [done|]. split; [|done]. intros _. exists s. split; [by apply Hx|]. intros s' Hs'. by apply Hy in Hs'.
Qed.

(** When a user may have a session with the port of a robot under a key. *)
Definition may_relay (rq : user_request) (robot key : string) (port : Z) w : Prop :=
  ∃ userID, ur_user rq = Ok userID ∧ robot ≠ "" ∧ trim (ur_port rq) ≠ "" ∧ Atoi (trim (ur_port rq)) = Some port ∧ 1 ≤ port ≤ 65535
    ∧ ur_owned rq robot userID = Ok true ∧ HasRelayConnection robot w = true ∧ key ≠ ""
    ∧ (active robot w = "" ∨ EqualFold (active robot w) key = true
       ∨ younger robot userID key (active robot w) w ∧ ∀ s, attempt_for robot userID key w s → SessionID s ≠ "").

End Switch.
