(* ===== verification/HubDemo.v ===== *)
(** * A day at the hub: witnesses for Hub*.v

    The interfaces instantiated, runs of the hub in which agents connect, a command is
    answered, a user's relay session carries data both ways and is pushed out by a newer
    session, and the theorems at these runs. *)

From Stdlib Require Import Ascii String.
From S2P Require Import Prelude Text Stream Protocol Auth Tunnel Bootstrap Resolver ConnState Evidence Threads.
From S2P Require Import Hub HubControl HubRelay HubSession.

Definition toy_go_strings : GoStrings.
Proof.
  refine {| EqualFold := eq_ignore_ascii_case; ToLower := to_ascii_lowercase |}; unfold eq_ignore_ascii_case.
  - intros s. by apply bool_decide_eq_true_2.
  - intros s t. by apply bool_decide_ext.
  - intros s t u H1%bool_decide_eq_true H2%bool_decide_eq_true. apply bool_decide_eq_true_2. congruence.
  - done.
Defined.
Definition toy_go_base64 : GoBase64.
Proof.
  refine {| EncodeToString := hex_encode; DecodeString s := result_ok (toy_hex_decode s) |}.
  - intros bs. by rewrite toy_hex_roundtrip.
  - intros bs. eapply string_forallb_impl; [|apply hex_encode_lower]. intros a.
    unfold is_lower_hex, is_ascii_digit, is_visible, in_range. lia.
Defined.
Definition toy_go_uuid : GoUuid := {| uuid_Parse s := (4 <=? str_len s) |}.

#[local] Existing Instance toy_go_strings.
#[local] Existing Instance toy_go_base64.
#[local] Existing Instance toy_go_uuid.
#[local] Existing Instance toy_rfc3339.
#[local] Existing Instance toy_float64.

Abbreviation hub_event := (sevent input name (entry (M := Z))).
Abbreviation hub_system := (system (world Z) input name).

Abbreviation hub_script := (list (item input name (entry (M := Z)))).
Definition begin (e : entry (M := Z)) (i : input) : item input name (entry (M := Z)) := Begin e i 100.
Definition go_on (g : name) (i : input) : item input name (entry (M := Z)) := GoOn g i 100.

Definition new_system : hub_system := System NewAgentControlHub ∅.
Definition result_of (script : hub_script) : option hub_system :=
  sys_run code startable (play code startable script new_system) new_system.

Definition at_time (t : Z) (id : string) : input := Input (from_secs t) id 0 None map_to_list.
Definition agent (robot ip : string) : agent_request :=
  AgentRequest robot "" "key" "" ip (λ _ _, Ok (Some {| auth_ID := robot; auth_LocalIP := None |})) true.
Definition answer_to (id : string) (response : Z) : agentControlMessage Z :=
  Message "command_response" "" "" "" "" "" id None None (Some response) "" 0 "" "" "".

(** Two agents of one robot, a command, its answer, and a second answer. *)
Definition command_script : hub_script :=
  [ begin (ConnectsControl 0 "" (agent "robot_1" "10.0.0.1")) (at_time 1 "s0");
    begin (ConnectsControl 1 "reject_new" (agent " robot_1" "10.0.0.2")) (at_time 2 "s1");
    begin (SendsCommand 0 "robot_1" (Some 7) 0) (at_time 3 "req0");
    begin (Writes 0 ControlPlane "robot_1") (at_time 4 "");
    begin (Reads 0 ControlPlane "robot_1" (ReadText (Some (answer_to "req0" 42)))) (at_time 5 "");
    begin (Reads 0 ControlPlane "robot_1" (ReadText (Some (answer_to "req0" 43)))) (at_time 5 "");
    go_on (GCall 0) (at_time 6 "") ].

Definition command_evs : list hub_event := play code startable command_script new_system.

Definition call_is (s : option hub_system) (n : nat) (r : option Z) : bool :=
  match s with
  | Some s => match calls (shared s) !! n with Some c => bool_decide (call_result c = Some (Ok r)) | None => false end
  | None => false
  end.

Definition reads (s : option hub_system) (k : nat) : bool :=
  match s with Some s => match objs (shared s) !! k with Some c => c_reader c | None => false end | None => false end.

Abbreviation checked evs := (run_checked code startable evs new_system).

Lemma command_answers_witness :
  ∃ s c, sys_run code startable command_evs new_system = Some s ∧ calls (shared s) !! 0%nat = Some c
    ∧ call_result c = Some (Ok (Some 42)) ∧ was_read command_evs (call_id c) (Some 42).
Proof.
  destruct (checked command_evs (λ s, call_is (Some s) 0 (Some 42))) as (s & Hrun & Hc); [vm_compute; reflexivity|].
  destruct (command_answers command_evs s Hrun) as (H & _). unfold call_is in Hc.
  destruct (calls (shared s) !! 0%nat) as [c|] eqn:Ec; [|discriminate Hc]. apply bool_decide_eq_true in Hc.
  exists s, c. split; [exact Hrun|]. split; [exact Ec|]. split; [exact Hc|]. exact (H _ _ _ Ec Hc).
Defined.

Lemma control_exclusive_witness :
  ∃ s c, sys_run code startable command_evs new_system = Some s ∧ objs (shared s) !! 0%nat = Some c ∧ c_reader c = true
    ∧ conns (shared s) !! c_robot c = Some 0%nat ∧ reads (Some s) 1 = false.
Proof.
  destruct (checked command_evs (λ s, reads (Some s) 0 && negb (reads (Some s) 1)
    && match objs (shared s) !! 0%nat with Some c => match c_kind c with ControlPlane => true | DataPlane => false end | None => false end))
    as (s & Hrun & [[Hr Hn%negb_true_iff]%andb_prop Hk]%andb_prop); [vm_compute; reflexivity|].
  destruct (control_exclusive command_evs s) as (H & _); [|exact Hrun|].
  - assert (Hall : forallb (λ e, match e with
      | Start (ConnectsControl _ raw _) =>
          bool_decide (currentAgentControlConcurrencyPolicy raw = agentControlConcurrencyPolicyRejectNew)
      | _ => true end) command_evs = true) by (vm_compute; reflexivity).
    intros k raw rq Hin. apply forallb_forall with (x := Start (ConnectsControl k raw rq)) in Hall.
    + by apply bool_decide_eq_true in Hall.
    + by apply list_elem_of_In.
  - unfold reads in Hr. destruct (objs (shared s) !! 0%nat) as [c|] eqn:Ec; [|discriminate Hr]. exists s, c.
    split; [exact Hrun|]. split; [exact Ec|]. split; [exact Hr|]. split; [|exact Hn].
    apply (H _ _ Ec); [by destruct (c_kind c)|exact Hr].
Defined.

(** ** A relay session *)

Definition relay_info : relayInfo := RelayInfo "robot_1" 8080 "sess_a" "relay0" 6.
Definition user_rq (session : string) : user_request :=
  UserRequest (Ok "user_a") "robot_1" "8080" session (λ _ _, Ok true) true "".
Definition from_agent (ty data status : string) : entry (M := Z) :=
  Reads 0 DataPlane "robot_1" (ReadText (Some (Message ty "" "sess_a" "" "" "" "" None None None "relay0" 0 data status ""))).

Definition relay_script : hub_script :=
  [ begin (ConnectsRelay 0 (agent "robot_1" "10.0.0.1")) (at_time 1 "s0");
    begin (Activates 0 "robot_1" "sess_a") (at_time 2 "");
    begin (ConnectsUser 0 (user_rq "")) (at_time 3 "relay0");
    begin (Writes 0 DataPlane "robot_1") (at_time 4 "");
    begin (from_agent "relay_data" "0a0b" "") (at_time 5 "");
    begin (from_agent "relay_open_ack" "" "OK") (at_time 5 "");
    begin (Opens 0 relay_info) (at_time 6 "");
    begin (Opens 0 relay_info) (at_time 6 "");
    begin (UserReads 0 relay_info (UserData [x01; x02])) (at_time 7 "");
    begin (UserReads 0 relay_info (UserData [x03])) (at_time 7 "");
    begin (Writes 0 DataPlane "robot_1") (at_time 8 "");
    begin (from_agent "relay_data" "0c" "") (at_time 9 "");
    begin (Relays 0 relay_info) (at_time 9 "");
    begin (Activates 1 "robot_1" "sess_b") (at_time 10 "") ].
Definition relay_evs : list hub_event := play code startable relay_script new_system.

Definition relay_check (s : hub_system) : bool :=
  match users (shared s) !! 0%nat, objs (shared s) !! 0%nat with
  | Some x, Some c =>
      bool_decide (omap frame_data (rm_out (u_main x)) = [[x0a; x0b]; [x0c]])
      && bool_decide (rr_read (u_up x) = [[x01; x02]; [x03]]) && rr_alive (u_up x) && negb (rr_sending (u_up x))
      && bool_decide (m_type <$> c_written c = ["relay_open"; "relay_data"]) && bool_decide (m_type <$> c_send c = ["relay_data"])
      && bool_decide (u_info x = relay_info)
  | _, _ => false
  end.


Lemma relay_upstream_witness :
  ∃ s x, sys_run code startable relay_evs new_system = Some s ∧ users (shared s) !! 0%nat = Some x
    ∧ rr_read (u_up x) = [[x01; x02]; [x03]] ∧ data_sent (ri_id (u_info x)) (shared s) = ["0102"; "03"].
Proof.
  destruct (checked relay_evs relay_check) as (s & Hrun & Hc); [vm_compute; reflexivity|]. unfold relay_check in Hc.
  destruct (users (shared s) !! 0%nat) as [x|] eqn:Hx; [|discriminate Hc].
  destruct (relay_upstream relay_evs s 0 x Hrun Hx) as [(rest & Hr & _ & Hl) _]. exists s, x.
  destruct (objs (shared s) !! 0%nat); [|discriminate Hc].
  do 3 (apply andb_prop in Hc as [Hc _]). apply andb_prop in Hc as [Hc Hn%negb_true_iff]. apply andb_prop in Hc as [Hc Ha].
  apply andb_prop in Hc as [_ Hc%bool_decide_eq_true]. rewrite (Hl Ha Hn), app_nil_r in Hr.
  split; [exact Hrun|]. split; [exact Hx|]. split; [exact Hc|]. rewrite <-Hr, Hc. vm_compute. reflexivity.
Defined.

Lemma session_switch_witness :
  ∃ s w', sys_run code startable relay_evs new_system = Some s
    ∧ alone (at_time 11 "") (SetActiveSession "robot_1 " "sess_c") (shared s) = Some (tt, w') ∧ active "robot_1" w' = "sess_c".
Proof.
  destruct (checked relay_evs (λ _, true)) as (s & Hrun & _); [vm_compute; reflexivity|].
  destruct (session_switch relay_evs s (at_time 11 "") "robot_1 " "sess_c" Hrun) as (w' & E & Ha & _);
    [reflexivity|vm_compute; discriminate..|].
  exists s, w'. split; [exact Hrun|]. split; [exact E|]. rewrite Ha. vm_compute. reflexivity.
Defined.


(** ** Triggers *)

#[local] Existing Instance toy_ed25519.
#[local] Existing Instance toy_go_json.

Definition unreachable_trigger : thread (world Z) input (option go_error) :=
  TriggerBootstrap (Ok "10.0.0.9") (λ _, Err ErrDeadline) toy_seed "robot_1" false "203.0.113.7" "boot_1" "direct".


(** ** Observations *)

(** The table is keyed by the text of the robot's UUID, which has several spellings:
    under the policy that rejects a second control connection, two connections of one
    robot are read at the same time if they spell it differently. *)
Example control_spelling :
  let spell k r := begin (ConnectsControl k "reject_new" (agent r "10.0.0.1")) (at_time 1 ("s" +:+ decimal (Z.of_nat k))) in
  let s := result_of [spell 0%nat "0b7d2c6e-0000-4000-8000-000000000001"; spell 1%nat "0B7D2C6E-0000-4000-8000-000000000001"] in
  reads s 0 = true ∧ reads s 1 = true.
Proof. vm_compute. split; reflexivity. Qed.

(** A writer notes the activity after the write: if the connection ends in between, the
    platform's table says that the robot's control connection is up although there is
    none, until the time limits of the liveness rule are over. *)
Example late_touch :
  let s := result_of
    [ begin (ConnectsControl 0 "" (agent "robot_1" "10.0.0.1")) (at_time 1 "s0");
      begin (SendsCommand 0 "robot_1" (Some 7) 0) (at_time 2 "req0");
      Begin (Writes 0 ControlPlane "robot_1") (at_time 3 "") 1;
      begin (Reads 0 ControlPlane "robot_1" (ReadError (WsError false false None "EOF"))) (at_time 4 "");
      go_on (GWriter 0) (at_time 5 "") ] in
  (λ s, (conns (shared s) !! "robot_1", Connstate.ControlConnected (Connstate.Snapshot "robot_1" (Connstate.run (noted (shared s)) ∅)).1))
    <$> s = Some (None, true).
Proof. vm_compute. reflexivity. Qed.
