(* ===== verification/Signal.v ===== *)
(** * Signalling between robots and clients (go/webrtc/session.go and signaling.go)

    Before a client talks to a robot directly, the two exchange offers, answers and
    candidates through the platform.  Each robot has a session with a place for its agent
    and one for a client; a newcomer takes the place of its predecessor unless it comes
    too soon; what one side sends is put in the queue of the other.  A client that comes
    or goes has the platform trigger the robot.

    Each connection has a goroutine for its handler and reader and one for its writer;
    triggers are goroutines of their own.  A step is what one of them does under a lock
    or on a channel (Threads.v).  A session is an object that a handler keeps after it
    has gone from the registry.  Log lines are left out. *)

From Stdlib Require Import Ascii String.
From S2P Require Import Prelude Text ConnState Evidence Threads Hub.

(** ** Messages, peers and sessions *)

(** The payload is a value of any type [M] that is only passed on. *)
Record SignalMessage (M : Type) : Type := Signal {
  sig_Type : string;
  sig_Payload : option M;
  sig_RobotID : string;
  sig_BootstrapID : string;
}.
Arguments Signal {M} _ _ _ _.
Arguments sig_Type {M} _.
Arguments sig_Payload {M} _.
Arguments sig_RobotID {M} _.
Arguments sig_BootstrapID {M} _.

Inductive role : Type := RoleAgent | RoleClient.
#[export] Instance role_eq_dec : EqDecision role.
Proof. solve_decision. Defined.
Definition other_role (r : role) : role := match r with RoleAgent => RoleClient | RoleClient => RoleAgent end.

(** What the handler of a connection knows once it has its session (by number). *)
Record peerInfo : Type := PeerInfo {
  pi_role : role;
  pi_robot : string;
  pi_session : nat;
  connectedAt : Z;
  observedSrcIP : string;
  bootstrapID : string;
  routeType : string;
}.
#[export] Instance peerInfo_eq_dec : EqDecision peerInfo.
Proof. solve_decision. Defined.

(** How far the handler is: it has its session; it was turned away; it has its place
    there; its reader and writer run; it has left, as the one in its place or not. *)
Inductive stage : Type := Entering | Refused | Joining | Serving | Gone (wasCurrent : bool).
#[export] Instance stage_eq_dec : EqDecision stage.
Proof. solve_decision. Defined.

(** A connection.  [p_prev]: the one it replaces; [p_reading], [p_writer]: whether its
    reader and writer run; [p_read]: what the reader has read; [p_put]: what was put in
    its queue, with the connection it came from, or none for what the platform says
    itself; [p_written]: what went out. *)
Record PeerConn (M : Type) : Type := Peer {
  p_info : peerInfo;
  p_send : list (SignalMessage M);
  p_done : bool;
  p_stage : stage;
  p_prev : option nat;
  p_reading : bool;
  p_writer : running;
  p_read : list (SignalMessage M);
  p_put : list (option nat * SignalMessage M);
  p_written : list (SignalMessage M);
}.
Arguments Peer {M} _ _ _ _ _ _ _ _ _ _.
Arguments p_info {M} _.
Arguments p_send {M} _.
Arguments p_done {M} _.
Arguments p_stage {M} _.
Arguments p_prev {M} _.
Arguments p_reading {M} _.
Arguments p_writer {M} _.
Arguments p_read {M} _.
Arguments p_put {M} _.
Arguments p_written {M} _.

(** [s_for]: the robot the session was made for. *)
Record Session : Type := MkSession {
  s_for : string;
  s_agent : option nat;
  s_client : option nat;
}.
Definition place (r : role) (s : Session) : option nat := match r with RoleAgent => s_agent s | RoleClient => s_client s end.
Definition set_place (r : role) (x : option nat) (s : Session) : Session :=
  match r with RoleAgent => MkSession (s_for s) x (s_client s) | RoleClient => MkSession (s_for s) (s_agent s) x end.

(** The calls of a [BootstrapTrigger] and of a [SessionActivator]; [a_peer]: the
    connection whose handler makes them. *)
Inductive ask : Type :=
| Activate (a_peer : nat) (robotID bootstrapID : string)
| Trigger (a_peer : nat) (robotID : string) (isTeardown : bool) (cliIP bootstrapID routeType : string).
#[export] Instance ask_eq_dec : EqDecision ask.
Proof. solve_decision. Defined.
Definition a_peer (a : ask) : nat := match a with Activate k _ _ | Trigger k _ _ _ _ _ => k end.

(** The registry, all sessions and connections ever made.  [asks]: what handlers have
    asked of the platform, in order, each with whether the call has been made: a
    trigger is called by a goroutine of its own; [made]: the calls in the order in
    which they were made. *)
Record exchange (M : Type) : Type := Exchange {
  registry : gmap string nat;
  sigs : gmap nat Session;
  peers : gmap nat (PeerConn M);
  asks : list (ask * bool);
  made : list ask;
}.
Arguments Exchange {M} _ _ _ _ _.
Arguments registry {M} _.
Arguments sigs {M} _.
Arguments peers {M} _.
Arguments asks {M} _.
Arguments made {M} _.

(** What the surroundings decide for one action: the clock, a new UUID, the branch a
    select takes, whether a write works. *)
Record sig_input : Type := SigInput {
  si_now : Z;
  si_uuid : string;
  si_branch : nat;
  si_written : bool;
}.

Section Signal.
Context `{GS : !GoStrings, GU : !GoUuid} {M : Type}.
Implicit Types (w : exchange M) (msg : SignalMessage M) (p : PeerConn M) (k : nat) (info : peerInfo).
Local Abbreviation go := (thread (exchange M) sig_input).

Definition set_registry x w : exchange M := Exchange x (sigs w) (peers w) (asks w) (made w).
Definition set_sigs x w : exchange M := Exchange (registry w) x (peers w) (asks w) (made w).
Definition set_peers x w : exchange M := Exchange (registry w) (sigs w) x (asks w) (made w).
Definition set_asks x y w : exchange M := Exchange (registry w) (sigs w) (peers w) x y.
Definition on_peer k (f : PeerConn M → PeerConn M) w : exchange M := set_peers (alter f k (peers w)) w.

(** ** session.go *)

Definition peer_done p : PeerConn M :=
  Peer (p_info p) (p_send p) true (p_stage p) (p_prev p) (p_reading p) (p_writer p) (p_read p) (p_put p) (p_written p).
Definition closeDone (x : option nat) : go unit :=
  match x with Some k => change (on_peer k peer_done) | None => mret tt end.

(** A message is put in the queue if there is room for it. *)
Definition peer_put (from : option nat) msg p : PeerConn M :=
  Peer (p_info p) (p_send p ++ [msg]) (p_done p) (p_stage p) (p_prev p) (p_reading p) (p_writer p) (p_read p)
    (p_put p ++ [(from, msg)]) (p_written p).
Definition try_put (from : option nat) k msg w : bool * exchange M :=
  match peers w !! k with
  | Some p => if (length (p_send p) <? 32)%nat then (true, on_peer k (peer_put from msg) w) else (false, w)
  | None => (false, w)
  end.

Definition relay_signal (from : option nat) (session : nat) msg (toAgent : bool) w : bool * exchange M :=
  match sigs w !! session with
  | Some s =>
      match (if toAgent then s_agent s else s_client s) with
      | Some dest => try_put from dest msg w
      | None => (false, w)
      end
  | None => (false, w)
  end.

(** A session that is made by the handler of connection [k] has its number. *)
Definition GetOrCreate k (robotID : string) w : nat * exchange M :=
  match registry w !! robotID with
  | Some s => (s, w)
  | None => (k, set_registry (<[robotID := k]> (registry w)) (set_sigs (<[k := MkSession robotID None None]> (sigs w)) w))
  end.

Definition Remove (robotID : string) w : exchange M := set_registry (delete robotID (registry w)) w.

(** ** Who may signal *)

(** The request: its parameters, the address it comes from, the answers of the
    [Authenticator], and whether the upgrade works. *)
Record signal_request : Type := SignalRequest {
  sr_robot : string;
  sr_role : string;
  sr_header : string;
  sr_query : string;
  sr_verify : string → string → result unit bool;
  sr_authorize : string → result (Z * string) unit;
  sr_upgrade : bool;
  sr_bootstrap : string;
  sr_route : string;
  sr_ip : string;
}.

Definition admit_peer (rq : signal_request) : result (Z * string) (string * role) :=
  let robotID := trim (sr_robot rq) in
  let role := trim (sr_role rq) in
  if bool_decide (robotID = "") then Err (400, "robot_id required")
  else if negb (uuid_Parse robotID) then Err (400, "robot_id must be a valid UUID")
  else if negb (bool_decide (role = "agent")) && negb (bool_decide (role = "client"))
  then Err (400, "role must be agent or client")
  else if bool_decide (role = "agent") then
    let apiKey := if bool_decide (trim (sr_header rq) = "") then trim (sr_query rq) else trim (sr_header rq) in
    if bool_decide (apiKey = "") then Err (401, "api_key required for agent signaling")
    else match sr_verify rq robotID apiKey with
         | Err _ => Err (500, "auth lookup failed")
         | Ok false => Err (401, "invalid robot credentials")
         | Ok true => Ok (robotID, RoleAgent)
         end
  else match sr_authorize rq robotID with Err e => Err e | Ok _ => Ok (robotID, RoleClient) end.

(** ** Taking the place of another *)

(** A connection has its time from the clock, which is never the zero time. *)
Definition shouldDebouncePeerReplacement (existing : option peerInfo) (incoming : peerInfo) (window : Z) : bool :=
  match existing with
  | None => false
  | Some existing =>
      if window <=? 0 then false
      else if Sub (connectedAt incoming) (connectedAt existing) >? window then false
      else
        let existingIP := trim (observedSrcIP existing) in
        let incomingIP := trim (observedSrcIP incoming) in
        if negb (bool_decide (existingIP = "")) && negb (bool_decide (incomingIP = "")) && EqualFold existingIP incomingIP
        then true else
        let existingBootstrap := trim (bootstrapID existing) in
        let incomingBootstrap := trim (bootstrapID incoming) in
        negb (bool_decide (existingBootstrap = "")) && negb (bool_decide (incomingBootstrap = ""))
        && EqualFold existingBootstrap incomingBootstrap
  end.

(** [raw]: the value of ROBOTUNNEL_WEBRTC_PREEMPT_DEBOUNCE_MS, blank if not set. *)
Definition parseWebRTCEnvIntDefault (raw : string) (fallback minValue maxValue : Z) : Z :=
  let raw := trim raw in
  if bool_decide (raw = "") then fallback else
  match Atoi raw with
  | None => fallback
  | Some v => if v <? minValue then minValue else if v >? maxValue then maxValue else v
  end.
Definition webrtcPreemptDebounceWindow (raw : string) : Z := parseWebRTCEnvIntDefault raw 3000 0 60000 * 1000000.

Definition peer_stage (st : stage) (prev : option nat) p : PeerConn M :=
  Peer (p_info p) (p_send p) (p_done p) st prev (p_reading p) (p_writer p) (p_read p) (p_put p) (p_written p).

Inductive joined : Type := Debounced | Took (prev counterpart : option nat).

(** Under the lock of the session. *)
Definition join k info (window : Z) w : joined * exchange M :=
  match sigs w !! pi_session info with
  | Some s =>
      let prev := place (pi_role info) s in
      if shouldDebouncePeerReplacement (p_info <$> (prev ≫= (peers w !!.))) info window
      then (Debounced, on_peer k (peer_stage Refused None) w)
      else (Took prev (place (other_role (pi_role info)) s),
            on_peer k (peer_stage Joining prev)
              (set_sigs (<[pi_session info := set_place (pi_role info) (Some k) s]> (sigs w)) w))
  | None => (Debounced, w)
  end.

Record left : Type := Left { notifyPeer : option nat; wasCurrent : bool; removeSession : bool }.
Definition leave k info w : left * exchange M :=
  match sigs w !! pi_session info with
  | Some s =>
      let current := bool_decide (place (pi_role info) s = Some k) in
      let s' := if current then set_place (pi_role info) None s else s in
      (Left (if current then place (other_role (pi_role info)) s else None) current
         (bool_decide (s_agent s' = None) && bool_decide (s_client s' = None)),
       on_peer k (λ p, peer_stage (Gone current) (p_prev p) p) (set_sigs (<[pi_session info := s']> (sigs w)) w))
  | None => (Left None false false, w)
  end.

(** ** The handler *)

Definition sig_clock : go Z := atomic (λ i w, (si_now i, w)).
(** [uuid.New().String()] is not blank. *)
Definition sig_uuid : go string :=
  await (λ i w, if bool_decide (si_uuid i ≠ "") && bool_decide (trim (si_uuid i) = si_uuid i) then Some (si_uuid i, w) else None).

Definition bootstrap_id (rq : signal_request) : go string :=
  if bool_decide (trim (sr_bootstrap rq) = "") then sig_uuid else mret (trim (sr_bootstrap rq)).

(** The connection, with the session it finds. *)
Definition new_peer k (mk : nat → peerInfo) (robotID : string) : go peerInfo :=
  await (λ _ w,
    if decide (peers w !! k = None) then
      let '(s, w) := GetOrCreate k robotID w in
      Some (mk s, set_peers (<[k := Peer (mk s) [] false Entering None false NotYet [] [] []]> (peers w)) w)
    else None).

(** What the platform says itself. *)
Definition notice (type : string) info : SignalMessage M := Signal type None (pi_robot info) (bootstrapID info).
Definition enqueueSignal (peer : option nat) msg : go unit :=
  match peer with Some k => atomic (λ _, try_put None k msg);; mret tt | None => mret tt end.

Definition activate k info : go unit :=
  let a := Activate k (pi_robot info) (bootstrapID info) in
  change (λ w, set_asks (asks w ++ [(a, true)]) (made w ++ [a]) w).
Definition go_trigger k info (isTeardown : bool) (cliIP : string) : go unit :=
  change (λ w, set_asks (asks w ++ [(Trigger k (pi_robot info) isTeardown cliIP (bootstrapID info) (routeType info), false)]) (made w) w).

Definition peer_runs (reading : bool) (writer : running) (st : stage) p : PeerConn M :=
  Peer (p_info p) (p_send p) (p_done p) st (p_prev p) reading writer (p_read p) (p_put p) (p_written p).
Definition sig_pumps k : go unit := change (on_peer k (λ p, peer_runs true (started (p_writer p)) Serving p)).

(** The place is taken: the predecessor is told to end, and for a client the platform
    and the agent are told. *)
Definition take_over k info (prev counterpart : option nat) : go unit :=
  (if bool_decide (pi_role info = RoleClient) then enqueueSignal prev (notice "session-preempted" info) else mret tt);;
  closeDone prev;;
  if bool_decide (pi_role info = RoleClient) then
    activate k info;;
    enqueueSignal counterpart (notice "client-ready" info);;
    go_trigger k info false (observedSrcIP info)
  else mret tt.

(** [SignalingHandler] up to its reader; [readPump] with what follows it are turns of
    the same goroutine.  [raw] is the debounce variable; the handler has a trigger and an
    activator, as cmd/tunnel-svc gives it. *)
Definition SignalingHandler k (raw : string) (rq : signal_request) : go answer :=
  match admit_peer rq with
  | Err (status, error) => mret (HttpError status error)
  | Ok (robotID, role) =>
      if negb (sr_upgrade rq) then mret UpgradeFailed else
      bootstrapID ← bootstrap_id rq;
      let incomingSrcIP := trim (sr_ip rq) in
      connectedAt ← sig_clock;
      let debounceWindow := webrtcPreemptDebounceWindow raw in
      info ← new_peer k (λ s, PeerInfo role robotID s connectedAt incomingSrcIP bootstrapID (trim (sr_route rq))) robotID;
      r ← atomic (λ _, join k info debounceWindow);
      match r with
      | Debounced => mret (CloseFrame 1013 "duplicate signaling reconnect debounced")
      | Took prev counterpart =>
          take_over k info prev counterpart;;
          sig_pumps k;;
          mret Accepted
      end
  end.

(** ** Reader and writer *)

(** The message a reader passes on. *)
Definition stamp info msg : SignalMessage M :=
  Signal (sig_Type msg) (sig_Payload msg) (pi_robot info)
    (if bool_decide (trim (sig_BootstrapID msg) = "") then bootstrapID info else sig_BootstrapID msg).
Definition peer_reads msg p : PeerConn M :=
  Peer (p_info p) (p_send p) (p_done p) (p_stage p) (p_prev p) (p_reading p) (p_writer p) (p_read p ++ [msg]) (p_put p) (p_written p).

(** The end of the handler, after the reader. *)
Definition sig_ends k info : go unit :=
  l ← atomic (λ _, leave k info);
  enqueueSignal (notifyPeer l) (notice "bye" info);;
  (if bool_decide (pi_role info = RoleClient) && wasCurrent l then go_trigger k info true "" else mret tt);;
  if removeSession l then change (Remove (pi_robot info)) else mret tt.

(** One turn of the reader: a message, or the error that ends it. *)
Definition readPump k info (x : option (SignalMessage M)) : go unit :=
  match x with
  | Some msg =>
      atomic (λ _ w, relay_signal (Some k) (pi_session info) (stamp info msg) (negb (bool_decide (pi_role info = RoleAgent)))
                       (on_peer k (peer_reads msg) w));;
      mret tt
  | None => change (on_peer k (λ p, peer_done (peer_runs false (p_writer p) (p_stage p) p)));; sig_ends k info
  end.

Definition peer_writes (send written : list (SignalMessage M)) p : PeerConn M :=
  Peer (p_info p) send (p_done p) (p_stage p) (p_prev p) (p_reading p) (p_writer p) (p_read p) (p_put p) written.

(** One turn of the writer, its [select]; the queue is never closed. *)
Definition writePump k : go unit :=
  await (λ i w,
    p ← peers w !! k;
    if negb (is_running (p_writer p)) then None else
    let over := on_peer k (λ p, peer_runs (p_reading p) Over (p_stage p) p) in
    match si_branch i with
    | O =>
        match p_send p with
        | [] => None
        | msg :: rest =>
            Some (tt, if si_written i then on_peer k (peer_writes rest (p_written p ++ [msg])) w
                      else over (on_peer k (peer_writes rest (p_written p)) w))
        end
    | S O => Some (tt, if si_written i then w else over w)
    | _ => if p_done p then Some (tt, over w) else None
    end).

(** The goroutine of the [n]th request to the platform makes its call. *)
Definition call_trigger (n : nat) : go unit :=
  change (λ w, match asks w !! n with
               | Some (a, false) => set_asks (<[n := (a, true)]> (asks w)) (made w ++ [a]) w
               | _ => w
               end).

(** ** The goroutines *)

Inductive sig_name : Type := GPeer (k : nat) | GPeerWriter (k : nat) | GTrigger (n : nat).

Inductive sig_entry : Type :=
| Signals (k : nat) (raw : string) (rq : signal_request)
| PeerReads (k : nat) (info : peerInfo) (x : option (SignalMessage M))
| PeerWrites (k : nat)
| Triggers (n : nat).

Definition sig_code (e : sig_entry) : sig_name * go unit :=
  match e with
  | Signals k raw rq => (GPeer k, SignalingHandler k raw rq;; mret tt)
  | PeerReads k info x => (GPeer k, readPump k info x)
  | PeerWrites k => (GPeerWriter k, writePump k)
  | Triggers n => (GTrigger n, call_trigger n)
  end.

(** Numbers are given once; turns are of goroutines that run, with what they know. *)
Definition sig_startable (e : sig_entry) w : bool :=
  match e with
  | Signals k _ _ => bool_decide (peers w !! k = None)
  | PeerReads k info _ =>
      match peers w !! k with Some p => bool_decide (p_info p = info) && p_reading p | None => false end
  | PeerWrites k => match peers w !! k with Some p => is_running (p_writer p) | None => false end
  | Triggers n => match asks w !! n with Some (_, false) => true | _ => false end
  end.

Definition newExchange : exchange M := Exchange ∅ ∅ ∅ [] [].
End Signal.

#[export] Instance sig_name_eq_dec : EqDecision sig_name.
Proof. solve_decision. Defined.
#[export] Instance sig_name_countable : Countable sig_name.
Proof.
  refine (inj_countable'
    (λ g, match g with GPeer n => (0%nat, n) | GPeerWriter n => (1%nat, n) | GTrigger n => (2%nat, n) end)
    (λ x, match x.1 with 0 => GPeer x.2 | 1 => GPeerWriter x.2 | _ => GTrigger x.2 end)%nat _).
  by intros [].
Defined.
