(* ===== verification/SignalSafe.v ===== *)
(** * What signalling guarantees (go/webrtc)

    Theorems about Signal.v for all interleavings: what a connection is sent, who is in
    a place, and what is asked of the platform. *)

From Stdlib Require Import Ascii String.
From S2P Require Import Prelude Text ConnState Evidence Threads Hub Signal.

Ltac sig_threads :=
  unfold SignalingHandler, readPump, sig_ends, writePump, call_trigger, sig_pumps, go_trigger, activate, enqueueSignal,
    closeDone, new_peer, bootstrap_id, sig_uuid, sig_clock in *.

(** ** What is sent *)

Section Queues.
Context `{GS : !GoStrings, GU : !GoUuid} {M : Type}.
Implicit Types (w : exchange M) (msg : SignalMessage M) (p q : PeerConn M) (k j : nat) (info : peerInfo).

(** What connection [j] had put in a queue. *)
Definition from j (l : list (option nat * SignalMessage M)) : list (SignalMessage M) :=
  omap (λ x, if decide (x.1 = Some j) then Some x.2 else None) l.
#[local] Arguments from : simpl never.

(** What the platform itself says to one in a role. *)
Definition says (r : role) msg : Prop :=
  sig_Payload msg = None
  ∧ (sig_Type msg = "bye" ∨ sig_Type msg = match r with RoleAgent => "client-ready" | RoleClient => "session-preempted" end).

(** The two ends of one session. *)
Definition facing info info' : Prop :=
  pi_session info' = pi_session info ∧ pi_robot info' = pi_robot info ∧ pi_role info' = other_role (pi_role info).

Record queue_good w p : Prop := {
  qg_robot : Forall (λ x, sig_RobotID x.2 = pi_robot (p_info p)) (p_put p);
  qg_said msg : (None, msg) ∈ p_put p → says (pi_role (p_info p)) msg;
  qg_from j msg : (Some j, msg) ∈ p_put p → ∃ q, peers w !! j = Some q ∧ facing (p_info p) (p_info q);
  qg_order j q : peers w !! j = Some q → sublist (from j (p_put p)) (stamp (p_info q) <$> p_read q);
  qg_queue : ∃ lost, (p_put p).*2 = p_written p ++ lost ++ p_send p ∧ (p_writer p ≠ Over → lost = []);
  qg_room : (length (p_send p) <= 32)%nat;
}.

Record queues_good w : Prop := {
  qs_peer k p : peers w !! k = Some p → queue_good w p;
  qs_place n s r k : sigs w !! n = Some s → place r s = Some k →
    ∃ p, peers w !! k = Some p ∧ pi_role (p_info p) = r ∧ pi_session (p_info p) = n;
  qs_session k p : peers w !! k = Some p → ∃ s, sigs w !! pi_session (p_info p) = Some s ∧ s_for s = pi_robot (p_info p);
  qs_registry r n : registry w !! r = Some n → ∃ s, sigs w !! n = Some s ∧ s_for s = r;
  qs_number n : is_Some (sigs w !! n) → is_Some (peers w !! n);
}.

(** A connection is known, with what its handler knows. *)
Definition is_peer k info w : Prop := ∃ p, peers w !! k = Some p ∧ p_info p = info.
Definition peers_grow (_ : sig_name) w w' : Prop := ∀ k info, is_peer k info w → is_peer k info w'.

#[export] Instance peers_grow_preorder : Rely peers_grow.
Proof. intros g. split; [by intros w k info|]. intros w1 w2 w3 H1 H2 k info H. by apply H2, H1. Qed.

Definition queue_step w w' : Prop := queues_good w → queues_good w' ∧ ∀ k info, is_peer k info w → is_peer k info w'.

#[local] Instance queue_step_preorder : PreOrder queue_step.
Proof.
  split; [by intros w H|]. intros w1 w2 w3 H1 H2 H. destruct (H1 H) as [G1 E1]. destruct (H2 G1) as [G2 E2]. split; [done|].
  intros k info Hk. by apply E2, E1.
Qed.

Lemma from_app j l l' : from j (l ++ l') = from j l ++ from j l'.
Proof. apply omap_app. Qed.

(** Connections read and change otherwise, and their queues as they may. *)
Lemma queue_good_mono w w' p :
  (∀ j q, peers w !! j = Some q → ∃ q', peers w' !! j = Some q' ∧ p_info q' = p_info q ∧ prefix (p_read q) (p_read q')) →
  queue_good w p → queue_good w' p.
Proof.
  intros Hm [H1 H2 H3 H4 H5 H6]. split; try done.
  - intros j msg (q & Hq & Hf)%H3. destruct (Hm j q Hq) as (q' & ? & E & _). exists q'. by rewrite E.
  - intros j q' Hq'. destruct (peers w !! j) as [q|] eqn:Hq.
    + destruct (Hm j q Hq) as (q2 & Hq2 & E & [l Hl]). simplify_eq. rewrite E, Hl, fmap_app.
      apply sublist_inserts_r. by apply H4.
    + assert (from j (p_put p) = []) as ->; [|apply sublist_nil_l].
      destruct (from j (p_put p)) as [|msg l] eqn:Ef; [done|].
      assert (Hin : msg ∈ from j (p_put p)) by (rewrite Ef; left).
      apply list_elem_of_omap in Hin as ([o m] & Hin & E). cbn in E. case_decide; simplify_eq.
      destruct (H3 _ _ Hin) as (q & ? & _). congruence.
Qed.

Lemma queues_peers w w' :
  registry w' = registry w → sigs w' = sigs w →
  (∀ k, match peers w !! k, peers w' !! k with
        | Some p, Some p' => p_info p' = p_info p ∧ prefix (p_read p) (p_read p') ∧ (queue_good w p → queue_good w' p')
        | None, None => True
        | _, _ => False
        end) →
  queue_step w w'.
Proof.
  intros Er Es Hp [H1 H2 H3 H4 H5]. split.
  - split.
    + intros k p' Hk. specialize (Hp k). rewrite Hk in Hp. destruct (peers w !! k) as [p|] eqn:E; [|done].
      destruct Hp as (_ & _ & Hq). by eapply Hq, H1.
    + rewrite Es. intros n s r k Hn Hr. destruct (H2 n s r k Hn Hr) as (p & Hk & ? & ?). specialize (Hp k). rewrite Hk in Hp.
      destruct (peers w' !! k) as [p'|]; [|done]. destruct Hp as (E & _). exists p'. by rewrite E.
    + rewrite Es. intros k p' Hk. specialize (Hp k). rewrite Hk in Hp. destruct (peers w !! k) as [p|] eqn:E; [|done].
      destruct Hp as (-> & _). by eapply H3.
    + by rewrite Er, Es.
    + rewrite Es. intros n [p Hn]%H5. specialize (Hp n). rewrite Hn in Hp. by destruct (peers w' !! n).
  - intros k info (p & Hk & <-). specialize (Hp k). rewrite Hk in Hp. destruct (peers w' !! k) as [p'|] eqn:E; [|done].
    exists p'. split; [done|]. apply Hp.
Qed.

Lemma queues_alter k f w :
  (∀ p, peers w !! k = Some p → p_info (f p) = p_info p ∧ prefix (p_read p) (p_read (f p))) →
  (∀ p, peers w !! k = Some p → queue_good w p → queue_good w (f p)) →
  queue_step w (on_peer k f w).
Proof.
  intros Hi Hf. assert (Hm : ∀ j q, peers w !! j = Some q →
    ∃ q', peers (on_peer k f w) !! j = Some q' ∧ p_info q' = p_info q ∧ prefix (p_read q) (p_read q')).
  { intros j q Hq. cbn. rewrite lookup_alter. case_decide; subst; rewrite Hq; cbn; eexists; (split; [done|]); auto. }
  apply queues_peers; [done|done|]. intros j. destruct (peers w !! j) as [q|] eqn:Hq.
  - destruct (Hm j q Hq) as (q' & Hq' & ? & ?). rewrite Hq'. split_and!; try done. intros Hg.
    apply (queue_good_mono w); [done|]. cbn in Hq'. rewrite lookup_alter in Hq'.
    case_decide; subst; rewrite Hq in Hq'; cbn in Hq'; injection Hq' as <-; auto.
  - cbn. rewrite lookup_alter. case_decide; subst; by rewrite Hq.
Qed.

(** *** Actions *)

(** Neither what is read nor the queue changes. *)
Lemma queues_quiet k f w :
  (∀ p, p_info (f p) = p_info p ∧ p_read (f p) = p_read p ∧ p_put (f p) = p_put p ∧ p_send (f p) = p_send p
     ∧ p_written (f p) = p_written p ∧ (p_writer (f p) ≠ Over → p_writer p ≠ Over)) →
  queue_step w (on_peer k f w).
Proof.
  intros Hf. apply queues_alter.
  - intros p _. destruct (Hf p) as (-> & -> & _). done.
  - intros p _ [H1 H2 H3 H4 (lost & H5 & H5') H6]. destruct (Hf p) as (E1 & E2 & E3 & E4 & E5 & E6).
    split; rewrite ?E1, ?E3, ?E4, ?E5; try done. eauto.
Qed.

Lemma try_put_step x k msg w :
  (∀ p, peers w !! k = Some p → queues_good w →
     sig_RobotID msg = pi_robot (p_info p)
     ∧ match x with
       | None => says (pi_role (p_info p)) msg
       | Some j => ∃ q, peers w !! j = Some q ∧ facing (p_info p) (p_info q)
                   ∧ sublist (from j (p_put p) ++ [msg]) (stamp (p_info q) <$> p_read q)
       end) →
  queue_step w (try_put x k msg w).2.
Proof.
  intros Hx Hok. unfold try_put. destruct (peers w !! k) as [p|] eqn:Hk; [|by split].
  destruct (_ <? _)%nat eqn:El; [|by split]. specialize (Hx p eq_refl Hok) as [Hr Hx]. revert Hok. cbn [snd].
  apply queues_alter; [done|]. intros p' Hk' [H1 H2 H3 H4 (lost & H5 & H5') H6]. simplify_eq. split; cbn.
  - apply Forall_app. auto.
  - intros m [?|E%list_elem_of_singleton]%elem_of_app; [auto|]. by simplify_eq.
  - intros j m [?|E%list_elem_of_singleton]%elem_of_app; [eauto|]. simplify_eq. naive_solver.
  - intros j q Hq. rewrite from_app. unfold from at 2. cbn.
    case_decide; [simplify_eq; naive_solver|]. rewrite app_nil_r. auto.
  - exists lost. split; [|done]. rewrite fmap_app, H5. cbn. by rewrite <-!app_assoc.
  - apply Nat.ltb_lt in El. rewrite length_app. cbn. lia.
Qed.

Lemma read_step k info msg w :
  is_peer k info w →
  queue_step w (relay_signal (Some k) (pi_session info) (stamp info msg) (negb (bool_decide (pi_role info = RoleAgent)))
                  (on_peer k (peer_reads msg) w)).2.
Proof.
  intros (p & Hk & Hi) Hok. set (w1 := on_peer k _ w).
  assert (Hw1 : queues_good w1 ∧ ∀ k info, is_peer k info w → is_peer k info w1).
  { revert Hok. apply queues_alter; [intros ? _; split; [done|by apply prefix_app_r]|]. intros p' _ [H1 H2 H3 H4 H5 H6]. by split. }
  unfold relay_signal. cbn [sigs w1 on_peer set_peers]. destruct (sigs w !! pi_session info) as [s|] eqn:Es; [|done].
  destruct (if negb (bool_decide (pi_role info = RoleAgent)) then s_agent s else s_client s) as [d|] eqn:Ed; [|done].
  assert (Hpl : place (other_role (pi_role info)) s = Some d) by (by destruct (pi_role info)).
  destruct Hw1 as [Hok1 Hg1]. destruct (try_put_step (Some k) d (stamp info msg) w1) as [Hok2 Hg2]; [|done|by eauto].
  intros pd Hd _. destruct (qs_place _ Hok _ _ _ _ Es Hpl) as (pd0 & Hd0 & Er & En).
  destruct (qs_session _ Hok _ _ Hk) as (s1 & Es1 & Ef1). destruct (qs_session _ Hok _ _ Hd0) as (s2 & Es2 & Ef2).
  rewrite Hi, Es in Es1. rewrite En, Es in Es2. simplify_eq.
  cbn in Hd. rewrite lookup_alter_ne, Hd0 in Hd by (intros ->; rewrite Hk in Hd0; simplify_eq; by destruct (pi_role (p_info pd0))).
  simplify_eq. split; [by cbn; congruence|]. exists (peer_reads msg p). cbn. rewrite lookup_alter_eq, Hk. split_and!; [done|..].
  - split_and!; [done|congruence|]. rewrite Er. by destruct (pi_role (p_info p)).
  - rewrite fmap_app. apply sublist_app; [|done]. by eapply (qg_order _ _ (qs_peer _ Hok _ _ Hd0)).
Qed.

Lemma queues_sigs n s s' w :
  sigs w !! n = Some s → s_for s' = s_for s →
  (∀ r k, place r s' = Some k → place r s = Some k ∨ ∃ p, peers w !! k = Some p ∧ pi_role (p_info p) = r ∧ pi_session (p_info p) = n) →
  queue_step w (set_sigs (<[n := s']> (sigs w)) w).
Proof.
  intros Hs Ef Hpl [H1 H2 H3 H4 H5]. assert (Hm : ∀ m r, (∃ s, sigs w !! m = Some s ∧ s_for s = r) →
    ∃ s, <[n := s']> (sigs w) !! m = Some s ∧ s_for s = r).
  { intros m r (s0 & Hm & Hr). rewrite lookup_insert. case_decide; [|eauto]. subst m. exists s'. split; [done|congruence]. }
  split; [|done]. split; cbn.
  - intros k p [G1 G2 G3 G4 G5 G6]%H1. by split.
  - intros m s0 r k. rewrite lookup_insert. case_decide; [|eauto]. intros [= <-] Hp. subst m. destruct (Hpl r k Hp); eauto.
  - eauto.
  - eauto.
  - intros m. rewrite lookup_insert. case_decide; [subst; eauto|auto].
Qed.

Lemma queues_asks x y w : queue_step w (set_asks x y w).
Proof.
  apply queues_peers; [done|done|]. intros k. cbn. destruct (peers w !! k); [|done]. split_and!; [done|done|].
  by apply queue_good_mono; eauto.
Qed.

Lemma queues_remove r w : queue_step w (Remove r w).
Proof.
  intros [H1 H2 H3 H4 H5]. split; [|done]. split; cbn; try done.
  - intros k p [G1 G2 G3 G4 G5 G6]%H1. by split.
  - intros r' n [_ ?]%lookup_delete_Some. auto.
Qed.

Lemma queues_new k robot s w w' a :
  GetOrCreate k robot w = (s, w') → peers w !! k = None → pi_session a = s → pi_robot a = robot →
  queues_good w →
  queues_good (set_peers (<[k := Peer a [] false Entering None false NotYet [] [] []]> (peers w')) w')
  ∧ ∀ j info, is_peer j info w → is_peer j info (set_peers (<[k := Peer a [] false Entering None false NotYet [] [] []]> (peers w')) w').
Proof.
  intros E Hk Ea Er [H1 H2 H3 H4 H5]. set (w2 := set_peers _ w').
  assert (Hp : peers w2 = <[k := Peer a [] false Entering None false NotYet [] [] []]> (peers w)).
  { subst w2. cbn. f_equal. unfold GetOrCreate in E. case_match; by simplify_eq. }
  assert (Hg : ∀ j q, peers w !! j = Some q → peers w2 !! j = Some q).
  { intros j q Hq. rewrite Hp, lookup_insert_ne; [done|congruence]. }
  assert (Hsk : sigs w !! k = None).
  { apply eq_None_not_Some. intros [p Hp']%H5. congruence. }
  assert (Hs : (∃ x, sigs w2 !! s = Some x ∧ s_for x = robot) ∧ registry w2 ⊆ <[robot := s]> (registry w)
    ∧ (sigs w2 = sigs w ∨ sigs w2 = <[k := MkSession robot None None]> (sigs w))).
  { unfold GetOrCreate in E. destruct (registry w !! robot) as [n|] eqn:Hr; simplify_eq; cbn.
    - split_and!; [by apply H4| |by left]. by rewrite insert_id.
    - rewrite lookup_insert_eq. split_and!; [by eexists|done|by right]. }
  clearbody w2. clear E. destruct Hs as (Hs & Hr & Hsub).
  assert (Hgrow : ∀ n x, sigs w !! n = Some x → sigs w2 !! n = Some x).
  { intros n x Hn. destruct Hsub as [-> | ->]; [done|]. rewrite lookup_insert_ne; [done|congruence]. }
  split; [split|].
  - intros j q. rewrite Hp, lookup_insert. case_decide.
    + intros [= <-]. split; cbn; [by constructor|by intros ? ?%elem_of_nil|by intros ? ? ?%elem_of_nil| |by exists []|lia].
      intros. apply sublist_nil_l.
    + intros Hq. apply (queue_good_mono w); [|by eapply H1]. intros j' q' Hq'. eauto.
  - intros n x r j Hn Hj. destruct Hsub as [Es|Es]; rewrite Es in Hn.
    + destruct (H2 n x r j Hn Hj) as (p & ? & ?). eauto.
    + apply lookup_insert_Some in Hn as [[<- <-]|[_ Hn]]; [by destruct r|]. destruct (H2 n x r j Hn Hj) as (p & ? & ?). eauto.
  - intros j q. rewrite Hp, lookup_insert. case_decide; [intros [= <-]; cbn; by rewrite Ea, Er|].
    intros (x & ? & ?)%H3. eauto.
  - intros r n Hn. eapply lookup_weaken in Hn; [|exact Hr]. apply lookup_insert_Some in Hn as [[<- <-]|[_ Hn]]; [done|].
    destruct (H4 _ _ Hn) as (x & ? & ?). eauto.
  - intros n [x Hn]. rewrite Hp. destruct Hsub as [Es|Es]; rewrite Es in Hn; rewrite lookup_insert; case_decide; eauto.
    rewrite lookup_insert_ne in Hn by done. eauto.
  - intros j info (q & Hq & Hi). exists q. auto.
Qed.

(** *** Goroutines *)

Local Abbreviation qsafe := (safe (I := sig_input) queues_good peers_grow).
Local Abbreviation qbind := (safe_bind (I := sig_input) queues_good peers_grow).

Definition stable (K : exchange M → Prop) : Prop := ∀ w w', (∀ k info, is_peer k info w → is_peer k info w') → K w → K w'.

(** What is known stays known, and is known of the connections an action has to do with. *)
Lemma queue_act {A} g (f : sig_input → exchange M → option (A * exchange M)) (K : exchange M → Prop) (Q : A → exchange M → Prop) w :
  stable K → (∀ a, stable (Q a)) →
  (∀ i w a w', K w → queues_good w → f i w = Some (a, w') → queues_good w' ∧ (∀ k info, is_peer k info w → is_peer k info w') ∧ Q a w') →
  K w → qsafe g (await f) (λ a w, K w ∧ Q a w) w.
Proof.
  intros HK HQ Hf Hw. apply safe_await. intros i w1 a w2 Hr Hi E. assert (K w1) as Hw1 by (by eapply HK).
  destruct (Hf _ _ _ _ Hw1 Hi E) as (Hi2 & Hg & Hq). split_and!; [done|by intros g' _|].
  intros w3 Hr3 _. split; [eapply HK; [exact Hr3|]; by eapply HK|by eapply HQ].
Qed.

Lemma queue_keep g f (K : exchange M → Prop) w :
  stable K → (∀ w, K w → queue_step w (f w)) → K w → qsafe g (change f) (λ _ w, K w) w.
Proof.
  intros HK Hf Hw. eapply safe_weaken; [eapply (queue_act g _ K (λ _ _, True)); [done|done| |done]|by intros _ ? []].
  intros i w1 [] w2 HK1 Hi1 E. injection E as <-. destruct (Hf w1 HK1 Hi1). done.
Qed.

(** Whom the platform can tell about robot [robot], in role [r]. *)
Definition tells (x : option nat) (r : role) (robot : string) w : Prop :=
  ∀ k, x = Some k → ∃ info, is_peer k info w ∧ pi_role info = r ∧ pi_robot info = robot.
Lemma tells_stable x r robot : stable (tells x r robot).
Proof. intros w w' Hg Ht k Hk. destruct (Ht k Hk) as (info & ? & ?). eauto. Qed.
Lemma is_peer_stable k info : stable (is_peer k info).
Proof. intros w w' Hg Hk. auto. Qed.

Lemma enqueueSignal_keep g x r robot msg (K : exchange M → Prop) w :
  stable K → (∀ w, K w → tells x r robot w) → sig_RobotID msg = robot → says r msg → K w →
  qsafe g (enqueueSignal x msg) (λ _ w, K w) w.
Proof.
  intros HK Ht Hr Hs Hw. unfold enqueueSignal. destruct x as [k|].
  2: { apply safe_ret. intros w' Hg _. by eapply HK. }
  eapply qbind; [eapply (queue_act g _ K (λ _ _, True)); [done|done| |done]|].
  - intros i w1 a w2 HK1 Hi1 E. injection E as E. replace w2 with (try_put None k msg w1).2 by (by rewrite E).
    destruct (try_put_step None k msg w1) as [? ?]; [|done|done].
    intros p Hp _. destruct (Ht w1 HK1 k eq_refl) as (info & (p' & Hp' & <-) & <- & <-). by simplify_eq.
  - intros a w1 _ [HK1 _]. apply safe_ret. intros w' Hg _. by eapply HK.
Qed.

Lemma closeDone_keep g x (K : exchange M → Prop) w : stable K → K w → qsafe g (closeDone x) (λ _ w, K w) w.
Proof.
  intros HK Hw. unfold closeDone. destruct x as [k|]; [|apply safe_ret; intros w' Hg _; by eapply HK].
  apply queue_keep; [done| |done]. intros w1 _. by apply queues_quiet.
Qed.

Lemma join_tells k info window w r w' :
  join k info window w = (r, w') → queues_good w → is_peer k info w →
  queue_step w w' ∧ match r with
    | Took prev counterpart =>
        tells prev (pi_role info) (pi_robot info) w' ∧ tells counterpart (other_role (pi_role info)) (pi_robot info) w'
    | Debounced => True
    end.
Proof.
  unfold join. intros E Hok (p & Hp & Hi). destruct (sigs w !! pi_session info) as [s|] eqn:Hs; [|by simplify_eq].
  destruct (shouldDebouncePeerReplacement _ _ _); simplify_eq; [split; [|done]; by apply queues_quiet|].
  assert (Hst : queue_step w (on_peer k (peer_stage Joining (place (pi_role (p_info p)) s))
    (set_sigs (<[pi_session (p_info p) := set_place (pi_role (p_info p)) (Some k) s]> (sigs w)) w))).
  { etrans; [apply (queues_sigs (pi_session (p_info p)) s (set_place (pi_role (p_info p)) (Some k) s)); [done|by destruct (pi_role (p_info p))|]
      |by apply queues_quiet].
    intros r j. destruct (pi_role (p_info p)) eqn:Er, r; cbn; intros E; try (by left); simplify_eq; right; eauto. }
  split; [done|]. destruct (Hst Hok) as [_ Hg].
  assert (Ht : ∀ r, tells (place r s) r (pi_robot (p_info p)) w).
  { intros r j Hj. destruct (qs_place _ Hok _ _ _ _ Hs Hj) as (pj & Hpj & ? & En). exists (p_info pj).
    split_and!; [by exists pj|done|]. destruct (qs_session _ Hok _ _ Hpj) as (s1 & ? & <-), (qs_session _ Hok _ _ Hp) as (s2 & ? & <-).
    rewrite En in *. by simplify_eq. }
  split; by eapply tells_stable.
Qed.

Lemma leave_tells k info w l w' :
  leave k info w = (l, w') → queues_good w → is_peer k info w →
  queue_step w w' ∧ tells (notifyPeer l) (other_role (pi_role info)) (pi_robot info) w'.
Proof.
  unfold leave. intros E Hok (p & Hp & Hi). destruct (sigs w !! pi_session info) as [s|] eqn:Hs; [|by simplify_eq].
  set (s' := if bool_decide _ then _ else s) in E. injection E as <- <-.
  assert (Hst : queue_step w (on_peer k (λ p, peer_stage (Gone (bool_decide (place (pi_role info) s = Some k))) (p_prev p) p)
    (set_sigs (<[pi_session info := s']> (sigs w)) w))).
  { etrans; [apply (queues_sigs (pi_session info) s s'); [done|subst s'; case_bool_decide; by destruct (pi_role info)|]|by apply queues_quiet].
    intros r j. subst s'. case_bool_decide; [|by left]. destruct (pi_role info), r; cbn; by auto. }
  split; [done|]. destruct (Hst Hok) as [_ Hg]. eapply tells_stable; [exact Hg|]. cbn. case_bool_decide; [|by intros j].
  intros j Hj. destruct (qs_place _ Hok _ _ _ _ Hs Hj) as (pj & Hpj & ? & En). exists (p_info pj).
  split_and!; [by exists pj|done|].
  destruct (qs_session _ Hok _ _ Hpj) as (s1 & ? & <-), (qs_session _ Hok _ _ Hp) as (s2 & ? & E2).
  rewrite En, Hi in *. by simplify_eq.
Qed.

Lemma says_notice r type info :
  type = "bye" ∨ type = match r with RoleAgent => "client-ready" | RoleClient => "session-preempted" end → says r (notice (M := M) type info).
Proof. by intros. Qed.

Lemma take_over_queues k info prev counterpart w :
  tells prev (pi_role info) (pi_robot info) w → tells counterpart (other_role (pi_role info)) (pi_robot info) w →
  qsafe (GPeer k) (take_over k info prev counterpart) (λ _ _, True) w.
Proof.
  intros H1 H2. set (K := λ w, tells prev (pi_role info) (pi_robot info) w ∧ tells counterpart (other_role (pi_role info)) (pi_robot info) w).
  assert (HK : stable K). { intros u u' Hg [? ?]. split; by eapply tells_stable. }
  assert (Hplain : ∀ f w, (∀ w, queue_step w (f w)) → K w → qsafe (GPeer k) (change f) (λ _ w, K w) w) by (intros; by apply queue_keep).
  eapply (qbind _ _ _ (λ _ w, K w)).
  { case_bool_decide as Ec; [|apply safe_ret; intros ? Hg _; eapply HK; [exact Hg|done]].
    eapply (enqueueSignal_keep _ _ (pi_role info)); [done|by intros ? []|done| |done]. apply says_notice. rewrite Ec. by right. }
  intros _ w5 _ HK5. eapply (qbind _ _ _ (λ _ w, K w)); [by apply closeDone_keep|].
  intros _ w6 _ HK6. eapply (safe_weaken _ _ _ _ (λ _ w, K w)); [|done].
  case_bool_decide as Ec; [|apply safe_ret; intros ? Hg _; by eapply HK].
  eapply (qbind _ _ _ (λ _ w, K w)); [apply Hplain; [intros; by apply queues_asks|done]|]. intros _ w7 _ HK7.
  eapply (qbind _ _ _ (λ _ w, K w)); [|intros _ w8 _ HK8; apply Hplain; [intros; by apply queues_asks|done]].
  eapply (enqueueSignal_keep _ _ (other_role (pi_role info))); [done|by intros ? []|done| |done]. apply says_notice. rewrite Ec. by right.
Qed.

Lemma handler_queues k raw rq w : qsafe (GPeer k) (SignalingHandler k raw rq;; mret tt) (λ _ _, True) w.
Proof.
  eapply (qbind _ _ _ (λ _ _, True)); [|by intros]. unfold SignalingHandler.
  destruct (admit_peer rq) as [[robotID role]|[st err]]; [|done]. destruct (sr_upgrade rq); [|done]. cbn [negb].
  eapply (qbind _ _ _ (λ _ _, True)).
  { unfold bootstrap_id, sig_uuid. case_bool_decide; [|done].
    eapply safe_weaken; [eapply (queue_act _ _ (λ _, True) (λ _ _, True)); try done|done]. intros i w1 a w2 _ ? E. case_match; by simplify_eq. }
  intros bid w1 _ _. cbv zeta. eapply (qbind _ _ _ (λ _ _, True)).
  { eapply safe_weaken; [eapply (queue_act _ _ (λ _, True) (λ _ _, True)); try done|done]. intros i w2 a w3 _ ? E. by simplify_eq. }
  intros now w2 _ _. set (mk := λ s, PeerInfo role robotID s now (trim (sr_ip rq)) bid (trim (sr_route rq))).
  eapply (qbind _ _ _ (λ info w, True ∧ (is_peer k info w ∧ pi_robot info = robotID ∧ pi_role info = role))).
  { apply (queue_act _ _ (λ _, True) (λ info w, is_peer k info w ∧ _)); [done| | |done].
    - intros info u u' Hg [? ?]. auto.
    - intros i w3 info w4 _ Hok E. case_decide as Hk; [|done]. destruct (GetOrCreate k robotID w3) as [s w5] eqn:Eg. injection E as <- <-.
      destruct (queues_new k robotID s w3 w5 (mk s) Eg Hk eq_refl eq_refl Hok) as [? ?].
      split_and!; try done. eexists. cbn. by rewrite lookup_insert_eq. }
  intros info w3 _ (_ & Hk & Hrobot & Hrole).
  eapply (qbind _ _ _ (λ r w, is_peer k info w ∧ match r with
    | Took prev counterpart => tells prev (pi_role info) (pi_robot info) w ∧ tells counterpart (other_role (pi_role info)) (pi_robot info) w
    | Debounced => True end)).
  { apply (queue_act _ _ (is_peer k info)); [apply is_peer_stable| | |done].
    - intros [|prev counterpart] u u' Hg; [done|]. intros [? ?]. split; by eapply tells_stable.
    - intros i w4 r w5 Hk4 Hok E. injection E as E. destruct (join_tells _ _ _ _ _ _ E Hok Hk4) as [Hst Ht].
      destruct (Hst Hok). done. }
  intros [|prev counterpart] w4 _ [Hk4 Ht]; [done|]. destruct Ht as [Hprev Hcp].
  eapply (qbind _ _ _ (λ _ _, True)); [by apply take_over_queues|]. intros _ w5 _ _.
  eapply (qbind _ _ _ (λ _ _, True)); [|by intros]. apply (queue_keep _ _ (λ _, True)); [done| |done]. intros w6 _. apply queues_quiet.
  intros p. split_and!; try done. by destruct (p_writer p).
Qed.

Lemma reader_queues k info x w : is_peer k info w → qsafe (GPeer k) (readPump k info x) (λ _ _, True) w.
Proof.
  intros Hk. destruct x as [msg|]; cbn [readPump].
  - eapply (qbind _ _ _ (λ _ w, _ ∧ True)); [|by intros]. apply (queue_act _ _ (is_peer k info) (λ _ _, True)); [apply is_peer_stable|done| |done].
    intros i w1 a w2 Hk1 Hok E. injection E as E. destruct (read_step k info msg w1 Hk1 Hok) as [? ?]. by rewrite E in *.
  - eapply (qbind _ _ _ (λ _ w, is_peer k info w)).
    { apply queue_keep; [apply is_peer_stable| |done]. intros w1 _. by apply queues_quiet. }
    intros _ w1 _ Hk1. unfold sig_ends.
    eapply (qbind _ _ _ (λ l w, is_peer k info w ∧ tells (notifyPeer l) (other_role (pi_role info)) (pi_robot info) w)).
    { apply (queue_act _ _ (is_peer k info)); [apply is_peer_stable|intros; apply tells_stable| |done].
      intros i w2 l w3 Hk2 Hok E. injection E as E. destruct (leave_tells _ _ _ _ _ E Hok Hk2) as [Hst ?]. by destruct (Hst Hok). }
    intros l w2 _ [_ Hl]. eapply (qbind _ _ _ (λ _ _, True)).
    { eapply safe_weaken; [|done]. eapply (enqueueSignal_keep _ _ _ _ _ _ _ (tells_stable _ _ _)); [done|done| |done]. by apply says_notice; left. }
    intros _ w3 _ _. eapply (qbind _ _ _ (λ _ _, True)).
    { case_match; [|done]. apply (queue_keep _ _ (λ _, True)); [done| |done]. intros; by apply queues_asks. }
    intros _ w4 _ _. case_match; [|done]. apply (queue_keep _ _ (λ _, True)); [done| |done]. intros; by apply queues_remove.
Qed.

Lemma on_peer_compose k f g w : on_peer k f (on_peer k g w) = on_peer (M := M) k (f ∘ g) w.
Proof.
  unfold on_peer, set_peers. cbn. f_equal. apply map_eq. intros j. rewrite !lookup_alter. case_decide; [|done].
  subst. rewrite ?decide_True by done. by destruct (peers w !! j).
Qed.

Lemma writer_queues k w : qsafe (GPeerWriter k) (writePump k) (λ _ _, True) w.
Proof.
  eapply safe_weaken; [eapply (queue_act _ _ (λ _, True) (λ _ _, True)); [done|done| |done]|done].
  intros i w1 [] w2 _ Hok (p & Hp & E)%bind_Some. assert (Hst : queue_step w1 w2); [|by destruct (Hst Hok)].
  destruct (p_writer p) eqn:Ew; try done. cbn [is_running negb] in E. cbv zeta in E. destruct (si_branch i) as [|[|?]].
  - destruct (p_send p) as [|msg rest] eqn:Es; [done|]. injection E as <-. destruct (si_written i); rewrite ?on_peer_compose.
    all: apply queues_alter; [done|]; intros p' Hp' [H1 H2 H3 H4 (lost & H5 & H5') H6]; simplify_eq; split; try done; cbn in *.
    all: rewrite ?Es in *; cbn in *; try lia; rewrite H5, H5' by congruence.
    + exists []. split; [|done]. by rewrite <-app_assoc.
    + by exists [msg].
  - injection E as <-. destruct (si_written i); [done|]. by apply queues_quiet.
  - destruct (p_done p); simplify_eq. by apply queues_quiet.
Qed.

Lemma queues_start_safe e : start_safe sig_code sig_startable queues_good peers_grow (e : sig_entry (M := M)).
Proof.
  intros w Hok Hs. destruct e as [k raw rq|k info x|k|n]; cbn [sig_code fst snd] in *.
  - apply handler_queues.
  - apply reader_queues. cbn in Hs. destruct (peers w !! k) as [p|] eqn:E; [|done].
    apply andb_prop in Hs as [Hi%bool_decide_eq_true _]. by exists p.
  - apply writer_queues.
  - apply (queue_keep _ _ (λ _, True)); [done| |done]. intros w1 _. repeat case_match; by try apply queues_asks.
Qed.

Lemma queues_begin : safe_system (I := sig_input) queues_good peers_grow (System (newExchange (M := M)) ∅).
Proof. split; [split|]; cbn; try by intros *; rewrite lookup_empty. Qed.

(** C11: what a connection is sent.  In every run, whatever connections come and go and
    in every interleaving: all that is put in the queue of a connection is about its
    robot; it comes from connections of the other role in the same session, and from
    each of them it is, in order, part of what was read from it, with the robot's id and
    a bootstrap id filled in, so nothing is repeated, changed, or leaks from another
    robot; the rest are the notices of the platform for that role; what goes out is
    what was put in the queue, in order, and none of it is lost before the writer ends. *)
Theorem signals_relayed evs s k p :
  sys_run sig_code sig_startable evs (System (newExchange (M := M)) ∅) = Some s → peers (shared s) !! k = Some p →
  Forall (λ x, sig_RobotID x.2 = pi_robot (p_info p)) (p_put p)
  ∧ (∀ msg, (None, msg) ∈ p_put p → says (pi_role (p_info p)) msg)
  ∧ (∀ j msg, (Some j, msg) ∈ p_put p → ∃ q, peers (shared s) !! j = Some q ∧ facing (p_info p) (p_info q))
  ∧ (∀ j q, peers (shared s) !! j = Some q → sublist (from j (p_put p)) (stamp (p_info q) <$> p_read q))
  ∧ (∃ lost, (p_put p).*2 = p_written p ++ lost ++ p_send p ∧ (p_writer p ≠ Over → lost = []))
  ∧ (length (p_send p) <= 32)%nat.
Proof.
  intros Hrun Hp. destruct (run_safe _ _ _ _ _ _ _ (λ e _, queues_start_safe e) queues_begin Hrun) as [Hok _].
  by destruct (qs_peer _ Hok _ _ Hp).
Qed.
End Queues.

(** ** Who is in a place *)

Section Places.
Context `{GS : !GoStrings, GU : !GoUuid} {M : Type}.
Implicit Types (w : exchange M) (msg : SignalMessage M) (p q : PeerConn M) (k j : nat) (info : peerInfo).

Definition staying (st : stage) : Prop := st = Joining ∨ st = Serving.
Definition in_place k info w : Prop := ∃ s, sigs w !! pi_session info = Some s ∧ place (pi_role info) s = Some k.
(** A successor has taken the place and is about to tell. *)
Definition replaced k info w : Prop :=
  ∃ k' p', peers w !! k' = Some p' ∧ p_stage p' = Joining ∧ p_prev p' = Some k
    ∧ pi_role (p_info p') = pi_role info ∧ pi_session (p_info p') = pi_session info.

Record places_good w : Prop := {
  pg_place n s r k : sigs w !! n = Some s → place r s = Some k →
    ∃ p, peers w !! k = Some p ∧ pi_role (p_info p) = r ∧ pi_session (p_info p) = n ∧ staying (p_stage p);
  pg_peer k p : peers w !! k = Some p → staying (p_stage p) → in_place k (p_info p) w ∨ p_done p = true ∨ replaced k (p_info p) w;
  pg_reading k p : peers w !! k = Some p → p_reading p = true → p_stage p = Serving;
  pg_number n : is_Some (sigs w !! n) → is_Some (peers w !! n);
}.

(** What only the connection's own goroutine changes. *)
Definition status k w : option (peerInfo * stage * option nat * bool) :=
  (λ p, (p_info p, p_stage p, p_prev p, p_reading p)) <$> peers w !! k.
Definition done_grow w w' : Prop :=
  ∀ k p, peers w !! k = Some p → ∃ p', peers w' !! k = Some p' ∧ (p_done p = true → p_done p' = true).
Definition places_rely (g : sig_name) w w' : Prop :=
  done_grow w w' ∧ match g with GPeer k => status k w' = status k w | _ => True end.

#[export] Instance places_rely_preorder : Rely places_rely.
Proof.
  intros g. split.
  - intros w. split; [intros k p; eauto|by destruct g].
  - intros w1 w2 w3 [A1 H1] [A2 H2]. split; [|destruct g; [congruence|done|done]].
    intros k p (p2 & Hp2 & ?)%A1. destruct (A2 k p2 Hp2) as (p3 & ? & ?). exists p3. auto.
Qed.

Lemma status_Some k w i st pr rd :
  status k w = Some (i, st, pr, rd) ↔ ∃ p, peers w !! k = Some p ∧ p_info p = i ∧ p_stage p = st ∧ p_prev p = pr ∧ p_reading p = rd.
Proof. unfold status. rewrite fmap_Some. split; [intros (p & ? & E); exists p; by simplify_eq|naive_solver]. Qed.

(** Actions that change neither places nor stages. *)
Definition calm w w' : Prop := sigs w' = sigs w ∧ done_grow w w' ∧ ∀ k, status k w' = status k w.

#[local] Instance calm_preorder : PreOrder calm.
Proof.
  split.
  - intros w. split_and!; [done|intros k p; eauto|done].
  - intros w1 w2 w3 (E1 & D1 & S1) (E2 & D2 & S2). split_and!; [congruence| |intros; by rewrite S2].
    intros k p (p2 & Hp2 & ?)%D1. destruct (D2 k p2 Hp2) as (p3 & ? & ?). exists p3. auto.
Qed.

Lemma calm_places w w' : places_good w → calm w w' → places_good w' ∧ ∀ g, places_rely g w w'.
Proof.
  intros [H1 H2 H3 H4] (Es & Hd & Hs). split; [|intros []; by split].
  assert (Hback : ∀ k p', peers w' !! k = Some p' → ∃ p, peers w !! k = Some p ∧ p_info p' = p_info p ∧ p_stage p' = p_stage p
    ∧ p_prev p' = p_prev p ∧ p_reading p' = p_reading p ∧ (p_done p = true → p_done p' = true)).
  { intros k p' Hp'. pose proof (Hs k) as E. unfold status in E. rewrite Hp' in E. destruct (peers w !! k) as [p|] eqn:Hp; [|done].
    injection E as E1 E2 E3 E4. exists p. split_and!; try done. destruct (Hd k p Hp) as (? & ? & ?). by simplify_eq. }
  assert (Hfwd : ∀ k p, peers w !! k = Some p → ∃ p', peers w' !! k = Some p').
  { intros k p Hp. destruct (Hd k p Hp) as (p' & ? & _). eauto. }
  split.
  - rewrite Es. intros n s r k Hn Hr. destruct (H1 n s r k Hn Hr) as (p & Hp & ? & ? & ?). destruct (Hfwd k p Hp) as (p' & Hp').
    exists p'. destruct (Hback k p' Hp') as (p0 & ? & E1 & E2 & _). simplify_eq. by rewrite E1, E2.
  - intros k p' Hp'. destruct (Hback k p' Hp') as (p & Hp & -> & -> & _ & _ & Hdn). intros Hst.
    destruct (H2 k p Hp Hst) as [Hin|[?|(k2 & p2 & Hp2 & R1 & R2 & R3 & R4)]]; [left|auto|do 2 right].
    + unfold in_place. by rewrite Es.
    + destruct (Hfwd k2 p2 Hp2) as (p2' & Hp2'). exists k2, p2'. destruct (Hback k2 p2' Hp2') as (p0 & ? & E1 & E2 & E3 & _). simplify_eq. by rewrite E1, E2, E3.
  - intros k p' Hp'. destruct (Hback k p' Hp') as (p & Hp & _ & -> & _ & -> & _). by eapply H3.
  - rewrite Es. intros n [p Hp]%H4. destruct (Hfwd n p Hp) as [? ->]. by eexists.
Qed.

Lemma on_peer_calm k f w :
  (∀ p, p_info (f p) = p_info p ∧ p_stage (f p) = p_stage p ∧ p_prev (f p) = p_prev p ∧ p_reading (f p) = p_reading p
     ∧ (p_done p = true → p_done (f p) = true)) →
  calm w (on_peer k f w).
Proof.
  intros Hf. split_and!; [done|..].
  - intros j p Hp. cbn. rewrite lookup_alter. case_decide; subst; rewrite Hp; cbn; eexists; (split; [done|]); [apply Hf|done].
  - intros j. unfold status. cbn. rewrite lookup_alter. case_decide; [|done]. subst j. destruct (peers w !! k) as [p|]; cbn; [|done].
    by destruct (Hf p) as (-> & -> & -> & -> & _).
Qed.
Lemma try_put_calm x k msg w : calm w (try_put x k msg w).2.
Proof. unfold try_put. repeat case_match; cbn; try done. by apply on_peer_calm. Qed.
Lemma asks_calm x y w : calm w (set_asks x y w).
Proof. split_and!; try done. intros k p. eauto. Qed.
Lemma remove_calm r w : calm w (Remove r w).
Proof. split_and!; try done. intros k p. eauto. Qed.

Lemma enqueueSignal_calm x msg : within (I := sig_input) calm (enqueueSignal x msg).
Proof.
  unfold enqueueSignal. destruct x; [|done]. apply within_bind; [|done]. apply within_await. intros i w a w' E. injection E as E.
  replace w' with (try_put None n msg w).2 by (by rewrite E). apply try_put_calm.
Qed.
Lemma change_calm f : (∀ w, calm w (f w)) → within (I := sig_input) calm (change f).
Proof. intros Hf. apply within_await. intros i w [] w' E. by injection E as <-. Qed.

(** *** Actions on the connection's own place *)

(** The goroutine of connection [k] acts. *)
Definition own_turn k w w' : Prop := (∀ j, j ≠ k → peers w' !! j = peers w !! j) ∧ done_grow w w'.
Lemma own_turn_others k w w' : own_turn k w w' → others places_rely (GPeer k) w w'.
Proof. intros [Ho Hd] g Hg. split; [done|]. destruct g; try done. unfold status. by rewrite Ho by congruence. Qed.
Lemma own_turn_alter k f w w' :
  peers w' = alter f k (peers w) → (∀ p, p_done p = true → p_done (f p) = true) → own_turn k w w'.
Proof.
  intros E Hf. split; [intros j Hj; by rewrite E, lookup_alter_ne|]. intros j p Hp. rewrite E, lookup_alter.
  case_decide; subst; rewrite Hp; cbn; eexists; (split; [done|]); [apply Hf|done].
Qed.

Definition known (x : option nat) w : Prop := ∀ j, x = Some j → is_Some (peers w !! j).
Definition ended (x : option nat) w : Prop := ∀ j, x = Some j → ∃ p, peers w !! j = Some p ∧ p_done p = true.
Lemma known_grow' x w w' : done_grow w w' → known x w → known x w'.
Proof. intros Hg Hk j [p Hp]%Hk. destruct (Hg j p Hp) as (p' & -> & _). eauto. Qed.
Lemma ended_grow x w w' : done_grow w w' → ended x w → ended x w'.
Proof. intros Hg Hk j (p & Hp & Hd)%Hk. destruct (Hg j p Hp) as (p' & ? & ?). eauto. Qed.

Lemma new_places k robot s w w' a :
  GetOrCreate k robot w = (s, w') → peers w !! k = None → places_good w →
  let w2 := set_peers (<[k := Peer a [] false Entering None false NotYet [] [] []]> (peers w')) w' in
  places_good w2 ∧ own_turn k w w2 ∧ status k w2 = Some (a, Entering, None, false).
Proof.
  intros E Hk [H1 H2 H3 H4] w2.
  assert (Hp : peers w2 = <[k := Peer a [] false Entering None false NotYet [] [] []]> (peers w)).
  { subst w2. cbn. f_equal. unfold GetOrCreate in E. case_match; by simplify_eq. }
  assert (Hg : ∀ j q, peers w !! j = Some q → peers w2 !! j = Some q).
  { intros j q Hq. rewrite Hp, lookup_insert_ne; [done|congruence]. }
  assert (Hsk : sigs w !! k = None). { apply eq_None_not_Some. intros [p Hp']%H4. congruence. }
  assert (Hsub : sigs w2 = sigs w ∨ sigs w2 = <[k := MkSession robot None None]> (sigs w)).
  { unfold GetOrCreate in E. destruct (registry w !! robot) as [n|] eqn:Hr; simplify_eq; cbn; auto. }
  clearbody w2. clear E. split_and!; [split|..].
  - intros n x r j Hn Hj. destruct Hsub as [Es|Es]; rewrite Es in Hn.
    + destruct (H1 n x r j Hn Hj) as (p & ? & ?). eauto.
    + apply lookup_insert_Some in Hn as [[<- <-]|[_ Hn]]; [by destruct r|]. destruct (H1 n x r j Hn Hj) as (p & ? & ?). eauto.
  - intros j q. rewrite Hp, lookup_insert. case_decide; [intros [= <-] [|]; done|]. intros Hq Hst.
    destruct (H2 j q Hq Hst) as [(x & Hx & ?)|[?|(k2 & p2 & Hp2 & ?)]]; [left|auto|do 2 right].
    + exists x. split; [|done]. destruct Hsub as [-> | ->]; [done|]. rewrite lookup_insert_ne; [done|congruence].
    + exists k2, p2. split; [by apply Hg|done].
  - intros j q. rewrite Hp, lookup_insert. case_decide; [by intros [= <-]|]. eauto.
  - intros n [x Hn]. rewrite Hp, lookup_insert. case_decide; [by eexists|]. apply H4.
    destruct Hsub as [Es|Es]; rewrite Es in Hn; [by eexists|]. rewrite lookup_insert_ne in Hn by done. by eexists.
  - split; [intros j Hj; by rewrite Hp, lookup_insert_ne|]. intros j q Hq. eauto.
  - unfold status. by rewrite Hp, lookup_insert_eq.
Qed.

(** Connection [k] goes from [p] to [p'], and places change with it. *)
Lemma own_change k p p' w w' :
  places_good w → peers w !! k = Some p → peers w' = <[k := p']> (peers w) → p_info p' = p_info p → (p_done p = true → p_done p' = true) →
  (∀ n, is_Some (sigs w' !! n) → is_Some (sigs w !! n)) →
  (∀ n s' r j, sigs w' !! n = Some s' → place r s' = Some j →
     if decide (j = k) then r = pi_role (p_info p) ∧ n = pi_session (p_info p) ∧ staying (p_stage p')
     else ∃ s, sigs w !! n = Some s ∧ place r s = Some j) →
  (∀ j q, j ≠ k → peers w !! j = Some q → in_place j (p_info q) w → in_place j (p_info q) w' ∨ replaced j (p_info q) w') →
  (∀ j q, p_stage p = Joining → p_prev p = Some j → peers w !! j = Some q → p_done q = true ∨ p_stage p' = Joining ∧ p_prev p' = Some j) →
  (staying (p_stage p') → in_place k (p_info p) w' ∨ p_done p' = true ∨ replaced k (p_info p) w') →
  (p_reading p' = true → p_stage p' = Serving) →
  places_good w' ∧ own_turn k w w'.
Proof.
  intros [H1 H2 H3 H4] Hk Ep Ei Ed Hdom Hpl Hin Hrep Hown Hread.
  assert (Hl : ∀ j, peers w' !! j = if decide (j = k) then Some p' else peers w !! j).
  { intros j. rewrite Ep, lookup_insert. repeat case_decide; by subst. }
  split; [split|split].
  - intros n s' r j Hn Hj. specialize (Hpl n s' r j Hn Hj). rewrite Hl. case_decide; [subst j|].
    + destruct Hpl as (-> & -> & Hst). exists p'. by rewrite Ei.
    + destruct Hpl as (s & Hs & Hr). by eapply H1.
  - intros j q. rewrite Hl. case_decide; [subst j; intros [= <-]; by rewrite Ei|]. intros Hq Hst.
    destruct (H2 j q Hq Hst) as [Hi|[?|(k2 & p2 & Hp2 & R1 & R2 & R3 & R4)]]; [|auto|].
    + destruct (Hin j q) as [?|?]; auto.
    + destruct (decide (k2 = k)) as [->|Hne].
      * simplify_eq. destruct (Hrep j q R1 R2 Hq) as [?|[? ?]]; [auto|]. do 2 right. exists k, p'. rewrite Hl, decide_True, Ei by done. done.
      * do 2 right. exists k2, p2. by rewrite Hl, decide_False.
  - intros j q. rewrite Hl. case_decide; [by intros [= <-]|eauto].
  - intros n Hn%Hdom%H4. rewrite Hl. case_decide; [by eexists|done].
  - intros j Hj. by rewrite Hl, decide_False.
  - intros j q Hq. rewrite Hl. case_decide; [|eauto]. subst j. simplify_eq. eauto.
Qed.

Lemma on_peer_lookup k f p w : peers w !! k = Some p → peers (on_peer k f w) = <[k := f p]> (peers w).
Proof. intros Hp. cbn. by apply alter_Some_insert. Qed.

(** A connection that has not joined is in no place. *)
Lemma not_placed k p w n x r :
  places_good w → peers w !! k = Some p → ¬ staying (p_stage p) → sigs w !! n = Some x → place r x ≠ Some k.
Proof. intros Hok Hp Hst Hn Hr. destruct (pg_place _ Hok n x r k Hn Hr) as (p' & ? & _ & _ & Hs'). by simplify_eq. Qed.

Lemma took_places k p s w :
  places_good w → peers w !! k = Some p → p_stage p = Entering → p_reading p = false → sigs w !! pi_session (p_info p) = Some s →
  let prev := place (pi_role (p_info p)) s in
  let w' := on_peer k (peer_stage Joining prev)
              (set_sigs (<[pi_session (p_info p) := set_place (pi_role (p_info p)) (Some k) s]> (sigs w)) w) in
  places_good w' ∧ own_turn k w w' ∧ peers w' = <[k := peer_stage Joining prev p]> (peers w).
Proof.
  intros Hok Hp Hst Hrd Hs prev w'.
  assert (Hnot : ∀ n x r, sigs w !! n = Some x → place r x ≠ Some k).
  { intros n x r Hn. eapply not_placed; try done. rewrite Hst. by intros [|]. }
  assert (Hp' : peers w' = <[k := peer_stage Joining prev p]> (peers w)) by exact (alter_Some_insert _ _ _ _ Hp).
  assert (Hs' : ∀ n, sigs w' !! n = if decide (n = pi_session (p_info p)) then Some (set_place (pi_role (p_info p)) (Some k) s) else sigs w !! n).
  { intros n. cbn. rewrite lookup_insert. repeat case_decide; by subst. }
  destruct (own_change k p (peer_stage Joining prev p) w w') as [? ?]; try done.
  - intros n. rewrite Hs'. case_decide; [subst|done]. rewrite Hs. by eexists.
  - intros n x r j. rewrite Hs'. case_decide as Hn; [|intros Hx Hj; case_decide; [subst; by edestruct Hnot|eauto]].
    intros [= <-]. subst n. destruct (decide (r = pi_role (p_info p))) as [->|Hr]; intros Hj.
    + assert (j = k) as -> by (destruct (pi_role (p_info p)); cbn in Hj; congruence). rewrite decide_True by done. cbn. by repeat split; left.
    + assert (place r s = Some j) as Hj' by (destruct (pi_role (p_info p)), r; cbn in *; congruence).
      case_decide; [subst; by edestruct Hnot|eauto].
  - intros j q Hj Hq (x & Hx & Hpl). destruct (decide (pi_session (p_info q) = pi_session (p_info p))) as [En|En].
    2: { left. exists x. by rewrite Hs', decide_False. }
    rewrite En, Hs in Hx. injection Hx as <-. destruct (decide (pi_role (p_info q) = pi_role (p_info p))) as [Er|Er].
    + right. exists k, (peer_stage Joining prev p). rewrite Hp', lookup_insert_eq. split_and!; try done. cbn. subst prev. by rewrite <-Er.
    + left. exists (set_place (pi_role (p_info p)) (Some k) s). rewrite Hs', decide_True by done. split; [done|].
      by destruct (pi_role (p_info p)), (pi_role (p_info q)).
  - congruence.
  - left. exists (set_place (pi_role (p_info p)) (Some k) s). rewrite Hs', decide_True by done. split; [done|]. by destruct (pi_role (p_info p)).
  - cbn. congruence.
Qed.

Lemma join_places k info window w r w' :
  join k info window w = (r, w') → status k w = Some (info, Entering, None, false) → places_good w →
  places_good w' ∧ own_turn k w w' ∧
  match r with Took prev _ => status k w' = Some (info, Joining, prev, false) ∧ known prev w' | Debounced => True end.
Proof.
  intros E (p & Hp & <- & Hst & Hpr & Hrd)%status_Some Hok. unfold join in E.
  destruct (sigs w !! pi_session (p_info p)) as [s|] eqn:Hs.
  2: { simplify_eq. split; [done|]. split; [|done]. split; [done|]. intros j q. eauto. }
  destruct (shouldDebouncePeerReplacement _ _ _); injection E as <- <-.
  - destruct (own_change k p (peer_stage Refused None p) w (on_peer k (peer_stage Refused None) w)) as [? ?]; try done.
    + by apply on_peer_lookup.
    + intros n x r j Hn Hj. case_decide; [|eauto]. subst. edestruct (not_placed k p w n x r); try done. rewrite Hst. by intros [|].
    + intros. by left.
    + congruence.
    + by intros [|].
    + cbn. congruence.
  - destruct (took_places k p s w) as (H1 & H2 & H3); try done. split_and!; try done.
    + unfold status. rewrite H3, lookup_insert_eq. cbn. by rewrite Hrd.
    + intros j Hj. destruct (pg_place _ Hok _ _ _ _ Hs Hj) as (q & Hq & _). rewrite H3, lookup_insert. case_decide; [by eexists|]. by rewrite Hq.
Qed.

(** The pumps start, and the reader ends: the stage of [k] changes where it stays. *)
Lemma stay_places k p p' w w' :
  places_good w → peers w !! k = Some p → peers w' = <[k := p']> (peers w) → sigs w' = sigs w → p_info p' = p_info p →
  (p_done p = true → p_done p' = true) → staying (p_stage p) → p_stage p' = Serving → (p_stage p = Joining → ended (p_prev p) w) →
  places_good w' ∧ own_turn k w w'.
Proof.
  intros Hok Hp Hp' Es Ei Ed Hst Hst' Hend. apply (own_change k p p' w w'); try done.
  - intros n. by rewrite Es.
  - rewrite Es. intros n s r j Hn Hj. destruct (pg_place _ Hok n s r j Hn Hj) as (q & Hq & <- & <- & Hs).
    case_decide; [subst; simplify_eq; by split_and!; [..|right]|eauto].
  - unfold in_place. rewrite Es. auto.
  - intros j q HJ Hj Hq. left. destruct (Hend HJ j Hj) as (q' & ? & ?). by simplify_eq.
  - intros _. destruct (pg_peer _ Hok k p Hp Hst) as [Hin|[?|(k2 & p2 & Hp2 & R1 & R2 & R)]]; [left|auto|right].
    + unfold in_place. by rewrite Es.
    + destruct (decide (k2 = k)) as [->|Hne].
      * simplify_eq. destruct (Hend R1 k R2) as (q & ? & ?). simplify_eq. auto.
      * right. exists k2, p2. by rewrite Hp', lookup_insert_ne.
Qed.

Lemma leave_places k info prev w l w' :
  leave k info w = (l, w') → status k w = Some (info, Serving, prev, false) → places_good w → places_good w' ∧ own_turn k w w'.
Proof.
  intros E (p & Hp & Hi & Hst & Hpr & Hrd)%status_Some Hok. unfold leave in E.
  destruct (sigs w !! pi_session info) as [s|] eqn:Hs.
  2: { simplify_eq. split; [done|]. split; [done|]. intros j q. eauto. }
  set (c := bool_decide _) in E. set (s' := if c then _ else s) in E. injection E as _ <-. set (w' := on_peer k _ _).
  assert (Hp' : peers w' = <[k := peer_stage (Gone c) (p_prev p) p]> (peers w)) by exact (alter_Some_insert _ _ _ _ Hp).
  assert (Hs' : ∀ n, sigs w' !! n = if decide (n = pi_session info) then Some s' else sigs w !! n).
  { intros n. cbn. rewrite lookup_insert. repeat case_decide; by subst. }
  assert (Hpl : ∀ r j, place r s' = Some j ↔ place r s = Some j ∧ j ≠ k).
  { intros r j. assert (Hk : place r s = Some k → r = pi_role info).
    { intros Hj. destruct (pg_place _ Hok _ _ _ _ Hs Hj) as (q & ? & <- & _). by simplify_eq. }
    subst s' c. case_bool_decide as Hc; [destruct (decide (r = pi_role info)) as [->|Hr]|].
    - destruct (pi_role info); cbn in *; naive_solver.
    - assert (place r (set_place (pi_role info) None s) = place r s) as -> by (by destruct (pi_role info), r). naive_solver.
    - split; [|naive_solver]. intros Hj. split; [done|]. intros ->. apply Hc. by rewrite <-(Hk Hj). }
  apply (own_change k p (peer_stage (Gone c) (p_prev p) p) w w'); try done.
  - intros n. rewrite Hs'. case_decide; [subst|done]. rewrite Hs. by eexists.
  - intros n x r j. rewrite Hs'. case_decide as Hn.
    + intros [= <-] [Hj Hne]%Hpl. subst n. rewrite decide_False by done. eauto.
    + intros Hx Hj. destruct (pg_place _ Hok _ _ _ _ Hx Hj) as (q & Hq & Hr & Hq' & _). case_decide; [|eauto]. congruence.
  - intros j q Hj Hq (x & Hx & Hr). left. destruct (decide (pi_session (p_info q) = pi_session info)) as [En|En].
    + exists s'. rewrite Hs', decide_True by done. split; [done|]. apply Hpl. rewrite En, Hs in Hx. by injection Hx as <-.
    + exists x. by rewrite Hs', decide_False.
  - congruence.
  - by intros [|].
  - cbn. congruence.
Qed.

(** *** Goroutines *)

Local Abbreviation psafe := (safe (I := sig_input) places_good places_rely).
Local Abbreviation pbind := (safe_bind (I := sig_input) places_good places_rely).

Definition lasting k (K : exchange M → Prop) : Prop := ∀ w w', places_rely (GPeer k) w w' → K w → K w'.
Lemma status_lasting k x : lasting k (λ w, status k w = x).
Proof. intros w w' [_ E] <-. done. Qed.
Lemma ended_lasting k x : lasting k (ended x).
Proof. intros w w' [Hg _]. by apply ended_grow. Qed.
Lemma known_lasting k x : lasting k (known x).
Proof. intros w w' [Hg _]. by apply known_grow'. Qed.
Lemma lasting_and k K K' : lasting k K → lasting k K' → lasting k (λ w, K w ∧ K' w).
Proof. intros H1 H2 w w' Hr [? ?]. split; [by eapply H1|by eapply H2]. Qed.

Lemma calm_keep {A} k (t : thread (exchange M) sig_input A) K w :
  within calm t → lasting k K → K w → psafe (GPeer k) t (λ _ w, K w) w.
Proof.
  intros Ht HK. apply (within_safe_keep places_good places_rely _ calm); [|by intros w1 w2 ? ?; eapply HK| |done].
  - intros w1 w2 H1 H2. destruct (calm_places _ _ H1 H2) as [? Hr]. split; [done|]. intros g _. apply Hr.
  - intros w1 w2 H1 H2 H3. destruct (calm_places _ _ H1 H3) as [? Hr]. eapply HK; [apply Hr|done].
Qed.
Lemma calm_safe {A} g (t : thread (exchange M) sig_input A) w : within calm t → psafe g t (λ _ _, True) w.
Proof.
  apply within_safe. intros w1 w2 H1 H2. destruct (calm_places _ _ H1 H2) as [? Hr]. split; [done|]. intros g' _. apply Hr.
Qed.
Lemma own_act {A} k (f : sig_input → exchange M → option (A * exchange M)) (K : exchange M → Prop) (Q : A → exchange M → Prop) w :
  lasting k K → (∀ a, lasting k (Q a)) →
  (∀ i w a w', K w → places_good w → f i w = Some (a, w') → places_good w' ∧ own_turn k w w' ∧ Q a w') →
  K w → psafe (GPeer k) (await f) Q w.
Proof.
  intros HK HQ Hf Hw. apply safe_await. intros i w1 a w2 Hr Hi E.
  destruct (Hf i w1 a w2) as (Hi2 & Ho & Hq); [by eapply HK|done|done|]. split_and!; [done|by apply own_turn_others|].
  intros w3 Hr3 _. by eapply HQ.
Qed.

Lemma take_over_places k info prev counterpart w :
  status k w = Some (info, Joining, prev, false) → known prev w →
  psafe (GPeer k) (take_over k info prev counterpart)
    (λ _ w, status k w = Some (info, Joining, prev, false) ∧ ended prev w) w.
Proof.
  intros Hs Hk. set (K := λ w, status k w = Some (info, Joining, prev, false)). unfold take_over.
  eapply (pbind _ _ _ (λ _ w, K w ∧ known prev w)).
  { apply calm_keep; [|apply lasting_and; [apply status_lasting|apply known_lasting]|done]. case_match; [apply enqueueSignal_calm|done]. }
  intros _ w1 _ [Hs1 Hk1]. eapply (pbind _ _ _ (λ _ w, K w ∧ ended prev w)).
  { destruct prev as [j|]; cbn [closeDone]; [|apply safe_ret; intros w' Hr _; split; [by eapply status_lasting|by intros ?]].
    apply safe_atomic. intros i w2 Hr2 Hi2. cbn. assert (Hc : calm w2 (on_peer j peer_done w2)) by (by apply on_peer_calm).
    destruct (calm_places _ _ Hi2 Hc) as [Hi3 Hr3]. split_and!; [done|by intros g _|]. intros w3 Hr4 _.
    assert (Hk2 : known (Some j) w2) by (by eapply known_lasting). split.
    - eapply (status_lasting _ _ w2); [|by eapply (status_lasting _ _ w1)]. etrans; [apply Hr3|done].
    - eapply ended_lasting; [exact Hr4|]. intros j' [= <-]. destruct (Hk2 j eq_refl) as [p Hp]. exists (peer_done p). cbn.
      by rewrite lookup_alter_eq, Hp. }
  intros _ w2 _ HK2. apply calm_keep; [|apply lasting_and; [apply status_lasting|apply ended_lasting]|done]. case_match; [|done].
  repeat (apply within_bind; [|intros _]); try apply enqueueSignal_calm; apply change_calm; intros; by apply asks_calm.
Qed.

Lemma handler_places k raw rq w : psafe (GPeer k) (SignalingHandler k raw rq;; mret tt) (λ _ _, True) w.
Proof.
  eapply (pbind _ _ _ (λ _ _, True)); [|by intros]. unfold SignalingHandler.
  destruct (admit_peer rq) as [[robotID role]|[st err]]; [|done]. destruct (sr_upgrade rq); [|done]. cbn [negb].
  eapply (pbind _ _ _ (λ _ _, True)).
  { apply calm_safe. unfold bootstrap_id, sig_uuid. case_bool_decide; [|done].
    apply within_await. intros i w1 a w2 E. case_match; by simplify_eq. }
  intros bid w1 _ _. cbv zeta. eapply (pbind _ _ _ (λ _ _, True)).
  { apply calm_safe, within_await. intros i w2 a w3 E. by simplify_eq. }
  intros now w2 _ _. set (mk := λ s, PeerInfo role robotID s now (trim (sr_ip rq)) bid (trim (sr_route rq))).
  eapply (pbind _ _ _ (λ info w, status k w = Some (info, Entering, None, false))).
  { apply (own_act k _ (λ _, True)); [done|intros; apply status_lasting| |done]. intros i w3 info w4 _ Hok E. case_decide as Hk; [|done].
    destruct (GetOrCreate k robotID w3) as [s w5] eqn:Eg. injection E as <- <-. by apply (new_places k robotID s w3 w5). }
  intros info w3 _ Hs. eapply (pbind _ _ _ (λ r w,
    match r with Took prev _ => status k w = Some (info, Joining, prev, false) ∧ known prev w | Debounced => True end)).
  { apply (own_act k _ _ _ _ (status_lasting k (Some (info, Entering, None, false)))); [|intros i w4 r w5 Hs4 Hok E; injection E as E; by eapply join_places|done].
    intros [|]; [done|]. apply lasting_and; [apply status_lasting|apply known_lasting]. }
  intros [|prev counterpart] w4 _; [done|]. intros [Hs4 Hk4].
  eapply pbind; [by apply take_over_places|]. cbv beta. intros _ w5 _ HK5.
  eapply (pbind _ _ _ (λ _ _, True)); [|by intros].
  apply (own_act k _ (λ w, status k w = Some (info, Joining, prev, false) ∧ ended prev w)); [|done| |done].
  { apply lasting_and; [apply status_lasting|apply ended_lasting]. }
  intros i w6 [] w7 [(p & Hp & ? & Hst & Hpr & _)%status_Some He] Hok E. injection E as <-.
  destruct (stay_places k p (peer_runs true (started (p_writer p)) Serving p) w6
    (on_peer k (λ p, peer_runs true (started (p_writer p)) Serving p) w6)) as [? ?]; try done.
  - exact (alter_Some_insert _ _ _ _ Hp).
  - by left.
  - by rewrite Hpr.
Qed.

Lemma reader_places k info prev x w :
  status k w = Some (info, Serving, prev, true) → psafe (GPeer k) (readPump k info x) (λ _ _, True) w.
Proof.
  intros Hs. destruct x as [msg|]; cbn [readPump].
  - apply calm_safe. apply within_bind; [|done]. apply within_await. intros i w1 a w2 E. injection E as E.
    assert (H1 : calm w1 (on_peer k (peer_reads msg) w1)) by (by apply on_peer_calm). etrans; [exact H1|].
    unfold relay_signal in E. repeat case_match; simplify_eq; try done.
    all: match goal with E : try_put ?x ?d ?m ?w = _ |- _ => replace w2 with (try_put x d m w).2 by (by rewrite E); apply try_put_calm end.
  - eapply (pbind _ _ _ (λ _ w, status k w = Some (info, Serving, prev, false))).
    { apply (own_act k _ _ _ _ (status_lasting k (Some (info, Serving, prev, true)))); [intros; apply status_lasting| |done].
      intros i w1 [] w2 (p & Hp & Hi & Hst & Hpr & Hrd)%status_Some Hok E. injection E as <-.
      set (f := λ p : PeerConn M, peer_done (peer_runs false (p_writer p) (p_stage p) p)).
      assert (Hp' : peers (on_peer k f w1) = <[k := f p]> (peers w1)) by exact (alter_Some_insert _ _ _ _ Hp).
      destruct (stay_places k p (f p) w1 (on_peer k f w1)) as [? ?]; try done; [by right|congruence|].
      split_and!; try done. apply status_Some. exists (f p). by rewrite Hp', lookup_insert_eq. }
    intros _ w1 _ Hs1. unfold sig_ends. eapply (pbind _ _ _ (λ _ _, True)).
    { apply (own_act k _ _ _ _ (status_lasting k (Some (info, Serving, prev, false)))); [done| |done].
      intros i w2 l w3 Hs2 Hok E. injection E as E. destruct (leave_places _ _ _ _ _ _ E Hs2 Hok). done. }
    intros l w2 _ _. apply calm_safe. repeat (apply within_bind; [|intros _]); [apply enqueueSignal_calm|..]; case_match; try done;
      apply change_calm; intros; [apply asks_calm|apply remove_calm].
Qed.

Lemma writer_places k w : psafe (GPeerWriter k) (writePump k) (λ _ _, True) w.
Proof.
  apply calm_safe, within_await. intros i w1 [] w2 (p & Hp & E)%bind_Some. case_match; [done|]. cbv zeta in E.
  repeat case_match; simplify_eq; rewrite ?on_peer_compose; try done; by apply on_peer_calm.
Qed.

Lemma places_start_safe e : start_safe sig_code sig_startable places_good places_rely (e : sig_entry (M := M)).
Proof.
  intros w Hok Hs. destruct e as [k raw rq|k info x|k|n]; cbn [sig_code fst snd] in *.
  - apply handler_places.
  - cbn in Hs. destruct (peers w !! k) as [p|] eqn:E; [|done]. apply andb_prop in Hs as [Hi%bool_decide_eq_true Hr].
    apply (reader_places _ _ (p_prev p)), status_Some. exists p. split_and!; try done. by eapply pg_reading.
  - apply writer_places.
  - apply calm_safe, change_calm. intros w1. repeat case_match; by try apply asks_calm.
Qed.

Lemma places_begin : safe_system (I := sig_input) places_good places_rely (System (newExchange (M := M)) ∅).
Proof. split; [split|]; cbn; try by intros *; rewrite lookup_empty. Qed.

(** C12: one connection per place.  In every run and in every interleaving: a place of a
    session is held by a connection of that role and session whose handler has not left;
    a connection that is being read holds its place, or was told to end, or has a
    successor that holds the place and is about to tell it; hence of all connections of
    one role in one session at most one is read, not told to end and not replaced. *)
Theorem places_exclusive evs s :
  sys_run sig_code sig_startable evs (System (newExchange (M := M)) ∅) = Some s →
  (∀ n x r k, sigs (shared s) !! n = Some x → place r x = Some k →
     ∃ p, peers (shared s) !! k = Some p ∧ pi_role (p_info p) = r ∧ pi_session (p_info p) = n ∧ staying (p_stage p))
  ∧ (∀ k p, peers (shared s) !! k = Some p → p_reading p = true →
       in_place k (p_info p) (shared s) ∨ p_done p = true ∨ replaced k (p_info p) (shared s))
  ∧ (∀ k k' p p', peers (shared s) !! k = Some p → peers (shared s) !! k' = Some p' →
       (∀ j q, j = k ∧ q = p ∨ j = k' ∧ q = p' → p_reading q = true ∧ p_done q = false ∧ ¬ replaced j (p_info q) (shared s)) →
       pi_session (p_info p) = pi_session (p_info p') → pi_role (p_info p) = pi_role (p_info p') → k = k').
Proof.
  intros Hrun. destruct (run_safe _ _ _ _ _ _ _ (λ e _, places_start_safe e) places_begin Hrun) as [Hok _].
  assert (H2 : ∀ k p, peers (shared s) !! k = Some p → p_reading p = true →
    in_place k (p_info p) (shared s) ∨ p_done p = true ∨ replaced k (p_info p) (shared s)).
  { intros k p Hp Hr. apply (pg_peer _ Hok); [done|]. right. by eapply (pg_reading _ Hok). }
  split_and!; [by apply (pg_place _ Hok)|done|]. intros k k' p p' Hk Hk' Hq Es Er.
  destruct (Hq k p) as (R1 & D1 & N1); [auto|]. destruct (Hq k' p') as (R2 & D2 & N2); [auto|].
  destruct (H2 k p Hk R1) as [(x & Hx & P1)|[?|?]], (H2 k' p' Hk' R2) as [(x' & Hx' & P2)|[?|?]]; try congruence; done.
Qed.
End Places.

(** ** What is asked of the platform *)

Lemma filter_all {A} (P : A → Prop) `{∀ x, Decision (P x)} l : Forall P l → filter P l = l.
Proof. induction 1; [done|]. rewrite filter_cons_True by done. by f_equal. Qed.
Lemma filter_nothing {A} (P : A → Prop) `{∀ x, Decision (P x)} l : Forall (λ x, ¬ P x) l → filter P l = [].
Proof. induction 1; [done|]. by rewrite filter_cons_False. Qed.

Section Asks.
Context `{GS : !GoStrings, GU : !GoUuid} {M : Type}.
Implicit Types (w : exchange M) (msg : SignalMessage M) (p q : PeerConn M) (k j : nat) (info : peerInfo).

(** All that the handler of a client asks for. *)
Definition script k info : list ask :=
  [Activate k (pi_robot info) (bootstrapID info);
   Trigger k (pi_robot info) false (observedSrcIP info) (bootstrapID info) (routeType info);
   Trigger k (pi_robot info) true "" (bootstrapID info) (routeType info)].
Definition asked k w : list ask := filter (λ a, a_peer a = k) (asks w).*1.

(** How much of it, at which stage. *)
Definition reached (r : role) (st : stage) (n : nat) : Prop :=
  match r, st with
  | RoleAgent, _ | RoleClient, (Entering | Refused) => n = 0%nat
  | RoleClient, Joining => (n <= 2)%nat
  | RoleClient, Serving => n = 2%nat
  | RoleClient, Gone current => n = 2%nat ∨ current = true ∧ n = 3%nat
  end.

(** How far the handler of [k] is. *)
Definition progress k w : option (peerInfo * stage) := (λ p, (p_info p, p_stage p)) <$> peers w !! k.

Record asks_good w : Prop := {
  ag_peer k : match progress k w with
              | Some (info, st) => ∃ n, asked k w = take n (script k info) ∧ reached (pi_role info) st n
              | None => asked k w = []
              end;
  ag_reading k p : peers w !! k = Some p → p_reading p = true → p_stage p = Serving;
  ag_made : made w ≡ₚ (filter (λ x, x.2 = true) (asks w)).*1;
}.

Definition own_view k w : option (peerInfo * stage * bool) * list ask :=
  ((λ p, (p_info p, p_stage p, p_reading p)) <$> peers w !! k, asked k w).
Definition asks_rely (g : sig_name) w w' : Prop := match g with GPeer k => own_view k w' = own_view k w | _ => True end.

#[export] Instance asks_rely_preorder : Rely asks_rely.
Proof. intros []; (split; [done|]); intros w1 w2 w3; cbn; congruence. Qed.

(** Actions that ask for nothing, with the handlers where they were. *)
Definition still w w' : Prop := asks w' = asks w ∧ made w' = made w ∧ ∀ k, own_view k w' = own_view k w.

Lemma view_progress k w w' : own_view k w' = own_view k w → progress k w' = progress k w ∧ asked k w' = asked k w.
Proof. unfold own_view, progress. intros [= E1 E2]. split; [|done]. destruct (peers w !! k), (peers w' !! k); cbn in *; congruence. Qed.

Lemma still_asks w w' : asks_good w → still w w' → asks_good w' ∧ ∀ g, asks_rely g w w'.
Proof.
  intros [H1 H2 H3] (E1 & E2 & Hv). split; [split|by intros []; cbn].
  - intros k. destruct (view_progress _ _ _ (Hv k)) as [-> ->]. exact (H1 k).
  - intros k p Hp Hr. specialize (Hv k). unfold own_view in Hv. rewrite Hp in Hv. destruct (peers w !! k) as [p0|] eqn:E; [|done].
    cbn in Hv. injection Hv as Ei Es Er. rewrite Es. eapply H2; [exact E|]. congruence.
  - by rewrite E1, E2.
Qed.

Lemma on_peer_still k f w :
  (∀ p, p_info (f p) = p_info p ∧ p_stage (f p) = p_stage p ∧ p_reading (f p) = p_reading p) → still w (on_peer k f w).
Proof.
  intros Hf. split_and!; [done|done|]. intros j. unfold own_view. f_equal. cbn. rewrite lookup_alter. case_decide; [subst|done].
  destruct (peers w !! j) as [p|]; cbn; [|done]. by destruct (Hf p) as (-> & -> & ->).
Qed.
Lemma try_put_still x k msg w : still w (try_put x k msg w).2.
Proof. unfold try_put. repeat case_match; cbn; try done. by apply on_peer_still. Qed.
Lemma enqueueSignal_still x msg : within (I := sig_input) still (enqueueSignal x msg).
Proof.
  unfold enqueueSignal. destruct x; [|done]. apply within_bind; [|done]. apply within_await. intros i w a w' E. injection E as E.
  replace w' with (try_put None n msg w).2 by (by rewrite E). apply try_put_still.
Qed.
Lemma closeDone_still x : within (I := sig_input) still (closeDone (M := M) x).
Proof. destruct x; [|done]. apply within_await. intros i w [] w' E. injection E as <-. by apply on_peer_still. Qed.

(** The handler of [k] goes on, with or without asking. *)
Lemma own_asks k w w' l :
  asks_good w → (∀ j, j ≠ k → peers w' !! j = peers w !! j) → asks w' = asks w ++ l →
  made w' = made w ++ (filter (λ x, x.2 = true) l).*1 → Forall (λ x, a_peer x.1 = k) l →
  match progress k w' with
  | Some (info, st) => ∃ n, asked k w ++ l.*1 = take n (script k info) ∧ reached (pi_role info) st n
  | None => asked k w ++ l.*1 = []
  end →
  (∀ p, peers w' !! k = Some p → p_reading p = true → p_stage p = Serving) →
  asks_good w' ∧ others asks_rely (GPeer k) w w' ∧ asked k w' = asked k w ++ l.*1.
Proof.
  intros [H1 H2 H3] Ho Ea Em Hl Hk Hr.
  assert (Hsame : asked k w' = asked k w ++ l.*1).
  { unfold asked. rewrite Ea, fmap_app, filter_app. f_equal. apply filter_all. by apply Forall_fmap. }
  assert (Hother : ∀ j, j ≠ k → asked j w' = asked j w).
  { intros j Hj. unfold asked. rewrite Ea, fmap_app, filter_app. rewrite (filter_nothing _ (l.*1)); [by rewrite app_nil_r|].
    apply Forall_fmap. eapply Forall_impl; [exact Hl|]. cbn. intros x. congruence. }
  split_and!; [split| |done].
  - intros j. destruct (decide (j = k)) as [->|Hj]; [by rewrite Hsame|]. rewrite Hother by done. unfold progress. rewrite Ho by done.
    exact (H1 j).
  - intros j p. destruct (decide (j = k)) as [->|Hj]; [by apply Hr|]. rewrite Ho by done. apply H2.
  - rewrite Ea, Em, filter_app, fmap_app. by rewrite H3.
  - intros [j| |] Hj; cbn; try done. unfold own_view. by rewrite Ho, Hother by congruence.
Qed.

(** What the handler knows of itself: what it is, how far, whether it is read, and how
    much it has asked for. *)
Definition view k info (st : stage) (rd : bool) (n : nat) w : Prop := own_view k w = (Some (info, st, rd), take n (script k info)).

Lemma view_peer k info st rd n w :
  view k info st rd n w → asked k w = take n (script k info)
  ∧ ∃ p, peers w !! k = Some p ∧ p_info p = info ∧ p_stage p = st ∧ p_reading p = rd.
Proof.
  unfold view, own_view. intros [= E1 E2]. split; [done|]. destruct (peers w !! k) as [p|]; [|done]. cbn in E1. exists p. by simplify_eq.
Qed.

Lemma own_step k p' l n w w' :
  asks_good w → (∀ j, j ≠ k → peers w' !! j = peers w !! j) → peers w' !! k = Some p' → asks w' = asks w ++ l →
  made w' = made w ++ (filter (λ x, x.2 = true) l).*1 → Forall (λ x, a_peer x.1 = k) l →
  asked k w ++ l.*1 = take n (script k (p_info p')) → reached (pi_role (p_info p')) (p_stage p') n →
  (p_reading p' = true → p_stage p' = Serving) →
  asks_good w' ∧ others asks_rely (GPeer k) w w' ∧ view k (p_info p') (p_stage p') (p_reading p') n w'.
Proof.
  intros Hok Ho Hp Ea Em Hl Hn Hr Hrd. destruct (own_asks k w w' l) as (H1 & H2 & H3); try done.
  - unfold progress. rewrite Hp. cbn. eauto.
  - intros p Hp'. by simplify_eq.
  - split_and!; [done|done|]. unfold view, own_view. rewrite Hp, H3. cbn. congruence.
Qed.

(** An action on the connection itself that asks for nothing. *)
Lemma own_move k f n info st rd w w' :
  asks_good w → view k info st rd n w → peers w' = alter f k (peers w) → asks w' = asks w → made w' = made w →
  (∀ p, p_info (f p) = p_info p) → (∀ p, p_stage p = st → reached (pi_role info) (p_stage (f p)) n) →
  (∀ p, p_stage p = st → p_reading p = rd → p_reading (f p) = true → p_stage (f p) = Serving) →
  asks_good w' ∧ others asks_rely (GPeer k) w w'
  ∧ ∃ p, p_info p = info ∧ p_stage p = st ∧ p_reading p = rd ∧ view k info (p_stage (f p)) (p_reading (f p)) n w'.
Proof.
  intros Hok (Ha & p & Hp & Hi & Hst & Hrd)%view_peer Ep Ea Em Hf Hr Hs.
  destruct (own_step k (f p) [] n w w') as (H1 & H2 & H3); try done.
  - intros j Hj. by rewrite Ep, lookup_alter_ne.
  - by rewrite Ep, lookup_alter_eq, Hp.
  - by rewrite Ea, app_nil_r.
  - by rewrite Em, app_nil_r.
  - cbn. by rewrite app_nil_r, Hf, Hi.
  - rewrite Hf, Hi. by apply Hr.
  - by apply Hs.
  - split_and!; [done|done|]. exists p. rewrite Hf, Hi in H3. done.
Qed.

(** *** Goroutines *)

Local Abbreviation asafe := (safe (I := sig_input) asks_good asks_rely).
Local Abbreviation abind := (safe_bind (I := sig_input) asks_good asks_rely).

Lemma view_act {A} k info st rd n (f : sig_input → exchange M → option (A * exchange M)) (Q : A → exchange M → Prop) w :
  (∀ a w w', own_view k w' = own_view k w → Q a w → Q a w') →
  (∀ i w a w', view k info st rd n w → asks_good w → f i w = Some (a, w') → asks_good w' ∧ others asks_rely (GPeer k) w w' ∧ Q a w') →
  view k info st rd n w → asafe (GPeer k) (await f) Q w.
Proof.
  intros HQ Hf Hw. apply safe_await. intros i w1 a w2 Hr Hi E. cbn in Hr.
  destruct (Hf i w1 a w2) as (Hi2 & Ho & Hq); [by unfold view; rewrite Hr|done|done|]. split_and!; [done|done|].
  intros w3 Hr3 _. by eapply HQ.
Qed.
Lemma view_still {A} k info st rd n (t : thread (exchange M) sig_input A) w :
  within still t → view k info st rd n w → asafe (GPeer k) t (λ _ w, view k info st rd n w) w.
Proof.
  intros Ht. apply (within_safe_keep asks_good asks_rely _ still); [|by unfold view; intros w1 w2 <-| |done].
  - intros w1 w2 H1 H2. destruct (still_asks _ _ H1 H2) as [? Hr]. split; [done|]. intros g _. apply Hr.
  - intros w1 w2 _ H1 (_ & _ & Hv). unfold view. by rewrite Hv.
Qed.
Lemma still_safe {A} g (t : thread (exchange M) sig_input A) w : within still t → asafe g t (λ _ _, True) w.
Proof.
  apply within_safe. intros w1 w2 H1 H2. destruct (still_asks _ _ H1 H2) as [? Hr]. split; [done|]. intros g' _. apply Hr.
Qed.

(** The next of the requests is made. *)
Lemma ask_act k info st rd n a (called : bool) f w :
  (∀ w, peers (f w) = peers w ∧ asks (f w) = asks w ++ [(a, called)] ∧ made (f w) = made w ++ if called then [a] else []) →
  nth_error (script k info) n = Some a → reached (pi_role info) st (S n) → (rd = true → st = Serving) → view k info st rd n w →
  asafe (GPeer k) (change f) (λ _ w, view k info st rd (S n) w) w.
Proof.
  intros Hf Hn Hr Hs. apply view_act; [by unfold view; intros _ w1 w2 ->|]. intros i w1 [] w2 Hv Hok E. injection E as <-.
  destruct (Hf w1) as (Fp & Fa & Fm). destruct (view_peer _ _ _ _ _ _ Hv) as (Ha & p & Hp & <- & <- & <-).
  apply (own_step k p [(a, called)]); try done.
  - intros j _. by rewrite Fp.
  - by rewrite Fp.
  - rewrite Fm. by destruct called.
  - constructor; [|done]. cbn. destruct n as [|[|[|[|n]]]]; cbn in Hn; by simplify_eq.
  - rewrite Ha. cbn [fmap list_fmap fst]. destruct n as [|[|[|[|n]]]]; cbn in Hn; by simplify_eq.
Qed.

(** How much a handler has asked for when it serves. *)
Definition served (r : role) : nat := match r with RoleAgent => 0 | RoleClient => 2 end.

Lemma take_over_asks k info prev counterpart w :
  view k info Joining false 0 w →
  asafe (GPeer k) (take_over k info prev counterpart) (λ _ w, view k info Joining false (served (pi_role info)) w) w.
Proof.
  intros Hv. unfold take_over. eapply (abind _ _ _ (λ _ w, view k info Joining false 0 w)).
  { apply view_still; [|done]. case_match; [apply enqueueSignal_still|done]. }
  intros _ w1 _ H1. eapply (abind _ _ _ (λ _ w, view k info Joining false 0 w)).
  { apply view_still; [apply closeDone_still|done]. }
  intros _ w2 _ H2. case_bool_decide as Ec.
  2: { destruct (pi_role info) eqn:Er; [|done]. apply safe_ret. intros w3 Hr _. unfold view. by rewrite Hr. }
  rewrite Ec. eapply abind.
  { apply (ask_act k info Joining false 0 (Activate k (pi_robot info) (bootstrapID info)) true); try done. rewrite Ec. cbn. lia. }
  intros ? w3 _ H3. eapply abind; [apply (view_still k info Joining false 1); [apply enqueueSignal_still|exact H3]|]. intros ? w4 _ H4.
  eapply (ask_act k info Joining false 1 _ false); try done; [|rewrite Ec; cbn; lia].
  intros w5. split_and!; [done..|]. by rewrite app_nil_r.
Qed.

Lemma join_asks k info window w r w' :
  join k info window w = (r, w') → asks_good w → view k info Entering false 0 w →
  asks_good w' ∧ others asks_rely (GPeer k) w w' ∧ match r with Took _ _ => view k info Joining false 0 w' | Debounced => True end.
Proof.
  unfold join. intros E Hok Hv. destruct (sigs w !! pi_session info) as [s|]; [|simplify_eq; split_and!; try done; by intros [] _].
  destruct (shouldDebouncePeerReplacement _ _ _); injection E as <- <-.
  - destruct (own_move k (peer_stage Refused None) 0 info Entering false w (on_peer k (peer_stage Refused None) w)) as (? & ? & _);
      try done; first [by intros; cbn; destruct (pi_role info)|cbn; congruence].
  - set (w' := on_peer k _ _).
    destruct (own_move k (peer_stage Joining (place (pi_role info) s)) 0 info Entering false w w') as (H1 & H2 & p & ? & ? & Hrd & H3); try done.
    + intros p _. change (reached (pi_role info) Joining 0). destruct (pi_role info); cbn; lia.
    + cbn. congruence.
    + cbn [peer_stage p_stage p_reading] in H3. rewrite Hrd in H3. done.
Qed.

Lemma handler_asks k raw rq w : asafe (GPeer k) (SignalingHandler k raw rq;; mret tt) (λ _ _, True) w.
Proof.
  eapply (abind _ _ _ (λ _ _, True)); [|by intros]. unfold SignalingHandler.
  destruct (admit_peer rq) as [[robotID role]|[st err]]; [|done]. destruct (sr_upgrade rq); [|done]. cbn [negb].
  eapply (abind _ _ _ (λ _ _, True)).
  { apply still_safe. unfold bootstrap_id, sig_uuid. case_bool_decide; [|done].
    apply within_await. intros i w1 a w2 E. case_match; by simplify_eq. }
  intros bid w1 _ _. cbv zeta. eapply (abind _ _ _ (λ _ _, True)).
  { apply still_safe, within_await. intros i w2 a w3 E. by simplify_eq. }
  intros now w2 _ _. set (mk := λ s, PeerInfo role robotID s now (trim (sr_ip rq)) bid (trim (sr_route rq))).
  eapply (abind _ _ _ (λ info w, view k info Entering false 0 w)).
  { apply safe_await. intros i w3 info w4 _ Hok E. case_decide as Hk; [|done].
    destruct (GetOrCreate k robotID w3) as [s w5] eqn:Eg. injection E as <- <-.
    assert (Eg' : peers w5 = peers w3 ∧ asks w5 = asks w3 ∧ made w5 = made w3) by (unfold GetOrCreate in Eg; case_match; by simplify_eq).
    destruct Eg' as (E1 & E2 & E3).
    edestruct (own_step k (Peer (mk s) [] false Entering None false NotYet [] [] []) [] 0 w3) as (H1 & H2 & H3); [done|..|].
    9: { split_and!; [exact H1|exact H2|]. intros w6 Hr _. unfold view. rewrite Hr. exact H3. }
    all: cbn; rewrite ?E1, ?E2, ?E3, ?app_nil_r; try done.
    - intros j Hj. by rewrite lookup_insert_ne.
    - by rewrite lookup_insert_eq.
    - pose proof (ag_peer _ Hok k) as H0. unfold progress in H0. by rewrite Hk in H0.
    - by destruct role. }
  intros info w3 _ Hs. eapply (abind _ _ _ (λ r w, match r with Took _ _ => view k info Joining false 0 w | Debounced => True end)).
  { apply (view_act k info Entering false 0); [|intros i w4 r w5 Hv Hok E; injection E as E; by eapply join_asks|done].
    intros [|] w4 w5 E; [done|]. unfold view. by rewrite E. }
  intros [|prev counterpart] w4 _; [done|]. intros Hv4. eapply abind; [by apply take_over_asks|]. cbv beta. intros _ w5 _ Hv5.
  eapply (abind _ _ _ (λ _ _, True)); [|by intros]. apply (view_act k info Joining false (served (pi_role info))); [done| |done].
  intros i w6 [] w7 Hv Hok E. injection E as <-.
  destruct (own_move k (λ p : PeerConn M, peer_runs true (started (p_writer p)) Serving p) (served (pi_role info)) info Joining false w6
    (on_peer k (λ p : PeerConn M, peer_runs true (started (p_writer p)) Serving p) w6)) as (? & ? & _); try done.
  intros. cbn. by destruct (pi_role info).
Qed.

Lemma leave_asks k info w l w' :
  leave k info w = (l, w') → asks_good w → view k info Serving false (served (pi_role info)) w →
  asks_good w' ∧ others asks_rely (GPeer k) w w' ∧ (wasCurrent l = true → view k info (Gone true) false (served (pi_role info)) w').
Proof.
  unfold leave. intros E Hok Hv. destruct (sigs w !! pi_session info) as [s|]; [|simplify_eq; split_and!; try done; by intros [] _].
  set (c := bool_decide _) in E. injection E as <- <-. set (w' := on_peer k _ _).
  destruct (own_move k (λ p : PeerConn M, peer_stage (Gone c) (p_prev p) p) (served (pi_role info)) info Serving false w w')
    as (H1 & H2 & p & ? & ? & Hrd & H3); try done.
  - intros. cbn. destruct (pi_role info); cbn; auto.
  - cbn. congruence.
  - split_and!; try done. cbn [wasCurrent]. intros ->. cbn [peer_stage p_stage p_reading] in H3. by rewrite Hrd in H3.
Qed.

Lemma reader_asks k info x w : view k info Serving true (served (pi_role info)) w → asafe (GPeer k) (readPump k info x) (λ _ _, True) w.
Proof.
  intros Hv. destruct x as [msg|]; cbn [readPump].
  - apply still_safe. apply within_bind; [|done]. apply within_await. intros i w1 a w2 E. injection E as E.
    assert (H1 : still w1 (on_peer k (peer_reads msg) w1)) by (by apply on_peer_still).
    assert (Ht : ∀ x d m, still w1 (try_put x d m (on_peer k (peer_reads msg) w1)).2).
    { intros y d m. destruct (try_put_still y d m (on_peer k (peer_reads msg) w1)) as (A1 & A2 & A3), H1 as (B1 & B2 & B3).
      split_and!; [congruence|congruence|]. intros j. by rewrite A3. }
    unfold relay_signal in E. repeat case_match; simplify_eq; try done.
    all: match goal with E : try_put ?x ?d ?m _ = _ |- _ => specialize (Ht x d m); by rewrite E in Ht end.
  - eapply (abind _ _ _ (λ _ w, view k info Serving false (served (pi_role info)) w)).
    { apply (view_act k info Serving true (served (pi_role info))); [by unfold view; intros _ w1 w2 ->| |done].
      intros i w1 [] w2 Hv1 Hok E. injection E as <-.
      set (f := λ p : PeerConn M, peer_done (peer_runs false (p_writer p) (p_stage p) p)).
      destruct (own_move k f (served (pi_role info)) info Serving true w1 (on_peer k f w1)) as (H1 & H2 & p & _ & Hst & _ & H3); try done.
      - intros p Hp. cbn. rewrite Hp. by destruct (pi_role info).
      - cbn [f peer_done peer_runs p_stage p_reading] in H3. rewrite Hst in H3. done. }
    intros _ w1 _ Hv1. unfold sig_ends.
    eapply (abind _ _ _ (λ l w, wasCurrent l = true → view k info (Gone true) false (served (pi_role info)) w)).
    { apply (view_act k info Serving false (served (pi_role info))); [by unfold view; intros l w2 w3 ->| |done].
      intros i w2 l w3 Hv2 Hok E. injection E as E. by apply leave_asks. }
    intros l w2 _ Hl. eapply (abind _ _ _ (λ _ w, wasCurrent l = true → view k info (Gone true) false (served (pi_role info)) w)).
    { destruct (wasCurrent l); [|eapply safe_weaken; [apply still_safe, enqueueSignal_still|done]].
      eapply safe_weaken; [apply view_still; [apply enqueueSignal_still|by apply Hl]|done]. }
    intros _ w3 _ Hl3. eapply (abind _ _ _ (λ _ _, True)).
    { case_bool_decide as Ec; [|done]. destruct (wasCurrent l); [|done]. specialize (Hl3 eq_refl). rewrite Ec in Hl3.
      eapply safe_weaken; [eapply (ask_act k info (Gone true) false 2 _ false); try done|done].
      - intros w4. split_and!; [done..|]. by rewrite app_nil_r.
      - rewrite Ec. cbn. auto. }
    intros _ w4 _ _. apply still_safe. case_match; [|done]. apply within_await. intros i w5 [] w6 E. by injection E as <-.
Qed.

Lemma call_asks n w : asafe (GTrigger n) (call_trigger n) (λ _ _, True) w.
Proof.
  apply safe_atomic. intros i w1 _ Hok. cbn. destruct (asks w1 !! n) as [[a [|]]|] eqn:En; cbn.
  1, 3: split_and!; try done; by intros [] _.
  assert (Ha : (<[n := (a, true)]> (asks w1)).*1 = (asks w1).*1).
  { rewrite list_fmap_insert. cbn. apply list_insert_id. by rewrite list_lookup_fmap, En. }
  assert (Hk : ∀ k, asked k (set_asks (<[n := (a, true)]> (asks w1)) (made w1 ++ [a]) w1) = asked k w1).
  { intros k. unfold asked. cbn. by rewrite Ha. }
  split_and!; [|intros [k| |] _; cbn; try done; unfold own_view; by rewrite Hk|done].
  destruct Hok as [H1 H2 H3]. split; [intros k; rewrite Hk; exact (H1 k)|done|]. cbn. rewrite H3.
  rewrite <-(take_drop_middle _ _ _ En) at 1. rewrite insert_take_drop by (by eapply lookup_lt_Some).
  rewrite !filter_app, !filter_cons, !fmap_app. cbn. rewrite decide_False, decide_True by done. cbn.
  rewrite <-app_assoc. apply Permutation_app_head. by rewrite Permutation_app_comm.
Qed.

Lemma asks_start_safe e : start_safe sig_code sig_startable asks_good asks_rely (e : sig_entry (M := M)).
Proof.
  intros w Hok Hs. destruct e as [k raw rq|k info x|k|n]; cbn [sig_code fst snd] in *.
  - apply handler_asks.
  - cbn in Hs. destruct (peers w !! k) as [p|] eqn:E; [|done]. apply andb_prop in Hs as [Hi%bool_decide_eq_true Hr].
    apply reader_asks. pose proof (ag_reading _ Hok k p E Hr) as Hst. pose proof (ag_peer _ Hok k) as Hn. unfold progress in Hn. rewrite E in Hn.
    cbn in Hn. rewrite Hst in Hn. destruct Hn as (n & Ha & Hn). unfold view, own_view. rewrite E, Ha. cbn. rewrite Hi, Hst, Hr in *.
    replace n with (served (pi_role info)); [done|]. by destruct (pi_role info).
  - apply still_safe, within_await. intros i w1 [] w2 (p & Hp & E)%bind_Some. case_match; [done|]. cbv zeta in E.
    repeat case_match; simplify_eq; rewrite ?on_peer_compose; try done; by apply on_peer_still.
  - apply call_asks.
Qed.

Lemma asks_begin : safe_system (I := sig_input) asks_good asks_rely (System (newExchange (M := M)) ∅).
Proof. split; [split|]; cbn; try done; intros k; try by rewrite lookup_empty. Qed.

(** C13: what a client has the platform do.  In every run and in every interleaving, the
    handler of a client asks for its session to be activated and for the robot to be
    triggered, once each, when it takes its place, and for the teardown at most once,
    after that, and only if nobody had taken its place when it left: a client that was
    replaced never tears down what its successor uses.  All requests name the robot and
    the bootstrap id of the client; agents and connections turned away ask for nothing;
    and the calls that were made are those requested, each once. *)
Theorem client_requests evs s :
  sys_run sig_code sig_startable evs (System (newExchange (M := M)) ∅) = Some s →
  (∀ k p, peers (shared s) !! k = Some p → p_stage p = Serving →
     asked k (shared s) = match pi_role (p_info p) with RoleAgent => [] | RoleClient => take 2 (script k (p_info p)) end)
  ∧ (∀ k p, peers (shared s) !! k = Some p → asked k (shared s) `prefix_of` script k (p_info p)
       ∧ (asked k (shared s) ≠ [] → pi_role (p_info p) = RoleClient ∧ p_stage p ≠ Entering ∧ p_stage p ≠ Refused)
       ∧ (asked k (shared s) = script k (p_info p) → p_stage p = Gone true))
  ∧ (∀ a, a ∈ (asks (shared s)).*1 → is_Some (peers (shared s) !! a_peer a))
  ∧ ∃ later, (asks (shared s)).*1 ≡ₚ made (shared s) ++ later.
Proof.
  intros Hrun. destruct (run_safe _ _ _ _ _ _ _ (λ e _, asks_start_safe e) asks_begin Hrun) as [[H1 H2 H3] _].
  assert (Hp : ∀ k p, peers (shared s) !! k = Some p → ∃ n, asked k (shared s) = take n (script k (p_info p))
    ∧ reached (pi_role (p_info p)) (p_stage p) n).
  { intros k p Hk. specialize (H1 k). unfold progress in H1. by rewrite Hk in H1. }
  split_and!.
  - intros k p Hk Hst. destruct (Hp k p Hk) as (n & -> & Hn). rewrite Hst in Hn. destruct (pi_role (p_info p)); by rewrite Hn.
  - intros k p (n & -> & Hn)%Hp. split_and!; [apply prefix_take| |].
    + intros Hne. destruct (pi_role (p_info p)), (p_stage p); cbn in Hn; subst; done.
    + intros E%(f_equal length). rewrite length_take in E. cbn in E. destruct (pi_role (p_info p)), (p_stage p); cbn in Hn; try lia.
      destruct Hn as [?|[-> _]]; [lia|done].
  - intros a Ha. destruct (peers (shared s) !! a_peer a) eqn:E; [by eexists|]. specialize (H1 (a_peer a)). unfold progress in H1.
    rewrite E in H1. exfalso. cbn in H1. apply (elem_of_nil a). rewrite <-H1. by apply list_elem_of_filter.
  - exists (filter (λ x, x.2 ≠ true) (asks (shared s))).*1. rewrite H3, <-fmap_app. by rewrite filter_app_complement.
Qed.
End Asks.
