(* ===== verification/SignalMeet.v ===== *)
(** * Coming together (go/webrtc)

    What a request for signalling leads to, when nothing interferes, in any state that
    can be reached: on every branch of the handler, and for the messages of two
    connections that face each other. *)

From Stdlib Require Import Ascii String.
From S2P Require Import Prelude Text ConnState Evidence Threads Hub Signal SignalSafe.

Section Meet.
Context `{GS : !GoStrings, GU : !GoUuid} {M : Type}.
Implicit Types (w : exchange M) (msg : SignalMessage M) (p q : PeerConn M) (k j : nat) (info : peerInfo).

(** ** Who may signal *)

(** The robot's own key, or the consent of the platform. *)
Definition may_signal (rq : signal_request) (robot : string) (r : role) : Prop :=
  robot = trim (sr_robot rq) ∧ robot ≠ "" ∧ uuid_Parse robot = true
  ∧ match r with
    | RoleAgent => trim (sr_role rq) = "agent"
        ∧ ∃ key, key ≠ "" ∧ (key = trim (sr_header rq) ∨ trim (sr_header rq) = "" ∧ key = trim (sr_query rq))
                 ∧ sr_verify rq robot key = Ok true
    | RoleClient => trim (sr_role rq) = "client" ∧ sr_authorize rq robot = Ok tt
    end.

Lemma admit_peer_spec rq :
  match admit_peer rq with
  | Ok (robot, r) => may_signal rq robot r
  | Err _ => ∀ robot r, ¬ may_signal rq robot r
  end.
Proof.
  unfold admit_peer, may_signal. case_bool_decide as H1; [naive_solver|].
  destruct (uuid_Parse _) eqn:H2; [|intros ? ? (-> & _ & ? & _); congruence]. cbn [negb].
  case_bool_decide as H3; [|case_bool_decide as H4]; cbn [negb andb]; [| |intros ? [] (-> & _ & _ & ? & _); congruence].
  - set (key := if bool_decide (trim (sr_header rq) = "") then trim (sr_query rq) else trim (sr_header rq)).
    assert (Hkey : ∀ key', key' ≠ "" →
      (key' = trim (sr_header rq) ∨ trim (sr_header rq) = "" ∧ key' = trim (sr_query rq)) ↔ key' ≠ "" ∧ key' = key).
    { intros key' Hne. subst key. case_bool_decide; naive_solver. }
    clearbody key. case_bool_decide as H5; [|destruct (sr_verify _ _ _) as [[]|] eqn:Hv].
    2: { split_and!; try done. exists key. split_and!; [done|by apply Hkey|done]. }
    all: intros ? [] (-> & _ & _ & Hr & Hk); try congruence; destruct Hk as (key' & Hne & [_ ->]%Hkey & Hv'); [congruence..|done].
  - destruct (sr_authorize _ _) as [[]|] eqn:Ha; [done|]. intros ? [] (-> & _ & _ & Hr & Hk); congruence.
Qed.

(** ** Taking a place *)

(** The same address, or the same attempt, within the window. *)
Definition too_soon (window : Z) (old new : peerInfo) : Prop :=
  0 < window ∧ Sub (connectedAt new) (connectedAt old) <= window
  ∧ (trim (observedSrcIP old) ≠ "" ∧ trim (observedSrcIP new) ≠ "" ∧ EqualFold (trim (observedSrcIP old)) (trim (observedSrcIP new)) = true
     ∨ trim (bootstrapID old) ≠ "" ∧ trim (bootstrapID new) ≠ "" ∧ EqualFold (trim (bootstrapID old)) (trim (bootstrapID new)) = true).

Lemma debounce_spec old new window : shouldDebouncePeerReplacement (Some old) new window = true ↔ too_soon window old new.
Proof.
  unfold shouldDebouncePeerReplacement, too_soon. destruct (Z.leb_spec window 0); [split; [done|lia]|].
  destruct (Sub _ _ >? window) eqn:E; [split; [done|lia]|]. cbv zeta.
  repeat case_bool_decide; cbn [negb andb]; destruct (EqualFold (trim (observedSrcIP old)) _), (EqualFold (trim (bootstrapID old)) _); naive_solver lia.
Qed.

(** The platform puts a message in a queue if it can. *)
Definition offered msg q : PeerConn M := if (length (p_send q) <? 32)%nat then peer_put None msg q else q.

(** What becomes of a connection when [info] takes the place of [prev] opposite
    [counterpart]. *)
Definition after_join info (prev counterpart : option nat) j q : PeerConn M :=
  let client := bool_decide (pi_role info = RoleClient) in
  if decide (prev = Some j) then peer_done (if client then offered (notice "session-preempted" info) q else q)
  else if decide (counterpart = Some j) then if client then offered (notice "client-ready" info) q else q
  else q.

Lemma after_join_other info prev counterpart j q : prev ≠ Some j → counterpart ≠ Some j → after_join info prev counterpart j q = q.
Proof. intros. unfold after_join. by rewrite !decide_False. Qed.

(** The session there is, or a new one. *)
Definition found k (robot : string) w n (x : Session) : Prop :=
  registry w !! robot = Some n ∧ sigs w !! n = Some x ∨ registry w !! robot = None ∧ n = k ∧ x = MkSession robot None None.

(** A state is as another but for connections. *)
Definition but_peers w w' : Prop := registry w' = registry w ∧ sigs w' = sigs w ∧ asks w' = asks w ∧ made w' = made w.

Lemma alone_enqueue i x msg w :
  ∃ w', alone i (enqueueSignal x msg) w = Some (tt, w') ∧ but_peers w w'
    ∧ ∀ j, peers w' !! j = (λ q, if decide (x = Some j) then offered msg q else q) <$> peers w !! j.
Proof.
  assert (Hid : ∀ j, peers w !! j = (λ q : PeerConn M, q) <$> peers w !! j) by (intros; by destruct (peers w !! j)).
  unfold enqueueSignal. destruct x as [k|]; alone_steps; [|exists w; split_and!; [done..|]; exact Hid].
  unfold try_put. destruct (peers w !! k) as [p|] eqn:Ek.
  - destruct (_ <? _)%nat eqn:El; cbn [fst snd]; (eexists; split; [reflexivity|]; split; [done|]); intros j;
      (destruct (decide (Some k = Some j)) as [[= <-]|Hj]; [|]).
    + cbn [on_peer set_peers peers]. rewrite lookup_alter_eq, Ek. cbv [fmap option_fmap option_map]. unfold offered. by rewrite El.
    + cbn [on_peer set_peers peers]. rewrite lookup_alter_ne by congruence. apply Hid.
    + rewrite Ek. cbv [fmap option_fmap option_map]. unfold offered. by rewrite El.
    + apply Hid.
  - eexists. split; [reflexivity|]. split; [done|]. intros j. cbn. destruct (decide (Some k = Some j)) as [[= <-]|]; [by rewrite Ek|apply Hid].
Qed.

Lemma alone_closeDone i x w :
  ∃ w', alone i (closeDone x) w = Some (tt, w') ∧ but_peers w w'
    ∧ ∀ j, peers w' !! j = (λ q, if decide (x = Some j) then peer_done q else q) <$> peers w !! j.
Proof.
  assert (Hid : ∀ j, peers w !! j = (λ q : PeerConn M, q) <$> peers w !! j) by (intros; by destruct (peers w !! j)).
  unfold closeDone. destruct x as [k|]; unfold change; alone_steps; (eexists; split; [reflexivity|]; split; [done|]); intros j; cbn; [|apply Hid].
  rewrite lookup_alter. repeat case_decide; simplify_eq; [done|apply Hid].
Qed.

Definition requests k info : list (ask * bool) :=
  if bool_decide (pi_role info = RoleClient)
  then [(Activate k (pi_robot info) (bootstrapID info), true);
        (Trigger k (pi_robot info) false (observedSrcIP info) (bootstrapID info) (routeType info), false)] else [].

Lemma alone_take_over i k info prev counterpart w :
  (∀ j, prev = Some j → counterpart ≠ Some j) →
  ∃ w', alone i (take_over k info prev counterpart) w = Some (tt, w') ∧ registry w' = registry w ∧ sigs w' = sigs w
    ∧ asks w' = asks w ++ requests k info
    ∧ ∀ j, peers w' !! j = after_join info prev counterpart j <$> peers w !! j.
Proof.
  intros Hne. unfold take_over, requests, after_join. case_bool_decide as Hc; alone_steps.
  - destruct (alone_enqueue i prev (notice "session-preempted" info) w) as (w1 & -> & (R1 & S1 & A1 & M1) & P1). alone_steps.
    destruct (alone_closeDone i prev w1) as (w2 & -> & (R2 & S2 & A2 & M2) & P2). unfold activate, go_trigger, change.
    alone_steps.
    set (w3 := set_asks _ _ w2).
    destruct (alone_enqueue i counterpart (notice "client-ready" info) w3) as (w4 & -> & (R4 & S4 & A4 & M4) & P4). alone_steps.
    eexists. split; [reflexivity|]. subst w3. cbn [set_asks registry sigs asks made peers] in *.
    split_and!; [congruence|congruence|by rewrite A4, A2, A1, <-app_assoc|].
    intros j. rewrite P4, P2, P1. destruct (peers w !! j); cbn; [|done]. f_equal.
    repeat case_decide; try done. by edestruct Hne.
  - destruct (alone_closeDone i prev w) as (w2 & -> & (R2 & S2 & A2 & M2) & P2). alone_steps.
    eexists. split; [reflexivity|]. split_and!; [done|done|by rewrite app_nil_r|]. intros j. rewrite P2. destruct (peers w !! j); cbn; [|done].
    f_equal. by repeat case_decide.
Qed.

(** What [GetOrCreate] and the new connection make of a state. *)
Lemma new_peer_found k robot w n w1 :
  queues_good w → GetOrCreate k robot w = (n, w1) →
  ∃ x, found k robot w n x ∧ registry w1 !! robot = Some n ∧ sigs w1 !! n = Some x ∧ peers w1 = peers w ∧ asks w1 = asks w
    ∧ (∀ y, <[n := y]> (sigs w1) = <[n := y]> (sigs w)) ∧ (∀ r j, place r x = Some j → sigs w1 = sigs w).
Proof.
  intros Hok. unfold GetOrCreate, found. destruct (registry w !! robot) as [m|] eqn:Er; intros [= <- <-].
  - destruct (qs_registry _ Hok _ _ Er) as (x & Hx & _). exists x. split_and!; auto.
  - exists (MkSession robot None None). cbn. rewrite !lookup_insert_eq. split_and!; auto.
    + intros y. apply insert_insert_eq.
    + by intros [].
Qed.

(** How a handler ends in state [w], for connection [info] in session [x]. *)
Definition place_taken k info (window : Z) (x : Session) w w' : Prop :=
  (∀ j q, place (pi_role info) x = Some j → peers w !! j = Some q → ¬ too_soon window (p_info q) info)
  ∧ sigs w' = <[pi_session info := set_place (pi_role info) (Some k) x]> (sigs w)
  ∧ (∃ p, peers w' !! k = Some p ∧ p_info p = info ∧ p_reading p = true ∧ p_writer p = Running)
  ∧ (∀ j q, peers w !! j = Some q → peers w' !! j = Some (after_join info (place (pi_role info) x) (place (other_role (pi_role info)) x) j q))
  ∧ asks w' = asks w ++ requests k info.
Definition place_kept k info (window : Z) (x : Session) w w' : Prop :=
  (∃ j q, place (pi_role info) x = Some j ∧ peers w !! j = Some q ∧ too_soon window (p_info q) info)
  ∧ sigs w' = sigs w ∧ asks w' = asks w ∧ ∀ j, j ≠ k → peers w' !! j = peers w !! j.

(** The part of the handler after the upgrade. *)
Definition enter k info (window : Z) : thread (exchange M) sig_input answer :=
  r ← atomic (λ _, join k info window);
  match r with
  | Debounced => mret (CloseFrame 1013 "duplicate signaling reconnect debounced")
  | Took prev counterpart => take_over k info prev counterpart;; sig_pumps k;; mret Accepted
  end.

Lemma alone_enter i k info window x w w1 :
  queues_good w → found k (pi_robot info) w (pi_session info) x → peers w !! k = None →
  registry w1 !! pi_robot info = Some (pi_session info) → sigs w1 !! pi_session info = Some x →
  peers w1 = <[k := Peer info [] false Entering None false NotYet [] [] []]> (peers w) → asks w1 = asks w →
  (∀ y, <[pi_session info := y]> (sigs w1) = <[pi_session info := y]> (sigs w)) → (∀ r j, place r x = Some j → sigs w1 = sigs w) →
  ∃ w', alone i (enter k info window) w1 = Some (CloseFrame 1013 "duplicate signaling reconnect debounced", w') ∧ place_kept k info window x w w'
     ∧ registry w' !! pi_robot info = Some (pi_session info)
    ∨ alone i (enter k info window) w1 = Some (Accepted, w') ∧ place_taken k info window x w w'
     ∧ registry w' !! pi_robot info = Some (pi_session info).
Proof.
  intros Hok Hf Hk Hr Hs Hp Ha Hins Hsame. unfold enter. alone_steps. unfold join. rewrite Hs.
  assert (Hplace : ∀ r j, place r x = Some j → ∃ q, peers w !! j = Some q ∧ pi_role (p_info q) = r ∧ pi_session (p_info q) = pi_session info).
  { intros r j Hj. destruct Hf as [[_ Hx]|(_ & _ & ->)]; [|by destruct r]. by eapply (qs_place _ Hok). }
  assert (Hprev : (p_info <$> (place (pi_role info) x ≫= (peers w1 !!.))) = p_info <$> (place (pi_role info) x ≫= (peers w !!.))).
  { destruct (place (pi_role info) x) as [j|] eqn:Ej; [|done]. cbn. destruct (Hplace _ _ Ej) as (q & Hq & _). rewrite Hp, lookup_insert_ne by congruence. done. }
  rewrite Hprev. destruct (shouldDebouncePeerReplacement _ _ _) eqn:Ed.
  - alone_steps. eexists. left. split; [reflexivity|]. destruct (place (pi_role info) x) as [j|] eqn:Ej; [|done]. cbn in Ed.
    destruct (Hplace _ _ Ej) as (q & Hq & _). rewrite Hq in Ed. cbn in Ed. split; [|done]. split_and!.
    + exists j, q. split_and!; [done|done|]. by apply debounce_spec.
    + cbn. by eapply Hsame.
    + done.
    + intros j' Hj'. cbn. rewrite lookup_alter_ne, Hp, lookup_insert_ne by done. done.
  - set (w2 := on_peer k _ _). alone_steps.
    destruct (alone_take_over i k info (place (pi_role info) x) (place (other_role (pi_role info)) x) w2) as (w3 & E3 & R3 & S3 & A3 & P3).
    { intros j Hj Hj'. destruct (Hplace _ _ Hj) as (q & Hq & H1 & _), (Hplace _ _ Hj') as (q' & Hq' & H2 & _).
      rewrite Hq in Hq'. injection Hq' as <-. rewrite H1 in H2. by destruct (pi_role info). }
    rewrite E3. unfold sig_pumps, change. alone_steps. eexists. right. split; [reflexivity|]. split; [|by cbn; rewrite R3].
    assert (Hk2 : peers w3 !! k = Some (peer_stage Joining (place (pi_role info) x) (Peer info [] false Entering None false NotYet [] [] []))).
    { rewrite P3. cbn. rewrite lookup_alter_eq, Hp, lookup_insert_eq. cbn [fmap option_fmap option_map]. f_equal.
      apply after_join_other; intros Hj; destruct (Hplace _ _ Hj) as (q & ? & _); congruence. }
    split_and!.
    + intros j q Hj Hq Hts%debounce_spec. rewrite Hj in Ed. cbv [mbind option_bind] in Ed. rewrite Hq in Ed.
      cbv [fmap option_fmap option_map] in Ed. congruence.
    + cbn. rewrite S3. cbn. apply Hins.
    + eexists. cbn. rewrite lookup_alter_eq, Hk2. by split_and!.
    + intros j q Hq. assert (j ≠ k) by congruence. cbn. rewrite lookup_alter_ne, P3 by done. cbn. rewrite lookup_alter_ne, Hp, lookup_insert_ne, Hq by done. done.
    + cbn. by rewrite A3; cbn; rewrite Ha.
Qed.

(** C22: what a request for signalling leads to.  In any state that can be reached, and
    undisturbed: it is refused, with nothing changed, exactly if it comes neither with
    the key of the robot for an agent nor with the platform's consent for a client; else
    it finds the robot's session or makes one; it is turned away, with everybody in
    place, exactly if the one in its place came from the same address or for the same
    attempt within the window; else it takes the place, its predecessor is told to end,
    a client's also why, the agent is told of a client, the platform is asked for the
    session and the trigger, and nobody else notices. *)
Theorem signaling_outcome evs s i k raw rq r w' :
  sys_run sig_code sig_startable evs (System (newExchange (M := M)) ∅) = Some s → peers (shared s) !! k = None →
  alone i (SignalingHandler k raw rq) (shared s) = Some (r, w') →
  match r with
  | HttpError _ _ => w' = shared s ∧ ∀ robot ro, ¬ may_signal rq robot ro
  | UpgradeFailed => w' = shared s ∧ sr_upgrade rq = false
  | CloseFrame _ _ | Accepted =>
      ∃ info x, may_signal rq (pi_robot info) (pi_role info) ∧ sr_upgrade rq = true
        ∧ connectedAt info = si_now i ∧ observedSrcIP info = trim (sr_ip rq) ∧ routeType info = trim (sr_route rq)
        ∧ bootstrapID info ≠ "" ∧ (trim (sr_bootstrap rq) ≠ "" → bootstrapID info = trim (sr_bootstrap rq))
        ∧ found k (pi_robot info) (shared s) (pi_session info) x ∧ registry w' !! pi_robot info = Some (pi_session info)
        ∧ (if r is Accepted then place_taken else place_kept) k info (webrtcPreemptDebounceWindow raw) x (shared s) w'
  end.
Proof.
  intros Hrun Hk. destruct (run_safe _ _ _ _ _ _ _ (λ e _, queues_start_safe e) queues_begin Hrun) as [Hok _].
  set (w := shared s) in *. clearbody w. clear Hrun. pose proof (admit_peer_spec rq) as Hadm. unfold SignalingHandler.
  destruct (admit_peer rq) as [[robot ro]|[st err]]; [|by intros [= <- <-]]. destruct (sr_upgrade rq); cbn [negb]; [|by intros [= <- <-]].
  assert (Hb : ∀ r0, alone i (bootstrap_id rq) w = Some r0 → ∃ bid, r0 = (bid, w) ∧ bid ≠ "" ∧ (trim (sr_bootstrap rq) ≠ "" → bid = trim (sr_bootstrap rq))).
  { intros r0. unfold bootstrap_id, sig_uuid. case_bool_decide; alone_steps; [|intros [= <-]; eexists; by split_and!].
    destruct (_ && _) eqn:E; intros [= <-]. apply andb_prop in E as [E%bool_decide_eq_true _]. eexists. by split_and!. }
  alone_steps. destruct (alone i (bootstrap_id rq) w) as [r0|] eqn:Eb; [|done]. destruct (Hb r0 eq_refl) as (bid & -> & Hb1 & Hb2).
  unfold sig_clock, new_peer. alone_steps. rewrite decide_True by done.
  destruct (GetOrCreate k robot w) as [n w1] eqn:Eg. destruct (new_peer_found k robot w n w1 Hok Eg) as (x & Hf & Hr & Hs & Hp & Ha & Hins & Hsame).
  set (info := PeerInfo ro robot n (si_now i) (trim (sr_ip rq)) bid (trim (sr_route rq))). set (w2 := set_peers _ w1).
  destruct (alone_enter i k info (webrtcPreemptDebounceWindow raw) x w w2) as (w3 & Hout); try done.
  { cbn. by rewrite Hp. }
  alone_steps. intros Hal. assert (Hal' : alone i (enter k info (webrtcPreemptDebounceWindow raw)) w2 = Some (r, w')).
  { unfold enter. alone_steps. exact Hal. }
  destruct Hout as [(E & ? & ?)|(E & ? & ?)]; rewrite E in Hal'; injection Hal' as <- <-; exists info, x; by split_and!.
Qed.

(** ** Messages *)

(** The reader of a connection is given messages, one after the other. *)
Fixpoint reads k info (msgs : list (SignalMessage M)) : thread (exchange M) sig_input unit :=
  match msgs with
  | [] => mret tt
  | msg :: msgs => readPump k info (Some msg);; reads k info msgs
  end.

Lemma alone_reads i k info j x p q msgs w :
  sigs w !! pi_session info = Some x → place (other_role (pi_role info)) x = Some j → j ≠ k →
  peers w !! k = Some p → peers w !! j = Some q → (length (p_send q) + length msgs <= 32)%nat →
  ∃ w' p' q', alone i (reads k info msgs) w = Some (tt, w') ∧ sigs w' = sigs w
    ∧ peers w' !! k = Some p' ∧ p_send p' = p_send p
    ∧ peers w' !! j = Some q' ∧ p_send q' = p_send q ++ (stamp info <$> msgs).
Proof.
  intros Hx Hj Hne. revert p q w Hx. induction msgs as [|msg msgs IH]; intros p q w Hx Hp Hq Hroom.
  - exists w, p, q. split_and!; try done. cbn. by rewrite app_nil_r.
  - cbn [reads readPump]. alone_steps. unfold relay_signal. cbn [sigs on_peer set_peers]. rewrite Hx.
    assert (Hd : (if negb (bool_decide (pi_role info = RoleAgent)) then s_agent x else s_client x) = Some j) by (by destruct (pi_role info)).
    rewrite Hd. unfold try_put. cbn [peers on_peer set_peers]. rewrite lookup_alter_ne, Hq by done. cbn [length] in Hroom.
    destruct (Nat.ltb_spec (length (p_send q)) 32); [|lia]. alone_steps.
    edestruct (IH (peer_reads msg p) (peer_put (Some k) (stamp info msg) q)) as (w' & p' & q' & E & Es & ? & ? & ? & Eq).
    5: { rewrite E. eexists _, p', q'. split_and!; [reflexivity|by rewrite Es|done..|]. rewrite Eq. cbn. by rewrite <-app_assoc. }
    + exact Hx.
    + cbn. by rewrite lookup_alter_ne, lookup_alter_eq, Hp.
    + cbn. by rewrite lookup_alter_eq, lookup_alter_ne, Hq.
    + cbn. rewrite length_app. cbn. lia.
Qed.

(** Two connections in the places of one session reach each other.  When messages of
    one and then messages of the other are read, and there is room for them, each
    side's queue ends with what the other side sent, in order, with the robot's id and a
    bootstrap id filled in. *)
Theorem signals_meet i k j p q out back w :
  peers w !! k = Some p → peers w !! j = Some q → in_place k (p_info p) w → in_place j (p_info q) w → facing (p_info p) (p_info q) →
  (length (p_send q) + length out <= 32)%nat → (length (p_send p) + length back <= 32)%nat →
  ∃ w' p' q', alone i (reads k (p_info p) out;; reads j (p_info q) back) w = Some (tt, w')
    ∧ peers w' !! k = Some p' ∧ p_send p' = p_send p ++ (stamp (p_info q) <$> back)
    ∧ peers w' !! j = Some q' ∧ p_send q' = p_send q ++ (stamp (p_info p) <$> out).
Proof.
  intros Hp Hq (x & Hx & Hk) (y & Hy & Hj) (Hn & _ & Hr) Hout Hback. rewrite Hn, Hx in Hy. injection Hy as <-.
  assert (Hne : j ≠ k). { intros ->. rewrite Hp in Hq. injection Hq as <-. by destruct (pi_role (p_info p)). }
  destruct (alone_reads i k (p_info p) j x p q out w) as (w1 & p1 & q1 & E1 & Es & Hp1 & Ep1 & Hq1 & Eq1); try done; [by rewrite <-Hr|].
  destruct (alone_reads i j (p_info q) k x q1 p1 back w1) as (w2 & q2 & p2 & E2 & _ & Hq2 & Eq2 & Hp2 & Ep2); try done.
  - by rewrite Es, Hn.
  - rewrite Hr, <-Hk. by destruct (pi_role (p_info p)).
  - by rewrite Ep1.
  - exists w2, p2, q2. rewrite alone_bind, E1. split_and!; [done|done|by rewrite Ep2, Ep1|done|by rewrite Eq2, Eq1].
Qed.
End Meet.
