(* ===== verification/SignalDemo.v ===== *)
(** * Robots and clients signal: witnesses for Signal*.v

    Runs in which an agent and clients come, talk, replace each other and go; the
    theorems at these runs; and three runs in which the code falls short. *)

From Stdlib Require Import Ascii String.
From S2P Require Import Prelude Text Stream Protocol Auth ConnState Evidence Threads Hub HubDemo.
From S2P Require Import Signal SignalSafe SignalMeet.

#[local] Existing Instance toy_go_strings.
#[local] Existing Instance toy_go_uuid.

Abbreviation sig_system := (system (exchange Z) sig_input sig_name).
Abbreviation sig_event := (sevent sig_input sig_name (sig_entry (M := Z))).
Abbreviation sig_script := (list (item sig_input sig_name (sig_entry (M := Z)))).
Definition first_system : sig_system := System newExchange ∅.
Definition events_of (l : sig_script) : list sig_event := play sig_code sig_startable l first_system.
Abbreviation sig_checked evs := (run_checked sig_code sig_startable evs first_system).

(** Second [t], and a branch of a select. *)
Definition sig_at (t : Z) (branch : nat) : sig_input := SigInput (from_secs t) "boot0" branch true.
Definition does (e : sig_entry (M := Z)) (t : Z) : item sig_input sig_name (sig_entry (M := Z)) := Begin e (sig_at t 0) 100.

Definition from_robot (ip : string) : signal_request :=
  SignalRequest "robot_1" "agent" "key" "" (λ _ key, Ok (bool_decide (key = "key"))) (λ _, Err (401, "")) true "" "" ip.
Definition from_client (boot ip : string) : signal_request :=
  SignalRequest " robot_1" "client" "" "" (λ _ _, Ok false) (λ _, Ok tt) true boot "relay" ip.

Definition agent_info (n : nat) (t : Z) (ip : string) : peerInfo := PeerInfo RoleAgent "robot_1" n (from_secs t) ip "boot0" "".
Definition client_info (n : nat) (t : Z) (boot ip : string) : peerInfo := PeerInfo RoleClient "robot_1" n (from_secs t) ip boot "relay".
Definition says_so (type : string) (z : Z) : option (SignalMessage Z) := Some (Signal type (Some z) "other" "").

(** An agent and a client meet and talk; a second client replaces the first. *)
Definition talk : sig_script :=
  [ does (Signals 0 "" (from_robot "10.0.0.1")) 1;
    does (Signals 1 "" (from_client "boot1" "10.0.0.2")) 2;
    does (PeerReads 1 (client_info 0 2 "boot1" "10.0.0.2") (says_so "offer" 7)) 3;
    does (PeerReads 0 (agent_info 0 1 "10.0.0.1") (says_so "answer" 8)) 4;
    does (PeerWrites 1) 5;
    does (Signals 2 "" (from_client "boot2" "10.0.0.2")) 6;
    does (PeerReads 1 (client_info 0 2 "boot1" "10.0.0.2") None) 7;
    does (Triggers 1) 8 ].
Definition talk_evs : list sig_event := events_of talk.

Definition peer_check (k : nat) (check : PeerConn Z → bool) (s : sig_system) : bool :=
  match peers (shared s) !! k with Some p => check p | None => false end.
Lemma peer_checked k check s : peer_check k check s = true → ∃ p, peers (shared s) !! k = Some p ∧ check p = true.
Proof. unfold peer_check. destruct (peers (shared s) !! k); [eauto|done]. Qed.

#[local] Instance signal_eq_dec : EqDecision (SignalMessage Z).
Proof. solve_decision. Defined.
#[local] Instance answer_eq_dec : EqDecision answer.
Proof. solve_decision. Defined.

Lemma signals_relayed_witness :
  ∃ s p, sys_run sig_code sig_startable talk_evs first_system = Some s ∧ peers (shared s) !! 0%nat = Some p
    ∧ from 1 (p_put p) = [Signal "offer" (Some 7) "robot_1" "boot1"] ∧ (length (p_send p) <= 32)%nat.
Proof.
  destruct (sig_checked talk_evs (peer_check 0 (λ p, bool_decide (from 1 (p_put p) = [Signal "offer" (Some 7) "robot_1" "boot1"]))))
    as (s & Hrun & Hc); [vm_compute; reflexivity|]. apply peer_checked in Hc as (p & Hp & Hc%bool_decide_eq_true).
  destruct (signals_relayed talk_evs s 0 p Hrun Hp) as (_ & _ & _ & _ & _ & Hroom).
  exists s, p. split; [exact Hrun|]. split; [exact Hp|]. split; [exact Hc|exact Hroom].
Defined.

Lemma places_exclusive_witness :
  ∃ s p, sys_run sig_code sig_startable talk_evs first_system = Some s ∧ peers (shared s) !! 2%nat = Some p ∧ p_reading p = true
    ∧ (in_place 2 (p_info p) (shared s) ∨ p_done p = true ∨ replaced 2 (p_info p) (shared s)).
Proof.
  destruct (sig_checked talk_evs (peer_check 2 p_reading)) as (s & Hrun & Hc); [vm_compute; reflexivity|].
  apply peer_checked in Hc as (p & Hp & Hc). destruct (places_exclusive talk_evs s Hrun) as (_ & H & _).
  exists s, p. split; [exact Hrun|]. split; [exact Hp|]. split; [exact Hc|]. exact (H 2%nat p Hp Hc).
Defined.

(** The first client was replaced: no teardown. *)
Lemma client_requests_witness :
  ∃ s p, sys_run sig_code sig_startable talk_evs first_system = Some s ∧ peers (shared s) !! 1%nat = Some p
    ∧ p_stage p = Gone false ∧ asked 1 (shared s) `prefix_of` script 1 (p_info p) ∧ asked 1 (shared s) ≠ script 1 (p_info p).
Proof.
  destruct (sig_checked talk_evs (peer_check 1 (λ p, bool_decide (p_stage p = Gone false)))) as (s & Hrun & Hc); [vm_compute; reflexivity|].
  apply peer_checked in Hc as (p & Hp & Hc%bool_decide_eq_true). destruct (client_requests talk_evs s Hrun) as (_ & H & _).
  destruct (H 1%nat p Hp) as (H1 & _ & H2). exists s, p. split; [exact Hrun|]. split; [exact Hp|]. split; [exact Hc|]. split; [exact H1|].
  intros E. apply H2 in E. rewrite Hc in E. discriminate E.
Defined.

(** A client that comes back at once is turned away. *)
Lemma signaling_outcome_witness :
  ∃ s w' info x, sys_run sig_code sig_startable talk_evs first_system = Some s
    ∧ alone (sig_at 8 0) (SignalingHandler 3 "" (from_client "boot3" "10.0.0.2")) (shared s)
        = Some (CloseFrame 1013 "duplicate signaling reconnect debounced", w')
    ∧ place_kept 3 info (webrtcPreemptDebounceWindow "") x (shared s) w'.
Proof.
  set (t := SignalingHandler 3 "" (from_client "boot3" "10.0.0.2")). set (r := CloseFrame 1013 "duplicate signaling reconnect debounced").
  destruct (sig_checked talk_evs (λ s, match peers (shared s) !! 3%nat with None => true | _ => false end
    && bool_decide (fst <$> alone (sig_at 8 0) t (shared s) = Some r))) as (s & Hrun & [Hk Ha%bool_decide_eq_true]%andb_prop); [vm_compute; reflexivity|].
  destruct (alone (sig_at 8 0) t (shared s)) as [[r' w']|] eqn:Ea; [|discriminate Ha]. injection Ha as Ha. cbn in Ha. rewrite Ha in Ea.
  destruct (signaling_outcome talk_evs s (sig_at 8 0) 3 "" (from_client "boot3" "10.0.0.2") r w' Hrun) as (info & x & H);
    [by destruct (peers (shared s) !! 3%nat)|exact Ea|].
  exists s, w', info, x. split; [exact Hrun|]. split; [exact Ea|]. apply H.
Defined.

(** The agent and the second client talk. *)
Lemma signals_meet_witness :
  ∃ s p q w' p' q', sys_run sig_code sig_startable talk_evs first_system = Some s ∧ peers (shared s) !! 0%nat = Some p
    ∧ peers (shared s) !! 2%nat = Some q
    ∧ alone (sig_at 9 0) (reads 0 (p_info p) [Signal "answer" None "" ""];; reads 2 (p_info q) [Signal "bye" None "" "boot2"]) (shared s) = Some (tt, w')
    ∧ peers w' !! 0%nat = Some p' ∧ p_send p' = p_send p ++ [stamp (p_info q) (Signal "bye" None "" "boot2")]
    ∧ peers w' !! 2%nat = Some q' ∧ p_send q' = p_send q ++ [stamp (p_info p) (Signal "answer" None "" "")].
Proof.
  destruct (sig_checked talk_evs (λ s,
    peer_check 0 (λ p, bool_decide (p_info p = agent_info 0 1 "10.0.0.1") && (length (p_send p) <? 32)%nat) s
    && peer_check 2 (λ q, bool_decide (p_info q = client_info 0 6 "boot2" "10.0.0.2") && (length (p_send q) <? 32)%nat) s
    && match sigs (shared s) !! 0%nat with
       | Some x => bool_decide (s_agent x = Some 0%nat) && bool_decide (s_client x = Some 2%nat) | None => false end))
    as (s & Hrun & [[Hp Hq]%andb_prop Hx]%andb_prop); [vm_compute; reflexivity|].
  apply peer_checked in Hp as (p & Hp & [Ip%bool_decide_eq_true Rp%Nat.ltb_lt]%andb_prop).
  apply peer_checked in Hq as (q & Hq & [Iq%bool_decide_eq_true Rq%Nat.ltb_lt]%andb_prop).
  destruct (sigs (shared s) !! 0%nat) as [x|] eqn:Ex; [|discriminate Hx].
  apply andb_prop in Hx as [Xa%bool_decide_eq_true Xc%bool_decide_eq_true].
  destruct (signals_meet (sig_at 9 0) 0 2 p q [Signal "answer" None "" ""] [Signal "bye" None "" "boot2"] (shared s) Hp Hq)
    as (w' & p' & q' & E & H1 & H2 & H3 & H4).
  - exists x. rewrite Ip. split; [exact Ex|exact Xa].
  - exists x. rewrite Iq. split; [exact Ex|exact Xc].
  - rewrite Ip, Iq. repeat split.
  - cbn [length]. lia.
  - cbn [length]. lia.
  - exists s, p, q, w', p', q'. split; [exact Hrun|]. split; [exact Hp|]. split; [exact Hq|]. split; [exact E|].
    split; [exact H1|]. split; [exact H2|]. split; [exact H3|exact H4].
Defined.

(** ** Where the code falls short *)

Definition orphan_evs : list sig_event :=
  events_of
    [ does (Signals 0 "" (from_robot "10.0.0.1")) 1;
      Begin (PeerReads 0 (agent_info 0 1 "10.0.0.1") None) (sig_at 2 0) 2;
      does (Signals 1 "" (from_client "boot1" "10.0.0.2")) 3;
      GoOn (GPeer 0) (sig_at 4 0) 1;
      does (Signals 2 "" (from_robot "10.0.0.1")) 5;
      does (PeerReads 1 (client_info 0 3 "boot1" "10.0.0.2") (says_so "offer" 7)) 6 ].

(** An agent leaves, and before its handler removes the session from the registry a
    client takes its place there.  The next agent of the robot makes another session:
    both are served, and neither hears of the other. *)
Example orphaned_client :
  ∃ s p q, sys_run sig_code sig_startable orphan_evs first_system = Some s
    ∧ peers (shared s) !! 1%nat = Some p ∧ peers (shared s) !! 2%nat = Some q
    ∧ p_reading p = true ∧ p_done p = false ∧ p_reading q = true ∧ p_done q = false
    ∧ pi_robot (p_info p) = pi_robot (p_info q) ∧ pi_session (p_info p) ≠ pi_session (p_info q)
    ∧ p_read p ≠ [] ∧ p_put q = [].
Proof.
  destruct (sig_checked orphan_evs (λ s,
    peer_check 1 (λ p, peer_check 2 (λ q, p_reading p && negb (p_done p) && p_reading q && negb (p_done q)
      && bool_decide (pi_robot (p_info p) = pi_robot (p_info q)) && negb (bool_decide (pi_session (p_info p) = pi_session (p_info q)))
      && match p_read p, p_put q with _ :: _, [] => true | _, _ => false end) s) s)) as (s & Hrun & Hc); [vm_compute; reflexivity|].
  apply peer_checked in Hc as (p & Hp & (q & Hq & Hc)%peer_checked).
  exists s, p, q. split; [exact Hrun|]. split; [exact Hp|]. split; [exact Hq|]. clear Hrun.
  destruct (p_read p), (p_put q); try (by rewrite andb_false_r in Hc).
  rewrite andb_true_r in Hc. apply andb_prop in Hc as [Hc Hn%negb_true_iff%bool_decide_eq_false].
  apply andb_prop in Hc as [Hc He%bool_decide_eq_true]. apply andb_prop in Hc as [Hc H4%negb_true_iff].
  apply andb_prop in Hc as [Hc H3]. apply andb_prop in Hc as [H1 H2%negb_true_iff]. by split_and!.
Qed.

Definition overtake_evs : list sig_event :=
  events_of
    [ does (Signals 0 "" (from_client "boot1" "10.0.0.2")) 1;
      does (PeerReads 0 (client_info 0 1 "boot1" "10.0.0.2") None) 2;
      does (Triggers 2) 3;
      does (Triggers 1) 4 ].

(** The goroutines of two triggers run in any order: here the teardown of a session is
    called before its bootstrap. *)
Example teardown_overtakes :
  ∃ s, sys_run sig_code sig_startable overtake_evs first_system = Some s
    ∧ made (shared s) = [Activate 0 "robot_1" "boot1"; Trigger 0 "robot_1" true "" "boot1" "relay";
                         Trigger 0 "robot_1" false "10.0.0.2" "boot1" "relay"].
Proof.
  destruct (sig_checked overtake_evs (λ s, bool_decide (made (shared s) = [Activate 0 "robot_1" "boot1"; Trigger 0 "robot_1" true "" "boot1" "relay";
    Trigger 0 "robot_1" false "10.0.0.2" "boot1" "relay"]))) as (s & Hrun & Hc); [vm_compute; reflexivity|].
  exists s. split; [exact Hrun|]. by apply bool_decide_eq_true in Hc.
Qed.

Definition untold_evs : list sig_event :=
  events_of
    [ does (Signals 0 "" (from_client "boot1" "10.0.0.2")) 1;
      does (Signals 1 "" (from_client "boot2" "10.0.0.3")) 2;
      Begin (PeerWrites 0) (sig_at 3 2) 1 ].

(** A client is replaced; its writer may find it is to end before it finds the message
    that says why, which is then never sent. *)
Example preemption_untold :
  ∃ s p, sys_run sig_code sig_startable untold_evs first_system = Some s
    ∧ peers (shared s) !! 0%nat = Some p ∧ p_written p = [] ∧ p_writer p = Over
    ∧ p_send p = [Signal "session-preempted" None "robot_1" "boot2"].
Proof.
  destruct (sig_checked untold_evs (peer_check 0 (λ p, bool_decide (p_written p = []) && match p_writer p with Over => true | _ => false end
    && bool_decide (p_send p = [Signal "session-preempted" None "robot_1" "boot2"])))) as (s & Hrun & Hc); [vm_compute; reflexivity|].
  apply peer_checked in Hc as (p & Hp & [[H1%bool_decide_eq_true H2]%andb_prop H3%bool_decide_eq_true]%andb_prop).
  exists s, p. split; [exact Hrun|]. split; [exact Hp|]. split; [exact H1|]. split; [by destruct (p_writer p)|exact H3].
Qed.
