(* ===== verification/Ros.v ===== *)
(** * ROS shell commands (rust/crates/roboat-core/src/ros.rs)

    The search for ROS's setup script and the construction of shell commands from
    untrusted arguments.  The environment variables and the file system's answers
    are arguments.

    The shell that runs the commands is specified by [sh_words], the part of the
    POSIX shell's tokenizing that quoting relies on. *)

From Stdlib Require Import Ascii String.
From S2P Require Import Prelude Text.

Definition KNOWN_ROS_DISTROS : list string := ["jazzy"; "humble"; "iron"; "rolling"; "galactic"; "foxy"].

(** The single and the double quotation mark. *)
Definition squote : ascii := chr 39.
Definition dquote : ascii := chr 34.

Definition setup_bash (distro : string) : string := "/opt/ros/" +:+ distro +:+ "/setup.bash".

(** [env] is [std::env::var], [is_file] is [Path::is_file]. *)
Definition ros_setup_script_path (env : string → option string) (is_file : string → bool) : option string :=
  let raws : list (option string) :=
    [env "ROBOAT_ROS_SETUP";
     env "ROS_SETUP";
     prefix ← (value ← env "AMENT_PREFIX_PATH";
               snd <$> list_find (λ part, is_empty (trim part) = false) (split ":"%char value));
     Some (trim_end_matches "/"%char prefix +:+ "/setup.bash")] in
  match list_find (λ p, is_file p = true) (trim <$> omap id raws) with
  | Some (_, candidate) => Some candidate
  | None =>
      match (distro ← env "ROS_DISTRO";
             let candidate := setup_bash (trim distro) in
             if is_file candidate then Some candidate else None) with
      | Some candidate => Some candidate
      | None => snd <$> list_find (λ p, is_file p = true) (setup_bash <$> KNOWN_ROS_DISTROS)
      end
  end.

Definition shell_quote (value : string) : string :=
  let escaped := String squote (String dquote (String squote (String dquote (String squote "")))) in
  String squote (replace_char squote escaped value +:+ String squote "").

Definition wrap_ros_shell (env : string → option string) (is_file : string → bool) (command : string) : string :=
  let command := trim command in
  if is_empty command then "" else
  match ros_setup_script_path env is_file with
  | Some setup => ". " +:+ shell_quote setup +:+ " >/dev/null 2>&1 && " +:+ command
  | None => command
  end.

Definition ros2_command (args : list string) : string :=
  foldl (λ command arg, command +:+ String " " (shell_quote arg)) "exec ros2" args.

Definition ros2_shell_command (env : string → option string) (is_file : string → bool) (args : list string) : string :=
  wrap_ros_shell env is_file (ros2_command args).

(** ** The shell

    [sh_words s]: the words of a command without operators, expansions or
    backslashes outside single quotes; [None] when it has any. *)

Inductive quoting : Type := Bare | Single | Double.

Definition sh_special (a : ascii) : bool :=
  bool_decide (ord a ∈ ([124; 38; 59; 60; 62; 40; 41; 36; 96; 92; 42; 63; 91; 123; 33; 35; 126; 10] : list Z)).
Definition sh_blank (a : ascii) : bool := bool_decide (ord a ∈ ([32; 9] : list Z)).

Definition close_word (w : option string) : list string := match w with Some w => [w] | None => [] end.
Definition add_char (a : ascii) (w : option string) : option string := Some (default "" w +:+ String a "").

(** [w] is the word being read, if one has begun. *)
Fixpoint sh_scan (q : quoting) (w : option string) (s : string) : option (list string) :=
  match q, s with
  | Bare, "" => Some (close_word w)
  | _, "" => None
  | Bare, String a s =>
      if bool_decide (a = squote) then sh_scan Single (Some (default "" w)) s
      else if bool_decide (a = dquote) then sh_scan Double (Some (default "" w)) s
      else if sh_blank a then app (close_word w) <$> sh_scan Bare None s
      else if sh_special a then None
      else sh_scan Bare (add_char a w) s
  | Single, String a s =>
      if bool_decide (a = squote) then sh_scan Bare w s else sh_scan Single (add_char a w) s
  | Double, String a s =>
      if bool_decide (a = dquote) then sh_scan Bare w s
      else if bool_decide (ord a ∈ ([36; 96; 92] : list Z)) then None
      else sh_scan Double (add_char a w) s
  end.
Definition sh_words (s : string) : option (list string) := sh_scan Bare None s.

(** ** Lemmas *)

(** The five characters a quotation mark is replaced by add it to the word. *)
Lemma sh_scan_escape w rest :
  sh_scan Single (Some w) (String squote (String dquote (String squote (String dquote (String squote rest)))))
  = sh_scan Single (Some (w +:+ String squote "")) rest.
Proof. reflexivity. Qed.

Lemma sh_scan_plain a w rest :
  a ≠ squote → sh_scan Single (Some w) (String a rest) = sh_scan Single (Some (w +:+ String a "")) rest.
Proof. intros Hne. cbn [sh_scan]. by rewrite bool_decide_eq_false_2. Qed.

(** Inside single quotes, the escaped form of [v] and the closing quote add [v]
    to the word. *)
Lemma sh_scan_quoted v w rest :
  sh_scan Single (Some w)
    (replace_char squote (String squote (String dquote (String squote (String dquote (String squote ""))))) v
     +:+ String squote rest)
  = sh_scan Bare (Some (w +:+ v)) rest.
Proof.
  revert w; induction v as [|a v IH]; intros w.
  { change (replace_char _ _ "" +:+ String squote rest) with (String squote rest). by rewrite sapp_nil_r. }
  cbn [replace_char]. rewrite sapp_assoc. destruct (decide (a = squote)) as [->|Hne]; rewrite !sapp_cons.
  - rewrite sh_scan_escape. change ("" +:+ ?x) with x. by rewrite IH, sapp_assoc.
  - rewrite sh_scan_plain by done. change ("" +:+ ?x) with x. by rewrite IH, sapp_assoc.
Qed.

Lemma sh_scan_shell_quote v w rest :
  sh_scan Bare w (shell_quote v +:+ rest) = sh_scan Bare (Some (default "" w +:+ v)) rest.
Proof.
  unfold shell_quote. rewrite sapp_cons, sapp_assoc.
  change (String squote "" +:+ rest) with (String squote rest).
  etransitivity; [|apply sh_scan_quoted]. reflexivity.
Qed.

(** The words of a command built by appending quoted arguments. *)
Lemma sh_scan_args args w :
  sh_scan Bare (Some w) (foldr (λ arg rest, String " " (shell_quote arg) +:+ rest) "" args) = Some (w :: args).
Proof.
  revert w; induction args as [|v args IH]; intros w; [done|]. cbn [foldr]. rewrite sapp_cons.
  change (app [w] <$> sh_scan Bare None (shell_quote v +:+ foldr (λ arg rest, String " " (shell_quote arg) +:+ rest) "" args)
          = Some (w :: v :: args)).
  by rewrite sh_scan_shell_quote, IH.
Qed.

Lemma ros2_command_args args :
  ros2_command args = "exec ros2" +:+ foldr (λ arg rest, String " " (shell_quote arg) +:+ rest) "" args.
Proof.
  unfold ros2_command. generalize "exec ros2". induction args as [|v args IH]; intros s; cbn [foldl foldr].
  - by rewrite sapp_nil_r.
  - by rewrite IH, sapp_assoc.
Qed.

Lemma sh_words_ros2_command args : sh_words (ros2_command args) = Some ("exec" :: "ros2" :: args).
Proof.
  rewrite ros2_command_args. unfold sh_words.
  change (app ["exec"] <$> sh_scan Bare (Some "ros2")
    (foldr (λ arg rest, String " " (shell_quote arg) +:+ rest) "" args) = Some ("exec" :: "ros2" :: args)).
  by rewrite sh_scan_args.
Qed.

(** *** Nothing to trim *)

Lemma visible_front_clean a s : is_visible a = true → front_clean ws1 ws2 ws3 (String a s) = true.
Proof.
  intros Ha. cbn. assert (ws1 a = false) as -> by (revert Ha; clear; by_chars).
  destruct s as [|b s]; [done|]. assert (ws2 a b = false) as -> by (unfold ws2, is_visible, in_range in *; lia).
  destruct s as [|c s]; [done|]. by assert (ws3 a b c = false) as -> by (unfold ws3, is_visible, in_range in *; lia).
Qed.

Lemma visible_back_clean a s :
  is_visible a = true → front_clean ws1 (λ b a, ws2 a b) (λ c b a, ws3 a b c) (String a s) = true.
Proof.
  intros Ha. cbn. assert (ws1 a = false) as -> by (revert Ha; clear; by_chars).
  destruct s as [|b s]; [done|]. assert (ws2 b a = false) as -> by (unfold ws2, is_visible, in_range in *; lia).
  destruct s as [|c s]; [done|]. by assert (ws3 c b a = false) as -> by (unfold ws3, is_visible, in_range in *; lia).
Qed.

(** Text between visible characters has nothing to trim. *)
Lemma trim_visible_ends a s z :
  is_visible a = true → is_visible z = true → trim (String a s +:+ String z "") = String a s +:+ String z "".
Proof.
  intros Ha Hz. unfold trim, trim_start. rewrite sapp_cons, strip_front_fix by (by apply visible_front_clean).
  rewrite <-sapp_cons. unfold trim_end. rewrite rev_app. change (String.rev (String z "")) with (String z "").
  rewrite sapp_cons, strip_front_fix by (by apply visible_back_clean).
  rewrite <-sapp_cons. change (String z (String.rev (String a s))) with (String z "" +:+ String.rev (String a s)).
  by rewrite rev_app, rev_rev.
Qed.

Lemma ros2_command_trim args : trim (ros2_command args) = ros2_command args.
Proof.
  destruct args as [|v args] using rev_ind; [reflexivity|]. clear IHargs.
  unfold ros2_command. rewrite foldl_app. change (foldl _ "exec ros2" args) with (ros2_command args). cbn [foldl].
  assert (∃ t, ros2_command args = String "e" t) as [t ->].
  { rewrite ros2_command_args. generalize (foldr (λ arg rest, String " " (shell_quote arg) +:+ rest) "" args).
    intros r. by exists ("xec ros2" +:+ r). }
  unfold shell_quote. generalize (replace_char squote
    (String squote (String dquote (String squote (String dquote (String squote ""))))) v). intros u.
  rewrite <-!(sapp_cons _ u (String squote "")), <-(sapp_cons _ (String squote u)), <-sapp_assoc.
  change (String "e" t +:+ ?x) with (String "e" (t +:+ x)). by apply trim_visible_ends.
Qed.

Lemma ros_setup_script_path_file env is_file p : ros_setup_script_path env is_file = Some p → is_file p = true.
Proof.
  unfold ros_setup_script_path. case_match eqn:H1.
  { case_match; simplify_eq. apply list_find_Some in H1. naive_solver. }
  case_match eqn:H2.
  - intros [= ->]. apply bind_Some in H2 as (d & _ & H2). by case_match; simplify_eq.
  - intros ([i q] & H3 & ->)%fmap_Some. apply list_find_Some in H3. naive_solver.
Qed.

(** ** Claims *)

(** Arguments cannot escape their quotes.  Whatever the arguments contain,
    the shell reads the command [ros2_shell_command] builds as [exec ros2] with
    exactly these arguments; when a setup script is found, it is sourced first, its
    path is one word of the shell, and it is a file. *)
Theorem ros2_shell_command_words env is_file args :
  match ros_setup_script_path env is_file with
  | None => sh_words (ros2_shell_command env is_file args) = Some ("exec" :: "ros2" :: args)
  | Some setup =>
      is_file setup = true ∧ sh_words (shell_quote setup) = Some [setup] ∧
      ∃ command, ros2_shell_command env is_file args = ". " +:+ shell_quote setup +:+ " >/dev/null 2>&1 && " +:+ command
      ∧ sh_words command = Some ("exec" :: "ros2" :: args)
  end.
Proof.
  unfold ros2_shell_command, wrap_ros_shell. rewrite ros2_command_trim.
  assert (is_empty (ros2_command args) = false) as -> by (by rewrite ros2_command_args).
  destruct (ros_setup_script_path env is_file) as [p|] eqn:Hp; [|apply sh_words_ros2_command].
  split_and!; [by eapply ros_setup_script_path_file| |].
  - unfold sh_words. by rewrite <-(sapp_nil_r (shell_quote p)), sh_scan_shell_quote.
  - exists (ros2_command args). split; [done|apply sh_words_ros2_command].
Qed.
