(* ===== verification/Heartbeat.v ===== *)
(** * Platform heartbeats (rust/crates/roboat-core/src/heartbeat.rs) and the
    daemon's start (rust/bin/roboatd/src/main.rs)

    The heartbeat's contents, above all the tags that describe the robot's
    network, and the loop that sends it; and the configuration [roboatd] makes of
    its environment.  The file system, the network interface, the clock and the
    environment variables are arguments; the HTTP request is the value sent. *)

From Stdlib Require Import Ascii String.
From S2P Require Import Prelude Text Net Stream Protocol Auth Ipc Resolver Manager Server Node.

(** ** The heartbeat *)

Record HeartbeatService : Type := {
  hs_api_url : string;
  hs_api_key : string;
  hs_interval : Z;
}.

Record NetworkProfilePayload : Type := {
  private_addrs : list string;
  public_ip_hint : option string;
  transport_caps : list string;
  network_tags : list string;
}.

Record HeartbeatPayload : Type := {
  hp_api_key : string;
  hp_local_ip : option string;
  network_profile : option NetworkProfilePayload;
}.

(** What the container detection reads: whether [/.dockerenv] exists, and the
    contents of [/proc/1/cgroup] if it can be read. *)
Record host : Type := Host {
  dockerenv_exists : bool;
  cgroup_file : option string;
}.

Section Heartbeat.
Context `{CM : !CaseMapping}.

(** [HeartbeatService::new] *)
Definition new_heartbeat_service (api_url api_key : string) (interval_secs : Z) : HeartbeatService :=
  {| hs_api_url := api_url; hs_api_key := api_key; hs_interval := from_secs interval_secs |}.

Definition push_tag (tags : list string) (tag : string) : list string :=
  if bool_decide (tag ∈ tags) then tags else tags ++ [tag].

Definition is_likely_docker_bridge_ipv4 (ip : string) : bool :=
  match parse_ipv4 (trim ip) with
  | Some (a, b, _, _) => (a =? 172) && ((17 <=? b) && (b <=? 31))
  | None => false
  end.

(** [local_ip.map(str::trim).filter(|ip| !ip.is_empty())] *)
Definition trimmed_ip (local_ip : option string) : option string :=
  ip ← trim <$> local_ip; if is_empty ip then None else Some ip.

Definition detect_network_tags (h : host) (local_ip : option string) : list string :=
  let cgroup := to_lowercase (default "" (cgroup_file h)) in
  let docker_cgroup := contains "docker" cgroup in
  let container_cgroup :=
    docker_cgroup || contains "containerd" cgroup || contains "kubepods" cgroup || contains "libpod" cgroup in
  let tags :=
    if dockerenv_exists h || docker_cgroup then push_tag (push_tag [] "runtime:docker") "runtime:container"
    else if container_cgroup then push_tag [] "runtime:container"
    else [] in
  let tags :=
    if bool_decide ("runtime:container" ∈ tags) then push_tag tags "network:containerized" else tags in
  if bool_decide ("runtime:docker" ∈ tags)
     && match trimmed_ip local_ip with Some ip => is_likely_docker_bridge_ipv4 ip | None => false end
  then push_tag (push_tag tags "network:docker_bridge") "network:container_nat"
  else tags.

Definition build_network_profile (h : host) (local_ip : option string) : option NetworkProfilePayload :=
  Some {| private_addrs := match trimmed_ip local_ip with Some ip => [ip] | None => [] end;
          public_ip_hint := None;
          transport_caps := ["lan_tcp"; "public_tcp"; "stun_p2p"; "turn_relay"; "platform_relay"];
          network_tags := detect_network_tags h local_ip |}.

(** [send_heartbeat]: the URL posted to and the payload.  Its outcome is only
    logged. *)
Definition send_heartbeat (svc : HeartbeatService) (h : host) (local_ip : option string) : string * HeartbeatPayload :=
  (hs_api_url svc +:+ "/api/heartbeat",
   {| hp_api_key := hs_api_key svc; hp_local_ip := local_ip; network_profile := build_network_profile h local_ip |}).

(** What wakes the loop of [run]: the timer, or the shutdown channel's new
    value. *)
Inductive hb_event : Type :=
| HbTick (h : host)
| HbShutdown (flag : bool).

(** The loop of [run]: the heartbeats sent, and whether it is still running. *)
Fixpoint heartbeat_run (svc : HeartbeatService) (local_ip : option string) (evs : list hb_event) :
    list (string * HeartbeatPayload) * bool :=
  match evs with
  | [] => ([], true)
  | HbTick h :: evs =>
      let '(sent, alive) := heartbeat_run svc local_ip evs in (send_heartbeat svc h local_ip :: sent, alive)
  | HbShutdown true :: _ => ([], false)
  | HbShutdown false :: evs => heartbeat_run svc local_ip evs
  end.

(** [run]: [None] when the timer's construction panics, which tokio's [interval]
    does for a zero period. *)
Definition heartbeat_service_run (svc : HeartbeatService) (local_ip : option string) (evs : list hb_event) :
    option (list (string * HeartbeatPayload) * bool) :=
  if hs_interval svc =? 0 then None else Some (heartbeat_run svc local_ip evs).

(** ** [roboatd]'s configuration *)

Definition env_or {A} (v : option A) (d : A) : A := default d v.

Definition roboatd_config (env : string → option string) : DaemonConfig :=
  {| listen_port := env_or (v ← env "ROBOAT_LISTEN_PORT"; parse_u16 v) 11411;
     socket_path := env_or (env "ROBOAT_SOCKET") "/var/run/roboat/roboatd.sock";
     insecure_allow_any_client :=
       env_or ((λ v, bool_decide (to_lowercase v ∈ ["1"; "true"; "yes"])) <$> env "ROBOAT_INSECURE") true;
     auth_seed := replicate 32 x00;
     config_registry_url := env "ROBOAT_REGISTRY_URL";
     use_mux := env_or ((λ v, negb (bool_decide (to_lowercase v ∈ ["0"; "false"; "no"]))) <$> env "ROBOAT_USE_MUX") true;
     heartbeat_interval_secs := env_or (v ← env "ROBOAT_HEARTBEAT_INTERVAL_SECS"; parse_u64 v) 30 |}.

(** [main]: its exit status, if it has exited.  It exits when the IPC server cannot
    start or stops accepting. *)
Definition roboatd_main `{ED : !Ed25519, RL : !RegistrarLibs, B64 : !Base64, JA : !JsonCodec AgentMsg, JD : !JsonCodec DaemonMsg}
    (env : string → option string) (create_dir : option (result io_error unit)) (bind : result io_error unit)
    (es : list nevent) : option Z :=
  match ipc_start (roboatd_config env) create_dir bind with
  | Err _ => Some 1
  | Ok N => N' ← nrun es N; if n_up N' then None else Some 1
  end.

(** ** Lemmas *)

Lemma push_tag_elem tags tag x : x ∈ push_tag tags tag ↔ x ∈ tags ∨ x = tag.
Proof. unfold push_tag. case_bool_decide; set_solver. Qed.

Lemma push_tag_NoDup tags tag : NoDup tags → NoDup (push_tag tags tag).
Proof.
  intros Hn. unfold push_tag. case_bool_decide; [done|]. apply NoDup_app. split_and!; [done|set_solver|].
  apply NoDup_singleton.
Qed.

(** Whether the host looks like a Docker container, or a container at all. *)
Definition in_docker (h : host) : bool :=
  dockerenv_exists h || contains "docker" (to_lowercase (default "" (cgroup_file h))).
Definition in_container (h : host) : bool :=
  let cgroup := to_lowercase (default "" (cgroup_file h)) in
  in_docker h || contains "containerd" cgroup || contains "kubepods" cgroup || contains "libpod" cgroup.

(** Whether the address is in 172.17.0.0 - 172.31.255.255. *)
Definition bridge_address (local_ip : option string) : Prop :=
  ∃ ip b c d, local_ip = Some ip ∧ parse_ipv4 (trim ip) = Some (172, b, c, d) ∧ 17 ≤ b ≤ 31.

Lemma parse_ipv4_empty : parse_ipv4 "" = None.
Proof. reflexivity. Qed.

Lemma bridge_address_spec local_ip :
  match trimmed_ip local_ip with Some ip => is_likely_docker_bridge_ipv4 ip | None => false end = true
  ↔ bridge_address local_ip.
Proof.
  unfold trimmed_ip, bridge_address, is_likely_docker_bridge_ipv4. destruct local_ip as [ip|]; cbn; [|naive_solver].
  destruct (is_empty (trim ip)) eqn:He.
  - destruct (trim ip) eqn:Ht; [|done]. split; [done|].
    intros (ip' & b & c & d & [= <-] & Hp & _). by rewrite Ht in Hp.
  - rewrite trim_idemp. destruct (parse_ipv4 (trim ip)) as [[[[a b] c] d]|] eqn:Hp; [|naive_solver].
    rewrite !andb_true_iff, Z.eqb_eq, !Z.leb_le. split.
    + intros [-> Hb]. by exists ip, b, c, d.
    + intros (ip' & b' & c' & d' & [= <-] & Hp' & Hb). rewrite Hp in Hp'. by simplify_eq.
Qed.

(** ** Claims *)

(** The network tags say what the host shows.  They are pairwise distinct;
    the runtime tags are there exactly when the container files show Docker, or any
    container; the containerized tag goes with the latter; and the bridge and NAT
    tags are there exactly when it is Docker and the local address, spelt as four
    decimal octets, lies between 172.17.0.0 and 172.31.255.255. *)
Theorem network_tags_spec h local_ip :
  let tags := detect_network_tags h local_ip in
  NoDup tags
  ∧ ("runtime:docker" ∈ tags ↔ in_docker h = true)
  ∧ ("runtime:container" ∈ tags ↔ in_container h = true)
  ∧ ("network:containerized" ∈ tags ↔ in_container h = true)
  ∧ ("network:docker_bridge" ∈ tags ↔ in_docker h = true ∧ bridge_address local_ip)
  ∧ ("network:container_nat" ∈ tags ↔ in_docker h = true ∧ bridge_address local_ip).
Proof.
  intros tags. rewrite <-(bridge_address_spec local_ip). subst tags. unfold detect_network_tags, in_container, in_docker.
  cbv zeta.
  set (cg := to_lowercase _). set (br := match trimmed_ip local_ip with Some _ => _ | None => _ end). clearbody br.
  destruct (dockerenv_exists h || contains "docker" cg) eqn:Hd.
  - destruct br; cbn; split_and!; try apply (bool_decide_eq_true_1 _); try (vm_compute; reflexivity); set_solver.
  - apply orb_false_iff in Hd as [_ ->]. cbn [orb].
    destruct (contains "containerd" cg || contains "kubepods" cg || contains "libpod" cg); destruct br; cbn;
      split_and!; try apply (bool_decide_eq_true_1 _); try (vm_compute; reflexivity); set_solver.
Qed.
End Heartbeat.
