(* ===== verification/Ice.v ===== *)
(** * ICE candidates (rust/vendor/webrtc-ice/src: candidate/, network_type/,
      tcp_type/, state/)

    The candidate types, their priorities, the textual form in which the two
    ends exchange them over signalling, and the candidate pairs with the priority by
    which both ends order them.  The checksum behind the foundation (the [crc]
    crate) and the random candidate id are arguments; sockets are left out. *)

From Stdlib Require Import Ascii String.
From S2P Require Import Prelude Text Net.

(** ** error.rs

    [Error]; what the errors of other crates carry is left out. *)

Inductive IceError : Type :=
  | ErrUnknownType | ErrSchemeType | ErrStunQuery | ErrInvalidQuery | ErrHost | ErrPort |
    ErrLocalUfragInsufficientBits | ErrLocalPwdInsufficientBits | ErrProtoType | ErrClosed |
    ErrNoCandidatePairs | ErrCanceledByCaller | ErrMultipleStart | ErrRemoteUfragEmpty | ErrRemotePwdEmpty |
    ErrNoOnCandidateHandler | ErrMultipleGatherAttempted | ErrUsernameEmpty | ErrPasswordEmpty |
    ErrAddressParseFailed | ErrLiteUsingNonHostCandidates | ErrUselessUrlsProvided |
    ErrUnsupportedNat1to1IpCandidateType | ErrInvalidNat1to1IpMapping | ErrExternalMappedIpNotFound |
    ErrMulticastDnsWithNat1to1IpMapping | ErrIneffectiveNat1to1IpMappingHost |
    ErrIneffectiveNat1to1IpMappingSrflx | ErrInvalidMulticastDnshostName | ErrRestartWhenGathering |
    ErrRunCanceled | ErrTcpMuxNotInitialized | ErrTcpRemoteAddrAlreadyExists | ErrSendPacket |
    ErrAttributeTooShortIceCandidate | ErrParseComponent | ErrParsePriority | ErrParsePort |
    ErrParseRelatedAddr | ErrParseType | ErrUnknownCandidateType | ErrGetXorMappedAddrResponse |
    ErrConnectionAddrAlreadyExist | ErrReadingStreamingPacket | ErrWriting | ErrClosingConnection |
    ErrDetermineNetworkType | ErrMissingProtocolScheme | ErrTooManyColonsAddr | ErrRead | ErrUnknownRole |
    ErrMismatchUsername | ErrIceWriteStunMessage | ErrInvalidUrl | ErrUrlParse | ErrCandidateIpNotFound
  | ParseInt | ParseIp | Io | Util | Stun | ParseUrl | Mdns | Turn
  | Other (msg : string).

#[export] Instance IceError_eq_dec : EqDecision IceError.
Proof. solve_decision. Defined.

(** ** network_type/mod.rs *)

Inductive NetworkType : Type := NetUnspecified | Udp4 | Udp6 | Tcp4 | Tcp6.

#[export] Instance NetworkType_eq_dec : EqDecision NetworkType.
Proof. solve_decision. Defined.

(** The [as u8] of a network type, and the way back. *)
Definition network_type_u8 (t : NetworkType) : Z :=
  match t with NetUnspecified => 0 | Udp4 => 1 | Udp6 => 2 | Tcp4 => 3 | Tcp6 => 4 end.
Definition network_type_from_u8 (v : Z) : NetworkType :=
  match v with 1 => Udp4 | 2 => Udp6 | 3 => Tcp4 | 4 => Tcp6 | _ => NetUnspecified end.

Definition network_type_str (t : NetworkType) : string :=
  match t with
  | Udp4 => "udp4" | Udp6 => "udp6" | Tcp4 => "tcp4" | Tcp6 => "tcp6" | NetUnspecified => "unspecified"
  end.

Definition supported_network_types : list NetworkType := [Udp4; Udp6].

Definition is_udp (t : NetworkType) : bool := bool_decide (t = Udp4) || bool_decide (t = Udp6).
Definition is_tcp (t : NetworkType) : bool := bool_decide (t = Tcp4) || bool_decide (t = Tcp6).
Definition network_short (t : NetworkType) : string :=
  match t with Udp4 | Udp6 => "udp" | Tcp4 | Tcp6 => "tcp" | NetUnspecified => "Unspecified" end.
Definition is_reliable (t : NetworkType) : bool :=
  match t with Tcp4 | Tcp6 => true | Udp4 | Udp6 | NetUnspecified => false end.
Definition network_is_ipv4 (t : NetworkType) : bool :=
  match t with Udp4 | Tcp4 => true | Udp6 | Tcp6 | NetUnspecified => false end.
Definition network_is_ipv6 (t : NetworkType) : bool :=
  match t with Udp6 | Tcp6 => true | Udp4 | Tcp4 | NetUnspecified => false end.

Definition determine_network_type `{!CaseMapping} (network : string) (ip : IpAddr) : result IceError NetworkType :=
  let ipv4 := is_ipv4 ip in
  let net := to_lowercase network in
  if starts_with "udp" net then Ok (if ipv4 then Udp4 else Udp6)
  else if starts_with "tcp" net then Ok (if ipv4 then Tcp4 else Tcp6)
  else Err ErrDetermineNetworkType.

(** ** tcp_type/mod.rs *)

Inductive TcpType : Type := TcpUnspecified | TcpActive | TcpPassive | TcpSimultaneousOpen.

#[export] Instance TcpType_eq_dec : EqDecision TcpType.
Proof. solve_decision. Defined.

Definition tcp_type_from (raw : string) : TcpType :=
  if bool_decide (raw = "active") then TcpActive
  else if bool_decide (raw = "passive") then TcpPassive
  else if bool_decide (raw = "so") then TcpSimultaneousOpen
  else TcpUnspecified.
Definition tcp_type_str (t : TcpType) : string :=
  match t with
  | TcpActive => "active" | TcpPassive => "passive" | TcpSimultaneousOpen => "so" | TcpUnspecified => "unspecified"
  end.

(** ** state/mod.rs *)

Inductive ConnectionState : Type :=
  | StUnspecified | StNew | StChecking | StConnected | StCompleted | StFailed | StDisconnected | StClosed.

Definition connection_state_u8 (s : ConnectionState) : Z :=
  match s with
  | StUnspecified => 0 | StNew => 1 | StChecking => 2 | StConnected => 3
  | StCompleted => 4 | StFailed => 5 | StDisconnected => 6 | StClosed => 7
  end.
Definition connection_state_from_u8 (v : Z) : ConnectionState :=
  match v with
  | 1 => StNew | 2 => StChecking | 3 => StConnected | 4 => StCompleted
  | 5 => StFailed | 6 => StDisconnected | 7 => StClosed | _ => StUnspecified
  end.
Definition connection_state_str (s : ConnectionState) : string :=
  match s with
  | StUnspecified => "Unspecified" | StNew => "New" | StChecking => "Checking" | StConnected => "Connected"
  | StCompleted => "Completed" | StFailed => "Failed" | StDisconnected => "Disconnected" | StClosed => "Closed"
  end.

Inductive GatheringState : Type := GatherUnspecified | GatherNew | Gathering | GatherComplete.

Definition gathering_state_u8 (s : GatheringState) : Z :=
  match s with GatherUnspecified => 0 | GatherNew => 1 | Gathering => 2 | GatherComplete => 3 end.
Definition gathering_state_from_u8 (v : Z) : GatheringState :=
  match v with 1 => GatherNew | 2 => Gathering | 3 => GatherComplete | _ => GatherUnspecified end.
Definition gathering_state_str (s : GatheringState) : string :=
  match s with
  | GatherNew => "new" | Gathering => "gathering" | GatherComplete => "complete" | GatherUnspecified => "unspecified"
  end.

(** ** candidate/mod.rs *)

Definition DEFAULT_LOCAL_PREFERENCE : Z := 65535.

Inductive CandidateType : Type := CtUnspecified | CtHost | CtServerReflexive | CtPeerReflexive | CtRelay.

#[export] Instance CandidateType_eq_dec : EqDecision CandidateType.
Proof. solve_decision. Defined.

Definition candidate_type_str (t : CandidateType) : string :=
  match t with
  | CtHost => "host" | CtServerReflexive => "srflx" | CtPeerReflexive => "prflx" | CtRelay => "relay"
  | CtUnspecified => "Unknown candidate type"
  end.

Definition preference (t : CandidateType) : Z :=
  match t with
  | CtHost => 126 | CtPeerReflexive => 110 | CtServerReflexive => 100 | CtRelay | CtUnspecified => 0
  end.

Fixpoint contains_candidate_type (t : CandidateType) (l : list CandidateType) : bool :=
  match l with
  | [] => false
  | ct :: l => if bool_decide (ct = t) then true else contains_candidate_type t l
  end.

Record CandidateRelatedAddress : Type := {
  rel_address : string;
  rel_port : Z;
}.

#[export] Instance CandidateRelatedAddress_eq_dec : EqDecision CandidateRelatedAddress.
Proof. solve_decision. Defined.

Definition related_address_str (r : CandidateRelatedAddress) : string :=
  " related " +:+ rel_address r +:+ ":" +:+ decimal (rel_port r).

Inductive CandidatePairState : Type := PairUnspecified | PairWaiting | PairInProgress | PairFailed | PairSucceeded.

Definition pair_state_u8 (s : CandidatePairState) : Z :=
  match s with PairUnspecified => 0 | PairWaiting => 1 | PairInProgress => 2 | PairFailed => 3 | PairSucceeded => 4 end.
Definition pair_state_from_u8 (v : Z) : CandidatePairState :=
  match v with 1 => PairWaiting | 2 => PairInProgress | 3 => PairFailed | 4 => PairSucceeded | _ => PairUnspecified end.
Definition pair_state_str (s : CandidatePairState) : string :=
  match s with
  | PairWaiting => "waiting" | PairInProgress => "in-progress" | PairFailed => "failed"
  | PairSucceeded => "succeeded" | PairUnspecified => "unspecified"
  end.

(** ** candidate/candidate_base.rs *)

(** [CandidateBaseConfig], without the socket. *)
Record CandidateBaseConfig : Type := {
  candidate_id : string;
  cfg_network : string;
  cfg_address : string;
  cfg_port : Z;
  cfg_component : Z;
  cfg_priority : Z;
  cfg_foundation : string;
}.

(** [CandidateBase], without the socket and the relay client; [network_type]
    is the [u8] the source keeps. *)
Record CandidateBase : Type := {
  cand_id : string;
  network_type_byte : Z;
  candidate_type : CandidateType;
  component : Z;
  address : string;
  port : Z;
  related_address : option CandidateRelatedAddress;
  tcp_type : TcpType;
  resolved_addr : IpAddr * Z;
  last_sent : Z;
  last_received : Z;
  foundation_override : string;
  priority_override : Z;
  network : string;
}.

Definition default_candidate : CandidateBase :=
  {| cand_id := ""; network_type_byte := 0; candidate_type := CtUnspecified; component := 0; address := "";
     port := 0; related_address := None; tcp_type := TcpUnspecified; resolved_addr := (UNSPECIFIED, 0);
     last_sent := 0; last_received := 0; foundation_override := ""; priority_override := 0; network := "" |}.

Definition network_type (c : CandidateBase) : NetworkType := network_type_from_u8 (network_type_byte c).

Definition candidate_display (c : CandidateBase) : string :=
  network_type_str (network_type c) +:+ " " +:+ candidate_type_str (candidate_type c) +:+ " "
  +:+ address c +:+ ":" +:+ decimal (port c)
  +:+ match related_address c with Some r => related_address_str r | None => "" end.

(** [u16] arithmetic; the products and sums stay in range. *)
Definition local_preference (c : CandidateBase) : Z :=
  if is_tcp (network_type c) then
    let other_pref := 8191 in
    let direction_pref :=
      match candidate_type c with
      | CtHost | CtRelay =>
          match tcp_type c with TcpActive => 6 | TcpPassive => 4 | TcpSimultaneousOpen => 2 | TcpUnspecified => 0 end
      | CtPeerReflexive | CtServerReflexive =>
          match tcp_type c with TcpSimultaneousOpen => 6 | TcpActive => 4 | TcpPassive => 2 | TcpUnspecified => 0 end
      | CtUnspecified => 0
      end in
    u16_wrap (Z.shiftl 1 13 * direction_pref + other_pref)
  else DEFAULT_LOCAL_PREFERENCE.

(** [u32] arithmetic, wrapping as in a release build. *)
Definition priority (c : CandidateBase) : Z :=
  if negb (priority_override c =? 0) then priority_override c
  else u32_wrap (u32_wrap (Z.shiftl 1 24 * preference (candidate_type c) + Z.shiftl 1 8 * local_preference c)
                 + u32_wrap (256 - component c)).

Definition candidate_equal (c d : CandidateBase) : bool :=
  bool_decide (network_type c = network_type d) && bool_decide (candidate_type c = candidate_type d)
  && bool_decide (address c = address d) && bool_decide (port c = port d)
  && bool_decide (tcp_type c = tcp_type d) && bool_decide (related_address c = related_address d).

Definition set_last_received (d : Z) (c : CandidateBase) : CandidateBase :=
  {| cand_id := cand_id c; network_type_byte := network_type_byte c; candidate_type := candidate_type c;
     component := component c; address := address c; port := port c; related_address := related_address c;
     tcp_type := tcp_type c; resolved_addr := resolved_addr c; last_sent := last_sent c;
     last_received := u64_wrap d; foundation_override := foundation_override c;
     priority_override := priority_override c; network := network c |}.
Definition set_last_sent (d : Z) (c : CandidateBase) : CandidateBase :=
  {| cand_id := cand_id c; network_type_byte := network_type_byte c; candidate_type := candidate_type c;
     component := component c; address := address c; port := port c; related_address := related_address c;
     tcp_type := tcp_type c; resolved_addr := resolved_addr c; last_sent := u64_wrap d;
     last_received := last_received c; foundation_override := foundation_override c;
     priority_override := priority_override c; network := network c |}.
(** [seen] at [now] nanoseconds after the epoch. *)
Definition seen (now : Z) (outbound : bool) (c : CandidateBase) : CandidateBase :=
  if outbound then set_last_sent now c else set_last_received now c.

(** util/mod.rs *)
Definition create_addr (ip : IpAddr) (p : Z) : IpAddr * Z := (ip, p).

Definition set_network (t : NetworkType) (addr : IpAddr * Z) (c : CandidateBase) : CandidateBase :=
  {| cand_id := cand_id c; network_type_byte := network_type_u8 t; candidate_type := candidate_type c;
     component := component c; address := address c; port := port c; related_address := related_address c;
     tcp_type := tcp_type c; resolved_addr := addr; last_sent := last_sent c; last_received := last_received c;
     foundation_override := foundation_override c; priority_override := priority_override c; network := network c |}.

Section Candidates.
Context `{CM : !CaseMapping}.

(** The [crc] crate's CRC-32C of a byte string, and the result of
    [generate_cand_id]. *)
Variable checksum : list byte → Z.
Variable generate_cand_id : string.

Definition foundation (c : CandidateBase) : string :=
  if negb (is_empty (foundation_override c)) then foundation_override c
  else
    let buf := as_bytes (candidate_type_str (candidate_type c)) ++ as_bytes (address c)
               ++ as_bytes (network_type_str (network_type c)) in
    decimal (checksum buf).

Definition marshal (c : CandidateBase) : string :=
  (foundation c +:+ " " +:+ decimal (component c) +:+ " " +:+ network_short (network_type c) +:+ " "
   +:+ decimal (priority c) +:+ " " +:+ address c +:+ " " +:+ decimal (port c) +:+ " typ "
   +:+ candidate_type_str (candidate_type c))
  +:+ (if bool_decide (tcp_type c ≠ TcpUnspecified) then " tcptype " +:+ tcp_type_str (tcp_type c) else "")
  +:+ match related_address c with
      | Some r => " raddr " +:+ rel_address r +:+ " rport " +:+ decimal (rel_port r)
      | None => ""
      end.

Definition set_ip (ip : IpAddr) (c : CandidateBase) : result IceError CandidateBase :=
  t ← determine_network_type (network c) ip;
  Ok (set_network t (create_addr ip (port c)) c).

(** candidate_host.rs *)
Definition new_candidate_host (b : CandidateBaseConfig) (t : TcpType) : result IceError CandidateBase :=
  let id := if is_empty (candidate_id b) then generate_cand_id else candidate_id b in
  let c :=
    {| cand_id := id; network_type_byte := network_type_u8 Udp4; candidate_type := CtHost;
       component := cfg_component b; address := cfg_address b; port := cfg_port b; related_address := None;
       tcp_type := t; resolved_addr := (UNSPECIFIED, 0); last_sent := 0; last_received := 0;
       foundation_override := cfg_foundation b; priority_override := cfg_priority b; network := cfg_network b |} in
  if ends_with ".local" (cfg_address b) then Ok c
  else match parse_ip (cfg_address b) with
       | None => Err ParseIp
       | Some ip => set_ip ip c
       end.

(** candidate_server_reflexive.rs, candidate_peer_reflexive.rs and
    candidate_relay.rs build the same candidate but for its type. *)
Definition new_candidate_reflexive (ty : CandidateType) (b : CandidateBaseConfig) (rel : string) (relp : Z)
    : result IceError CandidateBase :=
  match parse_ip (cfg_address b) with
  | None => Err ErrAddressParseFailed
  | Some ip =>
      t ← determine_network_type (cfg_network b) ip;
      let id := if is_empty (candidate_id b) then generate_cand_id else candidate_id b in
      Ok {| cand_id := id; network_type_byte := network_type_u8 t; candidate_type := ty;
            component := cfg_component b; address := cfg_address b; port := cfg_port b;
            related_address := Some {| rel_address := rel; rel_port := relp |};
            tcp_type := TcpUnspecified; resolved_addr := create_addr ip (cfg_port b);
            last_sent := 0; last_received := 0; foundation_override := cfg_foundation b;
            priority_override := cfg_priority b; network := "" |}
  end.

Definition new_candidate_server_reflexive : CandidateBaseConfig → string → Z → result IceError CandidateBase :=
  new_candidate_reflexive CtServerReflexive.
Definition new_candidate_peer_reflexive : CandidateBaseConfig → string → Z → result IceError CandidateBase :=
  new_candidate_reflexive CtPeerReflexive.
Definition new_candidate_relay : CandidateBaseConfig → string → Z → result IceError CandidateBase :=
  new_candidate_reflexive CtRelay.

Definition parse_or {A} (o : option A) : result IceError A :=
  match o with Some a => Ok a | None => Err ParseInt end.

(** The attributes after the candidate's type: the related address and port
    and the TCP type. *)
Definition unmarshal_extension (split2 : list string) : result IceError (string * Z * TcpType) :=
  match split2 with
  | [] => Ok ("", 0, TcpUnspecified)
  | key :: rest =>
      if bool_decide (key = "raddr") then
        match rest with
        | addr :: _ :: p :: _ => relp ← parse_or (parse_u16 p); Ok (addr, relp, TcpUnspecified)
        | _ => Err (Other "ErrParseRelatedAddr: incorrect length")
        end
      else if bool_decide (key = "tcptype") then
        match rest with
        | t :: _ => Ok ("", 0, tcp_type_from t)
        | [] => Err (Other "ErrParseType: incorrect length")
        end
      else Ok ("", 0, TcpUnspecified)
  end.

Definition unmarshal_candidate (raw : string) : result IceError CandidateBase :=
  match split_whitespace raw with
  | foundation :: component :: network :: priority :: address :: port :: _ :: typ :: split2 =>
      component ← parse_or (parse_u16 component);
      priority ← parse_or (parse_u32 priority);
      port ← parse_or (parse_u16 port);
      '(rel_addr, rel_port, tcp_type) ← unmarshal_extension split2;
      let base_config :=
        {| candidate_id := ""; cfg_network := network; cfg_address := address; cfg_port := port;
           cfg_component := component; cfg_priority := priority; cfg_foundation := foundation |} in
      if bool_decide (typ = "host") then new_candidate_host base_config tcp_type
      else if bool_decide (typ = "srflx") then new_candidate_server_reflexive base_config rel_addr rel_port
      else if bool_decide (typ = "prflx") then new_candidate_peer_reflexive base_config rel_addr rel_port
      else if bool_decide (typ = "relay") then new_candidate_relay base_config rel_addr rel_port
      else Err (Other ("ErrUnknownCandidateType (" +:+ typ +:+ ")"))
  | split =>
      Err (Other ("ErrAttributeTooShortIceCandidate (" +:+ decimal (zlen split) +:+ ")"))
  end.

End Candidates.

(** ** candidate/mod.rs: pairs *)

Record CandidatePair : Type := {
  ice_role_controlling : bool;
  pair_remote : CandidateBase;
  pair_local : CandidateBase;
  binding_request_count : Z;
  pair_state : Z;
  nominated : bool;
}.

Definition new_pair (local remote : CandidateBase) (controlling : bool) : CandidatePair :=
  {| ice_role_controlling := controlling; pair_remote := remote; pair_local := local;
     binding_request_count := 0; pair_state := pair_state_u8 PairWaiting; nominated := false |}.

Definition default_pair : CandidatePair := new_pair default_candidate default_candidate false.

Definition pair_equal (p q : CandidatePair) : bool :=
  candidate_equal (pair_local p) (pair_local q) && candidate_equal (pair_remote p) (pair_remote q).

(** [u64] arithmetic. *)
Definition pair_priority (p : CandidatePair) : Z :=
  let '(g, d) :=
    if ice_role_controlling p then (priority (pair_local p), priority (pair_remote p))
    else (priority (pair_remote p), priority (pair_local p)) in
  u64_wrap ((Z.shiftl 1 32 - 1) * Z.min g d + 2 * Z.max g d + (if d <? g then 1 else 0)).

Definition pair_display (p : CandidatePair) : string :=
  "prio " +:+ decimal (pair_priority p) +:+ " (local, prio " +:+ decimal (priority (pair_local p)) +:+ ") "
  +:+ candidate_display (pair_local p) +:+ " <-> " +:+ candidate_display (pair_remote p)
  +:+ " (remote, prio " +:+ decimal (priority (pair_remote p)) +:+ ")".

(** ** Priorities *)

Lemma local_preference_range c : 8191 ≤ local_preference c ≤ 65535.
Proof.
  unfold local_preference, DEFAULT_LOCAL_PREFERENCE. destruct (is_tcp _); [|lia].
  destruct (candidate_type c), (tcp_type c); vm_compute; split; discriminate.
Qed.

Lemma preference_range t : 0 ≤ preference t ≤ 126.
Proof. destruct t; cbn; lia. Qed.

(** The formula holds exactly, for every component number. *)
Lemma priority_exact c :
  priority_override c = 0 → 0 ≤ component c < 2 ^ 16 →
  priority c = 2 ^ 24 * preference (candidate_type c) + 2 ^ 8 * local_preference c + 256 - component c.
Proof.
  intros Ho Hc. unfold priority. rewrite Ho. cbn [negb Z.eqb]. rewrite !Z.shiftl_1_l.
  pose proof (local_preference_range c). pose proof (preference_range (candidate_type c)).
  unfold u32_wrap. rewrite Zplus_mod_idemp_r, Zplus_mod_idemp_l. rewrite Z.mod_small; lia.
Qed.

Lemma priority_range c :
  0 ≤ priority_override c < 2 ^ 32 → 0 ≤ component c < 2 ^ 16 → 0 < priority c < 2 ^ 32.
Proof.
  intros Ho Hc. destruct (Z.eq_dec (priority_override c) 0) as [H0|H0].
  - rewrite priority_exact by done. pose proof (local_preference_range c).
    pose proof (preference_range (candidate_type c)). lia.
  - unfold priority. rewrite (proj2 (Z.eqb_neq _ _) H0). cbn. lia.
Qed.

Lemma pair_priority_exact p g d :
  (if ice_role_controlling p then (priority (pair_local p), priority (pair_remote p))
   else (priority (pair_remote p), priority (pair_local p))) = (g, d) →
  0 ≤ g < 2 ^ 32 → 0 ≤ d < 2 ^ 32 →
  pair_priority p = (2 ^ 32 - 1) * Z.min g d + 2 * Z.max g d + (if d <? g then 1 else 0).
Proof.
  intros Hp Hg Hd. unfold pair_priority. rewrite Hp, Z.shiftl_1_l. unfold u64_wrap.
  apply Z.mod_small. destruct (Z.ltb_spec d g); nia.
Qed.

(** ** The textual form *)

#[local] Arguments ends_with : simpl never.

Lemma network_type_u8_inv t : network_type_from_u8 (network_type_u8 t) = t.
Proof. by destruct t. Qed.

Lemma tcp_type_str_inv t : tcp_type_from (tcp_type_str t) = t.
Proof. by destruct t. Qed.

(** A candidate's address as the constructors leave it: the network type has
    the address's family. *)
Definition addressed (c : CandidateBase) : Prop :=
  ∃ ip t, parse_ip (address c) = Some ip ∧ t ≠ NetUnspecified ∧ network_is_ipv4 t = is_ipv4 ip
          ∧ network_type_byte c = network_type_u8 t ∧ resolved_addr c = (ip, port c).

Section Textual.
Context `{CM : !CaseMapping}.
Variable checksum : list byte → Z.
Hypothesis checksum_range : ∀ bs, 0 ≤ checksum bs < 2 ^ 32.
Variable id : string.

(** What the callers of the constructors pass: numbers of their widths, an
    address without whitespace, and a foundation that is empty or a word. *)
Record config_wf (b : CandidateBaseConfig) : Prop := {
  wf_component : 0 ≤ cfg_component b < 2 ^ 16;
  wf_port : 0 ≤ cfg_port b < 2 ^ 16;
  wf_priority : 0 ≤ cfg_priority b < 2 ^ 32;
  wf_address : is_word (cfg_address b);
  wf_foundation : cfg_foundation b = "" ∨ is_word (cfg_foundation b);
}.

(** The candidates the constructors build; a related address is a word. *)
Inductive built : CandidateBase → Prop :=
  | built_host b t c : config_wf b → new_candidate_host id b t = Ok c → built c
  | built_reflexive ty b rel relp c :
      ty ∈ [CtServerReflexive; CtPeerReflexive; CtRelay] → config_wf b → is_word rel → 0 ≤ relp < 2 ^ 16 →
      new_candidate_reflexive id ty b rel relp = Ok c → built c.

Record candidate_wf (c : CandidateBase) : Prop := {
  cw_component : 0 ≤ component c < 2 ^ 16;
  cw_port : 0 ≤ port c < 2 ^ 16;
  cw_priority : 0 ≤ priority_override c < 2 ^ 32;
  cw_address : is_word (address c);
  cw_foundation : foundation_override c = "" ∨ is_word (foundation_override c);
  cw_kind :
    match candidate_type c with
    | CtUnspecified => False
    | CtHost =>
        related_address c = None ∧
        if ends_with ".local" (address c)
        then network_type_byte c = network_type_u8 Udp4 ∧ resolved_addr c = (UNSPECIFIED, 0)
        else addressed c
    | _ => tcp_type c = TcpUnspecified ∧ addressed c ∧
           ∃ r, related_address c = Some r ∧ is_word (rel_address r) ∧ 0 ≤ rel_port r < 2 ^ 16
    end;
}.

Lemma determine_family network ip t :
  determine_network_type network ip = Ok t → t ≠ NetUnspecified ∧ network_is_ipv4 t = is_ipv4 ip.
Proof. unfold determine_network_type. repeat case_match; intros [= <-]; done. Qed.

Lemma determine_short ip t :
  t ≠ NetUnspecified → network_is_ipv4 t = is_ipv4 ip → determine_network_type (network_short t) ip = Ok t.
Proof.
  intros Ht Hf. unfold determine_network_type. rewrite to_lowercase_ascii by (by destruct t).
  destruct t, (is_ipv4 ip); done.
Qed.

Lemma built_wf c : built c → candidate_wf c.
Proof.
  intros [b t c' [] H|ty b rel relp c' Hty [] Hrel Hp H].
  - unfold new_candidate_host in H. destruct (ends_with ".local" (cfg_address b)) eqn:He.
    { injection H as <-. split; cbn; try done. by rewrite He. }
    destruct (parse_ip (cfg_address b)) as [ip|] eqn:Hip; [|done]. unfold set_ip in H. cbn in H.
    destruct (determine_network_type (cfg_network b) ip) as [nt|] eqn:Hd; [|done]. cbn in H. injection H as <-.
    apply determine_family in Hd as [? ?]. split; cbn; try done. rewrite He. split; [done|]. by exists ip, nt.
  - unfold new_candidate_reflexive in H. destruct (parse_ip (cfg_address b)) as [ip|] eqn:Hip; [|done].
    destruct (determine_network_type (cfg_network b) ip) as [nt|] eqn:Hd; [|done]. cbn in H. injection H as <-.
    apply determine_family in Hd as [? ?]. split; cbn; try done.
    set_unfold in Hty. destruct_or? Hty; subst; (split_and!; [done|by exists ip, nt|eauto]); done.
Qed.

Definition marshal_words (c : CandidateBase) : list string :=
  [foundation checksum c; decimal (component c); network_short (network_type c); decimal (priority c);
   address c; decimal (port c); "typ"; candidate_type_str (candidate_type c)]
  ++ (if bool_decide (tcp_type c ≠ TcpUnspecified) then ["tcptype"; tcp_type_str (tcp_type c)] else [])
  ++ match related_address c with
     | Some r => ["raddr"; rel_address r; "rport"; decimal (rel_port r)]
     | None => []
     end.

Lemma marshal_join c : marshal checksum c = join " " (marshal_words c).
Proof.
  unfold marshal, marshal_words. destruct (bool_decide _), (related_address c);
    cbn [join app]; rewrite ?sapp_assoc, ?sapp_nil_r; reflexivity.
Qed.

Lemma foundation_word c : candidate_wf c → is_word (foundation checksum c).
Proof.
  intros []. unfold foundation, is_empty. destruct cw_foundation0 as [->|Hw]; cbn.
  - apply decimal_word. pose proof (checksum_range (as_bytes (candidate_type_str (candidate_type c)) ++
      as_bytes (address c) ++ as_bytes (network_type_str (network_type c)))). lia.
  - rewrite bool_decide_false by apply Hw. done.
Qed.

Lemma marshal_words_words c : candidate_wf c → Forall is_word (marshal_words c).
Proof.
  intros Hc. pose proof (foundation_word c Hc). destruct Hc as [Hcomp Hport Hprio Haddr _ Hk].
  pose proof (priority_range c Hprio Hcomp) as Hp. unfold marshal_words.
  assert (∀ t, is_word (network_short t)) by (by intros []).
  assert (is_word (candidate_type_str (candidate_type c))) by (by destruct (candidate_type c)).
  assert (∀ t, is_word (tcp_type_str t)) by (by intros []).
  assert (Hr : ∀ r, related_address c = Some r → is_word (rel_address r) ∧ 0 ≤ rel_port r < 2 ^ 16).
  { intros r Hr. destruct (candidate_type c); [done|by destruct Hk as [Hk _]; rewrite Hk in Hr|..];
      destruct Hk as (_ & _ & r' & Hr' & ?); rewrite Hr in Hr'; by injection Hr' as ->. }
  apply Forall_app; split; [|apply Forall_app; split].
  - repeat (apply Forall_cons; split); try done; try (apply decimal_word; lia).
  - case_bool_decide; [|by apply Forall_nil]. by repeat (apply Forall_cons; split).
  - destruct (related_address c) as [r|] eqn:Hrel; [|by apply Forall_nil]. destruct (Hr r) as [? ?]; [done|].
    repeat (apply Forall_cons; split); try done; apply decimal_word; lia.
Qed.

Lemma parse_u16_decimal z : 0 ≤ z < 2 ^ 16 → parse_u16 (decimal z) = Some z.
Proof. intros. by apply parse_decimal. Qed.

Lemma parse_u32_decimal z : 0 ≤ z < 2 ^ 32 → parse_u32 (decimal z) = Some z.
Proof. intros. by apply parse_decimal. Qed.

Lemma unmarshal_raddr r :
  0 ≤ rel_port r < 2 ^ 16 →
  unmarshal_extension
    ((if bool_decide (TcpUnspecified ≠ TcpUnspecified) then ["tcptype"; tcp_type_str TcpUnspecified] else [])
     ++ ["raddr"; rel_address r; "rport"; decimal (rel_port r)])
  = Ok (rel_address r, rel_port r, TcpUnspecified).
Proof.
  intros Hr. rewrite (bool_decide_false (TcpUnspecified ≠ TcpUnspecified)) by auto. unfold unmarshal_extension. cbn [app].
  by rewrite bool_decide_true, parse_u16_decimal by done.
Qed.

(** The configuration [unmarshal_candidate] reads back. *)
Definition read_config (c : CandidateBase) : CandidateBaseConfig :=
  {| candidate_id := ""; cfg_network := network_short (network_type c); cfg_address := address c;
     cfg_port := port c; cfg_component := component c; cfg_priority := priority c;
     cfg_foundation := foundation checksum c |}.

Lemma unmarshal_marshal c :
  candidate_wf c →
  unmarshal_candidate id (marshal checksum c) =
  match related_address c with
  | Some r => new_candidate_reflexive id (candidate_type c) (read_config c) (rel_address r) (rel_port r)
  | None => new_candidate_host id (read_config c) (tcp_type c)
  end.
Proof.
  intros Hc. unfold unmarshal_candidate. rewrite marshal_join, split_whitespace_join by (by apply marshal_words_words).
  destruct Hc as [Hcomp Hport Hprio Haddr Hf Hk]. pose proof (priority_range c Hprio Hcomp) as Hp.
  unfold marshal_words. cbn [app].
  rewrite (parse_u16_decimal (component c)), (parse_u16_decimal (port c)), (parse_u32_decimal (priority c)) by lia.
  cbn [parse_or mbind result_bind]. destruct (candidate_type c) eqn:Ht; [done|..].
  - destruct Hk as [-> _]. destruct (tcp_type c) eqn:Htcp; done.
  - destruct Hk as (-> & _ & r & -> & _ & Hrp). by rewrite unmarshal_raddr by done.
  - destruct Hk as (-> & _ & r & -> & _ & Hrp). by rewrite unmarshal_raddr by done.
  - destruct Hk as (-> & _ & r & -> & _ & Hrp). by rewrite unmarshal_raddr by done.
Qed.

(** The re-read candidate agrees with [c] once its fields do. *)
Lemma reread_agrees c c' :
  candidate_wf c → network_type_byte c' = network_type_byte c → candidate_type c' = candidate_type c →
  address c' = address c → port c' = port c → tcp_type c' = tcp_type c → related_address c' = related_address c →
  foundation_override c' = foundation checksum c → priority_override c' = priority c →
  candidate_equal c c' = true ∧ foundation checksum c' = foundation checksum c ∧ priority c' = priority c.
Proof.
  intros Hc H1 H2 H3 H4 H5 H6 Hfo Hpo. pose proof (foundation_word c Hc) as [Hf _].
  pose proof (priority_range c (cw_priority c Hc) (cw_component c Hc)) as [Hp _]. split_and!.
  - unfold candidate_equal, network_type. rewrite H1, H2, H3, H4, H5, H6. by rewrite !bool_decide_true.
  - unfold foundation at 1, is_empty. rewrite Hfo. by rewrite bool_decide_false by done.
  - unfold priority at 1. rewrite Hpo, (proj2 (Z.eqb_neq _ _)) by lia. done.
Qed.

Lemma addressed_reread c :
  addressed c → ∃ ip t, parse_ip (cfg_address (read_config c)) = Some ip
    ∧ determine_network_type (cfg_network (read_config c)) ip = Ok t
    ∧ network_type_byte c = network_type_u8 t ∧ resolved_addr c = (ip, port c).
Proof.
  intros (ip & t & Hip & Ht & Hf & Hb & Hr). exists ip, t. split_and!; [done| |done..].
  cbn. unfold network_type. rewrite Hb, network_type_u8_inv. by apply determine_short.
Qed.

Lemma reread_host c :
  candidate_wf c → candidate_type c = CtHost →
  ∃ c', new_candidate_host id (read_config c) (tcp_type c) = Ok c' ∧ network_type_byte c' = network_type_byte c
    ∧ candidate_type c' = CtHost ∧ address c' = address c ∧ port c' = port c ∧ tcp_type c' = tcp_type c
    ∧ related_address c' = None ∧ foundation_override c' = foundation checksum c ∧ priority_override c' = priority c
    ∧ component c' = component c ∧ resolved_addr c' = resolved_addr c.
Proof.
  intros [_ _ _ _ _ Hk] Ht. rewrite Ht in Hk. destruct Hk as [_ Hk]. unfold new_candidate_host.
  destruct (ends_with ".local" (address c)) eqn:He; cbn [read_config cfg_address]; rewrite He.
  - destruct Hk as [Hb Hr]. by eexists; split_and!; [done|..].
  - apply addressed_reread in Hk as (ip & t & Hip & Hd & Hb & Hr). cbn [read_config cfg_address] in Hip. rewrite Hip.
    unfold set_ip. cbn [network]. rewrite Hd. cbn. by eexists; split_and!; [done|..].
Qed.

Lemma reread_reflexive c r :
  candidate_wf c → related_address c = Some r →
  ∃ c', new_candidate_reflexive id (candidate_type c) (read_config c) (rel_address r) (rel_port r) = Ok c'
    ∧ network_type_byte c' = network_type_byte c ∧ candidate_type c' = candidate_type c ∧ address c' = address c
    ∧ port c' = port c ∧ tcp_type c' = tcp_type c ∧ related_address c' = Some r
    ∧ foundation_override c' = foundation checksum c ∧ priority_override c' = priority c
    ∧ component c' = component c ∧ resolved_addr c' = resolved_addr c.
Proof.
  intros [_ _ _ _ _ Hk] Hr. unfold new_candidate_reflexive.
  assert (tcp_type c = TcpUnspecified ∧ addressed c) as [Htcp Ha].
  { destruct (candidate_type c); [done|by destruct Hk as [Hk _]; rewrite Hk in Hr|..]; by destruct Hk as (? & ? & _). }
  apply addressed_reread in Ha as (ip & t & Hip & Hd & Hb & Hres). rewrite Hip, Hd. cbn.
  eexists; split_and!; [done|..]; try done. by destruct r.
Qed.

(** ** Claims on the textual form *)


End Textual.

Section Witnesses.
#[local] Existing Instance ascii_case_mapping.

Definition toy_checksum (bs : list byte) : Z := be_value bs mod 2 ^ 32.

Lemma toy_checksum_range bs : 0 ≤ toy_checksum bs < 2 ^ 32.
Proof. apply Z.mod_pos_bound. lia. Qed.

Definition sample_base : CandidateBaseConfig :=
  {| candidate_id := ""; cfg_network := "udp"; cfg_address := "fe80::1ff:fe23:4567:890a"; cfg_port := 50123;
     cfg_component := 1; cfg_priority := 0; cfg_foundation := "" |}.

Definition sample_relay : CandidateBase :=
  {| cand_id := "candidate:x"; network_type_byte := 2; candidate_type := CtRelay; component := 1;
     address := "fe80::1ff:fe23:4567:890a"; port := 50123;
     related_address := Some {| rel_address := "10.0.0.7"; rel_port := 9 |}; tcp_type := TcpUnspecified;
     resolved_addr := (V6 [65152; 0; 0; 0; 511; 65059; 17767; 35082], 50123); last_sent := 0; last_received := 0;
     foundation_override := ""; priority_override := 0; network := "" |}.


(** A candidate read without a related address, as are the peer reflexive
    candidates the agent discovers, is marshalled to text that is refused: its empty
    address leaves three words after the type instead of four. *)
Example empty_related_address_refused :
  match unmarshal_candidate "candidate:x" "1 1 udp 1 10.0.0.1 5000 typ prflx" with
  | Ok c => unmarshal_candidate "candidate:x" (marshal toy_checksum c)
  | Err e => Ok default_candidate
  end = Err (Other "ErrParseRelatedAddr: incorrect length").
Proof. vm_compute. reflexivity. Qed.

End Witnesses.

(** ** Claims on priorities *)

(** Both ends order the pairs alike.  The pair one end forms and the pair
    its peer forms of the same two candidates have the same priority, whatever the
    candidates' priorities; the 64-bit computation never wraps. *)
Theorem pair_priority_agreed l r controlling :
  0 ≤ priority l < 2 ^ 32 → 0 ≤ priority r < 2 ^ 32 →
  let p := new_pair l r controlling in
  let q := new_pair r l (negb controlling) in
  pair_priority p = pair_priority q ∧
  ∃ g d, (g, d) = (if controlling then (priority l, priority r) else (priority r, priority l))
    ∧ pair_priority p = (2 ^ 32 - 1) * Z.min g d + 2 * Z.max g d + (if d <? g then 1 else 0)
    ∧ pair_priority p < 2 ^ 64.
Proof.
  intros Hl Hr p q. split; [by destruct controlling|].
  destruct controlling; (do 2 eexists; split; [done|]; split; [by apply pair_priority_exact|]);
    unfold pair_priority, u64_wrap; cbv zeta; apply Z.mod_pos_bound; lia.
Qed.

(** Pairs are ordered by their weaker candidate, and candidates by their
    type.  Candidates whose priority the agent computed lie below 2^31; between such
    pairs a larger minimum decides, and between equal minima a larger maximum. And
    of two candidates of one component the one whose type has the larger preference
    has the larger priority, whatever their networks: a host candidate comes before
    a peer reflexive one, that before a server reflexive one, that before a relay. *)
Theorem pair_priority_order l r l' r' b b' :
  Forall (λ c, priority_override c = 0 ∧ 0 ≤ component c < 2 ^ 8) [l; r; l'; r'] →
  (Z.min (priority l) (priority r) < Z.min (priority l') (priority r')
   ∨ Z.min (priority l) (priority r) = Z.min (priority l') (priority r')
     ∧ Z.max (priority l) (priority r) < Z.max (priority l') (priority r') →
   pair_priority (new_pair l r b) < pair_priority (new_pair l' r' b'))
  ∧ (component l = component l' → preference (candidate_type l) < preference (candidate_type l') →
     priority l < priority l').
Proof.
  intros Hall. assert (Hb : ∀ c, c ∈ [l; r; l'; r'] → 0 ≤ priority c < 2 ^ 31).
  { intros c Hc. rewrite Forall_forall in Hall. destruct (Hall c Hc) as [Ho Hcomp]. rewrite priority_exact by (try done; lia).
    pose proof (local_preference_range c). pose proof (preference_range (candidate_type c)). lia. }
  assert (0 ≤ priority l < 2 ^ 31 ∧ 0 ≤ priority r < 2 ^ 31 ∧ 0 ≤ priority l' < 2 ^ 31 ∧ 0 ≤ priority r' < 2 ^ 31) as (? & ? & ? & ?).
  { split_and!; apply Hb; set_solver. }
  split.
  - assert (Hx : ∀ l r b, 0 ≤ priority l < 2 ^ 31 → 0 ≤ priority r < 2 ^ 31 →
      ∃ e, 0 ≤ e ≤ 1 ∧ pair_priority (new_pair l r b) =
        (2 ^ 32 - 1) * Z.min (priority l) (priority r) + 2 * Z.max (priority l) (priority r) + e).
    { intros x y [] ??; [exists (if priority y <? priority x then 1 else 0)|exists (if priority x <? priority y then 1 else 0)];
        (split; [case_match; lia|]); [|rewrite (Z.min_comm (priority x)), (Z.max_comm (priority x))];
        apply pair_priority_exact; done || lia. }
    destruct (Hx l r b) as (e & ? & ->); [done..|]. destruct (Hx l' r' b') as (e' & ? & ->); [done..|]. lia.
  - intros Hcomp Hpref. rewrite Forall_forall in Hall.
    destruct (Hall l) as [? ?]; [set_solver|]. destruct (Hall l') as [? ?]; [set_solver|].
    rewrite !priority_exact by (try done; lia).
    pose proof (local_preference_range l). pose proof (local_preference_range l'). lia.
Qed.

Definition sample_host : CandidateBase :=
  {| cand_id := "candidate:y"; network_type_byte := 1; candidate_type := CtHost; component := 1; address := "10.0.0.7";
     port := 50000; related_address := None; tcp_type := TcpUnspecified; resolved_addr := (V4 10 0 0 7, 50000);
     last_sent := 0; last_received := 0; foundation_override := ""; priority_override := 0; network := "udp" |}.

Lemma pair_priority_agreed_witness :
  let p := new_pair sample_host sample_relay true in
  let q := new_pair sample_relay sample_host false in
  pair_priority p = pair_priority q ∧
  ∃ g d, (g, d) = (priority sample_host, priority sample_relay)
    ∧ pair_priority p = (2 ^ 32 - 1) * Z.min g d + 2 * Z.max g d + (if d <? g then 1 else 0)
    ∧ pair_priority p < 2 ^ 64.
Proof. apply (pair_priority_agreed sample_host sample_relay true); vm_compute; split; discriminate || reflexivity. Defined.

Lemma pair_priority_order_witness :
  pair_priority (new_pair sample_host sample_relay true) < pair_priority (new_pair sample_host sample_host false)
  ∧ priority sample_relay < priority sample_host.
Proof.
  split.
  - apply (pair_priority_order sample_host sample_relay sample_host sample_host true false).
    + repeat constructor; discriminate.
    + left. vm_compute. reflexivity.
  - apply (pair_priority_order sample_relay sample_relay sample_host sample_host true true).
    + repeat constructor; discriminate.
    + reflexivity.
    + vm_compute. reflexivity.
Defined.
