(* ===== verification/IceNet.v ===== *)
(** * The ICE agent's surroundings (rust/vendor/webrtc-ice/src: url/,
      external_ip_mapper/, control/, priority/, use_candidate/, util/)

    Server URLs, the 1:1 NAT address mapping, the STUN attributes by which two
    agents agree on their roles, and the choice of interfaces and ports.  The [url]
    and [stun] crates, the network interfaces, the sockets and the random numbers are
    arguments. *)

From Stdlib Require Import Ascii String.
From S2P Require Import Prelude Text Net Ice.

(** ** url/mod.rs *)

Inductive SchemeType : Type := SchemeStun | SchemeStuns | SchemeTurn | SchemeTurns | SchemeUnknown.

#[export] Instance SchemeType_eq_dec : EqDecision SchemeType.
Proof. solve_decision. Defined.

Definition scheme_from (raw : string) : SchemeType :=
  if bool_decide (raw = "stun") then SchemeStun
  else if bool_decide (raw = "stuns") then SchemeStuns
  else if bool_decide (raw = "turn") then SchemeTurn
  else if bool_decide (raw = "turns") then SchemeTurns
  else SchemeUnknown.
Definition scheme_str (s : SchemeType) : string :=
  match s with
  | SchemeStun => "stun" | SchemeStuns => "stuns" | SchemeTurn => "turn" | SchemeTurns => "turns"
  | SchemeUnknown => "unknown"
  end.

Inductive ProtoType : Type := ProtoUdp | ProtoTcp | ProtoUnknown.

#[export] Instance ProtoType_eq_dec : EqDecision ProtoType.
Proof. solve_decision. Defined.

Definition proto_from (raw : string) : ProtoType :=
  if bool_decide (raw = "udp") then ProtoUdp
  else if bool_decide (raw = "tcp") then ProtoTcp
  else ProtoUnknown.
Definition proto_str (p : ProtoType) : string :=
  match p with ProtoUdp => "udp" | ProtoTcp => "tcp" | ProtoUnknown => "unknown" end.

Record Url : Type := {
  scheme : SchemeType;
  url_host : string;
  url_port : Z;
  url_username : string;
  url_password : string;
  proto : ProtoType;
}.

#[export] Instance Url_eq_dec : EqDecision Url.
Proof. solve_decision. Defined.

Definition url_display (u : Url) : string :=
  let host := if contains "::" (url_host u) then "[" +:+ url_host u +:+ "]" else url_host u in
  if bool_decide (scheme u = SchemeTurn) || bool_decide (scheme u = SchemeTurns) then
    scheme_str (scheme u) +:+ ":" +:+ host +:+ ":" +:+ decimal (url_port u) +:+ "?transport=" +:+ proto_str (proto u)
  else scheme_str (scheme u) +:+ ":" +:+ host +:+ ":" +:+ decimal (url_port u).

Definition is_secure (u : Url) : bool :=
  bool_decide (scheme u = SchemeStuns) || bool_decide (scheme u = SchemeTurns).

(** What the source takes from a URL the [url] crate parsed. *)
Record url_parts : Type := {
  raw_scheme : string;
  host_str : option string;
  raw_port : option Z;
  query_pairs : list (string * string);
}.

Section UrlParser.
(** [url::Url::parse] *)
Variable parse_raw : string → option url_parts.

(** The protocol of a TURN URL's query. *)
Definition turn_proto (dflt : ProtoType) (q_args : list (string * string)) : result IceError ProtoType :=
  match q_args with
  | [] => Ok dflt
  | [(key, value)] =>
      if bool_decide (key = "transport") then
        let proto := proto_from value in
        if bool_decide (proto = ProtoUnknown) then Err ErrProtoType else Ok proto
      else Err ErrInvalidQuery
  | _ => Err ErrInvalidQuery
  end.

Definition stun_proto (p : ProtoType) (q_args : list (string * string)) : result IceError ProtoType :=
  match q_args with [] => Ok p | _ => Err ErrStunQuery end.

Definition parse_url (raw : string) : result IceError Url :=
  if contains "//" raw then Err ErrInvalidUrl
  else
    match split_once ":"%char raw with
    | None => Err ErrSchemeType
    | Some (before, after) =>
        match parse_raw (before +:+ "://" +:+ after) with
        | None => Err ParseUrl
        | Some parts =>
            let scheme := scheme_from (raw_scheme parts) in
            match host_str parts with
            | None => Err ErrHost
            | Some h =>
                let host := trim_end_matches "]"%char (trim_start_matches "[" (trim h)) in
                let port :=
                  match raw_port parts with
                  | Some port => port
                  | None => if bool_decide (scheme = SchemeStun) || bool_decide (scheme = SchemeTurn) then 3478 else 5349
                  end in
                proto ← (match scheme with
                         | SchemeStun => stun_proto ProtoUdp (query_pairs parts)
                         | SchemeStuns => stun_proto ProtoTcp (query_pairs parts)
                         | SchemeTurn => turn_proto ProtoUdp (query_pairs parts)
                         | SchemeTurns => turn_proto ProtoTcp (query_pairs parts)
                         | SchemeUnknown => Err ErrSchemeType
                         end);
                Ok {| scheme := scheme; url_host := host; url_port := port; url_username := ""; url_password := "";
                      proto := proto |}
            end
        end
    end.

End UrlParser.

(** ** external_ip_mapper/mod.rs *)

Definition validate_ip_string (ip_str : string) : result IceError IpAddr :=
  match parse_ip ip_str with Some ip => Ok ip | None => Err ErrInvalidNat1to1IpMapping end.

Record IpMapping : Type := {
  ip_sole : option IpAddr;
  ip_map : gmap string IpAddr;
}.

Definition default_mapping : IpMapping := {| ip_sole := None; ip_map := ∅ |}.

Definition set_sole_ip (ip : IpAddr) (m : IpMapping) : result IceError IpMapping :=
  if bool_decide (is_Some (ip_sole m)) || negb (bool_decide (ip_map m = ∅)) then Err ErrInvalidNat1to1IpMapping
  else Ok {| ip_sole := Some ip; ip_map := ip_map m |}.

Definition add_ip_mapping (loc_ip ext_ip : IpAddr) (m : IpMapping) : result IceError IpMapping :=
  if bool_decide (is_Some (ip_sole m)) then Err ErrInvalidNat1to1IpMapping
  else
    let loc_ip_str := fmt_ip loc_ip in
    if bool_decide (is_Some (ip_map m !! loc_ip_str)) then Err ErrInvalidNat1to1IpMapping
    else Ok {| ip_sole := ip_sole m; ip_map := <[loc_ip_str := ext_ip]> (ip_map m) |}.

Definition mapping_find (m : IpMapping) (loc_ip : IpAddr) : result IceError IpAddr :=
  match ip_sole m with
  | Some ip => Ok ip
  | None => match ip_map m !! fmt_ip loc_ip with Some ext_ip => Ok ext_ip | None => Err ErrExternalMappedIpNotFound end
  end.

Record ExternalIpMapper : Type := {
  ipv4_mapping : IpMapping;
  ipv6_mapping : IpMapping;
  mapper_candidate_type : CandidateType;
}.

Definition set_ipv4_mapping (m : IpMapping) (x : ExternalIpMapper) : ExternalIpMapper :=
  {| ipv4_mapping := m; ipv6_mapping := ipv6_mapping x; mapper_candidate_type := mapper_candidate_type x |}.
Definition set_ipv6_mapping (m : IpMapping) (x : ExternalIpMapper) : ExternalIpMapper :=
  {| ipv4_mapping := ipv4_mapping x; ipv6_mapping := m; mapper_candidate_type := mapper_candidate_type x |}.

(** The body of the loop over the configured addresses. *)
Definition add_external (ext_ip_str : string) (m : ExternalIpMapper) : result IceError ExternalIpMapper :=
  match split "/"%char ext_ip_str with
  | [ext] =>
      ext_ip ← validate_ip_string ext;
      if is_ipv4 ext_ip then x ← set_sole_ip ext_ip (ipv4_mapping m); Ok (set_ipv4_mapping x m)
      else x ← set_sole_ip ext_ip (ipv6_mapping m); Ok (set_ipv6_mapping x m)
  | [ext; loc] =>
      ext_ip ← validate_ip_string ext;
      loc_ip ← validate_ip_string loc;
      if is_ipv4 ext_ip then
        if negb (is_ipv4 loc_ip) then Err ErrInvalidNat1to1IpMapping
        else x ← add_ip_mapping loc_ip ext_ip (ipv4_mapping m); Ok (set_ipv4_mapping x m)
      else
        if is_ipv4 loc_ip then Err ErrInvalidNat1to1IpMapping
        else x ← add_ip_mapping loc_ip ext_ip (ipv6_mapping m); Ok (set_ipv6_mapping x m)
  | _ => Err ErrInvalidNat1to1IpMapping
  end.

Fixpoint add_externals (ips : list string) (m : ExternalIpMapper) : result IceError ExternalIpMapper :=
  match ips with
  | [] => Ok m
  | ip :: ips => m ← add_external ip m; add_externals ips m
  end.

Definition new_mapper (candidate_type : CandidateType) (ips : list string) : result IceError (option ExternalIpMapper) :=
  match ips with
  | [] => Ok None
  | _ =>
      candidate_type ← (if bool_decide (candidate_type = CtUnspecified) then Ok CtHost
                        else if bool_decide (candidate_type ≠ CtHost) && bool_decide (candidate_type ≠ CtServerReflexive)
                        then Err ErrUnsupportedNat1to1IpCandidateType
                        else Ok candidate_type);
      m ← add_externals ips {| ipv4_mapping := default_mapping; ipv6_mapping := default_mapping;
                               mapper_candidate_type := candidate_type |};
      Ok (Some m)
  end.

Definition find_external_ip (m : ExternalIpMapper) (local_ip_str : string) : result IceError IpAddr :=
  loc_ip ← validate_ip_string local_ip_str;
  if is_ipv4 loc_ip then mapping_find (ipv4_mapping m) loc_ip else mapping_find (ipv6_mapping m) loc_ip.

(** ** priority/, use_candidate/ and control/: STUN attributes *)

(** The [stun] crate's messages: attributes by type, the first of a type is the
    one read; sizes are checked for equality. *)
Class StunMessage : Type := {
  message : Type;
  stun_error : Type;
  ErrAttributeNotFound : stun_error;
  msg_add : Z → list byte → message → message;
  msg_get : Z → message → result stun_error (list byte);
  msg_contains : Z → message → bool;
  check_size : Z → Z → Z → result stun_error unit;
  ATTR_PRIORITY : Z;
  ATTR_USE_CANDIDATE : Z;
  ATTR_ICE_CONTROLLED : Z;
  ATTR_ICE_CONTROLLING : Z;
  attrs_distinct : NoDup [ATTR_PRIORITY; ATTR_USE_CANDIDATE; ATTR_ICE_CONTROLLED; ATTR_ICE_CONTROLLING];
  msg_contains_get t m : msg_contains t m = true ↔ ∃ v, msg_get t m = Ok v;
  msg_get_add t v m : msg_contains t m = false → msg_get t (msg_add t v m) = Ok v;
  msg_get_add_other t t' v m : t ≠ t' → msg_get t (msg_add t' v m) = msg_get t m;
  check_size_ok t got expected : check_size t got expected = Ok () ↔ got = expected;
}.

Inductive Role : Type := Controlling | Controlled | Unspecified.

#[export] Instance Role_eq_dec : EqDecision Role.
Proof. solve_decision. Defined.

Definition role_from (raw : string) : Role :=
  if bool_decide (raw = "controlling") then Controlling
  else if bool_decide (raw = "controlled") then Controlled
  else Unspecified.
Definition role_str (r : Role) : string :=
  match r with Controlling => "controlling" | Controlled => "controlled" | Unspecified => "unspecified" end.

Record AttrControl : Type := {
  role : Role;
  tie_breaker : Z;
}.

Section Attributes.
Context `{SM : !StunMessage}.

Definition PRIORITY_SIZE : Z := 4.
Definition TIE_BREAKER_SIZE : Z := 8.

Definition priority_add_to (p : Z) (m : message) : message := msg_add ATTR_PRIORITY (be_bytes 4 p) m.
Definition priority_get_from (m : message) : result stun_error Z :=
  v ← msg_get ATTR_PRIORITY m; _ ← check_size ATTR_PRIORITY (zlen v) PRIORITY_SIZE; Ok (be_value v).

Definition use_candidate_add_to (m : message) : message := msg_add ATTR_USE_CANDIDATE [] m.
Definition use_candidate_is_set (m : message) : bool :=
  match msg_get ATTR_USE_CANDIDATE m with Ok _ => true | Err _ => false end.

(** [TieBreaker::add_to_as] and [TieBreaker::get_from_as] *)
Definition add_to_as (t : Z) (v : Z) (m : message) : message := msg_add t (be_bytes 8 v) m.
Definition get_from_as (t : Z) (m : message) : result stun_error Z :=
  v ← msg_get t m; _ ← check_size t (zlen v) TIE_BREAKER_SIZE; Ok (be_value v).

Definition controlled_add_to (v : Z) (m : message) : message := add_to_as ATTR_ICE_CONTROLLED v m.
Definition controlled_get_from (m : message) : result stun_error Z := get_from_as ATTR_ICE_CONTROLLED m.
Definition controlling_add_to (v : Z) (m : message) : message := add_to_as ATTR_ICE_CONTROLLING v m.
Definition controlling_get_from (m : message) : result stun_error Z := get_from_as ATTR_ICE_CONTROLLING m.

Definition control_add_to (c : AttrControl) (m : message) : message :=
  if bool_decide (role c = Controlling) then add_to_as ATTR_ICE_CONTROLLING (tie_breaker c) m
  else add_to_as ATTR_ICE_CONTROLLED (tie_breaker c) m.

Definition control_get_from (m : message) : result stun_error AttrControl :=
  if msg_contains ATTR_ICE_CONTROLLING m then
    v ← get_from_as ATTR_ICE_CONTROLLING m; Ok {| role := Controlling; tie_breaker := v |}
  else if msg_contains ATTR_ICE_CONTROLLED m then
    v ← get_from_as ATTR_ICE_CONTROLLED m; Ok {| role := Controlled; tie_breaker := v |}
  else Err ErrAttributeNotFound.

End Attributes.

(** ** util/mod.rs *)

(** The addresses of the interfaces that pass the filters; the list stands for
    the source's set. *)
Definition local_interfaces (interfaces : list (string * list IpAddr)) (interface_filter : option (string → bool))
    (ip_filter : option (IpAddr → bool)) (network_types : list NetworkType) (include_loopback : bool) : list IpAddr :=
  let ipv4requested := existsb network_is_ipv4 network_types in
  let ipv6requested := existsb network_is_ipv6 network_types in
  let keep ip :=
    (negb (is_loopback ip) || include_loopback)
    && ((ipv4requested && is_ipv4 ip) || (ipv6requested && is_ipv6 ip))
    && match ip_filter with Some f => f ip | None => true end in
  '(name, addrs) ← interfaces;
  if match interface_filter with Some f => f name | None => true end
  then list_filter (λ ip, keep ip = true) _ addrs else [].

Section Listen.
Context {C : Type}.
(** Binding a port of the local address: a socket, or an error. *)
Variable bind : Z → result IceError C.

(** The loop, from [port_current]; [None] when the fuel runs out. The [u16] sum
    wraps as in a release build. *)
Fixpoint listen_loop (fuel : nat) (i j port_start port_current : Z) : option (result IceError C) :=
  match fuel with
  | O => None
  | S fuel =>
      match bind port_current with
      | Ok c => Some (Ok c)
      | Err _ =>
          let port_current := u16_wrap (port_current + 1) in
          let port_current := if j <? port_current then i else port_current in
          if port_current =? port_start then Some (Err ErrPort)
          else listen_loop fuel i j port_start port_current
      end
  end.

(** [random] is the random [u16]; there are 2^16 ports, so as many turns are
    enough. *)
Definition listen_udp_in_port_range (random port_max port_min laddr_port : Z) : option (result IceError C) :=
  if negb (laddr_port =? 0) || ((port_min =? 0) && (port_max =? 0)) then
    Some (bind laddr_port)
  else
    let i := if port_min =? 0 then 1 else port_min in
    let j := if port_max =? 0 then 0xFFFF else port_max in
    if j <? i then Some (Err ErrPort)
    else
      let port_start := random mod (j - i + 1) + i in
      listen_loop (Z.to_nat (2 ^ 16)) i j port_start port_start.

End Listen.

(** ** Lemmas *)

(** What [parse_url] accepts: a known scheme, STUN over UDP and STUNS over TCP,
    TURN over either, never an unknown protocol. *)
Lemma parse_url_wf parse_raw raw u :
  parse_url parse_raw raw = Ok u →
  scheme u ≠ SchemeUnknown ∧ proto u ≠ ProtoUnknown ∧ (scheme u = SchemeStun → proto u = ProtoUdp)
  ∧ (scheme u = SchemeStuns → proto u = ProtoTcp) ∧ contains "//" raw = false.
Proof.
  unfold parse_url. destruct (contains "//" raw); [done|]. destruct (split_once _ raw) as [[b a]|]; [|done].
  destruct (parse_raw _) as [ps|]; [|done]. destruct (host_str ps); [|done].
  unfold stun_proto, turn_proto. destruct (scheme_from (raw_scheme ps)) eqn:Hs; cbn;
    destruct (query_pairs ps) as [|[k v] [|]]; try done; repeat case_bool_decide; cbn; try done;
    intros [= <-]; cbn; split_and!; done.
Qed.

Section AttributeLemmas.
Context `{SM : !StunMessage}.

Lemma get_from_as_add t v m :
  0 ≤ v < 2 ^ 64 → msg_contains t m = false → get_from_as t (add_to_as t v m) = Ok v.
Proof.
  intros Hv Hm. unfold get_from_as, add_to_as. rewrite msg_get_add by done. cbn [mbind result_bind].
  assert (check_size t (zlen (be_bytes 8 v)) TIE_BREAKER_SIZE = Ok ()) as ->.
  { apply check_size_ok. by rewrite length_be_bytes. }
  cbn. by rewrite be_value_bytes_small.
Qed.

Lemma msg_contains_add t v m : msg_contains t m = false → msg_contains t (msg_add t v m) = true.
Proof. intros Hm. apply msg_contains_get. exists v. by apply msg_get_add. Qed.

Lemma msg_contains_add_other t t' v m : t ≠ t' → msg_contains t (msg_add t' v m) = msg_contains t m.
Proof. intros Ht. apply eq_bool_prop_intro. rewrite !Is_true_true, !msg_contains_get. by rewrite msg_get_add_other. Qed.

(** The role and the tie breaker survive the wire; a role still unspecified
    arrives as controlled. *)
Lemma control_roundtrip c m :
  0 ≤ tie_breaker c < 2 ^ 64 →
  msg_contains ATTR_ICE_CONTROLLING m = false → msg_contains ATTR_ICE_CONTROLLED m = false →
  control_get_from (control_add_to c m)
  = Ok {| role := if bool_decide (role c = Controlling) then Controlling else Controlled; tie_breaker := tie_breaker c |}.
Proof.
  intros Hv H1 H2. unfold control_get_from, control_add_to. case_bool_decide.
  - unfold add_to_as at 1. rewrite msg_contains_add by done. by rewrite get_from_as_add.
  - assert (ATTR_ICE_CONTROLLING ≠ ATTR_ICE_CONTROLLED).
    { pose proof attrs_distinct as Hd. rewrite !NoDup_cons in Hd. set_solver. }
    unfold add_to_as at 1 3. rewrite msg_contains_add_other, H1, msg_contains_add by done. by rewrite get_from_as_add.
Qed.

Lemma priority_roundtrip p m :
  0 ≤ p < 2 ^ 32 → msg_contains ATTR_PRIORITY m = false → priority_get_from (priority_add_to p m) = Ok p.
Proof.
  intros Hp Hm. unfold priority_get_from, priority_add_to. rewrite msg_get_add by done. cbn [mbind result_bind].
  assert (check_size ATTR_PRIORITY (zlen (be_bytes 4 p)) PRIORITY_SIZE = Ok ()) as ->.
  { apply check_size_ok. by rewrite length_be_bytes. }
  cbn. by rewrite be_value_bytes_small.
Qed.

End AttributeLemmas.

(** Messages as lists of attributes, the newest last: the laws can hold. *)
Definition find_attr (t : Z) (m : list (Z * list byte)) : option (list byte) :=
  snd <$> head (filter (λ a, a.1 = t) m).

Lemma find_attr_snoc t t' v m :
  find_attr t (m ++ [(t', v)])
  = match find_attr t m with Some x => Some x | None => if decide (t' = t) then Some v else None end.
Proof.
  unfold find_attr. rewrite filter_app. destruct (filter _ m) as [|a l]; [|done].
  rewrite filter_cons, filter_nil. cbn. by case_decide.
Qed.

Definition toy_stun : StunMessage.
Proof.
  refine {| message := list (Z * list byte); stun_error := string; ErrAttributeNotFound := "attribute not found";
            msg_add := λ t v m, m ++ [(t, v)];
            msg_get := λ t m, match find_attr t m with Some v => Ok v | None => Err "attribute not found" end;
            msg_contains := λ t m, bool_decide (is_Some (find_attr t m));
            check_size := λ _ got expected, if got =? expected then Ok () else Err "attribute size is invalid";
            ATTR_PRIORITY := 0x0024; ATTR_USE_CANDIDATE := 0x0025; ATTR_ICE_CONTROLLED := 0x8029;
            ATTR_ICE_CONTROLLING := 0x802A |}.
  - apply (bool_decide_eq_true_1 _). reflexivity.
  - intros t m. rewrite bool_decide_eq_true. destruct (find_attr t m); split; [eauto|done|by intros [? [=]]|by intros [? [=]]].
  - intros t v m Hm%bool_decide_eq_false. rewrite find_attr_snoc. destruct (find_attr t m); [by destruct Hm|].
    by rewrite decide_True.
  - intros t t' v m Ht. rewrite find_attr_snoc. destruct (find_attr t m); [done|]. by rewrite decide_False.
  - intros t got expected. destruct (Z.eqb_spec got expected); done.
Defined.

Example control_roundtrip_example :
  control_get_from (SM := toy_stun) (control_add_to (SM := toy_stun) {| role := Unspecified; tie_breaker := 42 |} [])
  = Ok {| role := Controlled; tie_breaker := 42 |}.
Proof. apply (control_roundtrip (SM := toy_stun) {| role := Unspecified; tie_breaker := 42 |} []); done. Qed.

(** ** The port range *)

Section ListenLemmas.
Context {C : Type} (bind : Z → result IceError C) (i j port_start : Z).
Hypothesis range : 1 ≤ i ≤ j.
Hypothesis below : j < 65535.
Hypothesis start_in : i ≤ port_start ≤ j.

Let n : Z := j - i + 1.

(** The port of turn [k]. *)
Definition turn_port (k : Z) : Z := i + (port_start - i + k) mod n.

Lemma turn_port_in k : i ≤ turn_port k ≤ j.
Proof. unfold turn_port. pose proof (Z.mod_pos_bound (port_start - i + k) n). lia. Qed.

Lemma turn_port_0 : turn_port 0 = port_start.
Proof. unfold turn_port. rewrite Z.mod_small; lia. Qed.

Lemma turn_port_next k :
  (let p := u16_wrap (turn_port k + 1) in if j <? p then i else p) = turn_port (k + 1).
Proof.
  cbv zeta. pose proof (turn_port_in k). unfold u16_wrap. rewrite (Z.mod_small (turn_port k + 1)) by lia.
  unfold turn_port in *. pose proof (Z.mod_pos_bound (port_start - i + k) n).
  replace (port_start - i + (k + 1)) with (port_start - i + k + 1) by lia.
  rewrite <- (Zplus_mod_idemp_l (port_start - i + k)). set (r := (port_start - i + k) mod n) in *.
  destruct (Z.ltb_spec j (i + r + 1)).
  - replace (r + 1) with n by lia. rewrite Z_mod_same_full. lia.
  - rewrite (Z.mod_small (r + 1)) by lia. lia.
Qed.

(** Every port of the range has its turn. *)
Lemma turn_port_of p : i ≤ p ≤ j → ∃ k, 0 ≤ k < n ∧ turn_port k = p.
Proof.
  intros Hp. exists ((p - port_start) mod n). split; [apply Z.mod_pos_bound; lia|].
  unfold turn_port. rewrite Zplus_mod_idemp_r. replace (port_start - i + (p - port_start)) with (p - i) by lia.
  rewrite Z.mod_small; lia.
Qed.

Lemma turn_port_again k : 0 < k ≤ n → turn_port k = port_start → k = n.
Proof.
  unfold turn_port. intros Hk Hp. destruct (Z.eq_dec k n) as [|Hne]; [done|].
  assert (Hm : (port_start - i + k) mod n = port_start - i) by lia.
  destruct (Z.lt_ge_cases (port_start - i + k) n) as [Hl|Hl].
  - rewrite Z.mod_small in Hm; lia.
  - replace (port_start - i + k) with (port_start - i + k - n + 1 * n) in Hm by lia.
    rewrite Z.mod_add, Z.mod_small in Hm; lia.
Qed.

Lemma listen_loop_spec fuel k :
  0 ≤ k < n → n - k ≤ Z.of_nat fuel → (∀ m, 0 ≤ m < k → ∃ e, bind (turn_port m) = Err e) →
  ∃ r, listen_loop bind fuel i j port_start (turn_port k) = Some r ∧
    match r with
    | Ok c => ∃ p, i ≤ p ≤ j ∧ bind p = Ok c
    | Err e => e = ErrPort ∧ ∀ p, i ≤ p ≤ j → ∃ e, bind p = Err e
    end.
Proof.
  revert k; induction fuel as [|fuel IH]; intros k Hk Hf Hm; [lia|]. cbn [listen_loop].
  destruct (bind (turn_port k)) as [c|e] eqn:Hb.
  { eexists; split; [done|]. exists (turn_port k). split; [apply turn_port_in|done]. }
  cbv zeta. rewrite turn_port_next.
  assert (Hm' : ∀ m, 0 ≤ m < k + 1 → ∃ e, bind (turn_port m) = Err e).
  { intros m ?. destruct (Z.eq_dec m k) as [->|]; [eauto|apply Hm; lia]. }
  destruct (Z.eqb_spec (turn_port (k + 1)) port_start) as [He|He].
  - apply turn_port_again in He; [|lia]. eexists; split; [done|]. split; [done|].
    intros p (m & ? & <-)%turn_port_of. apply Hm'. lia.
  - apply IH; [|lia|done]. split; [lia|]. destruct (Z.eq_dec (k + 1) n) as [Hn|]; [|lia].
    exfalso. apply He. unfold turn_port. rewrite Hn.
    replace (port_start - i + n) with (port_start - i + 1 * n) by lia. rewrite Z.mod_add, Z.mod_small; lia.
Qed.

End ListenLemmas.

(** The port search is exhaustive.  For a configured range that ends below
    port 65535, the search ends, whatever the random start: with a socket bound to a
    port of the range, or with [ErrPort] when every port of the range is taken. *)
Theorem listen_range_exhaustive {C} (bind : Z → result IceError C) random port_max port_min :
  0 ≤ random < 2 ^ 16 → 0 < port_min ≤ port_max → port_max < 65535 →
  ∃ r, listen_udp_in_port_range bind random port_max port_min 0 = Some r ∧
    match r with
    | Ok c => ∃ p, port_min ≤ p ≤ port_max ∧ bind p = Ok c
    | Err e => e = ErrPort ∧ ∀ p, port_min ≤ p ≤ port_max → ∃ e, bind p = Err e
    end.
Proof.
  intros Hr Hp Hmax. unfold listen_udp_in_port_range.
  rewrite (proj2 (Z.eqb_neq port_min 0)), (proj2 (Z.eqb_neq port_max 0)), (proj2 (Z.ltb_ge _ _)) by lia.
  cbn [negb orb andb Z.eqb]. cbv zeta. set (s := random mod (port_max - port_min + 1) + port_min).
  pose proof (Z.mod_pos_bound random (port_max - port_min + 1)).
  pose proof (listen_loop_spec bind port_min port_max s) as Hl.
  specialize (Hl ltac:(lia) ltac:(lia) ltac:(lia) (Z.to_nat (2 ^ 16)) 0). rewrite turn_port_0 in Hl by lia.
  apply Hl; lia.
Qed.

Lemma listen_range_exhaustive_witness :
  ∃ r, listen_udp_in_port_range (λ p, if p =? 5001 then Ok p else Err ErrPort) 7 5002 5000 0 = Some r ∧
    match r with
    | Ok c => ∃ p, 5000 ≤ p ≤ 5002 ∧ (if p =? 5001 then Ok p else Err ErrPort) = Ok c
    | Err e => e = ErrPort ∧ ∀ p, 5000 ≤ p ≤ 5002 → ∃ e, (if p =? 5001 then Ok p else Err ErrPort) = Err e
    end.
Proof. apply (listen_range_exhaustive _ 7 5002 5000); lia. Defined.

Lemma listen_loop_wraps {C} (bind : Z → result IceError C) i start c fuel cur :
  0 < start ≤ cur → cur ≤ 65535 → 65536 - cur < Z.of_nat fuel →
  (∀ p, start ≤ p ≤ 65535 → ∃ e, bind p = Err e) → bind 0 = Ok c →
  listen_loop bind fuel i 65535 start cur = Some (Ok c).
Proof.
  intros Hs Hc Hf Hb H0. revert cur Hs Hc Hf; induction fuel as [|fuel IH]; intros cur Hs Hc Hf; [lia|].
  cbn [listen_loop]. destruct (Hb cur) as [e ->]; [lia|]. cbv zeta. destruct (Z.eq_dec cur 65535) as [->|Hne].
  - change (u16_wrap (65535 + 1)) with 0. rewrite (proj2 (Z.ltb_ge 65535 0)) by lia.
    rewrite (proj2 (Z.eqb_neq 0 start)) by lia. destruct fuel; [lia|]. cbn. by rewrite H0.
  - unfold u16_wrap. rewrite Z.mod_small by lia. rewrite (proj2 (Z.ltb_ge 65535 _)) by lia.
    rewrite (proj2 (Z.eqb_neq _ start)) by lia. apply IH; lia.
Qed.

(** A range up to port 65535 is left.  When the ports from the random start
    to the last one are taken, the 16-bit counter wraps in a release build and the
    search binds port 0, which no configured range contains and which stands for a
    port of the system's choice, even if lower ports of the range are free. *)
Theorem listen_range_wraps {C} (bind : Z → result IceError C) c random port_max port_min :
  port_max = 0 ∨ port_max = 65535 → 0 < port_min ≤ 65535 →
  (∀ p, random mod (65535 - port_min + 1) + port_min ≤ p ≤ 65535 → ∃ e, bind p = Err e) → bind 0 = Ok c →
  listen_udp_in_port_range bind random port_max port_min 0 = Some (Ok c).
Proof.
  intros Hp Hmin Hb H0. unfold listen_udp_in_port_range.
  assert ((if port_max =? 0 then 65535 else port_max) = 65535) as -> by (by destruct Hp as [-> | ->]).
  rewrite (proj2 (Z.eqb_neq port_min 0)), (proj2 (Z.ltb_ge 65535 _)) by lia. cbn [negb orb andb Z.eqb]. cbv zeta.
  pose proof (Z.mod_pos_bound random (65535 - port_min + 1)). apply listen_loop_wraps; try done; lia.
Qed.

Lemma listen_range_wraps_witness :
  listen_udp_in_port_range (λ p, if p =? 65535 then Err ErrPort else Ok p) 1 65535 65534 0 = Some (Ok 0).
Proof.
  apply (listen_range_wraps _ 0 1 65535 65534).
  - right. reflexivity.
  - lia.
  - intros p Hp. exists ErrPort. change (1 mod (65535 - 65534 + 1) + 65534) with 65535 in Hp.
    assert (p = 65535) as -> by lia. reflexivity.
  - reflexivity.
Defined.

(** ** The 1:1 NAT mapping *)

(** An entry of the configuration: an external address, and the local address
    it is for. *)
Definition mapping_entry (s : string) : option (IpAddr * option IpAddr) :=
  match split "/"%char s with
  | [ext] => ext ← parse_ip ext; Some (ext, None)
  | [ext; loc] => ext ← parse_ip ext; loc ← parse_ip loc; Some (ext, Some loc)
  | _ => None
  end.

Definition family (v4 : bool) (m : ExternalIpMapper) : IpMapping := if v4 then ipv4_mapping m else ipv6_mapping m.

(** A family's mapping holds exactly the entries [es]. *)
Record mapping_holds (es : list (IpAddr * option IpAddr)) (mp : IpMapping) : Prop := {
  mh_sole e : ip_sole mp = Some e ↔ (e, None) ∈ es;
  mh_map k e : ip_map mp !! k = Some e ↔ ∃ l, (e, Some l) ∈ es ∧ fmt_ip l = k;
  mh_either : ip_sole mp = None ∨ ip_map mp = ∅;
}.

Lemma default_holds : mapping_holds [] default_mapping.
Proof. split; [set_solver| |by left]. intros k e. cbn. rewrite lookup_empty. set_solver. Qed.

Lemma set_sole_holds es e mp mp' :
  mapping_holds es mp → set_sole_ip e mp = Ok mp' → mapping_holds ((e, None) :: es) mp'.
Proof.
  intros [Hs Hm _]. unfold set_sole_ip. case_bool_decide as Hsole; [done|]. case_bool_decide as Hmap; [|done].
  intros [= <-]. split; cbn.
  - intros e'. rewrite elem_of_cons. split; [intros [= ->]; by left|]. intros [[= ->]|Hin]; [done|].
    exfalso. apply Hsole. apply Hs in Hin. eauto.
  - intros k e'. rewrite Hm. set_solver.
  - by right.
Qed.

Lemma add_mapping_holds es l e mp mp' :
  mapping_holds es mp → add_ip_mapping l e mp = Ok mp' → mapping_holds ((e, Some l) :: es) mp'.
Proof.
  intros [Hs Hm _]. unfold add_ip_mapping. case_bool_decide as Hsole; [done|]. case_bool_decide as Hmap; [done|].
  intros [= <-]. split; cbn.
  - intros e'. rewrite Hs. set_solver.
  - intros k e'. destruct (decide (k = fmt_ip l)) as [->|Hk].
    + rewrite lookup_insert_eq. split; [intros [= ->]; set_solver|]. intros (l' & [[= -> ->]|Hin]%elem_of_cons & Hl); [done|].
      exfalso. apply Hmap. exists e'. apply Hm. eauto.
    + rewrite lookup_insert_ne by done. rewrite Hm. set_solver.
  - left. by apply eq_None_not_Some.
Qed.

(** One configured address adds its entry to its family, and only there. *)
Lemma add_external_entry s m m' :
  add_external s m = Ok m' →
  ∃ e loc, mapping_entry s = Some (e, loc) ∧ family (negb (is_ipv4 e)) m' = family (negb (is_ipv4 e)) m ∧
  match loc with
  | None => set_sole_ip e (family (is_ipv4 e) m) = Ok (family (is_ipv4 e) m')
  | Some l => is_ipv4 l = is_ipv4 e ∧ add_ip_mapping l e (family (is_ipv4 e) m) = Ok (family (is_ipv4 e) m')
  end.
Proof.
  unfold add_external, mapping_entry, validate_ip_string.
  destruct (split "/" s) as [|ext [|loc [|]]]; [done| | |done].
  - destruct (parse_ip ext) as [e|]; [|done]. cbn. intros H. exists e, None. split; [done|].
    destruct (is_ipv4 e); destruct (set_sole_ip e _) eqn:Hset; try done; cbn in H; by injection H as <-.
  - destruct (parse_ip ext) as [e|]; [|done]. destruct (parse_ip loc) as [l|]; [|done]. cbn. intros H.
    exists e, (Some l). split; [done|].
    destruct (is_ipv4 e), (is_ipv4 l); try done; destruct (add_ip_mapping l e _) eqn:Hset; try done; cbn in H;
      by injection H as <-.
Qed.

Definition mapper_holds (ips : list string) (m : ExternalIpMapper) : Prop :=
  ∀ b, ∃ es, mapping_holds es (family b m)
    ∧ ∀ x, x ∈ es ↔ (∃ s, s ∈ ips ∧ mapping_entry s = Some x) ∧ is_ipv4 x.1 = b.

Lemma add_external_holds ips s m m' :
  mapper_holds ips m → add_external s m = Ok m' → mapper_holds (s :: ips) m'.
Proof.
  intros Hm (e & loc & He & Hother & Hown)%add_external_entry b. destruct (Hm b) as (es & Hes & Hin).
  destruct (decide (b = is_ipv4 e)) as [->|Hb].
  - exists ((e, loc) :: es). split.
    + destruct loc as [l|]; [destruct Hown as [_ Hown]; by eapply add_mapping_holds|by eapply set_sole_holds].
    + intros x. rewrite elem_of_cons, Hin. split.
      * intros [->|[(s' & ? & ?) ?]]; (split; [|done]); [exists s|exists s']; set_solver.
      * intros [(s' & Hs' & Hx) Hb]. apply elem_of_cons in Hs' as [->|Hs']; [left; congruence|right; eauto].
  - assert (b = negb (is_ipv4 e)) as -> by (by destruct b, (is_ipv4 e)). rewrite Hother. exists es. split; [done|].
    intros x. rewrite Hin. split; [set_solver|]. intros [(s' & Hs' & Hx) Hb'].
    apply elem_of_cons in Hs' as [->|Hs']; [|eauto]. rewrite He in Hx. injection Hx as <-. done.
Qed.

Lemma mapper_holds_perm ips ips' m : (∀ s, s ∈ ips ↔ s ∈ ips') → mapper_holds ips m → mapper_holds ips' m.
Proof. intros Heq Hm b. destruct (Hm b) as (es & ? & Hin). exists es. split; [done|]. intros x. rewrite Hin. set_solver. Qed.

Lemma add_externals_holds ips : ∀ done m m', mapper_holds done m → add_externals ips m = Ok m' → mapper_holds (ips ++ done) m'.
Proof.
  induction ips as [|s ips IH]; intros don m m' Hm; cbn [add_externals]; [by intros [= <-]|].
  destruct (add_external s m) as [m1|] eqn:Hs; [|done]. cbn. intros H.
  eapply (mapper_holds_perm (ips ++ s :: don)); [set_solver|]. eapply IH; [|done]. by eapply add_external_holds.
Qed.

(** The NAT mapper answers by its configuration.  Once the configured
    addresses are accepted, the external address found for a local address is
    exactly the one an entry of the same family gives it: an entry for that local
    address, or an entry without a local address; in every other case there is no
    answer. *)
Theorem find_external_ip_spec ct ips m s l e :
  new_mapper ct ips = Ok (Some m) → parse_ip s = Some l →
  find_external_ip m s = Ok e ↔
  ∃ x loc, x ∈ ips ∧ mapping_entry x = Some (e, loc) ∧ is_ipv4 e = is_ipv4 l
    ∧ (loc = None ∨ ∃ l', loc = Some l' ∧ fmt_ip l' = fmt_ip l).
Proof.
  intros Hnew Hl. unfold find_external_ip, validate_ip_string. rewrite Hl. cbn [mbind result_bind].
  assert (Hm : mapper_holds ips m).
  { destruct ips as [|x ips]; [done|]. unfold new_mapper in Hnew.
    destruct (if bool_decide (ct = CtUnspecified) then _ else _) as [ct'|]; [|done]. cbn [mbind result_bind] in Hnew.
    destruct (add_externals (x :: ips) _) as [m'|] eqn:Ha; [|done]. injection Hnew as <-.
    rewrite <- (app_nil_r (x :: ips)). eapply add_externals_holds; [|done].
    intros b. exists []. split; [by destruct b; apply default_holds|set_solver]. }
  destruct (Hm (is_ipv4 l)) as (es & [Hs Hmap Hei] & Hin).
  assert ((if is_ipv4 l then mapping_find (ipv4_mapping m) l else mapping_find (ipv6_mapping m) l)
          = mapping_find (family (is_ipv4 l) m) l) as -> by (by destruct (is_ipv4 l)).
  assert (Hfind : mapping_find (family (is_ipv4 l) m) l = Ok e ↔
            ip_sole (family (is_ipv4 l) m) = Some e ∨ ip_map (family (is_ipv4 l) m) !! fmt_ip l = Some e).
  { unfold mapping_find. destruct Hei as [-> | ->]; [destruct (_ !! _); naive_solver|].
    rewrite lookup_empty. destruct (ip_sole _); naive_solver. }
  rewrite Hfind, Hs, Hmap. setoid_rewrite Hin. cbn. naive_solver.
Qed.

Lemma find_external_ip_spec_witness :
  find_external_ip
    {| ipv4_mapping := {| ip_sole := None; ip_map := {["10.0.0.2" := V4 203 0 113 7]} |};
       ipv6_mapping := {| ip_sole := Some (V6 [8193; 3512; 0; 0; 0; 0; 0; 1]); ip_map := ∅ |};
       mapper_candidate_type := CtHost |} "10.0.0.2" = Ok (V4 203 0 113 7) ↔
  ∃ x loc, x ∈ ["203.0.113.7/10.0.0.2"; "2001:db8::1"] ∧ mapping_entry x = Some (V4 203 0 113 7, loc)
    ∧ is_ipv4 (V4 203 0 113 7) = is_ipv4 (V4 10 0 0 2) ∧ (loc = None ∨ ∃ l', loc = Some l' ∧ fmt_ip l' = fmt_ip (V4 10 0 0 2)).
Proof.
  apply (find_external_ip_spec CtUnspecified ["203.0.113.7/10.0.0.2"; "2001:db8::1"]); vm_compute; reflexivity.
Defined.
