(* ===== verification/WebRtc.v ===== *)
(** * WebRTC client (rust/crates/roboat-webrtc/src/client.rs, lib.rs, types.rs)

    Choosing the ICE servers, the URLs, the handling of TURN URLs, the timeouts,
    the set-up and the outcome of a connection attempt with the calls it makes,
    and the signalling loop.  The webrtc crate, tungstenite and reqwest are not
    part of the repository: what they answer and report (the credential request's
    result, the results of the set-up's calls, the connection's state changes with
    their times, the signalling messages) is an argument.  Environment variables
    are an argument [env]. *)

From Stdlib Require Import Ascii String.
From S2P Require Import Prelude Text Resolver Ros Ice.

(** ** lib.rs *)

Inductive ConnectionType : Type := Stun | Turn | TcpTunnel.

Definition connection_display (c : ConnectionType) : string :=
  match c with
  | Stun => "STUN/P2P (direct)"
  | Turn => "TURN (relayed)"
  | TcpTunnel => "TCP tunnel (fallback)"
  end.

(** The line [log_connection_type] logs. *)
Definition log_connection_type (c : ConnectionType) : string :=
  "WebRTC connection established via " +:+ connection_display c.

Record WebRtcConfig : Type := {
  platform_url : string;
  robot_id : string;
  api_key : string;
  stun_timeout_secs : Z;
  bootstrap_id : option string;
  route_type : option string;
}.

Definition signaling_base_url (c : WebRtcConfig) : string :=
  let trimmed := trim_end_matches "/"%char (platform_url c) in
  match strip_prefix "https://" trimmed with
  | Some rest => "wss://" +:+ rest
  | None =>
      match strip_prefix "http://" trimmed with
      | Some rest => "ws://" +:+ rest
      | None => trimmed
      end
  end.

Definition http_base_url (c : WebRtcConfig) : string :=
  let trimmed := trim_end_matches "/"%char (platform_url c) in
  match strip_prefix "wss://" trimmed with
  | Some rest => "https://" +:+ rest
  | None =>
      match strip_prefix "ws://" trimmed with
      | Some rest => "http://" +:+ rest
      | None => trimmed
      end
  end.

Definition bootstrap_suffix (c : WebRtcConfig) : string :=
  match bootstrap_id c with Some id => "&bootstrap_id=" +:+ id | None => "" end.

Definition signaling_url (c : WebRtcConfig) : string :=
  signaling_base_url c +:+ "/api/signal/" +:+ robot_id c +:+ "?role=agent" +:+ bootstrap_suffix c.
Definition turn_credentials_url (c : WebRtcConfig) : string :=
  http_base_url c +:+ "/api/turn-credentials?robot_id=" +:+ robot_id c +:+ bootstrap_suffix c.

(** ** types.rs *)

(** [V] is [serde_json::Value]. *)
Record SignalMessage (V : Type) : Type := {
  msg_type : string;
  msg_payload : option V;
  msg_robot_id : string;
  msg_bootstrap_id : option string;
}.
Arguments msg_type {V}.
Arguments msg_payload {V}.
Arguments msg_robot_id {V}.
Arguments msg_bootstrap_id {V}.

Inductive BootstrapPhase : Type :=
| StunStart | StunTimeout | StunConnected | TurnFetchStart | TurnFetchOk | TurnFetchFail
| SignalWsConnectStart | SignalWsConnectOk | SignalWsConnectFail | OfferSent | AnswerReceived | DataChannelOpen.

Definition phase_str (p : BootstrapPhase) : string :=
  match p with
  | StunStart => "STUN_START"
  | StunTimeout => "STUN_TIMEOUT"
  | StunConnected => "STUN_CONNECTED"
  | TurnFetchStart => "TURN_FETCH_START"
  | TurnFetchOk => "TURN_FETCH_OK"
  | TurnFetchFail => "TURN_FETCH_FAIL"
  | SignalWsConnectStart => "SIGNAL_WS_CONNECT_START"
  | SignalWsConnectOk => "SIGNAL_WS_CONNECT_OK"
  | SignalWsConnectFail => "SIGNAL_WS_CONNECT_FAIL"
  | OfferSent => "OFFER_SENT"
  | AnswerReceived => "ANSWER_RECEIVED"
  | DataChannelOpen => "DATACHANNEL_OPEN"
  end.

Record TurnCredentials : Type := {
  urls : list string;
  username : string;
  credential : string;
  ttl_seconds : Z;
}.

Record TurnCredentialResponse : Type := {
  turn_available : bool;
  stun_urls : list string;
  turn : option TurnCredentials;
}.

(** [webrtc::ice_transport::ice_server::RTCIceServer] *)
Record RTCIceServer : Type := {
  server_urls : list string;
  server_username : string;
  server_credential : string;
}.

(** [RTCIceTransportPolicy] and the part of [RTCConfiguration] the client sets *)
Inductive RTCIceTransportPolicy : Type := All | Relay.

Record RTCConfiguration : Type := {
  ice_servers : list RTCIceServer;
  ice_transport_policy : RTCIceTransportPolicy;
}.

(** [webrtc::dtls::extension::extension_use_srtp::SrtpProtectionProfile] *)
Inductive SrtpProtectionProfile : Type :=
| Srtp_Aes128_Cm_Hmac_Sha1_80 | Srtp_Aes128_Cm_Hmac_Sha1_32 | Srtp_Aead_Aes_128_Gcm | Srtp_Aead_Aes_256_Gcm.

Inductive TurnUrlTransport : Type := Udp | Tcp.

#[export] Instance TurnUrlTransport_eq_dec : EqDecision TurnUrlTransport.
Proof. solve_decision. Defined.

(** ** client.rs: what the client does *)

(** [log_phase]: the line it logs, a warning when it has a detail. *)
Definition log_line (c : WebRtcConfig) (phase : BootstrapPhase) (detail : option string) : bool * string :=
  let id := default "none" (bootstrap_id c) in
  match detail with
  | Some d => (true, "[BOOTSTRAP:" +:+ id +:+ "] " +:+ phase_str phase +:+ " - " +:+ d)
  | None => (false, "[BOOTSTRAP:" +:+ id +:+ "] " +:+ phase_str phase)
  end.

(** What the client does to the libraries and the network, in order.  [O] is
    [RTCSessionDescription]. *)
Inductive rtc_call (V O : Type) : Type :=
| LogPhase (phase : BootstrapPhase) (detail : option string)
| GetCredentials (url key : string)
| NewPeerConnection (types : list NetworkType) (profiles : list SrtpProtectionProfile) (config : RTCConfiguration)
| CreateDataChannel (label : string)
| OnMessage
| OnOpen
| OnSelectedCandidatePairChange
| WsConnect (url : string) (header : string * string)
| OnIceCandidate
| CreateOffer
| SetLocalDescription (offer : O)
| WsSend (m : SignalMessage V)
| OnPeerConnectionStateChange
| OnIceConnectionStateChange
| SpawnSignalLoop.
Arguments LogPhase {V O}.
Arguments GetCredentials {V O}.
Arguments NewPeerConnection {V O}.
Arguments CreateDataChannel {V O}.
Arguments OnMessage {V O}.
Arguments OnOpen {V O}.
Arguments OnSelectedCandidatePairChange {V O}.
Arguments WsConnect {V O}.
Arguments OnIceCandidate {V O}.
Arguments CreateOffer {V O}.
Arguments SetLocalDescription {V O}.
Arguments WsSend {V O}.
Arguments OnPeerConnectionStateChange {V O}.
Arguments OnIceConnectionStateChange {V O}.
Arguments SpawnSignalLoop {V O}.

(** Code that calls the libraries and may return early with an error. *)
Definition act (V O A : Type) : Type := list (rtc_call V O) * result string A.

#[export] Instance act_ret V O : MRet (act V O) := λ A a, ([], Ok a).
#[export] Instance act_bind V O : MBind (act V O) := λ A B k m,
  match m with
  | (calls, Ok a) => let '(calls', r) := k a in (calls ++ calls', r)
  | (calls, Err e) => (calls, Err e)
  end.

Definition call {V O} (x : rtc_call V O) : act V O unit := ([x], Ok tt).
Definition bail {V O A} (e : string) : act V O A := ([], Err e).
Definition try {V O A} (r : result string A) : act V O A := ([], r).
(** [with_context] with a closure that logs the phase: the answer, or the logged
    message as the error. *)
Definition context_phase {V O A} (r : option A) (phase : BootstrapPhase) (msg : string) : act V O A :=
  match r with Some a => ([], Ok a) | None => ([LogPhase phase (Some msg)], Err msg) end.
(** A call whose error the caller handles. *)
Definition attempt {V O A} (m : act V O A) : act V O (result string A) := (m.1, Ok m.2).

(** What the libraries answer to an attempt: the results of the fallible calls in
    the order they are made, [serde_json] on the offer included. *)
Record attempt_answers (V O : Type) : Type := {
  codecs : result string unit;
  interceptors : result string unit;
  new_peer : result string unit;
  data_channel : result string unit;
  ws_request : option unit;
  key_header : option unit;
  ws_connected : option unit;
  offer_created : result string O;
  local_set : result string unit;
  offer_value : result string V;
  offer_sent : result string unit;
}.
Arguments codecs {V O}.
Arguments interceptors {V O}.
Arguments new_peer {V O}.
Arguments data_channel {V O}.
Arguments ws_request {V O}.
Arguments key_header {V O}.
Arguments ws_connected {V O}.
Arguments offer_created {V O}.
Arguments local_set {V O}.
Arguments offer_value {V O}.
Arguments offer_sent {V O}.

(** A message on the signalling socket: text that is a [SignalMessage], or
    anything else. *)
Inductive ws_message (V : Type) : Type :=
| WsSignal (m : SignalMessage V)
| WsOther.
Arguments WsSignal {V}.
Arguments WsOther {V}.

(** What wakes the loop: a local candidate from [ice_rx], or the socket. *)
Inductive signal_input (V C : Type) : Type :=
| LocalCandidate (i : C)
| WsIn (m : ws_message V).
Arguments LocalCandidate {V C}.
Arguments WsIn {V C}.

Inductive signal_action (V Answer C : Type) : Type :=
| SetRemoteDescription (a : Answer)
| AddIceCandidate (i : C)
| SendSignal (m : SignalMessage V)
| LogSignal (phase : BootstrapPhase).
Arguments SetRemoteDescription {V Answer C}.
Arguments AddIceCandidate {V Answer C}.
Arguments SendSignal {V Answer C}.
Arguments LogSignal {V Answer C}.

(** ** client.rs: flags and timeouts *)

Definition parse_bool_like (value : string) : bool :=
  bool_decide (to_ascii_lowercase (trim value) ∈ ["1"; "true"; "yes"; "on"]).

Section Client.
Context (env : string → option string).

Definition env_flag_enabled_with_default (name : string) (default : bool) : bool :=
  match env name with Some value => parse_bool_like value | None => default end.
Definition env_flag_enabled (name : string) : bool := env_flag_enabled_with_default name false.

Definition route_requires_relay (c : WebRtcConfig) : bool :=
  match route_type c with
  | Some r => if eq_ignore_ascii_case (trim r) "turn_relay" then true
              else env_flag_enabled_with_default "ROBOAT_WEBRTC_FORCE_RELAY" false
  | None => env_flag_enabled_with_default "ROBOAT_WEBRTC_FORCE_RELAY" false
  end.

(** A variable with a number of seconds, if it has one. *)
Definition env_secs (name : string) (secs : Z) : Z := default secs (raw ← env name; parse_u64 (trim raw)).

Definition FIRST_WINDOW_SECS : Z := 2.
Definition EXTRA_WINDOW_SECS : Z := 2.
Definition TOTAL_WINDOW_SECS : Z := FIRST_WINDOW_SECS + EXTRA_WINDOW_SECS.

Definition resolve_parallel_connect_timeout (c : WebRtcConfig) : Z :=
  let secs := env_secs "ROBOAT_WEBRTC_CONNECT_TIMEOUT_SECS" (stun_timeout_secs c) in
  let secs := if secs =? 0 then TOTAL_WINDOW_SECS else secs in
  let secs := if secs <? FIRST_WINDOW_SECS then FIRST_WINDOW_SECS else secs in
  let secs := if secs >? TOTAL_WINDOW_SECS then TOTAL_WINDOW_SECS else secs in
  from_secs secs.

Definition DEFAULT_GRACE_SECS : Z := 8.
Definition MAX_GRACE_SECS : Z := 12.

Definition resolve_datachannel_open_grace : Z :=
  let secs := env_secs "ROBOAT_WEBRTC_DC_OPEN_GRACE_SECS" DEFAULT_GRACE_SECS in
  let secs := if secs =? 0 then DEFAULT_GRACE_SECS else secs in
  let secs := if secs >? MAX_GRACE_SECS then MAX_GRACE_SECS else secs in
  from_secs secs.

(** ** client.rs: TURN URLs *)

Definition parse_turn_transport_query (query : string) : option string :=
  head (omap (λ kv, '(key, value) ← split_once "="%char kv;
                    if bool_decide (key = "transport") then Some value else None) (split "&"%char query)).

(** The text before and after the first question mark of a normalized URL, and
    the transport its query names. *)
Definition split_url (url : string) : string * option string :=
  let normalized := to_ascii_lowercase (trim url) in
  match split_once "?"%char normalized with
  | Some (lhs, rhs) => (lhs, parse_turn_transport_query rhs)
  | None => (normalized, None)
  end.

Definition turn_url_transport (url : string) : option TurnUrlTransport :=
  let '(base, query_transport) := split_url url in
  if starts_with "turns:" base then
    match query_transport with
    | Some t => if bool_decide (t = "tcp") then Some Tcp else None
    | None => Some Tcp
    end
  else if negb (starts_with "turn:" base) then None
  else
    match query_transport with
    | Some t => if bool_decide (t = "udp") then Some Udp
                else if bool_decide (t = "tcp") then Some Tcp else None
    | None => Some Udp
    end.

Definition is_supported_turn_url (url : string) (tcp_enabled : bool) : bool :=
  match turn_url_transport url with
  | Some Udp => true
  | Some Tcp => tcp_enabled
  | None => false
  end.

Definition turn_udp (host : string) : string := "turn:" +:+ host +:+ "?transport=udp".
Definition turn_tcp (host : string) : string := "turn:" +:+ host +:+ "?transport=tcp".

Definition expand_turn_urls (url : string) (tcp_enabled : bool) : list string :=
  let '(base, query_transport) := split_url url in
  if starts_with "turns:" base then
    if negb tcp_enabled || bool_decide (query_transport = Some "udp") then []
    else [turn_tcp (trim_start_matches "turns:" base)]
  else if negb (starts_with "turn:" base) then []
  else
    let host := trim_start_matches "turn:" base in
    match query_transport with
    | Some t => if bool_decide (t = "udp") then [turn_udp host]
                else if bool_decide (t = "tcp") then if tcp_enabled then [turn_tcp host] else []
                else []
    | None => if tcp_enabled then [turn_udp host; turn_tcp host] else [turn_udp host]
    end.

(** [if !out.iter().any(|existing| existing == url) { out.push(url) }] in a loop *)
Definition push_new (out : list string) (url : string) : list string :=
  if bool_decide (url ∈ out) then out else out ++ [url].

Definition filter_supported_turn_urls (urls : list string) : list string :=
  let tcp_enabled := env_flag_enabled_with_default "ROBOAT_WEBRTC_TCP_ENABLED" false in
  let tls_only := tcp_enabled && env_flag_enabled_with_default "ROBOAT_WEBRTC_TURN_TLS_ONLY" false in
  let expanded :=
    raw ← urls;
    let turns_origin := starts_with "turns:" (to_ascii_lowercase (trim raw)) in
    (λ u, (u, turns_origin && bool_decide (turn_url_transport u = Some Tcp))) <$> expand_turn_urls raw tcp_enabled in
  let tls := foldl push_new [] (filter (λ p, p.2 = true) expanded).*1 in
  if tls_only && negb (bool_decide (tls = [])) then tls
  else foldl push_new [] expanded.*1.

Definition ice_network_types_for_servers (servers : list RTCIceServer) : list NetworkType :=
  let ipv6_enabled := env_flag_enabled "ROBOAT_WEBRTC_IPV6_ENABLED" in
  let tcp_enabled := env_flag_enabled_with_default "ROBOAT_WEBRTC_TCP_ENABLED" false in
  let needs_tcp :=
    tcp_enabled && existsb (λ u, bool_decide (turn_url_transport u = Some Tcp)) (servers ≫= server_urls) in
  [Udp4] ++ (if ipv6_enabled then [Udp6] else []) ++
  (if needs_tcp then [Tcp4] ++ (if ipv6_enabled then [Tcp6] else []) else []).

Definition render_network_types (types : list NetworkType) : string := String.concat "," (network_type_str <$> types).

(** ** client.rs: choosing the servers *)

(** What the credential request gave: reqwest's error, or a response with its
    status (number and text), body and decoded JSON. *)
Inductive credential_reply : Type :=
| TransportError
| Response (status : Z) (status_text : string) (body : option string) (json : option TurnCredentialResponse).

(** [fetch_turn_credentials], up to the error's outermost context *)
Definition fetch_turn_credentials {V O} (c : WebRtcConfig) (reply : credential_reply) : act V O TurnCredentialResponse :=
  let url := turn_credentials_url c in
  call (LogPhase TurnFetchStart None);;
  call (GetCredentials url (api_key c));;
  match reply with
  | TransportError =>
      context_phase None TurnFetchFail ("HTTP transport error fetching TURN credentials from " +:+ url)
  | Response status status_text body json =>
      if negb (is_success status) then
        let err_msg := "TURN credentials API returned " +:+ status_text +:+ ": " +:+ default "no body" body in
        call (LogPhase TurnFetchFail (Some err_msg));; bail err_msg
      else
        payload ← context_phase json TurnFetchFail "failed to parse TURN credentials JSON";
        call (LogPhase TurnFetchOk None);; mret payload
  end.

Definition stun_server (url : string) : RTCIceServer :=
  {| server_urls := [url]; server_username := ""; server_credential := "" |}.

(** [connect] up to the attempt: the ICE servers and whether TURN is among
    them. *)
Definition connect_plan {V O} (c : WebRtcConfig) (reply : credential_reply) : act V O (list RTCIceServer * bool) :=
  let relay_required := route_requires_relay c in
  call (LogPhase StunStart None);;
  let ice_servers := if relay_required then [] else [stun_server "stun:stun.l.google.com:19302"] in
  fetched ← attempt (fetch_turn_credentials c reply);
  match fetched with
  | Ok turn_creds =>
      let ice_servers := ice_servers ++ (if relay_required then [] else stun_server <$> stun_urls turn_creds) in
      if turn_available turn_creds then
        match turn turn_creds with
        | Some t =>
            let filtered_turn_urls := filter_supported_turn_urls (urls t) in
            if negb (bool_decide (filtered_turn_urls = [])) then
              mret (ice_servers ++ [{| server_urls := filtered_turn_urls; server_username := username t;
                                       server_credential := credential t |}], true)
            else if relay_required then bail "relay-only mode requested but no supported TURN URL remained"
            else mret (ice_servers, false)
        | None =>
            if relay_required then bail "relay-only mode requested but TURN credentials missing"
            else mret (ice_servers, false)
        end
      else if relay_required then bail "relay-only mode requested but TURN not available"
      else mret (ice_servers, false)
  | Err _ =>
      if relay_required then bail "relay-only mode requested but TURN credential fetch failed"
      else mret (ice_servers, false)
  end.

(** ** client.rs: the attempt *)

(** State changes the webrtc crate reports, with the time since the offer was
    sent. *)
Inductive conn_event : Type :=
| PeerFailed | PeerDisconnected
| IceConnected | IceCompleted | IceFailed
| OtherState
| DcOpened.

(** What a state change sends over the oneshot channel [connected_tx], if it
    comes first. *)
Definition verdict (e : conn_event) : option (result string unit) :=
  match e with
  | PeerFailed => Some (Err "Connection state: Failed")
  | PeerDisconnected => Some (Err "Connection state: Disconnected")
  | IceConnected | IceCompleted => Some (Ok tt)
  | IceFailed => Some (Err "ICE state: Failed")
  | OtherState | DcOpened => None
  end.

Definition first_verdict (evs : list (Z * conn_event)) : option (Z * result string unit) :=
  head (omap (λ '(t, e), pair t <$> verdict e) evs).
Definition first_open (evs : list (Z * conn_event)) : option Z :=
  head (omap (λ '(t, e), match e with DcOpened => Some t | _ => None end) evs).

(** The SRTP profiles the client allows: all but AES-256-GCM, on which
    webrtc-srtp panics. *)
Definition srtp_profiles : list SrtpProtectionProfile :=
  [Srtp_Aead_Aes_128_Gcm; Srtp_Aes128_Cm_Hmac_Sha1_80; Srtp_Aes128_Cm_Hmac_Sha1_32].

Definition rtc_configuration (c : WebRtcConfig) (servers : list RTCIceServer) : RTCConfiguration :=
  {| ice_servers := servers; ice_transport_policy := if route_requires_relay c then Relay else All |}.

Definition offer_message {V} (c : WebRtcConfig) (payload : V) : SignalMessage V :=
  {| msg_type := "offer"; msg_payload := Some payload; msg_robot_id := robot_id c; msg_bootstrap_id := bootstrap_id c |}.

(** [attempt_webrtc] up to the offer *)
Definition attempt_setup {V O} (c : WebRtcConfig) (servers : list RTCIceServer) (ans : attempt_answers V O) : act V O unit :=
  let network_types := ice_network_types_for_servers servers in
  try (codecs ans);;
  try (interceptors ans);;
  call (NewPeerConnection network_types srtp_profiles (rtc_configuration c servers));;
  try (new_peer ans);;
  call (CreateDataChannel "rt-data");;
  try (data_channel ans);;
  call OnMessage;;
  call OnOpen;;
  call OnSelectedCandidatePairChange;;
  let sig_url := signaling_url c in
  call (LogPhase SignalWsConnectStart None);;
  context_phase (ws_request ans) SignalWsConnectFail ("invalid signaling WebSocket URL (url=" +:+ sig_url +:+ ")");;
  context_phase (key_header ans) SignalWsConnectFail "invalid robot API key for signaling header";;
  call (WsConnect sig_url ("X-Robot-API-Key", api_key c));;
  context_phase (ws_connected ans) SignalWsConnectFail ("signaling WebSocket connect failed (url=" +:+ sig_url +:+ ")");;
  call (LogPhase SignalWsConnectOk None);;
  call OnIceCandidate;;
  call CreateOffer;;
  offer ← try (offer_created ans);
  call (SetLocalDescription offer);;
  try (local_set ans);;
  payload ← try (offer_value ans);
  call (WsSend (offer_message c payload));;
  try (offer_sent ans);;
  call (LogPhase OfferSent None).

(** The end of [attempt_webrtc], after the offer: the time it returns, and the
    phase it logs and its result. *)
Definition await_open {V O} (c : WebRtcConfig) (evs : list (Z * conn_event)) : Z * act V O unit :=
  let connect_timeout := resolve_parallel_connect_timeout c in
  let timed_out :=
    (connect_timeout,
     call (LogPhase StunTimeout None);;
     bail ("WebRTC ICE timeout (" +:+ decimal (connect_timeout / from_secs 1) +:+ "s)")) in
  match first_verdict evs with
  | Some (t, r) =>
      if t <=? connect_timeout then
        match r with
        | Err e => (t, bail ("WebRTC connection failed: " +:+ e))
        | Ok _ =>
            let dc_open_grace := resolve_datachannel_open_grace in
            let no_channel :=
              (t + dc_open_grace,
               bail ("WebRTC DataChannel open timeout (" +:+ decimal (dc_open_grace / from_secs 1)
                     +:+ "s) after ICE connected")) in
            match first_open evs with
            | Some t' => if t' <=? t + dc_open_grace then (Z.max t t', call (LogPhase DataChannelOpen None)) else no_channel
            | None => no_channel
            end
        end
      else timed_out
  | None => timed_out
  end.

Definition attempt_webrtc {V O} (c : WebRtcConfig) (servers : list RTCIceServer) (ans : attempt_answers V O)
    (evs : list (Z * conn_event)) : act V O unit :=
  attempt_setup c servers ans;;
  call OnPeerConnectionStateChange;;
  call OnIceConnectionStateChange;;
  call SpawnSignalLoop;;
  (await_open c evs).2.

(** [connect]: the connection type or the error's outermost context. *)
Definition connect {V O} (c : WebRtcConfig) (reply : credential_reply) (ans : attempt_answers V O)
    (evs : list (Z * conn_event)) : act V O ConnectionType :=
  '(servers, turn_enabled) ← connect_plan c reply;
  r ← attempt (attempt_webrtc c servers ans evs);
  match r with
  | Ok _ => mret (if turn_enabled : bool then Turn else Stun)
  | Err _ => bail "WebRTC failed during parallel ICE attempt"
  end.

(** ** client.rs: signalling *)

Section Signalling.
Context {V Answer C : Type} (c : WebRtcConfig).
(** [serde_json::from_value] at the two types, and [to_value] of a candidate,
    null when it fails *)
Context (as_answer : V → option Answer) (as_candidate : V → option C) (candidate_value : C → V).

Definition candidate_message (i : C) : SignalMessage V :=
  {| msg_type := "ice-candidate"; msg_payload := Some (candidate_value i); msg_robot_id := robot_id c;
     msg_bootstrap_id := bootstrap_id c |}.

(** One turn of the signalling loop: what is done, and whether the loop goes
    on. *)
Definition handle_signal (x : signal_input V C) : list (signal_action V Answer C) * bool :=
  match x with
  | LocalCandidate i => ([SendSignal (candidate_message i)], true)
  | WsIn (WsSignal sig) =>
      if bool_decide (msg_type sig = "answer") then
        (match msg_payload sig ≫= as_answer with
         | Some a => [SetRemoteDescription a; LogSignal AnswerReceived]
         | None => []
         end, true)
      else if bool_decide (msg_type sig = "ice-candidate") then
        (match msg_payload sig ≫= as_candidate with Some i => [AddIceCandidate i] | None => [] end, true)
      else if bool_decide (msg_type sig = "bye") then ([], false)
      else ([], true)
  | WsIn WsOther => ([], true)
  end.

(** The loop over what wakes it; [true] while it waits for more. *)
Fixpoint signal_loop (xs : list (signal_input V C)) : list (signal_action V Answer C) * bool :=
  match xs with
  | [] => ([], true)
  | x :: xs =>
      let '(acts, go) := handle_signal x in
      if go : bool then let '(acts', go') := signal_loop xs in (acts ++ acts', go') else (acts, false)
  end.
End Signalling.
End Client.

(** ** Lemmas: strings *)

Definition has_char (c : ascii) (s : string) : bool := negb (string_forallb (λ a, negb (bool_decide (a = c))) s).

Lemma split_once_Some c s l r :
  split_once c s = Some (l, r) → s = l +:+ String c r ∧ has_char c l = false.
Proof.
  revert l; induction s as [|a s IH]; intros l; cbn; [done|].
  destruct (decide (a = c)) as [->|Hne]; [by intros [= <- <-]|].
  intros ([l' r'] & Hs & [= <- <-])%bind_Some. destruct (IH _ Hs) as [-> Hl]. split; [done|].
  unfold has_char in *. cbn. by rewrite bool_decide_eq_false_2.
Qed.

Lemma split_once_app c l r : has_char c l = false → split_once c (l +:+ String c r) = Some (l, r).
Proof.
  unfold has_char. induction l as [|a l IH]; cbn.
  - change ("" +:+ String c r) with (String c r). cbn. by destruct (decide (c = c)).
  - rewrite sapp_cons. cbn. case_bool_decide as Ha; cbn; [done|]. intros Hl.
    destruct (decide (a = c)); [done|]. by rewrite IH.
Qed.

Lemma split_once_None c s : split_once c s = None → has_char c s = false.
Proof.
  unfold has_char. induction s as [|a s IH]; cbn; [done|].
  destruct (decide (a = c)) as [->|Hne]; [done|]. rewrite bool_decide_eq_false_2 by done. cbn.
  destruct (split_once c s) as [[l r]|]; [done|]. auto.
Qed.

Lemma has_char_app c s t : has_char c (s +:+ t) = has_char c s || has_char c t.
Proof. unfold has_char. rewrite string_forallb_app. by destruct (string_forallb _ s). Qed.

Lemma strip_prefix_Some pre s rest : strip_prefix pre s = Some rest → s = pre +:+ rest.
Proof.
  revert s; induction pre as [|a pre IH]; intros s; cbn; [by intros [= ->]|].
  destruct s as [|b s]; [done|]. destruct (decide (a = b)) as [->|]; [|done].
  intros ->%IH. done.
Qed.

Lemma trim_start_matches_suffix pre s : ∃ p, s = p +:+ trim_start_matches pre s.
Proof.
  unfold trim_start_matches. generalize (String.length s). intros fuel. revert s.
  induction fuel as [|fuel IH]; intros s; cbn; [by exists ""|].
  destruct (strip_prefix pre s) as [rest|] eqn:Hs; [|by exists ""].
  apply strip_prefix_Some in Hs as ->. destruct (IH rest) as [p Hp]. exists (pre +:+ p).
  by rewrite sapp_assoc, <-Hp.
Qed.

(** Lower-case text without a question mark, as the hosts below are. *)
Definition plain_host (s : string) : Prop := to_ascii_lowercase s = s ∧ has_char "?" s = false.

Lemma lower_app s t : to_ascii_lowercase (s +:+ t) = to_ascii_lowercase s +:+ to_ascii_lowercase t.
Proof. apply string_map_app. Qed.

Lemma lower_length s : String.length (to_ascii_lowercase s) = String.length s.
Proof. apply length_string_map. Qed.

Lemma lower_app_inv s t :
  to_ascii_lowercase (s +:+ t) = s +:+ t → to_ascii_lowercase s = s ∧ to_ascii_lowercase t = t.
Proof. rewrite lower_app. apply sapp_inj_r, lower_length. Qed.

Lemma split_url_plain url base q : split_url url = (base, q) → plain_host base.
Proof.
  unfold split_url, plain_host. destruct (split_once _ _) as [[l r]|] eqn:Hs; intros [= <- <-].
  - apply split_once_Some in Hs as [Hs Hl]. split; [|done].
    assert (Hlow : to_ascii_lowercase (l +:+ String "?" r) = l +:+ String "?" r) by (rewrite <-Hs; apply lower_idemp).
    by apply lower_app_inv in Hlow as [? _].
  - split; [apply lower_idemp|by apply split_once_None].
Qed.

Lemma plain_host_suffix pre base : plain_host base → plain_host (trim_start_matches pre base).
Proof.
  intros [Hl Hq]. destruct (trim_start_matches_suffix pre base) as [p Hp]. rewrite Hp in Hl, Hq. split.
  - by apply lower_app_inv in Hl as [_ ?].
  - rewrite has_char_app in Hq. by apply orb_false_iff in Hq as [_ ?].
Qed.

(** ** Lemmas: TURN URLs *)

(** The two forms of URL the client produces. *)
Definition turn_url (t : TurnUrlTransport) (host : string) : string :=
  match t with Udp => turn_udp host | Tcp => turn_tcp host end.

Lemma split_url_turn t host :
  plain_host host →
  split_url (turn_url t host) = ("turn:" +:+ host, Some (match t with Udp => "udp" | Tcp => "tcp" end)).
Proof.
  intros [Hl Hq]. unfold split_url.
  set (tr := match t with Udp => "ud" | Tcp => "tc" end).
  assert (Heq : turn_url t host = String "t" ("urn:" +:+ host +:+ "?transport=" +:+ tr) +:+ String "p" "").
  { destruct t; cbn [turn_url]; unfold turn_udp, turn_tcp; subst tr;
      by rewrite !sapp_cons, !sapp_assoc. }
  assert (trim (turn_url t host) = turn_url t host) as ->.
  { rewrite Heq. by apply trim_visible_ends. }
  assert (turn_url t host = ("turn:" +:+ host) +:+ String "?" ("transport=" +:+ match t with Udp => "udp" | Tcp => "tcp" end)) as ->.
  { rewrite sapp_assoc. by destruct t. }
  rewrite !lower_app, Hl. change (to_ascii_lowercase "turn:") with "turn:".
  assert (to_ascii_lowercase (String "?" ("transport=" +:+ match t with Udp => "udp" | Tcp => "tcp" end))
          = String "?" ("transport=" +:+ match t with Udp => "udp" | Tcp => "tcp" end)) as -> by (by destruct t).
  rewrite split_once_app by (rewrite has_char_app, Hq; done). by destruct t.
Qed.

Lemma turn_url_transport_turn t host : plain_host host → turn_url_transport (turn_url t host) = Some t.
Proof.
  intros Hh. unfold turn_url_transport. rewrite split_url_turn by done.
  change (starts_with "turns:" ("turn:" +:+ host)) with false.
  assert (starts_with "turn:" ("turn:" +:+ host) = true) as ->; [|by destruct t].
  unfold starts_with. cbn. by destruct host.
Qed.

(** Everything [expand_turn_urls] returns is a [turn:] URL with a transport, TCP
    only when enabled. *)
Lemma expand_turn_urls_elem raw tcp u :
  u ∈ expand_turn_urls raw tcp → ∃ t host, u = turn_url t host ∧ plain_host host ∧ (t = Tcp → tcp = true).
Proof.
  unfold expand_turn_urls. destruct (split_url raw) as [base q] eqn:Hs. apply split_url_plain in Hs.
  destruct (starts_with "turns:" base).
  - destruct tcp; cbn [negb orb]; [|by intros ?%elem_of_nil]. case_bool_decide; [by intros ?%elem_of_nil|].
    intros ->%list_elem_of_singleton. exists Tcp, (trim_start_matches "turns:" base). eauto using plain_host_suffix.
  - destruct (starts_with "turn:" base); [|by intros ?%elem_of_nil]. cbn [negb].
    pose proof (plain_host_suffix "turn:" base Hs) as Hh.
    assert (Hu : ∃ t host, turn_udp (trim_start_matches "turn:" base) = turn_url t host ∧ plain_host host ∧ (t = Tcp → tcp = true)).
    { by exists Udp, (trim_start_matches "turn:" base). }
    assert (Ht : tcp = true → ∃ t host, turn_tcp (trim_start_matches "turn:" base) = turn_url t host ∧ plain_host host ∧ (t = Tcp → tcp = true)).
    { by exists Tcp, (trim_start_matches "turn:" base). }
    repeat case_match; intros Hin; set_unfold in Hin; destruct_or? Hin; subst; try done; try exact Hu; by apply Ht.
Qed.

Lemma foldl_push_new_elem l out u : u ∈ foldl push_new out l ↔ u ∈ out ∨ u ∈ l.
Proof.
  revert out; induction l as [|x l IH]; intros out; cbn; [set_solver|]. rewrite IH.
  unfold push_new. case_bool_decide; set_solver.
Qed.

Lemma foldl_push_new_NoDup l out : NoDup out → NoDup (foldl push_new out l).
Proof.
  revert out; induction l as [|x l IH]; intros out Hn; cbn; [done|]. apply IH.
  unfold push_new. case_bool_decide; [done|]. apply NoDup_app. split_and!; [done|set_solver|apply NoDup_singleton].
Qed.

Definition tcp_flag (env : string → option string) : bool :=
  env_flag_enabled_with_default env "ROBOAT_WEBRTC_TCP_ENABLED" false.

Lemma filter_elem env us u :
  u ∈ filter_supported_turn_urls env us → ∃ raw, raw ∈ us ∧ u ∈ expand_turn_urls raw (tcp_flag env).
Proof.
  unfold filter_supported_turn_urls. fold (tcp_flag env). cbv zeta.
  set (ex := us ≫= _).
  assert (Hex : u ∈ ex.*1 → ∃ raw, raw ∈ us ∧ u ∈ expand_turn_urls raw (tcp_flag env)).
  { intros ([u' b] & -> & Hin)%list_elem_of_fmap. apply list_elem_of_bind in Hin as (raw & Hin & Hraw).
    apply list_elem_of_fmap in Hin as (u'' & [= -> _] & Hu). by exists raw. }
  case_match; rewrite foldl_push_new_elem; intros [Hin|Hin]; try (by apply elem_of_nil in Hin); apply Hex; [|done].
  apply list_elem_of_fmap in Hin as (p & -> & Hp). apply list_elem_of_filter in Hp as [_ Hp]. apply list_elem_of_fmap. eauto.
Qed.

Lemma filter_complete env us raw u :
  env_flag_enabled_with_default env "ROBOAT_WEBRTC_TURN_TLS_ONLY" false = false →
  raw ∈ us → u ∈ expand_turn_urls raw (tcp_flag env) → u ∈ filter_supported_turn_urls env us.
Proof.
  intros Htls Hraw Hu. unfold filter_supported_turn_urls. fold (tcp_flag env). cbv zeta. rewrite Htls, andb_false_r. cbn [andb].
  apply foldl_push_new_elem. right. apply list_elem_of_fmap.
  exists (u, starts_with "turns:" (to_ascii_lowercase (trim raw)) && bool_decide (turn_url_transport u = Some Tcp)).
  split; [done|]. apply list_elem_of_bind. exists raw. split; [|done]. apply list_elem_of_fmap. by exists u.
Qed.

Lemma digits_value_nonneg acc s v : 0 ≤ acc → digits_value acc s = Some v → 0 ≤ v.
Proof.
  revert acc; induction s as [|a s IH]; intros acc Ha; cbn; [by intros [= <-]|].
  destruct (is_ascii_digit a) eqn:Hd; [|done]. apply IH. unfold is_ascii_digit, in_range in Hd. lia.
Qed.

Lemma parse_u64_nonneg s v : parse_u64 s = Some v → 0 ≤ v.
Proof.
  unfold parse_u64, parse_uint. case_match; [done|]. intros (w & Hw & Hlim)%bind_Some.
  case_match; simplify_eq. by eapply digits_value_nonneg; [|done].
Qed.

Lemma env_secs_nonneg env name d : 0 ≤ d → 0 ≤ env_secs env name d.
Proof.
  intros Hd. unfold env_secs. destruct (env name) as [raw|]; [|done]. cbn.
  destruct (parse_u64 (trim raw)) as [v|] eqn:Hp; [|done]. by eapply parse_u64_nonneg.
Qed.

Lemma connect_timeout_range env c :
  0 ≤ stun_timeout_secs c → from_secs 2 ≤ resolve_parallel_connect_timeout env c ≤ from_secs 4.
Proof.
  intros Hc. unfold resolve_parallel_connect_timeout, from_secs, TOTAL_WINDOW_SECS, FIRST_WINDOW_SECS, EXTRA_WINDOW_SECS.
  pose proof (env_secs_nonneg env "ROBOAT_WEBRTC_CONNECT_TIMEOUT_SECS" _ Hc).
  repeat case_match; lia.
Qed.

Lemma grace_range env : from_secs 1 ≤ resolve_datachannel_open_grace env ≤ from_secs 12.
Proof.
  unfold resolve_datachannel_open_grace, from_secs, DEFAULT_GRACE_SECS, MAX_GRACE_SECS.
  pose proof (env_secs_nonneg env "ROBOAT_WEBRTC_DC_OPEN_GRACE_SECS" 8). repeat case_match; lia.
Qed.

(** ** Lemmas: connecting *)

(** The servers of a relay-only connection. *)
Definition relay_servers (env : string → option string) (c : WebRtcConfig) (reply : credential_reply)
    (servers : list RTCIceServer) : Prop :=
  ∃ creds t, (fetch_turn_credentials (V:=unit) (O:=unit) c reply).2 = Ok creds ∧ turn creds = Some t
  ∧ servers = [{| server_urls := filter_supported_turn_urls env (urls t); server_username := username t;
                  server_credential := credential t |}]
  ∧ filter_supported_turn_urls env (urls t) ≠ [].

(** Whether a call opens a peer connection. *)
Definition opens_peer {V O} (x : rtc_call V O) : bool := match x with NewPeerConnection _ _ _ => true | _ => false end.

Lemma act_calls {V O A B} (P : rtc_call V O → Prop) (m : act V O A) (k : A → act V O B) :
  Forall P m.1 → (∀ a, Forall P (k a).1) → Forall P (m ≫= k).1.
Proof.
  intros Hm Hk. destruct m as [calls [a|e]]; cbn in *; [|done]. specialize (Hk a). destruct (k a). by apply Forall_app.
Qed.

(** A property of every call an action makes, by its calls. *)
Ltac act_calls :=
  repeat lazymatch goal with
  | |- Forall _ (_ ≫= _).1 => apply act_calls; [|intros ?]
  | |- Forall _ (call _).1 => apply Forall_singleton
  | |- Forall _ (try _).1 => constructor
  | |- Forall _ (context_phase ?r _ _).1 => destruct r; repeat constructor
  end.

Lemma fetch_calls {V O} c reply :
  Forall (λ x, opens_peer x = false) (fetch_turn_credentials (V:=V) (O:=O) c reply).1
  ∧ (fetch_turn_credentials (V:=V) (O:=O) c reply).2 = (fetch_turn_credentials (V:=unit) (O:=unit) c reply).2.
Proof.
  unfold fetch_turn_credentials. destruct reply as [|st txt body [json|]]; [|destruct (is_success st)..];
    split; repeat constructor.
Qed.

Lemma connect_plan_calls {V O} env c reply :
  Forall (λ x, opens_peer x = false) (connect_plan (V:=V) (O:=O) env c reply).1.
Proof.
  unfold connect_plan. cbv zeta. act_calls; [done|apply fetch_calls|]. repeat case_match; constructor.
Qed.

Lemma connect_plan_relay {V O} env c reply (calls : list (rtc_call V O)) servers flag :
  route_requires_relay env c = true → connect_plan env c reply = (calls, Ok (servers, flag)) →
  flag = true ∧ relay_servers env c reply servers.
Proof.
  intros Hr. unfold connect_plan, relay_servers. rewrite Hr. destruct (fetch_calls (V:=V) (O:=O) c reply) as [_ Hf].
  destruct (fetch_turn_credentials c reply) as [fcalls [creds|e]]; cbn in *; [|done].
  destruct (turn_available creds); [|done]. destruct (turn creds) as [t|] eqn:Ht; [|done].
  case_bool_decide as He; [done|]. cbn. intros [= <- <- <-]. split; [done|]. by exists creds, t.
Qed.

(** The peer connection of an attempt. *)
Definition attempt_peer {V O} env (c : WebRtcConfig) (servers : list RTCIceServer) : rtc_call V O :=
  NewPeerConnection (ice_network_types_for_servers env servers) srtp_profiles (rtc_configuration env c servers).

Lemma attempt_peers {V O} env c servers (ans : attempt_answers V O) evs :
  Forall (λ x, opens_peer x = true → x = attempt_peer env c servers) (attempt_webrtc env c servers ans evs).1.
Proof.
  unfold attempt_webrtc, attempt_setup. cbv zeta. act_calls; try done.
  unfold await_open. cbv zeta. repeat case_match; by repeat constructor.
Qed.

(** The calls before the offer is sent, in order. *)
Definition before_offer {V O} env (c : WebRtcConfig) (servers : list RTCIceServer) (offer : O) : list (rtc_call V O) :=
  [attempt_peer env c servers; CreateDataChannel "rt-data"; OnMessage; OnOpen; OnSelectedCandidatePairChange;
   LogPhase SignalWsConnectStart None; WsConnect (signaling_url c) ("X-Robot-API-Key", api_key c);
   LogPhase SignalWsConnectOk None; OnIceCandidate; CreateOffer; SetLocalDescription offer].

Definition phase_logged {V O} (p : BootstrapPhase) (calls : list (rtc_call V O)) : Prop := LogPhase p None ∈ calls.

(** One answer of the libraries: when it ends the set-up, the calls made are
    listed and searched. *)
Tactic Notation "next_answer" constr(f) "as" ident(x) :=
  destruct f as [x|] eqn:?; cbn -[before_offer elem_of ice_network_types_for_servers];
  [|by split_and!; set_unfold; naive_solver].

(** ** Lemmas: signalling *)

(** What the loop is woken by and does, seen from each side. *)
Definition local_candidate {V C} (x : signal_input V C) : option C :=
  match x with LocalCandidate i => Some i | WsIn _ => None end.
Definition sent_signal {V A C} (x : signal_action V A C) : option (SignalMessage V) :=
  match x with SendSignal m => Some m | _ => None end.
Definition added_candidate {V A C} (x : signal_action V A C) : option C :=
  match x with AddIceCandidate i => Some i | _ => None end.
Definition remote_candidate {V C} (as_candidate : V → option C) (x : signal_input V C) : option C :=
  match x with
  | WsIn (WsSignal sig) => if bool_decide (msg_type sig = "ice-candidate") then msg_payload sig ≫= as_candidate else None
  | _ => None
  end.
Definition is_bye {V C} (x : signal_input V C) : bool :=
  match x with WsIn (WsSignal sig) => bool_decide (msg_type sig = "bye") | _ => false end.

Section SignalLemmas.
Context {V Answer C : Type} (c : WebRtcConfig).
Context (as_answer : V → option Answer) (as_candidate : V → option C) (candidate_value : C → V).
Local Abbreviation handle := (handle_signal c as_answer as_candidate candidate_value).
Local Abbreviation loop := (signal_loop c as_answer as_candidate candidate_value).

Lemma handle_signal_spec x :
  omap sent_signal (handle x).1 = candidate_message c candidate_value <$> option_list (local_candidate x)
  ∧ omap added_candidate (handle x).1 = option_list (remote_candidate as_candidate x)
  ∧ (handle x).2 = negb (is_bye x).
Proof.
  destruct x as [i|[sig|]]; [done| |done]. unfold handle_signal, remote_candidate, is_bye.
  repeat case_bool_decide; try congruence; repeat case_match; done.
Qed.

Lemma signal_loop_app xs ys :
  Forall (λ x, is_bye x = false) xs → loop (xs ++ ys) = ((loop xs).1 ++ (loop ys).1, (loop ys).2).
Proof.
  induction 1 as [|x xs Hx _ IH]; cbn; [by destruct (loop ys)|].
  destruct (handle_signal_spec x) as (_ & _ & Hgo). destruct (handle x) as [acts go]. cbn in Hgo. rewrite Hgo, Hx, IH. cbn.
  destruct (loop xs), (loop ys). cbn. by rewrite (assoc_L (++)).
Qed.

Lemma signal_loop_quiet xs :
  Forall (λ x, is_bye x = false) xs →
  omap sent_signal (loop xs).1 = candidate_message c candidate_value <$> omap local_candidate xs
  ∧ omap added_candidate (loop xs).1 = omap (remote_candidate as_candidate) xs.
Proof.
  induction 1 as [|x xs Hx _ [IH1 IH2]]; [done|]. cbn.
  destruct (handle_signal_spec x) as (H1 & H2 & Hgo). destruct (handle x) as [acts go]. cbn in *. rewrite Hgo, Hx. cbn.
  destruct (loop xs) as [acts' go']. cbn in *. rewrite !omap_app, H1, H2, IH1, IH2.
  split; [by destruct (local_candidate x)|by destruct (remote_candidate as_candidate x)].
Qed.
End SignalLemmas.

(** ** Claims *)

(** The TURN URLs handed to the ICE agent are well formed and complete, and
    none uses TLS.  Whatever the platform sent, every URL of the filtered list is
    [turn:host?transport=udp] or [turn:host?transport=tcp], the latter only when TCP
    is enabled; the client itself recognises it as supported; none is listed twice;
    and each comes from a URL of the platform's.  Unless only TLS servers are
    wanted, every form of every URL of the platform's is there.  In particular no URL has the
    scheme [turns:], also under [ROBOAT_WEBRTC_TURN_TLS_ONLY]: TLS servers are
    contacted over plain TCP. *)
Theorem filter_turn_urls_wf env us :
  let out := filter_supported_turn_urls env us in
  NoDup out ∧
  (∀ u, u ∈ out →
    (∃ t host, u = turn_url t host ∧ plain_host host ∧ (t = Tcp → tcp_flag env = true))
    ∧ is_supported_turn_url u (tcp_flag env) = true
    ∧ starts_with "turns:" u = false
    ∧ ∃ raw, raw ∈ us ∧ u ∈ expand_turn_urls raw (tcp_flag env))
  ∧ (env_flag_enabled_with_default env "ROBOAT_WEBRTC_TURN_TLS_ONLY" false = false →
     ∀ raw u, raw ∈ us → u ∈ expand_turn_urls raw (tcp_flag env) → u ∈ out).
Proof.
  intros out. split_and!.
  - subst out. unfold filter_supported_turn_urls. case_match; apply foldl_push_new_NoDup, NoDup_nil; done.
  - intros u (raw & Hraw & Hu)%filter_elem. pose proof Hu as (t & host & -> & Hh & Ht)%expand_turn_urls_elem.
    split_and!; [eauto| |by destruct t|eauto].
    unfold is_supported_turn_url. rewrite turn_url_transport_turn by done. destruct t; auto.
  - intros Htls raw u. apply filter_complete. done.
Qed.

(** A relay-only connection uses only the relay.  When the route or
    [ROBOAT_WEBRTC_FORCE_RELAY] demands it, every peer connection [connect] opens
    has the relay policy and exactly one server: the platform's TURN server with
    the platform's credentials and at least one TURN URL.  No STUN server is
    contacted, and a connection that succeeds is reported as relayed. *)
Theorem relay_only_connect {V O} env c reply (ans : attempt_answers V O) evs calls r :
  route_requires_relay env c = true → connect env c reply ans evs = (calls, r) →
  (∀ types profiles cfg, NewPeerConnection types profiles cfg ∈ calls →
     ice_transport_policy cfg = Relay ∧ relay_servers env c reply (ice_servers cfg))
  ∧ (∀ ty, r = Ok ty → ty = Turn).
Proof.
  intros Hr. unfold connect. pose proof (connect_plan_calls (V:=V) (O:=O) env c reply) as Hplan.
  destruct (connect_plan env c reply) as [pcalls [[servers flag]|e]] eqn:Hp; cbn -[attempt_webrtc] in *.
  - destruct (connect_plan_relay _ _ _ _ _ _ Hr Hp) as [-> Hs]. pose proof (attempt_peers env c servers ans evs) as Hatt.
    destruct (attempt_webrtc env c servers ans evs) as [acalls ar]. cbn in *. intros Hcalls.
    assert (calls = pcalls ++ acalls) as -> by (destruct ar; injection Hcalls as <- _; by rewrite ?app_nil_r).
    split; [|intros ty ->; apply (f_equal snd) in Hcalls; destruct ar; cbn in Hcalls; congruence].
    intros types profiles cfg [Hin|Hin]%elem_of_app.
    + by eapply Forall_forall in Hin; [|exact Hplan].
    + eapply Forall_forall in Hin; [|exact Hatt]. specialize (Hin eq_refl) as [= -> -> ->]. cbn. by rewrite Hr.
  - intros [= <- <-]. split; [|done]. intros types profiles cfg Hin. by eapply Forall_forall in Hin; [|exact Hplan].
Qed.

Definition relay_config : WebRtcConfig :=
  {| platform_url := "https://api.robotunnel.io/"; robot_id := "robot-123"; api_key := "rob_test";
     stun_timeout_secs := 8; bootstrap_id := None; route_type := Some " TURN_relay " |}.
Definition sample_credentials : TurnCredentials :=
  {| urls := ["turns:turn.robotunnel.io:5349"; " TURN:turn.robotunnel.io:3478 "]; username := "u"; credential := "p";
     ttl_seconds := 600 |}.
Definition sample_reply : credential_reply :=
  Response 200 "200 OK" None (Some {| turn_available := true; stun_urls := ["stun:stun.robotunnel.io:3478"];
                                      turn := Some sample_credentials |}).

Definition sample_answers : attempt_answers Z Z :=
  {| codecs := Ok tt; interceptors := Ok tt; new_peer := Ok tt; data_channel := Ok tt; ws_request := Some tt;
     key_header := Some tt; ws_connected := Some tt; offer_created := Ok 7; local_set := Ok tt; offer_value := Ok 8;
     offer_sent := Ok tt |}.
Definition good_events : list (Z * conn_event) :=
  [(from_secs 1, OtherState); (from_secs 2, IceConnected); (from_secs 3, DcOpened); (from_secs 5, PeerDisconnected)].
Definition no_env : string → option string := λ _, None.

Lemma relay_only_connect_witness :
  let '(calls, r) := connect no_env relay_config sample_reply sample_answers good_events in
  r = Ok Turn ∧
  (∀ types profiles cfg, NewPeerConnection types profiles cfg ∈ calls →
     ice_transport_policy cfg = Relay ∧ relay_servers no_env relay_config sample_reply (ice_servers cfg))
  ∧ (∀ ty, r = Ok ty → ty = Turn).
Proof.
  destruct (connect no_env relay_config sample_reply sample_answers good_events) as [calls r] eqn:Hc.
  split; [apply (f_equal snd) in Hc; vm_compute in Hc; exact (eq_sym Hc)|].
  exact (relay_only_connect no_env relay_config sample_reply sample_answers good_events calls r eq_refl Hc).
Defined.

(** The offer is sent last, and a failed signalling connection is reported.
    Whatever the libraries answer: the set-up succeeds exactly when the offer was
    sent and accepted, and then everything came before it, in order (the
    peer connection, its data channel and handlers, the authenticated signalling
    socket, the candidate handler, the local description); the message is an offer
    for the configured robot with the local description's value; and when the
    signalling connection was begun but not established, the error returned is
    the one logged, last, as its failure. *)
Theorem attempt_signalling {V O} env c servers (ans : attempt_answers V O) :
  let '(calls, r) := attempt_setup env c servers ans in
  (∀ m, WsSend m ∈ calls → ∃ offer v, offer_created ans = Ok offer ∧ offer_value ans = Ok v
     ∧ local_set ans = Ok tt ∧ m = offer_message c v
     ∧ before_offer env c servers offer ++ [WsSend m] `prefix_of` calls)
  ∧ (r = Ok tt ↔ phase_logged OfferSent calls)
  ∧ (r = Ok tt → ∃ m, WsSend m ∈ calls ∧ offer_sent ans = Ok tt)
  ∧ (phase_logged SignalWsConnectStart calls → ¬ phase_logged SignalWsConnectOk calls →
     ∃ e, r = Err e ∧ last calls = Some (LogPhase SignalWsConnectFail (Some e))).
Proof.
  unfold attempt_setup, phase_logged. cbv zeta.
  next_answer (codecs ans) as u0. next_answer (interceptors ans) as u1. next_answer (new_peer ans) as u2.
  next_answer (data_channel ans) as u3. next_answer (ws_request ans) as u4. next_answer (key_header ans) as u5.
  next_answer (ws_connected ans) as u6. next_answer (offer_created ans) as o. next_answer (local_set ans) as u7.
  next_answer (offer_value ans) as v.
  destruct (offer_sent ans) as [[]|e] eqn:?; cbn -[before_offer elem_of ice_network_types_for_servers]; (split; [intros m Hin|set_unfold; naive_solver]);
    assert (m = offer_message c v) as -> by (set_unfold; naive_solver);
    (exists o, v; split_and!; [done..|by destruct u7|done|]); [by exists [LogPhase OfferSent None]|by exists []].
Qed.

(** Candidates cross the signalling socket in order, until a goodbye.  However
    local candidates and messages interleave, up to the first [bye] the messages
    sent are the local candidates in the order they were found, each for the
    configured robot and bootstrap, and the candidates handed to the ICE agent are
    those of the peer's well-formed candidate messages in the order they came;
    nothing after the [bye] is sent or used. *)
Theorem candidates_relayed {V Answer C} c (as_answer : V → option Answer) (as_candidate : V → option C) candidate_value xs bye post :
  Forall (λ x, is_bye x = false) xs → is_bye bye = true →
  let run := signal_loop c as_answer as_candidate candidate_value (xs ++ bye :: post) in
  omap sent_signal run.1 = candidate_message c candidate_value <$> omap local_candidate xs
  ∧ omap added_candidate run.1 = omap (remote_candidate as_candidate) xs
  ∧ run.2 = false.
Proof.
  intros Hxs Hbye run. subst run. rewrite signal_loop_app by done. destruct (signal_loop_quiet c as_answer as_candidate candidate_value xs Hxs) as [H1 H2].
  cbn [signal_loop]. destruct (handle_signal_spec c as_answer as_candidate candidate_value bye) as (Hs & Ha & Hgo).
  destruct bye as [|[sig|]]; [done| |done]. cbn [is_bye] in Hbye. apply bool_decide_eq_true in Hbye.
  destruct (handle_signal _ _ _ _ _) as [acts go]. cbn in *. rewrite Hgo, bool_decide_eq_true_2 by done. cbn.
  rewrite !omap_app, Hs, Ha, H1, H2, Hbye. cbn. by rewrite !app_nil_r.
Qed.

(** A peer's answer, one of its candidates and a goodbye around two local
    candidates. *)
Definition sample_signal (type_ : string) (payload : Z) : signal_input Z Z :=
  WsIn (WsSignal {| msg_type := type_; msg_payload := Some payload; msg_robot_id := "robot-123"; msg_bootstrap_id := None |}).
Definition sample_inputs : list (signal_input Z Z) :=
  [LocalCandidate 1; sample_signal "answer" 7; sample_signal "ice-candidate" 5; WsIn WsOther; LocalCandidate 2].

Lemma candidates_relayed_witness :
  let run := signal_loop (V:=Z) (Answer:=Z) relay_config Some Some id
               (sample_inputs ++ sample_signal "bye" 0 :: [LocalCandidate 3]) in
  omap sent_signal run.1 = candidate_message relay_config id <$> omap local_candidate sample_inputs
  ∧ omap added_candidate run.1 = omap (remote_candidate Some) sample_inputs
  ∧ run.2 = false.
Proof.
  apply (candidates_relayed (Answer:=Z) relay_config Some Some id sample_inputs (sample_signal "bye" 0) [LocalCandidate 3]);
    [repeat constructor|reflexivity].
Defined.

(** An attempt is bounded.  Whatever the environment variables and the
    configured timeout say, an attempt returns within 16 seconds of the offer; it
    succeeds only if ICE connected within 4 seconds, before any failure was
    reported, and the data channel opened within 12 seconds of that; and it does
    succeed if ICE connected within 2 seconds and the channel opened within 1 second
    of that. *)
Theorem attempt_bounded env c evs t calls r :
  0 ≤ stun_timeout_secs c → await_open (V:=unit) (O:=unit) env c evs = (t, (calls, r)) →
  t ≤ from_secs 16 ∧
  (r = Ok tt → ∃ t0 t1, first_verdict evs = Some (t0, Ok tt) ∧ t0 ≤ from_secs 4
     ∧ first_open evs = Some t1 ∧ t1 ≤ t0 + from_secs 12 ∧ t = Z.max t0 t1)
  ∧ (∀ t0 t1, first_verdict evs = Some (t0, Ok tt) → t0 ≤ from_secs 2 →
     first_open evs = Some t1 → t1 ≤ t0 + from_secs 1 → r = Ok tt).
Proof.
  intros Hc. unfold await_open. pose proof (connect_timeout_range env c Hc) as Ht. pose proof (grace_range env) as Hg.
  unfold from_secs in Ht, Hg |- *.
  destruct (first_verdict evs) as [[t0 [[]|e]]|]; cbv zeta.
  - destruct (Z.leb_spec t0 (resolve_parallel_connect_timeout env c)).
    + destruct (first_open evs) as [t1|]; [destruct (Z.leb_spec t1 (t0 + resolve_datachannel_open_grace env))|];
        intros [= <- <- <-]; (split_and!; [lia| |intros ?? [= <-] ? [= <-] ?; done || lia]); [|done..].
      intros _. exists t0, t1. split_and!; [done|lia|done|lia|done].
    + intros [= <- <- <-]. split_and!; [lia|done|]. intros ?? [= <-]. lia.
  - case_match; intros [= <- <- <-]; (split_and!; [lia|done|]); intros ??; discriminate.
  - intros [= <- <- <-]. split_and!; [lia|done|]. intros ??; discriminate.
Qed.

Lemma attempt_bounded_witness :
  let env := λ _ : string, @None string in
  from_secs 3 ≤ from_secs 16 ∧
  (Ok (E := string) tt = Ok tt → ∃ t0 t1, first_verdict good_events = Some (t0, Ok tt) ∧ t0 ≤ from_secs 4
     ∧ first_open good_events = Some t1 ∧ t1 ≤ t0 + from_secs 12 ∧ from_secs 3 = Z.max t0 t1)
  ∧ (∀ t0 t1, first_verdict good_events = Some (t0, Ok tt) → t0 ≤ from_secs 2 →
     first_open good_events = Some t1 → t1 ≤ t0 + from_secs 1 → Ok (E := string) tt = Ok tt).
Proof.
  intros env. apply (attempt_bounded env relay_config good_events _ [LogPhase DataChannelOpen None]); [cbn; lia|vm_compute; reflexivity].
Defined.

(** The reported connection type is not what ICE chose.  It depends on the
    credentials only: the same whatever happens during the attempt, and [Turn]
    exactly when TURN servers were offered to ICE, also when the selected pair is
    direct. *)
Theorem connection_type_static {V O} env c reply (ans ans' : attempt_answers V O) evs evs' ty ty' :
  (connect env c reply ans evs).2 = Ok ty → (connect env c reply ans' evs').2 = Ok ty' →
  ty' = ty ∧ ∃ servers flag, (connect_plan (V:=V) (O:=O) env c reply).2 = Ok (servers, flag) ∧ (ty = Turn ↔ flag = true).
Proof.
  unfold connect. destruct (connect_plan env c reply) as [calls [[servers flag]|]]; [|done]. cbn -[attempt_webrtc].
  destruct (attempt_webrtc _ _ _ ans _) as [? []]; [|done]. destruct (attempt_webrtc _ _ _ ans' _) as [? []]; [|done]. cbn.
  intros [= <-] [= <-]. split; [done|]. exists servers, flag. by destruct flag.
Qed.

Lemma connection_type_static_witness :
  Turn = Turn ∧ ∃ servers flag, (connect_plan (V:=Z) (O:=Z) no_env relay_config sample_reply).2 = Ok (servers, flag)
  ∧ (Turn = Turn ↔ flag = true).
Proof.
  apply (connection_type_static no_env relay_config sample_reply sample_answers sample_answers good_events
    [(0, DcOpened); (from_secs 4, IceCompleted)]); vm_compute; reflexivity.
Defined.

(** A URL the client logs as skipped and uses: [is_supported_turn_url] and
    [expand_turn_urls] disagree on an unknown transport of a TLS server. *)
Example skipped_url_used :
  is_supported_turn_url "turns:turn.example:5349?transport=quic" true = false
  ∧ expand_turn_urls "turns:turn.example:5349?transport=quic" true = ["turn:turn.example:5349?transport=tcp"].
Proof. split; vm_compute; reflexivity. Qed.
