(* ===== verification/Turn.v ===== *)
(** * TURN credentials (go/webrtc/turn.go)

    The platform's answer to a request for TURN credentials, against the agent that asks
    for them (roboat-webrtc, WebRtc.v) and the TURN server that checks them. *)

From Stdlib Require Import Ascii String.
From S2P Require Import Prelude Text ConnState Evidence Threads Hub HubDemo Ros WebRtc.

Record TURNCredentials : Type := TurnCreds {
  URLs : list string;
  Username : string;
  Credential : string;
  TTL : Z;
}.

(** The request: its parameters and the answers of the [Authenticator]. *)
Record turn_request : Type := TurnRequest {
  tq_robot : string;
  tq_header : string;
  tq_query : string;
  tq_verify : string → string → result unit bool;
  tq_authorize : string → result (Z * string) unit;
}.

(** The answer: an HTTP error, turn_available false, or the credentials. *)
Inductive turn_reply : Type :=
| TurnError (status : Z) (error : string)
| NoTurn
| TurnGranted (stun : list string) (creds : TURNCredentials).

Section Turn.
Context `{GB : !GoBase64, GU : !GoUuid}.
(** HMAC-SHA1 of a text under a key. *)
Context (hmac_sha1 : string → string → list byte).

Definition admit_turn (rq : turn_request) : result (Z * string) string :=
  let robotID := trim (tq_robot rq) in
  if bool_decide (robotID = "") then Err (400, "robot_id required")
  else if negb (uuid_Parse robotID) then Err (400, "robot_id must be a valid UUID")
  else
    let apiKey := if bool_decide (trim (tq_header rq) = "") then trim (tq_query rq) else trim (tq_header rq) in
    if negb (bool_decide (apiKey = "")) then
      match tq_verify rq robotID apiKey with
      | Err _ => Err (500, "auth lookup failed")
      | Ok false => Err (401, "invalid robot credentials")
      | Ok true => Ok robotID
      end
    else match tq_authorize rq robotID with Err e => Err e | Ok _ => Ok robotID end.

Definition turn_password (secret username : string) : string := EncodeToString (hmac_sha1 secret username).

(** [now]: the time in seconds. *)
Definition TURNCredentialHandler (turnHost turnSecret : string) (advertiseTLS : bool) (now : Z) (rq : turn_request) : turn_reply :=
  match admit_turn rq with
  | Err (status, error) => TurnError status error
  | Ok robotID =>
      if bool_decide (turnHost = "") || bool_decide (turnSecret = "") then NoTurn else
      let ttl := 3600 in
      let expiry := now + ttl in
      let username := decimal expiry +:+ ":" +:+ robotID in
      let urls := ["turn:" +:+ turnHost +:+ ":3478"] ++ (if advertiseTLS then ["turns:" +:+ turnHost +:+ ":5349"] else []) in
      TurnGranted ["stun:stun.l.google.com:19302"] (TurnCreds urls username (turn_password turnSecret username) ttl)
  end.

(** ** The other sides *)

(** The check of a TURN server that shares the secret: the time in the user name has
    not passed, and the password is the one for it. *)
Definition turn_server_accepts (secret : string) (now : Z) (username password : string) : bool :=
  match split_once ":"%char username with
  | Some (time, _) =>
      match parse_u64 time with
      | Some t => (now <=? t) && bool_decide (password = turn_password secret username)
      | None => false
      end
  | None => false
  end.

(** What the agent decodes: the names of the fields are the same on both sides. *)
Definition decoded (status_text : string) (body : option string) (r : turn_reply) : credential_reply :=
  match r with
  | TurnError status _ => Response status status_text body None
  | NoTurn => Response 200 status_text body (Some {| turn_available := false; stun_urls := []; turn := None |})
  | TurnGranted stun creds =>
      Response 200 status_text body
        (Some {| turn_available := true; stun_urls := stun;
                 turn := Some {| urls := URLs creds; username := Username creds; credential := Credential creds;
                                 ttl_seconds := TTL creds |} |})
  end.

(** A host name as it is written in lower case, but for two that are mistaken for the
    scheme. *)
Definition host_name (host : string) : Prop :=
  host ≠ "" ∧ plain_host host ∧ has_char ":" host = false ∧ host ≠ "turn" ∧ host ≠ "turns".

Lemma has_char_nil c : has_char c "" = false.
Proof. done. Qed.

Lemma strip_prefix_app pre s : strip_prefix pre (pre +:+ s) = Some s.
Proof. induction pre as [|a pre IH]; [done|]. rewrite sapp_cons. cbn. by rewrite decide_True. Qed.

Lemma starts_with_app pre s : starts_with pre (pre +:+ s) = true.
Proof.
  unfold starts_with. induction pre as [|a pre IH]; [by destruct s|]. rewrite sapp_cons. cbn. by destruct (ascii_dec a a).
Qed.

(** The scheme is taken off once. *)
Lemma trim_scheme pre s : pre ≠ "" → strip_prefix pre s = None → trim_start_matches pre (pre +:+ s) = s.
Proof.
  intros Hpre Hs. unfold trim_start_matches. destruct pre as [|a pre]; [done|]. rewrite sapp_cons at 1. cbn [String.length trim_start_matches_fuel].
  rewrite strip_prefix_app. destruct (String.length (pre +:+ s)); cbn [trim_start_matches_fuel]; [done|]. by rewrite Hs.
Qed.

(** A host and a port do not start with a scheme. *)
Lemma host_not_scheme scheme host port :
  has_char ":" host = false → host ≠ scheme → has_char ":" scheme = false → strip_prefix (scheme +:+ ":") (host +:+ String ":" port) = None.
Proof.
  intros Hh Hne Hs. destruct (strip_prefix _ _) as [rest|] eqn:E; [|done]. apply strip_prefix_Some in E.
  exfalso. apply Hne. assert (H1 : split_once ":"%char (host +:+ String ":" port) = Some (host, port)) by (by apply split_once_app).
  rewrite E, sapp_assoc in H1. cbn in H1. change (":" +:+ rest) with (String ":" rest) in H1. rewrite split_once_app in H1 by done. congruence.
Qed.

Lemma has_char_None c s : has_char c s = false → split_once c s = None.
Proof.
  unfold has_char. induction s as [|a s IH]; cbn; [done|]. destruct (decide (a = c)) as [->|Hne]; [by rewrite bool_decide_eq_true_2|].
  rewrite bool_decide_eq_false_2 by done. cbn. intros ->%IH. done.
Qed.

Lemma trim_platform s t host p z :
  is_visible z = true → trim (String "t" s +:+ t +:+ host +:+ (p +:+ String z "")) = String "t" s +:+ t +:+ host +:+ (p +:+ String z "").
Proof. intros Hz. rewrite !sapp_cons, <-!sapp_assoc, <-sapp_cons. by apply trim_visible_ends. Qed.

(** A URL of the platform: scheme, host and port. *)
Lemma split_url_platform scheme host port :
  scheme = "turn" ∨ scheme = "turns" → host_name host → port = ":3478" ∨ port = ":5349" →
  to_ascii_lowercase (trim (scheme +:+ ":" +:+ host +:+ port)) = scheme +:+ ":" +:+ host +:+ port
  ∧ split_url (scheme +:+ ":" +:+ host +:+ port) = ((scheme +:+ ":") +:+ host +:+ port, None).
Proof.
  intros Hs (_ & [Hl Hq] & _) Hp.
  assert (Ht : trim (scheme +:+ ":" +:+ host +:+ port) = scheme +:+ ":" +:+ host +:+ port).
  { destruct Hs as [-> | ->], Hp as [-> | ->]; [apply (trim_platform "urn" ":" host ":347" "8")|apply (trim_platform "urn" ":" host ":534" "9")
      |apply (trim_platform "urns" ":" host ":347" "8")|apply (trim_platform "urns" ":" host ":534" "9")]; done. }
  assert (Hlow : to_ascii_lowercase (scheme +:+ ":" +:+ host +:+ port) = scheme +:+ ":" +:+ host +:+ port).
  { rewrite !lower_app, Hl. destruct Hs as [-> | ->], Hp as [-> | ->]; done. }
  unfold split_url. rewrite Ht, Hlow. split; [done|]. rewrite has_char_None; [by rewrite sapp_assoc|].
  rewrite !has_char_app, Hq. destruct Hs as [-> | ->], Hp as [-> | ->]; done.
Qed.

Lemma expand_turn host tcp :
  host_name host →
  expand_turn_urls ("turn:" +:+ host +:+ ":3478") tcp = turn_udp (host +:+ ":3478") :: if tcp then [turn_tcp (host +:+ ":3478")] else [].
Proof.
  intros Hh. destruct (split_url_platform "turn" host ":3478") as [_ E]; [by left|done|by left|]. destruct Hh as (_ & _ & Hc & Hne & _).
  change ("turn" +:+ ":" +:+ host +:+ ":3478") with ("turn:" +:+ host +:+ ":3478") in E. unfold expand_turn_urls. rewrite E.
  change ("turn" +:+ ":") with "turn:". 
  change (starts_with "turns:" ("turn:" +:+ host +:+ ":3478")) with false. rewrite starts_with_app.
  cbv iota beta delta [negb]. rewrite trim_scheme; [by destruct tcp|done|].
  exact (host_not_scheme "turn" host "3478" Hc Hne eq_refl).
Qed.
Lemma expand_turns host tcp :
  host_name host →
  expand_turn_urls ("turns:" +:+ host +:+ ":5349") tcp = if tcp then [turn_tcp (host +:+ ":5349")] else [].
Proof.
  intros Hh. destruct (split_url_platform "turns" host ":5349") as [_ E]; [by right|done|by right|]. destruct Hh as (_ & _ & Hc & _ & Hne).
  change ("turns" +:+ ":" +:+ host +:+ ":5349") with ("turns:" +:+ host +:+ ":5349") in E. unfold expand_turn_urls. rewrite E.
  change ("turns" +:+ ":") with "turns:".
  rewrite starts_with_app. destruct tcp; [|done]. rewrite trim_scheme; [done|done|].
  exact (host_not_scheme "turns" host "5349" Hc Hne eq_refl).
Qed.

(** The URLs the agent uses, by its two flags. *)
Definition usable_urls (host : string) (advertiseTLS tcp tls_only : bool) : list string :=
  let plain := turn_udp (host +:+ ":3478") :: if tcp then [turn_tcp (host +:+ ":3478")] else [] in
  if negb (tcp && advertiseTLS) then plain
  else if tls_only then [turn_tcp (host +:+ ":5349")] else plain ++ [turn_tcp (host +:+ ":5349")].

Lemma sapp_inj_l s t u : s +:+ t = s +:+ u → t = u.
Proof. induction s as [|a s IH]; [done|]. rewrite !sapp_cons. intros [= E]. auto. Qed.

Lemma push_new_fresh out u : u ∉ out → push_new out u = out ++ [u].
Proof. intros Hu. unfold push_new. by rewrite bool_decide_eq_false_2. Qed.

Lemma filter_platform_urls env host (advertiseTLS : bool) :
  host_name host →
  filter_supported_turn_urls env (["turn:" +:+ host +:+ ":3478"] ++ if advertiseTLS then ["turns:" +:+ host +:+ ":5349"] else [])
  = usable_urls host advertiseTLS (tcp_flag env) (env_flag_enabled_with_default env "ROBOAT_WEBRTC_TURN_TLS_ONLY" false).
Proof.
  intros Hh. unfold filter_supported_turn_urls. fold (tcp_flag env). cbv zeta.
  set (tls := env_flag_enabled_with_default env "ROBOAT_WEBRTC_TURN_TLS_ONLY" false). set (tcp := tcp_flag env).
  set (h1 := host +:+ ":3478"). set (h2 := host +:+ ":5349").
  assert (Hlow : ∀ scheme port, scheme = "turn" ∨ scheme = "turns" → port = ":3478" ∨ port = ":5349" →
    to_ascii_lowercase (trim (scheme +:+ ":" +:+ host +:+ port)) = scheme +:+ ":" +:+ host +:+ port) by (intros; by apply split_url_platform).
  assert (H1 : to_ascii_lowercase (trim ("turn:" +:+ h1)) = "turn:" +:+ h1) by (apply (Hlow "turn" ":3478"); auto).
  assert (H2 : to_ascii_lowercase (trim ("turns:" +:+ h2)) = "turns:" +:+ h2) by (apply (Hlow "turns" ":5349"); auto).
  assert (N1 : turn_tcp h1 ≠ turn_udp h1) by (intros E%sapp_inj_l%sapp_inj_l; done).
  assert (N2 : turn_tcp h2 ∉ [turn_udp h1; turn_tcp h1]).
  { rewrite !elem_of_cons. unfold turn_tcp, turn_udp, h1, h2. intros [E|[E|[]%elem_of_nil]]; apply sapp_inj_l in E; rewrite !sapp_assoc in E;
      by apply sapp_inj_l in E. }
  assert (Hp : plain_host h2). { destruct Hh as (_ & [Hl Hq] & _). unfold plain_host, h2. by rewrite lower_app, Hl, has_char_app, Hq. }
  assert (T2 : turn_url_transport (turn_tcp h2) = Some Tcp) by exact (turn_url_transport_turn Tcp h2 Hp).
  assert (S1 : starts_with "turns:" ("turn:" +:+ h1) = false) by done.
  assert (E1 : ∀ t, expand_turn_urls ("turn:" +:+ h1) t = turn_udp h1 :: if t then [turn_tcp h1] else []) by (intros; by apply expand_turn).
  assert (E2 : ∀ t, expand_turn_urls ("turns:" +:+ h2) t = if t then [turn_tcp h2] else []) by (intros; by apply expand_turns).
  assert (P1 : ∀ u, push_new [] u = [u]) by (intros u; by rewrite push_new_fresh by apply not_elem_of_nil).
  assert (P2 : push_new [turn_udp h1] (turn_tcp h1) = [turn_udp h1; turn_tcp h1]).
  { rewrite push_new_fresh; [done|]. by rewrite list_elem_of_singleton. }
  assert (P3 : push_new [turn_udp h1; turn_tcp h1] (turn_tcp h2) = [turn_udp h1; turn_tcp h1; turn_tcp h2]) by (by rewrite push_new_fresh).
  unfold usable_urls. fold h1 h2. clearbody h1 h2 tls tcp.
  destruct advertiseTLS; cbn [app mbind list_bind]; rewrite H1, ?H2, ?S1, ?starts_with_app, E1, ?E2; destruct tcp; cbn [negb andb app fmap list_fmap fst foldl].
  - rewrite !filter_cons_False by done. rewrite filter_cons_True by (cbn; by rewrite T2). rewrite filter_nil. cbn [fmap list_fmap fst foldl].
    rewrite !P1, P2, P3, bool_decide_eq_false_2 by done. by destruct tls.
  - apply P1.
  - rewrite !filter_cons_False by done. rewrite filter_nil. cbn [fmap list_fmap foldl]. rewrite bool_decide_eq_true_2, andb_false_r by done. by rewrite P1, P2.
  - apply P1.
Qed.

Lemma digits_no_colon s : string_forallb is_ascii_digit s = true → has_char ":" s = false.
Proof.
  unfold has_char. intros H. apply negb_false_iff. eapply string_forallb_impl; [|exact H]. intros a Ha. cbn.
  rewrite bool_decide_eq_false_2; [done|]. by intros ->.
Qed.

(** Who gets credentials: the robot with its key, or a client the platform admits. *)
Definition may_turn (rq : turn_request) (robot : string) : Prop :=
  robot = trim (tq_robot rq) ∧ robot ≠ "" ∧ uuid_Parse robot = true
  ∧ let key := if bool_decide (trim (tq_header rq) = "") then trim (tq_query rq) else trim (tq_header rq) in
    key ≠ "" ∧ tq_verify rq robot key = Ok true ∨ key = "" ∧ tq_authorize rq robot = Ok tt.

Lemma admit_turn_spec rq : match admit_turn rq with Ok robot => may_turn rq robot | Err _ => ∀ robot, ¬ may_turn rq robot end.
Proof.
  unfold admit_turn, may_turn. case_bool_decide as H1; [naive_solver|].
  destruct (uuid_Parse _) eqn:H2; [|intros ? (-> & _ & ? & _); congruence]. cbn [negb]. cbv zeta.
  set (key := if bool_decide (trim (tq_header rq) = "") then _ else _). clearbody key.
  case_bool_decide as H3; cbn [negb]; [destruct (tq_authorize _ _) as [[]|] eqn:Ha|destruct (tq_verify _ _ _) as [[]|] eqn:Hv]; try (split_and!; auto);
    intros ? (-> & _ & _ & [[? ?]|[? ?]]); congruence.
Qed.

Definition google_stun : RTCIceServer := stun_server "stun:stun.l.google.com:19302".

End Turn.

(** ** Examples *)

Definition robot_request : turn_request :=
  TurnRequest " robot-123" "rob_test" "" (λ _ key, Ok (bool_decide (key = "rob_test"))) (λ _, Err (401, "missing bearer token")).
Definition toy_hmac (secret text : string) : list byte := [x01; x02].


(** A TURN host named turn, as in a local network, is taken for a second scheme by the
    agent and dropped. *)
Example turn_host_mistaken : filter_supported_turn_urls no_env ["turn:turn:3478"] = ["turn:3478?transport=udp"].
Proof. vm_compute. reflexivity. Qed.
