(* ===== verification/Store.v ===== *)
(** * The identity store of the tunnel service (go/internal/store/store.go)

    The table of robots that may connect, the statements run on it, and the migrations
    of the database.  The database itself is code of others: how it reads a text as a
    UUID ([PgUuid]), SHA-256 ([Sha256]), what a migration's script does to it and whether a statement gets
    through are arguments. *)

From Stdlib Require Import Ascii String.
From stdpp Require Import gmap strings.
From S2P Require Import Prelude Text Auth.

(** The UUID a text denotes, if it denotes one. *)
Class PgUuid : Type := { as_uuid : string → option string }.

(** [sha256.Sum256] *)
Class Sha256 : Type := { Sum256 : string → list byte; Sum256_length s : length (Sum256 s) = 32%nat }.

(** What becomes of a statement: it is run and answered; it is not run (there is no
    connection, or it is refused); it is run and the answer is lost. *)
Inductive link : Type := Works | Fails | AnswerLost.
#[export] Instance link_eq_dec : EqDecision link.
Proof. solve_decision. Defined.

(** A row of [robot_conn].  Nothing reads the columns [nat_type], [created_at] and
    [updated_at]; they are left out. *)
Record robot_conn : Type := RobotConn {
  agent_id : string;
  api_key_hash : string;
  robot_ip : option string;
  local_ip : option string;
  last_seen_at : option Z;
}.

Abbreviation conn_table := (gmap string robot_conn).

Section Store.
Context `{PU : !PgUuid, SH : !Sha256}.
Implicit Types (t : conn_table) (l : link).

Definition HashAPIKey (apiKey : string) : string := hex_encode (Sum256 apiKey).

Lemma HashAPIKey_nonempty apiKey : HashAPIKey apiKey ≠ "".
Proof.
  intros E%(f_equal String.length). unfold HashAPIKey in E. rewrite length_hex_encode, Sum256_length in E. done.
Qed.

(** A [SELECT ... WHERE robot_id = $1] and a statement that changes the row. *)
Definition query_row l (robotID : string) t : result unit (option robot_conn) :=
  match l, as_uuid robotID with Works, Some id => Ok (t !! id) | _, _ => Err tt end.

Definition exec_row l (robotID : string) (f : string → conn_table → conn_table) t : conn_table * result unit unit :=
  match as_uuid robotID with
  | None => (t, Err tt)
  | Some id => match l with Works => (f id t, Ok tt) | Fails => (t, Err tt) | AnswerLost => (f id t, Err tt) end
  end.

Definition LookupAPIKeyHash l t (robotID : string) : result unit (option string) :=
  if bool_decide (robotID = "") then Ok None else
  row ← query_row l robotID t;
  match row with None => Ok None | Some row => Ok (Some (api_key_hash row)) end.

Definition LookupConn l t (robotID : string) : result unit (option (string * option string)) :=
  if bool_decide (robotID = "") then Ok None else
  row ← query_row l robotID t;
  match row with None => Ok None | Some row => Ok (Some (api_key_hash row, local_ip row)) end.

Definition RobotIP l t (robotID : string) : result unit string :=
  row ← query_row l robotID t;
  match row with
  | None => Ok ""
  | Some row => match robot_ip row with None => Ok "" | Some ip => Ok ip end
  end.

Definition TouchLastSeen l (now : Z) (robotID : string) t : conn_table * result unit unit :=
  exec_row l robotID (λ id, alter (λ r, RobotConn (agent_id r) (api_key_hash r) (robot_ip r) (local_ip r) (Some now)) id) t.

Definition ProvisionRobot l (robotID agentID apiKey : string) t : conn_table * result unit unit :=
  exec_row l robotID (λ id t,
    match t !! id with
    | None => <[id := RobotConn agentID (HashAPIKey apiKey) None None None]> t
    | Some r => <[id := RobotConn agentID (HashAPIKey apiKey) (robot_ip r) (local_ip r) (last_seen_at r)]> t
    end) t.

Definition DeprovisionRobot l (robotID : string) t : conn_table * result unit unit :=
  exec_row l robotID delete t.

(** ** What the table says *)

Inductive store_op : Type :=
| Touches (now : Z) (robotID : string)
| Provisions (robotID agentID apiKey : string)
| Deprovisions (robotID : string).

Definition store_step (t : conn_table) (o : link * store_op) : conn_table :=
  match o with
  | (l, Touches now robotID) => (TouchLastSeen l now robotID t).1
  | (l, Provisions robotID agentID apiKey) => (ProvisionRobot l robotID agentID apiKey t).1
  | (l, Deprovisions robotID) => (DeprovisionRobot l robotID t).1
  end.
Definition store_run (os : list (link * store_op)) : conn_table := foldl store_step ∅ os.

(** The abstract view: the key a robot was last provisioned with, unless it was
    deprovisioned since; [cur] is the one before. *)
Definition key_step (id : string) (cur : option string) (o : link * store_op) : option string :=
  match o with
  | (Fails, _) | (_, Touches _ _) => cur
  | (_, Provisions robotID _ apiKey) => if decide (as_uuid robotID = Some id) then Some apiKey else cur
  | (_, Deprovisions robotID) => if decide (as_uuid robotID = Some id) then None else cur
  end.
Definition key_of (id : string) (os : list (link * store_op)) : option string := foldl (key_step id) None os.

(** A row holds the hash of a key, and no address. *)
Definition holds_key (key : option string) (row : option robot_conn) : Prop :=
  match key, row with
  | None, None => True
  | Some k, Some r => api_key_hash r = HashAPIKey k ∧ robot_ip r = None ∧ local_ip r = None
  | _, _ => False
  end.

Lemma exec_row_table l robotID f t :
  (exec_row l robotID f t).1 = t ∧ (l = Fails ∨ as_uuid robotID = None)
  ∨ ∃ u, l ≠ Fails ∧ as_uuid robotID = Some u ∧ (exec_row l robotID f t).1 = f u t.
Proof. unfold exec_row. destruct (as_uuid robotID) as [u|], l; naive_solver. Qed.

Lemma store_step_holds id o t key : holds_key key (t !! id) → holds_key (key_step id key o) (store_step t o !! id).
Proof.
  destruct o as [l [now robotID|robotID agentID apiKey|robotID]]; cbn [store_step]; unfold TouchLastSeen, ProvisionRobot, DeprovisionRobot;
    match goal with |- context [exec_row l robotID ?f t] => destruct (exec_row_table l robotID f t) as [[-> Hl]|(u & Hl & Hu & ->)] end.
  - by destruct l.
  - intros H. assert (key_step id key (l, Touches now robotID) = key) as -> by by destruct l.
    destruct (decide (u = id)) as [->|]; [rewrite lookup_alter_eq|by rewrite lookup_alter_ne]. destruct key, (t !! id); naive_solver.
  - intros H. destruct Hl as [->|Hn]; [done|]. destruct l; cbn; rewrite ?Hn; done.
  - intros H. assert (key_step id key (l, Provisions robotID agentID apiKey) = if decide (u = id) then Some apiKey else key) as ->.
    { destruct l; cbn; rewrite ?Hu; try done; repeat case_decide; congruence. }
    case_decide as E; [subst|by destruct (t !! u); rewrite lookup_insert_ne].
    destruct (t !! id), key; rewrite lookup_insert_eq; naive_solver.
  - intros H. destruct Hl as [->|Hn]; [done|]. destruct l; cbn; rewrite ?Hn; done.
  - intros H. assert (key_step id key (l, Deprovisions robotID) = if decide (u = id) then None else key) as ->.
    { destruct l; cbn; rewrite ?Hu; try done; repeat case_decide; congruence. }
    case_decide as E; [subst; by rewrite lookup_delete_eq|by rewrite lookup_delete_ne].
Qed.

Lemma store_run_holds id os : holds_key (key_of id os) (store_run os !! id).
Proof.
  unfold key_of, store_run. assert (H : holds_key None ((∅ : conn_table) !! id)) by by rewrite lookup_empty.
  revert H. generalize (∅ : conn_table), (@None string). induction os as [|o os IH]; intros t key H; [done|].
  cbn. apply IH. by apply store_step_holds.
Qed.

Lemma LookupAPIKeyHash_run id robotID os :
  robotID ≠ "" → as_uuid robotID = Some id → LookupAPIKeyHash Works (store_run os) robotID = Ok (HashAPIKey <$> key_of id os).
Proof.
  intros Hr Hu. unfold LookupAPIKeyHash, query_row. rewrite bool_decide_eq_false_2, Hu by done. cbn.
  pose proof (store_run_holds id os) as H. destruct (key_of id os), (store_run os !! id); cbn in *; try done.
  by destruct H as (-> & _).
Qed.

Lemma LookupConn_run id robotID os :
  robotID ≠ "" → as_uuid robotID = Some id →
  LookupConn Works (store_run os) robotID = Ok ((λ k, (HashAPIKey k, None)) <$> key_of id os).
Proof.
  intros Hr Hu. unfold LookupConn, query_row. rewrite bool_decide_eq_false_2, Hu by done. cbn.
  pose proof (store_run_holds id os) as H. destruct (key_of id os), (store_run os !! id); cbn in *; try done.
  destruct H as (-> & _ & ->). done.
Qed.

(** No statement of the service writes the address [RobotIP] reads. *)
Lemma RobotIP_run l robotID os : RobotIP l (store_run os) robotID = Ok "" ∨ RobotIP l (store_run os) robotID = Err tt.
Proof.
  unfold RobotIP, query_row. destruct l, (as_uuid robotID) as [id|]; auto. left. cbn.
  pose proof (store_run_holds id os) as H. destruct (key_of id os), (store_run os !! id); cbn in *; try done.
  by destruct H as (_ & -> & _).
Qed.
End Store.

(** ** Migrations *)

(** The database: the versions in [schema_migrations], and the rest. *)
Record database (C : Type) : Type := Database { versions : gset string; content : C }.
Arguments Database {C} _ _.
Arguments versions {C} _.
Arguments content {C} _.

Section Migrate.
Context {C : Type}.
(** What a script does to the database, if it runs through; and the directory of
    migrations: a file's text, nothing for a directory. *)
Context (run_sql : string → C → option C) (migrations : gmap string (option string)).
Implicit Types (d : database C).

Definition migration_names : list string :=
  sort_strings (filter (λ n, ends_with ".sql" n = true) ((map_to_list (omap id migrations)).*1)).

(** One round of the loop.  The transaction is run whole or not at all; [l] says how the
    statements of the round fare. *)
Definition migrate_one (l : link) (name : string) d : database C * result unit unit :=
  if decide (l = Fails) then (d, Err tt) else
  let answer := if decide (l = Works) then Ok tt else Err tt in
  if decide (name ∈ versions d) then (d, answer) else
  match migrations !! name with
  | Some (Some sql) =>
      match run_sql sql (content d) with
      | None => (d, Err tt)
      | Some c => (Database ({[name]} ∪ versions d) c, answer)
      end
  | _ => (d, Err tt)
  end.

Fixpoint migrate_loop (l : string → link) (names : list string) d : database C * result unit unit :=
  match names with
  | [] => (d, Ok tt)
  | name :: names =>
      match migrate_one (l name) name d with
      | (d, Ok _) => migrate_loop l names d
      | (d, Err e) => (d, Err e)
      end
  end.

(** [l0] is for the statement that creates [schema_migrations]. *)
Definition Migrate (l0 : link) (l : string → link) d : database C * result unit unit :=
  if decide (l0 = Works) then migrate_loop l migration_names d else (d, Err tt).

(** The migrations not recorded yet, and the effect of some of them in turn. *)
Definition unapplied d : list string := filter (λ n, n ∉ versions d) migration_names.

Fixpoint apply_all (names : list string) (c : C) : option C :=
  match names with
  | [] => Some c
  | name :: names => sql ← mjoin (migrations !! name); c ← run_sql sql c; apply_all names c
  end.

(** The service started again and again: the result is that of the last start. *)
Definition restarts (starts : list (link * (string → link))) d : database C * result unit unit :=
  foldl (λ dr s, Migrate s.1 s.2 dr.1) (d, Err tt) starts.

Lemma migration_names_NoDup : NoDup migration_names.
Proof. unfold migration_names. rewrite sort_strings_Permutation. apply NoDup_filter, NoDup_fst_map_to_list. Qed.

Lemma apply_all_app xs ys c c' c'' : apply_all xs c = Some c' → apply_all ys c' = Some c'' → apply_all (xs ++ ys) c = Some c''.
Proof.
  revert c. induction xs as [|x xs IH]; intros c; cbn; [by intros [= ->]|].
  destruct (mjoin (migrations !! x)) as [sql|]; [|done]. cbn. destruct (run_sql sql c); [|done]. cbn. apply IH.
Qed.

(** What is recorded besides matters for the names it is about. *)
Lemma unapplied_without (vs vs' : gset string) (names : list string) :
  (∀ x, x ∈ names → (x ∈ vs ↔ x ∈ vs')) → filter (λ n, n ∉ vs) names = filter (λ n, n ∉ vs') names.
Proof.
  induction names as [|x names IH]; intros H; [done|]. rewrite !filter_cons, IH by set_solver.
  pose proof (H x ltac:(set_solver)). repeat case_decide; tauto.
Qed.

Lemma filter_unrecorded (vs : gset string) (applied rest : list string) :
  (∀ x, x ∈ applied → x ∈ vs) → (∀ x, x ∈ rest → x ∉ vs) → filter (λ n, n ∉ vs) (applied ++ rest) = rest.
Proof.
  intros Ha Hr. induction applied as [|x applied IH]; cbn [app].
  - induction rest as [|x rest IH]; [done|]. rewrite filter_cons, decide_True, IH; set_solver.
  - rewrite filter_cons, decide_False, IH; set_solver.
Qed.

(** What some rounds have done: of what was to apply, the first part. *)
Definition progress (names : list string) d d' (r : result unit unit) : Prop :=
  ∃ applied rest, filter (λ n, n ∉ versions d) names = applied ++ rest ∧ versions d' = list_to_set applied ∪ versions d
    ∧ apply_all applied (content d) = Some (content d') ∧ (r = Ok tt → rest = []).

Lemma migrate_loop_progress l names d d' r : NoDup names → migrate_loop l names d = (d', r) → progress names d d' r.
Proof.
  intros Hnd. revert d. induction Hnd as [|name names Hn Hnd IH]; intros d; cbn [migrate_loop].
  { intros [= <- <-]. exists [], []. split_and!; try done. cbn. set_solver. }
  assert (Hstop : progress (name :: names) d d (Err tt)).
  { exists [], (filter (λ n, n ∉ versions d) (name :: names)). split_and!; try done. cbn. set_solver. }
  unfold migrate_one. case_decide as Hf; [by intros [= <- <-]|]. case_decide as Hin.
  { case_decide; [|by intros [= <- <-]]. intros (a & rest & E & ?)%IH. exists a, rest. rewrite filter_cons.
    by rewrite decide_False by tauto. }
  destruct (migrations !! name) as [[sql|]|] eqn:Em; [|by intros [= <- <-]..].
  destruct (run_sql sql (content d)) as [c|] eqn:Es; [|by intros [= <- <-]].
  assert (Hap : ∀ xs c', apply_all xs c = Some c' → apply_all (name :: xs) (content d) = Some c').
  { intros xs c' H. cbn. rewrite Em. cbn. by rewrite Es. }
  assert (E : filter (λ n, n ∉ versions d) (name :: names) = name :: filter (λ n, n ∉ {[name]} ∪ versions d) names).
  { rewrite filter_cons, decide_True by done. f_equal. apply unapplied_without; set_solver. }
  case_decide.
  - intros (a & rest & E' & Hv & Hc & Hr)%IH. exists (name :: a), rest. cbn [versions content] in *. rewrite E, E'. split_and!; try done.
    + rewrite Hv. cbn. set_solver.
    + by apply Hap.
  - intros [= <- <-]. exists [name], (filter (λ n, n ∉ {[name]} ∪ versions d) names). rewrite E. split_and!; try done.
    + cbn. set_solver.
    + by apply Hap.
Qed.

Lemma Migrate_progress l0 l d d' r : Migrate l0 l d = (d', r) → progress migration_names d d' r.
Proof.
  unfold Migrate. case_decide; [apply migrate_loop_progress, migration_names_NoDup|]. intros [= <- <-].
  exists [], (unapplied d). split_and!; try done. cbn. set_solver.
Qed.

(** The next start begins where one has stopped. *)
Lemma unapplied_rest d d' applied rest :
  unapplied d = applied ++ rest → versions d' = list_to_set applied ∪ versions d → unapplied d' = rest.
Proof.
  intros E Hv. assert (Hnd : NoDup (applied ++ rest)) by (rewrite <- E; apply NoDup_filter, migration_names_NoDup).
  apply NoDup_app in Hnd as (_ & Hdis & _). unfold unapplied in *. rewrite Hv.
  assert (filter (λ n, n ∉ list_to_set applied ∪ versions d) migration_names
    = filter (λ n, n ∉ (list_to_set applied : gset string)) (filter (λ n, n ∉ versions d) migration_names)) as ->.
  { rewrite list_filter_filter. apply list_filter_iff. intros x. set_solver. }
  rewrite E. apply filter_unrecorded; set_solver.
Qed.

(** C24: migrations are applied once, in order, across failures.  However often the
    service is started, and wherever the starts before fail (a statement that is not run,
    a script that does not run through, an answer that is lost after the commit), the
    database has had the first of its unrecorded migrations, each once, in the order of
    their names; exactly the others are still unrecorded, so the next start goes on with
    them; and when the last start succeeds none is left. *)
Theorem migrate_once starts d d' r :
  restarts starts d = (d', r) →
  ∃ applied, unapplied d = applied ++ unapplied d' ∧ apply_all applied (content d) = Some (content d')
    ∧ versions d' = list_to_set applied ∪ versions d ∧ (r = Ok tt → unapplied d' = []).
Proof.
  unfold restarts. revert d' r. induction starts as [|s starts IH] using rev_ind; intros d' r.
  - intros [= <- <-]. exists []. split_and!; try done. cbn. set_solver.
  - rewrite foldl_app. cbn. destruct (foldl _ _ starts) as [d1 r1] eqn:E1. cbn.
    intros (a & rest & E & Hv & Hc & Hr)%Migrate_progress. destruct (IH d1 r1 eq_refl) as (a1 & E1' & Hc1 & Hv1 & _).
    pose proof (unapplied_rest _ _ _ _ E Hv) as Hrest. exists (a1 ++ a). split_and!.
    + unfold unapplied in E1' at 2. by rewrite E1', E, <- app_assoc, Hrest.
    + by eapply apply_all_app.
    + rewrite Hv, Hv1, list_to_set_app_L. set_solver.
    + intros ?. by rewrite Hrest, Hr.
Qed.
End Migrate.

(** ** An example *)

(** A database that notes the scripts it ran; one of three scripts waits for the lock it
    does not get at the first start, and the answer to the second start is lost. *)
Definition noting_sql (sql : string) (c : list string) : option (list string) := Some (c ++ [sql]).
Definition demo_migrations : gmap string (option string) :=
  {[ "0003_c.sql" := Some "C"; "0001_a.sql" := Some "A"; "notes" := None; "0002_b.sql" := Some "B"; "README" := Some "" ]}.
Definition demo_starts : list (link * (string → link)) :=
  [(Works, λ n, if decide (n = "0002_b.sql") then Fails else Works); (Works, λ n, if decide (n = "0002_b.sql") then AnswerLost else Works);
   (Works, λ _, Works)].
Definition demo_database : database (list string) := Database ∅ [].

Lemma migrate_once_witness :
  ∃ d', restarts noting_sql demo_migrations demo_starts demo_database = (d', Ok tt)
    ∧ content d' = ["A"; "B"; "C"] ∧ unapplied demo_migrations d' = [].
Proof.
  eexists. split; [vm_compute; reflexivity|]. split; [reflexivity|].
  edestruct (migrate_once noting_sql demo_migrations demo_starts demo_database) as (applied & _ & _ & _ & H);
    [vm_compute; reflexivity|]. by apply H.
Defined.
