(* ===== verification/Service.v ===== *)
(** * The tunnel service (go/cmd/tunnel-svc, go/internal/config, go/internal/opsauth)

    The process that holds the hub (Hub.v), the signaling sessions (Signal.v) and the TURN
    credentials (Turn.v): its configuration, its client of the operations service, whom
    it takes for a robot or a client (the [Authenticator] and the [RobotResolver] those
    parts ask), its internal API, its proxy to MCP servers, and how [main] puts them
    together.  HTTP, SHA-256 and the database are arguments. *)

From Stdlib Require Import Ascii String.
From S2P Require Import Prelude Text Auth Resolver Bootstrap ConnState Evidence Threads Hub HubSession HubDemo Signal Turn Store.

(** ** Configuration *)

Record Config : Type := {
  Port : string;
  DatabaseURL : string;
  BaseURL : string;
  TurnHost : string;
  TurnSecret : string;
  TurnAdvertiseTLS : bool;
  AgentAuthSeedHex : string;
  OpsInternalURL : string;
  InternalSecret : string;
  OfflineAfterSecs : Z;
  RegistryURL : string;
}.

(** [os.Getenv]: a variable that is not set is empty. *)
Abbreviation environment := (string → string).

Definition getenv (env : environment) (key def : string) : string :=
  if bool_decide (env key = "") then def else env key.

Definition getenvInt (env : environment) (key : string) (def : Z) : Z :=
  if bool_decide (env key = "") then def else default def (Atoi (env key)).

(** [strconv.ParseBool] *)
Definition ParseBool (s : string) : option bool :=
  if decide (s ∈ ["1"; "t"; "T"; "true"; "TRUE"; "True"]) then Some true
  else if decide (s ∈ ["0"; "f"; "F"; "false"; "FALSE"; "False"]) then Some false
  else None.

Definition getenvBool (env : environment) (key : string) (def : bool) : bool :=
  if bool_decide (env key = "") then def else default def (ParseBool (env key)).

Definition Load (env : environment) : result string Config :=
  let c := {|
    Port := getenv env "PORT" "8091";
    DatabaseURL := env "DATABASE_URL";
    BaseURL := getenv env "TUNNEL_BASE_URL" "https://tunnel.robotunnel.io";
    TurnHost := env "TURN_HOST";
    TurnSecret := env "TURN_SECRET";
    TurnAdvertiseTLS := getenvBool env "TURN_ADVERTISE_TLS" true;
    AgentAuthSeedHex := env "ROBOAT_AGENT_AUTH_SEED_HEX";
    OpsInternalURL := getenv env "OPS_INTERNAL_URL" "http://127.0.0.1:8080";
    InternalSecret := env "INTERNAL_API_SECRET";
    OfflineAfterSecs := getenvInt env "HEARTBEAT_OFFLINE_SECS" 60;
    RegistryURL := env "REGISTRY_URL" |} in
  if bool_decide (InternalSecret c = "") then Err "INTERNAL_API_SECRET is required" else Ok c.

(** ** The operations service *)

Record Client : Type := OpsClient { cl_BaseURL : string; cl_Secret : string }.

Definition NewClient (baseURL secret : string) : Client := OpsClient (trim_end_matches "/" baseURL) secret.

(** The bodies of the requests. *)
Inductive ops_body : Type :=
| authzClientRequest (robotID authorization : string)
| authzRobotRequest (robotID apiKey : string)
| authzUserRequest (authorization : string)
| authzOwnsRequest (robotID userID : string)
| bootstrapRequest (robotID : string) (isTeardown : bool) (cliIP bootstrapID routeType : string).

(** A request (POST, as JSON) with its X-Internal-Secret, and an answer: its status, and
    the user_id its body decodes to. *)
Record ops_request : Type := OpsRequest { oq_url : string; oq_secret : string; oq_body : ops_body }.
Record ops_answer : Type := OpsAnswer { oa_status : Z; oa_user : option string }.

Inductive call_failure : Type := NotBuilt | Unreachable.

Section Ops.
(** Whether [http.NewRequest] takes an address, and [http.Client.Do]. *)
Context (valid_url : string → bool) (Do : ops_request → option ops_answer).

(** What the five methods begin with. *)
Definition post (cl : Client) (path : string) (body : ops_body) : result call_failure ops_answer :=
  let url := cl_BaseURL cl +:+ path in
  if negb (valid_url url) then Err NotBuilt
  else match Do (OpsRequest url (cl_Secret cl) body) with None => Err Unreachable | Some resp => Ok resp end.

(** [header] is the Authorization header. *)
Definition ops_AuthorizeClient (cl : Client) (header robotID : string) : result (Z * string) unit :=
  let authz := trim header in
  if bool_decide (authz = "") then Err (401, "missing bearer token") else
  match post cl "/internal/authz/client" (authzClientRequest robotID authz) with
  | Err NotBuilt => Err (500, "authz request build failed")
  | Err Unreachable => Err (502, "ops authz unreachable")
  | Ok resp =>
      if oa_status resp =? 200 then Ok tt
      else if oa_status resp =? 401 then Err (401, "invalid platform token")
      else if oa_status resp =? 403 then Err (403, "robot does not belong to current user")
      else Err (502, "ops authz error")
  end.

Definition ops_VerifyRobotAPIKey (cl : Client) (robotID apiKey : string) : result unit bool :=
  match post cl "/internal/authz/robot" (authzRobotRequest robotID apiKey) with
  | Err _ => Err tt
  | Ok resp =>
      if oa_status resp =? 200 then Ok true
      else if (oa_status resp =? 401) || (oa_status resp =? 403) then Ok false
      else Err tt
  end.

Definition ops_RelayUser (cl : Client) (authHeader : string) : result unit string :=
  match post cl "/internal/authz/user" (authzUserRequest authHeader) with
  | Err _ => Err tt
  | Ok resp =>
      if negb (oa_status resp =? 200) then Err tt
      else match oa_user resp with None => Err tt | Some userID => Ok userID end
  end.

Definition ops_RobotOwnedBy (cl : Client) (robotID userID : string) : result unit bool :=
  match post cl "/internal/authz/owns" (authzOwnsRequest robotID userID) with
  | Err _ => Err tt
  | Ok resp =>
      if oa_status resp =? 200 then Ok true
      else if (oa_status resp =? 404) || (oa_status resp =? 403) then Ok false
      else Err tt
  end.

Definition ops_TriggerBootstrap (cl : Client) (robotID : string) (isTeardown : bool) (cliIP bootstrapID routeType : string) :
    result unit unit :=
  match post cl "/internal/agent/bootstrap" (bootstrapRequest robotID isTeardown cliIP bootstrapID routeType) with
  | Err _ => Err tt
  | Ok resp => if negb (oa_status resp =? 200) then Err tt else Ok tt
  end.
End Ops.

(** ** Who is who *)

(** The store, if there is one (with how its statements fare), and the operations
    service: the fields of both [authenticator] and [robotResolver]. *)
Record authority : Type := Authority { a_store : option (link * conn_table); a_ops : Client }.

Section Authority.
Context `{PU : !PgUuid, SH : !Sha256} (valid_url : string → bool) (Do : ops_request → option ops_answer).
Implicit Types (a : authority).

Local Abbreviation ops_verify := (ops_VerifyRobotAPIKey valid_url Do).

Definition VerifyRobotAPIKey a (robotID apiKey : string) : result unit bool :=
  match a_store a with
  | Some (l, t) =>
      match LookupAPIKeyHash l t robotID with
      | Err e => Err e
      | Ok (Some h) => Ok (negb (bool_decide (h = "")) && bool_decide (h = HashAPIKey apiKey))
      | Ok None => ops_verify (a_ops a) robotID apiKey
      end
  | None => ops_verify (a_ops a) robotID apiKey
  end.

Definition AuthorizeClient a (header robotID : string) : result (Z * string) unit :=
  ops_AuthorizeClient valid_url Do (a_ops a) header robotID.

Definition ResolveControl a (robotID apiKey : string) : result unit (option AuthRecord) :=
  let ask_ops :=
    match ops_verify (a_ops a) robotID apiKey with
    | Err e => Err e
    | Ok false => Ok None
    | Ok true => Ok (Some {| auth_ID := robotID; auth_LocalIP := None |})
    end in
  match a_store a with
  | Some (l, t) =>
      match LookupConn l t robotID with
      | Err e => Err e
      | Ok (Some (h, localIP)) =>
          if negb (bool_decide (h = "")) && bool_decide (h = HashAPIKey apiKey)
          then Ok (Some {| auth_ID := robotID; auth_LocalIP := localIP |}) else Ok None
      | Ok None => ask_ops
      end
  | None => ask_ops
  end.

Definition resolver_TouchLastSeen a (now : Z) (robotID : string) : authority * result unit unit :=
  match a_store a with
  | Some (l, t) => let '(t, r) := TouchLastSeen l now robotID t in (Authority (Some (l, t)) (a_ops a), r)
  | None => (a, Ok tt)
  end.

Definition RelayUser a (header : string) : result unit string := ops_RelayUser valid_url Do (a_ops a) header.

Definition RobotOwnedBy a (robotID userID : string) : result unit bool := ops_RobotOwnedBy valid_url Do (a_ops a) robotID userID.

(** [e] is what the database says when it fails. *)
Definition RobotBootstrapTarget a (e : go_error) (robotID : string) : result go_error string :=
  match a_store a with
  | Some (l, t) => match RobotIP l t robotID with Ok ip => Ok ip | Err _ => Err e end
  | None => Ok ""
  end.

(** ** The doors a robot comes in by *)

Context `{GU : !GoUuid}.

(** What an agent gives: its robot, the X-Robot-API-Key header and the api_key of the
    query. *)
Definition given_key (header query : string) : string := if bool_decide (trim header = "") then trim query else trim header.

Definition control_door a (robot header query session ip : string) (up : bool) : result (Z * string) (string * AuthRecord) :=
  admit_agent (AgentRequest robot session header query ip (ResolveControl a) up).
Definition signal_door a (robot as_role header query authz boot route ip : string) (up : bool) : result (Z * string) (string * role) :=
  admit_peer (SignalRequest robot as_role header query (VerifyRobotAPIKey a) (AuthorizeClient a authz) up boot route ip).
Definition turn_door a (robot header query authz : string) : result (Z * string) string :=
  admit_turn (TurnRequest robot header query (VerifyRobotAPIKey a) (AuthorizeClient a authz)).

(** The store is the one some statements have led to, or there is none. *)
Definition store_after a (os : list (link * store_op)) : Prop :=
  match a_store a with Some (l, t) => l = Works ∧ t = store_run os | None => os = [] end.

(** Who may say so: the store for the robots it knows, else the operations service. *)
Definition verdict a (os : list (link * store_op)) (id robotID apiKey : string) : result unit bool :=
  match key_of id os with
  | Some key => Ok (bool_decide (HashAPIKey key = HashAPIKey apiKey))
  | None => ops_verify (a_ops a) robotID apiKey
  end.

Lemma stored_key_matches key apiKey :
  negb (bool_decide (HashAPIKey key = "")) && bool_decide (HashAPIKey key = HashAPIKey apiKey)
  = bool_decide (HashAPIKey key = HashAPIKey apiKey).
Proof. by rewrite (bool_decide_eq_false_2 (_ = "")) by apply HashAPIKey_nonempty. Qed.

Lemma VerifyRobotAPIKey_verdict a os id robotID apiKey :
  store_after a os → robotID ≠ "" → as_uuid robotID = Some id → VerifyRobotAPIKey a robotID apiKey = verdict a os id robotID apiKey.
Proof.
  unfold store_after, VerifyRobotAPIKey, verdict. destruct (a_store a) as [[l t]|]; [|by intros ->]. intros [-> ->] Hr Hu.
  rewrite (LookupAPIKeyHash_run id) by done. destruct (key_of id os); [|done]. cbn. by rewrite stored_key_matches.
Qed.

Lemma ResolveControl_verdict a os id robotID apiKey :
  store_after a os → robotID ≠ "" → as_uuid robotID = Some id →
  ResolveControl a robotID apiKey
  = match verdict a os id robotID apiKey with
    | Ok true => Ok (Some {| auth_ID := robotID; auth_LocalIP := None |})
    | Ok false => Ok None
    | Err e => Err e
    end.
Proof.
  unfold store_after, ResolveControl, verdict. destruct (a_store a) as [[l t]|]; [|intros ->; cbn; by destruct (ops_verify _ _ _) as [[]|]].
  intros [-> ->] Hr Hu. rewrite (LookupConn_run id) by done. destruct (key_of id os); cbn; [|by destruct (ops_verify _ _ _) as [[]|]].
  rewrite stored_key_matches. by case_bool_decide.
Qed.

(** C23: one identity at every door.  Let the store be what any statements have made of
    it, some of them not run and some run without an answer.  A robot id that is a UUID
    and a key get the same verdict at the control connection, at signaling as an agent
    and at the TURN credentials: a robot that was provisioned, and not deprovisioned
    since, is let in exactly if the key's hash is the hash of the key it was last
    provisioned with; for any other the operations service decides; a refusal is a 401
    everywhere, and a verdict that cannot be had a 500. *)
Theorem robot_doors a os id robot header query :
  let robotID := trim robot in
  let key := given_key header query in
  store_after a os → robotID ≠ "" → uuid_Parse robotID = true → as_uuid robotID = Some id → key ≠ "" →
  (∀ session ip up, control_door a robot header query session ip up
    = match verdict a os id robotID key with
      | Ok true => Ok (robotID, {| auth_ID := robotID; auth_LocalIP := None |})
      | Ok false => Err (401, "invalid robot credentials")
      | Err _ => Err (500, "database query failed")
      end)
  ∧ (∀ authz boot route ip up, signal_door a robot "agent" header query authz boot route ip up
    = match verdict a os id robotID key with
      | Ok true => Ok (robotID, RoleAgent)
      | Ok false => Err (401, "invalid robot credentials")
      | Err _ => Err (500, "auth lookup failed")
      end)
  ∧ (∀ authz, turn_door a robot header query authz
    = match verdict a os id robotID key with
      | Ok true => Ok robotID
      | Ok false => Err (401, "invalid robot credentials")
      | Err _ => Err (500, "auth lookup failed")
      end).
Proof.
  intros robotID key Hs Hr Hp Hu Hk. unfold control_door, signal_door, turn_door, admit_agent, admit_peer, admit_turn.
  cbn [ar_robot ar_header ar_query ar_resolve sr_robot sr_role sr_header sr_query sr_verify tq_robot tq_header tq_query tq_verify].
  change (trim "agent") with "agent". fold (given_key header query). fold robotID key.
  rewrite (bool_decide_eq_false_2 (robotID = "")), (bool_decide_eq_false_2 (key = "")), Hp by done. cbn [negb orb andb].
  rewrite (ResolveControl_verdict a os id), (VerifyRobotAPIKey_verdict a os id) by done.
  split_and!; intros; by destruct (verdict a os id robotID key) as [[]|].
Qed.

(** The same for clients: the operations service decides for both doors, over a request
    that has the secret. *)
Lemma client_doors a robot header query authz boot route ip up :
  trim robot ≠ "" → uuid_Parse (trim robot) = true → given_key header query = "" →
  signal_door a robot "client" header query authz boot route ip up
  = match turn_door a robot header query authz with Ok robotID => Ok (robotID, RoleClient) | Err e => Err e end
  ∧ (turn_door a robot header query authz = Ok (trim robot) ↔
     trim authz ≠ "" ∧ let url := cl_BaseURL (a_ops a) +:+ "/internal/authz/client" in
     valid_url url = true ∧
     ∃ user, Do (OpsRequest url (cl_Secret (a_ops a)) (authzClientRequest (trim robot) (trim authz))) = Some (OpsAnswer 200 user)).
Proof.
  intros Hr Hp Hk. unfold signal_door, turn_door, admit_peer, admit_turn.
  cbn [sr_robot sr_role sr_header sr_query sr_authorize tq_robot tq_header tq_query tq_authorize].
  change (trim "client") with "client". fold (given_key header query).
  rewrite Hk, (bool_decide_eq_false_2 (trim robot = "")), (bool_decide_eq_false_2 ("client" = "agent")), (bool_decide_eq_true_2 ("" = "")), Hp by done.
  cbn [negb orb andb].
  unfold AuthorizeClient, ops_AuthorizeClient, post. split; [by repeat case_match|].
  case_bool_decide as Ha; [split; [done|by intros [? _]]|]. destruct (valid_url _); cbn [negb]; [|split; [done|by intros (_ & ? & _)]].
  destruct (Do _) as [[st u]|]; [|split; [done|by intros (_ & _ & ? & ?)]]. cbn [oa_status]. destruct (Z.eqb_spec st 200) as [->|Hst].
  - split; [by eauto|done].
  - split; [by repeat case_match|]. by intros (_ & _ & ? & [= -> _]).
Qed.
End Authority.

(** ** The trigger of a bootstrap *)

Section Trigger.
Context `{PU : !PgUuid, SH : !Sha256} `{GS : !GoStrings, GB : !GoBase64, GU : !GoUuid, R : !Rfc3339, F : !Float64} {M : Type}.
Context `{ED : !Ed25519} `{GJ : !GoJson}.

(** No store of this service has the address of a robot: it has no TCP call to make, and
    a trigger does the same whatever calls would lead to. *)
Lemma no_tcp_trigger a e i seed robotID td cliIP bootID route (w : world M) dial dial' :
  match a_store a with Some (_, t) => ∃ os, t = store_run os | None => True end →
  alone i (TriggerBootstrap (RobotBootstrapTarget a e robotID) dial seed robotID td cliIP bootID route) w
  = alone i (TriggerBootstrap (RobotBootstrapTarget a e robotID) dial' seed robotID td cliIP bootID route) w.
Proof.
  intros H. assert (RobotBootstrapTarget a e robotID = Ok "" ∨ RobotBootstrapTarget a e robotID = Err e) as [->| ->]; [|done..].
  unfold RobotBootstrapTarget. destruct (a_store a) as [[l t]|]; [|auto]. destruct H as [os ->].
  destruct (RobotIP_run l robotID os) as [-> | ->]; auto.
Qed.
End Trigger.

(** ** The internal API *)

(** A request body, decoded: the command or the query, and the timeout, an [int]. *)
Record api_request (M : Type) : Type := ApiRequest { aq_robot : string; aq_payload : option M; aq_timeout_ms : Z }.
Arguments ApiRequest {M} _ _ _.
Arguments aq_robot {M} _.
Arguments aq_payload {M} _.
Arguments aq_timeout_ms {M} _.

(** The answer: refused, the hub's error (a 502), or the robot's response. *)
Inductive api_reply (M : Type) : Type :=
| ApiRefused (status : Z) (error : string)
| ApiBadGateway (e : call_error)
| ApiResponse (resp : option M).
Arguments ApiRefused {M} _ _.
Arguments ApiBadGateway {M} _.
Arguments ApiResponse {M} _.

Record liveness : Type := Liveness {
  lv_robot_id : string;
  lv_online : bool;
  lv_control_connected : bool;
  lv_relay_connected : option bool;
}.

(** [time.Duration(req.TimeoutMS) * time.Millisecond], in 64 bits, and the default. *)
Definition api_timeout (ms : Z) : Z :=
  let timeout := to_duration (u64_wrap (ms * 1000000)) in
  if timeout <=? 0 then from_secs 30 else timeout.

(** The time a call of the internal API waits.  Whatever 64-bit number the request
    has, the hub is given a positive time in range, so the hub's own default is never
    used; it is the number of milliseconds asked for up to the longest [Duration], and
    half a minute for a number that is not positive (and not so far below zero that its
    product wraps around). *)
Theorem api_timeout_bounds ms :
  0 < api_timeout ms ≤ maxDuration
  ∧ (0 < ms ≤ 9223372036854 → api_timeout ms = ms * 1000000)
  ∧ (-9223372036854 ≤ ms ≤ 0 → api_timeout ms = from_secs 30).
Proof.
  unfold api_timeout, to_duration, u64_wrap, from_secs, maxDuration. pose proof (Z.mod_pos_bound (ms * 1000000) (2 ^ 64) ltac:(lia)).
  split_and!.
  - case_match; case_match; lia.
  - case_match; case_match; lia.
  - intros Hms. rewrite (Z.mod_small _ (2 ^ 64)) by lia. repeat case_match; lia.
  - intros Hms. destruct (decide (ms = 0)) as [->|]; [done|].
    rewrite <- (Z.mod_add _ 1), (Z.mod_small _ (2 ^ 64)) by lia. repeat case_match; lia.
Qed.

(** Past that the product wraps around: 584 and a half years are half a minute, and with
    one millisecond more half a millisecond. *)
Example api_timeout_wraps : api_timeout 18446744073709 = from_secs 30 ∧ api_timeout 18446744073710 = 448384.
Proof. by vm_compute. Qed.

Section InternalApi.
Context `{GS : !GoStrings, GB : !GoBase64, GU : !GoUuid, R : !Rfc3339, F : !Float64} {M : Type}.
Local Abbreviation go := (thread (world M) input).

(** What the group's handler lets through. *)
Definition internal_auth (secret header : string) : bool :=
  negb (bool_decide (secret = "") || negb (bool_decide (header = secret))).

Definition hub_reply (r : result call_error (option M)) : api_reply M :=
  match r with Err e => ApiBadGateway e | Ok resp => ApiResponse resp end.

Definition internal_command (secret header : string) (n : nat) (body : option (api_request M)) : go (api_reply M) :=
  if negb (internal_auth secret header) then mret (ApiRefused 401 "internal auth required") else
  match body with
  | None => mret (ApiRefused 400 "robot_id and command required")
  | Some req =>
      if bool_decide (trim (aq_robot req) = "") then mret (ApiRefused 400 "robot_id and command required") else
      r ← SendCommand n (aq_robot req) (aq_payload req) (api_timeout (aq_timeout_ms req));
      mret (hub_reply r)
  end.

Definition internal_status (secret header : string) (n : nat) (body : option (api_request M)) : go (api_reply M) :=
  if negb (internal_auth secret header) then mret (ApiRefused 401 "internal auth required") else
  match body with
  | None => mret (ApiRefused 400 "robot_id required")
  | Some req =>
      if bool_decide (trim (aq_robot req) = "") then mret (ApiRefused 400 "robot_id required") else
      r ← SendStatusQuery n (aq_robot req) (aq_payload req) (api_timeout (aq_timeout_ms req));
      mret (hub_reply r)
  end.

(** The table of connection states is the one the operations noted so far have made. *)
Definition internal_liveness (secret header robot : string) : go (result (Z * string) liveness) :=
  if negb (internal_auth secret header) then mret (Err (401, "internal auth required")) else
  let robotID := trim robot in
  snap ← look (λ w, Connstate.Snapshot robotID (Connstate.run (noted w) ∅));
  if negb snap.2 then mret (Ok (Liveness robotID false false None)) else
  now ← clock;
  control ← look (HasConnection robotID);
  relayed ← look (HasRelayConnection robotID);
  mret (Ok (Liveness robotID (Connstate.IsOnline now snap.1) control (Some relayed))).
End InternalApi.

(** ** The proxy to MCP servers *)

(** What [url.Parse] makes of an address, as far as it is used. *)
Record url : Type := Url { u_scheme : string; u_host : string; u_path : string }.

(** The registry's answer: its status, and the mcp_endpoint its body decodes to (empty if
    it has none). *)
Record registry_answer : Type := RegistryAnswer { ra_status : Z; ra_endpoint : option string }.

Inductive lookup_error : Type :=
| RegistryLookup
| AgentNotFound (agentID : string)
| RegistryReturned (status : Z)
| DecodeResponse
| NoEndpoint (agentID : string).

(** The answer: an error, or that of the server the request is sent on to, with the
    address it is sent to. *)
Inductive mcp_reply : Type :=
| McpUnavailable
| McpLookupFailed (e : lookup_error)
| McpInvalidEndpoint
| McpForwarded (to : url).

Section Mcp.
Context (parse_url : string → option url) (Get : string → option registry_answer).

Definition newMCPProxyHandler (registryURL : string) : string := trim_end_matches "/" registryURL.

Definition lookupMCPEndpoint (registryURL agentID : string) : result lookup_error string :=
  match Get (registryURL +:+ "/v1/discover/agents/" +:+ agentID) with
  | None => Err RegistryLookup
  | Some resp =>
      if ra_status resp =? 404 then Err (AgentNotFound agentID)
      else if negb (ra_status resp =? 200) then Err (RegistryReturned (ra_status resp))
      else match ra_endpoint resp with
           | None => Err DecodeResponse
           | Some endpoint => if bool_decide (endpoint = "") then Err (NoEndpoint agentID) else Ok endpoint
           end
  end.

(** [path] is the parameter: nothing, or the rest of the path from its slash on. *)
Definition director (target : url) (path : string) : url :=
  let suffix := default path (strip_prefix "/" path) in
  Url (u_scheme target) (u_host target)
    (if bool_decide (suffix = "") then u_path target else trim_end_matches "/" (u_path target) +:+ "/" +:+ suffix).

Definition handleMCPProxy (registryURL agentID path : string) : mcp_reply :=
  if bool_decide (registryURL = "") then McpUnavailable else
  match lookupMCPEndpoint registryURL agentID with
  | Err e => McpLookupFailed e
  | Ok endpoint =>
      match parse_url endpoint with
      | None => McpInvalidEndpoint
      | Some target => McpForwarded (director target path)
      end
  end.

(** A slash at the end of the server's address makes no difference. *)
Lemma director_slash scheme host p rest :
  rest ≠ "" → director (Url scheme host (p +:+ "/")) ("/" +:+ rest) = director (Url scheme host p) ("/" +:+ rest).
Proof.
  intros H. assert (E : trim_end_matches "/" (p +:+ "/") = trim_end_matches "/" p).
  { induction p as [|a p IH]; [done|]. rewrite sapp_cons. cbn [trim_end_matches]. by rewrite IH. }
  unfold director. rewrite strip_prefix_app. cbn [default u_path u_scheme u_host]. rewrite bool_decide_eq_false_2 by done. by rewrite E.
Qed.
End Mcp.

(** ** [main] *)

(** [hex.DecodeString] *)
Definition hex_digit_value (c : ascii) : option Z :=
  if in_range 48 57 c then Some (ord c - 48)
  else if in_range 97 102 c then Some (ord c - 87)
  else if in_range 65 70 c then Some (ord c - 55)
  else None.
Fixpoint hex_DecodeString (s : string) : option (list byte) :=
  match s with
  | "" => Some []
  | String _ "" => None
  | String a (String b s) =>
      x ← hex_digit_value a; y ← hex_digit_value b; bs ← hex_DecodeString s; Some (Z_byte (x * 16 + y) :: bs)
  end.

Record tunnel_svc (C : Type) : Type := TunnelSvc {
  svc_config : Config;
  svc_store : option (database C);
  svc_ops : Client;
  svc_seed : list byte;
  svc_registry : string;
}.
Arguments TunnelSvc {C} _ _ _ _ _.
Arguments svc_config {C} _.
Arguments svc_store {C} _.
Arguments svc_ops {C} _.
Arguments svc_seed {C} _.
Arguments svc_registry {C} _.

Inductive fatal : Type := FatalConfig (e : string) | FatalStore | FatalMigrate.

Section Main.
Context {C : Type} (run_sql : string → C → option C) (migrations : gmap string (option string)).
(** [store.New]: the database at an address, if it can be reached. *)
Context (store_New : string → option (database C)).

(** [main] up to its routes; [l0] and [l] say how the statements of [Migrate] fare. *)
Definition tunnel_main (env : environment) (l0 : link) (l : string → link) : result fatal (tunnel_svc C) :=
  match Load env with
  | Err e => Err (FatalConfig e)
  | Ok cfg =>
      st ← (if bool_decide (DatabaseURL cfg = "") then Ok None else
            match store_New (DatabaseURL cfg) with
            | None => Err FatalStore
            | Some d => match Migrate run_sql migrations l0 l d with (_, Err _) => Err FatalMigrate | (d, Ok _) => Ok (Some d) end
            end);
      let ops := NewClient (OpsInternalURL cfg) (InternalSecret cfg) in
      let h := trim (AgentAuthSeedHex cfg) in
      let seed := if bool_decide (h = "") then [] else default [] (hex_DecodeString h) in
      Ok (TunnelSvc cfg st ops seed (newMCPProxyHandler (RegistryURL cfg)))
  end.

Lemma trim_end_matches_last c s x : trim_end_matches c s ≠ x +:+ String c "".
Proof.
  revert x. induction s as [|a s IH]; intros x; cbn [trim_end_matches]; [by destruct x|].
  destruct (trim_end_matches c s) as [|b s'].
  - case_decide; [by destruct x|]. destruct x as [|y x]; [by intros [= ->]|]. rewrite sapp_cons. intros [= _ E]. by destruct x.
  - destruct x as [|y x]; [done|]. rewrite sapp_cons. intros [= _ E]. by apply (IH x).
Qed.

Lemma Load_secret env cfg :
  Load env = Ok cfg → InternalSecret cfg = env "INTERNAL_API_SECRET" ∧ InternalSecret cfg ≠ "" ∧ DatabaseURL cfg = env "DATABASE_URL".
Proof. unfold Load. cbn [InternalSecret]. case_bool_decide; [done|]. by intros [= <-]. Qed.

Lemma internal_auth_spec secret header : secret ≠ "" → internal_auth secret header = true ↔ header = secret.
Proof. intros H. unfold internal_auth. rewrite bool_decide_eq_false_2 by done. by case_bool_decide. Qed.

(** A service that starts is guarded and up to date.  If [main] comes as far as its
    routes, the secret of the environment is not empty, the internal API lets exactly the
    requests through that have it, and the calls to the operations service carry it, at
    an address that has no slash to spare; and there is a store exactly if the
    environment names one, which is the one reached there with every migration that was
    not recorded applied once, in order, and none left. *)
Theorem service_started env l0 l s :
  tunnel_main env l0 l = Ok s →
  let secret := env "INTERNAL_API_SECRET" in
  secret ≠ "" ∧ (∀ header, internal_auth (InternalSecret (svc_config s)) header = true ↔ header = secret)
  ∧ cl_Secret (svc_ops s) = secret ∧ (∀ x, cl_BaseURL (svc_ops s) ≠ x +:+ "/")
  ∧ match svc_store s with
    | None => env "DATABASE_URL" = ""
    | Some d =>
        env "DATABASE_URL" ≠ "" ∧ ∃ d0, store_New (env "DATABASE_URL") = Some d0
          ∧ apply_all run_sql migrations (unapplied migrations d0) (content d0) = Some (content d) ∧ unapplied migrations d = []
    end.
Proof.
  unfold tunnel_main. destruct (Load env) as [cfg|] eqn:EL; [|done]. apply Load_secret in EL as (Es & Hs & Ed). rewrite Ed.
  intros H. rewrite <- Es. split; [done|].
  assert (Hcfg : svc_config s = cfg ∧ svc_ops s = NewClient (OpsInternalURL cfg) (InternalSecret cfg)).
  { revert H. unfold mbind, result_bind. repeat case_match; naive_solver. }
  destruct Hcfg as [-> ->]. split_and!; [|done|apply trim_end_matches_last|].
  { intros header. by apply internal_auth_spec. }
  revert H. destruct (bool_decide_reflect (env "DATABASE_URL" = "")) as [Hd|Hd]; unfold mbind, result_bind; [by intros [= <-]|].
  destruct (store_New _) as [d0|] eqn:En; [|done]. destruct (Migrate run_sql migrations l0 l d0) as [d [[]|]] eqn:Em; [|done].
  intros [= <-]. cbn [svc_store]. split; [done|]. exists d0. split; [done|].
  apply Migrate_progress in Em as (applied & rest & E & Hv & Hc & Hr). specialize (Hr eq_refl) as ->.
  unfold unapplied at 1. rewrite E, app_nil_r. split; [done|]. by eapply unapplied_rest.
Qed.
End Main.

(** ** Examples *)

Definition toy_pg_uuid : PgUuid :=
  {| as_uuid s := if (4 <=? str_len s) then Some (to_ascii_lowercase s) else None |}.
Definition toy_go_sha256 : Sha256 :=
  {| Sum256 s := toy_sha256 (as_bytes s); Sum256_length s := length_toy_sha256 (as_bytes s) |}.

#[local] Existing Instance toy_pg_uuid.
#[local] Existing Instance toy_go_sha256.
#[local] Existing Instance toy_go_uuid.

(** A robot that is provisioned, and again with another key by a statement whose answer is
    lost, and whose removal does not get through. *)
Definition demo_history : list (link * store_op) :=
  [(Works, Provisions "robot-1" "agent" "old"); (AnswerLost, Provisions "ROBOT-1" "agent" "new"); (Works, Touches 5 "robot-1");
   (Fails, Deprovisions "robot-1")].
Definition demo_authority : authority :=
  Authority (Some (Works, store_run demo_history)) (NewClient "http://ops//" "secret").
Definition no_ops (_ : ops_request) : option ops_answer := None.

Lemma robot_doors_witness :
  turn_door (λ _, true) no_ops demo_authority " robot-1 " "new" "old" "" = Ok "robot-1"
  ∧ control_door (λ _, true) no_ops demo_authority "robot-1" "" "old" "" "" true = Err (401, "invalid robot credentials").
Proof.
  split.
  - destruct (robot_doors (λ _, true) no_ops demo_authority demo_history "robot-1" " robot-1 " "new" "old") as (_ & _ & H);
      [done|vm_compute; done..|]. rewrite H. vm_compute. reflexivity.
  - destruct (robot_doors (λ _, true) no_ops demo_authority demo_history "robot-1" "robot-1" "" "old") as (H & _ & _);
      [done|vm_compute; done..|]. rewrite H. vm_compute. reflexivity.
Defined.

Lemma api_timeout_bounds_witness : api_timeout 9223372036854 = 9223372036854000000 ∧ api_timeout 0 = from_secs 30.
Proof.
  split.
  - destruct (api_timeout_bounds 9223372036854) as (_ & H & _). apply H. lia.
  - destruct (api_timeout_bounds 0) as (_ & _ & H). apply H. lia.
Defined.

Definition demo_env (key : string) : string :=
  if decide (key = "INTERNAL_API_SECRET") then "secret" else if decide (key = "DATABASE_URL") then "postgres://db" else "".
Definition demo_svc : tunnel_svc (list string) :=
  match tunnel_main noting_sql demo_migrations (λ _, Some demo_database) demo_env Works (λ _, Works) with
  | Ok s => s
  | Err _ => TunnelSvc {| Port := ""; DatabaseURL := ""; BaseURL := ""; TurnHost := ""; TurnSecret := ""; TurnAdvertiseTLS := false;
      AgentAuthSeedHex := ""; OpsInternalURL := ""; InternalSecret := ""; OfflineAfterSecs := 0; RegistryURL := "" |} None (OpsClient "" "") [] ""
  end.

Lemma service_started_witness :
  internal_auth (InternalSecret (svc_config demo_svc)) "secret" = true ∧ (content <$> svc_store demo_svc) = Some ["A"; "B"; "C"].
Proof.
  destruct (service_started noting_sql demo_migrations (λ _, Some demo_database) demo_env Works (λ _, Works) demo_svc) as (_ & H & _);
    [vm_compute; reflexivity|]. split; [by apply H|]. vm_compute. reflexivity.
Defined.

(** The agent of the path goes into the registry's address as it is: a question mark in
    it begins the query there. *)
Example mcp_agent_not_escaped :
  lookupMCPEndpoint (λ u, if decide (u = "http://registry/v1/discover/agents/me?as=other") then Some (RegistryAnswer 200 (Some "http://x")) else None)
    (newMCPProxyHandler "http://registry/") "me?as=other" = Ok "http://x".
Proof. vm_compute. reflexivity. Qed.
