(* ===== verification/IceAgent.v ===== *)
(** * The ICE agent (rust/vendor/webrtc-ice/src/agent: agent_internal.rs,
      agent_selector.rs, agent_transport.rs, mod.rs)

    An agent pairs its candidates with those of the other side, sends binding requests
    over the pairs, and selects a pair that answers: as the controlling side it nominates
    one, as the controlled side it follows the nomination.  The state is shared by a task
    that contacts candidates again and again, one receiving task per local candidate, and
    the calls of the application.  A step is what one of them does under a lock or on an
    atomic variable (Threads.v).

    Candidates and pairs are objects, by number, as the sources share them by [Arc]; the
    times of a candidate are kept beside it.  STUN messages are those of the stun crate
    after decoding: whether a message has an attribute, and which passwords its integrity
    holds for.  Clocks, random numbers, whether a send works and whether a channel to the
    application has room are inputs of the steps.  Log lines, gathering and mDNS are left
    out. *)

From Stdlib Require Import Ascii String.
From stdpp Require Import gmap.
From S2P Require Import Prelude Text Net Ice Threads.

(** ** Messages *)

Inductive stun_class : Type := ClassRequest | ClassIndication | ClassSuccessResponse | ClassErrorResponse.
#[export] Instance stun_class_eq_dec : EqDecision stun_class.
Proof. solve_decision. Defined.

#[export] Instance ConnectionState_eq_dec : EqDecision ConnectionState.
Proof. solve_decision. Defined.
#[export] Instance GatheringState_eq_dec : EqDecision GatheringState.
Proof. solve_decision. Defined.

Abbreviation socket_addr := (IpAddr * Z)%type.
Abbreviation transaction := (list byte).

(** A message that came in. *)
Record stun_message : Type := StunMsg {
  sm_binding : bool;
  sm_class : stun_class;
  sm_transaction : transaction;
  sm_use_candidate : bool;
  sm_controlling : bool;
  sm_controlled : bool;
  sm_username : option string;
  sm_integrity : string → bool;
}.

(** What goes out: a request (with USE-CANDIDATE or not, the role and tie breaker, the
    priority, and the password of its integrity), a success, or data. *)
Inductive packet_out : Type :=
| BindingRequestOut (id : transaction) (username : string) (use_candidate controlling : bool) (tie_breaker prio : Z) (key : string)
| BindingSuccessOut (id : transaction) (mapped : socket_addr) (key : string)
| DataOut (data : list byte).

(** What comes in: a message, one that does not decode, or data. *)
Inductive packet_in : Type := StunIn (m : stun_message) | BrokenStunIn | DataIn (data : list byte).

(** ** State *)

Record UfragPwd : Type := Creds { local_ufrag : string; local_pwd : string; remote_ufrag : string; remote_pwd : string }.

Record BindingRequest : Type := Binding {
  br_timestamp : Z;
  br_transaction : transaction;
  br_destination : socket_addr;
  br_use_candidate : bool;
}.

(** A [CandidatePair] with its candidates by number. *)
Record pair_obj : Type := PairObj {
  po_local : nat;
  po_remote : nat;
  po_controlling : bool;
  po_count : Z;
  po_state : Z;
  po_nominated : bool;
}.

(** The channels to the application that are open: states, pairs, candidates. *)
Record channels : Type := Channels { ch_state : bool; ch_pair : bool; ch_candidate : bool }.
Inductive notice : Type := ToldState (s : ConnectionState) | ToldPair | ToldCandidate (c : nat).

(** [AgentInternal] with its [AgentConn].  [ag_times]: [last_sent] and [last_received];
    [ag_open]: the candidates that were started and not closed; [ag_locked]: whether a
    task holds the lock of the checklist; [ag_unstarted], [ag_undone], [ag_waiting]:
    whether [started_ch_tx], [done_tx] and [on_connected_tx] are still there; [ag_force]:
    a contact is requested; [ag_rx]: nobody has taken the receivers yet; [ag_last],
    [ag_since]: the variables of the contacting task.  The rest is history: what was told
    to the application, sent, received, put into the list of pending requests, and
    which credentials there were. *)
Record agent : Type := Agent {
  ag_cands : gmap nat CandidateBase;
  ag_times : gmap nat (Z * Z);
  ag_open : gset nat;
  ag_pairs : gmap nat pair_obj;
  ag_checklist : list nat;
  ag_locked : bool;
  ag_selected : option nat;
  ag_nominated : option nat;
  ag_pending : list BindingRequest;
  ag_cred : UfragPwd;
  ag_state : ConnectionState;
  ag_controlling : bool;
  ag_start_time : Z;
  ag_local : gmap Z (list nat);
  ag_remote : gmap Z (list nat);
  ag_unstarted : bool;
  ag_undone : bool;
  ag_force : bool;
  ag_rx : bool;
  ag_last : ConnectionState;
  ag_since : Z;
  ag_chan : channels;
  ag_waiting : bool;
  ag_gathering : GatheringState;
  ag_buffer : list (list byte);
  ag_closed : bool;
  ag_told : list notice;
  ag_wire : list (packet_out * nat * nat);
  ag_heard : list (nat * socket_addr * stun_message);
  ag_asked : list BindingRequest;
  ag_creds : list UfragPwd;
}.

Definition set_cands (v : gmap nat CandidateBase) (w : agent) : agent :=
  Agent v (ag_times w) (ag_open w) (ag_pairs w) (ag_checklist w) (ag_locked w) (ag_selected w) (ag_nominated w) (ag_pending w) (ag_cred w)
    (ag_state w) (ag_controlling w) (ag_start_time w) (ag_local w) (ag_remote w) (ag_unstarted w) (ag_undone w) (ag_force w) (ag_rx w) (ag_last w)
    (ag_since w) (ag_chan w) (ag_waiting w) (ag_gathering w) (ag_buffer w) (ag_closed w) (ag_told w) (ag_wire w) (ag_heard w) (ag_asked w)
    (ag_creds w).
Definition set_times (v : gmap nat (Z * Z)) (w : agent) : agent :=
  Agent (ag_cands w) v (ag_open w) (ag_pairs w) (ag_checklist w) (ag_locked w) (ag_selected w) (ag_nominated w) (ag_pending w) (ag_cred w)
    (ag_state w) (ag_controlling w) (ag_start_time w) (ag_local w) (ag_remote w) (ag_unstarted w) (ag_undone w) (ag_force w) (ag_rx w) (ag_last w)
    (ag_since w) (ag_chan w) (ag_waiting w) (ag_gathering w) (ag_buffer w) (ag_closed w) (ag_told w) (ag_wire w) (ag_heard w) (ag_asked w)
    (ag_creds w).
Definition set_open (v : gset nat) (w : agent) : agent :=
  Agent (ag_cands w) (ag_times w) v (ag_pairs w) (ag_checklist w) (ag_locked w) (ag_selected w) (ag_nominated w) (ag_pending w) (ag_cred w)
    (ag_state w) (ag_controlling w) (ag_start_time w) (ag_local w) (ag_remote w) (ag_unstarted w) (ag_undone w) (ag_force w) (ag_rx w) (ag_last w)
    (ag_since w) (ag_chan w) (ag_waiting w) (ag_gathering w) (ag_buffer w) (ag_closed w) (ag_told w) (ag_wire w) (ag_heard w) (ag_asked w)
    (ag_creds w).
Definition set_pairs (v : gmap nat pair_obj) (w : agent) : agent :=
  Agent (ag_cands w) (ag_times w) (ag_open w) v (ag_checklist w) (ag_locked w) (ag_selected w) (ag_nominated w) (ag_pending w) (ag_cred w)
    (ag_state w) (ag_controlling w) (ag_start_time w) (ag_local w) (ag_remote w) (ag_unstarted w) (ag_undone w) (ag_force w) (ag_rx w) (ag_last w)
    (ag_since w) (ag_chan w) (ag_waiting w) (ag_gathering w) (ag_buffer w) (ag_closed w) (ag_told w) (ag_wire w) (ag_heard w) (ag_asked w)
    (ag_creds w).
Definition set_checklist (v : list nat) (w : agent) : agent :=
  Agent (ag_cands w) (ag_times w) (ag_open w) (ag_pairs w) v (ag_locked w) (ag_selected w) (ag_nominated w) (ag_pending w) (ag_cred w) (ag_state w)
    (ag_controlling w) (ag_start_time w) (ag_local w) (ag_remote w) (ag_unstarted w) (ag_undone w) (ag_force w) (ag_rx w) (ag_last w) (ag_since w)
    (ag_chan w) (ag_waiting w) (ag_gathering w) (ag_buffer w) (ag_closed w) (ag_told w) (ag_wire w) (ag_heard w) (ag_asked w) (ag_creds w).
Definition set_locked (v : bool) (w : agent) : agent :=
  Agent (ag_cands w) (ag_times w) (ag_open w) (ag_pairs w) (ag_checklist w) v (ag_selected w) (ag_nominated w) (ag_pending w) (ag_cred w)
    (ag_state w) (ag_controlling w) (ag_start_time w) (ag_local w) (ag_remote w) (ag_unstarted w) (ag_undone w) (ag_force w) (ag_rx w) (ag_last w)
    (ag_since w) (ag_chan w) (ag_waiting w) (ag_gathering w) (ag_buffer w) (ag_closed w) (ag_told w) (ag_wire w) (ag_heard w) (ag_asked w)
    (ag_creds w).
Definition set_selected (v : option nat) (w : agent) : agent :=
  Agent (ag_cands w) (ag_times w) (ag_open w) (ag_pairs w) (ag_checklist w) (ag_locked w) v (ag_nominated w) (ag_pending w) (ag_cred w) (ag_state w)
    (ag_controlling w) (ag_start_time w) (ag_local w) (ag_remote w) (ag_unstarted w) (ag_undone w) (ag_force w) (ag_rx w) (ag_last w) (ag_since w)
    (ag_chan w) (ag_waiting w) (ag_gathering w) (ag_buffer w) (ag_closed w) (ag_told w) (ag_wire w) (ag_heard w) (ag_asked w) (ag_creds w).
Definition set_nominated (v : option nat) (w : agent) : agent :=
  Agent (ag_cands w) (ag_times w) (ag_open w) (ag_pairs w) (ag_checklist w) (ag_locked w) (ag_selected w) v (ag_pending w) (ag_cred w) (ag_state w)
    (ag_controlling w) (ag_start_time w) (ag_local w) (ag_remote w) (ag_unstarted w) (ag_undone w) (ag_force w) (ag_rx w) (ag_last w) (ag_since w)
    (ag_chan w) (ag_waiting w) (ag_gathering w) (ag_buffer w) (ag_closed w) (ag_told w) (ag_wire w) (ag_heard w) (ag_asked w) (ag_creds w).
Definition set_pending (v : list BindingRequest) (w : agent) : agent :=
  Agent (ag_cands w) (ag_times w) (ag_open w) (ag_pairs w) (ag_checklist w) (ag_locked w) (ag_selected w) (ag_nominated w) v (ag_cred w)
    (ag_state w) (ag_controlling w) (ag_start_time w) (ag_local w) (ag_remote w) (ag_unstarted w) (ag_undone w) (ag_force w) (ag_rx w) (ag_last w)
    (ag_since w) (ag_chan w) (ag_waiting w) (ag_gathering w) (ag_buffer w) (ag_closed w) (ag_told w) (ag_wire w) (ag_heard w) (ag_asked w)
    (ag_creds w).
Definition set_cred (v : UfragPwd) (w : agent) : agent :=
  Agent (ag_cands w) (ag_times w) (ag_open w) (ag_pairs w) (ag_checklist w) (ag_locked w) (ag_selected w) (ag_nominated w) (ag_pending w) v
    (ag_state w) (ag_controlling w) (ag_start_time w) (ag_local w) (ag_remote w) (ag_unstarted w) (ag_undone w) (ag_force w) (ag_rx w) (ag_last w)
    (ag_since w) (ag_chan w) (ag_waiting w) (ag_gathering w) (ag_buffer w) (ag_closed w) (ag_told w) (ag_wire w) (ag_heard w) (ag_asked w)
    (ag_creds w).
Definition set_state (v : ConnectionState) (w : agent) : agent :=
  Agent (ag_cands w) (ag_times w) (ag_open w) (ag_pairs w) (ag_checklist w) (ag_locked w) (ag_selected w) (ag_nominated w) (ag_pending w)
    (ag_cred w) v (ag_controlling w) (ag_start_time w) (ag_local w) (ag_remote w) (ag_unstarted w) (ag_undone w) (ag_force w) (ag_rx w) (ag_last w)
    (ag_since w) (ag_chan w) (ag_waiting w) (ag_gathering w) (ag_buffer w) (ag_closed w) (ag_told w) (ag_wire w) (ag_heard w) (ag_asked w)
    (ag_creds w).
Definition set_controlling (v : bool) (w : agent) : agent :=
  Agent (ag_cands w) (ag_times w) (ag_open w) (ag_pairs w) (ag_checklist w) (ag_locked w) (ag_selected w) (ag_nominated w) (ag_pending w)
    (ag_cred w) (ag_state w) v (ag_start_time w) (ag_local w) (ag_remote w) (ag_unstarted w) (ag_undone w) (ag_force w) (ag_rx w) (ag_last w)
    (ag_since w) (ag_chan w) (ag_waiting w) (ag_gathering w) (ag_buffer w) (ag_closed w) (ag_told w) (ag_wire w) (ag_heard w) (ag_asked w)
    (ag_creds w).
Definition set_start_time (v : Z) (w : agent) : agent :=
  Agent (ag_cands w) (ag_times w) (ag_open w) (ag_pairs w) (ag_checklist w) (ag_locked w) (ag_selected w) (ag_nominated w) (ag_pending w)
    (ag_cred w) (ag_state w) (ag_controlling w) v (ag_local w) (ag_remote w) (ag_unstarted w) (ag_undone w) (ag_force w) (ag_rx w) (ag_last w)
    (ag_since w) (ag_chan w) (ag_waiting w) (ag_gathering w) (ag_buffer w) (ag_closed w) (ag_told w) (ag_wire w) (ag_heard w) (ag_asked w)
    (ag_creds w).
Definition set_local (v : gmap Z (list nat)) (w : agent) : agent :=
  Agent (ag_cands w) (ag_times w) (ag_open w) (ag_pairs w) (ag_checklist w) (ag_locked w) (ag_selected w) (ag_nominated w) (ag_pending w)
    (ag_cred w) (ag_state w) (ag_controlling w) (ag_start_time w) v (ag_remote w) (ag_unstarted w) (ag_undone w) (ag_force w) (ag_rx w) (ag_last w)
    (ag_since w) (ag_chan w) (ag_waiting w) (ag_gathering w) (ag_buffer w) (ag_closed w) (ag_told w) (ag_wire w) (ag_heard w) (ag_asked w)
    (ag_creds w).
Definition set_remote (v : gmap Z (list nat)) (w : agent) : agent :=
  Agent (ag_cands w) (ag_times w) (ag_open w) (ag_pairs w) (ag_checklist w) (ag_locked w) (ag_selected w) (ag_nominated w) (ag_pending w)
    (ag_cred w) (ag_state w) (ag_controlling w) (ag_start_time w) (ag_local w) v (ag_unstarted w) (ag_undone w) (ag_force w) (ag_rx w) (ag_last w)
    (ag_since w) (ag_chan w) (ag_waiting w) (ag_gathering w) (ag_buffer w) (ag_closed w) (ag_told w) (ag_wire w) (ag_heard w) (ag_asked w)
    (ag_creds w).
Definition set_unstarted (v : bool) (w : agent) : agent :=
  Agent (ag_cands w) (ag_times w) (ag_open w) (ag_pairs w) (ag_checklist w) (ag_locked w) (ag_selected w) (ag_nominated w) (ag_pending w)
    (ag_cred w) (ag_state w) (ag_controlling w) (ag_start_time w) (ag_local w) (ag_remote w) v (ag_undone w) (ag_force w) (ag_rx w) (ag_last w)
    (ag_since w) (ag_chan w) (ag_waiting w) (ag_gathering w) (ag_buffer w) (ag_closed w) (ag_told w) (ag_wire w) (ag_heard w) (ag_asked w)
    (ag_creds w).
Definition set_undone (v : bool) (w : agent) : agent :=
  Agent (ag_cands w) (ag_times w) (ag_open w) (ag_pairs w) (ag_checklist w) (ag_locked w) (ag_selected w) (ag_nominated w) (ag_pending w)
    (ag_cred w) (ag_state w) (ag_controlling w) (ag_start_time w) (ag_local w) (ag_remote w) (ag_unstarted w) v (ag_force w) (ag_rx w) (ag_last w)
    (ag_since w) (ag_chan w) (ag_waiting w) (ag_gathering w) (ag_buffer w) (ag_closed w) (ag_told w) (ag_wire w) (ag_heard w) (ag_asked w)
    (ag_creds w).
Definition set_force (v : bool) (w : agent) : agent :=
  Agent (ag_cands w) (ag_times w) (ag_open w) (ag_pairs w) (ag_checklist w) (ag_locked w) (ag_selected w) (ag_nominated w) (ag_pending w)
    (ag_cred w) (ag_state w) (ag_controlling w) (ag_start_time w) (ag_local w) (ag_remote w) (ag_unstarted w) (ag_undone w) v (ag_rx w) (ag_last w)
    (ag_since w) (ag_chan w) (ag_waiting w) (ag_gathering w) (ag_buffer w) (ag_closed w) (ag_told w) (ag_wire w) (ag_heard w) (ag_asked w)
    (ag_creds w).
Definition set_rx (v : bool) (w : agent) : agent :=
  Agent (ag_cands w) (ag_times w) (ag_open w) (ag_pairs w) (ag_checklist w) (ag_locked w) (ag_selected w) (ag_nominated w) (ag_pending w)
    (ag_cred w) (ag_state w) (ag_controlling w) (ag_start_time w) (ag_local w) (ag_remote w) (ag_unstarted w) (ag_undone w) (ag_force w) v
    (ag_last w) (ag_since w) (ag_chan w) (ag_waiting w) (ag_gathering w) (ag_buffer w) (ag_closed w) (ag_told w) (ag_wire w) (ag_heard w)
    (ag_asked w) (ag_creds w).
Definition set_last (v : ConnectionState) (w : agent) : agent :=
  Agent (ag_cands w) (ag_times w) (ag_open w) (ag_pairs w) (ag_checklist w) (ag_locked w) (ag_selected w) (ag_nominated w) (ag_pending w)
    (ag_cred w) (ag_state w) (ag_controlling w) (ag_start_time w) (ag_local w) (ag_remote w) (ag_unstarted w) (ag_undone w) (ag_force w) (ag_rx w) v
    (ag_since w) (ag_chan w) (ag_waiting w) (ag_gathering w) (ag_buffer w) (ag_closed w) (ag_told w) (ag_wire w) (ag_heard w) (ag_asked w)
    (ag_creds w).
Definition set_since (v : Z) (w : agent) : agent :=
  Agent (ag_cands w) (ag_times w) (ag_open w) (ag_pairs w) (ag_checklist w) (ag_locked w) (ag_selected w) (ag_nominated w) (ag_pending w)
    (ag_cred w) (ag_state w) (ag_controlling w) (ag_start_time w) (ag_local w) (ag_remote w) (ag_unstarted w) (ag_undone w) (ag_force w) (ag_rx w)
    (ag_last w) v (ag_chan w) (ag_waiting w) (ag_gathering w) (ag_buffer w) (ag_closed w) (ag_told w) (ag_wire w) (ag_heard w) (ag_asked w)
    (ag_creds w).
Definition set_chan (v : channels) (w : agent) : agent :=
  Agent (ag_cands w) (ag_times w) (ag_open w) (ag_pairs w) (ag_checklist w) (ag_locked w) (ag_selected w) (ag_nominated w) (ag_pending w)
    (ag_cred w) (ag_state w) (ag_controlling w) (ag_start_time w) (ag_local w) (ag_remote w) (ag_unstarted w) (ag_undone w) (ag_force w) (ag_rx w)
    (ag_last w) (ag_since w) v (ag_waiting w) (ag_gathering w) (ag_buffer w) (ag_closed w) (ag_told w) (ag_wire w) (ag_heard w) (ag_asked w)
    (ag_creds w).
Definition set_waiting (v : bool) (w : agent) : agent :=
  Agent (ag_cands w) (ag_times w) (ag_open w) (ag_pairs w) (ag_checklist w) (ag_locked w) (ag_selected w) (ag_nominated w) (ag_pending w)
    (ag_cred w) (ag_state w) (ag_controlling w) (ag_start_time w) (ag_local w) (ag_remote w) (ag_unstarted w) (ag_undone w) (ag_force w) (ag_rx w)
    (ag_last w) (ag_since w) (ag_chan w) v (ag_gathering w) (ag_buffer w) (ag_closed w) (ag_told w) (ag_wire w) (ag_heard w) (ag_asked w)
    (ag_creds w).
Definition set_gathering (v : GatheringState) (w : agent) : agent :=
  Agent (ag_cands w) (ag_times w) (ag_open w) (ag_pairs w) (ag_checklist w) (ag_locked w) (ag_selected w) (ag_nominated w) (ag_pending w)
    (ag_cred w) (ag_state w) (ag_controlling w) (ag_start_time w) (ag_local w) (ag_remote w) (ag_unstarted w) (ag_undone w) (ag_force w) (ag_rx w)
    (ag_last w) (ag_since w) (ag_chan w) (ag_waiting w) v (ag_buffer w) (ag_closed w) (ag_told w) (ag_wire w) (ag_heard w) (ag_asked w) (ag_creds w).
Definition set_buffer (v : list (list byte)) (w : agent) : agent :=
  Agent (ag_cands w) (ag_times w) (ag_open w) (ag_pairs w) (ag_checklist w) (ag_locked w) (ag_selected w) (ag_nominated w) (ag_pending w)
    (ag_cred w) (ag_state w) (ag_controlling w) (ag_start_time w) (ag_local w) (ag_remote w) (ag_unstarted w) (ag_undone w) (ag_force w) (ag_rx w)
    (ag_last w) (ag_since w) (ag_chan w) (ag_waiting w) (ag_gathering w) v (ag_closed w) (ag_told w) (ag_wire w) (ag_heard w) (ag_asked w)
    (ag_creds w).
Definition set_closed (v : bool) (w : agent) : agent :=
  Agent (ag_cands w) (ag_times w) (ag_open w) (ag_pairs w) (ag_checklist w) (ag_locked w) (ag_selected w) (ag_nominated w) (ag_pending w)
    (ag_cred w) (ag_state w) (ag_controlling w) (ag_start_time w) (ag_local w) (ag_remote w) (ag_unstarted w) (ag_undone w) (ag_force w) (ag_rx w)
    (ag_last w) (ag_since w) (ag_chan w) (ag_waiting w) (ag_gathering w) (ag_buffer w) v (ag_told w) (ag_wire w) (ag_heard w) (ag_asked w)
    (ag_creds w).
Definition set_told (v : list notice) (w : agent) : agent :=
  Agent (ag_cands w) (ag_times w) (ag_open w) (ag_pairs w) (ag_checklist w) (ag_locked w) (ag_selected w) (ag_nominated w) (ag_pending w)
    (ag_cred w) (ag_state w) (ag_controlling w) (ag_start_time w) (ag_local w) (ag_remote w) (ag_unstarted w) (ag_undone w) (ag_force w) (ag_rx w)
    (ag_last w) (ag_since w) (ag_chan w) (ag_waiting w) (ag_gathering w) (ag_buffer w) (ag_closed w) v (ag_wire w) (ag_heard w) (ag_asked w)
    (ag_creds w).
Definition set_wire (v : list (packet_out * nat * nat)) (w : agent) : agent :=
  Agent (ag_cands w) (ag_times w) (ag_open w) (ag_pairs w) (ag_checklist w) (ag_locked w) (ag_selected w) (ag_nominated w) (ag_pending w)
    (ag_cred w) (ag_state w) (ag_controlling w) (ag_start_time w) (ag_local w) (ag_remote w) (ag_unstarted w) (ag_undone w) (ag_force w) (ag_rx w)
    (ag_last w) (ag_since w) (ag_chan w) (ag_waiting w) (ag_gathering w) (ag_buffer w) (ag_closed w) (ag_told w) v (ag_heard w) (ag_asked w)
    (ag_creds w).
Definition set_heard (v : list (nat * socket_addr * stun_message)) (w : agent) : agent :=
  Agent (ag_cands w) (ag_times w) (ag_open w) (ag_pairs w) (ag_checklist w) (ag_locked w) (ag_selected w) (ag_nominated w) (ag_pending w)
    (ag_cred w) (ag_state w) (ag_controlling w) (ag_start_time w) (ag_local w) (ag_remote w) (ag_unstarted w) (ag_undone w) (ag_force w) (ag_rx w)
    (ag_last w) (ag_since w) (ag_chan w) (ag_waiting w) (ag_gathering w) (ag_buffer w) (ag_closed w) (ag_told w) (ag_wire w) v (ag_asked w)
    (ag_creds w).
Definition set_asked (v : list BindingRequest) (w : agent) : agent :=
  Agent (ag_cands w) (ag_times w) (ag_open w) (ag_pairs w) (ag_checklist w) (ag_locked w) (ag_selected w) (ag_nominated w) (ag_pending w)
    (ag_cred w) (ag_state w) (ag_controlling w) (ag_start_time w) (ag_local w) (ag_remote w) (ag_unstarted w) (ag_undone w) (ag_force w) (ag_rx w)
    (ag_last w) (ag_since w) (ag_chan w) (ag_waiting w) (ag_gathering w) (ag_buffer w) (ag_closed w) (ag_told w) (ag_wire w) (ag_heard w) v
    (ag_creds w).
Definition set_creds (v : list UfragPwd) (w : agent) : agent :=
  Agent (ag_cands w) (ag_times w) (ag_open w) (ag_pairs w) (ag_checklist w) (ag_locked w) (ag_selected w) (ag_nominated w) (ag_pending w)
    (ag_cred w) (ag_state w) (ag_controlling w) (ag_start_time w) (ag_local w) (ag_remote w) (ag_unstarted w) (ag_undone w) (ag_force w) (ag_rx w)
    (ag_last w) (ag_since w) (ag_chan w) (ag_waiting w) (ag_gathering w) (ag_buffer w) (ag_closed w) (ag_told w) (ag_wire w) (ag_heard w)
    (ag_asked w) v.

(** What does not change after [init_with_defaults]; times in nanoseconds. *)
Record settings : Type := Settings {
  max_binding_requests : Z;
  host_acceptance_min_wait : Z;
  srflx_acceptance_min_wait : Z;
  prflx_acceptance_min_wait : Z;
  relay_acceptance_min_wait : Z;
  disconnected_timeout : Z;
  failed_timeout : Z;
  keepalive_interval : Z;
  check_interval : Z;
  tie_breaker : Z;
  is_lite : bool;
}.

(** The input of a step: [Instant::now], [SystemTime::now] since the epoch, a random
    transaction and candidate id, whether the send works, whether the channel has room. *)
Record tick : Type := Tick { t_now : Z; t_time : Z; t_transaction : transaction; t_id : string; t_ok : bool; t_room : bool }.

Definition DEFAULT_CHECK_INTERVAL : Z := 200000000.
Definition MAX_BINDING_REQUEST_TIMEOUT : Z := 4000000000.

(** The options of an [AgentConfig] that [init_with_defaults] reads. *)
Record agent_options : Type := Options {
  opt_max_binding_requests : option Z;
  opt_host_wait : option Z;
  opt_srflx_wait : option Z;
  opt_prflx_wait : option Z;
  opt_relay_wait : option Z;
  opt_disconnected_timeout : option Z;
  opt_failed_timeout : option Z;
  opt_keepalive_interval : option Z;
  opt_check_interval : Z;
}.

Definition init_with_defaults (o : agent_options) (tie : Z) (lite : bool) : settings :=
  Settings (default 7 (opt_max_binding_requests o)) (default 0 (opt_host_wait o)) (default 500000000 (opt_srflx_wait o))
    (default 1000000000 (opt_prflx_wait o)) (default 2000000000 (opt_relay_wait o)) (default (from_secs 5) (opt_disconnected_timeout o))
    (default (from_secs 25) (opt_failed_timeout o)) (default (from_secs 2) (opt_keepalive_interval o))
    (if opt_check_interval o =? 0 then DEFAULT_CHECK_INTERVAL else opt_check_interval o) tie lite.

Definition new_agent (controlling : bool) (now : Z) : agent :=
  Agent ∅ ∅ ∅ ∅ [] false None None [] (Creds "" "" "" "") StNew controlling now ∅ ∅ true true false true StUnspecified 0
    (Channels true true true) true GatherNew [] false [] [] [] [] [Creds "" "" "" ""].

Section Agent.
Context `{CM : !CaseMapping}.
Context (cfg : settings).
(** Whether the stun crate takes a user name for an attribute. *)
Context (username_fits : string → bool).
Local Abbreviation go := (thread agent tick).
Implicit Types (w : agent).

(** ** Candidates and pairs *)

Definition candidate_of (c : nat) w : CandidateBase := default default_candidate (ag_cands w !! c).
Definition equal_candidates (a b : nat) w : bool :=
  match ag_cands w !! a, ag_cands w !! b with Some a, Some b => candidate_equal a b | _, _ => false end.
Definition network_key (c : CandidateBase) : Z := network_type_u8 (network_type c).
Definition of_network (k : Z) (m : gmap Z (list nat)) : list nat := default [] (m !! k).

(** The pair as a value, for its priority. *)
Definition pair_of (o : pair_obj) w : CandidatePair :=
  {| ice_role_controlling := po_controlling o; pair_remote := candidate_of (po_remote o) w; pair_local := candidate_of (po_local o) w;
     binding_request_count := po_count o; pair_state := po_state o; nominated := po_nominated o |}.

Definition on_pair (p : nat) (f : pair_obj → pair_obj) w : agent := set_pairs (alter f p (ag_pairs w)) w.
Definition store_state (s : CandidatePairState) (o : pair_obj) : pair_obj :=
  PairObj (po_local o) (po_remote o) (po_controlling o) (po_count o) (pair_state_u8 s) (po_nominated o).
Definition store_nominated (o : pair_obj) : pair_obj :=
  PairObj (po_local o) (po_remote o) (po_controlling o) (po_count o) (po_state o) true.
(** [fetch_add] on an [AtomicU16] *)
Definition count_request (o : pair_obj) : pair_obj :=
  PairObj (po_local o) (po_remote o) (po_controlling o) (u16_wrap (po_count o + 1)) (po_state o) (po_nominated o).

(** A new candidate or pair gets a number that is not in use. *)
Definition new_candidate (c : CandidateBase) w : nat * agent :=
  let n := fresh (dom (ag_cands w)) in (n, set_cands (<[n := c]> (ag_cands w)) w).

(** [seen]: a time in nanoseconds, as an [AtomicU64]. *)
Definition see (outbound : bool) (time : Z) (c : nat) w : agent :=
  let '(sent, received) := default (0, 0) (ag_times w !! c) in
  set_times (<[c := if outbound then (u64_wrap time, received) else (sent, u64_wrap time)]> (ag_times w)) w.
Definition candidate_seen (c : nat) : go unit := atomic (λ i w, (tt, see false (t_time i) c w)).

(** Under the lock of the checklist. *)
Definition with_checklist {A} (f : agent → A * agent) : go A := await (λ _ w, if ag_locked w then None else Some (f w)).

Definition add_pair (local remote : nat) : go unit :=
  controlling ← look ag_controlling;
  with_checklist (λ w,
    let p := fresh (dom (ag_pairs w)) in
    (tt, set_checklist (ag_checklist w ++ [p])
           (set_pairs (<[p := PairObj local remote controlling 0 (pair_state_u8 PairWaiting) false]> (ag_pairs w)) w))).

Definition is_pair (local remote : nat) w (p : nat) : bool :=
  match ag_pairs w !! p with
  | Some o => equal_candidates (po_local o) local w && equal_candidates (po_remote o) remote w
  | None => false
  end.
Definition find_pair (local remote : nat) : go (option nat) :=
  with_checklist (λ w, (head (filter (λ p, is_pair local remote w p = true) (ag_checklist w)), w)).

(** The first pair of the highest priority among those with [ok]. *)
Definition best_pair (ok : pair_obj → bool) w : option nat :=
  foldl (λ best p,
    match ag_pairs w !! p with
    | Some o =>
        if negb (ok o) then best else
        match best ≫= (ag_pairs w !!.) with
        | Some b => if pair_priority (pair_of b w) <? pair_priority (pair_of o w) then Some p else best
        | None => Some p
        end
    | None => best
    end) None (ag_checklist w).
Definition get_best_available_candidate_pair : go (option nat) :=
  with_checklist (λ w, (best_pair (λ o, negb (po_state o =? pair_state_u8 PairFailed)) w, w)).
Definition get_best_valid_candidate_pair : go (option nat) :=
  with_checklist (λ w, (best_pair (λ o, po_state o =? pair_state_u8 PairSucceeded) w, w)).

Fixpoint for_each {A} (f : A → go unit) (l : list A) : go unit :=
  match l with [] => mret tt | a :: l => f a;; for_each f l end.

(** [try_send] on a channel for one. *)
Definition request_connectivity_check : go unit := change (set_force true).

(** ** Connection state *)

Definition tell (open : channels → bool) (n : notice) : go unit :=
  await (λ i w, if negb (open (ag_chan w)) then Some (tt, w) else if t_room i then Some (tt, set_told (ag_told w ++ [n]) w) else None).

(** Closing a candidate ends its receiving task; one that was not started stays as it is. *)
Definition close_all (m : gmap Z (list nat)) w : agent := set_open (ag_open w ∖ list_to_set (concat (map_to_list m).*2)) w.
Definition delete_all_candidates : go unit :=
  change (λ w, set_local ∅ (close_all (ag_local w) w));;
  change (λ w, set_remote ∅ (close_all (ag_remote w) w)).

Definition update_connection_state (new_state : ConnectionState) : go unit :=
  state ← look ag_state;
  if bool_decide (state = new_state) then mret tt else
  (if bool_decide (new_state = StFailed) then delete_all_candidates else mret tt);;
  change (set_state new_state);;
  tell ch_state (ToldState new_state).

Definition set_selected_pair (p : option nat) : go unit :=
  match p with
  | Some p =>
      change (on_pair p store_nominated);;
      change (set_selected (Some p));;
      update_connection_state StConnected;;
      tell ch_pair ToldPair;;
      change (set_waiting false)
  | None => change (set_selected None)
  end.

(** ** Requests and their answers *)

Definition fresh_request (now : Z) (r : BindingRequest) : bool :=
  if now <? br_timestamp r then true else (now - br_timestamp r <? MAX_BINDING_REQUEST_TIMEOUT).
Definition invalidate_pending_binding_requests : go unit :=
  atomic (λ i w, (tt, set_pending (filter (λ r, fresh_request (t_now i) r = true) (ag_pending w)) w)).

Fixpoint take_request (id : transaction) (l : list BindingRequest) : option (BindingRequest * list BindingRequest) :=
  match l with
  | [] => None
  | r :: l =>
      if decide (br_transaction r = id) then Some (r, l)
      else match take_request id l with Some (r', l) => Some (r', r :: l) | None => None end
  end.
Definition handle_inbound_binding_success (id : transaction) : go (option BindingRequest) :=
  invalidate_pending_binding_requests;;
  atomic (λ _ w, match take_request id (ag_pending w) with Some (r, l) => (Some r, set_pending l w) | None => (None, w) end).

(** [Candidate::write_to]; the result is whether the socket took it. *)
Definition write_to (msg : packet_out) (local remote : nat) : go bool :=
  atomic (λ i w, (t_ok i, if t_ok i then see true (t_time i) local (set_wire (ag_wire w ++ [(msg, local, remote)]) w) else w)).
Definition send_stun (msg : packet_out) (local remote : nat) : go unit := write_to msg local remote;; mret tt.

Definition send_binding_request (msg : packet_out) (id : transaction) (use_candidate : bool) (local remote : nat) : go unit :=
  invalidate_pending_binding_requests;;
  atomic (λ i w,
    let r := Binding (t_now i) id (resolved_addr (candidate_of remote w)) use_candidate in
    (tt, set_asked (ag_asked w ++ [r]) (set_pending (ag_pending w ++ [r]) w)));;
  send_stun msg local remote.

Definition send_binding_success (m : stun_message) (local remote : nat) : go unit :=
  out ← look (λ w, BindingSuccessOut (sm_transaction m) (resolved_addr (candidate_of remote w)) (local_pwd (ag_cred w)));
  send_stun out local remote.

(** A request is built under the lock of the credentials; none if the name does not fit. *)
Definition build_request (use_candidate controlling : bool) (local : nat) : go (option (packet_out * transaction)) :=
  atomic (λ i w,
    let cred := ag_cred w in
    let username := remote_ufrag cred +:+ ":" +:+ local_ufrag cred in
    (if username_fits username
     then Some (BindingRequestOut (t_transaction i) username use_candidate controlling (tie_breaker cfg)
                  (priority (candidate_of local w)) (remote_pwd cred), t_transaction i)
     else None, w)).

(** The two selectors' [ping_candidate] differ in the role they state. *)
Definition ping_candidate (local remote : nat) : go unit :=
  controlling ← look ag_controlling;
  msg ← build_request false controlling local;
  match msg with
  | None => mret tt
  | Some (msg, id) => send_binding_request msg id false local remote
  end.

(** The lock of the nominated pair is held until the request is built. *)
Definition nominate_pair : go unit :=
  pair ← look (λ w, p ← ag_nominated w; ag_pairs w !! p);
  match pair with
  | None => mret tt
  | Some o =>
      msg ← build_request true true (po_local o);
      match msg with
      | None => mret tt
      | Some (msg, id) => send_binding_request msg id true (po_local o) (po_remote o)
      end
  end.

(** The pairs to ping: those waiting or in progress that have not had too many requests.
    The lock of the checklist is held, and the pairs' variables are not under it. *)
Fixpoint mark_pairs (l : list nat) : go (list (nat * nat)) :=
  match l with
  | [] => mret []
  | p :: l =>
      o ← look (λ w, ag_pairs w !! p);
      match o with
      | None => mark_pairs l
      | Some o =>
          let p_state := po_state o in
          if negb (p_state =? pair_state_u8 PairWaiting) && negb (p_state =? pair_state_u8 PairInProgress) then mark_pairs l else
          (if p_state =? pair_state_u8 PairWaiting then change (on_pair p (store_state PairInProgress)) else mret tt);;
          count ← look (λ w, default 0 (po_count <$> ag_pairs w !! p));
          if count >? max_binding_requests cfg then
            change (on_pair p (store_state PairFailed));; mark_pairs l
          else
            change (on_pair p count_request);;
            pairs ← mark_pairs l;
            mret ((po_local o, po_remote o) :: pairs)
      end
  end.
Definition ping_all_candidates : go unit :=
  l ← with_checklist (λ w, (ag_checklist w, set_locked true w));
  pairs ← mark_pairs l;
  change (set_locked false);;
  for_each (λ '(local, remote), ping_candidate local remote) pairs.

(** [duration_since], and nothing for a time to come. *)
Definition elapsed (now since : Z) : Z := Z.max 0 (now - since).

(** Whether there is a selected pair, and how long nothing was received over it. *)
Definition validate_selected_pair : go bool :=
  silence ← atomic (λ i w,
    ((λ o, elapsed (t_time i) (default (0, 0) (ag_times w !! po_remote o)).2) <$> (p ← ag_selected w; ag_pairs w !! p), w));
  match silence with
  | None => mret false
  | Some disconnected_time =>
      let total_time_to_failure := if failed_timeout cfg =? 0 then 0 else failed_timeout cfg + disconnected_timeout cfg in
      (if negb (total_time_to_failure =? 0) && (disconnected_time >? total_time_to_failure) then update_connection_state StFailed
       else if negb (disconnected_timeout cfg =? 0) && (disconnected_time >? disconnected_timeout cfg)
       then update_connection_state StDisconnected
       else update_connection_state StConnected);;
      mret true
  end.

Definition check_keepalive : go unit :=
  pair ← look (λ w, p ← ag_selected w; ag_pairs w !! p);
  match pair with
  | None => mret tt
  | Some o =>
      last_sent ← atomic (λ i w, (elapsed (t_time i) (default (0, 0) (ag_times w !! po_local o)).1, w));
      last_received ← atomic (λ i w, (elapsed (t_time i) (default (0, 0) (ag_times w !! po_remote o)).2, w));
      if negb (keepalive_interval cfg =? 0) && ((last_sent >? keepalive_interval cfg) || (last_received >? keepalive_interval cfg))
      then ping_candidate (po_local o) (po_remote o) else mret tt
  end.

(** ** The selectors *)

Definition start : go unit :=
  controlling ← look ag_controlling;
  if controlling : bool then change (set_nominated None);; atomic (λ i w, (tt, set_start_time (t_now i) w)) else mret tt.

Definition acceptance_wait (c : CandidateBase) : option Z :=
  match candidate_type c with
  | CtHost => Some (host_acceptance_min_wait cfg)
  | CtServerReflexive => Some (srflx_acceptance_min_wait cfg)
  | CtPeerReflexive => Some (prflx_acceptance_min_wait cfg)
  | CtRelay => Some (relay_acceptance_min_wait cfg)
  | CtUnspecified => None
  end.
Definition is_nominatable (c : nat) : go bool :=
  atomic (λ i w,
    (match acceptance_wait (candidate_of c w) with Some wait => elapsed (t_now i) (ag_start_time w) >? wait | None => false end, w)).

(** [a && b] of two answers, the second only if it is needed. *)
Definition both_nominatable (o : option pair_obj) : go bool :=
  match o with
  | None => mret false
  | Some o => a ← is_nominatable (po_local o); if negb a then mret false else is_nominatable (po_remote o)
  end.
Definition the_pair (p : option nat) : go (option pair_obj) := look (λ w, p ← p; ag_pairs w !! p).

Definition contact_controlling : go unit :=
  nominated ← look ag_nominated;
  selected ← look ag_selected;
  match selected with
  | Some _ => valid ← validate_selected_pair; if valid : bool then check_keepalive else mret tt
  | None =>
      match nominated with
      | Some _ => nominate_pair
      | None =>
          best ← get_best_valid_candidate_pair;
          o ← the_pair best;
          nominatable ← both_nominatable o;
          if nominatable : bool then
            best ← get_best_valid_candidate_pair;
            match best with
            | Some p => change (on_pair p store_nominated);; change (set_nominated (Some p))
            | None => mret tt
            end;;
            nominate_pair
          else ping_all_candidates
      end
  end.

Definition contact_controlled : go unit :=
  if is_lite cfg then validate_selected_pair;; mret tt else
  selected ← look ag_selected;
  match selected with
  | Some _ => valid ← validate_selected_pair; if valid : bool then check_keepalive else mret tt
  | None => ping_all_candidates
  end.

Definition contact_candidates : go unit :=
  controlling ← look ag_controlling;
  if controlling : bool then contact_controlling else contact_controlled.

(** A pending request for the answer, if it was sent where the answer comes from. *)
Definition answered_request (m : stun_message) (remote_addr : socket_addr) : go (option BindingRequest) :=
  r ← handle_inbound_binding_success (sm_transaction m);
  mret (r ← r; if decide (br_destination r = remote_addr) then Some r else None).

Definition success_controlling (m : stun_message) (local remote : nat) (remote_addr : socket_addr) : go unit :=
  r ← answered_request m remote_addr;
  match r with
  | None => mret tt
  | Some r =>
      selected_pair_is_none ← look (λ w, bool_decide (ag_selected w = None));
      p ← find_pair local remote;
      match p with
      | None => mret tt
      | Some p =>
          change (on_pair p (store_state PairSucceeded));;
          if br_use_candidate r && selected_pair_is_none then set_selected_pair (Some p) else mret tt
      end
  end.

Definition success_controlled (m : stun_message) (local remote : nat) (remote_addr : socket_addr) : go unit :=
  r ← answered_request m remote_addr;
  match r with
  | None => mret tt
  | Some _ =>
      p ← find_pair local remote;
      match p with None => mret tt | Some p => change (on_pair p (store_state PairSucceeded)) end
  end.

Definition handle_success_response (m : stun_message) (local remote : nat) (remote_addr : socket_addr) : go unit :=
  controlling ← look ag_controlling;
  if controlling : bool then success_controlling m local remote remote_addr else success_controlled m local remote remote_addr.

Definition succeeded (p : nat) w : bool :=
  match ag_pairs w !! p with Some o => po_state o =? pair_state_u8 PairSucceeded | None => false end.

(** [==] of pairs compares their candidates. *)
Definition same_pair (p q : nat) w : bool :=
  match ag_pairs w !! p, ag_pairs w !! q with
  | Some a, Some b => equal_candidates (po_local a) (po_local b) w && equal_candidates (po_remote a) (po_remote b) w
  | _, _ => false
  end.

Definition request_controlling (m : stun_message) (local remote : nat) : go unit :=
  send_binding_success m local remote;;
  p ← find_pair local remote;
  match p with
  | None => add_pair local remote
  | Some p =>
      nominated_pair_is_none ← look (λ w, bool_decide (ag_nominated w = None));
      ok ← look (succeeded p);
      selected_pair_is_none ← look (λ w, bool_decide (ag_selected w = None));
      if ok && nominated_pair_is_none && selected_pair_is_none then
        best ← get_best_available_candidate_pair;
        match best with
        | None => mret tt
        | Some best =>
            same ← look (same_pair best p);
            o ← the_pair (Some p);
            nominatable ← (if same : bool then both_nominatable o else mret false);
            if nominatable : bool then change (set_nominated (Some p));; nominate_pair else mret tt
        end
      else mret tt
  end.

Definition request_controlled (m : stun_message) (local remote : nat) : go unit :=
  p ← find_pair local remote;
  match p with None => add_pair local remote | Some _ => mret tt end;;
  p ← find_pair local remote;
  match p with
  | None => mret tt
  | Some p =>
      if sm_use_candidate m then
        ok ← look (succeeded p);
        if ok : bool then
          selected_pair_is_none ← look (λ w, bool_decide (ag_selected w = None));
          (if selected_pair_is_none : bool then set_selected_pair (Some p) else mret tt);;
          send_binding_success m local remote
        else ping_candidate local remote
      else
        send_binding_success m local remote;;
        ping_candidate local remote
  end.

Definition handle_binding_request (m : stun_message) (local remote : nat) : go unit :=
  controlling ← look ag_controlling;
  if controlling : bool then request_controlling m local remote else request_controlled m local remote.

(** ** What comes in *)

Definition add_remote_candidate (c : nat) : go unit :=
  added ← atomic (λ _ w,
    let k := network_key (candidate_of c w) in
    let cands := of_network k (ag_remote w) in
    if existsb (λ cand, equal_candidates cand c w) cands then (false, w)
    else (true, set_remote (<[k := cands ++ [c]]> (ag_remote w)) w));
  if negb added then mret tt else
  local_cands ← look (λ w, of_network (network_key (candidate_of c w)) (ag_local w));
  for_each (λ cand, add_pair cand c) local_cands;;
  request_connectivity_check.

Definition at_address (addr : socket_addr) w (c : nat) : bool :=
  match ag_cands w !! c with
  | Some c => bool_decide (address c = fmt_ip addr.1) && bool_decide (port c = addr.2)
  | None => false
  end.
Definition find_remote_candidate (local : nat) (addr : socket_addr) : go (option nat) :=
  look (λ w, head (filter (λ c, at_address addr w c = true) (of_network (network_key (candidate_of local w)) (ag_remote w)))).

(** A candidate for an address that is not known; [None] if it is not an address. *)
Definition new_peer_reflexive (local : nat) (addr : socket_addr) : go (option nat) :=
  atomic (λ i w,
    match new_candidate_peer_reflexive (t_id i)
            {| candidate_id := ""; cfg_network := network_type_str Udp4; cfg_address := fmt_ip addr.1; cfg_port := addr.2;
               cfg_component := component (candidate_of local w); cfg_priority := 0; cfg_foundation := "" |} "" 0 with
    | Ok c => let '(n, w) := new_candidate c w in (Some n, w)
    | Err _ => (None, w)
    end).

Definition role_conflict (controlling : bool) (m : stun_message) : bool :=
  if controlling then sm_controlling m || sm_use_candidate m else sm_controlled m.

(** The checks of [assert_inbound_username] and [assert_inbound_message_integrity] on a
    request. *)
Definition authentic_request (cred : UfragPwd) (m : stun_message) : bool :=
  bool_decide (sm_username m = Some (local_ufrag cred +:+ ":" +:+ remote_ufrag cred)) && sm_integrity m (local_pwd cred).

Definition handle_inbound (m : stun_message) (local : nat) (remote : socket_addr) : go unit :=
  if negb (sm_binding m) || bool_decide (sm_class m = ClassErrorResponse) then mret tt else
  controlling ← look ag_controlling;
  if role_conflict controlling m then mret tt else
  rc ← find_remote_candidate local remote;
  match sm_class m with
  | ClassSuccessResponse =>
      cred ← look ag_cred;
      if negb (sm_integrity m (remote_pwd cred)) then mret tt else
      match rc with
      | Some rc => handle_success_response m local rc remote;; candidate_seen rc
      | None => mret tt
      end
  | ClassRequest =>
      cred ← look ag_cred;
      if negb (authentic_request cred m) then mret tt else
      rc ← match rc with
           | Some rc => mret (Some rc)
           | None =>
               rc ← new_peer_reflexive local remote;
               match rc with Some rc => add_remote_candidate rc;; mret (Some rc) | None => mret None end
           end;
      match rc with
      | Some rc => handle_binding_request m local rc;; candidate_seen rc
      | None => mret tt
      end
  | _ => match rc with Some rc => candidate_seen rc | None => mret tt end
  end.

Definition validate_non_stun_traffic (local : nat) (remote : socket_addr) : go bool :=
  rc ← find_remote_candidate local remote;
  match rc with Some rc => candidate_seen rc;; mret true | None => mret false end.

(** [t_ok]: whether the buffer takes the data. *)
Definition handle_inbound_candidate_msg (local : nat) (src : socket_addr) (p : packet_in) : go unit :=
  match p with
  | BrokenStunIn => mret tt
  | StunIn m => change (λ w, set_heard (ag_heard w ++ [(local, src, m)]) w);; handle_inbound m local src
  | DataIn data =>
      valid ← validate_non_stun_traffic local src;
      if negb valid then mret tt else atomic (λ i w, (tt, if t_ok i then set_buffer (ag_buffer w ++ [data]) w else w))
  end.

(** ** The contacting task *)

Definition contact : go unit :=
  state ← look ag_state;
  if bool_decide (state = StFailed) then change (λ w, set_last (ag_state w) w) else
  go_on ← (if bool_decide (state = StChecking) then
      atomic (λ i w, (tt, if bool_decide (ag_last w = ag_state w) then w else set_since (t_now i) w));;
      late ← atomic (λ i w, (elapsed (t_now i) (ag_since w) >? disconnected_timeout cfg + failed_timeout cfg, w));
      if late : bool then update_connection_state StFailed;; mret false else mret true
    else mret true);
  (if go_on : bool then contact_candidates else mret tt);;
  change (λ w, set_last (ag_state w) w).

(** How long the task sleeps before the next contact. *)
Definition update_interval (x interval : Z) : Z :=
  if negb (x =? 0) && ((interval =? 0) || (interval >? x)) then x else interval.
Definition loop_interval (last : ConnectionState) : Z :=
  update_interval (failed_timeout cfg) (update_interval (disconnected_timeout cfg)
    (match last with
     | StNew | StChecking => update_interval (check_interval cfg) DEFAULT_CHECK_INTERVAL
     | StConnected | StDisconnected => update_interval (keepalive_interval cfg) DEFAULT_CHECK_INTERVAL
     | _ => DEFAULT_CHECK_INTERVAL
     end)).

(** ** Calls *)

(** [start_candidate] and the rest of [add_candidate]. *)
Definition add_candidate (c : CandidateBase) : go unit :=
  n ← atomic (λ _ w, new_candidate c w);
  change (λ w, set_open ({[n]} ∪ ag_open w) w);;
  added ← atomic (λ _ w,
    let k := network_key c in
    let cands := of_network k (ag_local w) in
    if existsb (λ cand, equal_candidates cand n w) cands then (false, set_open (ag_open w ∖ {[n]}) w)
    else (true, set_local (<[k := cands ++ [n]]> (ag_local w)) w));
  if negb added then mret tt else
  remote_cands ← look (λ w, of_network (network_key c) (ag_remote w));
  for_each (λ cand, add_pair n cand) remote_cands;;
  request_connectivity_check;;
  tell ch_candidate (ToldCandidate n).

Definition set_remote_credentials (ufrag pwd : string) : go (result IceError unit) :=
  if is_empty ufrag then mret (Err ErrRemoteUfragEmpty)
  else if is_empty pwd then mret (Err ErrRemotePwdEmpty)
  else change (λ w,
         let cred := Creds (local_ufrag (ag_cred w)) (local_pwd (ag_cred w)) ufrag pwd in
         set_creds (ag_creds w ++ [cred]) (set_cred cred w));; mret (Ok tt).

Definition start_connectivity_checks (is_controlling : bool) (ufrag pwd : string) : go (result IceError unit) :=
  unstarted ← look ag_unstarted;
  if negb unstarted then mret (Err ErrMultipleStart) else
  r ← set_remote_credentials ufrag pwd;
  match r with
  | Err e => mret (Err e)
  | Ok _ =>
      change (set_controlling is_controlling);;
      start;;
      change (set_unstarted false);;
      update_connection_state StChecking;;
      request_connectivity_check;;
      atomic (λ i w, (tt, if ag_rx w then set_rx false (set_last StUnspecified (set_since (t_now i) w)) else w));;
      mret (Ok tt)
  end.

Definition close : go (result IceError unit) :=
  undone ← atomic (λ _ w, (ag_undone w, set_undone false w));
  if negb undone then mret (Err ErrClosed) else
  delete_all_candidates;;
  change (set_unstarted false);;
  update_connection_state StClosed;;
  change (λ w, set_chan (Channels (ch_state (ag_chan w)) (ch_pair (ag_chan w)) false) w);;
  change (λ w, set_chan (Channels (ch_state (ag_chan w)) false (ch_candidate (ag_chan w))) w);;
  change (λ w, set_chan (Channels false (ch_pair (ag_chan w)) (ch_candidate (ag_chan w))) w);;
  change (set_closed true);;
  mret (Ok tt).

(** [new_ufrag] and [new_pwd] are what is generated where none is given. *)
Definition restart (ufrag pwd new_ufrag new_pwd : string) : go (result IceError unit) :=
  let ufrag := if is_empty ufrag then new_ufrag else ufrag in
  let pwd := if is_empty pwd then new_pwd else pwd in
  if str_len ufrag * 8 <? 24 then mret (Err ErrLocalUfragInsufficientBits) else
  if str_len pwd * 8 <? 128 then mret (Err ErrLocalPwdInsufficientBits) else
  gathering ← look ag_gathering;
  if bool_decide (gathering = Gathering) then mret (Err ErrRestartWhenGathering) else
  change (set_gathering GatherNew);;
  undone ← look ag_undone;
  if negb undone then mret (Err ErrClosed) else
  change (λ w, let cred := Creds ufrag pwd "" "" in set_creds (ag_creds w ++ [cred]) (set_cred cred w));;
  change (set_pending []);;
  with_checklist (λ w, (tt, set_checklist [] w));;
  set_selected_pair None;;
  delete_all_candidates;;
  start;;
  state ← look ag_state;
  (if bool_decide (state = StNew) then mret tt else update_connection_state StChecking);;
  mret (Ok tt).

(** [AgentConn::send] of data that is not a STUN message: over the selected pair, or else
    the best one there is.  The result is whether it was given to a pair, or an error:
    the text, or none for that of the socket. *)
Definition conn_send (data : list byte) : go (result (option string) bool) :=
  closed ← look ag_closed;
  if closed : bool then mret (Err (Some "Conn is closed")) else
  selected ← look ag_selected;
  p ← match selected with Some p => mret (Some p) | None => get_best_available_candidate_pair end;
  o ← the_pair p;
  match o with
  | None => mret (Ok false)
  | Some o => ok ← write_to (DataOut data) (po_local o) (po_remote o); mret (if ok : bool then Ok true else Err None)
  end.

(** [Agent::add_remote_candidate], for a candidate that has an address. *)
Definition agent_add_remote_candidate (c : CandidateBase) : go unit :=
  if bool_decide (tcp_type c = TcpActive) then mret tt else
  n ← atomic (λ _ w, new_candidate c w);
  add_remote_candidate n.

(** ** Tasks *)

Inductive ice_name : Type := TContact | TReceive (c : nat) | TCall (k : nat).
#[export] Instance ice_name_eq_dec : EqDecision ice_name.
Proof. solve_decision. Defined.
#[export] Instance ice_name_countable : Countable ice_name.
Proof.
  refine (inj_countable' (λ n, match n with TContact => inl () | TReceive c => inr (inl c) | TCall k => inr (inr k) end)
    (λ x, match x with inl _ => TContact | inr (inl c) => TReceive c | inr (inr k) => TCall k end) _).
  by intros [].
Defined.

(** A contact; a packet at a local candidate; calls of the application, by number. *)
Inductive ice_entry : Type :=
| Contacts
| Receives (c : nat) (src : socket_addr) (p : packet_in)
| AddsRemote (k : nat) (c : CandidateBase)
| AddsLocal (k : nat) (c : CandidateBase)
| StartsChecks (k : nat) (is_controlling : bool) (ufrag pwd : string)
| SetsCredentials (k : nat) (ufrag pwd : string)
| Restarts (k : nat) (ufrag pwd new_ufrag new_pwd : string)
| Sends (k : nat) (data : list byte)
| Closes (k : nat).

Definition ice_code (e : ice_entry) : ice_name * go unit :=
  match e with
  | Contacts => (TContact, change (set_force false);; contact)
  | Receives c src p => (TReceive c, handle_inbound_candidate_msg c src p)
  | AddsRemote k c => (TCall k, agent_add_remote_candidate c)
  | AddsLocal k c => (TCall k, add_candidate c)
  | StartsChecks k b ufrag pwd => (TCall k, start_connectivity_checks b ufrag pwd;; mret tt)
  | SetsCredentials k ufrag pwd => (TCall k, set_remote_credentials ufrag pwd;; mret tt)
  | Restarts k ufrag pwd u p => (TCall k, restart ufrag pwd u p;; mret tt)
  | Sends k data => (TCall k, conn_send data;; mret tt)
  | Closes k => (TCall k, close;; mret tt)
  end.

(** The contacting task runs once checks have been started; a local candidate receives
    once they have, as long as it is open; a remote candidate has an address, not a name
    that is to be looked up first. *)
Definition ice_startable (e : ice_entry) w : bool :=
  match e with
  | Contacts => negb (ag_rx w) && ag_undone w
  | Receives c _ _ => negb (ag_unstarted w) && bool_decide (c ∈ ag_open w)
  | AddsRemote _ c => negb (bool_decide (candidate_type c = CtHost) && ends_with ".local" (address c))
  | _ => true
  end.
End Agent.
