(* ===== verification/IceAgentSafe.v ===== *)
(** * What makes an ICE agent select a pair (rust/vendor/webrtc-ice/src/agent)

    In every interleaving of the tasks of IceAgent.v, a selected pair has been checked
    with the other side's password, and was chosen by the controlling side. *)

From Stdlib Require Import Ascii String.
From stdpp Require Import gmap.
From S2P Require Import Prelude Text Net Ice Threads IceAgent.

Section Safe.
Context `{CM : !CaseMapping} (cfg : settings) (username_fits : string → bool).
Local Abbreviation go := (thread agent tick).
Implicit Types (w : agent) (o : pair_obj).

(** ** The best pair *)

Definition prio w o : Z := pair_priority (pair_of o w).

(** A pair of the list, or the last one. *)
Local Ltac snoc_cases q o := intros q o [Hq| ->%list_elem_of_singleton]%elem_of_app Hq'.

(** Of the pairs of the checklist that qualify, one of the highest priority is found, and
    none only if there is none. *)
Lemma best_pair_spec ok w :
  match best_pair ok w with
  | Some p => ∃ o, p ∈ ag_checklist w ∧ ag_pairs w !! p = Some o ∧ ok o = true
      ∧ ∀ q o', q ∈ ag_checklist w → ag_pairs w !! q = Some o' → ok o' = true → prio w o' ≤ prio w o
  | None => ∀ q o', q ∈ ag_checklist w → ag_pairs w !! q = Some o' → ok o' = false
  end.
Proof.
  unfold best_pair. generalize (ag_checklist w). intros l. induction l as [|x l IH] using rev_ind; [set_solver|].
  rewrite foldl_app. cbn. destruct (foldl _ None l) as [p|]; destruct (ag_pairs w !! x) as [ox|] eqn:Ex; cbn.
  - destruct IH as (o & Hp & Ho & Hk & Hmax).
    destruct (ok ox) eqn:Ek; cbn; [rewrite Ho; fold (prio w o) (prio w ox); destruct (Z.ltb_spec (prio w o) (prio w ox))|].
    + exists ox. split_and!; [set_solver|done..|]. snoc_cases q o'; [|simplify_eq; lia]. intros Hok. specialize (Hmax q o' Hq Hq' Hok). lia.
    + exists o. split_and!; [set_solver|done..|]. snoc_cases q o'; [by apply (Hmax q)|by simplify_eq].
    + exists o. split_and!; [set_solver|done..|]. snoc_cases q o'; [by apply (Hmax q)|congruence].
  - destruct IH as (o & Hp & Ho & Hk & Hmax). exists o. split_and!; [set_solver|done..|]. snoc_cases q o'; [by apply (Hmax q)|congruence].
  - destruct (ok ox) eqn:Ek; cbn; [|snoc_cases q o'; [by eapply IH|by simplify_eq]]. exists ox. split_and!; [set_solver|done..|].
    snoc_cases q o'; [by rewrite (IH q o')|by simplify_eq].
  - snoc_cases q o'; [by eapply IH|congruence].
Qed.

(** ** What has happened for a pair *)

(** Message [m] from [addr] came in at a local candidate like the pair's, and the pair's
    remote candidate has that address. *)
Definition came_over w o (addr : socket_addr) (m : stun_message) : Prop :=
  ∃ l, (l, addr, m) ∈ ag_heard w ∧ equal_candidates (po_local o) l w = true ∧ at_address addr w (po_remote o) = true.

(** The request [r] of this agent was answered over the pair, by someone who has the
    password. *)
Definition answered w o (r : BindingRequest) : Prop :=
  r ∈ ag_asked w ∧ ∃ m, came_over w o (br_destination r) m
    ∧ sm_class m = ClassSuccessResponse ∧ sm_transaction m = br_transaction r
    ∧ ∃ cred, cred ∈ ag_creds w ∧ sm_integrity m (remote_pwd cred) = true.

(** The other side has nominated the pair, with a request that has this agent's password. *)
Definition nominated_by_peer w o : Prop :=
  ∃ addr m, came_over w o addr m ∧ sm_class m = ClassRequest ∧ sm_use_candidate m = true
    ∧ ∃ cred, cred ∈ ag_creds w ∧ authentic_request cred m = true.

Definition well_chosen w o : Prop :=
  (∃ r, answered w o r ∧ br_use_candidate r = true) ∨ (∃ r, answered w o r) ∧ nominated_by_peer w o.

Record agent_ok w : Prop := AgentOk {
  ok_succeeded p o : ag_pairs w !! p = Some o → po_state o = pair_state_u8 PairSucceeded → ∃ r, answered w o r;
  ok_pending r : r ∈ ag_pending w → r ∈ ag_asked w;
  ok_cred : ag_cred w ∈ ag_creds w;
  ok_selected p : ag_selected w = Some p → ∃ o, ag_pairs w !! p = Some o ∧ well_chosen w o;
}.

(** ** What never goes away *)

Definition same_ends o o' : Prop := po_local o' = po_local o ∧ po_remote o' = po_remote o.

Record grows w w' : Prop := Grows {
  gr_cands : ag_cands w ⊆ ag_cands w';
  gr_heard x : x ∈ ag_heard w → x ∈ ag_heard w';
  gr_asked r : r ∈ ag_asked w → r ∈ ag_asked w';
  gr_creds c : c ∈ ag_creds w → c ∈ ag_creds w';
  gr_pairs p o : ag_pairs w !! p = Some o → ∃ o', ag_pairs w' !! p = Some o' ∧ same_ends o o';
}.

#[export] Instance grows_preorder : PreOrder grows.
Proof.
  split.
  - intros w. split; auto. intros p o H. exists o. split; [done|by split].
  - intros w1 w2 w3 [A1 A2 A3 A4 A5] [B1 B2 B3 B4 B5]. split; auto; [by etrans|].
    intros p o (o' & (o'' & ? & [??])%B5 & [??])%A5. exists o''. split; [done|]. split; congruence.
Qed.

Lemma equal_candidates_grows w w' a b : grows w w' → equal_candidates a b w = true → equal_candidates a b w' = true.
Proof.
  intros [Hc _ _ _ _]. unfold equal_candidates. destruct (ag_cands w !! a) as [ca|] eqn:Ea; [|done].
  destruct (ag_cands w !! b) as [cb|] eqn:Eb; [|done]. by rewrite (lookup_weaken _ _ _ _ Ea Hc), (lookup_weaken _ _ _ _ Eb Hc).
Qed.

Lemma at_address_grows w w' addr c : grows w w' → at_address addr w c = true → at_address addr w' c = true.
Proof.
  intros [Hc _ _ _ _]. unfold at_address. destruct (ag_cands w !! c) as [cc|] eqn:Ec; [|done]. by rewrite (lookup_weaken _ _ _ _ Ec Hc).
Qed.

Lemma came_over_grows w w' o o' addr m : grows w w' → same_ends o o' → came_over w o addr m → came_over w' o' addr m.
Proof.
  intros Hg [El Er] (l & Hh & He & Ha). exists l. rewrite El, Er. split_and!; [by apply (gr_heard _ _ Hg)|..].
  - by eapply equal_candidates_grows.
  - by eapply at_address_grows.
Qed.

Lemma answered_grows w w' o o' r : grows w w' → same_ends o o' → answered w o r → answered w' o' r.
Proof.
  intros Hg He (Hr & m & Hm & Hc & Ht & cred & Hcred & Hi). split; [by apply (gr_asked _ _ Hg)|]. exists m.
  split_and!; [by eapply came_over_grows|done..|]. exists cred. split; [by apply (gr_creds _ _ Hg)|done].
Qed.

Lemma well_chosen_grows w w' o o' : grows w w' → same_ends o o' → well_chosen w o → well_chosen w' o'.
Proof.
  intros Hg He [(r & Hr & Hu)|[(r & Hr) (addr & m & Hm & Hc & Hu & cred & Hcred & Ha)]].
  - left. exists r. split; [by eapply answered_grows|done].
  - right. split; [exists r; by eapply answered_grows|]. exists addr, m. split_and!; [by eapply came_over_grows|done..|].
    exists cred. split; [by apply (gr_creds _ _ Hg)|done].
Qed.

(** ** Steps that select nothing *)

Record quiet w w' : Prop := Quiet {
  qu_grows : grows w w';
  qu_pairs p o' : ag_pairs w' !! p = Some o' → po_state o' = pair_state_u8 PairSucceeded →
    ∃ o, ag_pairs w !! p = Some o ∧ po_state o = pair_state_u8 PairSucceeded;
  qu_pending r : r ∈ ag_pending w' → r ∈ ag_pending w ∨ r ∈ ag_asked w';
  qu_cred : ag_cred w' = ag_cred w ∨ ag_cred w' ∈ ag_creds w';
  qu_selected : ag_selected w' = ag_selected w ∨ ag_selected w' = None;
}.

Lemma quiet_ok w w' : agent_ok w → quiet w w' → agent_ok w'.
Proof.
  intros [H1 H2 H3 H4] [Hg Q1 Q2 Q3 Q4]. split.
  - intros p o' Hp Hs. destruct (Q1 p o' Hp Hs) as (o & Ho & Hso). destruct (gr_pairs _ _ Hg p o Ho) as (o2 & Ho2 & He).
    destruct (H1 p o Ho Hso) as [r Hr]. exists r. replace o' with o2 by congruence. by eapply answered_grows.
  - intros r [Hr|Hr]%Q2; [|done]. apply (gr_asked _ _ Hg). by apply H2.
  - destruct Q3 as [->|?]; [by apply (gr_creds _ _ Hg)|done].
  - intros p. destruct Q4 as [->| ->]; [|done]. intros (o & Ho & Hw)%H4. destruct (gr_pairs _ _ Hg p o Ho) as (o2 & Ho2 & He).
    exists o2. split; [done|]. by eapply well_chosen_grows.
Qed.

(** A step that leaves all of this alone. *)
Definition still w w' : Prop :=
  ag_cands w' = ag_cands w ∧ ag_heard w' = ag_heard w ∧ ag_asked w' = ag_asked w ∧ ag_creds w' = ag_creds w ∧ ag_pairs w' = ag_pairs w
  ∧ ag_pending w' = ag_pending w ∧ ag_cred w' = ag_cred w ∧ ag_selected w' = ag_selected w.

Lemma still_quiet w w' : still w w' → quiet w w'.
Proof.
  intros (E1 & E2 & E3 & E4 & E5 & E6 & E7 & E8). split; [split|..]; rewrite ?E1, ?E2, ?E3, ?E4, ?E5, ?E6, ?E7, ?E8; eauto.
  intros p o Ho. exists o. split; [done|by split].
Qed.

(** One pair changes, and keeps its ends. *)
Lemma on_pair_quiet p f w :
  (∀ o, same_ends o (f o) ∧ (po_state (f o) = pair_state_u8 PairSucceeded → po_state o = pair_state_u8 PairSucceeded)) →
  quiet w (on_pair p f w).
Proof.
  intros Hf. split; [split|..]; try done; auto.
  - intros q o Ho. cbn. rewrite lookup_alter. case_decide as E; [subst; rewrite Ho; cbn; exists (f o); split; [done|by apply Hf]|].
    exists o. split; [done|by split].
  - intros q o'. cbn. rewrite lookup_alter. case_decide as E; [subst|eauto]. destruct (ag_pairs w !! q) as [o|] eqn:Eo; [|done].
    cbn. intros [= <-] Hs. exists o. split; [done|]. by apply Hf.
Qed.

Lemma quiet_refl w : quiet w w.
Proof. by apply still_quiet. Qed.

Lemma new_candidate_quiet c w : quiet w (new_candidate c w).2.
Proof.
  split; [split|..]; try done; auto; [|intros; by eexists|by eauto]. apply insert_subseteq, not_elem_of_dom, is_fresh.
Qed.

(** The list of pending requests gets shorter. *)
Lemma fewer_pending_quiet l w : (∀ r, r ∈ l → r ∈ ag_pending w) → quiet w (set_pending l w).
Proof. intros Hl. split; [split|..]; try done; auto; [intros; by eexists|by eauto]. Qed.

Lemma take_request_spec id l r l' :
  take_request id l = Some (r, l') → r ∈ l ∧ br_transaction r = id ∧ ∀ x, x ∈ l' → x ∈ l.
Proof.
  revert l'. induction l as [|x l IH]; intros l'; cbn; [done|]. case_decide as E; [intros [= -> ->]; split_and!; set_solver|].
  destruct (take_request id l) as [[y l1]|]; [|done]. intros [= -> <-]. destruct (IH l1 eq_refl) as (? & ? & ?). split_and!; set_solver.
Qed.

Lemma ask_quiet r w : quiet w (set_asked (ag_asked w ++ [r]) (set_pending (ag_pending w ++ [r]) w)).
Proof.
  split; [split|..]; try done; cbn; auto; [|intros; by eexists|by eauto|]; intros; set_solver.
Qed.

Lemma new_cred_quiet cred w : quiet w (set_creds (ag_creds w ++ [cred]) (set_cred cred w)).
Proof.
  split; [split|..]; try done; cbn; auto; [|intros; by eexists|by eauto|]; intros; set_solver.
Qed.

Lemma hear_quiet x w : quiet w (set_heard (ag_heard w ++ [x]) w).
Proof. split; [split|..]; try done; cbn; auto; [|intros; by eexists|by eauto]. intros; set_solver. Qed.

Lemma add_pair_quiet local remote b w :
  let p := fresh (dom (ag_pairs w)) in
  quiet w (set_checklist (ag_checklist w ++ [p])
             (set_pairs (<[p := PairObj local remote b 0 (pair_state_u8 PairWaiting) false]> (ag_pairs w)) w)).
Proof.
  intros p. assert (Hp : ag_pairs w !! p = None) by (apply not_elem_of_dom, is_fresh). split; [split|..]; try done; auto.
  - intros q o Ho. exists o. cbn. rewrite lookup_insert_ne by congruence. split; [done|by split].
  - intros q o'. cbn. rewrite lookup_insert. case_decide; [by intros [= <-]|by eauto].
Qed.

Lemma deselect_quiet w : quiet w (set_selected None w).
Proof. split; [split|..]; try done; auto; [intros; by eexists|by eauto]. Qed.

Lemma quiet_await {A} (f : tick → agent → option (A * agent)) :
  (∀ i w a w', f i w = Some (a, w') → quiet w w') → within quiet (await f).
Proof. apply within_await. Qed.
Lemma quiet_atomic {A} (f : tick → agent → A * agent) : (∀ i w, quiet w (f i w).2) → within quiet (atomic f).
Proof. intros Hf. apply quiet_await. intros i w a w' [= E]. specialize (Hf i w). by rewrite E in Hf. Qed.
Lemma quiet_change (f : agent → agent) : (∀ w, quiet w (f w)) → within quiet (change f : go unit).
Proof. intros Hf. apply quiet_atomic. auto. Qed.
Lemma quiet_look {A} (f : agent → A) : within quiet (look f : go A).
Proof. apply quiet_atomic. intros. apply quiet_refl. Qed.
Lemma quiet_ret {A} (a : A) : within quiet (mret a : go A).
Proof. done. Qed.
Lemma quiet_checklist {A} (f : agent → A * agent) : (∀ w, quiet w (f w).2) → within quiet (with_checklist f : go A).
Proof. intros Hf. apply quiet_await. intros i w a w'. destruct (ag_locked w); [done|]. intros [= E]. specialize (Hf w). by rewrite E in Hf. Qed.

End Safe.

Create HintDb quiet.
#[export] Hint Resolve quiet_look quiet_ret new_cred_quiet hear_quiet add_pair_quiet deselect_quiet new_candidate_quiet quiet_refl : quiet.

(** Go through the steps of a thread. *)
Ltac quiet_steps :=
  repeat first
    [ solve [auto with quiet nocore]
    | apply within_bind; [|intros ?]
    | apply quiet_change; intros ?; solve [by apply still_quiet|auto with quiet nocore]
    | apply quiet_atomic; intros ? ?; cbn [snd]; solve [by apply still_quiet|auto with quiet nocore|case_match; by apply still_quiet]
    | apply quiet_checklist; intros ?; cbn [snd]; solve [by apply still_quiet|auto with quiet nocore]
    | progress cbv beta zeta
    | case_match ].

Section Threads.
Context `{CM : !CaseMapping} (cfg : settings) (username_fits : string → bool).
Local Abbreviation go := (thread agent tick).

Lemma quiet_for_each {A} (f : A → go unit) l : (∀ a, within quiet (f a)) → within quiet (for_each f l).
Proof. intros Hf. induction l; cbn [for_each]; quiet_steps; auto. Qed.

Lemma see_quiet b t c w : quiet w (see b t c w).
Proof. unfold see. destruct (default (0, 0) (ag_times w !! c)). by apply still_quiet. Qed.
Lemma store_state_quiet p s w : s ≠ PairSucceeded → quiet w (on_pair p (store_state s) w).
Proof. intros Hs. apply on_pair_quiet. intros o. split; [done|]. by destruct s. Qed.
Lemma store_failed_quiet p w : quiet w (on_pair p (store_state PairFailed) w).
Proof. by apply store_state_quiet. Qed.
Lemma store_progress_quiet p w : quiet w (on_pair p (store_state PairInProgress) w).
Proof. by apply store_state_quiet. Qed.
Lemma count_quiet p w : quiet w (on_pair p count_request w).
Proof. by apply on_pair_quiet. Qed.
Lemma store_nominated_quiet p w : quiet w (on_pair p store_nominated w).
Proof. by apply on_pair_quiet. Qed.
#[local] Hint Resolve see_quiet store_failed_quiet store_progress_quiet count_quiet store_nominated_quiet : quiet.

Lemma write_to_quiet msg l r : within quiet (write_to msg l r).
Proof.
  apply quiet_atomic. intros i w. cbn. destruct (t_ok i); [|apply quiet_refl]. unfold see.
  destruct (default (0, 0) _). by apply still_quiet.
Qed.
Lemma tell_quiet open n : within quiet (tell open n).
Proof. apply quiet_await. intros i w a w'. repeat case_match; intros; simplify_eq; by apply still_quiet. Qed.
Lemma invalidate_quiet : within quiet invalidate_pending_binding_requests.
Proof. apply quiet_atomic. intros i w. apply fewer_pending_quiet. intros r [_ Hr]%list_elem_of_filter. done. Qed.
#[local] Hint Resolve write_to_quiet tell_quiet invalidate_quiet : quiet.

Lemma add_pair_is_quiet local remote : within quiet (add_pair local remote).
Proof. unfold add_pair. quiet_steps. Qed.
#[local] Hint Resolve add_pair_is_quiet : quiet.

Lemma candidate_seen_quiet c : within quiet (candidate_seen c).
Proof. unfold candidate_seen. quiet_steps. Qed.
#[local] Hint Resolve candidate_seen_quiet : quiet.

Lemma delete_all_quiet : within quiet delete_all_candidates.
Proof. unfold delete_all_candidates. quiet_steps. Qed.
#[local] Hint Resolve delete_all_quiet : quiet.

Lemma update_state_quiet new : within quiet (update_connection_state new).
Proof. unfold update_connection_state. quiet_steps. Qed.
#[local] Hint Resolve update_state_quiet : quiet.

Lemma send_success_quiet m l r : within quiet (send_binding_success m l r).
Proof. unfold send_binding_success, send_stun. quiet_steps. Qed.
#[local] Hint Resolve send_success_quiet : quiet.

Lemma send_request_quiet msg id uc l r : within quiet (send_binding_request msg id uc l r).
Proof. unfold send_binding_request, send_stun. quiet_steps. apply quiet_atomic. intros i w. apply ask_quiet. Qed.
#[local] Hint Resolve send_request_quiet : quiet.

Lemma build_request_quiet uc b l : within quiet (build_request cfg username_fits uc b l).
Proof. unfold build_request. quiet_steps. Qed.
#[local] Hint Resolve build_request_quiet : quiet.

Lemma ping_quiet l r : within quiet (ping_candidate cfg username_fits l r).
Proof. unfold ping_candidate. quiet_steps. Qed.
#[local] Hint Resolve ping_quiet : quiet.

Lemma nominate_quiet : within quiet (nominate_pair cfg username_fits).
Proof. unfold nominate_pair. quiet_steps. Qed.
#[local] Hint Resolve nominate_quiet : quiet.

Lemma mark_pairs_quiet l : within quiet (mark_pairs cfg l).
Proof. induction l as [|p l IH]; cbn [mark_pairs]; quiet_steps; done. Qed.
#[local] Hint Resolve mark_pairs_quiet : quiet.

Lemma ping_all_quiet : within quiet (ping_all_candidates cfg username_fits).
Proof. unfold ping_all_candidates. quiet_steps. apply quiet_for_each. intros []. apply ping_quiet. Qed.
#[local] Hint Resolve ping_all_quiet : quiet.

Lemma validate_quiet : within quiet (validate_selected_pair cfg).
Proof. unfold validate_selected_pair. quiet_steps. Qed.
#[local] Hint Resolve validate_quiet : quiet.

Lemma keepalive_quiet : within quiet (check_keepalive cfg username_fits).
Proof. unfold check_keepalive. quiet_steps. Qed.
#[local] Hint Resolve keepalive_quiet : quiet.

Lemma best_valid_quiet : within quiet get_best_valid_candidate_pair.
Proof. unfold get_best_valid_candidate_pair. quiet_steps. Qed.
#[local] Hint Resolve best_valid_quiet : quiet.

Lemma best_available_quiet : within quiet get_best_available_candidate_pair.
Proof. unfold get_best_available_candidate_pair. quiet_steps. Qed.
#[local] Hint Resolve best_available_quiet : quiet.

Lemma nominatable_quiet o : within quiet (both_nominatable cfg o).
Proof. unfold both_nominatable, is_nominatable. quiet_steps. Qed.
#[local] Hint Resolve nominatable_quiet : quiet.

Lemma contact_candidates_quiet : within quiet (contact_candidates cfg username_fits).
Proof. unfold contact_candidates, contact_controlling, contact_controlled, the_pair. quiet_steps. Qed.
#[local] Hint Resolve contact_candidates_quiet : quiet.

Lemma contact_quiet : within quiet (contact cfg username_fits).
Proof. unfold contact. quiet_steps. Qed.
#[local] Hint Resolve contact_quiet : quiet.

Lemma add_remote_quiet c : within quiet (add_remote_candidate c).
Proof. unfold add_remote_candidate, request_connectivity_check. quiet_steps. apply quiet_for_each. intros. apply add_pair_is_quiet. Qed.
#[local] Hint Resolve add_remote_quiet : quiet.

Lemma add_candidate_quiet c : within quiet (add_candidate c).
Proof. unfold add_candidate, request_connectivity_check. quiet_steps. apply quiet_for_each. intros. apply add_pair_is_quiet. Qed.
#[local] Hint Resolve add_candidate_quiet : quiet.

Lemma start_quiet : within quiet start.
Proof. unfold start. quiet_steps. Qed.
#[local] Hint Resolve start_quiet : quiet.

Lemma set_credentials_quiet u p : within quiet (set_remote_credentials u p).
Proof. unfold set_remote_credentials. quiet_steps. Qed.
#[local] Hint Resolve set_credentials_quiet : quiet.

Lemma start_checks_quiet b u p : within quiet (start_connectivity_checks b u p).
Proof. unfold start_connectivity_checks, request_connectivity_check. quiet_steps. Qed.
#[local] Hint Resolve start_checks_quiet : quiet.

Lemma close_quiet : within quiet close.
Proof. unfold close. quiet_steps. Qed.
#[local] Hint Resolve close_quiet : quiet.

Lemma restart_quiet u p u' p' : within quiet (restart u p u' p').
Proof. unfold restart, set_selected_pair. quiet_steps; apply quiet_change; intros w; apply fewer_pending_quiet; set_solver. Qed.
#[local] Hint Resolve restart_quiet : quiet.

Lemma conn_send_quiet data : within quiet (conn_send data).
Proof. unfold conn_send, the_pair. quiet_steps. Qed.
#[local] Hint Resolve conn_send_quiet : quiet.

(** ** Steps that select *)

Local Abbreviation keeps := (safe (I := tick) (G := ice_name) agent_ok (λ _, grows)).

#[local] Instance grows_rely : Rely (λ _ : ice_name, grows).
Proof. intros g. apply _. Qed.

Definition lasting (K : agent → Prop) : Prop := ∀ w w', K w → grows w w' → K w'.

Lemma quiet_others g w w' : agent_ok w → quiet w w' → agent_ok w' ∧ others (λ _ : ice_name, grows) g w w'.
Proof. intros Hi Hq. split; [by eapply quiet_ok|]. intros ? _. apply Hq. Qed.

(** Before what selects. *)
Lemma quiet_then {A B} g (t : go A) (k : A → go B) (K : agent → Prop) Q w :
  within quiet t → lasting K → K w → (∀ a w', agent_ok w' → K w' → keeps g (k a) Q w') → keeps g (t ≫= k) Q w.
Proof.
  intros Ht HK Hw Hk. apply (safe_bind _ _ _ _ _ (λ _, K)); [|exact Hk].
  eapply within_safe_keep; [apply quiet_others|by apply HK| |done|done]. intros w1 w2 _ H1 Hq. eapply HK; [done|]. apply Hq.
Qed.

Lemma quiet_all {A} g (t : go A) w : within quiet t → keeps g t (λ _ _, True) w.
Proof. intros Ht. eapply within_safe; [apply quiet_others|done]. Qed.

(** A known pair that is well chosen, or was answered. *)
Definition chosen_pair (p : nat) w : Prop := ∃ o, ag_pairs w !! p = Some o ∧ well_chosen w o.
Definition answered_pair (p : nat) (r : BindingRequest) w : Prop := ∃ o, ag_pairs w !! p = Some o ∧ answered w o r.

Lemma chosen_pair_lasts p : lasting (chosen_pair p).
Proof.
  intros w w' (o & Ho & Hc) Hg. destruct (gr_pairs _ _ Hg p o Ho) as (o' & Ho' & He). exists o'. split; [done|]. by eapply well_chosen_grows.
Qed.
Lemma answered_pair_lasts p r : lasting (answered_pair p r).
Proof.
  intros w w' (o & Ho & Hc) Hg. destruct (gr_pairs _ _ Hg p o Ho) as (o' & Ho' & He). exists o'. split; [done|]. by eapply answered_grows.
Qed.

Lemma select_safe g p w : chosen_pair p w → keeps g (set_selected_pair (Some p)) (λ _ _, True) w.
Proof.
  intros Hp. cbn [set_selected_pair]. eapply (quiet_then _ _ _ (chosen_pair p)); [quiet_steps|apply chosen_pair_lasts|done|].
  intros _ w1 _ H1. apply (safe_bind _ _ _ _ _ (λ _ _, True)); [|intros; apply quiet_all; quiet_steps].
  apply safe_atomic. intros i w2 Hr [I1 I2 I3 I4]. cbn [fst snd]. assert (Hg : grows w2 (set_selected (Some p) w2)).
  { split; try done. intros q o Ho. exists o. split; [done|by split]. }
  split_and!; [|by intros ??|done]. split.
  - intros q o Ho Hs. destruct (I1 q o Ho Hs) as [r Hq]. exists r. by eapply answered_grows; [| |exact Hq].
  - done.
  - done.
  - cbn. intros q [= <-]. destruct (chosen_pair_lasts p _ _ H1 Hr) as (o & Ho & Hc). exists o. split; [done|].
    by eapply well_chosen_grows; [| |exact Hc].
Qed.

Lemma succeed_safe g p r w : answered_pair p r w → keeps g (change (on_pair p (store_state PairSucceeded))) (λ _, answered_pair p r) w.
Proof.
  intros Hp. apply safe_atomic. intros i w1 Hr [I1 I2 I3 I4]. cbn [fst snd]. set (w2 := on_pair p _ w1).
  assert (Hg : grows w1 w2).
  { split; try done. intros q o Ho. cbn. rewrite lookup_alter. case_decide; [subst; rewrite Ho; cbn; by eexists|].
    exists o. split; [done|by split]. }
  pose proof (answered_pair_lasts p r _ _ Hp Hr) as H1. split_and!; [|by intros ??|intros; eapply answered_pair_lasts; [exact H1|by etrans]].
  split; try done.
  - intros q o. cbn. rewrite lookup_alter. case_decide as E.
    + subst q. destruct H1 as (o1 & Ho1 & Ha). rewrite Ho1. cbn. intros [= <-] _. exists r. by eapply answered_grows; [| |exact Ha].
    + intros Ho Hs. destruct (I1 q o Ho Hs) as [r' Hq]. exists r'. by eapply answered_grows; [| |exact Hq].
  - intros q Hq. apply I4 in Hq as (o & Ho & Hc). destruct (gr_pairs _ _ Hg q o Ho) as (o2 & Ho2 & He). exists o2. split; [done|].
    by eapply well_chosen_grows.
Qed.

(** ** Inbound messages *)

(** The message came in at [local], and [rc] is the remote candidate it is from. *)
Definition heard_from (local : nat) (addr : socket_addr) (m : stun_message) (rc : nat) w : Prop :=
  (local, addr, m) ∈ ag_heard w ∧ at_address addr w rc = true.
Lemma heard_from_lasts local addr m rc : lasting (heard_from local addr m rc).
Proof. intros w w' [H1 H2] Hg. split; [by apply (gr_heard _ _ Hg)|by eapply at_address_grows]. Qed.

Definition pair_over (addr : socket_addr) (m : stun_message) (p : nat) w : Prop := ∃ o, ag_pairs w !! p = Some o ∧ came_over w o addr m.
Lemma pair_over_lasts addr m p : lasting (pair_over addr m p).
Proof.
  intros w w' (o & Ho & Hc) Hg. destruct (gr_pairs _ _ Hg p o Ho) as (o' & Ho' & He). exists o'. split; [done|]. by eapply came_over_grows.
Qed.

Lemma at_address_equal addr a b w : equal_candidates a b w = true → at_address addr w b = true → at_address addr w a = true.
Proof.
  unfold equal_candidates, at_address, candidate_equal. destruct (ag_cands w !! a) as [ca|], (ag_cands w !! b) as [cb|]; try done.
  intros H. repeat apply andb_prop in H as [H ?]. by rewrite !bool_decide_eq_true in *; simplify_eq; repeat case_bool_decide; congruence.
Qed.

Lemma find_pair_safe g local addr m rc w :
  heard_from local addr m rc w → keeps g (find_pair local rc) (λ p w, match p with Some p => pair_over addr m p w | None => True end) w.
Proof.
  intros Hh. apply safe_await. intros i w1 p w2 Hr Hi. destruct (ag_locked w1); [done|]. intros [= <- <-].
  split_and!; [done|by intros ??|]. intros w3 Hr3 _. destruct (head _) as [q|] eqn:Eq; [|done].
  apply head_Some_elem_of, list_elem_of_filter in Eq as [Hq _]. destruct (heard_from_lasts _ _ _ _ _ _ Hh Hr) as [H1 H2].
  apply (pair_over_lasts addr m q w1); [|done]. unfold is_pair in Hq. destruct (ag_pairs w1 !! q) as [o|] eqn:Eo; [|done].
  apply andb_prop in Hq as [Hl Hq]. exists o. split; [done|]. exists local. split_and!; [done..|]. by eapply at_address_equal.
Qed.

Lemma answered_request_safe g m addr w :
  keeps g (answered_request m addr)
    (λ r w, match r with Some r => r ∈ ag_asked w ∧ br_transaction r = sm_transaction m ∧ br_destination r = addr | None => True end) w.
Proof.
  unfold answered_request, handle_inbound_binding_success.
  apply (safe_bind _ _ _ _ _ (λ r w, match r with Some r => r ∈ ag_asked w ∧ br_transaction r = sm_transaction m | None => True end)).
  - eapply (quiet_then _ _ _ (λ _, True)); [quiet_steps|done..|]. intros _ w1 _ _. apply safe_atomic. intros i w2 _ Hi.
    destruct (take_request _ _) as [[r l]|] eqn:Et; cbn [fst snd]; [|by split_and!; try done; intros ??].
    apply take_request_spec in Et as (Hr & Ht & Hl). destruct (quiet_others g w2 (set_pending l w2) Hi) as [H1 H2].
    { by apply fewer_pending_quiet. }
    split_and!; [done..|]. intros w3 Hg _. split; [|done]. apply (gr_asked _ _ Hg). by apply (ok_pending _ Hi).
  - intros r w1 _ Hr. apply safe_ret. intros w2 Hg _. destruct r as [r|]; [|done]. cbn. case_decide; [|done].
    destruct Hr as [H1 H2]. split_and!; try done. by apply (gr_asked _ _ Hg).
Qed.

(** Its credentials are or were those of the agent. *)
Definition with_cred (f : UfragPwd → bool) w : Prop := ∃ cred, cred ∈ ag_creds w ∧ f cred = true.
Lemma with_cred_lasts f : lasting (with_cred f).
Proof. intros w w' (c & Hc & Hf) Hg. exists c. split; [by apply (gr_creds _ _ Hg)|done]. Qed.

Lemma lasting_both K K' : lasting K → lasting K' → lasting (λ w, K w ∧ K' w).
Proof. intros H H' w w' [??] Hg. split; [by eapply H|by eapply H']. Qed.
Lemma asked_lasts r : lasting (λ w, r ∈ ag_asked w).
Proof. intros w w' H Hg. by apply (gr_asked _ _ Hg). Qed.

Definition good_success local addr m rc w : Prop :=
  heard_from local addr m rc w ∧ with_cred (λ c, sm_integrity m (remote_pwd c)) w.
Lemma good_success_lasts local addr m rc : lasting (good_success local addr m rc).
Proof. apply lasting_both; [apply heard_from_lasts|apply with_cred_lasts]. Qed.

Lemma pair_answered addr m p r w :
  sm_class m = ClassSuccessResponse → pair_over addr m p w → with_cred (λ c, sm_integrity m (remote_pwd c)) w →
  r ∈ ag_asked w → br_transaction r = sm_transaction m → br_destination r = addr → answered_pair p r w.
Proof. intros Hc (o & Ho & Hm) Hw Hr Ht <-. exists o. split; [done|]. split; [done|]. exists m. by split_and!. Qed.

(** What lasts is still known after a thread. *)
Lemma keeping {A} g (t : go A) Q (K : agent → Prop) w : lasting K → keeps g t Q w → K w → keeps g t (λ a w, Q a w ∧ K w) w.
Proof.
  intros HK. assert (Hn : ∃ g', g' ≠ g) by (destruct g; [by exists (TCall 0)|by exists TContact..]). destruct Hn as [g' Hn].
  revert w. induction t as [a|f IH] using thread_ind'; cbn; intros w Hs Hw.
  - intros w' Hr Hi. split; [by apply Hs|by eapply HK].
  - intros i w1 Hr Hi. specialize (Hs i w1 Hr Hi). destruct (f i w1) as [[t w2]|] eqn:E; [|done]. destruct Hs as (H1 & H2 & H3).
    split_and!; [done..|]. eapply IH; [done|done|]. eapply HK; [by eapply HK|]. by apply (H2 g').
Qed.

Lemma then_keeping {A B} g (t : go A) (k : A → go B) (K : agent → Prop) Q Q' w :
  keeps g t Q w → lasting K → K w → (∀ a w', agent_ok w' → Q a w' → K w' → keeps g (k a) Q' w') → keeps g (t ≫= k) Q' w.
Proof.
  intros Ht HK Hw Hk. apply (safe_bind _ _ _ _ _ (λ a w, Q a w ∧ K w)); [by apply keeping|]. intros a w' Hi [H1 H2]. by apply Hk.
Qed.

Lemma success_controlling_safe g local addr m rc w :
  sm_class m = ClassSuccessResponse → good_success local addr m rc w → keeps g (success_controlling m local rc addr) (λ _ _, True) w.
Proof.
  intros Hc Hw. unfold success_controlling. eapply (then_keeping _ _ _ _ _ _ _ (answered_request_safe _ _ _ _) (good_success_lasts _ _ _ _) Hw).
  intros [r|] w1 _ Hr Hk; [|done]. destruct Hr as (Hr & Ht & Hd).
  assert (Hl := lasting_both _ _ (good_success_lasts local addr m rc) (asked_lasts r)).
  eapply (quiet_then _ _ _ _ _ _ (quiet_look _) Hl (conj Hk Hr)). intros none w2 _ [Hk2 Hr2].
  eapply (then_keeping _ _ _ _ _ _ _ (find_pair_safe _ _ _ _ _ _ (proj1 Hk2)) Hl (conj Hk2 Hr2)).
  intros [p|] w3 _ Hp [Hk3 Hr3]; [|done]. pose proof (pair_answered addr m p r w3 Hc Hp (proj2 Hk3) Hr3 Ht Hd) as Ha.
  apply (safe_bind _ _ _ _ _ _ _ _ (succeed_safe g p r w3 Ha)). intros _ w4 _ (o & Ho & Ho2).
  destruct (br_use_candidate r) eqn:Eu; [|done]. destruct none; [|done]. apply select_safe. exists o. split; [done|]. left. by exists r.
Qed.

Lemma success_controlled_safe g local addr m rc w :
  sm_class m = ClassSuccessResponse → good_success local addr m rc w → keeps g (success_controlled m local rc addr) (λ _ _, True) w.
Proof.
  intros Hc Hw. unfold success_controlled. eapply (then_keeping _ _ _ _ _ _ _ (answered_request_safe _ _ _ _) (good_success_lasts _ _ _ _) Hw).
  intros [r|] w1 _ Hr Hk; [|done]. destruct Hr as (Hr & Ht & Hd).
  assert (Hl := lasting_both _ _ (good_success_lasts local addr m rc) (asked_lasts r)).
  eapply (then_keeping _ _ _ _ _ _ _ (find_pair_safe _ _ _ _ _ _ (proj1 Hk)) Hl (conj Hk Hr)).
  intros [p|] w3 _ Hp [Hk3 Hr3]; [|done]. pose proof (pair_answered addr m p r w3 Hc Hp (proj2 Hk3) Hr3 Ht Hd) as Ha.
  eapply safe_weaken; [by apply succeed_safe|done].
Qed.

(** What is known of a request. *)
Definition good_request local addr m rc w : Prop := heard_from local addr m rc w ∧ with_cred (λ c, authentic_request c m) w.
Lemma good_request_lasts local addr m rc : lasting (good_request local addr m rc).
Proof. apply lasting_both; [apply heard_from_lasts|apply with_cred_lasts]. Qed.

Lemma look_succeeded_safe g p w :
  keeps g (look (succeeded p)) (λ ok w, ok = true → ∃ r, answered_pair p r w) w.
Proof.
  apply safe_atomic. intros i w1 _ Hi. cbn [fst snd]. split_and!; [done|by intros ??|]. intros w2 Hg _ Hs. unfold succeeded in Hs.
  destruct (ag_pairs w1 !! p) as [o|] eqn:Eo; [|done]. apply Z.eqb_eq in Hs. destruct (ok_succeeded _ Hi p o Eo Hs) as [r Hr].
  exists r. apply (answered_pair_lasts p r w1); [by exists o|done].
Qed.

Lemma nominated_chosen addr m p r w :
  sm_class m = ClassRequest → sm_use_candidate m = true → answered_pair p r w → pair_over addr m p w →
  with_cred (λ c, authentic_request c m) w → chosen_pair p w.
Proof.
  intros Hc Hu (o & Ho & Ha) (o' & Ho' & Hm) Hw. exists o. split; [done|]. right. split; [by exists r|].
  exists addr, m. replace o with o' by congruence. by split_and!.
Qed.

Lemma request_controlled_safe g local addr m rc w :
  sm_class m = ClassRequest → good_request local addr m rc w → keeps g (request_controlled cfg username_fits m local rc) (λ _ _, True) w.
Proof.
  intros Hc Hw. unfold request_controlled. pose proof (good_request_lasts local addr m rc) as Hl.
  eapply (then_keeping _ _ _ _ _ _ _ (find_pair_safe _ _ _ _ _ _ (proj1 Hw)) Hl Hw). intros q w1 _ _ H1.
  eapply (quiet_then _ _ _ (good_request local addr m rc)); [quiet_steps|exact Hl|exact H1|]. intros _ w2 _ H2.
  eapply (then_keeping _ _ _ _ _ _ _ (find_pair_safe _ _ _ _ _ _ (proj1 H2)) Hl H2). intros [p|] w3 _ Hp H3; [|done].
  destruct (sm_use_candidate m) eqn:Eu; [|apply quiet_all; quiet_steps].
  assert (Hl3 := lasting_both _ _ Hl (pair_over_lasts addr m p)).
  eapply (then_keeping _ _ _ _ _ _ _ (look_succeeded_safe _ _ _) Hl3 (conj H3 Hp)). intros [] w4 _ Hs [H4 Hp4]; [|apply quiet_all; quiet_steps].
  destruct (Hs eq_refl) as [r Hr]. pose proof (nominated_chosen addr m p r w4 Hc Eu Hr Hp4 (proj2 H4)) as Hch.
  eapply (quiet_then _ _ _ _ _ _ (quiet_look _) (chosen_pair_lasts p) Hch). intros none w5 _ H5.
  apply (safe_bind _ _ _ _ _ (λ _ _, True)); [|intros; apply quiet_all; quiet_steps]. destruct none; [by apply select_safe|done].
Qed.

Lemma request_controlling_quiet m local rc : within quiet (request_controlling cfg username_fits m local rc).
Proof. unfold request_controlling, find_pair, the_pair. quiet_steps. Qed.
#[local] Hint Resolve request_controlling_quiet : quiet.

Definition heard_msg (local : nat) (addr : socket_addr) (m : stun_message) w : Prop := (local, addr, m) ∈ ag_heard w.
Lemma heard_msg_lasts local addr m : lasting (heard_msg local addr m).
Proof. intros w w' H Hg. by apply (gr_heard _ _ Hg). Qed.

Definition rc_at (addr : socket_addr) (rc : option nat) w : Prop := match rc with Some rc => at_address addr w rc = true | None => True end.
Lemma rc_at_lasts addr rc : lasting (rc_at addr rc).
Proof. intros w w' H Hg. destruct rc; [by eapply at_address_grows|done]. Qed.

Lemma find_remote_safe g local addr w : keeps g (find_remote_candidate local addr) (rc_at addr) w.
Proof.
  apply safe_atomic. intros i w1 _ Hi. cbn [fst snd]. split_and!; [done|by intros ??|]. intros w2 Hg _. apply (rc_at_lasts _ _ w1); [|done].
  destruct (head _) as [rc|] eqn:E; [|done]. by apply head_Some_elem_of, list_elem_of_filter in E as [? _].
Qed.

Lemma new_peer_reflexive_safe g local addr w : keeps g (new_peer_reflexive local addr) (rc_at addr) w.
Proof.
  apply safe_atomic. intros i w1 _ Hi. destruct (new_candidate_peer_reflexive _ _ _ _) as [c|] eqn:E; [|by split_and!; try done; intros ??].
  assert (Hc : address c = fmt_ip addr.1 ∧ port c = addr.2).
  { revert E. unfold new_candidate_peer_reflexive, new_candidate_reflexive. cbn [cfg_address]. destruct (parse_ip _); [|done].
    destruct (determine_network_type _ _); [|done]. cbn. by intros [= <-]. }
  destruct (new_candidate c w1) as [n w2] eqn:En. cbn [fst snd]. pose proof (new_candidate_quiet c w1) as Hq. rewrite En in Hq.
  destruct (quiet_others g _ _ Hi Hq). split_and!; [done..|]. intros w3 Hg _. apply (rc_at_lasts _ (Some n) w2); [|done].
  injection En as <- <-. cbn. unfold at_address. cbn. rewrite lookup_insert_eq. destruct Hc as [-> ->]. by rewrite !bool_decide_eq_true_2.
Qed.

Lemma look_cred_safe g (f : UfragPwd → bool) w :
  keeps g (look ag_cred) (λ cred w, f cred = true → with_cred f w) w.
Proof.
  apply safe_atomic. intros i w1 _ Hi. cbn [fst snd]. split_and!; [done|by intros ??|]. intros w2 Hg _ Hf.
  apply (with_cred_lasts f w1); [|done]. exists (ag_cred w1). split; [apply (ok_cred _ Hi)|done].
Qed.

(** The remote candidate of a request, known before or new. *)
Lemma request_candidate_safe g local addr rc w :
  rc_at addr rc w →
  keeps g (match rc with
           | Some rc => mret (Some rc)
           | None => rc ← new_peer_reflexive local addr;
                     match rc with Some rc => add_remote_candidate rc;; mret (Some rc) | None => mret None end
           end) (rc_at addr) w.
Proof.
  intros Hrc. destruct rc as [rc|]; [apply safe_ret; intros; by eapply rc_at_lasts|].
  apply (safe_bind _ _ _ _ _ _ _ _ (new_peer_reflexive_safe g local addr w)). intros [rc|] w1 _ H1; [|done].
  eapply (quiet_then _ _ _ (rc_at addr (Some rc))); [quiet_steps|apply rc_at_lasts|done|]. intros _ w2 _ H2.
  apply safe_ret. intros. by eapply rc_at_lasts.
Qed.

Lemma handle_success_safe g local addr m rc w :
  sm_class m = ClassSuccessResponse → good_success local addr m rc w → keeps g (handle_success_response m local rc addr) (λ _ _, True) w.
Proof.
  intros Hc Hw. unfold handle_success_response. eapply (quiet_then _ _ _ _ _ _ (quiet_look _) (good_success_lasts _ _ _ _) Hw).
  intros [] w1 _ H1; [by eapply success_controlling_safe|by eapply success_controlled_safe].
Qed.

Lemma handle_request_safe g local addr m rc w :
  sm_class m = ClassRequest → good_request local addr m rc w → keeps g (handle_binding_request cfg username_fits m local rc) (λ _ _, True) w.
Proof.
  intros Hc Hw. unfold handle_binding_request. eapply (quiet_then _ _ _ _ _ _ (quiet_look _) (good_request_lasts _ _ _ _) Hw).
  intros [] w1 _ H1; [apply quiet_all; quiet_steps|by eapply request_controlled_safe].
Qed.

Lemma handle_inbound_safe g m local addr w :
  heard_msg local addr m w → keeps g (handle_inbound cfg username_fits m local addr) (λ _ _, True) w.
Proof.
  intros Hw. unfold handle_inbound. case_match; [done|]. pose proof (heard_msg_lasts local addr m) as Hl.
  eapply (quiet_then _ _ _ _ _ _ (quiet_look _) Hl Hw). intros b w1 _ H1. case_match; [done|].
  eapply (then_keeping _ _ _ _ _ _ _ (find_remote_safe _ _ _ _) Hl H1). intros rc w2 _ Hrc H2.
  assert (Hl2 := lasting_both _ _ Hl (rc_at_lasts addr rc)). destruct (sm_class m) eqn:Ec; [|apply quiet_all; quiet_steps| |apply quiet_all; quiet_steps].
  - eapply (then_keeping _ _ _ _ _ _ _ (look_cred_safe _ (λ c, authentic_request c m) _) Hl2 (conj H2 Hrc)).
    intros cred w3 _ Hcred [H3 Hrc3]. destruct (authentic_request cred m); [|done]. cbn [negb]. specialize (Hcred eq_refl).
    eapply (then_keeping _ _ _ _ _ _ _ (request_candidate_safe _ _ _ _ _ Hrc3) (lasting_both _ _ Hl (with_cred_lasts _)) (conj H3 Hcred)).
    intros [r|] w4 _ Hr [H4 Hc4]; [|done]. apply (safe_bind _ _ _ _ _ (λ _ _, True)); [|intros; apply quiet_all; quiet_steps].
    eapply handle_request_safe; [done|]. by split.
  - eapply (then_keeping _ _ _ _ _ _ _ (look_cred_safe _ (λ c, sm_integrity m (remote_pwd c)) _) Hl2 (conj H2 Hrc)).
    intros cred w3 _ Hcred [H3 Hrc3]. destruct (sm_integrity m (remote_pwd cred)); [|done]. cbn [negb]. specialize (Hcred eq_refl).
    destruct rc as [r|]; [|done]. apply (safe_bind _ _ _ _ _ (λ _ _, True)); [|intros; apply quiet_all; quiet_steps].
    eapply handle_success_safe; [done|]. by split.
Qed.

Lemma receive_safe g local addr p w : keeps g (handle_inbound_candidate_msg cfg username_fits local addr p) (λ _ _, True) w.
Proof.
  destruct p as [m| |data]; cbn [handle_inbound_candidate_msg].
  - apply (safe_bind _ _ _ _ _ (λ _, heard_msg local addr m)); [|intros; by apply handle_inbound_safe]. apply safe_atomic.
    intros i w1 _ Hi. cbn [fst snd]. destruct (quiet_others g _ _ Hi (hear_quiet (local, addr, m) w1)). split_and!; [done..|].
    intros w2 Hg _. eapply heard_msg_lasts; [|exact Hg]. unfold heard_msg. cbn. set_solver.
  - done.
  - apply quiet_all. unfold validate_non_stun_traffic, find_remote_candidate. quiet_steps.
Qed.

Lemma entries_safe e : start_safe (ice_code cfg username_fits) ice_startable agent_ok (λ _, grows) e.
Proof.
  intros w _ _. destruct e; cbn [ice_code fst snd]; try (apply quiet_all; quiet_steps; fail); [apply receive_safe|].
  apply quiet_all. unfold agent_add_remote_candidate. quiet_steps.
Qed.

Lemma new_agent_ok b now : agent_ok (new_agent b now).
Proof. split; cbn; try set_solver; done. Qed.

End Threads.
