(* ===== verification/IceAgentDemo.v ===== *)
(** * Two ICE agents (rust/vendor/webrtc-ice/src/agent)

    Two agents of IceAgent.v that exchange their packets and select each other, the
    witness of the theorem of IceAgentSafe.v, and runs that show what the code does not
    do. *)

From Stdlib Require Import Ascii String.
From stdpp Require Import gmap.
From S2P Require Import Prelude Text Net Ice Threads IceAgent IceAgentSafe.

#[local] Existing Instance ascii_case_mapping.

Definition demo_settings : settings := init_with_defaults (Options None None None None None None None None 0) 7 false.
Definition any_name (_ : string) : bool := true.

Local Abbreviation ice_system := (system agent tick ice_name).
Local Abbreviation code := (ice_code demo_settings any_name).

Definition host (d p : Z) : CandidateBase :=
  {| cand_id := "c"; network_type_byte := 1; candidate_type := CtHost; component := 1; address := fmt_ip (V4 10 0 0 d); port := p;
     related_address := None; tcp_type := TcpUnspecified; resolved_addr := (V4 10 0 0 d, p); last_sent := 0; last_received := 0;
     foundation_override := ""; priority_override := 0; network := "udp" |}.

(** A packet on its way: the integrity holds for the password it was made with. *)
Definition arrive (p : packet_out) : packet_in :=
  match p with
  | BindingRequestOut id username uc controlling _ _ key =>
      StunIn (StunMsg true ClassRequest id uc controlling (negb controlling) (Some username) (λ pwd, bool_decide (pwd = key)))
  | BindingSuccessOut id _ key => StunIn (StunMsg true ClassSuccessResponse id false false false None (λ pwd, bool_decide (pwd = key)))
  | DataOut data => DataIn data
  end.

(** At second [t], with transactions numbered by [n]. *)
Definition at_second (t n : Z) : tick := Tick (from_secs t) (from_secs t) [Z_byte n] "prflx" true true.

(** The two sides, and what can be done: start something at a side, or deliver the [n]th
    packet the other side has sent, up to the end. *)
Inductive side_step : Type := At (left_ : bool) (e : ice_entry) (i : tick) | Deliver (left_ : bool) (n : nat) (i : tick).
Definition side_address (left_ : bool) : socket_addr := if left_ then (V4 10 0 0 1, 1000) else (V4 10 0 0 2, 2000).

Definition do_step (ss : list (sevent tick ice_name ice_entry) * ice_system * (list (sevent tick ice_name ice_entry) * ice_system))
    (st : side_step) :=
  let '(l, r) := ss in
  let run e i (x : list (sevent tick ice_name ice_entry) * ice_system) :=
    let evs := play code ice_startable [Begin e i 200] x.2 in (x.1 ++ evs, default x.2 (sys_run code ice_startable evs x.2)) in
  match st with
  | At true e i => (run e i l, r)
  | At false e i => (l, run e i r)
  | Deliver true n i =>
      match ag_wire (shared r.2) !! n with Some (p, _, _) => (run (Receives 0 (side_address false) (arrive p)) i l, r) | None => ss end
  | Deliver false n i =>
      match ag_wire (shared l.2) !! n with Some (p, _, _) => (l, run (Receives 0 (side_address true) (arrive p)) i r) | None => ss end
  end.

Definition both_start : list side_step :=
  [ At true (Restarts 0 "left" "left-password-16" "" "") (at_second 1 0); At false (Restarts 0 "right" "right-password16" "" "") (at_second 1 0);
    At true (AddsLocal 0 (host 1 1000)) (at_second 1 0); At false (AddsLocal 0 (host 2 2000)) (at_second 1 0);
    At true (AddsRemote 0 (host 2 2000)) (at_second 1 0); At false (AddsRemote 0 (host 1 1000)) (at_second 1 0);
    At true (StartsChecks 0 true "right" "right-password16") (at_second 1 0);
    At false (StartsChecks 0 false "left" "left-password-16") (at_second 1 0) ].

(** The left side checks the pair, is answered and checked in turn, nominates the pair,
    and is answered again. *)
Definition both_meet : list side_step :=
  both_start ++
  [ At true Contacts (at_second 2 1); Deliver false 0 (at_second 2 2); Deliver true 0 (at_second 2 0); Deliver true 1 (at_second 2 0);
    Deliver false 1 (at_second 2 0); At true Contacts (at_second 3 3); Deliver false 2 (at_second 3 0); Deliver true 2 (at_second 3 0) ].

Definition sides (steps : list side_step) :=
  let new b := ([], System (new_agent b 0) ∅) : list (sevent tick ice_name ice_entry) * ice_system in
  foldl do_step (new true, new false) steps.

Definition outcome_of (s : ice_system) := (ag_selected (shared s), ag_state (shared s), ag_checklist (shared s)).

Example agents_meet :
  let '(l, r) := sides both_meet in
  outcome_of l.2 = (Some 0%nat, StConnected, [0%nat]) ∧ outcome_of r.2 = (Some 0%nat, StConnected, [0%nat]).
Proof. vm_compute. done. Qed.


(** ** What the code does not do *)

(** With the default of seven binding requests, a pair that does not answer gets eight. *)
Example one_request_more :
  let s := (sides (both_start ++ [At true Contacts (at_second 2 1); At true Contacts (at_second 3 1); At true Contacts (at_second 4 1);
    At true Contacts (at_second 5 1); At true Contacts (at_second 6 1); At true Contacts (at_second 7 1); At true Contacts (at_second 8 1);
    At true Contacts (at_second 9 1); At true Contacts (at_second 10 1); At true Contacts (at_second 11 1)])).1.2 in
  max_binding_requests demo_settings = 7 ∧ length (ag_wire (shared s)) = 8%nat
  ∧ (po_state <$> ag_pairs (shared s) !! 0%nat) = Some (pair_state_u8 PairFailed).
Proof. vm_compute. done. Qed.

(** With a failed timeout of 0, which is to mean never, an agent that is checking fails
    after the disconnected timeout. *)
Definition never_failed : settings := init_with_defaults (Options None None None None None None (Some 0) None 0) 7 false.
Example fails_nevertheless :
  let script := [ Begin (StartsChecks 0 true "right" "right-password16") (at_second 1 0) 100; Begin Contacts (at_second 2 1) 100;
    Begin Contacts (at_second 8 1) 100 ] in
  let s0 := System (new_agent true 0) ∅ in
  (λ s, ag_state (shared s)) <$> sys_run (ice_code never_failed any_name) ice_startable (play (ice_code never_failed any_name) ice_startable script s0) s0
  = Some StFailed.
Proof. vm_compute. done. Qed.

(** An agent that is closed while a success is being handled ends up connected. *)
Example connected_after_close :
  let '(l, r) := sides (take 15 both_meet) in
  let answer := match ag_wire (shared r.2) !! 2%nat with Some (p, _, _) => arrive p | None => BrokenStunIn end in
  let script := [ Begin (Receives 0 (side_address false) answer) (at_second 3 0) 13; Begin (Closes 0) (at_second 4 0) 100;
    GoOn (TReceive 0) (at_second 4 0) 100 ] in
  (λ s, (ag_closed (shared s), ag_state (shared s))) <$> sys_run code ice_startable (play code ice_startable script l.2) l.2
  = Some (true, StConnected).
Proof. vm_compute. done. Qed.

(** The state of a pair is read, and written after the answer that made it succeed: the
    answer is lost. *)
Example success_lost :
  let '(l, r) := sides (take 12 both_meet) in
  let answer := match ag_wire (shared l.2) !! 1%nat with Some (p, _, _) => arrive p | None => BrokenStunIn end in
  let script := [ Begin (Receives 0 (side_address true) answer) (at_second 2 0) 8; Begin Contacts (at_second 2 0) 8;
    GoOn (TReceive 0) (at_second 2 0) 1; GoOn TContact (at_second 2 0) 1 ] in
  let state n := (λ s, po_state <$> ag_pairs (shared s) !! 0%nat) <$>
    sys_run code ice_startable (play code ice_startable (take n script) r.2) r.2 in
  (state 3%nat, state 4%nat) = (Some (Some (pair_state_u8 PairSucceeded)), Some (Some (pair_state_u8 PairInProgress))).
Proof. vm_compute. done. Qed.
