(* ===== verification/PyClient.v ===== *)
(** * The Python client library (clients/python/roboat/daemon.py)

    The agent's end of the IPC socket in Python: the receive loop, which hands the
    daemon's messages to streams, dials and the queue of incoming streams, and the calls
    of the application, as tasks of one event loop.  A task runs until it has to wait, so
    an event is a run of one task up to there, or data that arrive.

    Of asyncio, [StreamReader] is modelled: [readexactly] takes what is there, and waits
    for more unless another task waits already, which is a [RuntimeError]; arriving data
    wake up the task that waits.  A queue without a bound does not make a [put] wait, nor
    does a [drain] while the socket takes what is written.  [json.loads] and
    [base64.b64decode] are arguments; stream numbers are integers, as the daemon writes no
    others. *)

From Stdlib Require Import Ascii String.
From S2P Require Import Prelude Text Auth Ipc Mux Resolver Manager Server Node GoClient.

(** ** State *)

Record pystream : Type := PyStream {
  py_stream_id : Z;
  py_class : string;
  py_from_agent_id : string;
  py_queue : list (list byte);
}.

(** A future of a dial: waiting, a stream (by number), or an exception. *)
Inductive future : Type := Waiting | Resolved (n : nat) | Raised (msg : string).

(** Where a reader of messages is: before a header, or before a body of some length. *)
Inductive reading : Type := AtHeader | AtBody (n : Z).

(** A task that reads: able to run, waiting for data, or over. *)
Inductive task (R : Type) : Type := Ready (r : reading) | Blocked (r : reading) | Over (x : R).
Arguments Ready {R} _.
Arguments Blocked {R} _.
Arguments Over {R} _.

(** How [listen] ends: well, with the daemon's error, with another answer, or with an
    exception of the reader. *)
Inductive listen_end : Type := ListenOk | ListenFailed (msg : string) | ListenUnexpected | ListenRaised.

Inductive reader : Type := ByLoop | ByListen (k : nat).
#[export] Instance reader_eq_dec : EqDecision reader.
Proof. solve_decision. Defined.

(** [py_waiter]: the task that waits in the reader; [py_objs]: the [Stream] objects, of
    which [_streams] holds the current ones; [py_futures]: the futures of dials, by number,
    of which [_pending_dials] holds the open ones by request; [py_sent]: what was written. *)
Record pyclient : Type := Py {
  py_buffer : list byte;
  py_eof : bool;
  py_waiter : option reader;
  py_loop : task unit;
  py_listens : gmap nat (task listen_end);
  py_objs : gmap nat pystream;
  py_streams : gmap Z nat;
  py_incoming : list nat;
  py_futures : gmap nat future;
  py_pending : gmap string nat;
  py_sent : list object;
}.

(** After [connect]: the receive loop has been created and has not run yet. *)
Definition py_connected : pyclient := Py [] false None (Ready AtHeader) ∅ ∅ ∅ [] ∅ ∅ [].

Definition set_reader (buf : list byte) (waiter : option reader) (c : pyclient) : pyclient :=
  Py buf (py_eof c) waiter (py_loop c) (py_listens c) (py_objs c) (py_streams c) (py_incoming c) (py_futures c) (py_pending c) (py_sent c).
Definition set_loop (t : task unit) (c : pyclient) : pyclient :=
  Py (py_buffer c) (py_eof c) (py_waiter c) t (py_listens c) (py_objs c) (py_streams c) (py_incoming c) (py_futures c) (py_pending c) (py_sent c).
Definition set_listen (k : nat) (t : task listen_end) (c : pyclient) : pyclient :=
  Py (py_buffer c) (py_eof c) (py_waiter c) (py_loop c) (<[k := t]> (py_listens c)) (py_objs c) (py_streams c) (py_incoming c) (py_futures c)
    (py_pending c) (py_sent c).
Definition set_streams (objs : gmap nat pystream) (streams : gmap Z nat) (incoming : list nat) (c : pyclient) : pyclient :=
  Py (py_buffer c) (py_eof c) (py_waiter c) (py_loop c) (py_listens c) objs streams incoming (py_futures c) (py_pending c) (py_sent c).
Definition set_dials (futures : gmap nat future) (pending : gmap string nat) (c : pyclient) : pyclient :=
  Py (py_buffer c) (py_eof c) (py_waiter c) (py_loop c) (py_listens c) (py_objs c) (py_streams c) (py_incoming c) futures pending (py_sent c).
Definition py_send_msg (o : object) (c : pyclient) : pyclient :=
  Py (py_buffer c) (py_eof c) (py_waiter c) (py_loop c) (py_listens c) (py_objs c) (py_streams c) (py_incoming c) (py_futures c) (py_pending c)
    (py_sent c ++ [o]).

Section Python.
(** [json.loads] to an object, and [base64.b64decode]; [None] is an exception. *)
Context (json_loads : list byte → option object) (b64decode : string → option (list byte)).
(** [base64.b64encode], and [id] of a string object: its address. *)
Context (b64encode : list byte → string).
Implicit Types (c : pyclient).

(** ** Dispatch *)

(** [msg["stream_id"]] *)
Definition py_sid (msg : object) : option Z := match msg !! "stream_id" with Some (JNumber z) => Some z | _ => None end.

(** [msg.get(k, d)], for strings. *)
Definition py_get (k d : string) (msg : object) : string := match msg !! k with Some (JString s) => s | _ => d end.

(** A new [Stream] under its number, which may replace another. *)
Definition new_stream (sid : Z) (class from : string) c : nat * pyclient :=
  let n := base.fresh (dom (py_objs c)) in
  (n, set_streams (<[n := PyStream sid class from []]> (py_objs c)) (<[sid := n]> (py_streams c)) (py_incoming c) c).

(** The open future of a request is taken out of the table. *)
Definition pop_dial (msg : object) c : option nat * pyclient :=
  let r := match msg !! "request_id" with Some (JString s) => Some s | None => Some "" | _ => None end in
  (f ← (r ← r; py_pending c !! r); match py_futures c !! f with Some Waiting => Some f | _ => None end,
   match r with Some r => set_dials (py_futures c) (delete r (py_pending c)) c | None => c end).

(** [None] is an exception. *)
Definition py_dispatch (msg : object) c : option pyclient :=
  let op := py_get "op" "" msg in
  if bool_decide (op = "recv") then
    sid ← py_sid msg;
    match n ← py_streams c !! sid; s ← py_objs c !! n; Some (n, s) with
    | None => Some c
    | Some (n, s) =>
        data ← get_string "data" msg;
        raw ← b64decode data;
        Some (set_streams (<[n := PyStream (py_stream_id s) (py_class s) (py_from_agent_id s) (py_queue s ++ [raw])]> (py_objs c))
                (py_streams c) (py_incoming c) c)
    end
  else if bool_decide (op = "incoming") then
    sid ← py_sid msg;
    let '(n, c) := new_stream sid (py_get "class" "control" msg) (py_get "from_agent_id" "" msg) c in
    Some (set_streams (py_objs c) (py_streams c) (py_incoming c ++ [n]) c)
  else if bool_decide (op = "connected") then
    match pop_dial msg c with
    | (None, c) => Some c
    | (Some f, c) =>
        sid ← py_sid msg;
        let '(n, c) := new_stream sid "control" (py_get "target_agent_id" "" msg) c in
        Some (set_dials (<[f := Resolved n]> (py_futures c)) (py_pending c) c)
    end
  else if bool_decide (op = "closed") then
    sid ← py_sid msg;
    Some (set_streams (py_objs c) (delete sid (py_streams c)) (py_incoming c) c)
  else if bool_decide (op = "error") then
    match pop_dial msg c with
    | (None, c) => Some c
    | (Some f, c) => Some (set_dials (<[f := Raised (py_get "message" "unknown error" msg)]> (py_futures c)) (py_pending c) c)
    end
  else Some c.

(** ** Reading *)

(** What a reader can do with the buffer: take [n] bytes, wait, or fail and leave some
    buffer: at the end of the stream with [IncompleteReadError], which takes what is left,
    and beside another waiting task with [RuntimeError]. *)
Inductive read_step : Type := Taken (bs rest : list byte) | MustWait | ReadFails (rest : list byte).
Definition readexactly (n : Z) c : read_step :=
  if n <=? zlen (py_buffer c) then Taken (take (Z.to_nat n) (py_buffer c)) (drop (Z.to_nat n) (py_buffer c))
  else if py_eof c then ReadFails []
  else match py_waiter c with Some _ => ReadFails (py_buffer c) | None => MustWait end.

(** What a message that raises has done before: [connected] has taken its dial out. *)
Definition dispatch_raised (msg : option object) c : pyclient :=
  match msg with
  | Some msg => if bool_decide (py_get "op" "" msg = "connected") then (pop_dial msg c).2 else c
  | None => c
  end.

(** The receive loop until it waits or is over; each message takes at least its header
    off the buffer, in two rounds. *)
Fixpoint py_recv_loop (fuel : nat) (r : reading) c : pyclient :=
  match fuel with
  | O => c
  | S fuel =>
      match readexactly (match r with AtHeader => 4 | AtBody n => n end) c with
      | MustWait => set_loop (Blocked r) (set_reader (py_buffer c) (Some ByLoop) c)
      | ReadFails rest => set_loop (Over tt) (set_reader rest (py_waiter c) c)
      | Taken bs rest =>
          let c := set_reader rest (py_waiter c) c in
          match r with
          | AtHeader => if be_value bs >? MAX_MSG_SIZE then set_loop (Over tt) c else py_recv_loop fuel (AtBody (be_value bs)) c
          | AtBody _ =>
              match json_loads bs ≫= (λ msg, py_dispatch msg c) with
              | None => set_loop (Over tt) (dispatch_raised (json_loads bs) c)
              | Some c => py_recv_loop fuel AtHeader c
              end
          end
      end
  end.

(** What [listen] makes of the answer. *)
Definition listen_answer (resp : object) : listen_end :=
  if bool_decide (py_get "op" "" resp = "error") then ListenFailed (py_get "message" "None" resp)
  else if bool_decide (py_get "op" "" resp = "listening") then ListenOk
  else ListenUnexpected.

(** [_read_msg] of a [listen], in at most two rounds. *)
Fixpoint py_listen_reads (fuel : nat) (k : nat) (r : reading) c : pyclient :=
  match fuel with
  | O => c
  | S fuel =>
      match readexactly (match r with AtHeader => 4 | AtBody n => n end) c with
      | MustWait => set_listen k (Blocked r) (set_reader (py_buffer c) (Some (ByListen k)) c)
      | ReadFails rest => set_listen k (Over ListenRaised) (set_reader rest (py_waiter c) c)
      | Taken bs rest =>
          let c := set_reader rest (py_waiter c) c in
          match r with
          | AtHeader =>
              if be_value bs >? MAX_MSG_SIZE then set_listen k (Over ListenRaised) c else py_listen_reads fuel k (AtBody (be_value bs)) c
          | AtBody _ =>
              set_listen k (Over (match json_loads bs with Some resp => listen_answer resp | None => ListenRaised end)) c
          end
      end
  end.

(** ** Events *)

(** Optional fields are left out if they are empty. *)
Definition listen_request (agent_id token endpoint : string) : object :=
  let o : object := {["op" := JString "listen"; "agent_id" := JString agent_id]} in
  let o := if bool_decide (token = "") then o else <["registry_token" := JString token]> o in
  if bool_decide (endpoint = "") then o else <["tunnel_endpoint" := JString endpoint]> o.

(** [address]: that of the string object the application passes. *)
Definition py_dial (address : Z) (target class : string) c : nat * pyclient :=
  let request_id := "dial-" +:+ decimal address in
  let f := base.fresh (dom (py_futures c)) in
  (f, py_send_msg {["op" := JString "dial"; "target_agent_id" := JString target; "stream_class" := JString class;
                    "request_id" := JString request_id]}
        (set_dials (<[f := Waiting]> (py_futures c)) (<[request_id := f]> (py_pending c)) c)).

Definition py_send (s : pystream) (data : list byte) c : pyclient :=
  py_send_msg {["op" := JString "send"; "stream_id" := JNumber (py_stream_id s); "data" := JString (b64encode data)]} c.

(** The result is whether the [del] finds the stream, and else there is a [KeyError]. *)
Definition py_close (s : pystream) c : bool * pyclient :=
  let c := py_send_msg {["op" := JString "close"; "stream_id" := JNumber (py_stream_id s)]} c in
  (bool_decide (is_Some (py_streams c !! py_stream_id s)),
   set_streams (py_objs c) (delete (py_stream_id s) (py_streams c)) (py_incoming c) c).

Inductive pyevent : Type :=
| Feed (bs : list byte)
| FeedEof
| RunLoop
| StartListen (k : nat) (agent_id token endpoint : string)
| RunListen (k : nat)
| StartDial (address : Z) (target class : string)
| StreamSend (n : nat) (data : list byte)
| StreamRecv (n : nat)
| StreamClose (n : nat)
| NextIncoming.

(** The task that waits can run. *)
Definition wake_up c : pyclient :=
  let unblock {R} (t : task R) := match t with Blocked r => Ready r | t => t end in
  match py_waiter c with
  | None => c
  | Some ByLoop => set_reader (py_buffer c) None (set_loop (unblock (py_loop c)) c)
  | Some (ByListen k) =>
      set_reader (py_buffer c) None (match py_listens c !! k with Some t => set_listen k (unblock t) c | None => c end)
  end.

Definition py_step (e : pyevent) c : option pyclient :=
  match e with
  | Feed bs => Some (wake_up (set_reader (py_buffer c ++ bs) (py_waiter c) c))
  | FeedEof =>
      Some (wake_up (Py (py_buffer c) true (py_waiter c) (py_loop c) (py_listens c) (py_objs c) (py_streams c) (py_incoming c) (py_futures c)
                       (py_pending c) (py_sent c)))
  | RunLoop => match py_loop c with Ready r => Some (py_recv_loop (S (2 * S (length (py_buffer c)))) r c) | _ => None end
  | StartListen k agent_id token endpoint =>
      match py_listens c !! k with
      | Some _ => None
      | None => Some (py_listen_reads 2 k AtHeader (py_send_msg (listen_request agent_id token endpoint) c))
      end
  | RunListen k => match py_listens c !! k with Some (Ready r) => Some (py_listen_reads 2 k r c) | _ => None end
  | StartDial address target class => Some (py_dial address target class c).2
  | StreamSend n data => s ← py_objs c !! n; Some (py_send s data c)
  | StreamRecv n =>
      s ← py_objs c !! n;
      match py_queue s with
      | [] => None
      | _ :: q =>
          Some (set_streams (<[n := PyStream (py_stream_id s) (py_class s) (py_from_agent_id s) q]> (py_objs c)) (py_streams c) (py_incoming c) c)
      end
  | StreamClose n => s ← py_objs c !! n; Some (py_close s c).2
  | NextIncoming => match py_incoming c with [] => None | _ :: l => Some (set_streams (py_objs c) (py_streams c) l c) end
  end.

Definition py_run (es : list pyevent) c : option pyclient := foldl (λ s e, s ≫= py_step e) (Some c) es.

Lemma py_run_app es es' c : py_run (es ++ es') c = py_run es c ≫= py_run es'.
Proof.
  unfold py_run. rewrite foldl_app. destruct (foldl _ (Some c) es) as [c'|]; [done|]. by induction es'.
Qed.

(** ** The receive loop *)

(** The parts of the state a message does not change. *)
Lemma dispatch_keeps msg c c' :
  py_dispatch msg c = Some c' →
  py_buffer c' = py_buffer c ∧ py_loop c' = py_loop c ∧ py_waiter c' = py_waiter c ∧ py_eof c' = py_eof c ∧ py_listens c' = py_listens c.
Proof.
  unfold py_dispatch, new_stream, pop_dial. intros H. repeat (case_match || (apply bind_Some in H as (? & ? & H))); by simplify_eq/=.
Qed.

(** The fuel is enough: the loop ends, or waits for data. *)
Definition settled {R} (t : task R) : bool := match t with Ready _ => false | _ => true end.
Lemma recv_loop_settles fuel r c :
  (2 * length (py_buffer c) + (match r with AtHeader => 0 | AtBody _ => 1 end) < fuel)%nat →
  settled (py_loop (py_recv_loop fuel r c)) = true.
Proof.
  revert r c. induction fuel as [|fuel IH]; intros r c Hf; [lia|]. cbn [py_recv_loop]. unfold readexactly.
  destruct r as [|n]; (destruct (_ <=? zlen (py_buffer c)) eqn:En; [|by repeat case_match]); apply Z.leb_le in En; cbn [py_waiter].
  - destruct (be_value _ >? MAX_MSG_SIZE); [done|]. apply IH. cbn. rewrite length_drop. lia.
  - destruct (json_loads _ ≫= _) as [c'|] eqn:Ed; [|done]. apply bind_Some in Ed as (msg & _ & (Hb & _)%dispatch_keeps).
    apply IH. rewrite Hb. cbn. rewrite length_drop. lia.
Qed.

Lemma run_loop_settles c c' : py_step RunLoop c = Some c' → settled (py_loop c') = true.
Proof.
  unfold py_step. destruct (py_loop c) as [r| |]; try done. intros <-%(inj Some). apply recv_loop_settles. destruct r; lia.
Qed.

Lemma listen_reads_keeps fuel k r c :
  let c' := py_listen_reads fuel k r c in
  py_loop c' = py_loop c ∧ py_incoming c' = py_incoming c ∧ py_futures c' = py_futures c ∧ py_objs c' = py_objs c ∧ py_streams c' = py_streams c.
Proof.
  revert r c. induction fuel as [|fuel IH]; intros r c; cbn [py_listen_reads]; [done|].
  destruct (readexactly _ c) as [bs rest| |rest]; [|done..]. destruct r; [|done]. cbv zeta. case_match; [done|].
  by destruct (IH (AtBody (be_value bs)) (set_reader rest (py_waiter c) c)) as (-> & -> & -> & -> & ->).
Qed.

Lemma wake_up_keeps c :
  let c' := wake_up c in
  (py_loop c = Over tt → py_loop c' = Over tt) ∧ py_incoming c' = py_incoming c ∧ py_futures c' = py_futures c ∧ py_objs c' = py_objs c
  ∧ py_streams c' = py_streams c.
Proof. unfold wake_up. repeat case_match; split_and!; try done; by intros ->. Qed.

(** ** Streams *)

(** The current stream of a number has it. *)
Definition py_wf c : Prop := map_Forall (λ sid n, ∃ s, py_objs c !! n = Some s ∧ py_stream_id s = sid) (py_streams c).

Lemma py_wf_keeps c c' : py_objs c' = py_objs c → py_streams c' = py_streams c → py_wf c → py_wf c'.
Proof. unfold py_wf. by intros -> ->. Qed.

(** The objects keep their numbers, and some streams are no longer current. *)
Lemma py_wf_objs c c' :
  py_wf c → py_streams c' ⊆ py_streams c →
  (∀ n s, py_objs c !! n = Some s → ∃ s', py_objs c' !! n = Some s' ∧ py_stream_id s' = py_stream_id s) → py_wf c'.
Proof.
  intros Hw Hs Ho sid n Hn. destruct (Hw sid n (lookup_weaken _ _ _ _ Hn Hs)) as (s & Es & <-). by apply Ho.
Qed.

Lemma new_stream_wf sid class from c : py_wf c → py_wf (new_stream sid class from c).2.
Proof.
  intros Hw x n. cbn. assert (Hf : py_objs c !! base.fresh (dom (py_objs c)) = None) by apply not_elem_of_dom, is_fresh.
  rewrite lookup_insert. case_decide as E.
  - intros [= <-]. subst x. rewrite lookup_insert_eq. by eexists.
  - intros (s & Hs & Hx)%Hw. exists s. by rewrite lookup_insert_ne by congruence.
Qed.

Lemma pop_dial_keeps msg c : py_objs (pop_dial msg c).2 = py_objs c ∧ py_streams (pop_dial msg c).2 = py_streams c.
Proof. unfold pop_dial. by repeat case_match. Qed.

Lemma py_dispatch_wf msg c c' : py_wf c → py_dispatch msg c = Some c' → py_wf c'.
Proof.
  intros Hw. unfold py_dispatch. repeat case_bool_decide.
  - intros (sid & _ & Hd)%bind_Some. destruct (n ← py_streams c !! sid; s ← py_objs c !! n; Some (n, s)) as [[n s]|] eqn:E; [|by simplify_eq].
    apply bind_Some in Hd as (d & _ & (raw & _ & Hd)%bind_Some). apply bind_Some in E as (n' & _ & (s' & Hs & ?)%bind_Some). simplify_eq.
    eapply py_wf_objs; [done|done|]. cbn. intros x t Hx. rewrite lookup_insert. case_decide; [|by eexists]. subst. eexists. by simplify_eq.
  - intros (sid & _ & Hd)%bind_Some. pose proof (new_stream_wf sid (py_get "class" "control" msg) (py_get "from_agent_id" "" msg) c Hw) as Hn.
    destruct (new_stream _ _ _ c) as [n c1]. simplify_eq. by eapply py_wf_keeps; [| |exact Hn].
  - pose proof (pop_dial_keeps msg c) as [Ho Hst]. destruct (pop_dial msg c) as [[f|] c1]; cbn in Ho, Hst.
    + intros (sid & _ & Hd)%bind_Some. pose proof (new_stream_wf sid "control" (py_get "target_agent_id" "" msg) c1 (py_wf_keeps _ _ Ho Hst Hw)) as Hn.
      destruct (new_stream _ _ _ c1) as [n c2]. simplify_eq. by eapply py_wf_keeps; [| |exact Hn].
    + intros [= <-]. by eapply py_wf_keeps.
  - intros (sid & _ & [= <-])%bind_Some. eapply py_wf_objs; [done|apply delete_subseteq|]. intros. by eexists.
  - pose proof (pop_dial_keeps msg c) as [Ho Hst]. destruct (pop_dial msg c) as [[f|] c1]; intros [= <-]; by eapply py_wf_keeps.
  - by intros [= <-].
Qed.

Lemma dispatch_raised_wf msg c : py_wf c → py_wf (dispatch_raised msg c).
Proof.
  intros Hw. unfold dispatch_raised. destruct msg as [msg|]; [|done]. case_match; [|done].
  destruct (pop_dial_keeps msg c) as [Ho Hs]. by eapply py_wf_keeps.
Qed.

Lemma recv_loop_wf fuel r c : py_wf c → py_wf (py_recv_loop fuel r c).
Proof.
  revert r c. induction fuel as [|fuel IH]; intros r c Hw; cbn [py_recv_loop]; [done|].
  destruct (readexactly _ c) as [bs rest| |rest]; [|by eapply py_wf_keeps..]. cbv zeta.
  assert (Hw1 : py_wf (set_reader rest (py_waiter c) c)) by by eapply py_wf_keeps. destruct r.
  - case_match; [by eapply py_wf_keeps|by apply IH].
  - destruct (json_loads bs ≫= _) as [c1|] eqn:E;
      [|by apply dispatch_raised_wf]. apply bind_Some in E as (msg & _ & E). apply IH. by eapply py_dispatch_wf.
Qed.

Lemma py_step_wf e c c' : py_wf c → py_step e c = Some c' → py_wf c'.
Proof.
  intros Hw. destruct e as [bs| | |k a t u|k|addr t cl|n d|n|n| ]; unfold py_step.
  - intros <-%(inj Some). destruct (wake_up_keeps (set_reader (py_buffer c ++ bs) (py_waiter c) c)) as (_ & _ & _ & H1 & H2). by eapply py_wf_keeps.
  - intros <-%(inj Some). match goal with |- py_wf (wake_up ?x) => destruct (wake_up_keeps x) as (_ & _ & _ & H1 & H2) end. by eapply py_wf_keeps.
  - destruct (py_loop c); try done. intros <-%(inj Some). by apply recv_loop_wf.
  - destruct (py_listens c !! k); [done|]. intros <-%(inj Some).
    match goal with |- py_wf (py_listen_reads 2 ?k ?r ?x) => destruct (listen_reads_keeps 2 k r x) as (_ & _ & _ & H1 & H2) end. by eapply py_wf_keeps.
  - destruct (py_listens c !! k) as [[r| |]|]; try done. intros <-%(inj Some).
    destruct (listen_reads_keeps 2 k r c) as (_ & _ & _ & H1 & H2). by eapply py_wf_keeps.
  - intros <-%(inj Some). by eapply py_wf_keeps.
  - intros (s & _ & [= <-])%bind_Some. by eapply py_wf_keeps.
  - intros (s & Hs & H)%bind_Some. destruct (py_queue s); simplify_eq. eapply py_wf_objs; [done|done|]. cbn. intros x t Hx.
    rewrite lookup_insert. case_decide; [subst|by eexists]. eexists. by simplify_eq.
  - intros (s & _ & [= <-])%bind_Some. eapply py_wf_objs; [done|apply delete_subseteq|]. intros. by eexists.
  - destruct (py_incoming c); [done|]. intros [= <-]. by eapply py_wf_keeps.
Qed.

Lemma py_run_wf es c c' : py_wf c → py_run es c = Some c' → py_wf c'.
Proof.
  intros Hw. revert c'. induction es as [|e es IH] using rev_ind; intros c'; [by intros [= <-]|].
  rewrite py_run_app. intros (c1 & H1 & H2)%bind_Some. eapply py_step_wf; [by apply IH|exact H2].
Qed.

(** Messages one after the other. *)
Definition py_handles (ms : list DaemonMsg) c : option pyclient := foldl (λ s m, s ≫= py_dispatch (daemon_object m)) (Some c) ms.

(** Stream [sid] is object [n], whose queue is [q]. *)
Definition py_holds c (sid : Z) (n : nat) (q : list (list byte)) : Prop :=
  py_streams c !! sid = Some n ∧ ∃ s, py_objs c !! n = Some s ∧ py_queue s = q.

Lemma new_stream_holds x class from c sid n q : x ≠ sid → py_holds c sid n q → py_holds (new_stream x class from c).2 sid n q.
Proof.
  intros Hx (Hs & s & Ho & Hq). assert (Hf : py_objs c !! base.fresh (dom (py_objs c)) = None) by apply not_elem_of_dom, is_fresh.
  split; cbn; [by rewrite lookup_insert_ne|]. exists s. by rewrite lookup_insert_ne by congruence.
Qed.

Lemma recv_holds x d c c' sid n q :
  py_wf c → py_holds c sid n q → py_dispatch (daemon_object (Recv x d)) c = Some c' →
  ∃ ds, mapM b64decode (data_for sid [Recv x d]) = Some ds ∧ py_holds c' sid n (q ++ ds).
Proof.
  intros Hw (Hs & s & Ho & <-). cbn [data_for omap list_omap].
  change (py_dispatch (daemon_object (Recv x d)) c)
    with (match n ← py_streams c !! x; s ← py_objs c !! n; Some (n, s) with
          | None => Some c
          | Some (n, s) => raw ← b64decode d;
              Some (set_streams (<[n := PyStream (py_stream_id s) (py_class s) (py_from_agent_id s) (py_queue s ++ [raw])]> (py_objs c))
                      (py_streams c) (py_incoming c) c)
          end).
  case_bool_decide as E; [subst x; rewrite Hs; cbn; rewrite Ho; cbn|].
  - destruct (b64decode d) as [raw|]; [|done]. intros [= <-]. exists [raw]. split; [done|]. split; [done|]. cbn. rewrite lookup_insert_eq. by eexists.
  - destruct (py_streams c !! x) as [k|] eqn:Ek; cbn; [|intros [= <-]; exists []; rewrite app_nil_r; by split; [|split; [|exists s]]].
    destruct (Hw x k Ek) as (sk & Hk & Hx). destruct (Hw sid n Hs) as (sn & Hn & Hx'). rewrite Hk. cbn.
    destruct (b64decode d); [|done]. intros [= <-]. exists []. rewrite app_nil_r. split; [done|]. split; [done|]. exists s. cbn.
    rewrite lookup_insert_ne by congruence. done.
Qed.

Lemma dispatch_holds m c c' sid n q :
  py_wf c → py_holds c sid n q → passing sid m → py_dispatch (daemon_object m) c = Some c' →
  ∃ ds, mapM b64decode (data_for sid [m]) = Some ds ∧ py_holds c' sid n (q ++ ds).
Proof.
  intros Hw Hh Hp. destruct m as [a|x t r|x f cl|x d|x r| |cd t r]; cbn [data_for omap list_omap passing] in *.
  - intros [= <-]. exists []. by rewrite app_nil_r.
  - intros Hd. exists []. rewrite app_nil_r. split; [done|]. revert Hd. unfold py_dispatch.
    assert (Eo : py_get "op" "" (daemon_object (Connected x t r)) = "connected") by by destruct r.
    assert (Es : py_sid (daemon_object (Connected x t r)) = Some x) by by destruct r. rewrite Eo, Es. cbn -[new_stream pop_dial daemon_object].
    pose proof (pop_dial_keeps (daemon_object (Connected x t r)) c) as [H1 H2]. destruct (pop_dial _ c) as [[g|] c1]; cbn in H1, H2.
    + assert (Hh1 : py_holds c1 sid n q) by (unfold py_holds; by rewrite H1, H2).
      pose proof (new_stream_holds x "control" (py_get "target_agent_id" "" (daemon_object (Connected x t r))) c1 _ _ _ Hp Hh1) as Hn.
      destruct (new_stream _ _ _ c1) as [k c2]. intros [= <-]. exact Hn.
    + intros [= <-]. unfold py_holds. by rewrite H1, H2.
  - intros Hd. exists []. rewrite app_nil_r. split; [done|]. revert Hd. pose proof (new_stream_holds x (class_name cl) f c _ _ _ Hp Hh) as Hn.
    change (py_dispatch (daemon_object (Incoming x f cl)) c)
      with (let '(k, c1) := new_stream x (class_name cl) f c in Some (set_streams (py_objs c1) (py_streams c1) (py_incoming c1 ++ [k]) c1)).
    destruct (new_stream _ _ _ c) as [k c2]. intros [= <-]. exact Hn.
  - by apply recv_holds.
  - intros Hd. exists []. rewrite app_nil_r. split; [done|]. assert (c' = set_streams (py_objs c) (delete x (py_streams c)) (py_incoming c) c) as ->.
    { revert Hd. destruct r; by intros [= <-]. }
    destruct Hh as (Hs & s & Ho & <-). split; cbn; [by rewrite lookup_delete_ne|by exists s].
  - intros [= <-]. exists []. by rewrite app_nil_r.
  - intros Hd. exists []. rewrite app_nil_r. split; [done|]. revert Hd. unfold py_dispatch.
    assert (Eo : py_get "op" "" (daemon_object (MsgError cd t r)) = "error") by by destruct r. rewrite Eo. cbn -[pop_dial daemon_object].
    pose proof (pop_dial_keeps (daemon_object (MsgError cd t r)) c) as [H1 H2]. destruct (pop_dial _ c) as [[g|] c1]; cbn in H1, H2;
      intros [= <-]; unfold py_holds; cbn; by rewrite H1, H2.
Qed.

(** What the client does with the daemon's messages: a stream that was announced and
    has not ended gets the data of the messages for it, decoded, each once and in order,
    whatever other streams and dials do. *)
Theorem python_delivery es c ms c' sid n q :
  py_run es py_connected = Some c → py_holds c sid n q → Forall (passing sid) ms → py_handles ms c = Some c' →
  ∃ ds, mapM b64decode (data_for sid ms) = Some ds ∧ py_holds c' sid n (q ++ ds).
Proof.
  intros Hrun Hh Hp. assert (Hw : py_wf c) by (eapply py_run_wf; [|done]; apply map_Forall_empty). clear Hrun.
  unfold py_handles. revert c' Hp. induction ms as [|m ms IH] using rev_ind; intros c'.
  - intros _ [= <-]. exists []. by rewrite app_nil_r.
  - intros [Hp Hm]%Forall_app. rewrite foldl_app. intros (c1 & H1 & H2)%bind_Some. destruct (IH c1 Hp H1) as (ds & Hds & Hh1).
    assert (Hw1 : py_wf c1).
    { clear -H1 Hw. revert c1 H1. induction ms as [|m ms IH] using rev_ind; intros c1; [by intros [= <-]|].
      rewrite foldl_app. intros (c2 & H2 & H3)%bind_Some. eapply py_dispatch_wf; [by apply IH|done]. }
    apply Forall_cons_1 in Hm as [Hm _]. destruct (dispatch_holds m c1 c' sid n _ Hw1 Hh1 Hm H2) as (ds' & Hds' & Hh').
    exists (ds ++ ds'). rewrite app_assoc. split; [|done]. unfold data_for in *. rewrite omap_app.
    apply mapM_Some. apply mapM_Some in Hds, Hds'. by apply Forall2_app.
Qed.

(** ** Listening *)

(** The receive loop is over and nothing has come in: no stream, and no answer to a dial. *)
Record deaf c : Prop := Deaf {
  df_loop : py_loop c = Over tt;
  df_objs : py_objs c = ∅;
  df_incoming : py_incoming c = [];
  df_futures : map_Forall (λ _ f, f = Waiting) (py_futures c);
}.

Lemma py_step_deaf e c c' : deaf c → py_step e c = Some c' → deaf c'.
Proof.
  intros [H1 H2 H3 H4]. destruct e as [bs| | |k a t u|k|addr t cl|n d|n|n| ]; unfold py_step; rewrite ?H1, ?H2, ?H3, ?lookup_empty; try done.
  - intros <-%(inj Some). destruct (wake_up_keeps (set_reader (py_buffer c ++ bs) (py_waiter c) c)) as (E1 & E2 & E3 & E4 & _).
    split; [by apply E1|by rewrite E4|by rewrite E2|by rewrite E3].
  - intros <-%(inj Some). match goal with |- deaf (wake_up ?x) => destruct (wake_up_keeps x) as (E1 & E2 & E3 & E4 & _) end.
    split; [by apply E1|by rewrite E4|by rewrite E2|by rewrite E3].
  - destruct (py_listens c !! k); [done|]. intros <-%(inj Some).
    match goal with |- deaf (py_listen_reads 2 ?k ?r ?x) => destruct (listen_reads_keeps 2 k r x) as (E1 & E2 & E3 & E4 & _) end.
    split; [by rewrite E1|by rewrite E4|by rewrite E2|by rewrite E3].
  - destruct (py_listens c !! k) as [[r| |]|]; try done. intros <-%(inj Some).
    destruct (listen_reads_keeps 2 k r c) as (E1 & E2 & E3 & E4 & _). split; [by rewrite E1|by rewrite E4|by rewrite E2|by rewrite E3].
  - intros <-%(inj Some). split; try done. cbn. apply map_Forall_insert_2; done.
Qed.

Lemma py_run_deaf es c c' : deaf c → py_run es c = Some c' → deaf c'.
Proof.
  intros Hd. revert c'. induction es as [|e es IH] using rev_ind; intros c'; [by intros [= <-]|].
  rewrite py_run_app. intros (c1 & H1 & H2)%bind_Some. eapply py_step_deaf; [by apply IH|exact H2].
Qed.

(** [connect] and then [listen], as the class describes its use: the receive loop runs for
    the first time while [listen] waits for its answer, is refused by the reader, and is
    over; whatever happens from then on, no stream comes in and no dial is answered. *)
Theorem listen_silences k agent_id token endpoint es c :
  py_run (StartListen k agent_id token endpoint :: RunLoop :: es) py_connected = Some c → deaf c.
Proof.
  change (StartListen k agent_id token endpoint :: RunLoop :: es) with ([StartListen k agent_id token endpoint; RunLoop] ++ es).
  rewrite py_run_app. intros (c1 & H1 & H2)%bind_Some. eapply py_run_deaf; [|exact H2].
  revert H1. intros [= <-]. by split.
Qed.

(** Where the loop waits already, it is [listen] that is refused. *)
Lemma listen_refused k agent_id token endpoint c c' :
  py_waiter c ≠ None → zlen (py_buffer c) < 4 → py_step (StartListen k agent_id token endpoint) c = Some c' →
  py_listens c' !! k = Some (Over ListenRaised).
Proof.
  intros Hw Hb. unfold py_step. destruct (py_listens c !! k) as [|]; [done|]. intros <-%(inj Some).
  cbn [py_listen_reads]. unfold readexactly. cbn [py_send_msg py_buffer py_eof py_waiter]. destruct (4 <=? zlen (py_buffer c)) eqn:E; [lia|].
  destruct (py_eof c); [apply lookup_insert_eq|]. destruct (py_waiter c); [apply lookup_insert_eq|done].
Qed.
End Python.

(** ** Examples *)

(** A decoder that knows the messages of the example, by number. *)
Definition demo_loads (ms : list DaemonMsg) (bs : list byte) : option object :=
  match bs with [b] => daemon_object <$> ms !! Z.to_nat (byte_Z b) | _ => None end.
Definition demo_frame (n : Z) : list byte := be_bytes 4 1 ++ [Z_byte n].
Definition demo_b64 (s : string) : option (list byte) := result_ok (toy_hex_decode s).

Definition demo_dial : list pyevent :=
  [RunLoop; StartDial 7 "agt_b" "control"; Feed (demo_frame 0); RunLoop].
Local Abbreviation demo_run ms es := (py_run (demo_loads ms) demo_b64 hex_encode es py_connected).
Definition demo_messages : list DaemonMsg := [Connected 3 "agt_b" (Some "dial-7"); Recv 3 "0102"; Recv 5 "ff"; Recv 3 "03"; MsgClosed 3 None].

Definition demo_client : pyclient := Eval vm_compute in default py_connected (demo_run demo_messages demo_dial).
Definition demo_later : list DaemonMsg := take 3 (drop 1 demo_messages).
Definition demo_end : pyclient := Eval vm_compute in default py_connected (py_handles demo_b64 demo_later demo_client).

Lemma python_delivery_witness :
  demo_run demo_messages demo_dial = Some demo_client ∧ py_handles demo_b64 demo_later demo_client = Some demo_end
  ∧ py_holds demo_end 3 0 [[x01; x02]; [x03]].
Proof.
  assert (H1 : demo_run demo_messages demo_dial = Some demo_client) by (vm_compute; reflexivity).
  assert (H2 : py_handles demo_b64 demo_later demo_client = Some demo_end) by (vm_compute; reflexivity).
  split; [exact H1|]. split; [exact H2|].
  destruct (python_delivery (demo_loads demo_messages) demo_b64 hex_encode demo_dial demo_client demo_later demo_end 3 0 []) as (ds & E & H).
  - exact H1.
  - split; [reflexivity|]. eexists. split; reflexivity.
  - repeat constructor; cbn; lia.
  - exact H2.
  - vm_compute in E. injection E as <-. exact H.
Defined.

Lemma listen_silences_witness :
  ∃ c, demo_run [Listening "agt_b"; Incoming 4 "agt_a" Control]
         [StartListen 0 "agt_b" "" ""; RunLoop; Feed (demo_frame 0); RunListen 0; Feed (demo_frame 1)] = Some c
    ∧ py_listens c !! 0%nat = Some (Over ListenOk) ∧ py_incoming c = [].
Proof.
  eexists. split; [vm_compute; reflexivity|]. split; [reflexivity|].
  eapply (df_incoming _ (listen_silences (demo_loads [Listening "agt_b"; Incoming 4 "agt_a" Control]) demo_b64 hex_encode 0 "agt_b" "" ""
    [Feed (demo_frame 0); RunListen 0; Feed (demo_frame 1)] _ _)).
  Unshelve. vm_compute. reflexivity.
Defined.

(** Two dials of one string object share their request: one is never answered. *)
Example dials_collide :
  py_futures <$> demo_run [Connected 3 "agt_b" (Some "dial-7"); Connected 5 "agt_b" (Some "dial-7")]
    [RunLoop; StartDial 7 "agt_b" "control"; StartDial 7 "agt_b" "control"; Feed (demo_frame 0); RunLoop; Feed (demo_frame 1); RunLoop]
  = Some {[0%nat := Waiting; 1%nat := Resolved 0]}.
Proof. vm_compute. reflexivity. Qed.

(** Data that come before their stream is announced are lost. *)
Example python_early_data :
  (λ c, py_queue <$> py_objs c !! 0%nat) <$> demo_run [Recv 4 "01"; Incoming 4 "agt_a" Control]
    [RunLoop; Feed (demo_frame 0); RunLoop; Feed (demo_frame 1); RunLoop]
  = Some (Some []).
Proof. vm_compute. reflexivity. Qed.

(** A stream that the other side has closed cannot be closed: there is a [KeyError]. *)
Example close_after_closed :
  (λ c, (λ s, (py_close s c).1) <$> py_objs c !! 0%nat) <$> demo_run demo_messages (demo_dial ++ [Feed (demo_frame 4); RunLoop])
  = Some (Some false).
Proof. vm_compute. reflexivity. Qed.

(** One message with bad data ends the receive loop. *)
Example bad_data_ends_loop :
  py_loop <$> demo_run [Incoming 4 "agt_a" Control; Recv 4 "0"] [RunLoop; Feed (demo_frame 0 ++ demo_frame 1); RunLoop] = Some (Over tt).
Proof. vm_compute. reflexivity. Qed.
